(* ===== verification/_CoqProject ===== *)
-Q . S2P
Prelude.v
ProtocolEvents.v
Cluster.v
History.v
ClusterInvariant.v
ClusterAtoms.v
ClusterRounds.v
ClusterLeader.v
ClusterSafety.v
ClusterVoters.v
ClusterTotality.v
HistorySoundness.v
ClusterProperties.v
ReadModel.v
ReadSafety.v
ReadExplore.v
ReadProperties.v
Bytes.v
Sha256.v
Crc32c.v
Wire.v
Files.v
StorageInspector.v
StorageLog.v
StorageProperties.v
BackupFormat.v
BackupProofs.v
HexFixture.v
StorageV11.v
V11Proofs.v
DerivedV12.v
V12Proofs.v
Json.v
Transport.v
TransportProofs.v
ReplicatedHistory.v
ReplicatedHistorySafety.v
ReplicatedHistoryAtomic.v
ModelNetwork.v
ModelNetworkSafety.v
ReplicationProperties.v
LeaderOracle.v
Linearizability.v
LinearizabilityProofs.v
PublicHistory.v
WindowSchedule.v
ReplicaFrames.v
TextCodes.v
Schema.v
JsonProofs.v
RichCorpus.v
RichProperties.v
ReadToken.v
AdmissionFields.v
Admission.v
AdmissionFixture.v
AdmissionProofs.v
WireFixture.v
WireProperties.v
RuntimeFormat.v
RuntimeProperties.v
OfflineFormat.v
OfflineProperties.v
FormatCatalog.v
AutoFormat.v
AutoFixture.v
AutoProofs.v
AutoProperties.v
AutoRecords.v
AutoRecovery.v
AutoStorage.v
AutoLedger.v
AutoBootstrap.v
ReplicaRecovery.v
RecoveryOracle.v
ReplicaStorage.v
ReplicaProofs.v
ReplicaInvariant.v
ReplicaSound.v
FixtureProperties.v
