(* ===== verification/Prelude.v ===== *)
(** * GeneralSearchEngine: protocol models, replication oracles and storage formats, verified

    The repository is a search engine in Java with a replication module, together with a body of
    independent Python code under [src/scripts/] that says what the Java code must do: logical models
    of the replication protocols, oracles that judge recorded histories, and inspectors that define,
    byte by byte, the files the engine writes.  This development models that Python code and proves
    it right: the models are safe, the oracles accept what they should and nothing else, and the
    inspectors accept exactly the intended files and bind their content.

    ** Conventions

    A Python function that may raise is a function to [result] (a value or an exception of [exn]); a
    method of a mutable object is a state transformer [ST], which keeps the state it had when it
    raised.  A dict whose order or identity matters is an association list, otherwise a [gmap].
    Strings are the UTF-8 bytes of the Python text.  Binary files are lists of bytes; a parser with a
    cursor is a [reader], the state being the bytes still to read, and the big-endian integers keep
    their width and sign.  SHA-256 and CRC-32C are computed, so that every fixture of the repository
    evaluates.  A theorem that needs injectivity of SHA-256 instead gives the collision: its
    conclusion is a disjunction with [collides], two named byte strings of the inspected data.

    ** The parts

    - Shared: [Prelude] (exceptions, the two monads, dictionaries, the tactics [ok_inv], [bool_tac],
      [wp_step]), [Bytes], [Sha256], [Crc32c], [Wire] (length-prefixed and sealed members, the
      lemmas [reads_*] and the tactics [fields_inv], [feed_step]), [Files] (directory snapshots and
      Python's text functions), [Json] (canonical JSON, written and read), [JsonProofs] (the round trip
      of JSON texts), [TextCodes] (base64, UUID texts), [Schema] (fields described by a catalog),
      [HexFixture].

    - The V5.1 protocol, [scripts/v51/model.py]: [Cluster] has the voters, the leader, the message
      queue and one definition per method of [Cluster]; [ProtocolEvents] is the row type of its log;
      [History] is the independent oracle [scripts/v51/history.py], a fold over the rows.
      [ClusterInvariant], [ClusterAtoms], [ClusterRounds], [ClusterLeader], [ClusterSafety],
      [ClusterVoters] and [ClusterTotality] prove, call by call, that the log of any run is
      accepted; [HistorySoundness] says what acceptance gives; [ClusterProperties] has the results:
      every log the model writes is accepted, voters agree, acknowledged writes are durable,
      fencing, bounds and termination of the queue.

    - The V5.2 read model, [scripts/v52/model.py]: [ReadModel], [ReadSafety], [ReadExplore] (the
      bounded exploration visits exactly the reachable states), [ReadProperties] (freshness, policies,
      and that an admitted read can always be served).  The V5.2 read tokens, [scripts/v52/token.py]:
      [ReadToken].

    - The V5.0 history model, [scripts/v50/replicated_history_model.py],
      [deterministic_transport.py] and [model_network.py]: [ReplicatedHistory], [Transport],
      [ModelNetwork] with their invariants in [ReplicatedHistorySafety], [ReplicatedHistoryAtomic],
      [TransportProofs] and [ModelNetworkSafety]; [ReplicationProperties] has agreement under any
      replay, durability of proven history, atomicity of calls, the capacity reserve and the trace
      round trip.  [LeaderOracle], [scripts/v50/leader_oracle.py], drives that model with the reports
      of three replicas; what it accepts refines the model.

    - Oracles over client histories: [Linearizability], [scripts/v51/linearizability.py], exact by
      [LinearizabilityProofs]; [PublicHistory], [scripts/v51/public_history.py], the search with
      masks and a bound on visited states, exact within its bound.

    - Workloads: [RichCorpus], [scripts/v51/performance_model.py], documents, commands, application
      images and the program of calls, with [RichProperties] (the image codec is exact, commands are
      all or nothing, the program runs to its end); [WindowSchedule], [scripts/v51/remote_schedule.py],
      the accounting of scheduled calls under any interleaving of its threads.

    - The V4 storage inspector, [scripts/v4/storage_inspector.py]: [StorageInspector],
      [StorageLog] (the log as a language of frames), [StorageProperties].

    - The V4.1 backup bundle, [scripts/v41/backup_format.py]: [BackupFormat], [BackupProofs]
      (the manifest parser is the inverse of the encoder; the content identity binds the content).
      The V4.2 formats, [scripts/v42/storage_format_v11.py]: [StorageV11], [V11Proofs] (any changed
      byte of a live store is noticed).  The V4.3 derived catalog,
      [scripts/v43/derived_format_v12.py]: [DerivedV12], [V12Proofs].

    - The V5.0 replica directory, [scripts/v50/storage_format.py] and [recovery_format.py]:
      [ReplicaFrames] (frames, fields, entries, receipts), [ReplicaRecovery] (inventory, snapshots,
      generations, floors), [ReplicaStorage] (manifest, journals, [inspect], [generate]).
      [ReplicaProofs] has the records and the chain of entry digests, [ReplicaInvariant] its
      preservation by every record and the journal reader as the language of its frames,
      [ReplicaSound] the whole directory: what an accepted directory satisfies, and that two replicas
      with one record digest have one history.  [RecoveryOracle],
      [scripts/v50/recovery_oracle.py], replays the application entries of such directories: a replay
      does not depend on where the snapshot is.

    - The V5.0 admission formats (1,1), [scripts/v50/admission_format.py] and
      [admission_fixtures.py]: [AdmissionFields], [Admission], [AdmissionFixture] (the generator),
      [AdmissionProofs] (records are determined by their plan, a plan digest pins every byte of the
      initial authority).  The offline bootstrap and its cleanup, [scripts/v50/offline_format.py]:
      [OfflineFormat], [OfflineProperties] (a committed bootstrap has the records and roots its
      plan determines; cleanup deletes a prefix of its plan).

    - The V5.0 wire envelope and fault traces, [scripts/v50/wire_fixture.py] and
      [hardening_trace.py]: [WireFixture], [WireProperties].  The verifier of running directories,
      [scripts/v50/runtime_format.py]: [RuntimeFormat], [RuntimeProperties] (the chain an accepted
      directory is read to, its promises and certificates, agreement of two directories, torn journals).

    - The V5.1 automatic format (1,2), [scripts/v51/format_inspector.py], [format_encoder.py] and
      [fixtures.py]: [FormatCatalog] (the tables of the published catalogs), [AutoFormat],
      [AutoFixture], [AutoProofs], [AutoProperties] (inspection is canonical and typed, wire frames
      authentic).  Its oracles, [recovery_inspector.py], [storage_inspector.py] and
      [bootstrap_inspector.py]: [AutoRecords], [AutoRecovery], [AutoStorage], [AutoLedger] (the rows
      of the ledgers of an accepted authority directory, and its report as a function of them), [AutoBootstrap].

    - [FixtureProperties] evaluates the published identities of the V4 formats and the (1,2) fixtures.

    ** Fuel

    The loops over files ([wal_loop], [frames_loop], [records], the journals of [RuntimeFormat])
    take as fuel the length of the file, or one more; every turn consumes at least one byte, so the fuel
    never runs out, which is what the language theorems ([wal_language], [journal_language]) and
    [records_fuel] say.  The JSON parser takes two steps per character and two more
    ([loads_dumps_normal] proves it enough).  The catalog fields of [AutoFormat] nest at most to
    its constant [NESTING].  The search of [PublicHistory] places an operation per call, so its depth
    is their number ([public_history_exact] has no case for fuel).  [drain] and the explorations carry
    the bounds of the code itself.

    ** Not modelled

    The Java product, which is checked against these scripts and not part of them.  Of the scripts:
    harnesses that start processes, sockets and threads; evidence collectors and reviewers, which
    compare recorded directories and ledgers field by field with fixed tables; the provisioning,
    credential and cleanup programs of the cloud runs, whose behaviour is that of the services they
    call; benchmarks and their statistics; continuous-integration planning; the recorded-history checks
    of V5.2, which drive those harnesses; argument parsing and printing of the modelled scripts.  A
    file that changes while it is inspected, and a lock held by another process, are arguments of the
    inspections that look for them. *)

From stdpp Require Import base gmap sets list strings pretty sorting.
From Stdlib Require Import ZArith Lia.

Set Default Proof Using "Type".

(** ** Python exceptions and the error monad

    A Python call either returns a value or raises.  The exception classes are the ones the
    modelled scripts raise themselves or let escape from the built-in operations they use. *)

Inductive exn : Type :=
  | ValueError (msg : string)
  | Rejected (msg : string)
  | EvidenceError (msg : string)
  | KeyError
  | IndexError
  | TypeError
  | AttributeError
  | StructError
  | UnicodeError
  | OSError
  | ZeroDivisionError
  | BackupFormatError (msg : string)
  | StorageFormatError (msg : string)
  | DerivedFormatError (msg : string)
  | AssertionError (msg : string).

#[export] Instance exn_eq_dec : EqDecision exn.
Proof. solve_decision. Defined.

Inductive result (A : Type) : Type :=
  | Ok (a : A)
  | Err (e : exn).
Arguments Ok {A} a.
Arguments Err {A} e.

#[export] Instance result_eq_dec {A} `{EqDecision A} : EqDecision (result A).
Proof. solve_decision. Defined.

Definition rbind {A B} (m : result A) (k : A -> result B) : result B :=
  match m with
  | Ok a => k a
  | Err e => Err e
  end.

(** [if not condition: raise error] *)
Definition guard (b : bool) (e : exn) : result unit := if b then Ok tt else Err e.

(** [d[key]] and [l[i]] on a missing key or position. *)
Definition of_option {A} (o : option A) (e : exn) : result A :=
  match o with
  | Some a => Ok a
  | None => Err e
  end.

(** The value of a call that returns. *)
Definition ok_value {A} (m : result A) : option A := match m with Ok a => Some a | Err _ => None end.
Definition is_ok {A} (m : result A) : bool := match m with Ok _ => true | Err _ => false end.

Declare Scope py_scope.
Delimit Scope py_scope with py.

Module ResultNotations.
Notation "'let!' x := m 'in' k" := (rbind m (fun x => k))
  (at level 10, x pattern, m at level 100, k at level 200) : py_scope.
Notation "'do!' m 'in' k" := (rbind m (fun _ => k))
  (at level 10, m at level 100, k at level 200) : py_scope.
End ResultNotations.

(** [for x in l: check(x)] *)
Fixpoint check_all {A} (check : A -> result unit) (l : list A) : result unit :=
  match l with
  | [] => Ok tt
  | x :: l' => rbind (check x) (fun _ => check_all check l')
  end.

(** ** Stateful calls

    A method of a mutable object takes the object's state and gives back the state it leaves
    behind, also when it raises: an exception does not undo the mutations made before it. *)

Definition ST (S A : Type) : Type := S -> result A * S.

Section ST.
Context {S : Type}.

Definition ret {A} (a : A) : ST S A := fun s => (Ok a, s).
Definition raise {A} (e : exn) : ST S A := fun s => (Err e, s).
Definition bind {A B} (m : ST S A) (k : A -> ST S B) : ST S B := fun s =>
  match m s with
  | (Ok a, s') => k a s'
  | (Err e, s') => (Err e, s')
  end.
Definition get : ST S S := fun s => (Ok s, s).
Definition modify (f : S -> S) : ST S unit := fun s => (Ok tt, f s).
Definition liftr {A} (r : result A) : ST S A := fun s => (r, s).

(** [for x in l: body(x)] *)
Fixpoint for_each {A} (l : list A) (body : A -> ST S unit) : ST S unit :=
  match l with
  | [] => ret tt
  | x :: l' => bind (body x) (fun _ => for_each l' body)
  end.

(** [try: m except Rejected as failure: handler(failure)] *)
Definition except_rejected (m : ST S unit) (handler : string -> ST S unit) : ST S unit := fun s =>
  match m s with
  | (Err (Rejected msg), s') => handler msg s'
  | r => r
  end.

(** *** Weakest preconditions, with a separate postcondition for exceptions. *)
Definition wp {A} (m : ST S A) (Q : A -> S -> Prop) (E : S -> Prop) (s : S) : Prop :=
  match m s with
  | (Ok a, s') => Q a s'
  | (Err _, s') => E s'
  end.

Lemma wp_mono {A} (m : ST S A) (Q Q' : A -> S -> Prop) (E E' : S -> Prop) s :
  wp m Q E s -> (forall a s', Q a s' -> Q' a s') -> (forall s', E s' -> E' s') -> wp m Q' E' s.
Proof. unfold wp. intros H HQ HE. destruct (m s) as [[a|e] s']; auto. Qed.

Lemma wp_bind {A B} (m : ST S A) (k : A -> ST S B) Q E s :
  wp m (fun a s' => wp (k a) Q E s') E s -> wp (bind m k) Q E s.
Proof. unfold wp, bind. destruct (m s) as [[a|e] s']; auto. Qed.

Lemma wp_ret {A} (a : A) (Q : A -> S -> Prop) E s : Q a s -> wp (ret a) Q E s.
Proof. auto. Qed.

Lemma wp_get (Q : S -> S -> Prop) E s : Q s s -> wp get Q E s.
Proof. auto. Qed.

Lemma wp_modify (f : S -> S) (Q : unit -> S -> Prop) E s : Q tt (f s) -> wp (modify f) Q E s.
Proof. auto. Qed.

Lemma wp_raise {A} e (Q : A -> S -> Prop) (E : S -> Prop) s : E s -> wp (raise e) Q E s.
Proof. auto. Qed.

Lemma wp_liftr {A} (r : result A) (Q : A -> S -> Prop) (E : S -> Prop) s :
  (forall a, r = Ok a -> Q a s) -> E s -> wp (liftr r) Q E s.
Proof. unfold wp, liftr. destruct r; auto. Qed.

Lemma wp_liftr_ok {A} (r : result A) a (Q : A -> S -> Prop) (E : S -> Prop) s :
  r = Ok a -> Q a s -> wp (liftr r) Q E s.
Proof. unfold wp, liftr. intros ->. auto. Qed.

Lemma wp_for_each {A} (l : list A) (body : A -> ST S unit) (I E : S -> Prop) s :
  I s -> (forall x s', x ∈ l -> I s' -> wp (body x) (fun _ => I) E s') ->
  wp (for_each l body) (fun _ => I) E s.
Proof.
  revert s. induction l as [|x l IH]; intros s Hs Hb; simpl; [done|].
  apply wp_bind. eapply wp_mono; [apply Hb; [left | done] | | done].
  intros [] s' Hs'. apply IH; [done|]. intros y s'' Hy. apply Hb. by right.
Qed.

Lemma wp_except (m : ST S unit) handler (Q : unit -> S -> Prop) (E : S -> Prop) s :
  wp m Q E s -> (forall msg s', E s' -> wp (handler msg) Q E s') ->
  wp (except_rejected m handler) Q E s.
Proof.
  unfold wp, except_rejected. intros Hm Hh.
  destruct (m s) as [[[]|e] s']; [done|]. destruct e; try done. by apply Hh.
Qed.
End ST.

Module StateNotations.
Notation "'let*' x := m 'in' k" := (bind m (fun x => k))
  (at level 10, x pattern, m at level 100, k at level 200) : py_scope.
Notation "'do*' m 'in' k" := (bind m (fun _ => k))
  (at level 10, m at level 100, k at level 200) : py_scope.
End StateNotations.

(** ** Dictionaries whose iteration order matters

    A Python [dict] keeps insertion order, and overwriting a key keeps its place.  Where the code
    lists a dictionary's values the model is an association list with that update. *)

Section Assoc.
Context {K V : Type} `{EqDecision K}.

Fixpoint assoc_set (k : K) (v : V) (d : list (K * V)) : list (K * V) :=
  match d with
  | [] => [(k, v)]
  | (k', v') :: d' => if decide (k = k') then (k, v) :: d' else (k', v') :: assoc_set k v d'
  end.

Fixpoint assoc_get (k : K) (d : list (K * V)) : option V :=
  match d with
  | [] => None
  | (k', v') :: d' => if decide (k = k') then Some v' else assoc_get k d'
  end.

Lemma assoc_set_elem k v d x :
  x ∈ assoc_set k v d -> x = (k, v) \/ x ∈ d.
Proof.
  induction d as [|[k' v'] d IH]; simpl; [set_solver|].
  case_decide; set_solver.
Qed.

Lemma assoc_set_keys_elem k v d k' :
  k' ∈ (assoc_set k v d).*1 <-> k' = k \/ k' ∈ d.*1.
Proof.
  induction d as [|[k1 v1] d IH]; simpl; [set_solver|].
  case_decide; subst; simpl; set_solver.
Qed.

Lemma assoc_set_NoDup k v d : NoDup d.*1 -> NoDup (assoc_set k v d).*1.
Proof.
  induction d as [|[k1 v1] d IH]; simpl; intros Hd.
  - apply NoDup_singleton.
  - apply NoDup_cons in Hd as [Hn Hd]. case_decide; subst; simpl.
    + by constructor.
    + constructor; [|by apply IH]. rewrite assoc_set_keys_elem. set_solver.
Qed.

Lemma assoc_get_set_eq k v d : assoc_get k (assoc_set k v d) = Some v.
Proof.
  induction d as [|[k1 v1] d IH]; simpl; [by rewrite decide_True|].
  case_decide; simpl; [by rewrite decide_True | by rewrite decide_False].
Qed.

Lemma assoc_get_set_ne k k' v d : k' <> k -> assoc_get k' (assoc_set k v d) = assoc_get k' d.
Proof.
  intros Hne. induction d as [|[k1 v1] d IH]; simpl; [by rewrite decide_False|].
  case_decide; simpl; subst; [by rewrite !decide_False|]. by rewrite IH.
Qed.

Lemma assoc_get_elem k v d : assoc_get k d = Some v -> (k, v) ∈ d.
Proof.
  induction d as [|[k1 v1] d IH]; simpl; [done|].
  case_decide; intros; simplify_eq; [left | right; auto].
Qed.

Lemma assoc_get_NoDup d k v : NoDup d.*1 -> (k, v) ∈ d -> assoc_get k d = Some v.
Proof.
  induction d as [|[k' v'] d IH]; simpl; [set_solver|]. rewrite NoDup_cons, elem_of_cons.
  intros [Hn Hd] [[= <- <-] | Hin]; [by rewrite decide_True|]. rewrite decide_False; [by apply IH|].
  intros ->. apply Hn. apply list_elem_of_fmap. by exists (k', v).
Qed.

Lemma assoc_get_None k d : k ∉ d.*1 -> assoc_get k d = None.
Proof.
  induction d as [|[k' v'] d IH]; simpl; [done|]. rewrite not_elem_of_cons. intros [Hk Hd]. by rewrite decide_False, IH.
Qed.

Lemma assoc_set_fresh k v d : k ∉ d.*1 -> assoc_set k v d = d ++ [(k, v)].
Proof.
  induction d as [|[k' v'] d IH]; simpl; [done|]. rewrite not_elem_of_cons. intros [Hk Hd]. by rewrite decide_False, IH.
Qed.
End Assoc.

(** ** Prefixes

    The scripts compare prefixes as [longer[:len(shorter)] == shorter]. *)

Definition is_prefix {A} `{EqDecision A} (shorter longer : list A) : bool :=
  bool_decide (take (length shorter) longer = shorter).

Lemma is_prefix_spec {A} `{EqDecision A} (l1 l2 : list A) :
  is_prefix l1 l2 = true <-> l1 `prefix_of` l2.
Proof.
  unfold is_prefix. rewrite bool_decide_eq_true. split.
  - intros <-. exists (drop (length l1) l2). by rewrite take_drop.
  - intros [k ->]. by rewrite take_app_length.
Qed.

Lemma prefix_lookup {A} (l1 l2 : list A) i x :
  l1 `prefix_of` l2 -> l1 !! i = Some x -> l2 !! i = Some x.
Proof. intros Hp Hi. by eapply prefix_lookup_Some. Qed.

(** ** Inversion of successful calls *)

Lemma rbind_ok {A B} (m : result A) (k : A -> result B) b :
  rbind m k = Ok b <-> exists a, m = Ok a /\ k a = Ok b.
Proof. destruct m as [a|e]; simpl; split; [by exists a | by intros (? & [= ->] & ?) | done | by intros (? & ? & _)]. Qed.

Lemma guard_ok b e u : guard b e = Ok u <-> b = true.
Proof. destruct b, u; simpl; split; done. Qed.

Lemma check_all_ok {A} (f : A -> result unit) l u : check_all f l = Ok u -> forall x, x ∈ l -> f x = Ok tt.
Proof.
  revert u. induction l as [|y l IH]; intros u H x Hx; [by apply not_elem_of_nil in Hx|]. cbn [check_all] in H.
  apply rbind_ok in H as ([] & Hy & H). apply elem_of_cons in Hx as [->|Hx]; [done|by eapply IH].
Qed.

Lemma of_option_ok {A} (o : option A) e a : of_option o e = Ok a <-> o = Some a.
Proof. destruct o; simpl; split; congruence. Qed.

Lemma bind_ok {S A B} (m : ST S A) (k : A -> ST S B) s b s2 :
  bind m k s = (Ok b, s2) <-> exists a s1, m s = (Ok a, s1) /\ k a s1 = (Ok b, s2).
Proof.
  unfold bind. destruct (m s) as [[a|e] s1]; split.
  - intros H. by exists a, s1.
  - by intros (? & ? & [= -> ->] & ?).
  - done.
  - by intros (? & ? & ? & _).
Qed.

Lemma bind_err {S A B} (m : ST S A) (k : A -> ST S B) s e s2 :
  bind m k s = (Err e, s2) -> m s = (Err e, s2) \/ exists a s1, m s = (Ok a, s1) /\ k a s1 = (Err e, s2).
Proof. unfold bind. destruct (m s) as [[a|e'] s1]; [right; by exists a, s1 | left; congruence]. Qed.

Lemma bind_inv {S A B} (m : ST S A) (k : A -> ST S B) s r s2 :
  bind m k s = (r, s2) ->
  exists r1 s1, m s = (r1, s1) /\ (match r1 with Ok a => k a s1 | Err e => (Err e, s1) end) = (r, s2).
Proof. unfold bind. destruct (m s) as [r1 s1]. intros H. by exists r1, s1. Qed.

Lemma bind_eq {S A B} (m : ST S A) (k : A -> ST S B) s x s2 : m s = (Ok x, s2) -> bind m k s = k x s2.
Proof. intros H. unfold bind. by rewrite H. Qed.

Lemma growing_snoc (l : list Z) x : StronglySorted Z.lt l -> (forall y, last l = Some y -> (y < x)%Z) -> StronglySorted Z.lt (l ++ [x]).
Proof.
  induction 1 as [|z l Hs IH Hz]; intros Hx; cbn [app]; [by repeat constructor|]. constructor.
  - apply IH. intros y Hy. apply Hx. cbn [last]. by destruct l.
  - apply Forall_app. split; [done|]. constructor; [|constructor]. destruct (last l) as [y|] eqn:E.
    + apply last_Some_elem_of in E as Hin. rewrite Forall_forall in Hz. specialize (Hz _ Hin). specialize (Hx y).
      cbn [last] in Hx. destruct l; [done|]. specialize (Hx E). lia.
    + apply Hx. cbn [last]. by apply last_None in E as ->.
Qed.

(** A list of indices without one of them *)
Definition without (i : nat) (l : list nat) : list nat := List.filter (fun j => negb (j =? i)%nat) l.

Lemma elem_without i j l : j ∈ without i l <-> j ∈ l /\ j <> i.
Proof. unfold without. rewrite !list_elem_of_In, filter_In, negb_true_iff, Nat.eqb_neq. done. Qed.

Lemma length_without i l : NoDup l -> i ∈ l -> S (length (without i l)) = length l.
Proof.
  unfold without. induction l as [|j l IH]; intros Hnd Hi; [by apply not_elem_of_nil in Hi|].
  apply NoDup_cons in Hnd as [Hn Hnd]. cbn [List.filter]. destruct (Nat.eqb_spec j i) as [->|Hne]; cbn [negb length].
  - f_equal. f_equal. apply forallb_filter_id, forallb_forall. intros k Hk. apply list_elem_of_In in Hk.
    apply negb_true_iff, Nat.eqb_neq. by intros ->.
  - f_equal. apply IH; [done|]. by apply elem_of_cons in Hi as [->|Hi].
Qed.

Lemma ret_ok {S A} (a b : A) (s s2 : S) : ret a s = (Ok b, s2) <-> a = b /\ s = s2.
Proof. unfold ret. split; [by intros [= -> ->] | by intros [-> ->]]. Qed.

Lemma liftr_ok {S A} (m : result A) (s : S) a s2 : liftr m s = (Ok a, s2) <-> m = Ok a /\ s = s2.
Proof. unfold liftr. split; [by intros [= -> ->] | by intros [-> ->]]. Qed.

(** ** Automation shared by the components *)

Create HintDb oracle discriminated.
#[export] Hint Resolve prefix_lookup assoc_set_NoDup : oracle.

(** [bool_tac] turns the boolean guards of the code into the propositions they decide. *)
Ltac bool_tac :=
  repeat match goal with
  | H : _ && _ = true |- _ => apply andb_true_iff in H as [? ?]
  | H : _ || _ = false |- _ => apply orb_false_iff in H as [? ?]
  | H : negb _ = true |- _ => apply negb_true_iff in H
  | H : negb _ = false |- _ => apply negb_false_iff in H
  | H : bool_decide _ = true |- _ => apply bool_decide_eq_true in H
  | H : bool_decide _ = false |- _ => apply bool_decide_eq_false in H
  | H : (_ <? _)%Z = true |- _ => apply Z.ltb_lt in H
  | H : (_ <? _)%Z = false |- _ => apply Z.ltb_ge in H
  | H : (_ <=? _)%Z = true |- _ => apply Z.leb_le in H
  | H : (_ <=? _)%Z = false |- _ => apply Z.leb_gt in H
  | H : (_ =? _)%Z = true |- _ => apply Z.eqb_eq in H
  | H : (_ =? _)%Z = false |- _ => apply Z.eqb_neq in H
  | H : (_ <? _)%nat = true |- _ => apply Nat.ltb_lt in H
  | H : (_ <? _)%nat = false |- _ => apply Nat.ltb_ge in H
  | H : (_ <=? _)%nat = true |- _ => apply Nat.leb_le in H
  | H : (_ <=? _)%nat = false |- _ => apply Nat.leb_gt in H
  | H : (_ =? _)%nat = true |- _ => apply Nat.eqb_eq in H
  | H : (_ =? _)%nat = false |- _ => apply Nat.eqb_neq in H
  end.

(** [wp_step] executes one primitive call of a stateful method symbolically. *)
Ltac wp_step :=
  lazymatch goal with
  | |- wp (bind _ _) _ _ _ => apply wp_bind
  | |- wp (ret _) _ _ _ => apply wp_ret
  | |- wp get _ _ _ => apply wp_get
  | |- wp (modify _) _ _ _ => apply wp_modify
  | |- wp (raise _) _ _ _ => apply wp_raise
  end.

(** [ok_inv H] reads the successful steps off a hypothesis about a monadic call that returned. *)
Ltac ok_inv H :=
  lazymatch type of H with
  | rbind _ _ = Ok _ =>
      let x := fresh "x" in let Hx := fresh "Hx" in
      apply rbind_ok in H as (x & Hx & H); ok_inv Hx; ok_inv H
  | guard _ _ = Ok _ => apply guard_ok in H
  | of_option _ _ = Ok _ => apply of_option_ok in H
  | bind _ _ _ = (Ok _, _) =>
      let x := fresh "x" in let s := fresh "s" in let Hx := fresh "Hx" in
      apply bind_ok in H as (x & s & Hx & H); ok_inv Hx; ok_inv H
  | ret _ _ = (Ok _, _) => apply ret_ok in H as [? ?]
  | liftr _ _ = (Ok _, _) => let Hx := fresh "Hx" in apply liftr_ok in H as [Hx ?]; ok_inv Hx
  | _ => idtac
  end.
