(* ===== verification/ProtocolEvents.v ===== *)
(** * The V5.1 protocol event log

    The rows that [Cluster.event] of [scripts/v51/model.py] appends to the event log and that
    [validate] of [scripts/v51/history.py] reads back.  A row is a Python [dict]; here its
    ["event"] key selects a constructor and its other keys are the constructor's fields; a row of
    the log is taken to have exactly the keys its kind is written with.  The keys ["node"] and
    ["generation"] are present together or not at all, ["position"] always. *)

From stdpp Require Import base gmap strings list.
From S2P Require Import Prelude.

(** An identity is the string [f'{label}-{serial}']; see [render_identity] in [Cluster.v]. *)
Record identity := Identity { id_label : string; id_serial : nat }.

#[export] Instance identity_eq_dec : EqDecision identity.
Proof. solve_decision. Defined.
#[export] Instance identity_countable : Countable identity.
Proof.
  refine (inj_countable' (fun i => (id_label i, id_serial i)) (fun p => Identity p.1 p.2) _).
  by intros [].
Defined.

(** Fields of a ["basis"] row: a voter's proven prefix and its accepted values beyond it. *)
Record basis_data := BasisData {
  bd_ballot : Z;
  bd_id : identity;
  bd_prefix : list string;
  bd_accepted : gmap nat (Z * string)
}.

(** Fields of an ["accept-force"] or ["proof-force"] row. *)
Record force_data := ForceData {
  fd_ballot : Z;
  fd_slot : nat;
  fd_value : string;
  fd_id : identity
}.

(** Rows that belong to a voter: they also hold its number and its process generation. *)
Inductive voter_event : Type :=
  | VPromiseForce (ballot proposer : Z)
  | VBasis (data : basis_data)
  | VInstall (ballot : Z) (prefix : list string)
  | VAcceptForce (data : force_data)
  | VProofForce (data : force_data) (proof : identity)
  | VSuccess (ballot : Z) (slot : nat) (value : string) (receipts : list identity)
  | VReadInvoke (read : string)
  | VReadPin (ballot : Z) (slot : nat) (barrier read : string) (prefix : list string) (proof : option identity)
  | VReadResult (read : string) (prefix : list string)
  | VReject (ballot : Z) (reason : string)
  | VRestart
  | VLostDisk
  | VCheckpoint (prefix : list string) (promise : Z).

(** Rows without a voter. *)
Inductive cluster_event : Type :=
  | CAccount (queued limit : Z) (pins pinLimit : nat)
  | CSelect (ballot : Z) (proposer : nat) (bases : list identity) (prefix : list string) (value : string)
  | CEntryQuorum (ballot : Z) (slot : nat) (value : string) (receipts : list identity) (id : identity)
  | CDrop (messageKind : string)
  | CDuplicate (messageKind : string).

Inductive event_body : Type :=
  | OfVoter (node generation : nat) (d : voter_event)
  | OfCluster (d : cluster_event).

Record event := Event { ev_body : event_body; ev_position : nat }.

(** A ["basis"] or force row as a voter's reply carries it: all its keys. *)
Record stamped (D : Type) := Stamped {
  st_data : D;
  st_node : nat;
  st_generation : nat;
  st_position : nat
}.
Arguments Stamped {D} _ _ _ _.
Arguments st_data {D} _.
Arguments st_node {D} _.
Arguments st_generation {D} _.
Arguments st_position {D} _.

Notation basis := (stamped basis_data).
Notation receipt := (stamped force_data).

#[export] Instance basis_data_eq_dec : EqDecision basis_data.
Proof. solve_decision. Defined.
#[export] Instance force_data_eq_dec : EqDecision force_data.
Proof. solve_decision. Defined.
#[export] Instance voter_event_eq_dec : EqDecision voter_event.
Proof. solve_decision. Defined.
#[export] Instance cluster_event_eq_dec : EqDecision cluster_event.
Proof. solve_decision. Defined.
#[export] Instance event_body_eq_dec : EqDecision event_body.
Proof. solve_decision. Defined.
#[export] Instance event_eq_dec : EqDecision event.
Proof. solve_decision. Defined.

(** The greatest list of two by length, the first one when they tie: [max(..., key=len)]. *)
Definition longest {A} (l1 l2 : list A) : list A :=
  if (length l1 <? length l2)%nat then l2 else l1.

(** [max((...), default=0)] over a list of integers. *)
Definition max_default (l : list Z) : Z :=
  match l with
  | [] => 0%Z
  | x :: l' => fold_left Z.max l' x
  end.

Lemma longest_l {A} (l1 l2 : list A) : length l1 <= length (longest l1 l2).
Proof. unfold longest. destruct (Nat.ltb_spec (length l1) (length l2)); lia. Qed.

Lemma longest_r {A} (l1 l2 : list A) : length l2 <= length (longest l1 l2).
Proof. unfold longest. destruct (Nat.ltb_spec (length l1) (length l2)); lia. Qed.

Lemma longest_choice {A} (l1 l2 : list A) : longest l1 l2 = l1 \/ longest l1 l2 = l2.
Proof. unfold longest. destruct (_ <? _)%nat; auto. Qed.

Lemma fold_max_spec l x :
  (x <= fold_left Z.max l x)%Z /\ (forall y, y ∈ l -> (y <= fold_left Z.max l x)%Z) /\
  (fold_left Z.max l x = x \/ fold_left Z.max l x ∈ l).
Proof.
  revert x. induction l as [|z l IH]; intros x; simpl.
  - split_and!; [lia | set_solver | by left].
  - destruct (IH (Z.max x z)) as (H1 & H2 & H3). split_and!.
    + lia.
    + intros y Hy. apply elem_of_cons in Hy as [-> | Hy]; [lia | by apply H2].
    + destruct H3 as [-> | H3]; [|set_solver].
      destruct (Z.max_spec x z) as [[_ ->] | [_ ->]]; set_solver.
Qed.

Lemma max_default_ge l y : y ∈ l -> (y <= max_default l)%Z.
Proof.
  destruct l as [|x l]; simpl; [set_solver|].
  destruct (fold_max_spec l x) as (H1 & H2 & _). intros [-> | Hy]%elem_of_cons; auto.
Qed.

Lemma max_default_elem l : l <> [] -> max_default l ∈ l.
Proof.
  destruct l as [|x l]; simpl; [done|]. intros _.
  destruct (fold_max_spec l x) as (_ & _ & [-> | H]); set_solver.
Qed.
