(* ===== verification/Cluster.v ===== *)
(** * The V5.1 logical protocol ([scripts/v51/model.py])

    Three voters with an automatic leader: ballots owned by a voter, promises, frozen bases,
    a selection rule over two bases, per-slot acceptance and proof rounds, and barrier reads.
    Every method of [Cluster] that changes state is a stateful call of type [ST Cluster]; a
    [Rejected] (or any other) exception leaves behind the mutations made before it. *)

From stdpp Require Import base gmap strings list pretty.
From S2P Require Import Prelude ProtocolEvents.
Import StateNotations.
Local Open Scope py_scope.

(** ** State *)

Record Voter := mkVoter {
  promise : Z;
  prefix : list string;
  accepted : gmap nat (Z * string);
  generation : nat;
  sealed : bool;
  promises : Z;
  running : bool
}.

Definition voter0 : Voter := mkVoter 1 [] ∅ 1 true 1 true.

Record round := Round {
  r_slot : nat;
  r_value : string;
  r_accepts : list (nat * identity);
  r_proofs : list (nat * identity);
  r_activation : bool;
  r_read : option string;
  r_proof : option identity
}.

Record campaign := Campaign {
  c_node : nat;
  c_bases : gmap nat basis;
  c_selected : bool;
  c_retired : bool;
  c_ready : bool;
  c_round : option round;
  c_quorum : option (list nat)
}.

Inductive message_body : Type :=
  | MPrepare (proposer : nat)
  | MPromise (b : basis)
  | MAccept (prefix : list string) (value : string)
  | MAccepted (r : receipt)
  | MProof (proof : identity) (slot : nat) (value : string)
  | MProven (r : receipt).

Record message := Message { m_target : nat; m_ballot : Z; m_body : message_body }.

Definition message_kind (m : message) : string :=
  match m_body m with
  | MPrepare _ => "prepare"
  | MPromise _ => "promise"
  | MAccept _ _ => "accept"
  | MAccepted _ => "accepted"
  | MProof _ _ _ => "proof"
  | MProven _ => "proven"
  end.

Record Cluster := mkCluster {
  voters : list Voter;
  campaigns : gmap Z campaign;
  messages : list message;
  events : list event;
  queue_limit : Z;
  promise_limit : Z;
  pins : gmap string (list string);
  reads : gmap string Z;
  serial : nat
}.

Definition init (queue_limit promise_limit : Z) : Cluster :=
  mkCluster [voter0; voter0; voter0] ∅ [] [] queue_limit promise_limit ∅ ∅ 0.

(** *** Field updates *)

Definition with_voters f c := mkCluster (f (voters c)) (campaigns c) (messages c) (events c)
  (queue_limit c) (promise_limit c) (pins c) (reads c) (serial c).
Definition with_campaigns f c := mkCluster (voters c) (f (campaigns c)) (messages c) (events c)
  (queue_limit c) (promise_limit c) (pins c) (reads c) (serial c).
Definition with_messages f c := mkCluster (voters c) (campaigns c) (f (messages c)) (events c)
  (queue_limit c) (promise_limit c) (pins c) (reads c) (serial c).
Definition with_events f c := mkCluster (voters c) (campaigns c) (messages c) (f (events c))
  (queue_limit c) (promise_limit c) (pins c) (reads c) (serial c).
Definition with_pins f c := mkCluster (voters c) (campaigns c) (messages c) (events c)
  (queue_limit c) (promise_limit c) (f (pins c)) (reads c) (serial c).
Definition with_reads f c := mkCluster (voters c) (campaigns c) (messages c) (events c)
  (queue_limit c) (promise_limit c) (pins c) (f (reads c)) (serial c).
Definition with_serial f c := mkCluster (voters c) (campaigns c) (messages c) (events c)
  (queue_limit c) (promise_limit c) (pins c) (reads c) (f (serial c)).

Definition v_promise b v := mkVoter b (prefix v) (accepted v) (generation v) (sealed v)
  (promises v + 1) (running v).
Definition v_prefix p v := mkVoter (promise v) p (accepted v) (generation v) (sealed v)
  (promises v) (running v).
Definition v_accept slot a v := mkVoter (promise v) (prefix v) (<[slot := a]> (accepted v))
  (generation v) (sealed v) (promises v) (running v).
Definition v_restart v := mkVoter (promise v) (prefix v) (accepted v) (S (generation v))
  (sealed v) (promises v) (running v).
Definition v_unseal v := mkVoter (promise v) (prefix v) (accepted v) (generation v) false
  (promises v) (running v).
Definition v_run v := mkVoter (promise v) (prefix v) (accepted v) (generation v) (sealed v)
  (promises v) true.

Definition c_add_basis n b c := Campaign (c_node c) (<[n := b]> (c_bases c)) (c_selected c)
  (c_retired c) (c_ready c) (c_round c) (c_quorum c).
Definition c_select q c := Campaign (c_node c) (c_bases c) true (c_retired c) (c_ready c)
  (c_round c) (Some q).
Definition c_set_round r c := Campaign (c_node c) (c_bases c) (c_selected c) (c_retired c)
  (c_ready c) r (c_quorum c).
Definition c_set_ready c := Campaign (c_node c) (c_bases c) (c_selected c) (c_retired c)
  true (c_round c) (c_quorum c).
Definition c_retire c := Campaign (c_node c) (c_bases c) (c_selected c) true false
  (c_round c) (c_quorum c).

Definition r_add_accept n i r := Round (r_slot r) (r_value r) (assoc_set n i (r_accepts r))
  (r_proofs r) (r_activation r) (r_read r) (r_proof r).
Definition r_set_proof p r := Round (r_slot r) (r_value r) (r_accepts r) (r_proofs r)
  (r_activation r) (r_read r) (Some p).
Definition r_add_proof n i r := Round (r_slot r) (r_value r) (r_accepts r)
  (assoc_set n i (r_proofs r)) (r_activation r) (r_read r) (r_proof r).

(** ** Primitive calls *)

Definition M (A : Type) : Type := ST Cluster A.

(** [need(value, message)] *)
Definition need (b : bool) (msg : string) : M unit := liftr (guard b (Rejected msg)).

(** [self.voters[n]], [self.campaigns[ballot]] and updates through such a reference. *)
Definition voter (n : nat) : M Voter :=
  let* c := get in liftr (of_option (voters c !! n) IndexError).
Definition set_voter (n : nat) (f : Voter -> Voter) : M unit := modify (with_voters (alter f n)).
Definition campaign_at (ballot : Z) : M campaign :=
  let* c := get in liftr (of_option (campaigns c !! ballot) KeyError).
Definition set_campaign (ballot : Z) (f : campaign -> campaign) : M unit :=
  modify (with_campaigns (alter f ballot)).

(** [next_epoch]: the least ballot owned by [rank] above the block of [maximum]. *)
Definition next_epoch (maximum : Z) (rank : nat) : result Z :=
  rbind (guard ((1 <=? maximum)%Z && (maximum <? 2 ^ 63)%Z && (rank <? 3)) (Rejected "epoch inputs"))
    (fun _ =>
      let r := (3 * (if (maximum =? 1)%Z then 0 else (maximum - 2) / 3 + 1) + Z.of_nat rank + 2)%Z in
      rbind (guard (r <? 2 ^ 63)%Z (Rejected "epoch exhaustion")) (fun _ => Ok r)).

(** [event]: append a row, numbered by its position; a row of a voter carries its generation. *)
Definition append_event (b : event_body) : M nat :=
  let* c := get in
  let position := length (events c) in
  do* modify (with_events (fun es => es ++ [Event b position])) in
  ret position.

Definition cluster_row (d : cluster_event) : M unit :=
  do* append_event (OfCluster d) in ret tt.

Definition stamped_row {D} (mk : D -> voter_event) (d : D) (node : nat) : M (stamped D) :=
  let* v := voter node in
  let* position := append_event (OfVoter node (generation v) (mk d)) in
  ret (Stamped d node (generation v) position).

Definition voter_row (d : voter_event) (node : nat) : M unit :=
  do* stamped_row id d node in ret tt.

Definition identity_ (label : string) : M identity :=
  do* modify (with_serial S) in
  let* c := get in
  ret (Identity label (serial c)).

(** The text of an identity. *)
Definition render_identity (i : identity) : string :=
  id_label i +:+ "-" +:+ pretty (id_serial i).

Definition account : M unit :=
  let* c := get in
  cluster_row (CAccount (Z.of_nat (length (messages c))) (queue_limit c) (size (pins c)) 8).

Definition queue (m : message) : M unit :=
  let* c := get in
  do* need (Z.of_nat (length (messages c)) <? queue_limit c)%Z "queue capacity" in
  do* modify (with_messages (fun ms => ms ++ [m])) in
  account.

(** [f'NO_OP:{ballot}:activation'] and [f'NO_OP:{ballot}:read:{read_id}'] *)
Definition noop (ballot : Z) : string := "NO_OP:" +:+ pretty ballot +:+ ":activation".
Definition read_barrier (ballot : Z) (read_id : string) : string :=
  "NO_OP:" +:+ pretty ballot +:+ ":read:" +:+ read_id.

(** ** Promises, campaigns and selection *)

Definition prepare (node : nat) (ballot : Z) : M basis :=
  let* v := voter node in
  do* need (running v && sealed v) "ineligible voter" in
  let* c := get in
  do* need ((promise v <? ballot)%Z && (promises v <? promise_limit c)%Z) "stale or exhausted promise" in
  do* set_voter node (v_promise ballot) in
  do* voter_row (VPromiseForce ballot ((ballot - 2) mod 3)%Z) node in
  let* i := identity_ "basis" in
  let* v := voter node in
  stamped_row VBasis
    (BasisData ballot i (prefix v) (filter (fun p => length (prefix v) < p.1) (accepted v))) node.

Definition start_campaign (proposer : nat) (ballot : option Z) : M Z :=
  let* ballot :=
    match ballot with
    | Some b => if (b =? 0)%Z then (let* v := voter proposer in liftr (next_epoch (promise v) proposer)) else ret b
    | None => let* v := voter proposer in liftr (next_epoch (promise v) proposer)
    end in
  let* c := get in
  do* need (((ballot - 2) mod 3 =? Z.of_nat proposer)%Z && bool_decide (campaigns c !! ballot = None))
    "ballot owner/reuse" in
  let* own := prepare proposer ballot in
  do* modify (with_campaigns
    (insert ballot (Campaign proposer {[proposer := own]} false false false None None))) in
  do* for_each [0; 1; 2] (fun peer =>
    if decide (peer = proposer) then ret tt
    else queue (Message peer ballot (MPrepare proposer))) in
  ret ballot.

(** [begin]: open the round of one slot and send it to the selection quorum. *)
Definition begin (ballot : Z) (pre : list string) (value : string) (activation : bool)
    (read : option string) : M unit :=
  let* c := campaign_at ballot in
  let* v := voter (c_node c) in
  do* need (negb (bool_decide (is_Some (c_round c))) && (promise v =? ballot)%Z) "not active/slot busy" in
  do* set_campaign ballot (c_set_round (Some
    (Round (S (length pre)) value [] [] activation read None))) in
  let* q := liftr (of_option (c_quorum c) TypeError) in
  for_each q (fun n => queue (Message n ballot (MAccept pre value))).

(** The part of [select] that only computes: recovered prefix and value of two bases. *)
Definition selection (ballot : Z) (own peer : basis) : result (list string * string) :=
  let bases := [own; peer] in
  let pre := longest (bd_prefix (st_data own)) (bd_prefix (st_data peer)) in
  rbind (guard (forallb (fun b : basis => is_prefix (bd_prefix (st_data b)) pre) bases)
    (Rejected "conflicting proof")) (fun _ =>
  let tails := filter (fun p : nat * (Z * string) => length pre < p.1)
    (concat (map (fun b : basis => map_to_list (bd_accepted (st_data b))) bases)) in
  rbind (guard (forallb (fun p : nat * (Z * string) => p.1 =? S (length pre))%nat tails)
    (Rejected "unproven suffix length")) (fun _ =>
  let highest := max_default (map (fun p : nat * (Z * string) => p.2.1) tails) in
  let choices := remove_dups (map (fun p : nat * (Z * string) => p.2.2)
    (filter (fun p : nat * (Z * string) => p.2.1 = highest) tails)) in
  rbind (guard (length choices <=? 1) (Rejected "conflicting same-ballot values")) (fun _ =>
  Ok (pre, match choices with value :: _ => value | [] => noop ballot end)))).

Definition select (ballot : Z) (peer : basis) : M unit :=
  let* c := campaign_at ballot in
  let* v := voter (c_node c) in
  do* need (negb (c_selected c) && (promise v =? ballot)%Z) "inactive selection" in
  do* set_campaign ballot (c_add_basis (st_node peer) peer) in
  let* c := campaign_at ballot in
  let* own := liftr (of_option (c_bases c !! c_node c) KeyError) in
  let* sel := liftr (selection ballot own peer) in
  do* set_campaign ballot (c_select [c_node c; st_node peer]) in
  do* cluster_row (CSelect ballot (c_node c) [bd_id (st_data own); bd_id (st_data peer)] sel.1 sel.2) in
  begin ballot sel.1 sel.2 true None.

(** ** Client calls *)

Definition submit (ballot : Z) (value : string) : M unit :=
  let* c := campaign_at ballot in
  do* need (c_ready c) "not ready" in
  let* v := voter (c_node c) in
  begin ballot (prefix v) value false None.

Definition read (ballot : Z) (read_id : string) : M unit :=
  let* c := campaign_at ballot in
  let* s := get in
  do* need (bool_decide (reads s !! read_id = None) && c_ready c) "read identity/role" in
  do* modify (with_reads (insert read_id ballot)) in
  do* voter_row (VReadInvoke read_id) (c_node c) in
  let* v := voter (c_node c) in
  begin ballot (prefix v) (read_barrier ballot read_id) false (Some read_id).

Definition finish_read (read_id : string) : M unit :=
  let* s := get in
  let* ballot := liftr (of_option (reads s !! read_id) KeyError) in
  let* c := campaign_at ballot in
  do* need (bool_decide (is_Some (pins s !! read_id))) "not pinned" in
  let* view := liftr (of_option (pins s !! read_id) KeyError) in
  do* modify (with_pins (delete read_id)) in
  do* voter_row (VReadResult read_id view) (c_node c) in
  account.

(** ** Message handlers, the branches of [deliver] *)

Definition on_prepare (node : nat) (ballot : Z) : M unit :=
  let* b := prepare node ballot in
  let* c := campaign_at ballot in
  queue (Message (c_node c) ballot (MPromise b)).

Definition on_promise (ballot : Z) (b : basis) : M unit :=
  let* c := campaign_at ballot in
  if c_selected c then ret tt else select ballot b.

Definition on_accept (node : nat) (ballot : Z) (pre : list string) (value : string) : M unit :=
  let* v := voter node in
  do* need (promise v =? ballot)%Z "fenced accept" in
  let slot := S (length pre) in
  do* need (is_prefix (prefix v) pre) "cannot erase proven prefix" in
  do* (if decide (pre = prefix v) then ret tt
       else do* set_voter node (v_prefix pre) in voter_row (VInstall ballot pre) node) in
  let* v := voter node in
  do* need (match accepted v !! slot with
            | None => true
            | Some old => (old.1 <? ballot)%Z || bool_decide (old = (ballot, value))
            end) "same-ballot changed value" in
  do* need (slot =? S (length (prefix v)))%nat "predecessor not proven" in
  do* set_voter node (v_accept slot (ballot, value)) in
  let* i := identity_ "accept" in
  let* e := stamped_row VAcceptForce (ForceData ballot slot value i) node in
  let* c := campaign_at ballot in
  queue (Message (c_node c) ballot (MAccepted e)).

Definition matching_round (r : option round) (e : receipt) : option round :=
  match r with
  | Some r => if decide (r_slot r = fd_slot (st_data e) /\ r_value r = fd_value (st_data e)) then Some r else None
  | None => None
  end.

Definition on_accepted (node : nat) (ballot : Z) (e : receipt) : M unit :=
  let* v := voter node in
  do* need (promise v =? ballot)%Z "fenced proposer" in
  let* c := campaign_at ballot in
  let* r := liftr (of_option (matching_round (c_round c) e) (Rejected "stale receipt")) in
  let r := r_add_accept (st_node e) (fd_id (st_data e)) r in
  do* set_campaign ballot (c_set_round (Some r)) in
  if decide (length (r_accepts r) = 2 /\ r_proof r = None) then
    let* p := identity_ "proof" in
    do* cluster_row (CEntryQuorum ballot (r_slot r) (r_value r) (r_accepts r).*2 p) in
    do* set_campaign ballot (c_set_round (Some (r_set_proof p r))) in
    let* q := liftr (of_option (c_quorum c) TypeError) in
    for_each q (fun peer => queue (Message peer ballot (MProof p (r_slot r) (r_value r))))
  else ret tt.

Definition on_proof (node : nat) (ballot : Z) (proof : identity) (slot : nat) (value : string) : M unit :=
  let* v := voter node in
  do* need (promise v =? ballot)%Z "fenced proof" in
  do* need (bool_decide (accepted v !! slot = Some (ballot, value)) && (slot =? S (length (prefix v)))%nat)
    "proof acceptance/prefix" in
  do* set_voter node (v_prefix (prefix v ++ [value])) in
  let* i := identity_ "proof-force" in
  let* e := stamped_row (fun d => VProofForce d proof) (ForceData ballot slot value i) node in
  let* c := campaign_at ballot in
  queue (Message (c_node c) ballot (MProven e)).

Definition on_proven (node : nat) (ballot : Z) (e : receipt) : M unit :=
  let* v := voter node in
  do* need (promise v =? ballot)%Z "fenced publish" in
  let* c := campaign_at ballot in
  let* r := liftr (of_option (matching_round (c_round c) e) (Rejected "stale proof receipt")) in
  let r := r_add_proof (st_node e) (fd_id (st_data e)) r in
  do* set_campaign ballot (c_set_round (Some r)) in
  if decide (length (r_proofs r) = 2) then
    do* voter_row (VSuccess ballot (r_slot r) (r_value r) (r_proofs r).*2) node in
    do* set_campaign ballot (c_set_round None) in
    do* (if r_activation r then
           if decide (r_value r = noop ballot) then set_campaign ballot c_set_ready
           else let* v := voter node in begin ballot (prefix v) (noop ballot) true None
         else ret tt) in
    match r_read r with
    | Some read_id =>
        let* s := get in
        do* need (size (pins s) <? 8)%nat "pin bound" in
        let* v := voter node in
        do* modify (with_pins (insert read_id (prefix v))) in
        do* voter_row (VReadPin ballot (r_slot r) (r_value r) read_id (prefix v) (r_proof r)) node in
        account
    | None => ret tt
    end
  else ret tt.

Definition is_reply (b : message_body) : bool :=
  match b with
  | MPromise _ | MAccepted _ | MProven _ => true
  | _ => false
  end.

(** [deliver]: take one queued message; a [Rejected] handler is logged, not propagated. *)
Definition handle (m : message) : M unit :=
  let node := m_target m in
  let ballot := m_ballot m in
  let* v := voter node in
  do* need (running v && sealed v) "ineligible voter" in
  let* c := campaign_at ballot in
  do* (if is_reply (m_body m) then need (negb (c_retired c)) "retired campaign after restart" else ret tt) in
  match m_body m with
  | MPrepare _ => on_prepare node ballot
  | MPromise b => on_promise ballot b
  | MAccept pre value => on_accept node ballot pre value
  | MAccepted e => on_accepted node ballot e
  | MProof proof slot value => on_proof node ballot proof slot value
  | MProven e => on_proven node ballot e
  end.

(** [self.messages.pop(position)] *)
Definition pop_message (position : nat) : M message :=
  let* c := get in
  let* m := liftr (of_option (messages c !! position) IndexError) in
  do* modify (with_messages (delete position)) in
  ret m.

Definition deliver (position : nat) : M message :=
  let* m := pop_message position in
  do* account in
  let* _ := voter (m_target m) in
  let* _ := campaign_at (m_ballot m) in
  do* except_rejected (handle m)
    (fun reason => voter_row (VReject (m_ballot m) reason) (m_target m)) in
  ret m.

(** [drain]: deliver until the queue is empty; the 256th delivery raises, so 256 turns of fuel
    are exactly what the loop of the code can make. *)
Fixpoint drain_loop (fuel : nat) : M unit :=
  let* c := get in
  match messages c with
  | [] => ret tt
  | _ :: _ =>
      do* deliver 0 in
      match fuel with
      | 0 | 1 => raise (Rejected "nonterminating bounded exchange")
      | S fuel => drain_loop fuel
      end
  end.
Definition drain : M unit := drain_loop 256.

Definition drop_message (position : nat) : M unit :=
  let* m := pop_message position in
  do* cluster_row (CDrop (message_kind m)) in
  account.

Definition duplicate (position : nat) : M unit :=
  let* c := get in
  let* m := liftr (of_option (messages c !! position) IndexError) in
  do* queue m in
  cluster_row (CDuplicate (message_kind m)).

Definition restart (node : nat) (lost : bool) : M unit :=
  let* _ := voter node in
  do* voter_row VRestart node in
  do* set_voter node v_restart in
  do* (if lost then do* set_voter node v_unseal in voter_row VLostDisk node else ret tt) in
  do* modify (with_campaigns (fmap (fun c => if decide (c_node c = node) then c_retire c else c))) in
  set_voter node v_run.

Definition checkpoint (node : nat) : M unit :=
  let* v := voter node in
  do* need (bool_decide (map_Forall (fun i _ => i <= length (prefix v)) (accepted v)))
    "checkpoint cannot discard unresolved acceptance" in
  voter_row (VCheckpoint (prefix v) (promise v)) node.

(** ** Runs: any sequence of public calls, each of which may also raise *)

Inductive call : Type :=
  | CallCampaign (proposer : nat) (ballot : option Z)
  | CallSubmit (ballot : Z) (value : string)
  | CallRead (ballot : Z) (read_id : string)
  | CallFinishRead (read_id : string)
  | CallDeliver (position : nat)
  | CallDrain
  | CallDrop (position : nat)
  | CallDuplicate (position : nat)
  | CallRestart (node : nat) (lost : bool)
  | CallCheckpoint (node : nat).

Definition perform (k : call) : M unit :=
  match k with
  | CallCampaign p b => do* start_campaign p b in ret tt
  | CallSubmit b v => submit b v
  | CallRead b r => read b r
  | CallFinishRead r => finish_read r
  | CallDeliver p => do* deliver p in ret tt
  | CallDrain => drain
  | CallDrop p => drop_message p
  | CallDuplicate p => duplicate p
  | CallRestart n l => restart n l
  | CallCheckpoint n => checkpoint n
  end.

Definition run_calls (c : Cluster) (ks : list call) : Cluster :=
  fold_left (fun c k => snd (perform k c)) ks c.
