(* ===== verification/History.v ===== *)
(** * The independent event oracle ([scripts/v51/history.py])

    [validate] replays an event log and rejects it at the first row that breaks one of the
    invariants I01 to I08.  The loop body is [step]; the dictionaries of the function are the
    fields of [oracle]. *)

From stdpp Require Import base gmap sets strings list.
From S2P Require Import Prelude ProtocolEvents.
Import ResultNotations.
Local Open Scope py_scope.

(** ** State of the replay *)

Record proof_row := ProofRow {
  pf_ballot : Z;
  pf_slot : nat;
  pf_value : string;
  pf_position : nat
}.

(** A stored force row: [true] for a ["proof-force"]. *)
Record force_row := ForceRow { fr_proof : bool; fr_row : receipt }.

Record read_row := ReadRow {
  rd_invoke : nat;
  rd_writes : gset (nat * string);
  rd_node : nat;
  rd_pin : option (list string)
}.

Record oracle := Oracle {
  o_promises : gmap nat Z;
  o_accepted : gmap (nat * nat) (Z * string);
  o_chosen : gmap nat string;
  o_proofs : gmap identity proof_row;
  o_forces : gmap identity force_row;
  o_published : gmap nat (list string);
  o_acknowledged : gset (nat * string);
  o_reads : gmap string read_row;
  o_bases : gmap identity basis;
  o_selections : gmap Z (nat * string);
  o_generations : gmap nat nat
}.

Definition oracle0 : oracle := Oracle ∅ ∅ ∅ ∅ ∅ ∅ ∅ ∅ ∅ ∅ ∅.

(** The [defaultdict]s: promises and generations start at 1, published prefixes empty. *)
Definition promise_of (o : oracle) (n : nat) : Z := default 1%Z (o_promises o !! n).
Definition published_of (o : oracle) (n : nat) : list string := default [] (o_published o !! n).
Definition generation_of (o : oracle) (n : nat) : nat := default 1 (o_generations o !! n).

Definition set_promises x o := Oracle x (o_accepted o) (o_chosen o) (o_proofs o) (o_forces o)
  (o_published o) (o_acknowledged o) (o_reads o) (o_bases o) (o_selections o) (o_generations o).
Definition set_accepted x o := Oracle (o_promises o) x (o_chosen o) (o_proofs o) (o_forces o)
  (o_published o) (o_acknowledged o) (o_reads o) (o_bases o) (o_selections o) (o_generations o).
Definition set_chosen x o := Oracle (o_promises o) (o_accepted o) x (o_proofs o) (o_forces o)
  (o_published o) (o_acknowledged o) (o_reads o) (o_bases o) (o_selections o) (o_generations o).
Definition set_proofs x o := Oracle (o_promises o) (o_accepted o) (o_chosen o) x (o_forces o)
  (o_published o) (o_acknowledged o) (o_reads o) (o_bases o) (o_selections o) (o_generations o).
Definition set_forces x o := Oracle (o_promises o) (o_accepted o) (o_chosen o) (o_proofs o) x
  (o_published o) (o_acknowledged o) (o_reads o) (o_bases o) (o_selections o) (o_generations o).
Definition set_published x o := Oracle (o_promises o) (o_accepted o) (o_chosen o) (o_proofs o)
  (o_forces o) x (o_acknowledged o) (o_reads o) (o_bases o) (o_selections o) (o_generations o).
Definition set_acknowledged x o := Oracle (o_promises o) (o_accepted o) (o_chosen o) (o_proofs o)
  (o_forces o) (o_published o) x (o_reads o) (o_bases o) (o_selections o) (o_generations o).
Definition set_reads x o := Oracle (o_promises o) (o_accepted o) (o_chosen o) (o_proofs o)
  (o_forces o) (o_published o) (o_acknowledged o) x (o_bases o) (o_selections o) (o_generations o).
Definition set_bases x o := Oracle (o_promises o) (o_accepted o) (o_chosen o) (o_proofs o)
  (o_forces o) (o_published o) (o_acknowledged o) (o_reads o) x (o_selections o) (o_generations o).
Definition set_selections x o := Oracle (o_promises o) (o_accepted o) (o_chosen o) (o_proofs o)
  (o_forces o) (o_published o) (o_acknowledged o) (o_reads o) (o_bases o) x (o_generations o).
Definition set_generations x o := Oracle (o_promises o) (o_accepted o) (o_chosen o) (o_proofs o)
  (o_forces o) (o_published o) (o_acknowledged o) (o_reads o) (o_bases o) (o_selections o) x.

(** ** The checks *)

Definition require (b : bool) (msg : string) : result unit := guard b (ValueError msg).

(** [l[i]] with Python's negative positions. *)
Definition py_get {A} (l : list A) (i : Z) : option A :=
  if (i <? 0)%Z
  then (if (Z.of_nat (length l) + i <? 0)%Z then None else l !! Z.to_nat (Z.of_nat (length l) + i))
  else l !! Z.to_nat i.

(** [{i: [b, v] for (n, i), (b, v) in accepted.items() if n == node and i > len(prefix)}] *)
Definition accepted_tail (o : oracle) (node len : nat) : gmap nat (Z * string) :=
  list_to_map (omap (fun p : (nat * nat) * (Z * string) =>
    if decide (p.1.1 = node /\ len < p.1.2) then Some (p.1.2, p.2) else None)
    (map_to_list (o_accepted o))).

Definition generation_ok (o : oracle) (b : event_body) : bool :=
  match b with
  | OfVoter n g _ => (g =? generation_of o n)%nat
  | OfCluster _ => true
  end.

(** The two stored rows a quorum row refers to. *)
Definition two {A B} (get : A -> option B) (l : list A) (msg : string) : result (B * B) :=
  match l with
  | [i; j] =>
      match get i, get j with
      | Some x, Some y => Ok (x, y)
      | _, _ => Err (ValueError msg)
      end
  | _ => Err (ValueError msg)
  end.

Definition check_select (o : oracle) (ballot : Z) (proposer : nat) (ids : list identity)
    (pre : list string) (value : string) : result oracle :=
  let! (x, y) := two (fun i => o_bases o !! i) ids "I05 missing basis" in
  do! require (negb (st_node x =? st_node y)%nat
               && ((proposer =? st_node x) || (proposer =? st_node y))%nat) "I05 quorum" in
  do! require ((bd_ballot (st_data x) =? ballot)%Z && (bd_ballot (st_data y) =? ballot)%Z)
    "I05 mixed ballots" in
  let best := longest (bd_prefix (st_data x)) (bd_prefix (st_data y)) in
  do! require (is_prefix (bd_prefix (st_data x)) best && is_prefix (bd_prefix (st_data y)) best)
    "I02 conflicting prefixes" in
  let tails := map snd (filter (fun p : nat * (Z * string) => length best < p.1)
    (map_to_list (bd_accepted (st_data x)) ++ map_to_list (bd_accepted (st_data y)))) in
  do! (match tails with
       | [] => Ok tt
       | _ :: _ =>
           let greatest := max_default (map fst tails) in
           let values := map snd (filter (fun p : Z * string => p.1 = greatest) tails) in
           require ((length (remove_dups values) =? 1)%nat && bool_decide (value ∈ values))
             "I05 highest acceptance ignored"
       end) in
  do! require (bool_decide (pre = best)) "I05 wrong recovered prefix" in
  do! require (bool_decide (o_selections o !! ballot = None)) "I05 same-ballot reselection" in
  Ok (set_selections (<[ballot := (S (length best), value)]> (o_selections o)) o).

Definition check_install (o : oracle) (node : nat) (pre : list string) : result oracle :=
  do! require (is_prefix (published_of o node) pre) "I03 erased proven prefix" in
  do! require (forallb (fun p : nat * string => bool_decide (o_chosen o !! p.1 = Some p.2))
                 (zip (seq 1 (length pre)) pre)) "I07 unproven installed prefix" in
  Ok (set_published (<[node := pre]> (o_published o)) o).

Definition check_accept (o : oracle) (node : nat) (e : receipt) : result oracle :=
  let ballot := fd_ballot (st_data e) in
  let slot := fd_slot (st_data e) in
  let value := fd_value (st_data e) in
  do! require (promise_of o node =? ballot)%Z "I01 accept below promise" in
  do! require (slot =? S (length (published_of o node)))%nat "I04 unproven predecessor" in
  match o_selections o !! ballot with
  | None => Err (ValueError "I05 acceptance without selection")
  | Some (first_slot, first_value) =>
      do! require (if decide (slot = first_slot) then bool_decide (value = first_value) else true)
        "I05 accepted value differs from selection" in
      do! require (match o_accepted o !! (node, slot) with
                   | None => true
                   | Some previous => (previous.1 <? ballot)%Z || bool_decide (previous = (ballot, value))
                   end) "I02 same-ballot conflict" in
      Ok (set_forces (<[fd_id (st_data e) := ForceRow false e]> (o_forces o))
           (set_accepted (<[(node, slot) := (ballot, value)]> (o_accepted o)) o))
  end.

Definition receipt_matches (ballot : Z) (slot : nat) (value : string) (f : force_row) : bool :=
  let d := st_data (fr_row f) in
  (fd_ballot d =? ballot)%Z && (fd_slot d =? slot)%nat && bool_decide (fd_value d = value).

Definition check_quorum (o : oracle) (stored : nat) (ballot : Z) (slot : nat) (value : string)
    (ids : list identity) (i : identity) : result oracle :=
  let! (x, y) := two (fun i => o_forces o !! i) ids "I02 fabricated force" in
  do! require (negb (st_node (fr_row x) =? st_node (fr_row y))%nat) "I02 duplicate voter" in
  do! require (receipt_matches ballot slot value x && receipt_matches ballot slot value y)
    "I02 receipt identity" in
  do! require (bool_decide (default value (o_chosen o !! slot) = value)) "I02 conflicting chosen values" in
  Ok (set_proofs (<[i := ProofRow ballot slot value stored]> (o_proofs o))
       (set_chosen (<[slot := value]> (o_chosen o)) o)).

Definition check_proof (o : oracle) (node : nat) (e : receipt) (proof : identity) : result oracle :=
  let ballot := fd_ballot (st_data e) in
  let slot := fd_slot (st_data e) in
  let value := fd_value (st_data e) in
  match o_proofs o !! proof with
  | None => Err (ValueError "I04 proof without acceptance")
  | Some p =>
      do! require (bool_decide (o_accepted o !! (node, slot) = Some (ballot, value)))
        "I04 proof without acceptance" in
      do! require (promise_of o node =? ballot)%Z "I01 stale proof write" in
      do! require ((pf_ballot p =? ballot)%Z && (pf_slot p =? slot)%nat && bool_decide (pf_value p = value))
        "I04 wrong proof" in
      do! require (slot =? S (length (published_of o node)))%nat "I04 proof gap" in
      Ok (set_forces (<[fd_id (st_data e) := ForceRow true e]> (o_forces o))
           (set_published (<[node := published_of o node ++ [value]]> (o_published o)) o))
  end.

Definition check_success (o : oracle) (node : nat) (ballot : Z) (slot : nat) (value : string)
    (ids : list identity) : result oracle :=
  let! (x, y) := two (fun i => o_forces o !! i) ids "I03 proof quorum absent" in
  do! require (fr_proof x && fr_proof y) "I03 proof quorum absent" in
  do! require (negb (st_node (fr_row x) =? st_node (fr_row y))%nat
               && ((node =? st_node (fr_row x)) || (node =? st_node (fr_row y)))%nat)
    "I03 proof voter quorum" in
  do! require (receipt_matches ballot slot value x && receipt_matches ballot slot value y)
    "I03 proof receipt mismatch" in
  do! require (promise_of o node =? ballot)%Z "I04 success before publish/fencing" in
  let! v := of_option (py_get (published_of o node) (Z.of_nat slot - 1)) IndexError in
  do! require (bool_decide (v = value)) "I04 success before publish/fencing" in
  Ok (set_acknowledged ({[(slot, value)]} ∪ o_acknowledged o) o).

Definition check_read_invoke (o : oracle) (position node : nat) (rid : string) : result oracle :=
  do! require (bool_decide (o_reads o !! rid = None)) "I06 reused invocation" in
  Ok (set_reads (<[rid := ReadRow position (o_acknowledged o) node None]> (o_reads o)) o).

Definition check_read_pin (o : oracle) (node : nat) (ballot : Z) (slot : nat) (barrier rid : string)
    (pre : list string) (proof : option identity) : result oracle :=
  let! rd := of_option (o_reads o !! rid) KeyError in
  match (p ← proof; o_proofs o !! p) with
  | None => Err (ValueError "I06 foreign pin")
  | Some p =>
      do! require (rd_node rd =? node)%nat "I06 foreign pin" in
      do! require (bool_decide (pf_value p = barrier) && (rd_invoke rd <? pf_position p)%nat)
        "I06 reused barrier" in
      do! require (bool_decide ((slot, barrier) ∈ o_acknowledged o)) "I06 pin before proof quorum" in
      do! require (bool_decide (pre = published_of o node)) "I06 substituted view" in
      let! last := of_option (py_get pre (-1)) IndexError in
      do! require (bool_decide (last = barrier)) "I06 substituted view" in
      do! require (promise_of o node =? ballot)%Z "I06 pin after fencing" in
      do! require (forallb (fun w : nat * string => (w.1 <=? length pre)%nat
                     && bool_decide (py_get pre (Z.of_nat w.1 - 1) = Some w.2)) (elements (rd_writes rd)))
        "I06 stale read" in
      Ok (set_reads (<[rid := ReadRow (rd_invoke rd) (rd_writes rd) (rd_node rd) (Some pre)]> (o_reads o)) o)
  end.

Definition check_read_result (o : oracle) (rid : string) (pre : list string) : result oracle :=
  let! rd := of_option (o_reads o !! rid) KeyError in
  do! require (bool_decide (Some pre = rd_pin rd)) "I06 view changed after capture" in
  Ok o.

Definition step_voter (o : oracle) (position stored node g : nat) (d : voter_event) : result oracle :=
  match d with
  | VRestart => Ok (set_generations (<[node := S (generation_of o node)]> (o_generations o)) o)
  | VPromiseForce ballot proposer =>
      do! require (promise_of o node <? ballot)%Z "I01 promise regression/reuse" in
      do! require ((ballot - 2) mod 3 =? proposer)%Z "I01 ballot owner" in
      Ok (set_promises (<[node := ballot]> (o_promises o)) o)
  | VBasis b =>
      do! require (promise_of o node =? bd_ballot b)%Z "I05 basis without forced promise" in
      do! require (bool_decide (bd_accepted b = accepted_tail o node (length (bd_prefix b))))
        "I05 omitted accepted tail" in
      do! require (bool_decide (bd_prefix b = published_of o node)) "I05 mixed prefix" in
      do! require (bool_decide (o_bases o !! bd_id b = None)) "I05 reused basis identity" in
      Ok (set_bases (<[bd_id b := Stamped b node g stored]> (o_bases o)) o)
  | VInstall _ pre => check_install o node pre
  | VAcceptForce f => check_accept o node (Stamped f node g stored)
  | VProofForce f proof => check_proof o node (Stamped f node g stored) proof
  | VSuccess ballot slot value ids => check_success o node ballot slot value ids
  | VReadInvoke rid => check_read_invoke o position node rid
  | VReadPin ballot slot barrier rid pre proof => check_read_pin o node ballot slot barrier rid pre proof
  | VReadResult rid pre => check_read_result o rid pre
  | VReject _ _ | VLostDisk | VCheckpoint _ _ => Ok o
  end.

Definition step_cluster (o : oracle) (stored : nat) (d : cluster_event) : result oracle :=
  match d with
  | CAccount queued limit pins pinLimit =>
      do! require ((0 <=? queued)%Z && (queued <=? limit)%Z && (pins <=? pinLimit)%nat)
        "I08 resource accounting" in
      Ok o
  | CSelect ballot proposer ids pre value => check_select o ballot proposer ids pre value
  | CEntryQuorum ballot slot value ids i => check_quorum o stored ballot slot value ids i
  | CDrop _ | CDuplicate _ => Ok o
  end.

(** The body of the loop of [validate] for the row at [position]; [stored] is the row's own
    ["position"] key, which a row that is kept for later carries along. *)
Definition step (o : oracle) (position stored : nat) (b : event_body) : result oracle :=
  do! require (generation_ok o b) "I07 process generation" in
  match b with
  | OfVoter n g d => step_voter o position stored n g d
  | OfCluster d => step_cluster o stored d
  end.

Fixpoint replay (o : oracle) (position : nat) (es : list event) : result oracle :=
  match es with
  | [] => Ok o
  | e :: es' => let! o' := step o position (ev_position e) (ev_body e) in replay o' (S position) es'
  end.

Record summary := Summary {
  s_events : nat;
  s_chosen_slots : nat;
  s_acknowledged_slots : nat;
  s_reads : nat
}.

Definition validate (es : list event) : result summary :=
  let! o := replay oracle0 0 es in
  Ok (Summary (length es) (size (o_chosen o)) (size (o_acknowledged o)) (size (o_reads o))).

(** ** Replaying in pieces *)

Lemma replay_app o p es1 es2 :
  replay o p (es1 ++ es2) = rbind (replay o p es1) (fun o' => replay o' (p + length es1) es2).
Proof.
  revert o p. induction es1 as [|e es1 IH]; intros o p; simpl.
  - by rewrite Nat.add_0_r.
  - destruct (step o p (ev_position e) (ev_body e)) as [o'|]; simpl; [|done].
    rewrite IH. by rewrite Nat.add_succ_r.
Qed.

Lemma replay_snoc es e o :
  replay oracle0 0 es = Ok o ->
  replay oracle0 0 (es ++ [e]) = step o (length es) (ev_position e) (ev_body e).
Proof.
  intros H. rewrite replay_app, H. simpl. by destruct (step o (length es) (ev_position e) (ev_body e)).
Qed.
