(* ===== verification/ClusterInvariant.v ===== *)
(** * The safety invariant of the V5.1 protocol

    The invariant relates a [Cluster] to the state [o] of the event oracle after it has replayed
    the cluster's own log, and to the ghost list [g] of all (ballot, slot, value) triples that a
    campaign has ever proposed.  [ext] collects how the oracle state can grow, and the lemmas
    after it say which parts of the invariant survive every such growth. *)

From stdpp Require Import base gmap sets strings list pretty.
From S2P Require Import Prelude ProtocolEvents Cluster History.

(** ** Facts read off the oracle state *)

Definition ForceAt (o : oracle) (pf : bool) (i : identity) (n : nat) (b : Z) (s : nat) (v : string) : Prop :=
  exists e : receipt, o_forces o !! i = Some (ForceRow pf e) /\ st_node e = n /\
    fd_ballot (st_data e) = b /\ fd_slot (st_data e) = s /\ fd_value (st_data e) = v.

Definition Vote (o : oracle) (n : nat) (b : Z) (s : nat) (v : string) : Prop :=
  exists i, ForceAt o false i n b s v.

(** Two distinct voters out of three: a quorum. *)
Definition Quorum2 (P : nat -> Prop) : Prop :=
  exists n1 n2, n1 <> n2 /\ n1 < 3 /\ n2 < 3 /\ P n1 /\ P n2.

Definition ChosenAt (o : oracle) (b : Z) (s : nat) (v : string) : Prop :=
  Quorum2 (fun n => Vote o n b s v).

(** No ballot below [b] can have chosen a value other than [v] at slot [s]. *)
Definition SafeAt (o : oracle) (b : Z) (s : nat) (v : string) : Prop :=
  forall b', (b' < b)%Z ->
    Quorum2 (fun n => (b' < promise_of o n)%Z /\ forall v', Vote o n b' s v' -> v' = v).

Definition PrefixChosen (o : oracle) (p : list string) : Prop :=
  forall i v, p !! i = Some v -> o_chosen o !! S i = Some v.

Record GoodBasis (o : oracle) (b : Z) (e : basis) : Prop := {
  gb_stored : o_bases o !! bd_id (st_data e) = Some e;
  gb_ballot : bd_ballot (st_data e) = b;
  gb_node : st_node e < 3;
  gb_promise : (b <= promise_of o (st_node e))%Z;
  gb_chosen : PrefixChosen o (bd_prefix (st_data e));
  gb_prefix : bd_prefix (st_data e) `prefix_of` published_of o (st_node e);
  gb_complete : forall s b' v, length (bd_prefix (st_data e)) < s -> (b' < b)%Z ->
    Vote o (st_node e) b' s v ->
    exists h w, bd_accepted (st_data e) !! s = Some (h, w) /\ (b' <= h)%Z;
  gb_sound : forall s h w, bd_accepted (st_data e) !! s = Some (h, w) ->
    length (bd_prefix (st_data e)) < s /\ (h < b)%Z /\ Vote o (st_node e) h s w
}.

(** Voters that proved slot [s] already and did not vote for it at ballot [b]: they never will. *)
Definition Blocked (o : oracle) (b : Z) (s : nat) : Prop :=
  Quorum2 (fun n => s <= length (published_of o n) /\ forall v, ~ Vote o n b s v).

Record OInv (o : oracle) (N P : nat) : Prop := {
  oi_published : forall n, PrefixChosen o (published_of o n);
  oi_chosen : forall s v, o_chosen o !! s = Some v -> exists b, ChosenAt o b s v;
  oi_vote : forall n b s v, Vote o n b s v -> n < 3 /\ (b <= promise_of o n)%Z /\
    exists b' v', o_accepted o !! (n, s) = Some (b', v') /\ (b <= b')%Z /\ (b = b' -> v = v');
  oi_accepted : forall n b s v, o_accepted o !! (n, s) = Some (b, v) -> Vote o n b s v;
  oi_proof_force : forall i n b s v, ForceAt o true i n b s v ->
    n < 3 /\ 1 <= s /\ published_of o n !! (s - 1) = Some v /\
    exists p pos, o_proofs o !! p = Some (ProofRow b s v pos);
  oi_proof : forall p b s v pos, o_proofs o !! p = Some (ProofRow b s v pos) ->
    ChosenAt o b s v /\ o_chosen o !! s = Some v /\ pos < P;
  oi_acked : forall s v, (s, v) ∈ o_acknowledged o -> 1 <= s /\ o_chosen o !! s = Some v /\
    Quorum2 (fun n => s <= length (published_of o n));
  oi_reads : forall rid rd, o_reads o !! rid = Some rd ->
    rd_invoke rd < P /\ rd_writes rd ⊆ o_acknowledged o;
  oi_id_forces : forall i x, o_forces o !! i = Some x -> id_serial i <= N;
  oi_id_bases : forall i x, o_bases o !! i = Some x -> id_serial i <= N;
  oi_id_proofs : forall i x, o_proofs o !! i = Some x -> id_serial i <= N
}.

(** ** Campaigns, messages, proposals *)

Record RoundOk (o : oracle) (rds : gmap string Z) (b : Z) (leader peer : nat) (r : round) : Prop := {
  ro_slot : 1 <= r_slot r;
  ro_accepts : forall n i, (n, i) ∈ r_accepts r -> ForceAt o false i n b (r_slot r) (r_value r);
  ro_accepts_keys : NoDup (r_accepts r).*1;
  ro_proofs : forall n i, (n, i) ∈ r_proofs r ->
    ForceAt o true i n b (r_slot r) (r_value r) /\ (n = leader \/ n = peer);
  ro_proofs_keys : NoDup (r_proofs r).*1;
  ro_proof : forall p, r_proof r = Some p -> exists pos,
    o_proofs o !! p = Some (ProofRow b (r_slot r) (r_value r) pos) /\
    forall rid rd, r_read r = Some rid -> o_reads o !! rid = Some rd -> rd_invoke rd < pos;
  ro_seen : forall p v pos, o_proofs o !! p = Some (ProofRow b (r_slot r) v pos) -> is_Some (r_proof r);
  ro_activation : r_activation r = true -> r_read r = None;
  ro_read : forall rid, r_read r = Some rid -> rds !! rid = Some b /\ exists rd,
    o_reads o !! rid = Some rd /\ rd_node rd = leader /\
    forall i w, (i, w) ∈ rd_writes rd -> i < r_slot r \/ Blocked o b (r_slot r)
}.

(** What a selected campaign knows of the two voters it selected from. *)
Record Selected (o : oracle) (b : Z) (leader peer s0 : nat) : Prop := {
  se_ne : peer <> leader;
  se_lt : peer < 3;
  se_promise : forall q, q = leader \/ q = peer -> (b <= promise_of o q)%Z;
  se_silent : forall q s b' v, q = leader \/ q = peer -> s0 < s -> (b' < b)%Z -> ~ Vote o q b' s v
}.

Definition CampOk (o : oracle) (rds : gmap string Z) (b : Z) (cp : campaign) : Prop :=
  c_node cp < 3 /\
  (exists own, c_bases cp !! c_node cp = Some own /\ st_node own = c_node cp /\ GoodBasis o b own) /\
  if c_selected cp then
    exists peer s0 v0, c_quorum cp = Some [c_node cp; peer] /\
      o_selections o !! b = Some (s0, v0) /\ Selected o b (c_node cp) peer s0 /\
      (forall r, c_round cp = Some r -> RoundOk o rds b (c_node cp) peer r)
  else (o_selections o !! b = None /\ c_quorum cp = None) /\ c_round cp = None.

(** While its voter still promises the campaign's ballot, a leader's prefix stays where the
    campaign put it. *)
Definition LeadOk (o : oracle) (b : Z) (cp : campaign) : Prop :=
  promise_of o (c_node cp) = b ->
  match c_round cp with
  | Some r => length (published_of o (c_node cp)) <= r_slot r
  | None => c_selected cp = false -> forall own, c_bases cp !! c_node cp = Some own ->
      published_of o (c_node cp) = bd_prefix (st_data own)
  end.

(** Proposals of a ballot lie between its selected slot and its current slot. *)
Definition PropBound (o : oracle) (cp : campaign) (b : Z) (s : nat) (v : string) : Prop :=
  c_selected cp = true /\
  (exists s0 v0, o_selections o !! b = Some (s0, v0) /\ s0 <= s /\ (s = s0 -> v = v0)) /\
  match c_round cp with
  | Some r => s <= r_slot r
  | None => s <= length (published_of o (c_node cp))
  end.

Definition ghost := list (Z * nat * string).

Definition MsgOk (o : oracle) (g : ghost) (cps : gmap Z campaign) (m : message) : Prop :=
  m_target m < 3 /\ exists cp, cps !! m_ballot m = Some cp /\
  match m_body m with
  | MPrepare _ => m_target m <> c_node cp
  | MPromise e => m_target m = c_node cp /\ GoodBasis o (m_ballot m) e /\ st_node e <> c_node cp
  | MAccept p v => PrefixChosen o p /\ (m_ballot m, S (length p), v) ∈ g
  | MAccepted e => m_target m = c_node cp /\
      ForceAt o false (fd_id (st_data e)) (st_node e) (m_ballot m) (fd_slot (st_data e)) (fd_value (st_data e))
  | MProof p s v => (exists pos, o_proofs o !! p = Some (ProofRow (m_ballot m) s v pos)) /\
      exists peer, c_quorum cp = Some [c_node cp; peer] /\ (m_target m = c_node cp \/ m_target m = peer)
  | MProven e => m_target m = c_node cp /\
      ForceAt o true (fd_id (st_data e)) (st_node e) (m_ballot m) (fd_slot (st_data e)) (fd_value (st_data e)) /\
      exists peer, c_quorum cp = Some [c_node cp; peer] /\ (st_node e = c_node cp \/ st_node e = peer)
  end.

(** The voters and the oracle agree. *)
Definition Sync (vs : list Voter) (o : oracle) : Prop :=
  length vs = 3 /\ forall n v, vs !! n = Some v ->
    promise_of o n = promise v /\ published_of o n = prefix v /\ generation_of o n = generation v /\
    forall s, o_accepted o !! (n, s) = accepted v !! s.

(** Client reads and pinned views. *)
Definition ReadsOk (o : oracle) (cps : gmap Z campaign) (rds : gmap string Z)
    (ps : gmap string (list string)) : Prop :=
  (forall rid, rds !! rid = None -> o_reads o !! rid = None) /\
  (forall rid b, rds !! rid = Some b -> exists cp, cps !! b = Some cp /\ c_node cp < 3) /\
  (forall rid p, ps !! rid = Some p -> exists rd, o_reads o !! rid = Some rd /\ rd_pin rd = Some p) /\
  size ps <= 8.

(** Queue and pin capacity; a cluster with a negative limit never queues anything. *)
Definition LimitOk (ql : Z) (ms : list message) (ps : gmap string (list string)) : Prop :=
  if (0 <=? ql)%Z then (Z.of_nat (length ms) <= ql)%Z else ms = [] /\ ps = ∅.

Record I (c : Cluster) (o : oracle) (g : ghost) : Prop := {
  i_sync : Sync (voters c) o;
  i_oracle : OInv o (serial c) (length (events c));
  i_camp : forall b cp, campaigns c !! b = Some cp -> CampOk o (reads c) b cp;
  i_lead : forall b cp, campaigns c !! b = Some cp -> LeadOk o b cp;
  i_sel : forall b, campaigns c !! b = None -> o_selections o !! b = None;
  i_prop : forall b s v, (b, s, v) ∈ g -> exists cp, campaigns c !! b = Some cp /\ PropBound o cp b s v;
  i_uniq : forall b s v v', (b, s, v) ∈ g -> (b, s, v') ∈ g -> v = v';
  i_safe : forall b s v, (b, s, v) ∈ g -> SafeAt o b s v;
  i_votes : forall n b s v, Vote o n b s v -> (b, s, v) ∈ g;
  i_rounds : forall b cp r, campaigns c !! b = Some cp -> c_round cp = Some r -> (b, r_slot r, r_value r) ∈ g;
  i_msgs : forall m, m ∈ messages c -> MsgOk o g (campaigns c) m;
  i_reads : ReadsOk o (campaigns c) (reads c) (pins c);
  i_limit : LimitOk (queue_limit c) (messages c) (pins c);
  i_ready : forall b cp, campaigns c !! b = Some cp -> c_ready cp = true -> exists s v, (b, s, v) ∈ g
}.

Definition St (c : Cluster) (o : oracle) (g : ghost) : Prop :=
  replay oracle0 0 (events c) = Ok o /\ I c o g.

Definition Inv (c : Cluster) : Prop := exists o g, St c o g.

(** ** Growth of the oracle state *)

Record ext (o o' : oracle) : Prop := {
  e_promise : forall n, (promise_of o n <= promise_of o' n)%Z;
  e_published : forall n, published_of o n `prefix_of` published_of o' n;
  e_forces : o_forces o ⊆ o_forces o';
  e_new : forall n b s v, Vote o' n b s v -> Vote o n b s v \/
    ((promise_of o n <= b)%Z /\ length (published_of o n) < s);
  e_chosen : o_chosen o ⊆ o_chosen o';
  e_proofs : o_proofs o ⊆ o_proofs o';
  e_bases : o_bases o ⊆ o_bases o';
  e_selections : o_selections o ⊆ o_selections o';
  e_acked : o_acknowledged o ⊆ o_acknowledged o';
  e_reads : forall rid rd, o_reads o !! rid = Some rd -> exists rd', o_reads o' !! rid = Some rd' /\
    rd_invoke rd' = rd_invoke rd /\ rd_writes rd' = rd_writes rd /\ rd_node rd' = rd_node rd
}.

Lemma quorum_mono (P Q : nat -> Prop) : (forall n, P n -> Q n) -> Quorum2 P -> Quorum2 Q.
Proof. intros H (n1 & n2 & ? & ? & ? & ? & ?). exists n1, n2. split_and!; auto. Qed.

(** Any two quorums of the three voters share a voter. *)
Lemma quorum_meet (P Q : nat -> Prop) : Quorum2 P -> Quorum2 Q -> exists n, n < 3 /\ P n /\ Q n.
Proof.
  intros (a & b & Hab & Ha & Hb & Pa & Pb) (d & e & Hde & Hd & He & Qd & Qe).
  destruct (decide (a = d)) as [->|]; [by exists d|].
  destruct (decide (a = e)) as [->|]; [by exists e|].
  destruct (decide (b = d)) as [->|]; [by exists d|].
  destruct (decide (b = e)) as [->|]; [by exists e|]. lia.
Qed.

Section ext.
Context {o o' : oracle} (Hext : ext o o').

Lemma ForceAt_ext pf i n b s v : ForceAt o pf i n b s v -> ForceAt o' pf i n b s v.
Proof using Hext.
  intros (e & He & ?). exists e. split; [|done]. by eapply lookup_weaken, e_forces.
Qed.

Lemma Vote_ext n b s v : Vote o n b s v -> Vote o' n b s v.
Proof using Hext. intros [i H]. exists i. by apply ForceAt_ext. Qed.

Lemma ChosenAt_ext b s v : ChosenAt o b s v -> ChosenAt o' b s v.
Proof using Hext. apply quorum_mono. intros n. apply Vote_ext. Qed.

Lemma published_length_ext n : length (published_of o n) <= length (published_of o' n).
Proof using Hext. apply prefix_length, e_published, Hext. Qed.

(** A voter that promised beyond [b] votes no more at [b]. *)
Lemma Vote_old n b s v : (b < promise_of o n)%Z -> Vote o' n b s v -> Vote o n b s v.
Proof using Hext. intros Hp Hv. destruct (e_new _ _ Hext _ _ _ _ Hv) as [|[? ?]]; [done|lia]. Qed.

Lemma Vote_old_slot n b s v : s <= length (published_of o n) -> Vote o' n b s v -> Vote o n b s v.
Proof using Hext. intros Hp Hv. destruct (e_new _ _ Hext _ _ _ _ Hv) as [|[? ?]]; [done|lia]. Qed.

Lemma SafeAt_ext b s v : SafeAt o b s v -> SafeAt o' b s v.
Proof using Hext.
  intros H b' Hb'. eapply quorum_mono; [|by apply H]. intros n [Hp Hv]. split.
  - pose proof (e_promise _ _ Hext n). lia.
  - intros v' Hv'. apply Hv, Vote_old; auto.
Qed.

Lemma PrefixChosen_ext p : PrefixChosen o p -> PrefixChosen o' p.
Proof using Hext. intros H i v Hi. eapply lookup_weaken, e_chosen, Hext. by apply H. Qed.

Lemma GoodBasis_ext b e : GoodBasis o b e -> GoodBasis o' b e.
Proof using Hext.
  intros [H1 H2 H3 H4 H5 H6 H7 H8]. split; auto.
  - by eapply lookup_weaken, e_bases.
  - pose proof (e_promise _ _ Hext (st_node e)). lia.
  - by apply PrefixChosen_ext.
  - etrans; [done|]. apply e_published, Hext.
  - intros s b' v Hs Hb Hv. eapply H7; [done..|]. apply Vote_old in Hv; [done|lia].
  - intros s h w Hs. destruct (H8 _ _ _ Hs) as (? & ? & ?). split_and!; auto. by apply Vote_ext.
Qed.

Lemma Blocked_ext b s : Blocked o b s -> Blocked o' b s.
Proof using Hext.
  apply quorum_mono. intros n [Hl Hv]. split.
  - pose proof (published_length_ext n). lia.
  - intros v H. by eapply Hv, Vote_old_slot.
Qed.

Lemma Selected_ext b l p s0 : Selected o b l p s0 -> Selected o' b l p s0.
Proof using Hext.
  intros [H1 H2 H3 H4]. split; auto.
  - intros q Hq. pose proof (e_promise _ _ Hext q). specialize (H3 q Hq). lia.
  - intros q s b' v Hq Hs Hb Hv. eapply (H4 q s b' v); auto. apply Vote_old; [|done].
    specialize (H3 q Hq). lia.
Qed.
End ext.

Lemma ext_refl o : ext o o.
Proof. split; auto; try reflexivity. intros rid rd H. eauto. Qed.

(** Growth that leaves the certificates ([o_proofs]) alone. *)
Lemma RoundOk_ext o o' rds rds' b l p r :
  ext o o' -> o_proofs o' = o_proofs o -> rds ⊆ rds' ->
  RoundOk o rds b l p r -> RoundOk o' rds' b l p r.
Proof.
  intros Hext Hpr Hrds [H1 H2 H3 H4 H5 H6 H7 H8 H9]. split; auto.
  - intros n i Hn. eapply ForceAt_ext; eauto.
  - intros n i Hn. destruct (H4 _ _ Hn). split; [|done]. eapply ForceAt_ext; eauto.
  - intros q Hq. destruct (H6 _ Hq) as (pos & Hpos & Hrd). exists pos. rewrite Hpr. split; [done|].
    intros rid rd' Hr Hrd'. destruct (H9 _ Hr) as (_ & rd & Hrd0 & _).
    destruct (e_reads _ _ Hext _ _ Hrd0) as (rd1 & Hrd1 & Hinv & _). simplify_eq.
    rewrite Hinv. eauto.
  - rewrite Hpr. done.
  - intros rid Hr. destruct (H9 _ Hr) as (? & rd & Hrd & Hn & Hw). split; [by eapply lookup_weaken|].
    destruct (e_reads _ _ Hext _ _ Hrd) as (rd' & Hrd' & _ & Hwr & Hnd).
    exists rd'. split_and!; [done | congruence |]. rewrite Hwr. intros i w Hi.
    destruct (Hw i w Hi); [by left | right]. by eapply Blocked_ext.
Qed.

Lemma CampOk_ext o o' rds rds' b cp :
  ext o o' -> o_proofs o' = o_proofs o -> o_selections o' !! b = o_selections o !! b ->
  rds ⊆ rds' -> CampOk o rds b cp -> CampOk o' rds' b cp.
Proof.
  intros Hext Hpr Hsel Hrds (H1 & (own & H2 & H3 & H4) & H5). split; [done|]. split.
  { exists own. split_and!; auto. by eapply GoodBasis_ext. }
  destruct (c_selected cp); rewrite Hsel; [|done].
  destruct H5 as (peer & s0 & v0 & ? & ? & ? & Hr). exists peer, s0, v0. split_and!; auto.
  - by eapply Selected_ext.
  - intros r Hcr. eapply RoundOk_ext; eauto.
Qed.

Lemma MsgOk_ext o o' g g' cps m : ext o o' -> g ⊆ g' -> MsgOk o g cps m -> MsgOk o' g' cps m.
Proof.
  intros Hext Hg (Ht & cp & Hcp & H). split; [done|]. exists cp. split; [done|].
  destruct (m_body m); [done|..].
  - destruct H as (? & ? & ?). eauto using GoodBasis_ext.
  - destruct H as (? & ?). eauto using PrefixChosen_ext.
  - destruct H as (? & ?). eauto using ForceAt_ext.
  - destruct H as ([pos Hpos] & ?). split; [|done]. exists pos.
    eapply lookup_weaken; [done|]. apply Hext.
  - destruct H as (? & ? & ?). eauto using ForceAt_ext.
Qed.

Lemma PropBound_ext o o' cp b s v : ext o o' -> PropBound o cp b s v -> PropBound o' cp b s v.
Proof.
  intros Hext (H1 & (s0 & v0 & H2 & H3) & H4). split_and!; auto.
  - exists s0, v0. split; [|done]. eapply lookup_weaken; [done|]. apply Hext.
  - destruct (c_round cp); [done|]. pose proof (published_length_ext Hext (c_node cp)). lia.
Qed.

Lemma ReadsOk_ext o o' cps rds ps :
  o_reads o' = o_reads o -> ReadsOk o cps rds ps -> ReadsOk o' cps rds ps.
Proof. unfold ReadsOk. intros ->. done. Qed.

Lemma OInv_weaken o N N' P P' : N <= N' -> P <= P' -> OInv o N P -> OInv o N' P'.
Proof.
  intros HN HP [? ? ? ? ? Hpr ? Hrd Hf Hb Hp]. split; auto.
  - intros p b s v pos Hpos. destruct (Hpr _ _ _ _ _ Hpos) as (? & ? & ?). split_and!; auto. lia.
  - intros rid rd Hr. destruct (Hrd _ _ Hr). split; [lia|done].
  - intros i x Hi. specialize (Hf _ _ Hi). lia.
  - intros i x Hi. specialize (Hb _ _ Hi). lia.
  - intros i x Hi. specialize (Hp _ _ Hi). lia.
Qed.

(** ** The initial state *)

Lemma I_init ql pl : I (init ql pl) oracle0 [].
Proof.
  assert (HF : forall pf i n b s v, ~ ForceAt oracle0 pf i n b s v).
  { intros pf i n b s v (e & He & _). done. }
  split; simpl; try (intros; set_solver).
  - split; [done|]. intros n v Hn.
    do 3 (destruct n as [|n]; [simpl in Hn; simplify_eq; done|]). done.
  - split; simpl; try (intros; set_solver).
    + intros n i v Hi. done.
    + intros n b s v [i Hv]. by apply HF in Hv.
  - intros n b s v [i Hv]. by apply HF in Hv.
  - split_and!; try done. rewrite map_size_empty. lia.
  - unfold LimitOk; simpl. destruct (Z.leb_spec 0 ql); done.
Qed.
