(* ===== verification/ClusterAtoms.v ===== *)
(** * Atomic steps of the V5.1 protocol

    Each lemma takes one durable action of the model, a state update together with the log row
    that records it, and shows that the oracle accepts the row and the invariant holds again. *)

From stdpp Require Import base gmap sets strings list pretty.
From S2P Require Import Prelude ProtocolEvents Cluster History ClusterInvariant.

Definition log (b : event_body) (c : Cluster) : Cluster :=
  with_events (fun es => es ++ [Event b (length es)]) c.

(** ** Executing the primitive calls *)

Lemma wp_voter n Q (E : Cluster -> Prop) c :
  (forall v, voters c !! n = Some v -> Q v c) -> E c -> wp (voter n) Q E c.
Proof.
  intros HQ HE. unfold voter. do 2 wp_step. apply wp_liftr; [|done].
  intros v Hv. apply HQ. by destruct (voters c !! n); simplify_eq/=.
Qed.

Lemma wp_voter_some n v Q (E : Cluster -> Prop) c :
  voters c !! n = Some v -> Q v c -> wp (voter n) Q E c.
Proof. intros Hv HQ. unfold voter. do 2 wp_step. by rewrite Hv. Qed.

Lemma wp_campaign b Q (E : Cluster -> Prop) c :
  (forall cp, campaigns c !! b = Some cp -> Q cp c) -> E c -> wp (campaign_at b) Q E c.
Proof.
  intros HQ HE. unfold campaign_at. do 2 wp_step. apply wp_liftr; [|done].
  intros v Hv. apply HQ. by destruct (campaigns c !! b); simplify_eq/=.
Qed.

Lemma wp_campaign_some b cp Q (E : Cluster -> Prop) c :
  campaigns c !! b = Some cp -> Q cp c -> wp (campaign_at b) Q E c.
Proof. intros Hv HQ. unfold campaign_at. do 2 wp_step. by rewrite Hv. Qed.

Lemma wp_set_voter n f Q (E : Cluster -> Prop) c :
  Q tt (with_voters (alter f n) c) -> wp (set_voter n f) Q E c.
Proof. intros HQ. exact HQ. Qed.

Lemma wp_set_campaign b f Q (E : Cluster -> Prop) c :
  Q tt (with_campaigns (alter f b) c) -> wp (set_campaign b f) Q E c.
Proof. intros HQ. exact HQ. Qed.

Lemma wp_need b msg Q (E : Cluster -> Prop) c :
  (b = true -> Q tt c) -> E c -> wp (need b msg) Q E c.
Proof. intros HQ HE. unfold need. apply wp_liftr; [|done]. intros [] H. apply HQ. by destruct b. Qed.

Lemma wp_stamped_row {D} (mk : D -> voter_event) d n v Q (E : Cluster -> Prop) c :
  voters c !! n = Some v ->
  Q (Stamped d n (generation v) (length (events c))) (log (OfVoter n (generation v) (mk d)) c) ->
  wp (stamped_row mk d n) Q E c.
Proof. intros Hv HQ. unfold stamped_row. wp_step. eapply wp_voter_some; [done|]. exact HQ. Qed.

Lemma wp_voter_row d n v Q (E : Cluster -> Prop) c :
  voters c !! n = Some v -> Q tt (log (OfVoter n (generation v) d) c) -> wp (voter_row d n) Q E c.
Proof.
  intros Hv HQ. unfold voter_row. wp_step. eapply wp_stamped_row; [done|]. exact HQ.
Qed.

Lemma wp_cluster_row d Q (E : Cluster -> Prop) c :
  Q tt (log (OfCluster d) c) -> wp (cluster_row d) Q E c.
Proof. intros HQ. exact HQ. Qed.

Lemma wp_identity l Q (E : Cluster -> Prop) c :
  Q (Identity l (S (serial c))) (with_serial S c) -> wp (identity_ l) Q E c.
Proof. intros HQ. exact HQ. Qed.

(** ** Rows that change nothing the oracle keeps *)

Lemma St_log c o g b : St c o g -> step o (length (events c)) (length (events c)) b = Ok o -> St (log b c) o g.
Proof.
  intros [Hr HI] Hs. split; simpl.
  - by rewrite (replay_snoc _ _ _ Hr).
  - destruct HI. split; auto. eapply OInv_weaken; [..|done]; simpl; [lia|]. rewrite length_app. lia.
Qed.

Lemma generation_sync c o g n v :
  St c o g -> voters c !! n = Some v -> generation_of o n = generation v.
Proof. intros [_ HI] Hv. destruct (i_sync _ _ _ HI) as [_ H]. by destruct (H _ _ Hv) as (_ & _ & ? & _). Qed.

Lemma replay_log c o b :
  replay oracle0 0 (events c) = Ok o ->
  replay oracle0 0 (events (log b c)) = step o (length (events c)) (length (events c)) b.
Proof. intros Hr. simpl. by rewrite (replay_snoc _ _ _ Hr). Qed.

Lemma step_own_row o p n g d :
  generation_of o n = g -> step o p p (OfVoter n g d) = step_voter o p p n g d.
Proof. intros <-. unfold step. simpl. by rewrite Nat.eqb_refl. Qed.

Lemma St_quiet_row c o g n v d :
  St c o g -> voters c !! n = Some v ->
  (forall p, step_voter o p p n (generation v) d = Ok o) ->
  St (log (OfVoter n (generation v) d) c) o g.
Proof. intros HS Hv Hd. apply St_log; [done|]. rewrite step_own_row; eauto using generation_sync. Qed.

Lemma St_account c o g :
  St c o g -> (messages c <> [] \/ pins c <> ∅ \/ (0 <= queue_limit c)%Z) ->
  St (log (OfCluster (CAccount (Z.of_nat (length (messages c))) (queue_limit c) (size (pins c)) 8)) c) o g.
Proof.
  intros HS Hne. apply St_log; [done|]. destruct HS as [_ HI].
  unfold step. cbn [generation_ok require guard rbind step_cluster].
  pose proof (i_limit _ _ _ HI) as Hl. unfold LimitOk in Hl.
  destruct (i_reads _ _ _ HI) as (_ & _ & _ & Hp).
  destruct (Z.leb_spec 0 (queue_limit c)).
  - rewrite (proj2 (Z.leb_le 0 (Z.of_nat (length (messages c))))) by lia.
    rewrite (proj2 (Z.leb_le _ (queue_limit c))) by lia.
    by rewrite (proj2 (Nat.leb_le _ 8)).
  - exfalso. destruct Hl as [Hm Hps]. destruct Hne as [|[|]]; [done..|lia].
Qed.

Lemma wp_account c o g Q (E : Cluster -> Prop) :
  St c o g -> (messages c <> [] \/ pins c <> ∅ \/ (0 <= queue_limit c)%Z) ->
  (forall b, St (log b c) o g -> Q tt (log b c)) -> wp account Q E c.
Proof. intros HS Hne HQ. unfold account. do 2 wp_step. apply wp_cluster_row, HQ. by apply St_account. Qed.

(** ** The queue *)

Definition core_eq (c c' : Cluster) : Prop :=
  voters c' = voters c /\ campaigns c' = campaigns c /\ pins c' = pins c /\ reads c' = reads c /\
  serial c' = serial c /\ queue_limit c' = queue_limit c.

#[export] Instance core_eq_refl : Reflexive core_eq.
Proof. intros c. by split_and!. Qed.
#[export] Instance core_eq_trans : Transitive core_eq.
Proof. intros x y z (?&?&?&?&?&?) (?&?&?&?&?&?). split_and!; congruence. Qed.

Lemma St_enqueue c o g m :
  St c o g -> MsgOk o g (campaigns c) m -> (Z.of_nat (length (messages c)) < queue_limit c)%Z ->
  St (with_messages (fun ms => ms ++ [m]) c) o g.
Proof.
  intros [Hr HI] Hm Hl. split; [done|]. destruct HI. split; auto; simpl.
  - intros m' [Hm'|Hm']%elem_of_app; [by auto|]. by apply list_elem_of_singleton in Hm' as ->.
  - unfold LimitOk. rewrite (proj2 (Z.leb_le 0 _)) by lia. rewrite length_app; simpl. lia.
Qed.

Lemma wp_queue m c o g Q (E : Cluster -> Prop) :
  St c o g -> MsgOk o g (campaigns c) m -> E c ->
  (forall c', core_eq c c' -> St c' o g -> Q tt c') -> wp (queue m) Q E c.
Proof.
  intros HS Hm HE HQ. unfold queue. do 3 wp_step. apply wp_need; [|done]. intros Hl%Z.ltb_lt.
  do 2 wp_step. eapply wp_account; [by apply St_enqueue | right; right; simpl; lia |].
  intros b HS'. apply HQ; [|done]. by split_and!.
Qed.

Lemma St_pop c o g p :
  St c o g -> St (with_messages (delete p) c) o g.
Proof.
  intros [Hr HI]. split; [done|]. destruct HI as [? ? ? ? ? ? ? ? ? ? Hms ? Hlim ?]. split; auto; simpl.
  - intros m Hm. apply Hms. by eapply list_elem_of_delete_inv.
  - unfold LimitOk in *. pose proof (sublist_length _ _ (sublist_delete (messages c) p)) as Hd.
    destruct (0 <=? queue_limit c)%Z; [lia|]. by destruct Hlim as [-> ->].
Qed.

(** ** Growing the oracle under fixed campaigns *)

Lemma I_grow_reads c c' o o' g :
  I c o g -> ext o o' -> o_proofs o' = o_proofs o -> o_selections o' = o_selections o ->
  campaigns c' = campaigns c -> messages c' = messages c -> queue_limit c' = queue_limit c ->
  reads c ⊆ reads c' -> ReadsOk o' (campaigns c') (reads c') (pins c') ->
  LimitOk (queue_limit c') (messages c') (pins c') ->
  Sync (voters c') o' -> OInv o' (serial c') (length (events c')) ->
  (forall b cp, campaigns c !! b = Some cp -> LeadOk o' b cp) ->
  (forall n b s v, Vote o' n b s v -> (b, s, v) ∈ g) -> I c' o' g.
Proof.
  intros HI Hext Hpr Hsel Hc Hm Hq Hre HRO HLO HS HO HL HV. destruct HI.
  split; rewrite ?Hc, ?Hm; auto.
  - intros b cp Hb. eapply CampOk_ext; eauto. by rewrite Hsel.
  - rewrite Hsel. done.
  - intros b s v Hb. destruct (i_prop b s v Hb) as (cp & ? & ?). eauto using PropBound_ext.
  - intros b s v Hb. eapply SafeAt_ext; eauto.
  - intros m Hb. eapply MsgOk_ext; eauto.
  - by rewrite <- Hc.
  - by rewrite <- Hm.
Qed.

Lemma I_grow c c' o o' g :
  I c o g -> ext o o' -> o_proofs o' = o_proofs o -> o_selections o' = o_selections o ->
  o_reads o' = o_reads o ->
  campaigns c' = campaigns c -> messages c' = messages c -> reads c' = reads c -> pins c' = pins c ->
  queue_limit c' = queue_limit c ->
  Sync (voters c') o' -> OInv o' (serial c') (length (events c')) ->
  (forall b cp, campaigns c !! b = Some cp -> LeadOk o' b cp) ->
  (forall n b s v, Vote o' n b s v -> (b, s, v) ∈ g) -> I c' o' g.
Proof.
  intros HI Hext Hpr Hsel Hrd Hc Hm Hre Hp Hq HS HO HL HV.
  eapply I_grow_reads; eauto; rewrite ?Hc, ?Hm, ?Hre, ?Hp, ?Hq; auto.
  - eapply ReadsOk_ext; [done|]. apply HI.
  - apply HI.
Qed.

Lemma alter_lookup (f : Voter -> Voter) (vs : list Voter) n m v :
  alter f n vs !! m = Some v ->
  exists v0, vs !! m = Some v0 /\ v = (if decide (n = m) then f v0 else v0).
Proof.
  destruct (decide (n = m)) as [->|Hne].
  - rewrite list_lookup_alter_eq. destruct (vs !! m); intros; simplify_eq/=. eauto.
  - rewrite list_lookup_alter_ne by done. eauto.
Qed.

(** The voters stay in step with the oracle when one voter and its oracle rows change together. *)
Lemma Sync_alter vs o o' n f :
  Sync vs o ->
  (forall m, m <> n -> promise_of o' m = promise_of o m /\ published_of o' m = published_of o m /\
    generation_of o' m = generation_of o m /\ forall s, o_accepted o' !! (m, s) = o_accepted o !! (m, s)) ->
  (forall v, vs !! n = Some v -> promise_of o' n = promise (f v) /\ published_of o' n = prefix (f v) /\
    generation_of o' n = generation (f v) /\ forall s, o_accepted o' !! (n, s) = accepted (f v) !! s) ->
  Sync (alter f n vs) o'.
Proof.
  intros [Hl Hs] Hne Heq. split; [by rewrite length_alter|].
  intros m v' Hm. apply alter_lookup in Hm as (v0 & Hv0 & ->). destruct (decide (n = m)) as [->|Hn].
  - by apply Heq.
  - destruct (Hne m) as (-> & -> & -> & Ha); [congruence|]. destruct (Hs _ _ Hv0) as (? & ? & ? & ?).
    split_and!; auto. intros s. by rewrite Ha.
Qed.

Lemma promise_insert o n b m :
  promise_of (set_promises (<[n := b]> (o_promises o)) o) m = if decide (n = m) then b else promise_of o m.
Proof. unfold promise_of; simpl. rewrite lookup_insert. by case_decide. Qed.

Lemma published_insert o n p m :
  published_of (set_published (<[n := p]> (o_published o)) o) m =
    if decide (n = m) then p else published_of o m.
Proof. unfold published_of; simpl. rewrite lookup_insert. by case_decide. Qed.

Lemma OInv_next c o g N (e : event) :
  I c o g -> serial c <= N -> OInv o N (length (events c ++ [e])).
Proof.
  intros HI HN. eapply OInv_weaken; [exact HN | | apply HI]. rewrite length_app. lia.
Qed.

(** ** Promises and bases *)

Lemma St_promise c o g n v b :
  St c o g -> voters c !! n = Some v -> (promise v < b)%Z ->
  (forall cp, campaigns c !! b = Some cp -> c_node cp <> n) ->
  let c' := with_voters (alter (v_promise b) n) c in
  let o' := set_promises (<[n := b]> (o_promises o)) o in
  St (log (OfVoter n (generation v) (VPromiseForce b ((b - 2) mod 3))) c') o' g.
Proof.
  intros [Hr HI] Hv Hb Hcamp c' o'.
  pose proof (i_sync _ _ _ HI) as Hsync. pose proof Hsync as [Hlen Hs].
  destruct (Hs _ _ Hv) as (Hp & _ & Hg & _).
  assert (Hmono : forall m, (promise_of o m <= promise_of o' m)%Z).
  { intros m. unfold o'. rewrite promise_insert. case_decide; subst; lia. }
  assert (Hext : ext o o') by (split; auto; try reflexivity; eauto).
  split.
  - erewrite replay_log by exact Hr. rewrite step_own_row by done. simpl.
    rewrite (proj2 (Z.ltb_lt _ _)) by lia. by rewrite Z.eqb_refl.
  - eapply I_grow; try done; simpl.
    + eapply Sync_alter; [done|..].
      * intros m Hm. unfold o'. rewrite promise_insert, decide_False by done. done.
      * intros v' Hv'. unfold o'. rewrite promise_insert, decide_True by done.
        destruct (Hs _ _ Hv') as (_ & ? & ? & ?). done.
    + destruct (OInv_next _ _ _ (serial c) (Event (OfVoter n (generation v) (VPromiseForce b ((b - 2) mod 3)))
        (length (events c))) HI) as [? ? Hvo ? ? ? ? ? ? ? ?]; [done|]. split; auto.
      intros m b' s w Hw. destruct (Hvo m b' s w Hw) as (? & ? & ?). split_and!; auto.
      specialize (Hmono m). lia.
    + intros b' cp Hcp. pose proof (i_lead _ _ _ HI _ _ Hcp) as HL. unfold LeadOk in *.
      unfold o'. rewrite promise_insert. case_decide; [|done].
      intros <-. by destruct (Hcamp cp).
    + apply HI.
Qed.

Lemma accepted_tail_lookup o n len s :
  accepted_tail o n len !! s = if decide (len < s) then o_accepted o !! (n, s) else None.
Proof.
  unfold accepted_tail. apply option_eq. intros x.
  set (f := fun p : (nat * nat) * (Z * string) =>
    if decide (p.1.1 = n /\ len < p.1.2) then Some (p.1.2, p.2) else None).
  assert (Hin : forall s x, (s, x) ∈ omap f (map_to_list (o_accepted o)) <->
    len < s /\ o_accepted o !! (n, s) = Some x).
  { intros s' x'. rewrite list_elem_of_omap. split.
    - intros ([[n' s1] x1] & Hel & Hf). apply elem_of_map_to_list in Hel. unfold f in Hf. simpl in Hf.
      case_decide; simplify_eq. naive_solver.
    - intros [Hl Hx]. exists ((n, s'), x'). split; [by apply elem_of_map_to_list|].
      unfold f. simpl. by rewrite decide_True. }
  split.
  - intros Hx. apply elem_of_list_to_map_2, Hin in Hx as [? ?]. by rewrite decide_True.
  - case_decide as Hl; [|done]. intros Hx. apply elem_of_list_to_map_1'; [|by apply Hin].
    intros y Hy. apply Hin in Hy as [_ Hy]. congruence.
Qed.

Lemma St_basis c o g n v :
  St c o g -> voters c !! n = Some v ->
  let c1 := with_serial S c in
  let d := BasisData (promise v) (Identity "basis" (serial c1)) (prefix v)
    (filter (fun p => length (prefix v) < p.1) (accepted v)) in
  let e := Stamped d n (generation v) (length (events c1)) in
  let o' := set_bases (<[bd_id d := e]> (o_bases o)) o in
  (forall s w, ~ Vote o n (promise v) s w) ->
  St (log (OfVoter n (generation v) (VBasis d)) c1) o' g /\ GoodBasis o' (promise v) e.
Proof.
  intros [Hr HI] Hv c1 d e o' Hnv.
  pose proof (i_sync _ _ _ HI) as [Hlen Hs]. destruct (Hs _ _ Hv) as (Hp & Hpub & Hg & Hacc).
  pose proof (i_oracle _ _ _ HI) as HO.
  assert (Hfresh : o_bases o !! bd_id d = None).
  { destruct (o_bases o !! bd_id d) eqn:E; [|done]. apply (oi_id_bases _ _ _ HO) in E. simpl in E. lia. }
  assert (Hext : ext o o').
  { split; auto; try reflexivity; eauto. by apply insert_subseteq. }
  assert (Htail : bd_accepted d = accepted_tail o n (length (prefix v))).
  { apply map_eq. intros s. rewrite accepted_tail_lookup, Hacc. simpl.
    rewrite map_lookup_filter. destruct (accepted v !! s) as [x|]; simpl; by repeat case_decide. }
  split; [split|].
  - erewrite replay_log by exact Hr. rewrite step_own_row by done. simpl.
    rewrite Hp, Z.eqb_refl. simpl. rewrite bool_decide_true by done. simpl.
    rewrite bool_decide_true by done. simpl. by rewrite bool_decide_true.
  - eapply I_grow; try done; simpl; try apply HI.
    eapply OInv_weaken with (N := S (serial c)) (P := length (events c)); [done | rewrite length_app; lia|].
    apply (OInv_weaken _ _ (S (serial c)) _ (length (events c))) in HO; [|lia|done].
    destruct HO. split; auto. intros i x. simpl. rewrite lookup_insert. case_decide; [|by eauto].
    intros _. subst i. done.
  - assert (HnLt : n < 3) by (rewrite <- Hlen; by eapply lookup_lt_Some).
    split; simpl; auto.
    + apply lookup_insert_eq.
    + unfold o', promise_of in *; simpl. rewrite Hp. lia.
    + rewrite <- Hpub. apply HO.
    + by rewrite <- Hpub.
    + intros s b' w Hls Hb Hvote. apply (oi_vote _ _ _ HO) in Hvote as (_ & _ & b1 & w1 & Hb1 & Hle & _).
      exists b1, w1. split; [|done]. rewrite Hacc in Hb1.
      apply map_lookup_filter_Some_2; [done|]. done.
    + intros s h w Hsh. apply map_lookup_filter_Some in Hsh as [Hsh Hl]. simpl in Hl.
      rewrite <- Hacc in Hsh. pose proof (oi_accepted _ _ _ HO _ _ _ _ Hsh) as Hvote.
      split_and!; auto. pose proof (oi_vote _ _ _ HO _ _ _ _ Hvote) as (_ & Hle & _).
      destruct (decide (h = promise v)) as [->|]; [by apply Hnv in Hvote | lia].
Qed.

(** ** Installed prefixes, acceptances and proofs *)

Lemma LeadOk_publish c o o' g n b v p s w :
  I c o g -> voters c !! n = Some v -> promise v = b -> (b, s, w) ∈ g -> length p <= s ->
  (forall m, promise_of o' m = promise_of o m) ->
  (forall m, published_of o' m = if decide (n = m) then p else published_of o m) ->
  forall b' cp, campaigns c !! b' = Some cp -> LeadOk o' b' cp.
Proof.
  intros HI Hv Hb Hg Hl Hpr Hpub b' cp Hcp. pose proof (i_lead _ _ _ HI _ _ Hcp) as HL.
  unfold LeadOk in *. rewrite Hpr, Hpub. case_decide as Hn; [|done]. intros Hp.
  destruct (i_sync _ _ _ HI) as [_ Hs]. destruct (Hs _ _ Hv) as (Hpv & _).
  assert (b' = b) as -> by (rewrite <- Hp, <- Hn, Hpv; done).
  destruct (i_prop _ _ _ HI _ _ _ Hg) as (cp' & Hcp' & Hsel & _ & Hr). simplify_eq.
  destruct (c_round cp); [lia|]. by rewrite Hsel.
Qed.

Lemma OInv_publish o N P n p :
  OInv o N P -> published_of o n `prefix_of` p -> PrefixChosen o p ->
  OInv (set_published (<[n := p]> (o_published o)) o) N P.
Proof.
  intros HO Hp Hc. assert (Hpre : forall m, published_of o m `prefix_of`
    published_of (set_published (<[n := p]> (o_published o)) o) m).
  { intros m. rewrite published_insert. case_decide; [by subst | done]. }
  destruct HO as [Hpc ? ? ? Hpf ? Hack ? ? ? ?]. split; auto.
  - intros m. rewrite published_insert. case_decide; [exact Hc | apply Hpc].
  - intros i m b s v Hf. destruct (Hpf _ _ _ _ _ Hf) as (? & ? & Hpv & ?). split_and!; auto.
    eapply prefix_lookup; [apply Hpre | done].
  - intros s v Hsv. destruct (Hack _ _ Hsv) as (? & ? & Hq). split_and!; auto.
    eapply quorum_mono; [|exact Hq]. intros m Hm. cbn beta in *.
    pose proof (prefix_length _ _ (Hpre m)). lia.
Qed.

Lemma ext_publish o n p :
  published_of o n `prefix_of` p -> ext o (set_published (<[n := p]> (o_published o)) o).
Proof.
  intros Hp. split; auto; try reflexivity; eauto.
  intros m. rewrite published_insert. case_decide; [by subst | done].
Qed.

Lemma Sync_publish vs o n v p :
  Sync vs o -> vs !! n = Some v -> 
  Sync (alter (v_prefix p) n vs) (set_published (<[n := p]> (o_published o)) o).
Proof.
  intros HS Hv. pose proof HS as [_ Hs]. eapply Sync_alter; [done|..].
  - intros m Hm. rewrite published_insert, decide_False by done. done.
  - intros v' Hv'. rewrite published_insert, decide_True by done.
    destruct (Hs _ _ Hv') as (? & ? & ? & ?). done.
Qed.

Lemma prefix_chosen_check o p :
  PrefixChosen o p ->
  forallb (fun q : nat * string => bool_decide (o_chosen o !! q.1 = Some q.2)) (zip (seq 1 (length p)) p) = true.
Proof.
  intros H. apply forallb_forall. intros [i v] Hin%list_elem_of_In.
  apply list_elem_of_lookup in Hin as [k Hk]. apply lookup_zip_Some in Hk as [Hi Hv].
  apply lookup_seq in Hi as [-> _]. apply bool_decide_true. simpl. by apply H.
Qed.

Lemma St_install c o g n v b p w :
  St c o g -> voters c !! n = Some v -> promise v = b -> prefix v `prefix_of` p ->
  PrefixChosen o p -> (b, S (length p), w) ∈ g ->
  St (log (OfVoter n (generation v) (VInstall b p)) (with_voters (alter (v_prefix p) n) c))
    (set_published (<[n := p]> (o_published o)) o) g.
Proof.
  intros [Hr HI] Hv Hb Hp Hc Hg. pose proof (i_sync _ _ _ HI) as Hsync.
  pose proof Hsync as [_ Hs]. destruct (Hs _ _ Hv) as (_ & Hpub & Hgen & _).
  rewrite <- Hpub in Hp. split.
  - erewrite replay_log by exact Hr. rewrite step_own_row by done. simpl. unfold check_install.
    rewrite (proj2 (is_prefix_spec _ _)) by done. simpl. by rewrite prefix_chosen_check.
  - eapply I_grow; try done; simpl.
    + by apply ext_publish.
    + by eapply Sync_publish.
    + apply OInv_publish; [|done..]. by eapply OInv_next.
    + eapply (LeadOk_publish c o _ g n b v p (S (length p)) w); try done; [lia|].
      intros m. apply published_insert.
    + apply HI.
Qed.

(** A fresh force row. *)
Lemma fresh_force o o' i x pf j n b s v :
  o_forces o' = <[i := x]> (o_forces o) -> ForceAt o' pf j n b s v ->
  (j = i /\ fr_proof x = pf /\ st_node (fr_row x) = n /\ fd_ballot (st_data (fr_row x)) = b /\
    fd_slot (st_data (fr_row x)) = s /\ fd_value (st_data (fr_row x)) = v) \/ ForceAt o pf j n b s v.
Proof.
  intros Hi (e & He & ?). rewrite Hi, lookup_insert in He. case_decide; simplify_eq/=.
  - left. naive_solver.
  - right. by exists e.
Qed.

Lemma fresh_id c o g l : I c o g -> 
  o_forces o !! Identity l (S (serial c)) = None /\ o_proofs o !! Identity l (S (serial c)) = None.
Proof.
  intros HI. pose proof (i_oracle _ _ _ HI) as HO. split.
  - destruct (o_forces o !! _) eqn:E; [|done]. apply (oi_id_forces _ _ _ HO) in E. simpl in E. lia.
  - destruct (o_proofs o !! _) eqn:E; [|done]. apply (oi_id_proofs _ _ _ HO) in E. simpl in E. lia.
Qed.

Lemma St_accept c o g n v b s w :
  St c o g -> voters c !! n = Some v -> promise v = b -> s = S (length (prefix v)) ->
  (b, s, w) ∈ g ->
  match accepted v !! s with None => True | Some old => (old.1 < b)%Z \/ old = (b, w) end ->
  let c1 := with_serial S (with_voters (alter (v_accept s (b, w)) n) c) in
  let d := ForceData b s w (Identity "accept" (S (serial c))) in
  let e := Stamped d n (generation v) (length (events c)) in
  let o' := set_forces (<[fd_id d := ForceRow false e]> (o_forces o))
    (set_accepted (<[(n, s) := (b, w)]> (o_accepted o)) o) in
  St (log (OfVoter n (generation v) (VAcceptForce d)) c1) o' g /\
  ForceAt o' false (fd_id d) n b s w.
Proof.
  intros [Hr HI] Hv Hb Hslot Hg Hold c1 d e o'.
  pose proof (i_sync _ _ _ HI) as Hsync. pose proof Hsync as [Hlen Hs].
  destruct (Hs _ _ Hv) as (Hp & Hpub & Hgen & Hacc). pose proof (i_oracle _ _ _ HI) as HO.
  destruct (fresh_id c o g "accept" HI) as [Hfresh _].
  assert (Hnew : forall m b' s' v', Vote o' m b' s' v' ->
    (m = n /\ b' = b /\ s' = s /\ v' = w) \/ Vote o m b' s' v').
  { intros m b' s' v' [j Hj]. apply (fresh_force o) with (i := fd_id d) (x := ForceRow false e) in Hj; [|done].
    destruct Hj as [(_ & _ & <- & <- & <- & <-) | Hj]; [by left | right; by exists j]. }
  assert (Hext : ext o o').
  { split; try reflexivity; simpl; eauto.
    - by apply insert_subseteq.
    - intros m b' s' v' [(-> & -> & -> & ->) | ?]%Hnew; [right | by left].
      rewrite Hp, Hpub. subst. lia. }
  assert (Hmine : ForceAt o' false (fd_id d) n b s w).
  { exists e. split; [apply lookup_insert_eq | done]. }
  split; [|done]. split.
  - erewrite replay_log by exact Hr. rewrite step_own_row by done. simpl. unfold check_accept. simpl.
    rewrite Hp, Hb, Z.eqb_refl. simpl. rewrite Hpub, <- Hslot, Nat.eqb_refl. simpl.
    destruct (i_prop _ _ _ HI _ _ _ Hg) as (cp & _ & _ & (s0 & v0 & Hsel & _ & Hv0) & _).
    rewrite Hsel. rewrite Hacc.
    assert ((if decide (s = s0) then bool_decide (w = v0) else true) = true) as ->.
    { case_decide; [|done]. apply bool_decide_true; auto. }
    simpl. destruct (accepted v !! s) as [old|]; [|done].
    destruct Hold as [Hold | ->].
    + by rewrite (proj2 (Z.ltb_lt _ _) Hold).
    + rewrite bool_decide_true by done. by rewrite orb_true_r.
  - eapply I_grow; try done; simpl.
    + eapply Sync_alter; [done|..].
      * intros m Hm. split_and!; try done. intros s'. simpl. rewrite lookup_insert_ne; congruence.
      * intros v' Hv'. destruct (Hs _ _ Hv') as (? & ? & ? & Ha). split_and!; try done. intros s'. simpl.
        rewrite !lookup_insert. repeat case_decide; simplify_eq; auto.
    + eapply (OInv_next _ _ _ (S (serial c)) (Event (OfVoter n (generation v) (VAcceptForce d)) (length (events c)))) in HI as HO'; [|lia].
      destruct HO' as [? Hch Hvo Hac Hpf Hpr ? ? Hif ? ?]. split; auto.
      * intros s' v' Hs'. destruct (Hch _ _ Hs') as [b' Hb']. exists b'. by eapply ChosenAt_ext.
      * intros m b' s' v' [(-> & -> & -> & ->) | Hvote]%Hnew.
        -- split; [rewrite <- Hlen; by eapply lookup_lt_Some|].
           split; [unfold promise_of in *; simpl; lia|].
           exists b, w. simpl. rewrite lookup_insert_eq. split_and!; [done|lia|done].
        -- destruct (Hvo _ _ _ _ Hvote) as (? & ? & b1 & v1 & Hb1 & Hle & Heq). split_and!; auto. simpl.
           rewrite lookup_insert. case_decide as Hd; [|by exists b1, v1].
           injection Hd as <- <-. rewrite Hacc in Hb1. rewrite Hb1 in Hold. simpl in Hold.
           exists b, w. split; [done|]. destruct Hold as [Hold | Hold]; [|naive_solver].
           split; [lia|]. lia.
      * intros m b' s' v'. simpl. rewrite lookup_insert. case_decide as Hd.
        -- intros ?. simplify_eq. by exists (fd_id d).
        -- intros H. eapply Vote_ext; [done|]. by apply Hac.
      * intros j m b' s' v' Hj. apply (fresh_force o) with (i := fd_id d) (x := ForceRow false e) in Hj; [|done].
        destruct Hj as [(_ & ? & _) | Hj]; [done|]. by eapply Hpf.
      * intros q b' s' v' pos Hq. destruct (Hpr _ _ _ _ _ Hq) as (? & ? & ?). split_and!; auto.
        by eapply ChosenAt_ext.
      * intros j x. simpl. rewrite lookup_insert. case_decide; [|eauto]. intros _. subst j. simpl. lia.
    + apply HI.
    + intros m b' s' v' [(-> & -> & -> & ->) | Hvote]%Hnew; [done|]. by eapply HI.
Qed.

Lemma St_proof c o g n v b s w p pos :
  St c o g -> voters c !! n = Some v -> promise v = b -> s = S (length (prefix v)) ->
  accepted v !! s = Some (b, w) -> o_proofs o !! p = Some (ProofRow b s w pos) ->
  let c1 := with_serial S (with_voters (alter (v_prefix (prefix v ++ [w])) n) c) in
  let d := ForceData b s w (Identity "proof-force" (S (serial c))) in
  let e := Stamped d n (generation v) (length (events c)) in
  let o' := set_forces (<[fd_id d := ForceRow true e]> (o_forces o))
    (set_published (<[n := published_of o n ++ [w]]> (o_published o)) o) in
  St (log (OfVoter n (generation v) (VProofForce d p)) c1) o' g /\
  ForceAt o' true (fd_id d) n b s w.
Proof.
  intros [Hr HI] Hv Hb Hslot Hacc Hpf c1 d e o'.
  pose proof (i_sync _ _ _ HI) as Hsync. pose proof Hsync as [Hlen Hs].
  destruct (Hs _ _ Hv) as (Hp & Hpub & Hgen & Ha). pose proof (i_oracle _ _ _ HI) as HO.
  destruct (fresh_id c o g "proof-force" HI) as [Hfresh _].
  destruct (oi_proof _ _ _ HO _ _ _ _ _ Hpf) as (_ & Hchosen & _).
  assert (Hg : (b, s, w) ∈ g).
  { eapply (i_votes _ _ _ HI n), (oi_accepted _ _ _ HO). by rewrite Ha. }
  assert (Hpc : PrefixChosen o (published_of o n ++ [w])).
  { intros i x Hi. apply lookup_app_Some in Hi as [Hi | [Hle Hi]].
    - by apply (oi_published _ _ _ HO n).
    - apply list_lookup_singleton_Some in Hi as [Hz <-].
      replace (S i) with s; [done|]. rewrite Hslot, <- Hpub. lia. }
  assert (Hpre : published_of o n `prefix_of` published_of o n ++ [w]) by (by eexists).
  pose proof (OInv_next _ _ _ (S (serial c)) (Event (OfVoter n (generation v) (VProofForce d p)) (length (events c))) HI) as HO1.
  apply (OInv_publish _ _ _ n (published_of o n ++ [w])) in HO1; [|lia|done|done].
  set (o1 := set_published (<[n := published_of o n ++ [w]]> (o_published o)) o) in *.
  assert (Hpub' : published_of o' n = published_of o n ++ [w]).
  { change (published_of o' n) with (published_of o1 n). unfold o1. rewrite published_insert. by rewrite decide_True. }
  assert (Hvote : forall m b' s' v', Vote o' m b' s' v' -> Vote o m b' s' v').
  { intros m b' s' v' [j Hj]. apply (fresh_force o) with (i := fd_id d) (x := ForceRow true e) in Hj; [|done].
    destruct Hj as [(_ & ? & _) | Hj]; [done | by exists j]. }
  assert (Hext : ext o o').
  { pose proof (ext_publish o n (published_of o n ++ [w]) Hpre) as He. split; try apply He.
    - simpl. by apply insert_subseteq.
    - intros m b' s' v' Hm. left. by apply Hvote. }
  assert (Hmine : ForceAt o' true (fd_id d) n b s w).
  { exists e. split; [apply lookup_insert_eq | done]. }
  split; [|done]. split.
  - erewrite replay_log by exact Hr. rewrite step_own_row by done. simpl. unfold check_proof. simpl.
    rewrite Hpf, Ha, Hacc. rewrite bool_decide_true by done. simpl. rewrite Hp, Hb, !Z.eqb_refl, !Nat.eqb_refl. simpl.
    rewrite bool_decide_true by done. cbn [andb require guard rbind].
    by rewrite (proj2 (Nat.eqb_eq s (S (length (published_of o n))))) by (by rewrite Hpub).
  - eapply I_grow; try done; simpl.
    + change (Sync (alter (v_prefix (prefix v ++ [w])) n (voters c)) o1). unfold o1.
      rewrite Hpub. by eapply Sync_publish.
    + destruct HO1 as [X1 X2 Hvo Hac Hpfo Hpr Hack X8 Hif X10 X11]. split; auto.
      * intros s' v' Hs'. destruct (oi_chosen _ _ _ HO _ _ Hs') as [b' Hb']. exists b'. by eapply ChosenAt_ext.
      * intros m b' s' v' Hm. apply Hvo. by apply Hvote.
      * intros m b' s' v' Hm. eapply Vote_ext; [done|]. by apply HO.
      * intros j m b' s' v' Hj. apply (fresh_force o1) with (i := fd_id d) (x := ForceRow true e) in Hj; [|done].
        destruct Hj as [(-> & _ & <- & <- & <- & <-) | Hj]; [|by eapply Hpfo]. simpl.
        split; [rewrite <- Hlen; by eapply lookup_lt_Some|]. split; [lia|]. split; [|by eauto].
        rewrite Hpub', lookup_app_r by (rewrite Hslot, Hpub; simpl; lia).
        by rewrite Hslot, Hpub; simpl; rewrite Nat.sub_0_r, Nat.sub_diag.
      * intros q b' s' v' ps Hq. destruct (Hpr _ _ _ _ _ Hq) as (? & ? & ?). split_and!; auto.
        eapply ChosenAt_ext; [exact Hext|]. by apply (oi_proof _ _ _ HO) in Hq as (? & _).
      * intros j x. simpl. rewrite lookup_insert. case_decide; [|eauto]. intros _. subst j. simpl. lia.
    + eapply (LeadOk_publish c o _ g n b v (published_of o n ++ [w]) s w); try done.
      * rewrite length_app, Hpub, Hslot. simpl. lia.
      * intros m. change (published_of o' m) with (published_of o1 m). apply published_insert.
    + intros m b' s' v' Hm. apply (i_votes _ _ _ HI m). by apply Hvote.
Qed.

(** ** Agreement: two quorums of acceptances at one slot carry one value *)

Lemma agreement_lt c o g b b' s v v' :
  I c o g -> (b < b')%Z -> ChosenAt o b s v -> ChosenAt o b' s v' -> v = v'.
Proof.
  intros HI Hb Hc (n1 & _ & _ & _ & _ & Hn1 & _).
  apply (i_votes _ _ _ HI), (i_safe _ _ _ HI) in Hn1.
  destruct (quorum_meet _ _ Hc (Hn1 b Hb)) as (n & _ & Hv & _ & Hsafe). by apply Hsafe.
Qed.

Lemma agreement c o g b b' s v v' :
  I c o g -> ChosenAt o b s v -> ChosenAt o b' s v' -> v = v'.
Proof.
  intros HI H1 H2. destruct (Z.lt_total b b') as [Hlt | [-> | Hlt]].
  - by eapply agreement_lt.
  - destruct H1 as (n1 & _ & _ & _ & _ & Hn1 & _), H2 as (n2 & _ & _ & _ & _ & Hn2 & _).
    apply (i_votes _ _ _ HI) in Hn1, Hn2. by eapply i_uniq.
  - symmetry. by eapply agreement_lt.
Qed.

(** ** Campaign updates *)

Lemma I_master c c' o o' g g' b cp f :
  I c o g -> ext o o' -> campaigns c !! b = Some cp ->
  campaigns c' = alter f b (campaigns c) -> messages c' = messages c ->
  queue_limit c' = queue_limit c -> reads c' = reads c -> pins c' = pins c -> o_reads o' = o_reads o ->
  Sync (voters c') o' -> OInv o' (serial c') (length (events c')) ->
  c_node (f cp) = c_node cp -> (forall q, c_quorum cp = Some q -> c_quorum (f cp) = Some q) ->
  (forall b', b' <> b -> o_selections o' !! b' = o_selections o !! b') ->
  CampOk o' (reads c) b (f cp) ->
  (forall b' cp', b' <> b -> campaigns c !! b' = Some cp' -> CampOk o' (reads c) b' cp') ->
  (forall b' cp', campaigns c' !! b' = Some cp' -> LeadOk o' b' cp') ->
  g ⊆ g' -> (forall b' s v, (b', s, v) ∈ g' -> (b', s, v) ∈ g \/ b' = b) ->
  (forall s v, (b, s, v) ∈ g' -> PropBound o' (f cp) b s v) ->
  (forall s v v', (b, s, v) ∈ g' -> (b, s, v') ∈ g' -> v = v') ->
  (forall s v, (b, s, v) ∈ g' -> SafeAt o' b s v) ->
  (forall r, c_round (f cp) = Some r -> (b, r_slot r, r_value r) ∈ g') ->
  (forall n b' s v, Vote o' n b' s v -> (b', s, v) ∈ g') ->
  (c_ready (f cp) = true -> c_ready cp = true \/ exists s v, (b, s, v) ∈ g') ->
  I c' o' g'.
Proof.
  intros HI Hext Hcp Hcs Hms Hql Hrds Hps Hord HSy HOI Hn Hq Hsl Hok Hoks HL Hgg Hg' HP HU HS HR HV Hrdy.
  destruct HI as [X1 X2 X3 X4 X5 X6 X7 X8 X9 X10 X11 X12 X13 X14].
  assert (Hlook : forall b' cp', alter f b (campaigns c) !! b' = Some cp' ->
    (b' = b /\ cp' = f cp) \/ (b' <> b /\ campaigns c !! b' = Some cp')).
  { intros b' cp'. destruct (decide (b = b')) as [<-|Hne].
    - rewrite lookup_alter_eq, Hcp. intros ?; simplify_eq/=. by left.
    - rewrite lookup_alter_ne by done. right. done. }
  assert (Hfwd : forall b' cp', campaigns c !! b' = Some cp' -> exists cp'',
    alter f b (campaigns c) !! b' = Some cp'' /\ c_node cp'' = c_node cp' /\
    forall q, c_quorum cp' = Some q -> c_quorum cp'' = Some q).
  { intros b' cp' Hb'. destruct (decide (b = b')) as [<-|Hne].
    - assert (cp' = cp) as -> by congruence. exists (f cp). by rewrite lookup_alter_eq, Hcp.
    - rewrite lookup_alter_ne by done. eauto. }
  split; rewrite ?Hcs, ?Hms, ?Hql, ?Hrds, ?Hps in *; auto.
  - intros b' cp' [[-> ->] | [? ?]]%Hlook; auto.
  - intros b' Hb'. apply lookup_alter_None in Hb'. rewrite Hsl; [auto|]. intros ->. congruence.
  - intros b' s v Hb. destruct (decide (b' = b)) as [->|Hne].
    + exists (f cp). rewrite lookup_alter_eq, Hcp. auto.
    + destruct (Hg' _ _ _ Hb) as [Hin|]; [|done]. rewrite lookup_alter_ne by done.
      destruct (X6 _ _ _ Hin) as (cp' & ? & ?). eauto using PropBound_ext.
  - intros b' s v v' H1 H2. destruct (decide (b' = b)) as [->|Hne]; [by eapply HU|].
    destruct (Hg' _ _ _ H1), (Hg' _ _ _ H2); try done. by eapply X7.
  - intros b' s v H1. destruct (decide (b' = b)) as [->|Hne]; [by apply HS|].
    destruct (Hg' _ _ _ H1); [|done]. eapply SafeAt_ext; eauto.
  - intros b' cp' r [[-> ->] | [? ?]]%Hlook Hr; [auto|]. apply Hgg. eauto.
  - intros m Hm. pose proof (MsgOk_ext _ _ _ _ _ _ Hext Hgg (X11 m Hm)) as Hmok.
    destruct Hmok as (Ht & cp' & Hcp' & Hbody). split; [done|].
    destruct (Hfwd _ _ Hcp') as (cp'' & Hcp'' & Hn'' & Hq''). exists cp''. split; [done|]. rewrite Hn''.
    destruct (m_body m); auto.
    + destruct Hbody as (? & peer & ? & ?). split; [done|]. exists peer. auto.
    + destruct Hbody as (? & ? & peer & ? & ?). split_and!; auto. exists peer. auto.
  - destruct X12 as (? & Hr & ? & ?). unfold ReadsOk. rewrite Hord. split_and!; auto. intros rid b' Hb'.
    destruct (Hr _ _ Hb') as (cp' & Hcp' & ?). destruct (Hfwd _ _ Hcp') as (cp'' & ? & Hn'' & _).
    exists cp''. by rewrite Hn''.
  - intros b' cp' [[-> ->] | [? ?]]%Hlook Hrd.
    + destruct (Hrdy Hrd) as [Hold|]; [|done]. destruct (X14 _ _ Hcp Hold) as (s & v & ?). eauto.
    + destruct (X14 b' cp') as (s & v & ?); eauto.
Qed.

Lemma I_campaign c o g g' b cp f :
  I c o g -> campaigns c !! b = Some cp ->
  c_node (f cp) = c_node cp -> (forall q, c_quorum cp = Some q -> c_quorum (f cp) = Some q) ->
  CampOk o (reads c) b (f cp) -> LeadOk o b (f cp) ->
  g ⊆ g' -> (forall b' s v, (b', s, v) ∈ g' -> (b', s, v) ∈ g \/ b' = b) ->
  (forall s v, (b, s, v) ∈ g' -> PropBound o (f cp) b s v) ->
  (forall s v v', (b, s, v) ∈ g' -> (b, s, v') ∈ g' -> v = v') ->
  (forall s v, (b, s, v) ∈ g' -> SafeAt o b s v) ->
  (forall r, c_round (f cp) = Some r -> (b, r_slot r, r_value r) ∈ g') ->
  (c_ready (f cp) = true -> c_ready cp = true \/ exists s v, (b, s, v) ∈ g') ->
  I (with_campaigns (alter f b) c) o g'.
Proof.
  intros HI Hcp Hn Hq Hok HL Hgg Hg' HP HU HS HR Hrdy.
  eapply (I_master c _ o o g g' b cp f); eauto using ext_refl; try apply HI.
  - intros b' cp' _. apply HI.
  - intros b' cp'. simpl. destruct (decide (b = b')) as [<-|Hne].
    + rewrite lookup_alter_eq, Hcp. intros ?; by simplify_eq/=.
    + rewrite lookup_alter_ne by done. apply HI.
  - intros n b' s v Hv. apply Hgg. by eapply HI.
Qed.

(** Updates of the round of a campaign that proposes nothing new. *)
Lemma St_round c o g b cp r r' :
  St c o g -> campaigns c !! b = Some cp -> c_round cp = Some r ->
  r_slot r' = r_slot r -> r_value r' = r_value r ->
  (forall peer, c_quorum cp = Some [c_node cp; peer] -> RoundOk o (reads c) b (c_node cp) peer r ->
    RoundOk o (reads c) b (c_node cp) peer r') ->
  St (with_campaigns (alter (c_set_round (Some r')) b) c) o g.
Proof.
  intros [Hr HI] Hcp Hcr Hs Hv Hok. split; [done|].
  pose proof (i_camp _ _ _ HI _ _ Hcp) as (Hn & Hown & Hsel). rewrite Hcr in Hsel.
  pose proof (i_lead _ _ _ HI _ _ Hcp) as HL. unfold LeadOk in HL. rewrite Hcr in HL.
  eapply I_campaign; eauto; simpl.
  - split; [done|]. split; [done|]. simpl. destruct (c_selected cp); [|by destruct Hsel].
    destruct Hsel as (peer & s0 & v0 & Hq & ? & ? & Hro). exists peer, s0, v0. split_and!; auto.
    intros r1 ?; simplify_eq. apply Hok; auto.
  - unfold LeadOk. simpl. by rewrite Hs.
  - intros s v Hin. destruct (i_prop _ _ _ HI _ _ _ Hin) as (cp' & Hcp' & HP). simplify_eq.
    unfold PropBound in *. rewrite Hcr in HP. simpl. by rewrite Hs.
  - intros s v v' H1 H2. by eapply i_uniq.
  - intros s v H1. by eapply i_safe.
  - intros r1 ?; simplify_eq. rewrite Hs, Hv. by eapply i_rounds.
Qed.
