(* ===== verification/ClusterRounds.v ===== *)
(** * Rounds, selections and reads of the V5.1 protocol

    The steps that move a campaign: certificates of two acceptances, successes of two proofs,
    the selection rule (the heart of the safety argument), opening a round, barrier reads. *)

From stdpp Require Import base gmap sets strings list pretty.
From S2P Require Import Prelude ProtocolEvents Cluster History ClusterInvariant ClusterAtoms.

(** ** Certificates *)

Lemma RoundOk_certify o o' rds b' l q r r' p b s w pos :
  ext o o' -> o_proofs o' = <[p := ProofRow b s w pos]> (o_proofs o) -> o_reads o' = o_reads o ->
  o_proofs o !! p = None ->
  (r' = r /\ b' <> b) \/
  (r' = r_set_proof p r /\ b' = b /\ s = r_slot r /\ w = r_value r /\ r_proof r = None /\
    forall rid rd, o_reads o !! rid = Some rd -> rd_invoke rd < pos) ->
  RoundOk o rds b' l q r -> RoundOk o' rds b' l q r'.
Proof.
  intros Hext Hpr Hrd Hfresh Hcase [H1 H2 H3 H4 H5 H6 H7 H8 H9].
  assert (Hsame : r_slot r' = r_slot r /\ r_value r' = r_value r /\ r_accepts r' = r_accepts r /\
    r_proofs r' = r_proofs r /\ r_activation r' = r_activation r /\ r_read r' = r_read r).
  { destruct Hcase as [[-> _] | [-> _]]; done. }
  destruct Hsame as (Es & Ev & Ea & Ep & Eact & Erd).
  split; rewrite ?Es, ?Ev, ?Ea, ?Ep, ?Eact, ?Erd; auto.
  - intros n i Hn. eapply ForceAt_ext; eauto.
  - intros n i Hn. destruct (H4 _ _ Hn). split; [|done]. eapply ForceAt_ext; eauto.
  - intros p' Hp'. destruct Hcase as [[-> Hne] | (-> & -> & -> & -> & Hnone & Hpos)].
    + destruct (H6 _ Hp') as (pos' & Hpos' & Hr). exists pos'. rewrite Hpr, Hrd. split; [|done].
      by rewrite lookup_insert_ne by congruence.
    + simpl in Hp'. injection Hp' as <-. exists pos. rewrite Hpr, lookup_insert_eq, Hrd. split; [done|]. eauto.
  - intros p' v' pos'. rewrite Hpr, lookup_insert.
    destruct Hcase as [[-> Hne] | (-> & _)]; [|by eexists].
    case_decide; [|eauto]. intros ?; simplify_eq.
  - intros rid Hr. destruct (H9 _ Hr) as (? & rd & Hrd0 & Hn & Hw). split; [done|].
    exists rd. rewrite Hrd. split_and!; auto. intros i x Hi. destruct (Hw i x Hi); [by left|].
    right. by eapply Blocked_ext.
Qed.

(** Two acceptances of one round certify its entry. *)
Lemma St_quorum c o g b cp r n1 i1 n2 i2 :
  St c o g -> campaigns c !! b = Some cp -> c_round cp = Some r ->
  r_accepts r = [(n1, i1); (n2, i2)] -> r_proof r = None ->
  let p := Identity "proof" (S (serial c)) in
  let o' := set_proofs (<[p := ProofRow b (r_slot r) (r_value r) (length (events c))]> (o_proofs o))
    (set_chosen (<[r_slot r := r_value r]> (o_chosen o)) o) in
  St (with_campaigns (alter (c_set_round (Some (r_set_proof p r))) b)
    (log (OfCluster (CEntryQuorum b (r_slot r) (r_value r) [i1; i2] p)) (with_serial S c))) o' g /\
  o_proofs o' !! p = Some (ProofRow b (r_slot r) (r_value r) (length (events c))).
Proof.
  intros [Hr HI] Hcp Hcr Hacc Hnone p o'. split; [|apply lookup_insert_eq].
  pose proof (i_oracle _ _ _ HI) as HO. destruct (fresh_id c o g "proof" HI) as [_ Hfresh].
  pose proof (i_camp _ _ _ HI _ _ Hcp) as (Hn & Hown & Hsel).
  destruct (c_selected cp) eqn:Hcsel; [|by destruct Hsel; congruence].
  destruct Hsel as (peer & s0 & v0 & Hq & Hso & Hsel & Hro). specialize (Hro _ Hcr).
  assert (Hf1 : ForceAt o false i1 n1 b (r_slot r) (r_value r)) by (eapply Hro; rewrite Hacc; left).
  assert (Hf2 : ForceAt o false i2 n2 b (r_slot r) (r_value r)) by (eapply Hro; rewrite Hacc; right; left).
  assert (Hne : n1 <> n2).
  { pose proof (ro_accepts_keys _ _ _ _ _ _ Hro) as Hnd. rewrite Hacc in Hnd. simpl in Hnd.
    apply NoDup_cons in Hnd as [Hnd _]. set_solver. }
  assert (Hch : ChosenAt o b (r_slot r) (r_value r)).
  { destruct (oi_vote _ _ _ HO _ _ _ _ (ex_intro _ i1 Hf1)) as [L1 _].
    destruct (oi_vote _ _ _ HO _ _ _ _ (ex_intro _ i2 Hf2)) as [L2 _].
    exists n1, n2. split_and!; [done..| by exists i1 | by exists i2]. }
  assert (Hdef : default (r_value r) (o_chosen o !! r_slot r) = r_value r).
  { destruct (o_chosen o !! r_slot r) as [v'|] eqn:E; [|done]. simpl.
    apply (oi_chosen _ _ _ HO) in E as [b' Hb']. by eapply agreement. }
  assert (Hext : ext o o').
  { split; auto; try reflexivity; simpl; eauto.
    - apply map_subseteq_spec. intros s v Hs. rewrite lookup_insert. case_decide; [|done]. subst.
      rewrite Hs in Hdef. simpl in Hdef. congruence.
    - by apply insert_subseteq. }
  assert (HOI : OInv o' (S (serial c)) (length (events c) + 1)).
  { apply (OInv_weaken _ _ (S (serial c)) _ (length (events c) + 1)) in HO as HO1; [|lia|lia].
    destruct HO1 as [X1 X2 X3 X4 X5 X6 X7 X8 X9 X10 X11]. split; auto.
    - intros n. eapply PrefixChosen_ext; [done|]. apply X1.
    - intros s v. simpl. rewrite lookup_insert. case_decide; [|exact (X2 s v)].
      intros ?; simplify_eq. exists b. exact Hch.
    - intros j n b' s v Hj. destruct (X5 _ _ _ _ _ Hj) as (? & ? & ? & p' & pos & Hp'). split_and!; auto.
      exists p', pos. eapply lookup_weaken; [done|]. apply Hext.
    - intros p' b' s v pos. simpl. rewrite lookup_insert. case_decide.
      + intros ?; simplify_eq. split_and!; [done | apply lookup_insert_eq | lia].
      + intros Hp'. destruct (X6 _ _ _ _ _ Hp') as (? & ? & ?). split_and!; auto.
        eapply lookup_weaken; [done|]. apply Hext.
    - intros s v Hs. destruct (X7 _ _ Hs) as (? & ? & ?). split_and!; auto.
      eapply lookup_weaken; [done|]. apply Hext.
    - intros i x. simpl. rewrite lookup_insert. case_decide; [|eauto]. intros _. subst i. done. }
  assert (Hold : forall rid rd, o_reads o !! rid = Some rd -> rd_invoke rd < length (events c)).
  { intros rid rd Hrd. by apply (oi_reads _ _ _ HO) in Hrd as [? _]. }
  split.
  - simpl. rewrite (replay_snoc _ _ _ Hr). unfold step. simpl. unfold check_quorum. simpl.
    destruct Hf1 as (e1 & E1 & <- & M1 & M2 & M3), Hf2 as (e2 & E2 & <- & M4 & M5 & M6).
    rewrite E1, E2. simpl. rewrite (proj2 (Nat.eqb_neq _ _)) by done. unfold receipt_matches. simpl.
    rewrite M1, M2, M3, M4, M5, M6, Z.eqb_refl, Nat.eqb_refl, bool_decide_true by done. simpl.
    by rewrite bool_decide_true.
  - eapply (I_master c _ o o' g g b cp (c_set_round (Some (r_set_proof p r)))); try done; simpl.
    + apply HI.
    + by rewrite length_app.
    + split; [done|]. split; [destruct Hown as (own & ? & ? & ?); exists own; eauto using GoodBasis_ext|].
      simpl. rewrite Hcsel. exists peer, s0, v0. split_and!; auto; [by eapply Selected_ext|].
      intros r' ?; simplify_eq. eapply (RoundOk_certify o o'); try done. right. done.
    + intros b' cp' Hb' Hcp'. pose proof (i_camp _ _ _ HI _ _ Hcp') as (Hn' & (own & ? & ? & ?) & Hsel').
      split; [done|]. split; [exists own; eauto using GoodBasis_ext|].
      destruct (c_selected cp'); [|done]. destruct Hsel' as (q' & s1 & v1 & ? & ? & ? & Hr').
      exists q', s1, v1. split_and!; auto; [by eapply Selected_ext|].
      intros r' Hr0. eapply (RoundOk_certify o o'); try done; [by left|]. by apply Hr'.
    + intros b' cp'. destruct (decide (b = b')) as [<-|Hb'].
      * rewrite lookup_alter_eq, Hcp. intros ?; simplify_eq/=. pose proof (i_lead _ _ _ HI _ _ Hcp) as HL.
        unfold LeadOk in *. by rewrite Hcr in HL.
      * rewrite lookup_alter_ne by done. intros Hcp'. apply (i_lead _ _ _ HI _ _ Hcp').
    + intros b' s v Hin. by left.
    + intros s v Hin. destruct (i_prop _ _ _ HI _ _ _ Hin) as (cp' & Hcp' & HP). simplify_eq.
      unfold PropBound in *. rewrite Hcr in HP. done.
    + intros s v v' Ha Hb. by eapply i_uniq.
    + intros s v Ha. eapply SafeAt_ext; [done|]. by eapply i_safe.
    + intros r' ?; simplify_eq. exact (i_rounds _ _ _ HI _ _ _ Hcp Hcr).
    + apply HI.
    + by left.
Qed.

(** Two proofs of one round, the leader's among them, publish its entry. *)
Lemma leader_proved c o g b cp r n1 i1 n2 i2 :
  I c o g -> campaigns c !! b = Some cp -> c_round cp = Some r ->
  r_proofs r = [(n1, i1); (n2, i2)] ->
  n1 <> n2 /\ (c_node cp = n1 \/ c_node cp = n2) /\
  ForceAt o true i1 n1 b (r_slot r) (r_value r) /\ ForceAt o true i2 n2 b (r_slot r) (r_value r) /\
  published_of o (c_node cp) !! (r_slot r - 1) = Some (r_value r) /\ 1 <= r_slot r /\
  r_slot r <= length (published_of o (c_node cp)).
Proof.
  intros HI Hcp Hcr Hpf. pose proof (i_oracle _ _ _ HI) as HO.
  pose proof (i_camp _ _ _ HI _ _ Hcp) as (Hn & Hown & Hsel).
  destruct (c_selected cp) eqn:Hcsel; [|by destruct Hsel; congruence].
  destruct Hsel as (peer & s0 & v0 & Hq & Hso & Hsel & Hro). specialize (Hro _ Hcr).
  destruct (ro_proofs _ _ _ _ _ _ Hro n1 i1) as [Hf1 Hq1]; [rewrite Hpf; left|].
  destruct (ro_proofs _ _ _ _ _ _ Hro n2 i2) as [Hf2 Hq2]; [rewrite Hpf; right; left|].
  assert (Hne : n1 <> n2).
  { pose proof (ro_proofs_keys _ _ _ _ _ _ Hro) as Hnd. rewrite Hpf in Hnd. simpl in Hnd.
    apply NoDup_cons in Hnd as [Hnd _]. set_solver. }
  assert (Hlead : c_node cp = n1 \/ c_node cp = n2).
  { destruct Hq1 as [->|Hp1]; [by left|]. destruct Hq2 as [->|Hp2]; [by right|]. congruence. }
  assert (Hpub : published_of o (c_node cp) !! (r_slot r - 1) = Some (r_value r)).
  { destruct Hlead as [-> | ->]; [apply (oi_proof_force _ _ _ HO) in Hf1 | apply (oi_proof_force _ _ _ HO) in Hf2];
      naive_solver. }
  pose proof (ro_slot _ _ _ _ _ _ Hro). pose proof (lookup_lt_Some _ _ _ Hpub).
  split_and!; auto. lia.
Qed.

Lemma St_success c o g b cp r n1 i1 n2 i2 v :
  St c o g -> campaigns c !! b = Some cp -> c_round cp = Some r ->
  r_proofs r = [(n1, i1); (n2, i2)] -> voters c !! c_node cp = Some v -> promise v = b ->
  let o' := set_acknowledged ({[(r_slot r, r_value r)]} ∪ o_acknowledged o) o in
  St (log (OfVoter (c_node cp) (generation v) (VSuccess b (r_slot r) (r_value r) [i1; i2])) c) o' g.
Proof.
  intros [Hr HI] Hcp Hcr Hpf Hv Hb o'. pose proof (i_oracle _ _ _ HI) as HO.
  destruct (leader_proved _ _ _ _ _ _ _ _ _ _ HI Hcp Hcr Hpf) as (Hne & Hlead & Hf1 & Hf2 & Hpub & Hs1 & Hs2).
  pose proof (i_sync _ _ _ HI) as [_ Hs]. destruct (Hs _ _ Hv) as (Hp & _ & Hgen & _).
  assert (Hext : ext o o').
  { split; auto; try reflexivity; simpl; eauto. set_solver. }
  split.
  - erewrite replay_log by exact Hr. rewrite step_own_row by done. simpl. unfold check_success. simpl.
    destruct Hf1 as (e1 & E1 & N1 & M1 & M2 & M3), Hf2 as (e2 & E2 & N2 & M4 & M5 & M6).
    rewrite E1, E2. simpl. rewrite N1, N2, (proj2 (Nat.eqb_neq n1 n2)) by done.
    assert ((c_node cp =? n1)%nat || (c_node cp =? n2)%nat = true) as ->.
    { destruct Hlead as [-> | ->]; rewrite Nat.eqb_refl; [done | by rewrite orb_true_r]. }
    unfold receipt_matches. simpl.
    rewrite M1, M2, M3, M4, M5, M6, Z.eqb_refl, Nat.eqb_refl, bool_decide_true by done. simpl.
    rewrite Hp, Hb, Z.eqb_refl. simpl.
    assert (py_get (published_of o (c_node cp)) (Z.of_nat (r_slot r) - 1) = Some (r_value r)) as ->.
    { unfold py_get. rewrite (proj2 (Z.ltb_ge _ _)) by lia.
      by replace (Z.to_nat (Z.of_nat (r_slot r) - 1)) with (r_slot r - 1) by lia. }
    simpl. by rewrite bool_decide_true.
  - eapply I_grow; try done; simpl; try apply HI.
    destruct (OInv_next c o g (serial c) (Event (OfVoter (c_node cp) (generation v)
      (VSuccess b (r_slot r) (r_value r) [i1; i2])) (length (events c))) HI) as
      [X1 X2 X3 X4 X5 X6 X7 X8 X9 X10 X11]; [done|].
    split; auto.
    + intros s w. simpl. intros [[= -> ->]%elem_of_singleton | Hin]%elem_of_union; [|by auto].
      split; [done|]. split; [|exists n1, n2].
      * replace (r_slot r) with (S (r_slot r - 1)) by lia. by apply X1 in Hpub.
      * apply X5 in Hf1 as (? & ? & L1%lookup_lt_Some & _), Hf2 as (? & ? & L2%lookup_lt_Some & _).
        change (published_of o') with (published_of o). split_and!; auto; lia.
    + intros rid rd Hrd. destruct (X8 _ _ Hrd). simpl. split; [done|]. set_solver.
Qed.

(** Closing a round whose entry the leader has published. *)
Lemma St_close c o g b cp r :
  St c o g -> campaigns c !! b = Some cp -> c_round cp = Some r ->
  r_slot r <= length (published_of o (c_node cp)) ->
  St (with_campaigns (alter (c_set_round None) b) c) o g.
Proof.
  intros [Hr HI] Hcp Hcr Hlen. split; [done|].
  pose proof (i_camp _ _ _ HI _ _ Hcp) as (Hn & Hown & Hsel).
  destruct (c_selected cp) eqn:Hcsel; [|by destruct Hsel; congruence].
  destruct Hsel as (peer & s0 & v0 & Hq & Hso & Hsel & Hro).
  eapply I_campaign; eauto; simpl.
  - split; [done|]. split; [done|]. simpl. rewrite Hcsel. exists peer, s0, v0. done.
  - unfold LeadOk. simpl. by rewrite Hcsel.
  - intros s v Hin. destruct (i_prop _ _ _ HI _ _ _ Hin) as (cp' & Hcp' & HP). simplify_eq.
    unfold PropBound in *. rewrite Hcr in HP. simpl. destruct HP as (? & ? & ?). split_and!; auto. lia.
  - intros s v v' H1 H2. by eapply i_uniq.
  - intros s v H1. by eapply i_safe.
  - by intros r' ?.
Qed.

(** ** The selection rule *)

Definition tails_of (pre : list string) (own peer : basis) : list (nat * (Z * string)) :=
  filter (fun p : nat * (Z * string) => length pre < p.1)
    (map_to_list (bd_accepted (st_data own)) ++ map_to_list (bd_accepted (st_data peer))).

Definition choices_of (tails : list (nat * (Z * string))) : list string :=
  remove_dups (map (fun p : nat * (Z * string) => p.2.2)
    (filter (fun p : nat * (Z * string) => p.2.1 = max_default (map (fun p : nat * (Z * string) => p.2.1) tails)) tails)).

Lemma selection_spec b own peer pre value :
  selection b own peer = Ok (pre, value) ->
  let tails := tails_of pre own peer in
  pre = longest (bd_prefix (st_data own)) (bd_prefix (st_data peer)) /\
  bd_prefix (st_data own) `prefix_of` pre /\ bd_prefix (st_data peer) `prefix_of` pre /\
  (forall s a, (s, a) ∈ tails -> s = S (length pre)) /\
  ((tails = [] /\ value = noop b) \/ (tails <> [] /\ choices_of tails = [value])).
Proof.
  unfold selection, choices_of, tails_of. simpl. rewrite app_nil_r.
  destruct (is_prefix (bd_prefix (st_data own)) _) eqn:E1; [|done].
  destruct (is_prefix (bd_prefix (st_data peer)) _) eqn:E2; [|done]. simpl.
  destruct (forallb _ _) eqn:E3; [|done]. simpl.
  destruct (length _ <=? 1)%nat eqn:E4; [|done]. simpl. intros ?; simplify_eq.
  apply is_prefix_spec in E1, E2. split_and!; auto.
  - intros s a Hin. rewrite forallb_forall in E3. specialize (E3 (s, a)).
    apply Nat.eqb_eq, E3. by apply list_elem_of_In.
  - set (tails := filter _ _) in *. apply Nat.leb_le in E4.
    destruct tails as [|t ts] eqn:Et; [left; done|]. right. split; [done|].
    destruct (remove_dups _) as [|x [|y l]] eqn:Er; simpl in *; [|done|lia].
    exfalso. pose proof (max_default_elem (map (fun p : nat * (Z * string) => p.2.1) (t :: ts))) as Hm.
    specialize (Hm ltac:(done)). apply list_elem_of_fmap in Hm as (p & Hp & Hin).
    assert (p.2.2 ∈ @nil string); [|set_solver]. rewrite <- Er. apply elem_of_remove_dups.
    apply list_elem_of_fmap. exists p. split; [done|]. apply list_elem_of_filter. done.
Qed.

Lemma choices_source tails value :
  choices_of tails = [value] ->
  exists s, (s, (max_default (map (fun p : nat * (Z * string) => p.2.1) tails), value)) ∈ tails.
Proof.
  intros H. assert (Hin : value ∈ choices_of tails) by (rewrite H; left).
  unfold choices_of in Hin. apply elem_of_remove_dups, list_elem_of_fmap in Hin as ([s [h w]] & -> & Hin).
  apply list_elem_of_filter in Hin as [Hh Hin]. simpl in *. exists s. by rewrite <- Hh.
Qed.

Lemma filter_map_snd {A B} (P : B -> Prop) `{!forall x, Decision (P x)} (l : list (A * B)) :
  filter P (map snd l) = map snd (filter (fun p : A * B => P p.2) l).
Proof.
  induction l as [|[a b] l IH]; [done|]. cbn [map]. rewrite !filter_cons. simpl.
  case_decide; simpl; by rewrite IH.
Qed.

(** What the oracle computes from the tails is what the selection computed. *)
Lemma oracle_values tails :
  remove_dups (map snd (filter (fun p : Z * string => p.1 = max_default (map fst (map snd tails))) (map snd tails))) =
  choices_of tails.
Proof.
  unfold choices_of. rewrite filter_map_snd. rewrite !map_map. done.
Qed.

Lemma basis_tail pre own peer e s h w :
  e = own \/ e = peer -> length pre < s -> bd_accepted (st_data e) !! s = Some (h, w) ->
  (s, (h, w)) ∈ tails_of pre own peer.
Proof.
  intros He Hs Hl. apply list_elem_of_filter. split; [done|]. apply elem_of_app.
  destruct He as [-> | ->]; [left | right]; by apply elem_of_map_to_list.
Qed.

Lemma tail_basis pre own peer s h w :
  (s, (h, w)) ∈ tails_of pre own peer -> length pre < s /\
  exists e, (e = own \/ e = peer) /\ bd_accepted (st_data e) !! s = Some (h, w).
Proof.
  intros [Hs [Hin|Hin]%elem_of_app]%list_elem_of_filter; apply elem_of_map_to_list in Hin; eauto.
Qed.

Section selection.
Context (c : Cluster) (o : oracle) (g : ghost) (b : Z) (own peer : basis) (pre : list string) (value : string).
Context (HI : I c o g) (Hown : GoodBasis o b own) (Hpeer : GoodBasis o b peer)
  (Hne : st_node peer <> st_node own) (Hsel : selection b own peer = Ok (pre, value)).

Lemma selection_vote e s b' v :
  e = own \/ e = peer -> length pre < s -> (b' < b)%Z -> Vote o (st_node e) b' s v ->
  exists h w, (s, (h, w)) ∈ tails_of pre own peer /\ (b' <= h)%Z /\ (h < b)%Z /\ Vote o (st_node e) h s w.
Proof using Hne Hown Hpeer Hsel.
  intros He Hs Hb Hv. destruct (selection_spec _ _ _ _ _ Hsel) as (Hpre & Hp1 & Hp2 & _).
  assert (Hg : GoodBasis o b e) by (destruct He; by subst).
  assert (Hl : length (bd_prefix (st_data e)) <= length pre).
  { destruct He as [-> | ->]; by apply prefix_length. }
  destruct (gb_complete _ _ _ Hg s b' v) as (h & w & Hacc & Hle); [lia|done..|].
  destruct (gb_sound _ _ _ Hg _ _ _ Hacc) as (_ & ? & ?). exists h, w. split_and!; auto.
  by eapply basis_tail.
Qed.

(** Beyond the recovered slot neither voter of the selection quorum has voted below [b]. *)
Lemma selection_silent : Selected o b (st_node own) (st_node peer) (S (length pre)).
Proof using Hown Hpeer Hne Hsel.
  split; [done | apply Hpeer | |].
  - intros q [-> | ->]; [apply Hown | apply Hpeer].
  - intros q s b' v Hq Hs Hb Hv.
    assert (exists e, (e = own \/ e = peer) /\ st_node e = q) as (e & He & <-) by naive_solver.
    destruct (selection_vote e s b' v) as (h & w & Hin & _); [done|lia|done..|].
    destruct (selection_spec _ _ _ _ _ Hsel) as (_ & _ & _ & Hone & _).
    apply Hone in Hin. lia.
Qed.

(** The value selected for the recovered slot is safe at the new ballot. *)
Lemma selection_safe : SafeAt o b (S (length pre)) value.
Proof using HI Hown Hpeer Hne Hsel.
  destruct (selection_spec _ _ _ _ _ Hsel) as (_ & _ & _ & Hone & Hval).
  set (tails := tails_of pre own peer) in *.
  set (top := max_default (map (fun p : nat * (Z * string) => p.2.1) tails)).
  assert (Htop : forall s h w, (s, (h, w)) ∈ tails -> (h <= top)%Z).
  { intros s h w Hin. apply max_default_ge, list_elem_of_fmap. by exists (s, (h, w)). }
  assert (Hquo : forall P : nat -> Prop,
    (forall e, e = own \/ e = peer -> GoodBasis o b e -> P (st_node e)) -> Quorum2 P).
  { intros P HP. exists (st_node own), (st_node peer).
    split_and!; [congruence | apply Hown | apply Hpeer | by apply HP; auto..]. }
  intros b' Hb'. destruct (decide (tails = [] \/ (top < b')%Z)) as [Hquiet | Hloud].
  - apply Hquo. intros e He Hg. pose proof (gb_promise _ _ _ Hg). split; [lia|].
    intros v' Hv'. exfalso.
    apply (selection_vote e) in Hv' as (h & w & Hin & Hle & _); [|done|lia|done].
    fold tails in Hin. destruct Hquiet as [Hnil | Hlt]; [rewrite Hnil in Hin; set_solver|].
    apply Htop in Hin. lia.
  - destruct Hval as [[Hnil _] | [Hnn Hch]]; [tauto|].
    destruct (choices_source _ _ Hch) as [s Hin]. fold top in Hin. pose proof (Hone _ _ Hin) as ->.
    destruct (tail_basis _ _ _ _ _ _ Hin) as (_ & e & He & Hacc).
    assert (Hge : GoodBasis o b e) by (destruct He; by subst).
    destruct (gb_sound _ _ _ Hge _ _ _ Hacc) as (_ & Hlt & Hv).
    destruct (decide (b' = top)) as [->|Hnt].
    + apply Hquo. intros e' He' Hg. pose proof (gb_promise _ _ _ Hg). split; [lia|].
      intros v' Hv'. eapply (i_uniq _ _ _ HI); eapply (i_votes _ _ _ HI); eassumption.
    + apply (i_votes _ _ _ HI), (i_safe _ _ _ HI) in Hv. apply Hv.
      apply Decidable.not_or in Hloud as [_ ?]. lia.
Qed.
End selection.
