(* ===== verification/ClusterLeader.v ===== *)
(** * The leader's steps of the V5.1 protocol

    Recording a selection, opening a round, declaring a campaign ready, barrier reads, restarts:
    each shown to keep the invariant together with the log row it writes. *)

From stdpp Require Import base gmap sets strings list pretty.
From S2P Require Import Prelude ProtocolEvents Cluster History ClusterInvariant ClusterAtoms ClusterRounds.

(** ** Selections *)

Lemma check_select_ok o b own peer pre value :
  GoodBasis o b own -> GoodBasis o b peer -> st_node peer <> st_node own ->
  selection b own peer = Ok (pre, value) -> o_selections o !! b = None ->
  check_select o b (st_node own) [bd_id (st_data own); bd_id (st_data peer)] pre value =
    Ok (set_selections (<[b := (S (length pre), value)]> (o_selections o)) o).
Proof.
  intros Ho Hp Hne Hsel Hnone.
  destruct (selection_spec _ _ _ _ _ Hsel) as (-> & P1 & P2 & _ & Hval).
  set (pre := longest _ _) in *. unfold check_select.
  match goal with |- context [two ?f ?l ?m] => assert (two f l m = Ok (own, peer)) as -> end.
  { pose proof (gb_stored _ _ _ Ho) as E1. pose proof (gb_stored _ _ _ Hp) as E2.
    cbn [two]. by rewrite E1, E2. }
  cbn [rbind].
  rewrite (proj2 (Nat.eqb_neq _ _)) by congruence. rewrite Nat.eqb_refl. simpl.
  rewrite (gb_ballot _ _ _ Ho), (gb_ballot _ _ _ Hp), Z.eqb_refl. simpl. fold pre.
  rewrite (proj2 (is_prefix_spec _ _) P1), (proj2 (is_prefix_spec _ _) P2). simpl.
  fold (tails_of pre own peer). rewrite oracle_values.
  assert ((match map snd (tails_of pre own peer) with
    | [] => Ok tt
    | _ :: _ => require ((length (choices_of (tails_of pre own peer)) =? 1)%nat &&
        bool_decide (value ∈ map snd (filter (fun p : Z * string => p.1 =
          max_default (map fst (map snd (tails_of pre own peer)))) (map snd (tails_of pre own peer)))))
        "I05 highest acceptance ignored"
    end) = Ok tt) as ->; [|simpl; by rewrite !bool_decide_true].
  destruct Hval as [[-> _] | [Hnn Hch]]; [done|].
  rewrite Hch. rewrite bool_decide_true; [by destruct (tails_of pre own peer)|].
  apply elem_of_remove_dups. rewrite oracle_values, Hch. left.
Qed.

Lemma prefix_longest_chosen o b own peer pre value :
  GoodBasis o b own -> GoodBasis o b peer -> selection b own peer = Ok (pre, value) -> PrefixChosen o pre.
Proof.
  intros Ho Hp Hsel. destruct (selection_spec _ _ _ _ _ Hsel) as (-> & _).
  destruct (longest_choice (bd_prefix (st_data own)) (bd_prefix (st_data peer))) as [-> | ->];
    [apply Ho | apply Hp].
Qed.

(** What the leader needs to open the first round of a new selection. *)
Record Opening (c : Cluster) (o : oracle) (g : ghost) (b : Z) (cp : campaign) (pre : list string)
    (value : string) (act : bool) (rd : option string) : Prop := {
  op_campaign : campaigns c !! b = Some cp;
  op_round : c_round cp = None;
  op_selected : c_selected cp = true;
  op_chosen : PrefixChosen o pre;
  op_safe : SafeAt o b (S (length pre)) value;
  op_first : exists s0 v0, o_selections o !! b = Some (s0, v0) /\ s0 <= S (length pre) /\
    (S (length pre) = s0 -> value = v0);
  op_leader : promise_of o (c_node cp) = b -> length (published_of o (c_node cp)) <= S (length pre);
  op_fresh : forall s v, (b, s, v) ∈ g -> s < S (length pre);
  op_barrier : act = true -> rd = None;
  op_reads : forall rid, rd = Some rid -> reads c !! rid = Some b /\ exists r,
    o_reads o !! rid = Some r /\ rd_node r = c_node cp /\
    forall i w, (i, w) ∈ rd_writes r -> i < S (length pre) \/ Blocked o b (S (length pre))
}.

Lemma St_add_basis c o g b cp e :
  St c o g -> campaigns c !! b = Some cp -> st_node e <> c_node cp ->
  St (with_campaigns (alter (c_add_basis (st_node e) e) b) c) o g.
Proof.
  intros [Hr HI] Hcp Hne. split; [done|].
  assert (Hown : <[st_node e := e]> (c_bases cp) !! c_node cp = c_bases cp !! c_node cp).
  { by rewrite lookup_insert_ne. }
  eapply (I_campaign c o g g b cp); try done; simpl.
  - pose proof (i_camp _ _ _ HI _ _ Hcp) as H. unfold CampOk in *. simpl. by rewrite Hown.
  - pose proof (i_lead _ _ _ HI _ _ Hcp) as H. unfold LeadOk in *. simpl. by rewrite Hown.
  - intros b' s' v' Hin. by left.
  - intros s' v' Hin. destruct (i_prop _ _ _ HI _ _ _ Hin) as (cp' & Hcp' & HP). by simplify_eq.
  - intros s' v' v'' H1 H2. by eapply i_uniq.
  - intros s' v' H1. by eapply i_safe.
  - intros r Hcr. by eapply i_rounds.
  - by left.
Qed.

Lemma St_select c o g b cp own peer pre value :
  St c o g -> campaigns c !! b = Some cp -> c_selected cp = false ->
  c_bases cp !! c_node cp = Some own -> GoodBasis o b peer -> st_node peer <> c_node cp ->
  selection b own peer = Ok (pre, value) ->
  let c' := log (OfCluster (CSelect b (c_node cp) [bd_id (st_data own); bd_id (st_data peer)] pre value))
    (with_campaigns (alter (c_select [c_node cp; st_node peer]) b) c) in
  exists o', St c' o' g /\ (forall n, promise_of o' n = promise_of o n) /\
    Opening c' o' g b (c_select [c_node cp; st_node peer] cp) pre value true None.
Proof.
  intros [Hr HI] Hcp Hns Hb Hpeer Hne Hsel c'.
  set (o' := set_selections (<[b := (S (length pre), value)]> (o_selections o)) o). exists o'.
  pose proof (i_camp _ _ _ HI _ _ Hcp) as (Hn & (own' & Hown' & Hnode & Hown) & Hsl).
  assert (own' = own) as -> by congruence. rewrite Hns in Hsl. destruct Hsl as [[Hnone Hnq] Hrnd].
  assert (Hne' : st_node peer <> st_node own) by congruence.
  assert (Hext : ext o o').
  { split; auto; try reflexivity; eauto. by apply insert_subseteq. }
  assert (Hnog : forall s v, (b, s, v) ∉ g).
  { intros s v Hin. destruct (i_prop _ _ _ HI _ _ _ Hin) as (cp' & Hcp' & HP & _). simplify_eq. congruence. }
  pose proof (selection_silent o b own peer pre value Hown Hpeer Hne' Hsel) as Hsi. rewrite Hnode in Hsi.
  destruct (selection_spec _ _ _ _ _ Hsel) as (_ & Hpre & _).
  assert (Hlead : promise_of o (c_node cp) = b -> length (published_of o (c_node cp)) <= length pre).
  { intros Hp. pose proof (i_lead _ _ _ HI _ _ Hcp) as HL. unfold LeadOk in HL. rewrite Hrnd in HL.
    rewrite (HL Hp Hns _ Hb). by apply prefix_length. }
  assert (HSI : St c' o' g); [split|].
  - unfold c'. erewrite replay_log by exact Hr. unfold step. simpl. rewrite <- Hnode. by apply check_select_ok.
  - eapply (I_master c _ o o' g g b cp (c_select [c_node cp; st_node peer])); try done; simpl.
    + apply HI.
    + apply (OInv_next c o g (serial c) (Event (OfCluster (CSelect b (c_node cp)
        [bd_id (st_data own); bd_id (st_data peer)] pre value)) (length (events c)))) in HI as []; [|done].
      split; auto.
    + intros q Hq. congruence.
    + intros b' Hb'. by rewrite lookup_insert_ne.
    + split; [done|]. split; [exists own; eauto using GoodBasis_ext|]. simpl.
      exists (st_node peer), (S (length pre)), value. rewrite lookup_insert_eq, Hrnd. split_and!; [done..| |done].
      by eapply Selected_ext.
    + intros b' cp' Hb' Hcp'. eapply CampOk_ext; [exact Hext | done | | done |].
      * simpl. by rewrite lookup_insert_ne.
      * by apply HI.
    + intros b' cp'. destruct (decide (b = b')) as [<-|Hb'].
      * rewrite lookup_alter_eq, Hcp. intros ?; simplify_eq/=. unfold LeadOk. simpl. by rewrite Hrnd.
      * rewrite lookup_alter_ne by done. apply (i_lead _ _ _ HI).
    + auto.
    + intros s v Hin. by destruct (Hnog s v).
    + intros s v v' Hin. by destruct (Hnog s v).
    + intros s v Hin. by destruct (Hnog s v).
    + rewrite Hrnd. done.
    + apply HI.
    + by left.
  - split_and!; [done..|]. split; simpl; try done.
    + by rewrite lookup_alter_eq, Hcp.
    + by apply (prefix_longest_chosen o b own peer pre value).
    + eapply SafeAt_ext; [exact Hext|]. eapply (selection_safe c o g b own peer pre value); eauto.
    + exists (S (length pre)), value. by rewrite lookup_insert_eq.
    + intros Hp. specialize (Hlead Hp). change (published_of o') with (published_of o). lia.
    + intros s v Hin. by destruct (Hnog s v).
Qed.

(** ** Opening a round *)

Lemma St_begin c o g b cp pre value act rd :
  St c o g -> Opening c o g b cp pre value act rd ->
  St (with_campaigns (alter (c_set_round (Some (Round (S (length pre)) value [] [] act rd None))) b) c) o
    ((b, S (length pre), value) :: g).
Proof.
  intros [Hr HI] [Hcp Hrnd Hsel Hpc Hsafe (s0 & v0 & Hso & Hs0 & Hv0) Hlead Hfresh Hact Hrd]. split; [done|].
  set (s := S (length pre)) in *. pose proof (i_oracle _ _ _ HI) as HO.
  pose proof (i_camp _ _ _ HI _ _ Hcp) as (Hn & Hown & Hx). rewrite Hsel in Hx.
  destruct Hx as (peer & s1 & v1 & Hq & Hso1 & Hse & _). rewrite Hso in Hso1. injection Hso1 as <- <-.
  assert (Hout : forall b' s' v', (b', s', v') ∈ (b, s, value) :: g ->
    (b' = b /\ s' = s /\ v' = value) \/ (b', s', v') ∈ g).
  { intros b' s' v' [[= -> -> ->]|]%elem_of_cons; auto. }
  eapply (I_campaign c o g _ b cp); eauto; simpl.
  - split; [done|]. split; [done|]. simpl. rewrite Hsel. exists peer, s0, v0. split_and!; auto.
    intros r ?; simplify_eq. split; cbn [r_slot r_value r_accepts r_proofs r_proof r_activation r_read];
      try (by constructor); try done; try (by intros n i ?%elem_of_nil).
    + unfold s. lia.
    + intros p v pos Hp. apply (oi_proof _ _ _ HO) in Hp as ((n1 & _ & _ & _ & _ & Hv & _) & _).
    apply (i_votes _ _ _ HI), Hfresh in Hv. lia.
  - set_solver.
  - intros b' s' v' [(-> & _)|]%Hout; auto.
  - intros s' v' [(_ & -> & ->)|Hin]%Hout.
    + unfold PropBound. simpl. split_and!; [done| |done]. exists s0, v0. auto.
    + destruct (i_prop _ _ _ HI _ _ _ Hin) as (cp' & Hcp' & _ & HP & _). simplify_eq.
      unfold PropBound. simpl. split_and!; [done..|]. apply Hfresh in Hin. lia.
  - intros s' v v' [(_ & -> & ->)|Hin]%Hout [(_ & ? & ->)|Hin']%Hout; auto.
    + apply Hfresh in Hin'. lia.
    + subst s'. apply Hfresh in Hin. lia.
    + by eapply i_uniq.
  - intros s' v [(_ & -> & ->)|Hin]%Hout; auto. by eapply i_safe.
  - intros r ?; simplify_eq/=. left.
Qed.

(** A campaign that has proposed something proposes next at the slot after its leader's prefix. *)
Lemma next_opening c o g b cp v value act rd s0 v0 :
  I c o g -> campaigns c !! b = Some cp -> (b, s0, v0) ∈ g -> c_round cp = None ->
  voters c !! c_node cp = Some v -> (act = true -> rd = None) ->
  (forall rid, rd = Some rid -> reads c !! rid = Some b /\ exists r,
    o_reads o !! rid = Some r /\ rd_node r = c_node cp /\
    forall i w, (i, w) ∈ rd_writes r ->
      i < S (length (prefix v)) \/ Blocked o b (S (length (prefix v)))) ->
  Opening c o g b cp (prefix v) value act rd.
Proof.
  intros HI Hcp Hg Hrnd Hv Hact Hrd. pose proof (i_oracle _ _ _ HI) as HO.
  pose proof (i_sync _ _ _ HI) as [_ Hs]. destruct (Hs _ _ Hv) as (_ & Hpub & _).
  assert (HP : forall s w, (b, s, w) ∈ g -> PropBound o cp b s w).
  { intros s w Hin. destruct (i_prop _ _ _ HI _ _ _ Hin) as (cp' & Hcp' & ?). by simplify_eq. }
  destruct (HP _ _ Hg) as (Hsel & (s1 & v1 & Hso & Hle & _) & Hlen). rewrite Hrnd in Hlen.
  pose proof (i_camp _ _ _ HI _ _ Hcp) as (Hn & _ & Hx). rewrite Hsel in Hx.
  destruct Hx as (peer & s2 & v2 & _ & Hso2 & [Hne Hlt Hpr Hsi] & _).
  rewrite Hso in Hso2. injection Hso2 as <- <-. rewrite <- Hpub in *.
  split; auto.
  - apply HO.
  - intros b' Hb'. exists (c_node cp), peer.
    assert (Hq : forall q, q = c_node cp \/ q = peer -> (b' < promise_of o q)%Z /\
      forall v', Vote o q b' (S (length (published_of o (c_node cp)))) v' -> v' = value).
    { intros q Hq. specialize (Hpr q Hq). split; [lia|]. intros v' Hv'. exfalso.
      eapply (Hsi q); [exact Hq | | exact Hb' | exact Hv']. lia. }
    split; [congruence|]. auto 6.
  - exists s1, v1. split_and!; [done | lia | lia].
  - intros s w Hin. destruct (HP _ _ Hin) as (_ & _ & Hl). rewrite Hrnd in Hl. lia.
Qed.

Lemma St_ready c o g b cp s v :
  St c o g -> campaigns c !! b = Some cp -> (b, s, v) ∈ g ->
  St (with_campaigns (alter c_set_ready b) c) o g.
Proof.
  intros [Hr HI] Hcp Hg. split; [done|].
  eapply (I_campaign c o g g b cp); try done; simpl.
  - apply (i_camp _ _ _ HI _ _ Hcp).
  - apply (i_lead _ _ _ HI _ _ Hcp).
  - intros b' s' v' Hin. by left.
  - intros s' v' Hin. destruct (i_prop _ _ _ HI _ _ _ Hin) as (cp' & Hcp' & HP). by simplify_eq.
  - intros s' v' v'' H1 H2. by eapply i_uniq.
  - intros s' v' H1. by eapply i_safe.
  - intros r Hcr. by eapply i_rounds.
  - right. eauto.
Qed.

(** ** New campaigns *)

Lemma St_new_campaign c o g b e :
  St c o g -> campaigns c !! b = None -> GoodBasis o b e ->
  published_of o (st_node e) = bd_prefix (st_data e) ->
  St (with_campaigns (insert b (Campaign (st_node e) {[st_node e := e]} false false false None None)) c) o g.
Proof.
  intros [Hr HI] Hnone HG Hpub. split; [done|]. set (cp := Campaign _ _ _ _ _ _ _).
  assert (Hl : forall b' cp', <[b := cp]> (campaigns c) !! b' = Some cp' ->
    (b' = b /\ cp' = cp) \/ campaigns c !! b' = Some cp').
  { intros b' cp'. rewrite lookup_insert. case_decide; [left; naive_solver | by right]. }
  assert (Hk : forall b' cp', campaigns c !! b' = Some cp' -> <[b := cp]> (campaigns c) !! b' = Some cp').
  { intros b' cp' H. rewrite lookup_insert_ne; [done|]. congruence. }
  destruct HI as [X1 X2 X3 X4 X5 X6 X7 X8 X9 X10 X11 X12 X13 X14]. split; simpl; auto.
  - intros b' cp' [[-> ->]|H]%Hl; [|by apply X3]. split; [apply HG|]. split.
    + exists e. split_and!; [apply lookup_singleton_eq | done | done].
    + split; [split; [by apply X5 | done] | done].
  - intros b' cp' [[-> ->]|H]%Hl; [|by apply X4]. intros _ _ own Hown. simpl in *.
    rewrite lookup_singleton_eq in Hown. by simplify_eq.
  - intros b' [H _]%lookup_insert_None. auto.
  - intros b' s v Hin. destruct (X6 _ _ _ Hin) as (cp' & ? & ?). exists cp'. auto.
  - intros b' cp' r [[-> ->]|H]%Hl; [done|]. by apply X10.
  - intros m Hm. destruct (X11 _ Hm) as (? & cp' & ? & ?). split; [done|]. exists cp'. auto.
  - destruct X12 as (? & R & ? & ?). split_and!; auto. intros rid b' Hrb. destruct (R _ _ Hrb) as (cp' & ? & ?). exists cp'. auto.
  - intros b' cp' [[-> ->]|H]%Hl; [done|]. by apply X14.
Qed.

(** ** Barrier reads *)

Lemma St_read_invoke c o g b cp v rid :
  St c o g -> campaigns c !! b = Some cp -> reads c !! rid = None -> voters c !! c_node cp = Some v ->
  let rd := ReadRow (length (events c)) (o_acknowledged o) (c_node cp) None in
  St (log (OfVoter (c_node cp) (generation v) (VReadInvoke rid)) (with_reads (insert rid b) c))
    (set_reads (<[rid := rd]> (o_reads o)) o) g.
Proof.
  intros [Hr HI] Hcp Hrid Hv rd. set (o' := set_reads _ _).
  pose proof (i_sync _ _ _ HI) as [_ Hs]. destruct (Hs _ _ Hv) as (_ & _ & Hgen & _).
  pose proof (i_reads _ _ _ HI) as (R1 & R2 & R3 & R4). pose proof (R1 _ Hrid) as Hnew.
  assert (Hext : ext o o').
  { split; auto; try reflexivity; simpl; eauto. intros rid' rd' Hrd'. exists rd'. split_and!; try done.
    rewrite lookup_insert_ne; [done|]. congruence. }
  split.
  - erewrite replay_log by exact Hr. rewrite step_own_row by done. simpl. unfold check_read_invoke.
    by rewrite bool_decide_true.
  - eapply (I_grow_reads c _ o); try done; simpl; try apply HI.
    + by apply insert_subseteq.
    + split_and!; simpl; auto.
      * intros rid' H. apply lookup_insert_None in H as [H1 H2]. rewrite lookup_insert_ne by done. auto.
      * intros rid' b'. rewrite lookup_insert. case_decide; [|by apply R2]. intros ?; simplify_eq.
        exists cp. split; [done|]. apply (i_camp _ _ _ HI _ _ Hcp).
      * intros rid' p Hp. destruct (R3 _ _ Hp) as (rd' & ? & ?). exists rd'. split; [|done].
        rewrite lookup_insert_ne; [done|]. congruence.
    + pose proof (OInv_next _ _ _ (serial c) (Event (OfVoter (c_node cp) (generation v) (VReadInvoke rid))
        (length (events c))) HI (le_n _)) as [X1 X2 X3 X4 X5 X6 X7 X8 X9 X10 X11]. split; auto.
      intros rid' rd'. simpl. rewrite lookup_insert. case_decide; [|by apply X8].
      intros ?; simplify_eq. simpl. rewrite length_app. simpl. split; [lia | done].
Qed.

(** What the leader knows when the barrier of a read is proved. *)
Record Pinnable (o : oracle) (b : Z) (n s : nat) (w rid : string) (p : identity) : Prop := {
  pn_read : exists rd pos, o_reads o !! rid = Some rd /\ rd_node rd = n /\
    o_proofs o !! p = Some (ProofRow b s w pos) /\ rd_invoke rd < pos /\
    forall i x, (i, x) ∈ rd_writes rd -> 1 <= i <= s /\ published_of o n !! (i - 1) = Some x;
  pn_prefix : length (published_of o n) = s;
  pn_last : published_of o n !! (s - 1) = Some w
}.

Lemma read_pinnable c o g b cp r n1 i1 n2 i2 rid :
  I c o g -> campaigns c !! b = Some cp -> c_round cp = Some r ->
  r_proofs r = [(n1, i1); (n2, i2)] -> promise_of o (c_node cp) = b -> r_read r = Some rid ->
  exists p, r_proof r = Some p /\ Pinnable o b (c_node cp) (r_slot r) (r_value r) rid p.
Proof.
  intros HI Hcp Hcr Hpf Hb Hrid. pose proof (i_oracle _ _ _ HI) as HO.
  destruct (leader_proved _ _ _ _ _ _ _ _ _ _ HI Hcp Hcr Hpf) as (_ & _ & Hf1 & _ & Hpub & Hs1 & Hs2).
  pose proof (i_camp _ _ _ HI _ _ Hcp) as (_ & _ & Hx).
  destruct (c_selected cp); [|by destruct Hx; congruence].
  destruct Hx as (peer & s0 & v0 & _ & _ & _ & Hro). specialize (Hro _ Hcr).
  destruct (oi_proof_force _ _ _ HO _ _ _ _ _ Hf1) as (_ & _ & _ & p' & pos' & Hp').
  destruct (ro_seen _ _ _ _ _ _ Hro _ _ _ Hp') as [p Hp]. exists p. split; [done|].
  destruct (ro_proof _ _ _ _ _ _ Hro _ Hp) as (pos & Hpos & Hinv).
  destruct (ro_read _ _ _ _ _ _ Hro _ Hrid) as (_ & rd & Hrd & Hnode & Hw).
  pose proof (i_lead _ _ _ HI _ _ Hcp Hb) as HL. rewrite Hcr in HL.
  split; [|lia | done]. exists rd, pos. split_and!; eauto.
  intros i x Hi. destruct (oi_reads _ _ _ HO _ _ Hrd) as [_ Hsub].
  destruct (oi_acked _ _ _ HO i x) as (H1 & Hch & _); [by apply Hsub|].
  assert (i <= r_slot r) as Hle.
  { destruct (Hw _ _ Hi) as [|Hbl]; [lia|]. exfalso.
    destruct (oi_proof _ _ _ HO _ _ _ _ _ Hpos) as (Hc & _).
    destruct (quorum_meet _ _ Hc Hbl) as (n & _ & Hv & _ & Hno). by eapply Hno. }
  split; [lia|]. destruct (lookup_lt_is_Some_2 (published_of o (c_node cp)) (i - 1)) as [y Hy]; [lia|].
  rewrite Hy. pose proof (oi_published _ _ _ HO _ _ _ Hy) as Hc.
  replace (S (i - 1)) with i in Hc by lia. congruence.
Qed.

Lemma oracle_last (l : list string) x : l !! (length l - 1) = Some x -> py_get l (-1) = Some x.
Proof.
  intros H. pose proof (lookup_lt_Some _ _ _ H). unfold py_get. simpl.
  rewrite (proj2 (Z.ltb_ge _ _)) by lia.
  by replace (Z.to_nat (Z.of_nat (length l) + -1)) with (length l - 1) by lia.
Qed.

Lemma St_read_pin c o g b n v s w rid p :
  St c o g -> voters c !! n = Some v -> promise v = b -> Pinnable o b n s w rid p ->
  (s, w) ∈ o_acknowledged o -> size (pins c) < 8 -> (0 <= queue_limit c)%Z ->
  exists o', St (log (OfVoter n (generation v) (VReadPin b s w rid (prefix v) (Some p)))
    (with_pins (insert rid (prefix v)) c)) o' g.
Proof.
  intros [Hr HI] Hv Hb [(rd & pos & Hrd & Hnode & Hpf & Hinv & Hw) Hlen Hlast] Hack Hsize Hql.
  set (rd' := ReadRow (rd_invoke rd) (rd_writes rd) (rd_node rd) (Some (prefix v))).
  set (o' := set_reads (<[rid := rd']> (o_reads o)) o). exists o'.
  pose proof (i_sync _ _ _ HI) as [_ Hs]. destruct (Hs _ _ Hv) as (Hp & Hpub & Hgen & _).
  pose proof (i_reads _ _ _ HI) as (R1 & R2 & R3 & R4). rewrite Hpub in Hlen, Hlast, Hw.
  assert (Hext : ext o o').
  { split; auto; try reflexivity; simpl; eauto. intros rid1 rd1 Hrd1. rewrite lookup_insert.
    case_decide; [|eauto]. subst rid1. exists rd'. rewrite Hrd in Hrd1. by simplify_eq. }
  split.
  - erewrite replay_log by exact Hr. rewrite step_own_row by done. simpl. unfold check_read_pin.
    rewrite Hrd. cbn [of_option rbind mbind option_bind]. rewrite Hpf. simpl.
    rewrite Hnode, Nat.eqb_refl. simpl. rewrite bool_decide_true by done. rewrite (proj2 (Nat.ltb_lt _ _)) by done. simpl.
    rewrite bool_decide_true by done. simpl. rewrite bool_decide_true by done. simpl.
    rewrite (oracle_last _ w) by (by rewrite Hlen). simpl. rewrite bool_decide_true by done. simpl.
    rewrite Hp, Hb, Z.eqb_refl. simpl.
    assert (forallb (fun q : nat * string => (q.1 <=? length (prefix v))%nat && bool_decide
      (py_get (prefix v) (Z.of_nat q.1 - 1) = Some q.2)) (elements (rd_writes rd)) = true) as ->; [|simpl; unfold o', rd'; by rewrite Hnode].
    apply forallb_forall. intros [i x] Hin%list_elem_of_In%elem_of_elements. simpl.
    destruct (Hw _ _ Hin) as [Hi Hx]. rewrite (proj2 (Nat.leb_le _ _)) by lia. simpl.
    apply bool_decide_true. unfold py_get. rewrite (proj2 (Z.ltb_ge _ _)) by lia.
    by replace (Z.to_nat (Z.of_nat i - 1)) with (i - 1) by lia.
  - eapply (I_grow_reads c _ o); try done; simpl; try apply HI.
    + split_and!; simpl; auto.
      * intros rid' H. rewrite lookup_insert_ne; [by apply R1|]. intros <-. specialize (R1 _ H). congruence.
      * intros rid' q. rewrite !lookup_insert. case_decide; [|by apply R3]. intros ?; simplify_eq.
        by exists rd'.
      * pose proof (map_size_insert rid (prefix v) (pins c)) as E. rewrite E. destruct (pins c !! rid); simpl; lia.
    + pose proof (i_limit _ _ _ HI) as HL. unfold LimitOk in *. by rewrite (proj2 (Z.leb_le 0 _)) in * by done.
    + pose proof (OInv_next _ _ _ (serial c) (Event (OfVoter n (generation v) (VReadPin b s w rid (prefix v) (Some p)))
        (length (events c))) HI (le_n _)) as [X1 X2 X3 X4 X5 X6 X7 X8 X9 X10 X11]. split; auto.
      intros rid1 rd1. simpl. rewrite lookup_insert. case_decide; [|by apply X8].
      intros ?; simplify_eq. simpl. by apply X8 in Hrd.
Qed.

Lemma St_read_result c o g n v rid view :
  St c o g -> voters c !! n = Some v -> pins c !! rid = Some view ->
  St (log (OfVoter n (generation v) (VReadResult rid view)) (with_pins (delete rid) c)) o g.
Proof.
  intros [Hr HI] Hv Hpin. pose proof (i_reads _ _ _ HI) as (R1 & R2 & R3 & R4).
  destruct (R3 _ _ Hpin) as (rd & Hrd & Hpd).
  pose proof (i_sync _ _ _ HI) as [_ Hs]. destruct (Hs _ _ Hv) as (_ & _ & Hgen & _). split.
  - erewrite replay_log by exact Hr. rewrite step_own_row by done. simpl. unfold check_read_result.
    rewrite Hrd. simpl. by rewrite bool_decide_true.
  - eapply (I_grow_reads c _ o); try done; simpl; try apply HI.
    + apply ext_refl.
    + split_and!; simpl; auto.
      * intros rid' q [_ Hq]%lookup_delete_Some. by apply R3.
      * rewrite map_size_delete, Hpin. simpl. lia.
    + pose proof (i_limit _ _ _ HI) as HL. unfold LimitOk in *. destruct (0 <=? queue_limit c)%Z; [done|].
      destruct HL as [? HL]. rewrite HL in Hpin. done.
    + by eapply OInv_next.
Qed.

(** ** Restarts *)

Lemma St_voter_quiet c o g n f :
  St c o g ->
  (forall v, promise (f v) = promise v /\ prefix (f v) = prefix v /\ accepted (f v) = accepted v /\
    generation (f v) = generation v) ->
  St (with_voters (alter f n) c) o g.
Proof.
  intros [Hr HI] Hf. split; [done|]. pose proof (i_sync _ _ _ HI) as Hsync.
  eapply I_grow; try done; simpl; try apply HI; [apply ext_refl|].
  pose proof Hsync as [_ Hs]. eapply Sync_alter; [done | done|].
  intros v Hv. destruct (Hs _ _ Hv) as (-> & -> & -> & Ha), (Hf v) as (-> & -> & -> & ->). done.
Qed.

Lemma St_restart c o g n v :
  St c o g -> voters c !! n = Some v ->
  St (with_voters (alter v_restart n) (log (OfVoter n (generation v) VRestart) c))
    (set_generations (<[n := S (generation_of o n)]> (o_generations o)) o) g.
Proof.
  intros [Hr HI] Hv. pose proof (i_sync _ _ _ HI) as Hsync. pose proof Hsync as [_ Hs].
  destruct (Hs _ _ Hv) as (_ & _ & Hgen & _). set (o' := set_generations _ _).
  assert (Hg' : forall m, generation_of o' m = if decide (n = m) then S (generation_of o n) else generation_of o m).
  { intros m. unfold o', generation_of; simpl. rewrite lookup_insert. by case_decide. }
  split.
  - simpl. rewrite (replay_snoc _ _ _ Hr). simpl. by rewrite step_own_row.
  - eapply (I_grow c _ o); try done; simpl; try apply HI.
    + split; auto; try reflexivity; eauto.
    + eapply Sync_alter; [done|..].
      * intros m Hm. rewrite Hg', decide_False by done. done.
      * intros v' Hv'. rewrite Hg', decide_True by done. destruct (Hs _ _ Hv') as (? & ? & -> & ?). done.
    + pose proof (OInv_next _ _ _ (serial c) (Event (OfVoter n (generation v) VRestart) (length (events c)))
        HI (le_n _)) as []. split; auto.
Qed.

Lemma St_retire c o g n :
  St c o g ->
  St (with_campaigns (fmap (fun c => if decide (c_node c = n) then c_retire c else c)) c) o g.
Proof.
  set (f := fun c => if decide (c_node c = n) then c_retire c else c). intros [Hr HI]. split; [done|].
  assert (Hf : forall cp, c_node (f cp) = c_node cp /\ c_bases (f cp) = c_bases cp /\
    c_selected (f cp) = c_selected cp /\ c_round (f cp) = c_round cp /\ c_quorum (f cp) = c_quorum cp /\
    (c_ready (f cp) = true -> c_ready cp = true)).
  { intros cp. unfold f. case_decide; split_and!; done. }
  assert (Hl : forall b cp', (f <$> campaigns c) !! b = Some cp' -> exists cp, cp' = f cp /\ campaigns c !! b = Some cp).
  { intros b cp'. rewrite lookup_fmap. destruct (campaigns c !! b); intros; simplify_eq/=. eauto. }
  assert (Hb : forall b cp, campaigns c !! b = Some cp -> (f <$> campaigns c) !! b = Some (f cp)).
  { intros b cp H. by rewrite lookup_fmap, H. }
  destruct HI as [X1 X2 X3 X4 X5 X6 X7 X8 X9 X10 X11 X12 X13 X14]. split; simpl; auto.
  - intros b cp' (cp & -> & Hcp)%Hl. destruct (Hf cp) as (E1 & E2 & E3 & E4 & E5 & _).
    unfold CampOk. rewrite E1, E2, E3, E4, E5. by apply X3.
  - intros b cp' (cp & -> & Hcp)%Hl. destruct (Hf cp) as (E1 & E2 & E3 & E4 & E5 & _).
    unfold LeadOk. rewrite E1, E2, E3, E4. by apply X4.
  - intros b H. apply X5. rewrite lookup_fmap in H. by destruct (campaigns c !! b).
  - intros b s v Hin. destruct (X6 _ _ _ Hin) as (cp & Hcp & HP). exists (f cp). split; [auto|].
    destruct (Hf cp) as (E1 & E2 & E3 & E4 & E5 & _). unfold PropBound in *. by rewrite E1, E3, E4.
  - intros b cp' r (cp & -> & Hcp)%Hl. destruct (Hf cp) as (_ & _ & _ & -> & _). by apply X10.
  - intros m Hm. destruct (X11 _ Hm) as (Ht & cp & Hcp & Hbody). split; [done|]. exists (f cp). split; [auto|].
    destruct (Hf cp) as (E1 & _ & _ & _ & E5 & _). rewrite E1, E5. done.
  - destruct X12 as (? & R & ? & ?). split_and!; auto. intros rid b Hrb. destruct (R _ _ Hrb) as (cp & Hcp & ?).
    exists (f cp). split; [auto|]. by destruct (Hf cp) as (-> & _).
  - intros b cp' (cp & -> & Hcp)%Hl Hrdy. apply (X14 b cp); [done|]. by apply Hf.
Qed.
