(* ===== verification/ClusterSafety.v ===== *)
(** * Every public call of the V5.1 protocol keeps its log acceptable

    Weakest-precondition specifications of the handlers of [deliver] and of the client calls,
    assembled into the refinement theorem: whatever calls are made in whatever order, the event
    oracle accepts the log. *)

From stdpp Require Import base gmap sets strings list pretty.
From S2P Require Import Prelude ProtocolEvents Cluster History ClusterInvariant ClusterAtoms ClusterRounds ClusterLeader.

Lemma St_Inv c o g : St c o g -> Inv c.
Proof. intros H. by exists o, g. Qed.
#[export] Hint Resolve St_Inv : oracle.
#[export] Hint Extern 1 (Inv _) => eapply St_Inv; eassumption : oracle.

(** ** Promises *)

Lemma wp_prepare n b c o g (Q : basis -> Cluster -> Prop) :
  St c o g -> (forall cp, campaigns c !! b = Some cp -> c_node cp <> n) ->
  (forall e c' o', St c' o' g -> campaigns c' = campaigns c -> GoodBasis o' b e -> st_node e = n ->
    published_of o' n = bd_prefix (st_data e) -> Q e c') ->
  wp (prepare n b) Q Inv c.
Proof.
  intros HS Hcamp HQ. unfold prepare. wp_step. apply wp_voter; [|eauto with oracle]. intros v Hv.
  wp_step. apply wp_need; [|eauto with oracle]. intros _. do 2 wp_step.
  wp_step. apply wp_need; [|eauto with oracle]. intros [Hb _]%andb_true_iff. apply Z.ltb_lt in Hb.
  wp_step. apply wp_set_voter. pose proof (St_promise _ _ _ _ _ _ HS Hv Hb Hcamp) as HS1. cbv zeta in HS1.
  assert (Hv1 : alter (v_promise b) n (voters c) !! n = Some (v_promise b v)).
  { by rewrite list_lookup_alter_eq, Hv. }
  wp_step. eapply wp_voter_row; [exact Hv1|].
  wp_step. apply wp_identity. wp_step.
  eapply wp_voter_some; [exact Hv1|].
  eapply (wp_stamped_row _ _ _ (v_promise b v)); [exact Hv1|].
  assert (Hnv : forall s w, ~ Vote (set_promises (<[n := b]> (o_promises o)) o) n b s w).
  { intros s w Hvote. destruct HS as [_ HI]. pose proof (i_sync _ _ _ HI) as [_ Hs].
    destruct (Hs _ _ Hv) as (Hp & _). apply (oi_vote _ _ _ (i_oracle _ _ _ HI)) in Hvote. lia. }
  destruct (St_basis _ _ _ n (v_promise b v) HS1 Hv1 Hnv) as [HS2 HG].
  eapply HQ; [exact HS2 | done | exact HG | done|].
  destruct HS2 as [_ HI]. pose proof (i_sync _ _ _ HI) as [_ Hs]. by destruct (Hs _ _ Hv1) as (_ & Hpub & _).
Qed.

(** ** Sending to the voters of a campaign *)

(** A loop that queues acceptable messages leaves everything else alone. *)
Lemma wp_queue_all {A} (l : list A) (mk : A -> message) (P : A -> Prop) `{!forall x, Decision (P x)} c o g
    (Q : unit -> Cluster -> Prop) :
  St c o g -> (forall x, x ∈ l -> ~ P x -> MsgOk o g (campaigns c) (mk x)) ->
  (forall c', core_eq c c' -> St c' o g -> Q tt c') ->
  wp (for_each l (fun x => if decide (P x) then ret tt else queue (mk x))) Q Inv c.
Proof.
  intros HS Hm HQ.
  apply (wp_mono _ (fun _ c' => core_eq c c' /\ St c' o g) _ Inv); [|intros [] c' [? ?]; auto | done].
  assert (Hgen : forall c0, core_eq c c0 -> St c0 o g ->
    wp (for_each l (fun x => if decide (P x) then ret tt else queue (mk x)))
      (fun _ c' => core_eq c c' /\ St c' o g) Inv c0); [|apply Hgen; [done | exact HS]].
  clear HQ. induction l as [|x l IH]; intros c0 Hc Hs0; simpl; [by apply wp_ret|].
  wp_step. destruct (decide (P x)) as [Hx|Hx].
  - wp_step. apply IH; auto. intros y Hy. apply Hm. by right.
  - eapply wp_queue; [exact Hs0 | | eauto with oracle |].
    + destruct Hc as (_ & -> & _). apply Hm; [left | done].
    + intros c1 Hc1 Hs1. apply IH; [| by etrans | done]. intros y Hy. apply Hm. by right.
Qed.

Lemma wp_queue_each {A} (l : list A) (mk : A -> message) c o g (Q : unit -> Cluster -> Prop) :
  St c o g -> (forall x, x ∈ l -> MsgOk o g (campaigns c) (mk x)) ->
  (forall c', core_eq c c' -> St c' o g -> Q tt c') ->
  wp (for_each l (fun x => queue (mk x))) Q Inv c.
Proof.
  intros HS Hm HQ. pose proof (wp_queue_all l mk (fun _ => False) c o g Q HS) as H. apply H; auto.
Qed.

(** The voters of a selected campaign. *)
Lemma quorum_voters c o g b cp :
  I c o g -> campaigns c !! b = Some cp -> c_selected cp = true ->
  exists peer, c_quorum cp = Some [c_node cp; peer] /\ c_node cp < 3 /\ peer < 3.
Proof.
  intros HI Hcp Hsel. pose proof (i_camp _ _ _ HI _ _ Hcp) as (Hn & _ & Hx). rewrite Hsel in Hx.
  destruct Hx as (peer & s0 & v0 & Hq & _ & Hse & _). exists peer. split_and!; auto. apply Hse.
Qed.

Lemma wp_begin b pre value act rd c o g (Q : unit -> Cluster -> Prop) :
  St c o g ->
  (forall cp v, campaigns c !! b = Some cp -> voters c !! c_node cp = Some v -> c_round cp = None ->
    promise v = b -> Opening c o g b cp pre value act rd) ->
  (forall c', Inv c' -> Q tt c') ->
  wp (begin b pre value act rd) Q Inv c.
Proof.
  intros HS Hop HQ. unfold begin. wp_step. apply wp_campaign; [|eauto with oracle]. intros cp Hcp.
  wp_step. apply wp_voter; [|eauto with oracle]. intros v Hv.
  wp_step. apply wp_need; [|eauto with oracle]. intros Hneed. bool_tac.
  assert (Hrnd : c_round cp = None) by (destruct (c_round cp); [exfalso; eauto | done]).
  specialize (Hop _ _ Hcp Hv Hrnd). match goal with H : promise v = b |- _ => specialize (Hop H) end.
  wp_step. apply wp_set_campaign. pose proof (St_begin _ _ _ _ _ _ _ _ _ HS Hop) as HS1.
  destruct HS as [_ HI]. destruct (quorum_voters _ _ _ _ _ HI Hcp (op_selected _ _ _ _ _ _ _ _ _ Hop))
    as (peer & Hq & Hn & Hp).
  wp_step. rewrite Hq. simpl. eapply wp_queue_each; [exact HS1| |eauto with oracle].
  intros n Hin. split; simpl; [set_solver|].
  eexists. split; [by rewrite lookup_alter_eq, Hcp|]. split; [apply Hop | left].
Qed.

(** Proposing a client value or a barrier at the slot after the leader's prefix. *)
Lemma wp_begin_next b v value act c o g cp s0 v0 (Q : unit -> Cluster -> Prop) :
  St c o g -> campaigns c !! b = Some cp -> (b, s0, v0) ∈ g -> voters c !! c_node cp = Some v ->
  (forall c', Inv c' -> Q tt c') -> wp (begin b (prefix v) value act None) Q Inv c.
Proof.
  intros HS Hcp Hg Hv HQ. eapply wp_begin; [exact HS| |done].
  intros cp' v' Hcp' Hv' Hrnd _. simplify_eq. destruct HS as [_ HI].
  by eapply next_opening.
Qed.

(** ** Client calls *)

Lemma wp_start_campaign p b c : Inv c -> wp (start_campaign p b) (fun _ => Inv) Inv c.
Proof.
  intros HInv. unfold start_campaign. wp_step.
  assert (Hepoch : wp (bind (voter p) (fun v => liftr (next_epoch (promise v) p)))
    (fun _ c' => c' = c) Inv c).
  { wp_step. apply wp_voter; [|done]. intros v _. by apply wp_liftr. }
  apply (wp_mono _ (fun _ c' => c' = c) _ Inv); [|clear Hepoch; intros b' c' ->|done].
  { destruct b as [b|]; [destruct (b =? 0)%Z|]; [done | by apply wp_ret | done]. }
  do 2 wp_step. wp_step. apply wp_need; [|done]. intros Hneed. bool_tac.
  match goal with H : campaigns c !! b' = None |- _ => rename H into Hnone end.
  destruct HInv as (o & g & HS).
  wp_step. eapply wp_prepare; [exact HS | by intros cp; rewrite Hnone |].
  intros e c1 o1 HS1 Hc1 HG Hnode Hpub. wp_step. apply wp_modify.
  set (cp := Campaign p {[p := e]} false false false None None).
  assert (HS2 : St (with_campaigns (insert b' cp) c1) o1 g).
  { rewrite <- Hc1 in Hnone. subst p. eapply St_new_campaign; eauto. }
  wp_step. apply (wp_queue_all [0; 1; 2] (fun peer => Message peer b' (MPrepare p)) (fun peer => peer = p)
    _ _ _ _ HS2).
  - intros x Hx Hxp. split; simpl; [set_solver|]. exists cp. by rewrite lookup_insert_eq.
  - intros c2 _ HS3. wp_step. eauto with oracle.
Qed.

Lemma wp_submit b v c : Inv c -> wp (submit b v) (fun _ => Inv) Inv c.
Proof.
  intros HInv. pose proof HInv as (o & g & HS). unfold submit. wp_step. apply wp_campaign; [|done]. intros cp Hcp.
  wp_step. apply wp_need; [|done]. intros Hrdy. wp_step. apply wp_voter; [|done]. intros vt Hv.
  destruct HS as [Hr HI]. destruct (i_ready _ _ _ HI _ _ Hcp Hrdy) as (s0 & v0 & Hg).
  by eapply (wp_begin_next b vt v false c o g cp).
Qed.

Lemma wp_read b rid c : Inv c -> wp (read b rid) (fun _ => Inv) Inv c.
Proof.
  intros HInv. pose proof HInv as (o & g & HS). unfold read. wp_step. apply wp_campaign; [|done]. intros cp Hcp.
  do 2 wp_step. wp_step. apply wp_need; [|done]. intros Hneed. bool_tac.
  match goal with H : reads c !! rid = None |- _ => rename H into Hnone end.
  wp_step. apply wp_modify. pose proof HS as [_ HI].
  destruct (i_camp _ _ _ HI _ _ Hcp) as (Hn & _). pose proof (i_sync _ _ _ HI) as [Hlen _].
  destruct (lookup_lt_is_Some_2 (voters c) (c_node cp)) as [v Hv]; [lia|].
  pose proof (St_read_invoke _ _ _ _ _ _ _ HS Hcp Hnone Hv) as HS1. cbv zeta in HS1.
  wp_step. eapply wp_voter_row; [exact Hv|]. wp_step. eapply wp_voter_some; [exact Hv|].
  eapply wp_begin; [exact HS1| |done].
  intros cp' v' Hcp' Hv' Hrnd _. simpl in Hcp', Hv'. simplify_eq.
  destruct (i_ready _ _ _ HI _ _ Hcp) as (s0 & v0 & Hg); [done|].
  eapply next_opening; try done; [apply HS1|].
  intros rid' [= <-]. simpl. rewrite !lookup_insert_eq. split; [done|]. eexists. split_and!; [done..|].
  intros i w Hin. simpl in Hin.
  destruct (decide (i < S (length (prefix v)))) as [|Hge]; [by left | right].
  destruct (oi_acked _ _ _ (i_oracle _ _ _ HI) _ _ Hin) as (_ & _ & Hq).
  eapply quorum_mono; [|exact Hq]. intros n Hl. cbn beta in *. split.
  { change (published_of (set_reads _ _)) with (published_of o). lia. }
  intros w' Hvote. change (Vote o n b (S (length (prefix v))) w') in Hvote.
  apply (i_votes _ _ _ HI) in Hvote. destruct (i_prop _ _ _ HI _ _ _ Hvote) as (cp' & Hcp' & _ & _ & Hb).
  simplify_eq. rewrite Hrnd in Hb. pose proof (i_sync _ _ _ HI) as [_ Hs].
  destruct (Hs _ _ Hv) as (_ & Hpub & _). rewrite Hpub in Hb. lia.
Qed.

Lemma wp_finish_read rid c : Inv c -> wp (finish_read rid) (fun _ => Inv) Inv c.
Proof.
  intros HInv. pose proof HInv as (o & g & HS). unfold finish_read. do 2 wp_step.
  wp_step. apply wp_liftr; [|done]. intros b Hb. wp_step. apply wp_campaign; [|done]. intros cp Hcp.
  wp_step. apply wp_need; [|done]. intros _. wp_step. apply wp_liftr; [|done]. intros view Hview.
  assert (Hpin : pins c !! rid = Some view) by (by destruct (pins c !! rid); simplify_eq/=).
  pose proof HS as [_ HI].
  destruct (i_camp _ _ _ HI _ _ Hcp) as (Hn & _). pose proof (i_sync _ _ _ HI) as [Hlen _].
  destruct (lookup_lt_is_Some_2 (voters c) (c_node cp)) as [v Hv]; [lia|].
  wp_step. apply wp_modify. wp_step. eapply wp_voter_row; [exact Hv|].
  eapply wp_account; [by eapply St_read_result | | eauto with oracle].
  right. right. simpl. pose proof (i_limit _ _ _ HI) as HL. unfold LimitOk in HL.
  destruct (Z.leb_spec 0 (queue_limit c)); [done|]. destruct HL as [_ HL]. by rewrite HL in Hpin.
Qed.

(** ** Message handlers *)

Lemma wp_on_prepare n b c o g p :
  St c o g -> MsgOk o g (campaigns c) (Message n b (MPrepare p)) ->
  wp (on_prepare n b) (fun _ => Inv) Inv c.
Proof.
  intros HS (_ & cp & Hcp & Hne). simpl in *. unfold on_prepare. wp_step.
  eapply wp_prepare; [exact HS | |]. { intros cp' Hcp'. by simplify_eq. }
  intros e c1 o1 HS1 Hc1 HG Hnode Hpub. wp_step.
  eapply wp_campaign_some; [by rewrite Hc1|]. eapply wp_queue; [exact HS1 | | eauto with oracle..].
  split; simpl.
  - destruct HS1 as [_ HI]. rewrite <- Hc1 in Hcp. by apply (i_camp _ _ _ HI _ _ Hcp).
  - exists cp. rewrite Hc1. split_and!; [done..|]. congruence.
Qed.

Lemma wp_select b e c o g cp :
  St c o g -> campaigns c !! b = Some cp -> GoodBasis o b e -> st_node e <> c_node cp ->
  wp (select b e) (fun _ => Inv) Inv c.
Proof.
  intros HS Hcp HG Hne. unfold select. wp_step. eapply wp_campaign_some; [exact Hcp|].
  wp_step. apply wp_voter; [|eauto with oracle]. intros v Hv.
  wp_step. apply wp_need; [|eauto with oracle]. intros Hneed. bool_tac.
  wp_step. apply wp_set_campaign.
  assert (HS1 : St (with_campaigns (alter (c_add_basis (st_node e) e) b) c) o g) by (by eapply St_add_basis).
  assert (Hcp1 : alter (c_add_basis (st_node e) e) b (campaigns c) !! b = Some (c_add_basis (st_node e) e cp)).
  { by rewrite lookup_alter_eq, Hcp. }
  wp_step. eapply wp_campaign_some; [exact Hcp1|]. simpl.
  wp_step. apply wp_liftr; [|eauto with oracle]. intros own Hown.
  wp_step. apply wp_liftr; [|eauto with oracle]. intros [pre value] Hsel. simpl.
  assert (Hown' : <[st_node e := e]> (c_bases cp) !! c_node cp = Some own).
  { by destruct (<[st_node e := e]> (c_bases cp) !! c_node cp); simplify_eq/=. }
  destruct (St_select _ o g b (c_add_basis (st_node e) e cp) own e pre value HS1 Hcp1)
    as (o' & HS2 & Hpr & Hop); [done..|].
  wp_step. apply wp_set_campaign. wp_step. apply wp_cluster_row.
  eapply wp_begin; [exact HS2 | | auto]. intros cp' v' Hcp' _ _ _.
  pose proof (op_campaign _ _ _ _ _ _ _ _ _ Hop) as Hop'.
  assert (cp' = c_select [c_node cp; st_node e] (c_add_basis (st_node e) e cp)) as ->; [|exact Hop].
  apply (inj Some). etrans; [symmetry; exact Hcp' | exact Hop'].
Qed.

Lemma wp_on_promise n b e c o g :
  St c o g -> MsgOk o g (campaigns c) (Message n b (MPromise e)) ->
  wp (on_promise b e) (fun _ => Inv) Inv c.
Proof.
  intros HS (_ & cp & Hcp & _ & HG & Hne). simpl in *. unfold on_promise. wp_step.
  eapply wp_campaign_some; [exact Hcp|]. destruct (c_selected cp); [wp_step; eauto with oracle|].
  by eapply wp_select.
Qed.

Lemma wp_on_accept n b pre value c o g :
  St c o g -> MsgOk o g (campaigns c) (Message n b (MAccept pre value)) ->
  wp (on_accept n b pre value) (fun _ => Inv) Inv c.
Proof.
  intros HS (_ & cp & Hcp & Hpc & Hg). simpl in *. unfold on_accept.
  wp_step. apply wp_voter; [|eauto with oracle]. intros v Hv.
  wp_step. apply wp_need; [|eauto with oracle]. intros Hb%Z.eqb_eq.
  wp_step. apply wp_need; [|eauto with oracle]. intros Hpre%is_prefix_spec.
  wp_step.
  apply (wp_mono _ (fun _ c1 => exists o1 v1, St c1 o1 g /\ campaigns c1 = campaigns c /\
    voters c1 !! n = Some v1 /\ promise v1 = b /\ prefix v1 = pre) _ Inv); [|clear HS|done].
  { case_decide as Heq; [wp_step; subst; eauto 10|]. wp_step. apply wp_set_voter.
    assert (Hv1 : alter (v_prefix pre) n (voters c) !! n = Some (v_prefix pre v)).
    { by rewrite list_lookup_alter_eq, Hv. }
    eapply wp_voter_row; [exact Hv1|].
    eexists _, (v_prefix pre v). split_and!; [exact (St_install c o g n v b pre value HS Hv Hb Hpre Hpc Hg) | done..]. }
  intros [] c1 (o1 & v1 & HS1 & Hc1 & Hv1 & Hb1 & Hp1).
  wp_step. eapply wp_voter_some; [exact Hv1|].
  wp_step. apply wp_need; [|eauto with oracle]. intros Hold.
  wp_step. apply wp_need; [|eauto with oracle]. intros _.
  wp_step. apply wp_set_voter. wp_step. apply wp_identity.
  assert (Hv2 : alter (v_accept (S (length pre)) (b, value)) n (voters c1) !! n =
    Some (v_accept (S (length pre)) (b, value) v1)).
  { by rewrite list_lookup_alter_eq, Hv1. }
  wp_step. eapply wp_stamped_row; [exact Hv2|]. wp_step. eapply wp_campaign_some; [by rewrite <- Hc1 in Hcp|].
  rewrite <- Hp1 in *.
  destruct (St_accept c1 o1 g n v1 b (S (length (prefix v1))) value HS1 Hv1) as [HS2 Hforce]; auto.
  { destruct (accepted v1 !! S (length (prefix v1))) as [old|]; [|done].
    apply orb_true_iff in Hold as [Hold%Z.ltb_lt | Hold%bool_decide_eq_true]; auto. }
  eapply wp_queue; [exact HS2 | | eauto with oracle..].
  assert (Hn : c_node cp < 3).
  { destruct HS1 as [_ HI]. rewrite <- Hc1 in Hcp. by apply (i_camp _ _ _ HI _ _ Hcp). }
  split; [exact Hn|]. exists cp. split; [by rewrite <- Hc1 in Hcp|]. split; [done|]. exact Hforce.
Qed.

Lemma matching_round_spec r e r' :
  of_option (matching_round r e) (Rejected "stale receipt") = Ok r' \/
  of_option (matching_round r e) (Rejected "stale proof receipt") = Ok r' ->
  r = Some r' /\ r_slot r' = fd_slot (st_data e) /\ r_value r' = fd_value (st_data e).
Proof.
  unfold matching_round. destruct r as [r|]; simpl; [|naive_solver].
  case_decide; simpl; naive_solver.
Qed.

(** A dictionary keyed by distinct voters that holds two entries. *)
Lemma two_entries {A} (d : list (nat * A)) : length d = 2 -> exists n1 i1 n2 i2, d = [(n1, i1); (n2, i2)].
Proof. destruct d as [|[n1 i1] [|[n2 i2] [|]]]; simpl; try done. intros _. eauto. Qed.

Lemma wp_on_accepted n b e c o g :
  St c o g -> MsgOk o g (campaigns c) (Message n b (MAccepted e)) ->
  wp (on_accepted n b e) (fun _ => Inv) Inv c.
Proof.
  intros HS (_ & cp & Hcp & Hnode & Hforce). simpl in *. unfold on_accepted.
  wp_step. apply wp_voter; [|eauto with oracle]. intros v Hv.
  wp_step. apply wp_need; [|eauto with oracle]. intros Hb%Z.eqb_eq.
  wp_step. eapply wp_campaign_some; [exact Hcp|].
  wp_step. apply wp_liftr; [|eauto with oracle]. intros r Hr.
  destruct (matching_round_spec _ _ _ (or_introl Hr)) as (Hcr & Hslot & Hvalue).
  wp_step. apply wp_set_campaign. set (r1 := r_add_accept (st_node e) (fd_id (st_data e)) r).
  assert (HS1 : St (with_campaigns (alter (c_set_round (Some r1)) b) c) o g).
  { eapply St_round; try done. intros peer _ [H1 H2 H3 H4 H5 H6 H7 H8 H9]. split; auto; simpl.
    - intros m i [Heq|Hin]%assoc_set_elem; [|auto]. simplify_eq. by rewrite Hslot, Hvalue.
    - by apply assoc_set_NoDup. }
  assert (Hcp1 : alter (c_set_round (Some r1)) b (campaigns c) !! b = Some (c_set_round (Some r1) cp)).
  { by rewrite lookup_alter_eq, Hcp. }
  case_decide as Hdec; [|wp_step; eauto with oracle]. destruct Hdec as [Hlen Hnone].
  destruct (two_entries _ Hlen) as (n1 & i1 & n2 & i2 & Hacc).
  destruct (St_quorum _ _ _ _ _ _ _ _ _ _ HS1 Hcp1 eq_refl Hacc Hnone) as [HS2 Hpf].
  wp_step. apply wp_identity. wp_step. apply wp_cluster_row. wp_step. apply wp_set_campaign.
  rewrite Hacc. simpl.
  assert (Hcp2 : alter (c_set_round (Some (r_set_proof (Identity "proof" (S (serial c))) r1))) b
    (alter (c_set_round (Some r1)) b (campaigns c)) !! b =
    Some (c_set_round (Some (r_set_proof (Identity "proof" (S (serial c))) r1)) (c_set_round (Some r1) cp))).
  { by rewrite lookup_alter_eq, Hcp1. }
  assert (Hsel : c_selected cp = true).
  { destruct HS as [_ HI]. pose proof (i_camp _ _ _ HI _ _ Hcp) as (_ & _ & Hx).
    destruct (c_selected cp); [done|]. destruct Hx as [_ ?]. congruence. }
  destruct (quorum_voters _ _ _ _ _ (proj2 HS) Hcp Hsel) as (peer & Hq & Hn & Hp).
  wp_step. rewrite Hq. simpl. eapply wp_queue_each; [exact HS2 | | eauto with oracle].
  intros m Hm. split; [simpl; set_solver|]. eexists. split; [exact Hcp2|]. split; [by eexists|].
  exists peer. split; [exact Hq|]. simpl. set_solver.
Qed.

Lemma wp_on_proof n b p s w c o g :
  St c o g -> MsgOk o g (campaigns c) (Message n b (MProof p s w)) ->
  wp (on_proof n b p s w) (fun _ => Inv) Inv c.
Proof.
  intros HS (_ & cp & Hcp & (pos & Hpf) & peer & Hq & Hn). simpl in *. unfold on_proof.
  wp_step. apply wp_voter; [|eauto with oracle]. intros v Hv.
  wp_step. apply wp_need; [|eauto with oracle]. intros Hb%Z.eqb_eq.
  wp_step. apply wp_need; [|eauto with oracle]. intros [Hacc%bool_decide_eq_true Hslot%Nat.eqb_eq]%andb_true_iff.
  wp_step. apply wp_set_voter. wp_step. apply wp_identity.
  assert (Hv1 : alter (v_prefix (prefix v ++ [w])) n (voters c) !! n = Some (v_prefix (prefix v ++ [w]) v)).
  { by rewrite list_lookup_alter_eq, Hv. }
  wp_step. eapply (wp_stamped_row (fun d => VProofForce d p)); [exact Hv1|].
  wp_step. eapply wp_campaign_some; [exact Hcp|].
  destruct (St_proof c o g n v b s w p pos HS Hv Hb Hslot Hacc Hpf) as [HS1 Hforce].
  eapply wp_queue; [exact HS1 | | eauto with oracle..].
  assert (Hnode : c_node cp < 3) by apply (i_camp _ _ _ (proj2 HS) _ _ Hcp).
  split; [done|]. exists cp. split; [exact Hcp|]. split; [done|]. split; [exact Hforce|].
  exists peer. split; [done|]. exact Hn.
Qed.

Lemma wp_on_proven n b e c o g :
  St c o g -> MsgOk o g (campaigns c) (Message n b (MProven e)) -> (0 <= queue_limit c)%Z ->
  wp (on_proven n b e) (fun _ => Inv) Inv c.
Proof.
  intros HS (_ & cp & Hcp & Hnode & Hforce & peer & Hq & He) Hql. simpl in *. unfold on_proven.
  wp_step. apply wp_voter; [|eauto with oracle]. intros v Hv.
  wp_step. apply wp_need; [|eauto with oracle]. intros Hb%Z.eqb_eq.
  wp_step. eapply wp_campaign_some; [exact Hcp|].
  wp_step. apply wp_liftr; [|eauto with oracle]. intros r Hr.
  destruct (matching_round_spec _ _ _ (or_intror Hr)) as (Hcr & Hslot & Hvalue).
  wp_step. apply wp_set_campaign. set (r1 := r_add_proof (st_node e) (fd_id (st_data e)) r).
  assert (HS1 : St (with_campaigns (alter (c_set_round (Some r1)) b) c) o g).
  { eapply St_round; try done. intros peer' Hq' [H1 H2 H3 H4 H5 H6 H7 H8 H9]. split; auto; simpl.
    - intros m i [Heq|Hin]%assoc_set_elem; [|auto]. simplify_eq. rewrite Hslot, Hvalue. auto.
    - by apply assoc_set_NoDup. }
  set (cp1 := c_set_round (Some r1) cp).
  assert (Hcp1 : alter (c_set_round (Some r1)) b (campaigns c) !! b = Some cp1).
  { by rewrite lookup_alter_eq, Hcp. }
  case_decide as Hlen; [|wp_step; eauto with oracle].
  destruct (two_entries _ Hlen) as (n1 & i1 & n2 & i2 & Hpf). rewrite Hpf. subst n.
  pose proof (St_success _ _ _ _ cp1 r1 _ _ _ _ v HS1 Hcp1 eq_refl Hpf Hv Hb) as HS2. cbv zeta in HS2.
  set (o2 := set_acknowledged _ _) in *.
  destruct (leader_proved _ _ _ _ cp1 r1 _ _ _ _ (proj2 HS2) Hcp1 eq_refl Hpf) as (_ & _ & _ & _ & _ & _ & Hpub).
  assert (Hpin : forall rid, r_read r = Some rid -> exists p, r_proof r = Some p /\
    Pinnable o2 b (c_node cp) (r_slot r) (r_value r) rid p).
  { intros rid Hrid. apply (read_pinnable _ _ _ _ cp1 r1 _ _ _ _ _ (proj2 HS2) Hcp1 eq_refl Hpf); [|done].
    pose proof (i_sync _ _ _ (proj2 HS2)) as [_ Hs]. destruct (Hs _ _ Hv) as (Hp & _). by rewrite <- Hb. }
  assert (Hg : (b, r_slot r, r_value r) ∈ g) by (by apply (i_rounds _ _ _ (proj2 HS) _ _ _ Hcp Hcr)).
  assert (Hact : r_activation r = true -> r_read r = None).
  { pose proof (i_camp _ _ _ (proj2 HS) _ _ Hcp) as (_ & _ & Hx). destruct (c_selected cp).
    - destruct Hx as (q & _ & _ & _ & _ & _ & Hro). apply (Hro _ Hcr).
    - destruct Hx as [_ ?]. congruence. }
  pose proof (St_close _ _ _ _ cp1 r1 HS2 Hcp1 eq_refl Hpub) as HS3.
  wp_step. eapply wp_voter_row; [exact Hv|]. wp_step. apply wp_set_campaign. wp_step.
  assert (Hcp3 : alter (c_set_round None) b (alter (c_set_round (Some r1)) b (campaigns c)) !! b =
    Some (c_set_round None cp1)).
  { by rewrite lookup_alter_eq, Hcp1. }
  cbn [r1 r_add_proof r_activation r_read r_value r_slot r_proof].
  destruct (r_activation r) eqn:Ha.
  - rewrite (Hact eq_refl). case_decide as Hnoop.
    + apply wp_set_campaign. wp_step. exists o2, g. by eapply St_ready.
    + wp_step. eapply wp_voter_some; [exact Hv|].
      eapply (wp_begin_next b v _ true _ o2 g (c_set_round None cp1)); [exact HS3 | exact Hcp3 | exact Hg | exact Hv |].
      intros c' Hc'. by wp_step.
  - wp_step. destruct (r_read r) as [rid|] eqn:Hrid; [|wp_step; by exists o2, g].
    destruct (Hpin _ eq_refl) as (p & -> & HP).
    do 2 wp_step. wp_step. apply wp_need; [|by exists o2, g]. intros Hsize%Nat.ltb_lt.
    wp_step. eapply wp_voter_some; [exact Hv|]. wp_step. apply wp_modify.
    destruct (St_read_pin _ _ _ b (c_node cp) v (r_slot r) (r_value r) rid p HS3 Hv Hb HP) as (o4 & HS4); [|done..|].
    { apply elem_of_union_l, elem_of_singleton. done. }
    wp_step. eapply wp_voter_row; [exact Hv|].
    eapply wp_account; [exact HS4 | by right; right | eauto with oracle].
Qed.

Lemma wp_handle m c o g :
  St c o g -> MsgOk o g (campaigns c) m -> (0 <= queue_limit c)%Z ->
  wp (handle m) (fun _ => Inv) Inv c.
Proof.
  intros HS HM Hql. unfold handle. wp_step. apply wp_voter; [|eauto with oracle]. intros v Hv.
  wp_step. apply wp_need; [|eauto with oracle]. intros _.
  wp_step. apply wp_campaign; [|eauto with oracle]. intros cp Hcp. wp_step.
  apply (wp_mono _ (fun _ c' => c' = c) _ Inv); [|intros [] c' ->|done].
  { destruct (is_reply (m_body m)); [apply wp_need; [done | eauto with oracle] | by wp_step]. }
  destruct m as [n b body]. simpl in *. destruct body.
  - by eapply wp_on_prepare.
  - by eapply wp_on_promise.
  - by eapply wp_on_accept.
  - by eapply wp_on_accepted.
  - by eapply wp_on_proof.
  - by eapply wp_on_proven.
Qed.

(** ** Deliveries, losses, duplicates, restarts *)

(** A row that the oracle ignores. *)
Lemma wp_quiet_row d n c (Q : unit -> Cluster -> Prop) :
  Inv c -> (forall o p g, step_voter o p p n g d = Ok o) -> (forall c', Inv c' -> Q tt c') ->
  wp (voter_row d n) Q Inv c.
Proof.
  intros HInv Hd HQ. pose proof HInv as (o & g & HS). destruct (voters c !! n) as [v|] eqn:Hv.
  - eapply wp_voter_row; [exact Hv|]. apply HQ. exists o, g. by apply St_quiet_row.
  - unfold voter_row, stamped_row. do 2 wp_step. apply wp_voter; [|done]. intros v. by rewrite Hv.
Qed.

(** A queue that holds a message has room for one. *)
Lemma queue_limit_nonneg c o g m : I c o g -> m ∈ messages c -> (0 <= queue_limit c)%Z.
Proof.
  intros HI Hm. pose proof (i_limit _ _ _ HI) as HL. unfold LimitOk in HL.
  destruct (Z.leb_spec 0 (queue_limit c)); [done|]. destruct HL as [HL _]. rewrite HL in Hm. by apply elem_of_nil in Hm.
Qed.

Lemma wp_pop_message p c (Q : message -> Cluster -> Prop) :
  Inv c ->
  (forall m o g, messages c !! p = Some m -> St c o g -> St (with_messages (delete p) c) o g ->
    (0 <= queue_limit c)%Z -> Q m (with_messages (delete p) c)) ->
  wp (pop_message p) Q Inv c.
Proof.
  intros HInv HQ. pose proof HInv as (o & g & HS). unfold pop_message. do 2 wp_step. wp_step.
  apply wp_liftr; [|done]. intros m Hm.
  assert (Hmp : messages c !! p = Some m) by (by destruct (messages c !! p); simplify_eq/=).
  wp_step. apply wp_modify. wp_step. eapply HQ; eauto using St_pop.
  eapply queue_limit_nonneg; [apply HS | by eapply list_elem_of_lookup_2].
Qed.

Lemma wp_deliver p c : Inv c -> wp (deliver p) (fun _ => Inv) Inv c.
Proof.
  intros HInv. unfold deliver. wp_step. apply wp_pop_message; [done|]. intros m o g Hm HS HS1 Hql.
  assert (HM : MsgOk o g (campaigns c) m) by (apply (i_msgs _ _ _ (proj2 HS)); by eapply list_elem_of_lookup_2).
  wp_step. eapply wp_account; [exact HS1 | by right; right |]. intros b HS2.
  wp_step. apply wp_voter; [|eauto with oracle]. intros v Hv.
  wp_step. apply wp_campaign; [|eauto with oracle]. intros cp Hcp.
  wp_step. apply wp_except.
  - eapply wp_mono; [by eapply wp_handle | | done]. intros [] c' Hc'. by wp_step.
  - intros msg c' Hc'. apply wp_quiet_row; [done..|]. intros c'' Hc''. by wp_step.
Qed.

Lemma wp_drain_loop fuel c : Inv c -> wp (drain_loop fuel) (fun _ => Inv) Inv c.
Proof.
  revert c. induction fuel as [|fuel IH]; intros c HInv; simpl; do 2 wp_step.
  all: destruct (messages c); [by wp_step|]; wp_step.
  all: eapply wp_mono; [by apply wp_deliver | intros m' c' Hc' | done].
  - by wp_step.
  - destruct fuel; [by wp_step | by apply IH].
Qed.

Lemma wp_drop p c : Inv c -> wp (drop_message p) (fun _ => Inv) Inv c.
Proof.
  intros HInv. unfold drop_message. wp_step. apply wp_pop_message; [done|]. intros m o g Hm HS HS1 Hql.
  wp_step. apply wp_cluster_row. eapply wp_account; [by apply St_log | by right; right | eauto with oracle].
Qed.

Lemma wp_duplicate p c : Inv c -> wp (duplicate p) (fun _ => Inv) Inv c.
Proof.
  intros HInv. pose proof HInv as (o & g & HS). unfold duplicate. do 2 wp_step. wp_step.
  apply wp_liftr; [|done]. intros m Hm.
  assert (Hmp : messages c !! p = Some m) by (by destruct (messages c !! p); simplify_eq/=).
  wp_step. eapply wp_queue; [exact HS | | done |].
  { apply (i_msgs _ _ _ (proj2 HS)). by eapply list_elem_of_lookup_2. }
  intros c' _ HS1. apply wp_cluster_row. exists o, g. by apply St_log.
Qed.

Lemma wp_restart n lost c : Inv c -> wp (restart n lost) (fun _ => Inv) Inv c.
Proof.
  intros HInv. pose proof HInv as (o & g & HS). unfold restart. wp_step. apply wp_voter; [|done]. intros v Hv.
  wp_step. eapply wp_voter_row; [exact Hv|]. wp_step. apply wp_set_voter.
  pose proof (St_restart _ _ _ _ _ HS Hv) as HS1. set (c1 := with_voters _ _) in *.
  assert (Hv1 : is_Some (voters c1 !! n)) by (simpl; rewrite list_lookup_alter_eq, Hv; by eexists).
  wp_step. apply (wp_mono _ (fun _ => Inv) _ Inv); [|intros [] c' (o' & g' & HS')|done].
  - destruct lost; [|wp_step; eauto with oracle]. wp_step. apply wp_set_voter.
    apply wp_quiet_row; [|done..]. exists (set_generations (<[n := S (generation_of o n)]> (o_generations o)) o), g. by apply St_voter_quiet.
  - wp_step. apply wp_modify. apply wp_set_voter. exists o', g'. apply St_voter_quiet; [|done]. by apply St_retire.
Qed.

Lemma wp_checkpoint n c : Inv c -> wp (checkpoint n) (fun _ => Inv) Inv c.
Proof.
  intros HInv. unfold checkpoint. wp_step. apply wp_voter; [|done]. intros v Hv.
  wp_step. apply wp_need; [|done]. intros _. by apply wp_quiet_row.
Qed.

(** ** Every call, every run *)

Lemma wp_perform k c : Inv c -> wp (perform k) (fun _ => Inv) Inv c.
Proof.
  intros HInv. destruct k; simpl; try wp_step.
  - eapply wp_mono; [by apply wp_start_campaign | | done]. intros b c' Hc'. by wp_step.
  - by apply wp_submit.
  - by apply wp_read.
  - by apply wp_finish_read.
  - eapply wp_mono; [by apply wp_deliver | | done]. intros m c' Hc'. by wp_step.
  - by apply wp_drain_loop.
  - by apply wp_drop.
  - by apply wp_duplicate.
  - by apply wp_restart.
  - by apply wp_checkpoint.
Qed.

Lemma Inv_perform k c : Inv c -> Inv (snd (perform k c)).
Proof. intros H. pose proof (wp_perform k c H) as Hw. unfold wp in Hw. by destruct (perform k c) as [[] c']. Qed.

Lemma Inv_run ks c : Inv c -> Inv (run_calls c ks).
Proof. revert c. induction ks as [|k ks IH]; intros c Hc; [done|]. by apply IH, Inv_perform. Qed.

Lemma Inv_init ql pl : Inv (init ql pl).
Proof. exists oracle0, []. split; [done|]. apply I_init. Qed.

Lemma Inv_reach ql pl ks : Inv (run_calls (init ql pl) ks).
Proof. apply Inv_run, Inv_init. Qed.
