(* ===== verification/ClusterVoters.v ===== *)
(** * How a voter of the V5.1 protocol changes

    Durable state only grows, whatever call is made: promises and accepted ballots rise, proven
    prefixes are extended, generations count restarts; a voter whose disk was lost is frozen. *)

From stdpp Require Import base gmap sets strings list pretty.
From S2P Require Import Prelude ProtocolEvents Cluster History ClusterInvariant ClusterAtoms.

(** ** Calls that keep a relation between the states before and after *)

Definition keeps {A} (R : Cluster -> Cluster -> Prop) (m : M A) : Prop := forall c, R c (snd (m c)).

Section keeps.
Context (R : Cluster -> Cluster -> Prop) `{!Reflexive R, !Transitive R}.

Lemma keeps_bind {A B} (m : M A) (k : A -> M B) :
  keeps R m -> (forall a, keeps R (k a)) -> keeps R (bind m k).
Proof using Transitive0.
  intros Hm Hk c. unfold bind. specialize (Hm c). destruct (m c) as [[a|e] c1]; simpl in *; [|done].
  etrans; [exact Hm | apply Hk].
Qed.

Lemma keeps_ret {A} (a : A) : keeps R (ret a : M A).
Proof using Reflexive0. by intros c. Qed.

Lemma keeps_get : keeps R (get : M Cluster).
Proof using Reflexive0. by intros c. Qed.

Lemma keeps_liftr {A} (r : result A) : keeps R (liftr r : M A).
Proof using Reflexive0. by intros c. Qed.

Lemma keeps_need b msg : keeps R (need b msg).
Proof using Reflexive0. apply keeps_liftr. Qed.

Lemma keeps_voter n : keeps R (voter n).
Proof using Reflexive0 Transitive0. apply keeps_bind; [apply keeps_get | intros; apply keeps_liftr]. Qed.

Lemma keeps_campaign_at b : keeps R (campaign_at b).
Proof using Reflexive0 Transitive0. apply keeps_bind; [apply keeps_get | intros; apply keeps_liftr]. Qed.

Lemma keeps_for_each {A} (l : list A) body : (forall x, keeps R (body x)) -> keeps R (for_each l body).
Proof using Reflexive0 Transitive0.
  intros Hb. induction l as [|x l IH]; simpl; [apply keeps_ret | by apply keeps_bind].
Qed.

Lemma keeps_except m h : keeps R m -> (forall msg, keeps R (h msg)) -> keeps R (except_rejected m h).
Proof using Transitive0.
  intros Hm Hh c. specialize (Hm c). unfold except_rejected.
  destruct (m c) as [[[]|e] c1]; simpl in *; [done|]. destruct e; simpl in *; try done.
  etrans; [exact Hm | apply Hh].
Qed.

Lemma keeps_wp {A} (m : M A) c0 c : keeps R m -> R c0 c -> wp m (fun _ c' => R c0 c') (R c0) c.
Proof using Transitive0.
  intros Hm Hc. unfold wp. specialize (Hm c). destruct (m c) as [[a|e] c1]; simpl in *; by etrans.
Qed.

Lemma wp_keeps {A} (m : M A) :
  (forall c, wp m (fun _ c' => R c c') (R c) c) -> keeps R m.
Proof using Type. intros H c. specialize (H c). unfold wp in H. by destruct (m c) as [[a|e] c1]. Qed.
End keeps.

#[export] Hint Resolve keeps_ret keeps_get keeps_liftr keeps_need keeps_voter keeps_campaign_at : keeps.

(** ** Growth of the voters *)

Record voter_le (v v' : Voter) : Prop := {
  vl_promise : (promise v <= promise v')%Z;
  vl_prefix : prefix v `prefix_of` prefix v';
  vl_accepted : forall s b w, accepted v !! s = Some (b, w) ->
    exists b' w', accepted v' !! s = Some (b', w') /\ (b <= b')%Z /\ (b = b' -> w = w');
  vl_generation : generation v <= generation v';
  vl_sealed : sealed v = false -> sealed v' = false /\ promise v' = promise v /\
    prefix v' = prefix v /\ accepted v' = accepted v
}.

#[export] Instance voter_le_refl : Reflexive voter_le.
Proof. intros v. split; auto; [lia|]. intros s b w H. exists b, w. split_and!; auto with zarith. Qed.
#[export] Instance voter_le_trans : Transitive voter_le.
Proof.
  intros x y z [X1 X2 X3 X4 X5] [Y1 Y2 Y3 Y4 Y5]. split; [lia | by etrans | | lia |].
  - intros s b w (b1 & w1 & Hs & Hb & Hw)%X3. apply Y3 in Hs as (b2 & w2 & Hs & Hb' & Hw').
    exists b2, w2. split_and!; [done | lia |]. intros ->. assert (b1 = b2) as -> by lia. by rewrite Hw, Hw'.
  - intros (? & ? & ? & ?)%X5. destruct Y5 as (? & ? & ? & ?); [done|]. split_and!; congruence.
Qed.

Definition grow (c c' : Cluster) : Prop :=
  length (voters c') = length (voters c) /\
  forall n v, voters c !! n = Some v -> exists v', voters c' !! n = Some v' /\ voter_le v v'.

#[export] Instance grow_refl : Reflexive grow.
Proof. intros c. split; [done|]. intros n v Hv. by exists v. Qed.
#[export] Instance grow_trans : Transitive grow.
Proof.
  intros x y z [H1 H2] [H3 H4]. split; [congruence|]. intros n v Hv.
  destruct (H2 _ _ Hv) as (v1 & Hv1 & Hle1). destruct (H4 _ _ Hv1) as (v2 & Hv2 & Hle2).
  exists v2. split; [done | by etrans].
Qed.

(** Calls that do not touch the voters at all. *)
Definition same_voters (c c' : Cluster) : Prop := voters c' = voters c.

#[export] Instance same_voters_refl : Reflexive same_voters.
Proof. by intros c. Qed.
#[export] Instance same_voters_trans : Transitive same_voters.
Proof. unfold same_voters. intros x y z. congruence. Qed.

Lemma same_grow c c' : same_voters c c' -> grow c c'.
Proof. intros H. split; [by rewrite H|]. intros n v Hv. exists v. by rewrite H. Qed.

Lemma steady_grow {A} (m : M A) : keeps same_voters m -> keeps grow m.
Proof. intros H c. by apply same_grow. Qed.

(** [steady] decomposes a call down to primitives that leave the voters alone. *)
Ltac steady :=
  repeat first
    [ solve [auto with keeps typeclass_instances]
    | progress (intros; cbv beta)
    | apply keeps_bind; [typeclasses eauto | |]
    | apply keeps_for_each; [typeclasses eauto | typeclasses eauto |]
    | match goal with |- keeps _ (match ?x with _ => _ end) => destruct x end
    | by intros ? ].

Lemma steady_modify f : (forall c, voters (f c) = voters c) -> keeps same_voters (modify f).
Proof. intros H c. apply H. Qed.

Lemma steady_set_campaign b f : keeps same_voters (set_campaign b f).
Proof. by intros c. Qed.

Lemma steady_append b : keeps same_voters (append_event b).
Proof. by intros c. Qed.
#[export] Hint Resolve steady_set_campaign steady_append : keeps.
#[export] Hint Extern 1 (keeps same_voters (modify _)) => apply steady_modify; reflexivity : keeps.

Lemma steady_cluster_row d : keeps same_voters (cluster_row d).
Proof. unfold cluster_row. steady. Qed.

Lemma steady_stamped_row {D} (mk : D -> voter_event) d n : keeps same_voters (stamped_row mk d n).
Proof. unfold stamped_row. steady. Qed.
#[export] Hint Resolve steady_cluster_row steady_stamped_row : keeps.

Lemma steady_voter_row d n : keeps same_voters (voter_row d n).
Proof. unfold voter_row. steady. Qed.

Lemma steady_identity l : keeps same_voters (identity_ l).
Proof. unfold identity_. steady. Qed.

Lemma steady_account : keeps same_voters account.
Proof. unfold account. steady. Qed.
#[export] Hint Resolve steady_voter_row steady_identity steady_account : keeps.

Lemma steady_queue m : keeps same_voters (queue m).
Proof. unfold queue. steady. Qed.
#[export] Hint Resolve steady_queue : keeps.

Lemma steady_begin b pre v a r : keeps same_voters (begin b pre v a r).
Proof. unfold begin. steady. Qed.
#[export] Hint Resolve steady_begin : keeps.

Lemma steady_select b e : keeps same_voters (select b e).
Proof. unfold select. steady. Qed.
#[export] Hint Resolve steady_select : keeps.

Lemma steady_on_promise b e : keeps same_voters (on_promise b e).
Proof. unfold on_promise. steady. Qed.

Lemma steady_on_accepted n b e : keeps same_voters (on_accepted n b e).
Proof. unfold on_accepted. steady. Qed.

Lemma steady_on_proven n b e : keeps same_voters (on_proven n b e).
Proof. unfold on_proven. steady. Qed.

Lemma steady_pop p : keeps same_voters (pop_message p).
Proof. unfold pop_message. steady. Qed.
#[export] Hint Resolve steady_on_promise steady_on_accepted steady_on_proven steady_pop : keeps.

Lemma steady_submit b v : keeps same_voters (submit b v).
Proof. unfold submit. steady. Qed.

Lemma steady_read b r : keeps same_voters (read b r).
Proof. unfold read. steady. Qed.

Lemma steady_finish r : keeps same_voters (finish_read r).
Proof. unfold finish_read. steady. Qed.

Lemma steady_drop p : keeps same_voters (drop_message p).
Proof. unfold drop_message. steady. Qed.

Lemma steady_duplicate p : keeps same_voters (duplicate p).
Proof. unfold duplicate. steady. Qed.

Lemma steady_checkpoint n : keeps same_voters (checkpoint n).
Proof. unfold checkpoint. steady. Qed.

(** ** The calls that change a voter *)

Lemma grow_set_voter n f c :
  (forall v, voters c !! n = Some v -> voter_le v (f v)) -> grow c (with_voters (alter f n) c).
Proof.
  intros Hf. split; simpl; [by rewrite length_alter|]. intros m v Hv. destruct (decide (n = m)) as [->|Hne].
  - exists (f v). rewrite list_lookup_alter_eq, Hv. split; [done | by apply Hf].
  - exists v. by rewrite list_lookup_alter_ne.
Qed.

Lemma wp_steady {A} (m : M A) c0 c :
  keeps same_voters m -> grow c0 c -> wp m (fun _ c' => grow c0 c') (grow c0) c.
Proof. intros Hm. apply keeps_wp; [typeclasses eauto | by apply steady_grow]. Qed.

Lemma grow_prepare n b : keeps grow (prepare n b).
Proof.
  apply wp_keeps. intros c. unfold prepare. wp_step. apply wp_voter; [|done]. intros v Hv.
  wp_step. apply wp_need; [|done]. intros Hs. wp_step. wp_step. wp_step. apply wp_need; [|done]. intros Hb. bool_tac.
  wp_step. apply wp_set_voter. apply wp_steady; [steady|].
  apply grow_set_voter. intros v' Hv'. simplify_eq. split; simpl; auto; [lia | | intros ?; congruence].
  intros s b' w H'. exists b', w. split_and!; auto. lia.
Qed.

Lemma grow_on_accept n b pre w : 
  forall c v, voters c !! n = Some v -> sealed v = true ->
  wp (on_accept n b pre w) (fun _ => grow c) (grow c) c.
Proof.
  intros c v Hv Hs. unfold on_accept. wp_step. eapply wp_voter_some; [exact Hv|].
  wp_step. apply wp_need; [|done]. intros Hb. wp_step. apply wp_need; [|done]. intros Hpre%is_prefix_spec.
  wp_step. apply (wp_mono _ (fun _ c1 => grow c c1 /\ exists v1, voters c1 !! n = Some v1 /\ sealed v1 = true) _ (grow c));
    [|intros [] c1 (Hg & v1 & Hv1 & Hs1)|done].
  { case_decide as Heq; [wp_step; split; [done | by exists v]|]. wp_step. apply wp_set_voter.
    assert (Hv1 : alter (v_prefix pre) n (voters c) !! n = Some (v_prefix pre v)).
    { by rewrite list_lookup_alter_eq, Hv. }
    eapply wp_voter_row; [exact Hv1|]. split; [|by eexists].
    etrans; [apply grow_set_voter with (n := n) (f := v_prefix pre) | by apply same_grow].
    intros v' Hv'. simplify_eq. split; simpl; auto; [lia | | intros ?; congruence].
    intros s b' x Hx. exists b', x. split_and!; auto. lia. }
  wp_step. eapply wp_voter_some; [exact Hv1|].
  wp_step. apply wp_need; [|done]. intros Hold. wp_step. apply wp_need; [|done]. intros Hslot.
  wp_step. apply wp_set_voter. apply wp_steady; [steady|].
  etrans; [exact Hg|]. apply grow_set_voter. intros v' Hv'. simplify_eq.
  split; simpl; auto; [lia | | intros ?; congruence]. intros s b' x Hx. rewrite lookup_insert.
  case_decide; [|exists b', x; split_and!; auto; lia]. subst s. rewrite Hx in Hold. exists b, w. split; [done|].
  apply orb_true_iff in Hold as [Hold%Z.ltb_lt | Hold%bool_decide_eq_true]; simpl in *; [|simplify_eq; split; auto; lia].
  split; lia.
Qed.

Lemma grow_on_proof n b p s w c v :
  voters c !! n = Some v -> sealed v = true -> wp (on_proof n b p s w) (fun _ => grow c) (grow c) c.
Proof.
  intros Hv Hs. unfold on_proof. wp_step. eapply wp_voter_some; [exact Hv|].
  wp_step. apply wp_need; [|done]. intros Hb. wp_step. apply wp_need; [|done]. intros Hacc.
  wp_step. apply wp_set_voter. apply wp_steady; [steady|].
  apply grow_set_voter. intros v' Hv'. simplify_eq. split; simpl; auto; [lia | by eexists | | intros ?; congruence].
  intros s' b' x Hx. exists b', x. split_and!; auto. lia.
Qed.

Lemma grow_handle m : keeps grow (handle m).
Proof.
  apply wp_keeps. intros c. unfold handle. wp_step. apply wp_voter; [|done]. intros v Hv.
  wp_step. apply wp_need; [|done]. intros [_ Hs]%andb_true_iff. wp_step. apply wp_campaign; [|done]. intros cp Hcp.
  wp_step. apply (wp_mono _ (fun _ c' => c' = c) _ (grow c)); [|intros [] c' ->|done].
  { destruct (is_reply (m_body m)); [by apply wp_need | by wp_step]. }
  destruct (m_body m).
  - apply keeps_wp; [typeclasses eauto| |done]. unfold on_prepare.
    apply keeps_bind; [typeclasses eauto | apply grow_prepare | intros; apply steady_grow; steady].
  - apply wp_steady; [steady | done].
  - by eapply grow_on_accept.
  - apply wp_steady; [steady | done].
  - by eapply grow_on_proof.
  - apply wp_steady; [steady | done].
Qed.

Ltac grow_step := apply keeps_bind; [typeclasses eauto | try solve [apply steady_grow; steady] | intros].

Lemma grow_deliver p : keeps grow (deliver p).
Proof.
  unfold deliver. do 4 grow_step. grow_step; [|apply steady_grow; steady].
  apply keeps_except; [typeclasses eauto | apply grow_handle | intros; apply steady_grow; steady].
Qed.

Lemma grow_drain fuel : keeps grow (drain_loop fuel).
Proof.
  induction fuel as [|fuel IH]; simpl; grow_step.
  all: destruct (messages a); [apply steady_grow; steady|]; grow_step; try apply grow_deliver.
  - apply steady_grow; steady.
  - destruct fuel; [apply steady_grow; steady | done].
Qed.

Lemma grow_start p b : keeps grow (start_campaign p b).
Proof.
  unfold start_campaign. do 3 grow_step. grow_step; [apply grow_prepare|]. apply steady_grow. steady.
Qed.

Lemma grow_restart n lost : keeps grow (restart n lost).
Proof.
  unfold restart. do 2 grow_step.
  assert (Hset : forall f, (forall v, voter_le v (f v)) -> keeps grow (set_voter n f)).
  { intros f Hf c. apply grow_set_voter. auto. }
  assert (Hacc : forall v : Voter, forall s b w, accepted v !! s = Some (b, w) ->
    exists b' w', accepted v !! s = Some (b', w') /\ (b <= b')%Z /\ (b = b' -> w = w')).
  { intros v s b w H. exists b, w. split_and!; auto. lia. }
  grow_step; [apply Hset; intros v; split; simpl; auto; lia|].
  grow_step.
  { destruct lost; [|apply steady_grow; steady]. grow_step; [|apply steady_grow; steady].
    apply Hset. intros v. split; simpl; auto; lia. }
  grow_step. apply Hset. intros v. split; simpl; auto; lia.
Qed.

Lemma grow_perform k : keeps grow (perform k).
Proof.
  destruct k; simpl.
  - grow_step; [apply grow_start | apply steady_grow; steady].
  - apply steady_grow, steady_submit.
  - apply steady_grow, steady_read.
  - apply steady_grow, steady_finish.
  - grow_step; [apply grow_deliver | apply steady_grow; steady].
  - apply grow_drain.
  - apply steady_grow, steady_drop.
  - apply steady_grow, steady_duplicate.
  - apply grow_restart.
  - apply steady_grow, steady_checkpoint.
Qed.

Lemma grow_run ks c : grow c (run_calls c ks).
Proof.
  revert c. induction ks as [|k ks IH]; intros c; [done|]. unfold run_calls. simpl.
  etrans; [apply grow_perform | apply IH].
Qed.
