(* ===== verification/ClusterTotality.v ===== *)
(** * Handlers of the V5.1 protocol raise nothing but [Rejected]

    Every list position and dictionary key a handler uses is present in a reachable cluster, so
    a delivery never escapes with an [IndexError], a [KeyError] or a [TypeError], and [drain]
    either empties the queue or reports that it did not. *)

From stdpp Require Import base gmap sets strings list pretty.
From S2P Require Import Prelude ProtocolEvents Cluster History ClusterInvariant ClusterAtoms ClusterRounds ClusterSafety ClusterVoters.

(** ** Calls that only return or reject *)

Definition no_crash {A} (m : M A) (Q : A -> Cluster -> Prop) (c : Cluster) : Prop :=
  match m c with
  | (Ok a, c') => Q a c'
  | (Err (Rejected _), _) => True
  | (Err _, _) => False
  end.

Lemma nc_bind {A B} (m : M A) (k : A -> M B) Q c :
  no_crash m (fun a c' => no_crash (k a) Q c') c -> no_crash (bind m k) Q c.
Proof. unfold no_crash, bind. destruct (m c) as [[a|e] c']; [done|]. by destruct e. Qed.

Lemma nc_mono {A} (m : M A) (Q Q' : A -> Cluster -> Prop) c :
  no_crash m Q c -> (forall a c', Q a c' -> Q' a c') -> no_crash m Q' c.
Proof. unfold no_crash. intros H HQ. destruct (m c) as [[a|e] c']; auto. Qed.

Lemma nc_ret {A} (a : A) (Q : A -> Cluster -> Prop) c : Q a c -> no_crash (ret a) Q c.
Proof. done. Qed.

Lemma nc_get (Q : Cluster -> Cluster -> Prop) c : Q c c -> no_crash get Q c.
Proof. done. Qed.

Lemma nc_modify f (Q : unit -> Cluster -> Prop) c : Q tt (f c) -> no_crash (modify f) Q c.
Proof. done. Qed.

Lemma nc_need b msg (Q : unit -> Cluster -> Prop) c : (b = true -> Q tt c) -> no_crash (need b msg) Q c.
Proof. unfold no_crash, need, liftr, guard. destruct b; auto. Qed.

Lemma nc_some {A} (x : A) e (Q : A -> Cluster -> Prop) c o :
  o = Some x -> Q x c -> no_crash (liftr (of_option o e)) Q c.
Proof. by intros ->. Qed.

Lemma nc_reject {A} (o : option A) msg (Q : A -> Cluster -> Prop) c :
  (forall x, o = Some x -> Q x c) -> no_crash (liftr (of_option o (Rejected msg))) Q c.
Proof. destruct o; unfold no_crash, liftr; simpl; auto. Qed.

Lemma nc_voter n (Q : Voter -> Cluster -> Prop) c :
  n < length (voters c) -> (forall v, voters c !! n = Some v -> Q v c) -> no_crash (voter n) Q c.
Proof.
  intros Hn HQ. unfold no_crash, voter, bind, get, liftr.
  destruct (lookup_lt_is_Some_2 _ _ Hn) as [v Hv]. rewrite Hv. simpl. auto.
Qed.

Lemma nc_campaign b cp (Q : campaign -> Cluster -> Prop) c :
  campaigns c !! b = Some cp -> Q cp c -> no_crash (campaign_at b) Q c.
Proof. intros H HQ. unfold no_crash, campaign_at, bind, get, liftr. by rewrite H. Qed.

Lemma nc_stamped_row {D} (mk : D -> voter_event) d n (Q : stamped D -> Cluster -> Prop) c :
  n < length (voters c) ->
  (forall e c', voters c' = voters c -> campaigns c' = campaigns c -> Q e c') ->
  no_crash (stamped_row mk d n) Q c.
Proof.
  intros Hn HQ. unfold stamped_row. apply nc_bind, nc_voter; [done|]. intros v Hv.
  apply nc_bind. unfold append_event. apply nc_bind, nc_get, nc_bind, nc_modify, nc_ret, nc_ret. by apply HQ.
Qed.

Lemma nc_voter_row d n (Q : unit -> Cluster -> Prop) c :
  n < length (voters c) ->
  (forall c', voters c' = voters c -> campaigns c' = campaigns c -> Q tt c') ->
  no_crash (voter_row d n) Q c.
Proof.
  intros Hn HQ. unfold voter_row. apply nc_bind, nc_stamped_row; [done|]. intros e c' Hv Hc.
  apply nc_ret. by apply HQ.
Qed.

Lemma nc_queue m (Q : unit -> Cluster -> Prop) c :
  (forall c', voters c' = voters c -> campaigns c' = campaigns c -> Q tt c') -> no_crash (queue m) Q c.
Proof.
  intros HQ. unfold queue. apply nc_bind, nc_get, nc_bind, nc_need. intros _.
  apply nc_bind, nc_modify. by apply HQ.
Qed.

Lemma nc_queue_each {A} (l : list A) mk (Q : unit -> Cluster -> Prop) c :
  (forall c', voters c' = voters c -> campaigns c' = campaigns c -> Q tt c') ->
  no_crash (for_each l (fun x => queue (mk x))) Q c.
Proof.
  revert c. induction l as [|x l IH]; intros c HQ; simpl; [by apply nc_ret, HQ|].
  apply nc_bind, nc_queue. intros c' Hv Hc. apply IH. intros c'' ? ?. apply HQ; congruence.
Qed.

Ltac nc := repeat lazymatch goal with
  | |- no_crash (bind _ _) _ _ => apply nc_bind
  | |- no_crash (ret _) _ _ => apply nc_ret
  | |- no_crash get _ _ => apply nc_get
  | |- no_crash (modify _) _ _ => apply nc_modify
  | |- no_crash (set_voter _ _) _ _ => apply nc_modify
  | |- no_crash (set_campaign _ _) _ _ => apply nc_modify
  | |- no_crash (identity_ _) _ _ => unfold identity_
  | |- no_crash (cluster_row _) _ _ => unfold cluster_row, append_event
  | |- no_crash (need _ _) _ _ => apply nc_need; intros ?; bool_tac
  end.

(** ** The handlers *)

Lemma nc_prepare n b (Q : basis -> Cluster -> Prop) c :
  n < length (voters c) -> (forall e c', campaigns c' = campaigns c -> Q e c') -> no_crash (prepare n b) Q c.
Proof.
  intros Hn HQ. unfold prepare. nc. apply nc_voter; [done|]. intros v Hv. nc.
  apply nc_voter_row; [by simpl; rewrite length_alter|].
  intros c1 Hv1 Hc1. nc. apply nc_voter; [by simpl; rewrite Hv1; simpl; rewrite length_alter|].
  intros v2 Hv2. apply nc_stamped_row; [simpl; rewrite Hv1; simpl; by rewrite length_alter|].
  intros e c2 _ Hc2. apply HQ. rewrite Hc2. exact Hc1.
Qed.

Lemma guard_err {A} b e0 (k : unit -> result A) e :
  rbind (guard b e0) k = Err e -> e = e0 \/ k tt = Err e.
Proof. destruct b; simpl; [by right|]. intros ?; simplify_eq. by left. Qed.

Lemma selection_err b own peer e : selection b own peer = Err e -> exists msg, e = Rejected msg.
Proof.
  unfold selection. cbv zeta. intros H.
  apply guard_err in H as [-> | H]; [by eexists|]. apply guard_err in H as [-> | H]; [by eexists|].
  apply guard_err in H as [-> | H]; [by eexists | done].
Qed.

Lemma selection_rejects b own peer (Q : list string * string -> Cluster -> Prop) c :
  (forall p, Q p c) -> no_crash (liftr (selection b own peer)) Q c.
Proof.
  intros HQ. unfold no_crash, liftr. destruct (selection b own peer) as [p|e] eqn:E; [done|].
  by apply selection_err in E as [msg ->].
Qed.

Lemma nc_begin b pre value act rd c cp :
  campaigns c !! b = Some cp -> c_node cp < length (voters c) -> is_Some (c_quorum cp) ->
  no_crash (begin b pre value act rd) (fun _ c' => voters c' = voters c) c.
Proof.
  intros Hcp Hn [q Hq]. unfold begin. nc. eapply nc_campaign; [done|]. nc.
  apply nc_voter; [done|]. intros v Hv. nc. eapply nc_some; [done|]. by apply nc_queue_each.
Qed.

Lemma nc_select b e c o g cp :
  St c o g -> campaigns c !! b = Some cp -> no_crash (select b e) (fun _ _ => True) c.
Proof.
  intros [_ HI] Hcp. pose proof (i_camp _ _ _ HI _ _ Hcp) as (Hn & (own & Hown & _) & _).
  pose proof (i_sync _ _ _ HI) as [Hlen _]. unfold select. nc.
  eapply nc_campaign; [done|]. nc. apply nc_voter; [lia|]. intros v Hv. nc.
  assert (Hcp1 : alter (c_add_basis (st_node e) e) b (campaigns c) !! b = Some (c_add_basis (st_node e) e cp)).
  { by rewrite lookup_alter_eq, Hcp. }
  eapply nc_campaign; [exact Hcp1|]. nc.
  assert (is_Some (<[st_node e := e]> (c_bases cp) !! c_node cp)) as [own' Hown'].
  { rewrite lookup_insert. case_decide; [by eexists | by rewrite Hown]. }
  eapply nc_some; [exact Hown'|]. nc. apply selection_rejects. intros sel. nc.
  eapply nc_mono; [eapply nc_begin | done].
  - simpl. by rewrite lookup_alter_eq, Hcp1.
  - simpl. lia.
  - by eexists.
Qed.

Lemma nc_handle m c o g :
  St c o g -> MsgOk o g (campaigns c) m -> no_crash (handle m) (fun _ _ => True) c.
Proof.
  intros HS (Ht & cp & Hcp & Hbody). pose proof HS as [_ HI].
  pose proof (i_camp _ _ _ HI _ _ Hcp) as (Hn & _ & Hsel). pose proof (i_sync _ _ _ HI) as [Hlen _].
  assert (Hq : is_Some (c_round cp) -> is_Some (c_quorum cp)).
  { intros [r Hr]. destruct (c_selected cp); [|destruct Hsel; congruence].
    destruct Hsel as (peer & _ & _ & -> & _). by eexists. }
  unfold handle. nc. apply nc_voter; [lia|]. intros v Hv. nc. eapply nc_campaign; [done|]. nc.
  apply (nc_mono _ (fun _ c' => c' = c)); [destruct (is_reply (m_body m)); nc; done|]. intros [] c' ->.
  destruct (m_body m) as [p|e|pre w|e|p s w|e]; simpl.
  - unfold on_prepare. nc. apply nc_prepare; [lia|]. intros e c1 Hc1. nc.
    eapply nc_campaign; [by rewrite Hc1|]. by apply nc_queue.
  - unfold on_promise. nc. eapply nc_campaign; [done|]. destruct (c_selected cp); [by nc|]. by eapply nc_select.
  - unfold on_accept. nc. apply nc_voter; [lia|]. intros v1 Hv1. nc.
    apply (nc_mono _ (fun _ c1 => length (voters c1) = 3 /\ campaigns c1 = campaigns c)).
    { case_decide; nc; [done|]. apply nc_voter_row; simpl; rewrite ?length_alter; [lia|].
      intros c1 E1 E2. rewrite E1, length_alter. done. }
    intros [] c1 [Hl1 Hc1]. nc. apply nc_voter; [lia|]. intros v2 Hv2. nc.
    apply nc_stamped_row; simpl; rewrite ?length_alter; [lia|]. intros e c2 _ Hc2. nc.
    eapply nc_campaign; [by rewrite Hc2; simpl; rewrite Hc1|]. by apply nc_queue.
  - unfold on_accepted. nc. apply nc_voter; [lia|]. intros v1 Hv1. nc. eapply nc_campaign; [done|]. nc.
    apply nc_reject. intros r Hr. nc. case_decide; nc; [|done].
    destruct Hq as [q Hq]; [by unfold matching_round in Hr; destruct (c_round cp)|].
    eapply nc_some; [exact Hq|]. by apply nc_queue_each.
  - unfold on_proof. nc. apply nc_voter; [lia|]. intros v1 Hv1. nc.
    apply nc_stamped_row; simpl; rewrite ?length_alter; [lia|]. intros e c2 _ Hc2. nc.
    eapply nc_campaign; [by rewrite Hc2|]. by apply nc_queue.
  - unfold on_proven. nc. apply nc_voter; [lia|]. intros v1 Hv1. nc. eapply nc_campaign; [done|]. nc.
    apply nc_reject. intros r Hr. nc.
    destruct Hq as [q Hq]; [by unfold matching_round in Hr; destruct (c_round cp)|].
    case_decide; nc; [|done]. apply nc_voter_row; [simpl; lia|]. intros c1 Hv2 Hc2. nc.
    apply (nc_mono _ (fun _ c2 => length (voters c2) = 3)).
    { destruct (r_activation _); [|nc; simpl; by rewrite Hv2]. case_decide; nc; [simpl; by rewrite Hv2|].
      apply nc_voter; [simpl; rewrite Hv2; simpl; lia|]. intros v3 Hv3.
      eapply nc_mono; [eapply nc_begin|].
      - simpl. rewrite Hc2. simpl. by rewrite lookup_alter_eq, lookup_alter_eq, Hcp.
      - simpl. rewrite Hv2. simpl. lia.
      - by eexists.
      - intros [] c2 Hc3. cbn beta in Hc3. rewrite Hc3. simpl. by rewrite Hv2. }
    intros [] c2 Hl2. destruct (r_read _) as [rid|]; nc; [|done].
    apply nc_voter; [lia|]. intros v3 Hv3. nc. apply nc_voter_row; [simpl; lia|]. done.
Qed.

(** ** Deliveries and drains *)

Lemma deliver_returns c p m :
  Inv c -> messages c !! p = Some m -> exists c', deliver p c = (Ok m, c').
Proof.
  intros (o & g & HS) Hm. pose proof HS as [_ HI].
  assert (HM : MsgOk o g (campaigns c) m) by (apply (i_msgs _ _ _ HI); by eapply list_elem_of_lookup_2).
  assert (Hql : (0 <= queue_limit c)%Z) by (eapply queue_limit_nonneg; [done | by eapply list_elem_of_lookup_2]).
  pose proof HM as (Ht & cp & Hcp & _). pose proof (i_sync _ _ _ HI) as [Hlen _].
  set (c1 := with_messages (delete p) c).
  assert (HS1 : St c1 o g) by (by apply St_pop).
  destruct (lookup_lt_is_Some_2 (voters c) (m_target m)) as [v Hv]; [lia|].
  set (c2 := log (OfCluster (CAccount (Z.of_nat (length (delete p (messages c)))) (queue_limit c) (size (pins c)) 8)) c1).
  assert (HS2 : St c2 o g) by (exact (St_account c1 o g HS1 (or_intror (or_intror Hql)))).
  assert (deliver p c = bind (except_rejected (handle m)
    (fun reason => voter_row (VReject (m_ballot m) reason) (m_target m))) (fun _ => ret m) c2) as ->.
  { unfold deliver. rewrite (bind_eq _ _ c m c1) by (unfold pop_message, bind, get, liftr, modify; by rewrite Hm).
    rewrite (bind_eq _ _ c1 tt c2) by done.
    rewrite (bind_eq _ _ c2 v c2) by (unfold voter, bind, get, liftr; simpl; by rewrite Hv).
    by rewrite (bind_eq _ _ c2 cp c2) by (unfold campaign_at, bind, get, liftr; simpl; by rewrite Hcp). }
  pose proof (nc_handle m c2 o g HS2 HM) as Hnc. pose proof (grow_handle m c2) as [Hg _].
  unfold bind, no_crash, except_rejected in *.
  destruct (handle m c2) as [[[]|e] c3]; [by eexists|]. destruct e; try done.
  unfold voter_row, stamped_row, voter, bind, get, liftr. simpl in Hg.
  destruct (lookup_lt_is_Some_2 (voters c3) (m_target m)) as [v3 Hv3]; [lia|]. rewrite Hv3. simpl. by eexists.
Qed.

(** [delivered n c c']: [n] deliveries of the first message, one after the other, lead from [c] to [c']. *)
Inductive delivered : nat -> Cluster -> Cluster -> Prop :=
  | delivered_none c : delivered 0 c c
  | delivered_more n c m c1 c2 : deliver 0 c = (Ok m, c1) -> delivered n c1 c2 -> delivered (S n) c c2.

Lemma drain_loop_returns fuel c :
  Inv c -> exists n c', delivered n c c' /\
    (n <= fuel /\ messages c' = [] /\ drain_loop (S fuel) c = (Ok tt, c') \/
     n = S fuel /\ drain_loop (S fuel) c = (Err (Rejected "nonterminating bounded exchange"), c')).
Proof.
  revert c. induction fuel as [|fuel IH]; intros c HInv.
  all: destruct (messages c) as [|m ms] eqn:Em;
    [exists 0, c; split; [constructor|left]; unfold drain_loop; fold drain_loop; unfold bind, get; rewrite Em; split_and!; [lia|done|done]|].
  all: destruct (deliver_returns c 0 m HInv) as [c1 Hc1]; [by rewrite Em|].
  - exists 1, c1. split; [by econstructor; [|constructor]|]. right. split; [done|]. cbn [drain_loop]. unfold bind, get. by rewrite Em, Hc1.
  - assert (Inv c1) as HI by (pose proof (wp_deliver 0 c HInv) as Hw; unfold wp in Hw; by rewrite Hc1 in Hw).
    assert (drain_loop (S (S fuel)) c = drain_loop (S fuel) c1) as ->.
    { transitivity (bind (deliver 0) (fun _ => drain_loop (S fuel)) c); [|by unfold bind; rewrite Hc1].
      unfold drain_loop at 1; fold drain_loop. unfold bind at 1, get. by rewrite Em. }
    destruct (IH c1 HI) as (n & c' & Hd & H). exists (S n), c'. split; [by econstructor|].
    destruct H as [(Hn & H)|[-> H]]; [left; split; [lia|done]|by right].
Qed.
