(* ===== verification/HistorySoundness.v ===== *)
(** * What the event oracle guarantees

    Properties of every log that [validate] of [scripts/v51/history.py] accepts, whoever wrote
    it: agreement on acknowledged values, freshness of barrier reads, monotone promises. *)

From stdpp Require Import base gmap sets strings list.
From S2P Require Import Prelude ProtocolEvents History.
Import ResultNotations.
Local Open Scope py_scope.

(** ** Reading back successful checks *)

Lemma require_ok b msg {A} (k : unit -> result A) x :
  rbind (require b msg) k = Ok x -> b = true /\ k tt = Ok x.
Proof. unfold require, guard. by destruct b. Qed.

Lemma of_option_inv {A B} (m : option A) e (k : A -> result B) x :
  rbind (of_option m e) k = Ok x -> exists a, m = Some a /\ k a = Ok x.
Proof. destruct m; simpl; [eauto | done]. Qed.

Lemma two_ok {A B C} (get : A -> option B) l msg (k : B * B -> result C) x :
  rbind (two get l msg) k = Ok x ->
  exists i j a b, l = [i; j] /\ get i = Some a /\ get j = Some b /\ k (a, b) = Ok x.
Proof.
  destruct l as [|i [|j [|]]]; simpl; try done.
  destruct (get i) as [a|] eqn:E1; [|done]. destruct (get j) as [b|] eqn:E2; [|done]. simpl.
  intros H. by exists i, j, a, b.
Qed.

(** [inv_ok] peels the successful checks off a hypothesis. *)
Ltac inv_ok H :=
  repeat lazymatch type of H with
  | rbind (require _ _) _ = Ok _ => let Hg := fresh "Hg" in apply require_ok in H as [Hg H]
  | rbind (of_option _ _) _ = Ok _ =>
      let a := fresh "a" in let Hg := fresh "Hg" in apply of_option_inv in H as (a & Hg & H)
  | rbind (two _ _ _) _ = Ok _ =>
      let i := fresh "i" in let j := fresh "j" in let a := fresh "a" in let b := fresh "b" in
      let Hg := fresh "Hg" in let Ha := fresh "Ha" in let Hb := fresh "Hb" in
      apply two_ok in H as (i & j & a & b & Hg & Ha & Hb & H)
  end.

(** ** The replay invariant *)

Definition is_success (e : event) (s : nat) (v : string) : Prop :=
  exists n g b ids, ev_body e = OfVoter n g (VSuccess b s v ids).

Definition is_invoke (e : event) (rid : string) : Prop :=
  exists n g, ev_body e = OfVoter n g (VReadInvoke rid).

Record ReadGood (es : list event) (rid : string) (rd : read_row) : Prop := {
  rg_invoke : exists e, es !! rd_invoke rd = Some e /\ is_invoke e rid;
  rg_writes : forall k e s v, k < rd_invoke rd -> es !! k = Some e -> is_success e s v ->
    (s, v) ∈ rd_writes rd;
  rg_slots : forall s v, (s, v) ∈ rd_writes rd -> 1 <= s;
  rg_pin : forall p, rd_pin rd = Some p -> forall s v, (s, v) ∈ rd_writes rd -> p !! (s - 1) = Some v
}.

Record Replayed (es : list event) (o : oracle) : Prop := {
  rp_chosen : forall n i v, published_of o n !! i = Some v -> o_chosen o !! S i = Some v;
  rp_proofs : forall p r, o_proofs o !! p = Some r -> o_chosen o !! pf_slot r = Some (pf_value r);
  rp_forces : forall i f, o_forces o !! i = Some f -> 1 <= fd_slot (st_data (fr_row f));
  rp_acked : forall k e s v, es !! k = Some e -> is_success e s v -> (s, v) ∈ o_acknowledged o;
  rp_acked_chosen : forall s v, (s, v) ∈ o_acknowledged o -> 1 <= s /\ o_chosen o !! s = Some v;
  rp_reads : forall rid rd, o_reads o !! rid = Some rd -> ReadGood es rid rd
}.

Lemma ReadGood_snoc es e rid rd : ReadGood es rid rd -> ReadGood (es ++ [e]) rid rd.
Proof.
  intros [(e0 & H1 & H2) H3 H4 H5]. split; auto.
  - exists e0. split; [by apply lookup_app_l_Some | done].
  - intros k e1 s v Hk He1. apply (H3 k); [done|]. apply lookup_app_Some in He1 as [|[Hl _]]; [done|].
    apply lookup_lt_Some in H1. lia.
Qed.

(** Rows that touch neither reads, acknowledgements nor the published values. *)
Lemma Replayed_quiet es e o o' :
  Replayed es o -> (forall s v, ~ is_success e s v) ->
  (forall n, published_of o' n = published_of o n) -> o_chosen o' = o_chosen o ->
  o_proofs o' = o_proofs o -> o_acknowledged o' = o_acknowledged o -> o_reads o' = o_reads o ->
  (forall i f, o_forces o' !! i = Some f -> o_forces o !! i = Some f \/ 1 <= fd_slot (st_data (fr_row f))) ->
  Replayed (es ++ [e]) o'.
Proof.
  intros [H1 H2 H3 H4 H5 H6] Hns E1 E2 E3 E4 E5 E6. split; rewrite ?E2, ?E3, ?E4, ?E5; auto.
  - intros n. rewrite E1. apply H1.
  - intros i f Hf. destruct (E6 _ _ Hf); eauto.
  - intros k e' s v Hk Hsv. apply lookup_app_Some in Hk as [Hk | [_ Hk]]; [by eapply H4|].
    apply list_lookup_singleton_Some in Hk as [_ <-]. by apply Hns in Hsv.
  - intros rid rd Hrd. by apply ReadGood_snoc, H6.
Qed.

Lemma published_set o n p m :
  published_of (set_published (<[n := p]> (o_published o)) o) m =
    if decide (n = m) then p else published_of o m.
Proof. unfold published_of; simpl. rewrite lookup_insert. by case_decide. Qed.

Lemma Replayed_publish es e o n p f :
  Replayed es o -> (forall s v, ~ is_success e s v) ->
  (forall i v, p !! i = Some v -> o_chosen o !! S i = Some v) ->
  (forall i x, f !! i = Some x -> o_forces o !! i = Some x \/ 1 <= fd_slot (st_data (fr_row x))) ->
  Replayed (es ++ [e]) (set_forces f (set_published (<[n := p]> (o_published o)) o)).
Proof.
  intros HR Hns Hp Hf.
  assert (H0 : Replayed es (set_published (<[n := p]> (o_published o)) o)).
  { destruct HR as [H1 H2 H3 H4 H5 H6]. split; auto. intros m i v. rewrite published_set.
    case_decide; [apply Hp | apply H1]. }
  by eapply Replayed_quiet.
Qed.

Lemma forces_insert o i f :
  1 <= fd_slot (st_data (fr_row f)) ->
  forall j x, <[i := f]> (o_forces o) !! j = Some x ->
    o_forces o !! j = Some x \/ 1 <= fd_slot (st_data (fr_row x)).
Proof. intros Hf j x. rewrite lookup_insert. case_decide; [|by left]. intros ?; simplify_eq. by right. Qed.

Lemma Replayed_install es e o n p o' :
  Replayed es o -> (forall s v, ~ is_success e s v) -> check_install o n p = Ok o' ->
  Replayed (es ++ [e]) o'.
Proof.
  intros HR Hns H. unfold check_install in H. inv_ok H. injection H as <-.
  rewrite forallb_forall in Hg0.
  apply (Replayed_publish es e o n p (o_forces o)); [done..| | by left].
  intros i v Hi. specialize (Hg0 (S i, v)). apply bool_decide_eq_true in Hg0; [done|].
  apply list_elem_of_In, list_elem_of_lookup. exists i. apply lookup_zip_Some. split; [|done].
  apply lookup_seq. split; [lia|]. by eapply lookup_lt_Some.
Qed.

Lemma Replayed_accept es e o n f o' :
  Replayed es o -> (forall s v, ~ is_success e s v) -> check_accept o n f = Ok o' ->
  Replayed (es ++ [e]) o'.
Proof.
  intros HR Hns H. unfold check_accept in H. inv_ok H. apply Nat.eqb_eq in Hg0.
  destruct (o_selections o !! _) as [[fs fv]|]; [|done]. inv_ok H. injection H as <-.
  eapply Replayed_quiet; try done. apply forces_insert. simpl. lia.
Qed.

Lemma Replayed_proof es e o n f p o' :
  Replayed es o -> (forall s v, ~ is_success e s v) -> check_proof o n f p = Ok o' ->
  Replayed (es ++ [e]) o'.
Proof.
  intros HR Hns H. unfold check_proof in H.
  destruct (o_proofs o !! p) as [r|] eqn:Hp; [|done]. inv_ok H. injection H as <-. bool_tac.
  apply Replayed_publish; [done..| |].
  - intros i v Hi. apply lookup_app_Some in Hi as [Hi | [Hle Hi]]; [by eapply rp_chosen|].
    apply list_lookup_singleton_Some in Hi as [Hz <-].
    pose proof (rp_proofs _ _ HR _ _ Hp) as Hc. replace (S i) with (pf_slot r) by lia. congruence.
  - apply forces_insert. simpl. lia.
Qed.

Lemma Replayed_quorum es e o pos b s v ids i o' :
  Replayed es o -> (forall s v, ~ is_success e s v) -> check_quorum o pos b s v ids i = Ok o' ->
  Replayed (es ++ [e]) o'.
Proof.
  intros HR Hns H. unfold check_quorum in H. inv_ok H. injection H as <-. bool_tac.
  assert (Hch : forall s' v', o_chosen o !! s' = Some v' -> <[s := v]> (o_chosen o) !! s' = Some v').
  { intros s' v' Hs'. rewrite lookup_insert. case_decide; [|done]. subst.
    match goal with Hd : default _ _ = _ |- _ => rewrite Hs' in Hd; simpl in Hd; by subst end. }
  destruct HR as [X1 X2 X3 X4 X5 X6]. split; simpl; auto.
  - intros n k x Hk. apply Hch. by eapply X1.
  - intros p r. rewrite lookup_insert. case_decide; [|by eauto].
    intros ?; simplify_eq. simpl. apply lookup_insert_eq.
  - intros k e' s' v' Hk Hsv. apply lookup_app_Some in Hk as [Hk | [_ Hk]]; [by eapply X4|].
    apply list_lookup_singleton_Some in Hk as [_ <-]. by apply Hns in Hsv.
  - intros s' v' Hsv. destruct (X5 _ _ Hsv). auto.
  - intros rid rd Hrd. by apply ReadGood_snoc, X6.
Qed.

Lemma py_get_pos {A} (l : list A) i : 1 <= i -> py_get l (Z.of_nat i - 1) = l !! (i - 1).
Proof.
  intros Hi. unfold py_get. rewrite (proj2 (Z.ltb_ge _ _)) by lia. f_equal. lia.
Qed.

Lemma Replayed_success es e o n b s v ids o' :
  Replayed es o -> (forall s' v', is_success e s' v' -> s' = s /\ v' = v) ->
  check_success o n b s v ids = Ok o' -> Replayed (es ++ [e]) o'.
Proof.
  intros HR He H. unfold check_success in H. inv_ok H. injection H as <-.
  unfold receipt_matches in *. bool_tac.
  assert (Hs : 1 <= s) by (pose proof (rp_forces _ _ HR _ _ Ha); lia).
  rewrite py_get_pos in * by done. assert (a0 = v) as -> by done.
  destruct HR as [X1 X2 X3 X4 X5 X6]. split; simpl; auto.
  - intros k e' s' v' Hk Hsv. apply elem_of_union.
    apply lookup_app_Some in Hk as [Hk | [_ Hk]]; [right; by eapply X4|]. left.
    apply list_lookup_singleton_Some in Hk as [_ <-]. apply He in Hsv as [-> ->]. by apply elem_of_singleton.
  - intros s' v' [[= -> ->]%elem_of_singleton|Hsv]%elem_of_union; [|by apply X5]. split; [done|].
    replace s with (S (s - 1)) by lia. by eapply X1.
  - intros rid rd Hrd. by apply ReadGood_snoc, X6.
Qed.

Lemma Replayed_invoke es e o n rid o' :
  Replayed es o -> (forall s v, ~ is_success e s v) -> is_invoke e rid ->
  check_read_invoke o (length es) n rid = Ok o' -> Replayed (es ++ [e]) o'.
Proof.
  intros HR Hns He H. unfold check_read_invoke in H. inv_ok H. injection H as <-. bool_tac.
  destruct HR as [X1 X2 X3 X4 X5 X6]. split; simpl; auto.
  - intros k e' s' v' Hk Hsv. apply lookup_app_Some in Hk as [Hk | [_ Hk]]; [by eapply X4|].
    apply list_lookup_singleton_Some in Hk as [_ <-]. by apply Hns in Hsv.
  - intros rid' rd. rewrite lookup_insert. case_decide as Hrid; [|by intros Hrd; apply ReadGood_snoc, X6].
    intros ?; simplify_eq. split; simpl; [|..|done].
    + exists e. split; [|done]. rewrite lookup_app_r, Nat.sub_diag by done. done.
    + intros k e' s v Hk Hk' Hsv. rewrite lookup_app_l in Hk' by done. by eapply X4.
    + intros s v Hsv. by apply X5 in Hsv as [? _].
Qed.

Lemma Replayed_pin es e o n b s w rid p proof o' :
  Replayed es o -> (forall s v, ~ is_success e s v) ->
  check_read_pin o n b s w rid p proof = Ok o' -> Replayed (es ++ [e]) o'.
Proof.
  intros HR Hns H. unfold check_read_pin in H. inv_ok H.
  destruct (p ← proof; o_proofs o !! p) as [r|]; [|done]. inv_ok H. injection H as <-.
  destruct HR as [X1 X2 X3 X4 X5 X6]. split; simpl; auto.
  - intros k e' s' v' Hk Hsv. apply lookup_app_Some in Hk as [Hk | [_ Hk]]; [by eapply X4|].
    apply list_lookup_singleton_Some in Hk as [_ <-]. by apply Hns in Hsv.
  - intros rid' rd. rewrite lookup_insert. destruct (decide (rid = rid')) as [<-|]; [|by intros Hrd; apply ReadGood_snoc, X6].
    intros ?; simplify_eq. destruct (X6 _ _ Hg) as [Y1 Y2 Y3 Y4].
    apply ReadGood_snoc. split; simpl; auto. intros q ?; simplify_eq. intros i x Hi.
    match goal with Hf : forallb _ _ = true |- _ => rewrite forallb_forall in Hf; specialize (Hf (i, x)) end.
    match goal with Hf : In _ _ -> _ |- _ => simpl in Hf; apply andb_true_iff in Hf as [_ Hf];
      [|by apply list_elem_of_In, elem_of_elements]; apply bool_decide_eq_true in Hf;
      rewrite py_get_pos in Hf by eauto; done end.
Qed.

Lemma Replayed_voter es o stored n g d o' :
  Replayed es o -> step_voter o (length es) stored n g d = Ok o' ->
  Replayed (es ++ [Event (OfVoter n g d) stored]) o'.
Proof.
  intros HR H.
  assert (Hns : (forall b s v ids, d <> VSuccess b s v ids) ->
    forall s v, ~ is_success (Event (OfVoter n g d) stored) s v).
  { intros Hd s v (n' & g' & b & ids & E). simpl in E. simplify_eq. by eapply Hd. }
  destruct d; simpl in H; inv_ok H; try (injection H as <-; by eapply Replayed_quiet; eauto).
  - by eapply Replayed_install; eauto.
  - by eapply Replayed_accept; eauto.
  - by eapply Replayed_proof; eauto.
  - eapply Replayed_success; [done | | exact H]. intros s' v' (n' & g' & b & ids & E). by simplify_eq/=.
  - eapply Replayed_invoke; [done | by apply Hns | by eexists _, _ | exact H].
  - by eapply Replayed_pin; eauto.
  - unfold check_read_result in H. inv_ok H. injection H as <-. by eapply Replayed_quiet; eauto.
Qed.

Lemma Replayed_cluster es o stored d o' :
  Replayed es o -> step_cluster o stored d = Ok o' ->
  Replayed (es ++ [Event (OfCluster d) stored]) o'.
Proof.
  intros HR H.
  assert (Hns : forall s v, ~ is_success (Event (OfCluster d) stored) s v).
  { intros s v (n' & g' & b & ids & E). done. }
  destruct d; simpl in H; inv_ok H; try (injection H as <-; by eapply Replayed_quiet; eauto).
  - unfold check_select in H. inv_ok H. destruct (map snd _); simpl in H; inv_ok H; injection H as <-;
      by eapply Replayed_quiet; eauto.
  - by eapply Replayed_quorum; eauto.
Qed.

Lemma replay_Replayed es o : replay oracle0 0 es = Ok o -> Replayed es o.
Proof.
  revert o. induction es as [|[b stored] es IH] using rev_ind; intros o H.
  - simpl in H. injection H as <-. split; simpl; try (intros; set_solver).
  - rewrite replay_app in H. destruct (replay oracle0 0 es) as [o1|] eqn:E1; [|done]. simpl in H.
    specialize (IH _ eq_refl). destruct (step o1 (length es) stored b) as [o2|] eqn:Es; simpl in H; [|done].
    injection H as ->. unfold step in Es. inv_ok Es. destruct b as [n g d | d].
    + by eapply Replayed_voter.
    + by eapply Replayed_cluster.
Qed.

Lemma validate_replay es s : validate es = Ok s -> exists o, replay oracle0 0 es = Ok o.
Proof. unfold validate. destruct (replay oracle0 0 es) as [o|]; [eauto | done]. Qed.

(** A prefix of an accepted log is accepted. *)
Lemma replay_prefix es1 es2 o :
  replay oracle0 0 (es1 ++ es2) = Ok o -> exists o1, replay oracle0 0 es1 = Ok o1.
Proof. rewrite replay_app. destruct (replay oracle0 0 es1) as [o1|]; [eauto | done]. Qed.

(** ** Promises only grow *)

(** The ballot a voter's row acts at, for the rows that need its current promise. *)
Definition acts_at (d : voter_event) : option Z :=
  match d with
  | VBasis b => Some (bd_ballot b)
  | VAcceptForce f | VProofForce f _ => Some (fd_ballot f)
  | VSuccess b _ _ _ | VReadPin b _ _ _ _ _ => Some b
  | _ => None
  end.

Lemma step_acts o p st n g d b o' :
  step o p st (OfVoter n g d) = Ok o' -> acts_at d = Some b -> promise_of o n = b.
Proof.
  unfold step. intros H Hd. inv_ok H. destruct d; simpl in *; simplify_eq; inv_ok H.
  - by bool_tac.
  - unfold check_accept in H. inv_ok H. by bool_tac.
  - unfold check_proof in H. destruct (o_proofs o !! _); [|done]. inv_ok H. by bool_tac.
  - unfold check_success in H. inv_ok H. by bool_tac.
  - unfold check_read_pin in H. inv_ok H. destruct (mbind _ _); [|done]. inv_ok H. by bool_tac.
Qed.

(** A step changes a promise only by a promise row, and only upwards. *)
Lemma step_promise o p st b o' m :
  step o p st b = Ok o' ->
  (promise_of o m <= promise_of o' m)%Z /\
  forall g b' pr, b = OfVoter m g (VPromiseForce b' pr) -> (promise_of o m < b')%Z /\ promise_of o' m = b'.
Proof.
  unfold step. intros H. inv_ok H.
  assert (Hsame : (forall n g b' pr, b <> OfVoter n g (VPromiseForce b' pr)) ->
    promise_of o' m = promise_of o m).
  { intros Hb. destruct b as [n g d|d]; destruct d; simpl in H; inv_ok H; try (injection H as <-; done).
    - by destruct (Hb n g ballot proposer).
    - unfold check_install in H. inv_ok H. by simplify_eq.
    - unfold check_accept in H. inv_ok H. destruct (o_selections o !! _) as [[]|]; [|done].
      inv_ok H. by simplify_eq.
    - unfold check_proof in H. destruct (o_proofs o !! _); [|done]. inv_ok H. by simplify_eq.
    - unfold check_success in H. inv_ok H. by simplify_eq.
    - unfold check_read_invoke in H. inv_ok H. by simplify_eq.
    - unfold check_read_pin in H. inv_ok H. destruct (mbind _ _); [|done]. inv_ok H. by simplify_eq.
    - unfold check_read_result in H. inv_ok H. by simplify_eq.
    - unfold check_select in H. inv_ok H. destruct (map snd _); simpl in H; inv_ok H; by simplify_eq.
    - unfold check_quorum in H. inv_ok H. by simplify_eq. }
  destruct b as [n g d|d]; [destruct d|]; try (rewrite Hsame by done; split; [done | intros; congruence]).
  simpl in H. inv_ok H. simplify_eq. bool_tac. unfold promise_of in *. simpl.
  rewrite lookup_insert. case_decide; subst; simpl; split; [lia | intros; simplify_eq; auto | done | intros; simplify_eq].
Qed.

Lemma replay_promise es o p o' n : replay o p es = Ok o' -> (promise_of o n <= promise_of o' n)%Z.
Proof.
  revert o p. induction es as [|e es IH]; intros o p H; simpl in H; [by simplify_eq|].
  destruct (step _ _ _ _) as [o1|] eqn:E; [|done]. simpl in H.
  apply step_promise with (m := n) in E as [E _]. specialize (IH _ _ H). lia.
Qed.

(** Cutting an accepted log at a row. *)
Lemma replay_split es o i e :
  replay oracle0 0 es = Ok o -> es !! i = Some e ->
  exists o1 o2, replay oracle0 0 (take i es) = Ok o1 /\
    step o1 i (ev_position e) (ev_body e) = Ok o2 /\ replay o2 (S i) (drop (S i) es) = Ok o.
Proof.
  intros H Hi. pose proof (lookup_lt_Some _ _ _ Hi).
  rewrite <- (take_drop_middle _ _ _ Hi), replay_app, length_take, Nat.min_l in H by lia.
  destruct (replay oracle0 0 (take i es)) as [o1|]; [|done]. simpl in H.
  destruct (step o1 i (ev_position e) (ev_body e)) as [o2|] eqn:E; [|done]. simpl in H.
  exists o1, o2. done.
Qed.

(** ** What acceptance means *)

(** C3: Agreement.  In any log the oracle accepts, two acknowledgements of one slot acknowledge
    the same value, whichever leaders and ballots issued them. *)
Theorem accepted_log_agreement es sm i j ei ej slot v v' :
  validate es = Ok sm -> es !! i = Some ei -> es !! j = Some ej ->
  is_success ei slot v -> is_success ej slot v' -> v = v'.
Proof.
  intros [o H]%validate_replay Hi Hj Hv Hv'. pose proof (replay_Replayed _ _ H) as HR.
  destruct (rp_acked_chosen _ _ HR _ _ (rp_acked _ _ HR _ _ _ _ Hi Hv)) as [_ E1].
  destruct (rp_acked_chosen _ _ HR _ _ (rp_acked _ _ HR _ _ _ _ Hj Hv')) as [_ E2]. congruence.
Qed.

(** C2: Fresh reads.  In any accepted log every completed read was invoked by an earlier row,
    and its view holds, at its slot, every write that was acknowledged before that invocation. *)
Theorem accepted_log_fresh_reads es sm j e n g rid view :
  validate es = Ok sm -> es !! j = Some e -> ev_body e = OfVoter n g (VReadResult rid view) ->
  exists i ei, i < j /\ es !! i = Some ei /\ is_invoke ei rid /\
    forall k ek slot v, k < i -> es !! k = Some ek -> is_success ek slot v ->
      view !! (slot - 1) = Some v.
Proof.
  intros [o H]%validate_replay Hj He. destruct (replay_split _ _ _ _ H Hj) as (o1 & o2 & H1 & H2 & _).
  pose proof (replay_Replayed _ _ H1) as HR. rewrite He in H2. unfold step in H2. inv_ok H2.
  simpl in H2. unfold check_read_result in H2. inv_ok H2. bool_tac.
  destruct (rp_reads _ _ HR _ _ Hg0) as [(ei & Hei & Hinv) Hw _ Hpin].
  apply lookup_take_Some in Hei as [Hei Hlt]. exists (rd_invoke a), ei. split_and!; auto.
  intros k ek slot v Hk Hek Hs. eapply Hpin; [by symmetry|]. eapply Hw; [done| |done].
  apply lookup_take_Some. split; [done | lia].
Qed.

(** Fencing.  In any accepted log, once a voter has forced a promise, every later promise it
    forces is greater and every later basis, acceptance, proof, success or read pin of that voter
    is at that ballot or a greater one. *)
Theorem accepted_log_fencing es sm i j ei ej n g g' b pr d :
  validate es = Ok sm -> i < j -> es !! i = Some ei -> es !! j = Some ej ->
  ev_body ei = OfVoter n g (VPromiseForce b pr) -> ev_body ej = OfVoter n g' d ->
  (forall b' pr', d = VPromiseForce b' pr' -> (b < b')%Z) /\
  (forall b', acts_at d = Some b' -> (b <= b')%Z).
Proof.
  intros [o H]%validate_replay Hij Hi Hj Hbi Hbj.
  destruct (replay_split _ _ _ _ H Hj) as (o1 & o2 & H1 & H2 & _).
  assert (Hi' : take j es !! i = Some ei) by (apply lookup_take_Some; split; done).
  destruct (replay_split _ _ _ _ H1 Hi') as (o3 & o4 & _ & H4 & H5).
  rewrite Hbi in H4. destruct (step_promise _ _ _ _ _ n H4) as [_ Hp].
  destruct (Hp _ _ _ eq_refl) as [_ Hb]. pose proof (replay_promise _ _ _ _ n H5) as Hle.
  rewrite Hbj in H2. split.
  - intros b' pr' ->. destruct (step_promise _ _ _ _ _ n H2) as [_ Hq].
    destruct (Hq _ _ _ eq_refl). lia.
  - intros b' Hd. pose proof (step_acts _ _ _ _ _ _ _ _ H2 Hd). lia.
Qed.
