(* ===== verification/ClusterProperties.v ===== *)
(** * Properties of the V5.1 protocol model

    The theorems about [Cluster] of [scripts/v51/model.py] that a reader looks for first, each
    with a concrete run that meets its hypotheses. *)

From stdpp Require Import base gmap sets strings list pretty.
From S2P Require Import Prelude ProtocolEvents Cluster History ClusterInvariant ClusterAtoms ClusterSafety ClusterVoters ClusterTotality HistorySoundness.

(** ** Facts about reachable clusters *)

Lemma voter_prefix_chosen c o g n v i x :
  I c o g -> voters c !! n = Some v -> prefix v !! i = Some x -> o_chosen o !! S i = Some x.
Proof.
  intros HI Hv Hx. pose proof (i_sync _ _ _ HI) as [_ Hs]. destruct (Hs _ _ Hv) as (_ & Hpub & _).
  rewrite <- Hpub in Hx. by apply (oi_published _ _ _ (i_oracle _ _ _ HI)) in Hx.
Qed.

Lemma prefix_of_same {A} (l1 l2 : list A) :
  length l1 <= length l2 -> (forall i x y, l1 !! i = Some x -> l2 !! i = Some y -> x = y) -> l1 `prefix_of` l2.
Proof.
  revert l2. induction l1 as [|x l1 IH]; intros [|y l2] Hl Hs; simpl in *; try lia.
  - apply prefix_nil.
  - apply prefix_nil.
  - rewrite (Hs 0 x y eq_refl eq_refl). apply prefix_cons, IH; [lia|]. intros i. apply (Hs (S i)).
Qed.

(** *** The queue limit never changes *)

Definition same_limit (c c' : Cluster) : Prop := queue_limit c' = queue_limit c.

#[export] Instance same_limit_refl : Reflexive same_limit.
Proof. by intros c. Qed.
#[export] Instance same_limit_trans : Transitive same_limit.
Proof. unfold same_limit. intros x y z. congruence. Qed.

Ltac limit_tac :=
  repeat first
    [ solve [auto with limit]
    | progress intros
    | apply keeps_bind; [typeclasses eauto | |]
    | apply keeps_for_each; [typeclasses eauto | typeclasses eauto |]
    | apply keeps_except; [typeclasses eauto | |]
    | match goal with |- keeps _ (match ?x with _ => _ end) => destruct x end
    | by intros ? ].

Lemma limit_stamped {D} (mk : D -> voter_event) d n : keeps same_limit (stamped_row mk d n).
Proof. unfold stamped_row, voter, append_event. limit_tac. Qed.
#[local] Hint Resolve limit_stamped : limit.

Lemma limit_queue m : keeps same_limit (queue m).
Proof. unfold queue, account, cluster_row, append_event, need. limit_tac. Qed.
#[local] Hint Resolve limit_queue : limit.

Lemma limit_begin b pre v a r : keeps same_limit (begin b pre v a r).
Proof. unfold begin, campaign_at, voter, need, set_campaign. limit_tac. Qed.

Lemma limit_prepare n b : keeps same_limit (prepare n b).
Proof. unfold prepare, voter, need, set_voter, voter_row, identity_. limit_tac. Qed.
#[local] Hint Resolve limit_begin limit_prepare : limit.

Lemma limit_handle m : keeps same_limit (handle m).
Proof.
  unfold handle, on_prepare, on_promise, on_accept, on_accepted, on_proof, on_proven, select,
    account, cluster_row, append_event, voter_row, voter, campaign_at, need, set_voter, set_campaign, identity_.
  limit_tac.
Qed.
#[local] Hint Resolve limit_handle : limit.

Lemma limit_deliver p : keeps same_limit (deliver p).
Proof.
  unfold deliver, pop_message, account, cluster_row, append_event, voter_row, voter, campaign_at. limit_tac.
Qed.
#[local] Hint Resolve limit_deliver : limit.

Lemma limit_drain fuel : keeps same_limit (drain_loop fuel).
Proof. induction fuel as [|fuel IH]; simpl; limit_tac; assumption. Qed.

#[local] Hint Resolve limit_drain : limit.

Lemma limit_perform k : keeps same_limit (perform k).
Proof.
  destruct k; simpl; unfold start_campaign, submit, read, finish_read, drain, drop_message, duplicate, restart,
    checkpoint, pop_message, account, cluster_row, append_event, voter_row, voter, campaign_at, need, set_voter,
    set_campaign; limit_tac.
Qed.

Lemma limit_constant ks c : queue_limit (run_calls c ks) = queue_limit c.
Proof.
  revert c. induction ks as [|k ks IH]; intros c; [done|]. unfold run_calls. simpl.
  etrans; [apply IH | apply limit_perform].
Qed.

(** A run used by the witnesses: voter 0 leads, one write, one barrier read, a lost disk. *)
Definition sample_calls : list call :=
  [CallCampaign 0 None; CallDrain; CallSubmit 2 "write"; CallDrain; CallRead 2 "r"; CallDrain;
   CallFinishRead "r"; CallRestart 2 true].
Definition sample : Cluster := run_calls (init 32 100) sample_calls.

(** ** Safety *)

(** C1: Refinement of the event oracle.  Whatever calls a client, the network and the operator
    make, with any queue and promise limits and also when calls raise half way, the log the model
    has written is accepted by the independent oracle: invariants I01 to I08 hold. *)
Theorem cluster_log_accepted ql pl ks :
  exists sm, validate (events (run_calls (init ql pl) ks)) = Ok sm.
Proof.
  destruct (Inv_reach ql pl ks) as (o & g & Hr & _). unfold validate. rewrite Hr. simpl. by eexists.
Qed.

(** C5: Proven prefixes agree.  In every reachable cluster the proven prefixes of any two voters
    are comparable: one extends the other. *)
Theorem voter_prefixes_agree ql pl ks n m v w :
  voters (run_calls (init ql pl) ks) !! n = Some v -> voters (run_calls (init ql pl) ks) !! m = Some w ->
  prefix v `prefix_of` prefix w \/ prefix w `prefix_of` prefix v.
Proof.
  intros Hv Hw. destruct (Inv_reach ql pl ks) as (o & g & _ & HI).
  assert (H : forall i x y, prefix v !! i = Some x -> prefix w !! i = Some y -> x = y).
  { intros i x y Hx Hy. eapply voter_prefix_chosen in Hx, Hy; [|done..]. congruence. }
  destruct (decide (length (prefix v) <= length (prefix w))); [left | right]; apply prefix_of_same; eauto; [lia|].
  intros i x y Hx Hy. symmetry. eauto.
Qed.

Lemma voter_prefixes_agree_witness :
  ["NO_OP:2:activation"; "write"; "NO_OP:2:read:r"] `prefix_of` ["NO_OP:2:activation"; "write"; "NO_OP:2:read:r"] \/
  ["NO_OP:2:activation"; "write"; "NO_OP:2:read:r"] `prefix_of` ["NO_OP:2:activation"; "write"; "NO_OP:2:read:r"].
Proof.
  destruct (voters sample !! 0) as [v|] eqn:Hv; [|vm_compute in Hv; discriminate].
  destruct (voters sample !! 1) as [w|] eqn:Hw; [|vm_compute in Hw; discriminate].
  pose proof (voter_prefixes_agree 32 100 sample_calls 0 1 v w Hv Hw) as H.
  vm_compute in Hv, Hw. injection Hv as <-. injection Hw as <-. exact H.
Defined.

(** C4: Acknowledged writes are durable.  Once the log of a reachable cluster acknowledges a value
    at a slot, two voters hold that value at that slot of their proven prefix, and no voter holds
    another one there; the log only grows, so this stays true in every later state. *)
Theorem acknowledged_write_durable ql pl ks j e slot value :
  events (run_calls (init ql pl) ks) !! j = Some e -> is_success e slot value ->
  Quorum2 (fun n => exists v, voters (run_calls (init ql pl) ks) !! n = Some v /\
    prefix v !! (slot - 1) = Some value) /\
  forall n v x, voters (run_calls (init ql pl) ks) !! n = Some v ->
    prefix v !! (slot - 1) = Some x -> x = value.
Proof.
  intros Hj He. destruct (Inv_reach ql pl ks) as (o & g & Hr & HI).
  pose proof (rp_acked _ _ (replay_Replayed _ _ Hr) _ _ _ _ Hj He) as Hack.
  destruct (oi_acked _ _ _ (i_oracle _ _ _ HI) _ _ Hack) as (Hs & Hch & Hq).
  assert (Hval : forall n v x, voters (run_calls (init ql pl) ks) !! n = Some v ->
    prefix v !! (slot - 1) = Some x -> x = value).
  { intros n v x Hv Hx. eapply voter_prefix_chosen in Hx; [|done..].
    replace (S (slot - 1)) with slot in Hx by lia. congruence. }
  split; [|done]. destruct Hq as (a & b & Hne & Ha & Hb & La & Lb).
  pose proof (i_sync _ _ _ HI) as [Hlen Hsy].
  assert (Hold : forall n, n < 3 -> slot <= length (published_of o n) ->
    exists v, voters (run_calls (init ql pl) ks) !! n = Some v /\ prefix v !! (slot - 1) = Some value).
  { intros n Hn Hl. destruct (lookup_lt_is_Some_2 (voters (run_calls (init ql pl) ks)) n) as [v Hv]; [lia|].
    destruct (Hsy _ _ Hv) as (_ & Hpub & _). rewrite Hpub in Hl.
    destruct (lookup_lt_is_Some_2 (prefix v) (slot - 1)) as [x Hx]; [lia|].
    exists v. split; [done|]. by rewrite <- (Hval _ _ _ Hv Hx). }
  exists a, b. split_and!; auto.
Qed.

(** The row of the sample run that acknowledges its client write. *)
Definition sample_success : nat := 58.

Lemma acknowledged_write_durable_witness :
  exists e, events sample !! sample_success = Some e /\ is_success e 2 "write" /\
  Quorum2 (fun n => exists v, voters sample !! n = Some v /\ prefix v !! 1 = Some "write").
Proof.
  destruct (events sample !! sample_success) as [e|] eqn:He; [|vm_compute in He; discriminate].
  assert (Hs : is_success e 2 "write").
  { vm_compute in He. injection He as <-. by eexists _, _, _, _. }
  exists e. split; [done|]. split; [done|].
  exact (proj1 (acknowledged_write_durable 32 100 sample_calls sample_success e 2 "write" He Hs)).
Defined.

(** Durable voter state only grows.  Across any sequence of calls a voter's promise and the
    ballots it accepted never decrease, no accepted value changes within its ballot, its proven
    prefix is only extended, and a voter whose disk was lost changes none of these. *)
Theorem voter_state_monotone c ks n v :
  voters c !! n = Some v -> exists v', voters (run_calls c ks) !! n = Some v' /\ voter_le v v'.
Proof. apply grow_run. Qed.

Lemma voter_state_monotone_witness :
  exists v', voters (run_calls sample [CallRestart 2 false; CallCampaign 2 None]) !! 2 = Some v' /\
    promise v' = 2%Z /\ generation v' = 3 /\ sealed v' = false.
Proof.
  destruct (voters sample !! 2) as [v|] eqn:Hv; [|vm_compute in Hv; discriminate].
  destruct (voter_state_monotone sample [CallRestart 2 false; CallCampaign 2 None] 2 v Hv) as (v' & Hv' & _).
  exists v'. split; [exact Hv'|]. vm_compute in Hv'. injection Hv' as <-. by split_and!.
Defined.

Lemma wp_restart_lost n c v :
  voters c !! n = Some v ->
  wp (restart n true) (fun _ c' => exists v1, voters c' !! n = Some v1 /\ promise v1 = promise v /\
    prefix v1 = prefix v /\ accepted v1 = accepted v /\ sealed v1 = false) (fun _ => False) c.
Proof.
  intros Hv. unfold restart. wp_step. eapply wp_voter_some; [exact Hv|].
  wp_step. eapply wp_voter_row; [exact Hv|]. wp_step. apply wp_set_voter. wp_step. wp_step. apply wp_set_voter.
  eapply wp_voter_row; [simpl; by rewrite !list_lookup_alter_eq, Hv|].
  wp_step. apply wp_modify. apply wp_set_voter. simpl. rewrite !list_lookup_alter_eq, Hv. simpl. by eexists.
Qed.

(** A lost disk freezes its voter.  After [restart(node, lost=True)] of a voter of any
    cluster, no later call changes that voter's promise, proven prefix or accepted
    values: it never promises, accepts or proves again. *)
Theorem lost_disk_freezes c n v ks :
  voters c !! n = Some v ->
  exists v', voters (run_calls (snd (restart n true c)) ks) !! n = Some v' /\
    promise v' = promise v /\ prefix v' = prefix v /\ accepted v' = accepted v /\ sealed v' = false.
Proof.
  intros Hv.
  assert (H1 : exists v1, voters (snd (restart n true c)) !! n = Some v1 /\
    promise v1 = promise v /\ prefix v1 = prefix v /\ accepted v1 = accepted v /\ sealed v1 = false).
  { pose proof (wp_restart_lost n c v Hv) as Hw. unfold wp in Hw. by destruct (restart n true c) as [[]]. }
  destruct H1 as (v1 & Hv1 & E1 & E2 & E3 & Hs).
  destruct (grow_run ks (snd (restart n true c))) as [_ Hg].
  destruct (Hg _ _ Hv1) as (v2 & Hv2 & Hle). exists v2. split; [done|].
  destruct (vl_sealed _ _ Hle Hs) as (? & ? & ? & ?). split_and!; congruence.
Qed.

Lemma lost_disk_freezes_witness :
  exists v', voters (run_calls (snd (restart 1 true sample)) [CallCampaign 0 None; CallDrain]) !! 1 = Some v' /\
    promise v' = 2%Z /\ prefix v' = ["NO_OP:2:activation"; "write"; "NO_OP:2:read:r"].
Proof.
  destruct (voters sample !! 1) as [v|] eqn:Hv; [|vm_compute in Hv; discriminate].
  destruct (lost_disk_freezes sample 1 v [CallCampaign 0 None; CallDrain] Hv) as (v' & Hv' & Hp & Hx & _).
  exists v'. vm_compute in Hv. injection Hv as <-. split; [exact Hv'|]. split; [exact Hp | exact Hx].
Defined.

(** ** Totality and bounds *)

(** Deliveries always complete.  In every reachable cluster, delivering a queued message
    returns that message: whatever the handler meets, only [Rejected] is raised inside and it is
    logged, never an index, key or type error. *)
Theorem deliver_completes ql pl ks p m :
  messages (run_calls (init ql pl) ks) !! p = Some m ->
  exists c', deliver p (run_calls (init ql pl) ks) = (Ok m, c').
Proof. apply deliver_returns, Inv_reach. Qed.

(** The sample run with a campaign of voter 1 in flight. *)
Definition busy_calls : list call := [CallCampaign 0 None; CallDeliver 1; CallCampaign 1 None; CallDeliver 0].

Lemma deliver_completes_witness :
  exists m c', deliver 1 (run_calls (init 32 100) busy_calls) = (Ok m, c') /\ m_target m = 0.
Proof.
  destruct (messages (run_calls (init 32 100) busy_calls) !! 1) as [m|] eqn:Hm; [|vm_compute in Hm; discriminate].
  destruct (deliver_completes 32 100 busy_calls 1 m Hm) as [c' Hc'].
  exists m, c'. split; [exact Hc'|]. vm_compute in Hm. by injection Hm as <-.
Defined.

(** C6: Draining is decided, at the 256th delivery.  In every reachable cluster [drain] makes deliveries of
    the first message, none of which fails: either fewer than 256, the last of which leaves the queue empty,
    and it returns; or exactly 256, and it reports a nonterminating exchange.  It ends no other way. *)
Theorem drain_decided ql pl ks :
  let c := run_calls (init ql pl) ks in
  exists n c', delivered n c c' /\
    (n < 256 /\ messages c' = [] /\ drain c = (Ok tt, c') \/
     n = 256 /\ drain c = (Err (Rejected "nonterminating bounded exchange"), c')).
Proof.
  intros c. destruct (drain_loop_returns 255 c (Inv_reach _ _ _)) as (n & c' & Hd & H). clearbody c.
  exists n, c'. split; [exact Hd|]. unfold drain.
  destruct H as [(Hn & Hm & He)|(Hn & He)]; [left; split_and!; [lia|done|congruence]|right; split; congruence].
Qed.

(** Bounded resources.  With a non-negative queue limit every reachable cluster holds at most
    that many messages, whatever was sent, duplicated or dropped, and at most eight pinned views. *)
Theorem resources_bounded ql pl ks :
  (0 <= ql)%Z ->
  (Z.of_nat (length (messages (run_calls (init ql pl) ks))) <= ql)%Z /\
  size (pins (run_calls (init ql pl) ks)) <= 8.
Proof.
  intros Hql. destruct (Inv_reach ql pl ks) as (o & g & _ & HI). split; [|apply (i_reads _ _ _ HI)].
  pose proof (i_limit _ _ _ HI) as HL. unfold LimitOk in HL. rewrite limit_constant in HL. simpl in HL.
  by rewrite (proj2 (Z.leb_le _ _) Hql) in HL.
Qed.

Lemma resources_bounded_witness :
  (0 <= 3)%Z /\ (Z.of_nat (length (messages (run_calls (init 3 100) (sample_calls ++ busy_calls)))) <= 3)%Z.
Proof. split; [lia|]. apply (resources_bounded 3 100 (sample_calls ++ busy_calls)). lia. Defined.

(** ** Ballots *)

(** Automatic epochs.  [next_epoch] gives a voter the ballot it owns in the block of three
    after the block of the greatest promise it has seen: greater than that promise, below 2^63,
    and different from the ballot any other voter computes from the same promise.  It refuses exactly
    the malformed inputs and the blocks that do not fit in 63 bits. *)
Theorem next_epoch_correct maximum rank :
  match next_epoch maximum rank with
  | Ok e =>
      (1 <= maximum < 2 ^ 63)%Z /\ rank < 3 /\ (maximum < e < 2 ^ 63)%Z /\ ((e - 2) mod 3 = Z.of_nat rank)%Z /\
      ((e - 2) / 3 = if (maximum =? 1)%Z then 0 else (maximum - 2) / 3 + 1)%Z /\
      forall rank', rank' <> rank -> next_epoch maximum rank' <> Ok e
  | Err x =>
      (x = Rejected "epoch inputs" /\ ~ ((1 <= maximum < 2 ^ 63)%Z /\ rank < 3)) \/
      (x = Rejected "epoch exhaustion" /\ (1 <= maximum < 2 ^ 63)%Z /\ rank < 3 /\
        (2 ^ 63 <= 3 * (if (maximum =? 1)%Z then 0 else (maximum - 2) / 3 + 1) + Z.of_nat rank + 2)%Z)
  end.
Proof.
  assert (Hrank : forall r e, next_epoch maximum r = Ok e ->
    (1 <= maximum < 2 ^ 63)%Z /\ r < 3 /\ (e < 2 ^ 63)%Z /\
    e = (3 * (if (maximum =? 1)%Z then 0 else (maximum - 2) / 3 + 1) + Z.of_nat r + 2)%Z).
  { intros r e. unfold next_epoch. set (x := (3 * _ + _ + _)%Z).
    destruct ((1 <=? maximum)%Z && (maximum <? 2 ^ 63)%Z && (r <? 3)) eqn:E; simpl; [|done].
    destruct (x <? 2 ^ 63)%Z eqn:F; simpl; [|done]. intros ?; simplify_eq. bool_tac. split_and!; auto; lia. }
  destruct (next_epoch maximum rank) as [e|x] eqn:E.
  - destruct (Hrank _ _ E) as (Hm & Hr & He & Heq).
    assert (Hblock : ((e - 2) / 3 = if (maximum =? 1)%Z then 0 else (maximum - 2) / 3 + 1)%Z).
    { rewrite Heq. set (k := if (maximum =? 1)%Z then 0%Z else ((maximum - 2) / 3 + 1)%Z).
      replace (3 * k + Z.of_nat rank + 2 - 2)%Z with (Z.of_nat rank + k * 3)%Z by lia.
      rewrite Z.div_add, Z.div_small by lia. lia. }
    split_and!; try done; try lia.
    + destruct (Z.eqb_spec maximum 1); [lia|].
      pose proof (Z.mod_pos_bound (maximum - 2) 3). pose proof (Z.div_mod (maximum - 2) 3). lia.
    + pose proof (Z.div_mod (e - 2) 3). rewrite Hblock in *. lia.
    + intros r' Hne E'. destruct (Hrank _ _ E') as (_ & _ & _ & Heq'). lia.
  - unfold next_epoch in E. set (y := (3 * _ + _ + _)%Z) in *.
    destruct ((1 <=? maximum)%Z && (maximum <? 2 ^ 63)%Z && (rank <? 3)) eqn:F; simpl in E.
    + destruct (y <? 2 ^ 63)%Z eqn:G; simpl in E; simplify_eq. right. bool_tac. split_and!; auto; lia.
    + simplify_eq. left. split; [done|]. intros [[H1 H2] H3].
      rewrite (proj2 (Z.leb_le _ _) H1), (proj2 (Z.ltb_lt _ _) H2), (proj2 (Nat.ltb_lt _ _) H3) in F. done.
Qed.

(** ** The oracle's guarantees on the log of the sample run *)

Lemma accepted_log_agreement_witness :
  exists sm e, validate (events sample) = Ok sm /\ events sample !! sample_success = Some e /\
    forall v', is_success e 2 v' -> "write" = v'.
Proof.
  destruct (validate (events sample)) as [sm|x] eqn:Hs; [|vm_compute in Hs; discriminate].
  destruct (events sample !! sample_success) as [e|] eqn:He; [|vm_compute in He; discriminate].
  assert (Hw : is_success e 2 "write").
  { clear Hs. vm_compute in He. injection He as <-. by eexists _, _, _, _. }
  exists sm, e. split; [done|]. split; [done|]. intros v' Hv'.
  exact (accepted_log_agreement (events sample) sm sample_success sample_success e e 2 "write" v' Hs He He Hw Hv').
Defined.

(** The rows of the sample run that invoke and complete its barrier read. *)
Lemma accepted_log_fresh_reads_witness :
  exists i ei, i < 84 /\ events sample !! i = Some ei /\ is_invoke ei "r".
Proof.
  destruct (validate (events sample)) as [sm|x] eqn:Hs; [|vm_compute in Hs; discriminate].
  destruct (events sample !! 84) as [e|] eqn:He; [|vm_compute in He; discriminate].
  assert (Hb : ev_body e = OfVoter 0 1 (VReadResult "r" ["NO_OP:2:activation"; "write"; "NO_OP:2:read:r"])).
  { clear Hs. vm_compute in He. by injection He as <-. }
  destruct (accepted_log_fresh_reads (events sample) sm 84 e 0 1 "r" _ Hs He Hb) as (i & ei & Hi & Hei & Hinv & _).
  exists i, ei. split; [exact Hi|]. split; [exact Hei | exact Hinv].
Defined.

Lemma accepted_log_fencing_witness :
  exists sm ej, validate (events sample) = Ok sm /\ events sample !! 58 = Some ej /\
    forall b', acts_at (VSuccess 2 2 "write" []) = Some b' -> (2 <= b')%Z.
Proof.
  destruct (validate (events sample)) as [sm|x] eqn:Hs; [|vm_compute in Hs; discriminate].
  destruct (events sample !! 0) as [ei|] eqn:Hi; [|vm_compute in Hi; discriminate].
  destruct (events sample !! 58) as [ej|] eqn:Hj; [|vm_compute in Hj; discriminate].
  assert (Hbi : ev_body ei = OfVoter 0 1 (VPromiseForce 2 0)).
  { clear Hs Hj. vm_compute in Hi. by injection Hi as <-. }
  assert (Hbj : exists ids, ev_body ej = OfVoter 0 1 (VSuccess 2 2 "write" ids)).
  { clear Hs Hi. vm_compute in Hj. injection Hj as <-. by eexists. }
  destruct Hbj as [ids Hbj]. exists sm, ej. split; [done|]. split; [done|]. intros b' Hb'.
  exact (proj2 (accepted_log_fencing (events sample) sm 0 58 ei ej 0 1 1 2 0 _ Hs ltac:(lia) Hi Hj Hbi Hbj) b' Hb').
Defined.
