(* ===== verification/ReadModel.v ===== *)
(** * The V5.2 read and publication model ([scripts/v52/model.py])

    One replica with its accepted, proven and published positions, client reads of three policies,
    the transition function that enumerates every enabled event, the state invariant [check], and
    the bounded breadth-first exploration. *)

From stdpp Require Import base gmap sets strings list sorting.
From S2P Require Import Prelude.
Import ResultNotations.
Local Open Scope py_scope.
Local Open Scope Z_scope.

(** ** State *)

Inductive phase : Type := NEW | WAIT | ACTIVE | RELEASED | SUCCESS | REJECTED | CANCELLED.
Inductive policy : Type := Strong | Minimum | Stale.
Inductive role : Type := Leader | Follower | Recovering.

Record Read := MkRead {
  r_policy : policy;
  r_identity : Z;
  r_minimum : Z;
  r_phase : phase;
  r_barrier : Z;
  r_epoch : Z;
  r_cut : Z;
  r_invoked : Z;
  r_cancelled : bool
}.

Record State := MkState {
  s_accepted : Z;
  s_proven : Z;
  s_published : Z;
  s_sequence : list Z;
  s_epoch : Z;
  s_role : role;
  s_quorum : bool;
  s_closed : bool;
  s_expired : bool;
  s_reads : list Read
}.

#[export] Instance phase_eq_dec : EqDecision phase.
Proof. solve_decision. Defined.
#[export] Instance policy_eq_dec : EqDecision policy.
Proof. solve_decision. Defined.
#[export] Instance role_eq_dec : EqDecision role.
Proof. solve_decision. Defined.
#[export] Instance Read_eq_dec : EqDecision Read.
Proof. solve_decision. Defined.
#[export] Instance State_eq_dec : EqDecision State.
Proof. solve_decision. Defined.

(** [Read(policy)] and [State()] with the defaults of the dataclasses. *)
Definition read_default (p : policy) : Read := MkRead p 0 2 NEW (-1) 0 (-1) 0 false.
Definition state_default : State :=
  MkState 0 0 0 [0] 1 Leader true false false (map read_default [Strong; Minimum; Stale]).
(** The second root: foreign identity, minimum 0, minimum 3. *)
Definition state_tokens : State :=
  MkState 0 0 0 [0] 1 Leader true false false
    [MkRead Minimum 1 2 NEW (-1) 0 (-1) 0 false; MkRead Minimum 0 0 NEW (-1) 0 (-1) 0 false;
     MkRead Minimum 0 3 NEW (-1) 0 (-1) 0 false].
Definition roots : list State := [state_default; state_tokens].

(** *** [replace(...)] *)

Definition set_log acc prov seq s := MkState acc prov (s_published s) seq (s_epoch s) (s_role s) (s_quorum s)
  (s_closed s) (s_expired s) (s_reads s).
Definition set_published p s := MkState (s_accepted s) (s_proven s) p (s_sequence s) (s_epoch s) (s_role s)
  (s_quorum s) (s_closed s) (s_expired s) (s_reads s).
Definition set_role e ro s := MkState (s_accepted s) (s_proven s) (s_published s) (s_sequence s) e ro (s_quorum s)
  (s_closed s) (s_expired s) (s_reads s).
Definition set_flags q c x s := MkState (s_accepted s) (s_proven s) (s_published s) (s_sequence s) (s_epoch s)
  (s_role s) q c x (s_reads s).
Definition request (s : State) (i : nat) (r : Read) : State := MkState (s_accepted s) (s_proven s) (s_published s)
  (s_sequence s) (s_epoch s) (s_role s) (s_quorum s) (s_closed s) (s_expired s) (<[i := r]> (s_reads s)).

Definition with_phase p r := MkRead (r_policy r) (r_identity r) (r_minimum r) p (r_barrier r) (r_epoch r) (r_cut r)
  (r_invoked r) (r_cancelled r).
Definition with_barrier b e r := MkRead (r_policy r) (r_identity r) (r_minimum r) (r_phase r) b e (r_cut r)
  (r_invoked r) (r_cancelled r).
Definition with_capture c r := MkRead (r_policy r) (r_identity r) (r_minimum r) ACTIVE (r_barrier r) (r_epoch r) c
  1 (r_cancelled r).
Definition with_cancelled r := MkRead (r_policy r) (r_identity r) (r_minimum r) (r_phase r) (r_barrier r) (r_epoch r)
  (r_cut r) (r_invoked r) true.

(** ** [check] *)

Definition raise_if (b : bool) (msg : string) : result unit := guard (negb b) (ValueError msg).

Definition is_phase (p : phase) (r : Read) : bool := bool_decide (r_phase r = p).
(** [sum(r.phase == p for r in reads)] *)
Definition count_reads (f : Read -> bool) (l : list Read) : nat := length (filter (fun r => f r = true) l).
Definition admitted (r : Read) : bool := is_phase WAIT r || is_phase ACTIVE r || is_phase RELEASED r.

Definition check_read (s : State) (r : Read) : result unit :=
  do! raise_if (negb ((r_invoked r =? 0) || (r_invoked r =? 1))) "callback once" in
  do! (if is_phase ACTIVE r || is_phase RELEASED r || is_phase SUCCESS r then
         do! raise_if (negb ((0 <=? r_cut r) && (r_cut r <=? s_published s)) || negb (r_invoked r =? 1))
           "committed publication" in
         do! raise_if (negb (r_identity r =? 0)) "identity" in
         do! raise_if (bool_decide (r_policy r = Minimum) && (r_cut r <? r_minimum r)) "minimum" in
         raise_if (bool_decide (r_policy r = Strong)
                   && ((r_barrier r <? 1) || (r_cut r <? r_barrier r) || (r_epoch r <? 1))) "strong barrier"
       else Ok tt) in
  raise_if (is_phase WAIT r && (negb (r_cut r =? -1) || negb (r_invoked r =? 0))) "wait owns publication".

(** [for x in l: f(x)] where [f] may raise. *)
Fixpoint each {A} (f : A -> result unit) (l : list A) : result unit :=
  match l with
  | [] => Ok tt
  | x :: l' => do! f x in each f l'
  end.

Definition check (s : State) : result unit :=
  do! raise_if (negb ((0 <=? s_published s) && (s_published s <=? s_proven s)
                      && (s_proven s <=? s_accepted s) && (s_accepted s <=? 3))) "prefix" in
  do! raise_if (negb (Z.of_nat (length (s_sequence s)) =? s_proven s + 1)
                || negb (forallb (fun v => (0 <=? v) && (v <=? 2)) (s_sequence s))
                || negb (bool_decide (merge_sort Z.le (s_sequence s) = s_sequence s))) "sequence" in
  do! raise_if (1 <? count_reads (is_phase ACTIVE) (s_reads s))%nat "view ownership" in
  do! raise_if (3 <? count_reads admitted (s_reads s))%nat "admission bound" in
  each (check_read s) (s_reads s).

(** ** [transitions] *)

(** The part of a label after its last colon. *)
Inductive action : Type :=
  | AAccept | AProof | APublish | APromise | ARole (r : role) | AQuorum | AClose | ADeadline
  | AAdmit | ACancel | AReject | AFenced | ABarrier | ACapture | ARelease | ACancelActive | AComplete.

#[export] Instance action_eq_dec : EqDecision action.
Proof. solve_decision. Defined.

(** A label: an action of the replica, or of the read at a position. *)
Record label := Label { l_read : option nat; l_action : action }.

#[export] Instance label_eq_dec : EqDecision label.
Proof. solve_decision. Defined.

Definition any_active (s : State) : bool := existsb (is_phase ACTIVE) (s_reads s).

(** [s.sequence[-1]] *)
Definition last_sequence (s : State) : Z := List.last (s_sequence s) 0.

Definition replica_transitions (s : State) : list (label * State) :=
  let act a := Label None a in
  if s_closed s then [] else
  (if (s_accepted s =? s_proven s) && (s_accepted s <? 3)
   then [(act AAccept, set_log (s_accepted s + 1) (s_proven s) (s_sequence s) s)] else [])
  ++ (if (s_proven s <? s_accepted s) && s_quorum s then
        concat (map (fun increment =>
          let seq := last_sequence s + increment in
          if seq <=? 2 then [(act AProof, set_log (s_accepted s) (s_accepted s) (s_sequence s ++ [seq]) s)] else [])
          [0; 1])
      else [])
  ++ (if (s_published s <? s_proven s) && negb (any_active s)
      then [(act APublish, set_published (s_proven s) s)] else [])
  ++ (if s_epoch s <? 3 then [(act APromise, set_role (s_epoch s + 1) Follower s)] else [])
  ++ concat (map (fun ro => if decide (ro = s_role s) then [] else [(act (ARole ro), set_role (s_epoch s) ro s)])
       [Leader; Follower; Recovering])
  ++ [(act AQuorum, set_flags (negb (s_quorum s)) (s_closed s) (s_expired s) s)]
  ++ [(act AClose, set_flags (s_quorum s) true (s_expired s) s)].

(** A read that cannot be served: the service is closed, recovering, too late, or the token foreign. *)
Definition refused (s : State) (r : Read) : bool :=
  s_closed s || s_expired s || bool_decide (s_role s = Recovering) || negb (r_identity r =? 0).

Definition capture (s : State) (i : nat) (r : Read) : list (label * State) :=
  if any_active s then [] else [(Label (Some i) ACapture, request s i (with_capture (s_published s) r))].

Definition wait_transitions (s : State) (i : nat) (r : Read) : list (label * State) :=
  let act a := Label (Some i) a in
  (act ACancel, request s i (with_phase CANCELLED r)) ::
  if refused s r then [(act AReject, request s i (with_phase REJECTED r))] else
  match r_policy r with
  | Strong =>
      if bool_decide (s_role s <> Leader) || (negb (r_epoch r =? 0) && negb (r_epoch r =? s_epoch s))
      then [(act AFenced, request s i (with_phase REJECTED r))] else
      (if (r_barrier r <? 0) && s_quorum s && (s_accepted s =? s_proven s) && (s_proven s <? 3) then
         [(act ABarrier, set_log (s_proven s + 1) (s_proven s + 1) (s_sequence s ++ [last_sequence s])
            (request s i (with_barrier (s_proven s + 1) (s_epoch s) r)))]
       else [])
      ++ (if (r_barrier r <? 0) || (s_published s <? r_barrier r) then [] else capture s i r)
  | Minimum => if s_published s <? r_minimum r then [] else capture s i r
  | Stale => capture s i r
  end.

Definition read_transitions (s : State) (i : nat) (r : Read) : list (label * State) :=
  let act a := Label (Some i) a in
  match r_phase r with
  | NEW => [(act AAdmit, request s i (with_phase (if refused s r then REJECTED else WAIT) r))]
  | WAIT => wait_transitions s i r
  | ACTIVE =>
      (act ARelease, request s i (with_phase (if r_cancelled r then CANCELLED else RELEASED) r)) ::
      (if r_cancelled r then [] else [(act ACancelActive, request s i (with_cancelled r))])
  | RELEASED =>
      [(act AComplete, request s i (with_phase SUCCESS r)); (act ACancel, request s i (with_phase CANCELLED r))]
  | SUCCESS | REJECTED | CANCELLED => []
  end.

Definition transitions (s : State) : list (label * State) :=
  replica_transitions s
  ++ (if s_expired s then [] else [(Label None ADeadline, set_flags (s_quorum s) (s_closed s) true s)])
  ++ concat (imap (read_transitions s) (s_reads s)).

(** ** [explore] *)

Record exploration := Exploration {
  x_seen : list State;
  x_frontier : list (State * nat);
  x_edges : nat;
  x_outcomes : list phase;
  x_counts : list (action * nat)
}.

Definition terminal (r : Read) : bool := is_phase SUCCESS r || is_phase REJECTED r || is_phase CANCELLED r.

(** The checks of one edge; the labels of captures name the read they capture. *)
Definition check_edge (s : State) (l : label) (nxt : State) : result unit :=
  do! check nxt in
  do! (match l with
       | Label (Some i) ACapture =>
           let! r := of_option (s_reads nxt !! i) IndexError in
           raise_if (bool_decide (r_policy r = Strong)
                     && (negb (r_epoch r =? s_epoch s) || bool_decide (s_role s <> Leader))) "strong capture epoch"
       | _ => Ok tt
       end) in
  do! raise_if (any_active s && negb (s_published nxt =? s_published s)) "active cut changed" in
  each (fun p : Read * Read => raise_if (terminal p.1 && negb (bool_decide (p.1 = p.2))) "terminal resurrection")
    (zip (s_reads s) (s_reads nxt)).

Definition bump (a : action) (c : list (action * nat)) : list (action * nat) :=
  assoc_set a (S (default 0%nat (assoc_get a c))) c.

(** One edge: [None] asks for the early return of an exhausted state budget. *)
Definition visit_edge (max_states level : nat) (s : State) (x : exploration) (e : label * State)
  : result (option exploration) :=
  do! check_edge s e.1 e.2 in
  let x := Exploration (x_seen x) (x_frontier x) (S (x_edges x)) (x_outcomes x) (bump (l_action e.1) (x_counts x)) in
  if bool_decide (e.2 ∈ x_seen x) then Ok (Some x)
  else if (max_states <=? length (x_seen x))%nat then Ok None
  else Ok (Some (Exploration (x_seen x ++ [e.2]) (x_frontier x ++ [(e.2, S level)]) (x_edges x) (x_outcomes x)
         (x_counts x))).

Fixpoint visit_edges (max_states level : nat) (s : State) (es : list (label * State)) (x : exploration)
  : result (exploration + exploration) :=
  match es with
  | [] => Ok (inl x)
  | e :: es' =>
      let! r := visit_edge max_states level s x e in
      match r with
      | Some x' => visit_edges max_states level s es' x'
      | None => Ok (inr (Exploration (x_seen x) (x_frontier x) (S (x_edges x)) (x_outcomes x)
                           (bump (l_action e.1) (x_counts x))))
      end
  end.

Definition all_phases : list phase := [NEW; WAIT; ACTIVE; RELEASED; SUCCESS; REJECTED; CANCELLED].

(** The [while frontier] loop: [inl] when the frontier is exhausted, [inr] when the budget is. *)
Fixpoint explore_loop (fuel depth max_states : nat) (x : exploration) : result (exploration + exploration) :=
  match fuel with
  | 0%nat => Err (AssertionError "fuel")
  | S fuel' =>
      match x_frontier x with
      | [] => Ok (inl x)
      | (s, level) :: rest =>
          do! check s in
          let x := Exploration (x_seen x) rest (x_edges x)
            (remove_dups (map r_phase (s_reads s) ++ x_outcomes x)) (x_counts x) in
          if (level =? depth)%nat then explore_loop fuel' depth max_states x
          else
            let! r := visit_edges max_states level s (transitions s) x in
            match r with
            | inl x' => explore_loop fuel' depth max_states x'
            | inr x' => Ok (inr x')
            end
      end
  end.

Inductive status : Type := PASS | INCOMPLETE.

Record report := Report {
  rep_status : status;
  rep_states : nat;
  rep_transitions : nat;
  rep_depth : nat;
  rep_outcomes : list phase;
  rep_events : list (action * nat)
}.

Definition start : exploration := Exploration roots (map (fun r => (r, 0%nat)) roots) 0 [] [].

Definition explore_run (depth max_states : nat) : result (exploration + exploration) :=
  explore_loop (max_states + 4) depth max_states start.

Definition explore (depth max_states : nat) : result report :=
  let! r := explore_run depth max_states in
  match r with
  | inl x => Ok (Report PASS (length (x_seen x)) (x_edges x) depth
      (filter (fun p => p ∈ x_outcomes x) all_phases) (x_counts x))
  | inr x => Ok (Report INCOMPLETE (length (x_seen x)) (x_edges x) depth [] [])
  end.
