(* ===== verification/ReadSafety.v ===== *)
(** * Correctness of the V5.2 read model

    An inductive invariant stronger than [check]; every transition keeps it, so the exploration
    never raises; the exploration terminates and, when it passes, has seen exactly the states
    within its depth; strong reads are fresh. *)

From stdpp Require Import base gmap sets strings list sorting.
From S2P Require Import Prelude ReadModel.
Import ResultNotations.
Local Open Scope py_scope.
Local Open Scope Z_scope.

(** ** The inductive invariant *)

Definition serving (p : phase) : Prop := p = ACTIVE \/ p = RELEASED \/ p = SUCCESS.

(** What is known of a read of phase [r_phase r] when the replica has published [pub]. *)
Record ReadOk (pub : Z) (r : Read) : Prop := {
  ro_new : r_phase r = NEW -> r_cut r = -1 /\ r_invoked r = 0 /\ r_barrier r = -1 /\ r_epoch r = 0;
  ro_wait : r_phase r = WAIT -> r_cut r = -1 /\ r_invoked r = 0 /\
    ((r_barrier r = -1 /\ r_epoch r = 0) \/ (1 <= r_barrier r /\ 1 <= r_epoch r));
  ro_serve : serving (r_phase r) -> 0 <= r_cut r <= pub /\ r_invoked r = 1 /\ r_identity r = 0 /\
    (r_policy r = Minimum -> r_minimum r <= r_cut r) /\
    (r_policy r = Strong -> 1 <= r_barrier r <= r_cut r /\ 1 <= r_epoch r);
  ro_invoked : r_invoked r = 0 \/ r_invoked r = 1
}.

Record Good (s : State) : Prop := {
  gd_log : 0 <= s_published s <= s_proven s /\ s_proven s <= s_accepted s <= 3;
  gd_length : Z.of_nat (length (s_sequence s)) = s_proven s + 1;
  gd_sequence : Forall (fun v => 0 <= v <= 2) (s_sequence s);
  gd_sorted : Sorted Z.le (s_sequence s);
  gd_epoch : 1 <= s_epoch s;
  gd_reads : (length (s_reads s) <= 3)%nat;
  gd_active : (count_reads (is_phase ACTIVE) (s_reads s) <= 1)%nat;
  gd_each : Forall (ReadOk (s_published s)) (s_reads s);
  gd_step : s_accepted s <= s_proven s + 1
}.

Lemma raise_if_false b msg : b = false -> raise_if b msg = Ok tt.
Proof. by intros ->. Qed.

Lemma each_ok {A} (f : A -> result unit) l : (forall x, x ∈ l -> f x = Ok tt) -> each f l = Ok tt.
Proof.
  induction l as [|x l IH]; intros H; simpl; [done|].
  rewrite H by left. simpl. apply IH. intros y Hy. apply H. by right.
Qed.

Lemma is_phase_spec p r : is_phase p r = true <-> r_phase r = p.
Proof. apply bool_decide_eq_true. Qed.

Lemma serving_spec r : is_phase ACTIVE r || is_phase RELEASED r || is_phase SUCCESS r = true <-> serving (r_phase r).
Proof. unfold serving. rewrite !orb_true_iff, !is_phase_spec. tauto. Qed.

Lemma check_read_ok s r : ReadOk (s_published s) r -> check_read s r = Ok tt.
Proof.
  intros [Hn Hw Hs Hi]. unfold check_read.
  rewrite (raise_if_false _ "callback once") by (destruct Hi as [-> | ->]; done). simpl.
  destruct (_ || _ || _) eqn:E.
  - apply serving_spec in E. destruct (Hs E) as (Hc & Hinv & Hid & Hmin & Hstr).
    rewrite Hinv, Hid, (proj2 (Z.leb_le 0 _)), (proj2 (Z.leb_le _ (s_published s))) by lia. simpl.
    rewrite (raise_if_false _ "minimum"); [simpl|].
    + rewrite (raise_if_false _ "strong barrier"); simpl.
      * apply raise_if_false. unfold is_phase. destruct E as [-> | [-> | ->]]; done.
      * case_bool_decide as Hp; [|done]. destruct (Hstr Hp). simpl. 
        by rewrite !(proj2 (Z.ltb_ge _ _)) by lia.
    + case_bool_decide as Hp; [|done]. simpl. apply Z.ltb_ge. auto.
  - simpl. apply raise_if_false. unfold is_phase. case_bool_decide as Hp; [|done].
    destruct (Hw Hp) as (-> & -> & _). done.
Qed.

Lemma filter_le {A} (P : A -> Prop) `{!forall x, Decision (P x)} (l : list A) :
  (length (filter P l) <= length l)%nat.
Proof. apply sublist_length, sublist_filter. Qed.

Lemma sorted_merge_sort (l : list Z) : Sorted Z.le l -> merge_sort Z.le l = l.
Proof.
  intros H. apply (Sorted_unique Z.le); [apply (Sorted_merge_sort _) | done | apply merge_sort_Permutation].
Qed.

(** The invariant is at least what the code checks. *)
Lemma Good_check s : Good s -> check s = Ok tt.
Proof.
  intros [H1 H2 H3 H4 H5 H6 H7 H8 _]. unfold check.
  rewrite (raise_if_false _ "prefix"); [simpl|].
  2: { by rewrite !(proj2 (Z.leb_le _ _)) by lia. }
  rewrite (raise_if_false _ "sequence"); [simpl|].
  2: { rewrite (proj2 (Z.eqb_eq _ _) H2), sorted_merge_sort, bool_decide_true by done. simpl.
       rewrite (proj2 (forallb_forall _ _)); [done|]. intros v Hv%list_elem_of_In.
       rewrite Forall_forall in H3. specialize (H3 _ Hv). by rewrite !(proj2 (Z.leb_le _ _)) by lia. }
  rewrite (raise_if_false _ "view ownership") by (apply Nat.ltb_ge; done). simpl.
  rewrite (raise_if_false _ "admission bound"); [simpl|].
  2: { apply Nat.ltb_ge. etrans; [apply filter_le | done]. }
  apply each_ok. intros r Hr. apply check_read_ok. rewrite Forall_forall in H8. auto.
Qed.

(** ** Updates of one read *)

Lemma count_insert f (l : list Read) i r r' :
  l !! i = Some r ->
  (count_reads f (<[i := r']> l) + (if f r then 1 else 0) = count_reads f l + (if f r' then 1 else 0))%nat.
Proof.
  unfold count_reads. revert i. induction l as [|x l IH]; intros [|i] Hi; simplify_eq/=.
  - rewrite !filter_cons. destruct (f r) eqn:E1, (f r') eqn:E2; repeat case_decide; simpl; try congruence; lia.
  - rewrite !filter_cons. specialize (IH _ Hi). case_decide; simpl; lia.
Qed.

Lemma ReadOk_publish pub pub' r : pub <= pub' -> ReadOk pub r -> ReadOk pub' r.
Proof.
  intros Hle [H1 H2 H3 H4]. split; auto. intros Hs. destruct (H3 Hs) as (? & ? & ? & ? & ?). split_and!; auto; lia.
Qed.

(** Replacing one read keeps the invariant when the new read is fine and takes no second view. *)
Lemma Good_request s i r r' :
  Good s -> s_reads s !! i = Some r -> ReadOk (s_published s) r' ->
  (r_phase r' = ACTIVE -> r_phase r = ACTIVE \/ any_active s = false) -> Good (request s i r').
Proof.
  intros [H1 H2 H3 H4 H5 H6 H7 H8 H9] Hi Hr' Hact. split; simpl; auto.
  - by rewrite length_insert.
  - pose proof (count_insert (is_phase ACTIVE) _ _ _ r' Hi) as Hc.
    destruct (is_phase ACTIVE r') eqn:E'; cbn in Hc; [|destruct (is_phase ACTIVE r); lia].
    apply is_phase_spec in E'. destruct (Hact E') as [Hr | Hno].
    + apply is_phase_spec in Hr. rewrite Hr in Hc. lia.
    + assert (count_reads (is_phase ACTIVE) (s_reads s) = 0)%nat as Hz; [|destruct (is_phase ACTIVE r); lia].
      unfold count_reads. apply length_zero_iff_nil.
      unfold any_active in Hno. clear -Hno. induction (s_reads s) as [|x l IH]; [done|].
      simpl in Hno. apply orb_false_iff in Hno as [Hx Hno]. rewrite filter_cons, Hx. rewrite decide_False by done. auto.
  - by apply Forall_insert.
Qed.

Lemma read_phase_ok pub r p :
  ReadOk pub r -> (r_phase r <> NEW) -> p <> NEW -> p <> WAIT -> p <> ACTIVE ->
  (serving p -> serving (r_phase r)) -> ReadOk pub (with_phase p r).
Proof.
  intros [H1 H2 H3 H4] Hn Hp1 Hp2 Hp3 Hs. split; simpl; try done. intros Hx. apply H3, Hs, Hx.
Qed.

(** ** Transitions keep the invariant *)

Lemma sorted_snoc (l : list Z) x :
  Sorted Z.le l -> (l = [] \/ List.last l 0 <= x) -> Sorted Z.le (l ++ [x]).
Proof.
  induction l as [|y l IH]; intros Hs Hl; simpl; [by repeat constructor|].
  destruct Hl as [|Hl]; [done|]. apply Sorted_inv in Hs as [Hs Hh]. constructor.
  - apply IH; [done|]. destruct l; [by left | right]. exact Hl.
  - destruct l as [|z l]; simpl; [by constructor | by inversion Hh; constructor].
Qed.

Lemma last_bounds (l : list Z) : Forall (fun v => 0 <= v <= 2) l -> 0 <= List.last l 0 <= 2.
Proof.
  induction l as [|y l IH]; intros Hl; simpl; [lia|]. apply Forall_cons in Hl as [Hy Hl].
  destruct l; [lia | by apply IH].
Qed.

(** Proving the accepted entry, or a barrier together with its acceptance. *)
Lemma Good_prove s acc seq :
  Good s -> s_proven s + 1 = acc -> acc <= 3 -> last_sequence s <= seq <= 2 ->
  Good (set_log acc acc (s_sequence s ++ [seq]) s).
Proof.
  intros [H1 H2 H3 H4 H5 H6 H7 H8 H9] Hacc H Hseq. pose proof (last_bounds _ H3) as Hb.
  unfold last_sequence in Hseq. split; simpl; auto; try lia.
  - rewrite length_app. simpl. lia.
  - apply Forall_app. split; [done|]. apply Forall_singleton. lia.
  - apply sorted_snoc; [done|]. right. lia.
Qed.

Lemma Good_replica s l s' : Good s -> (l, s') ∈ replica_transitions s -> Good s'.
Proof.
  intros HG. unfold replica_transitions. destruct (s_closed s); [by intros ?%elem_of_nil|].
  pose proof HG as [H1 H2 H3 H4 H5 H6 H7 H8 H9].
  rewrite !elem_of_app. intros Hin. destruct_or? Hin.
  - destruct (_ && _) eqn:E; [|by apply elem_of_nil in Hin]. bool_tac.
    apply list_elem_of_singleton in Hin. simplify_eq. split; simpl; auto; lia.
  - destruct (_ && _) eqn:E; [|by apply elem_of_nil in Hin]. bool_tac.
    apply list_elem_of_In, in_concat in Hin as (x & Hx & Hin). apply in_map_iff in Hx as (inc & <- & Hinc).
    destruct (last_sequence s + inc <=? 2) eqn:E2; [|done]. destruct Hin as [Hin | []]. simplify_eq. bool_tac.
    assert (s_accepted s = s_proven s + 1) as -> by lia.
    apply Good_prove; auto; [lia|]. destruct Hinc as [<- | [<- | []]]; lia.
  - destruct (_ && _) eqn:E; [|by apply elem_of_nil in Hin]. bool_tac.
    apply list_elem_of_singleton in Hin. simplify_eq. split; simpl; auto; [lia|].
    eapply Forall_impl; [exact H8|]. intros r. apply ReadOk_publish. lia.
  - destruct (_ <? _) eqn:E; [|by apply elem_of_nil in Hin]. bool_tac.
    apply list_elem_of_singleton in Hin. simplify_eq. split; simpl; auto. lia.
  - apply list_elem_of_In, in_concat in Hin as (x & Hx & Hin). apply in_map_iff in Hx as (ro & <- & _).
    destruct (decide _); [done|]. destruct Hin as [Hin | []]. simplify_eq. by split.
  - apply list_elem_of_singleton in Hin. simplify_eq. by split.
  - apply list_elem_of_singleton in Hin. simplify_eq. by split.
Qed.

Lemma refused_identity s r : refused s r = false -> r_identity r = 0.
Proof. unfold refused. intros H. bool_tac. done. Qed.

Lemma Good_capture s i r l s' :
  Good s -> s_reads s !! i = Some r -> r_phase r = WAIT -> refused s r = false ->
  (r_policy r = Minimum -> r_minimum r <= s_published s) ->
  (r_policy r = Strong -> 1 <= r_barrier r <= s_published s /\ 1 <= r_epoch r) ->
  (l, s') ∈ capture s i r -> Good s'.
Proof.
  intros HG Hi Hp Hr Hm Hst. unfold capture. destruct (any_active s) eqn:Ea; [by intros ?%elem_of_nil|].
  intros Hin%list_elem_of_singleton. simplify_eq. eapply Good_request; [done..| | by right].
  pose proof (gd_log _ HG). split; simpl; try done; [|by right].
  intros _. split_and!; auto; try lia. by eapply refused_identity.
Qed.

Lemma Good_wait s i r l s' :
  Good s -> s_reads s !! i = Some r -> r_phase r = WAIT -> (l, s') ∈ wait_transitions s i r -> Good s'.
Proof.
  intros HG Hi Hp. pose proof (gd_each _ HG) as Hall. rewrite Forall_lookup in Hall. pose proof (Hall _ _ Hi) as Hr.
  assert (Hend : forall p, p = CANCELLED \/ p = REJECTED -> Good (request s i (with_phase p r))).
  { intros p Hpp. eapply Good_request; [done..| |].
    - apply read_phase_ok; [done | congruence | destruct Hpp; congruence..|].
      intros Hs. unfold serving in Hs. destruct Hpp; subst; naive_solver.
    - simpl. intros ->. naive_solver. }
  unfold wait_transitions. intros [Hin|Hin]%elem_of_cons; [simplify_eq; auto|].
  destruct (refused s r) eqn:Href; [apply list_elem_of_singleton in Hin; simplify_eq; auto|].
  destruct (ro_wait _ _ Hr Hp) as (Hc & Hinv & Hbar).
  destruct (r_policy r) eqn:Hpol.
  - destruct (_ || _) eqn:Ef; [apply list_elem_of_singleton in Hin; simplify_eq; auto|].
    apply elem_of_app in Hin as [Hin|Hin].
    + destruct (_ && _ && _ && _) eqn:Eb; [|by apply elem_of_nil in Hin]. bool_tac.
      apply list_elem_of_singleton in Hin. simplify_eq. pose proof HG as [G1 G2 G3 G4 G5 G6 G7 G8 G9].
      apply (Good_prove (request s i (with_barrier (s_proven s + 1) (s_epoch s) r))); simpl; try lia.
      * eapply Good_request; [done..| |]; simpl; [|by rewrite Hp].
        split; simpl; rewrite ?Hp; try done.
        -- intros _. split_and!; auto. right. lia.
        -- intros [|[|]]; done.
        -- apply Hr.
      * unfold last_sequence. simpl. pose proof (last_bounds _ G3). lia.
    + destruct ((r_barrier r <? 0) || (s_published s <? r_barrier r)) eqn:Ew; [by apply elem_of_nil in Hin|]. bool_tac.
      eapply Good_capture; try done; [by rewrite Hpol|]. intros _. lia.
  - destruct (_ <? _) eqn:Ew; [by apply elem_of_nil in Hin|]. bool_tac.
    eapply Good_capture; try done. by rewrite Hpol.
  - eapply Good_capture; try done; by rewrite Hpol.
Qed.

Lemma Good_read s i r l s' :
  Good s -> s_reads s !! i = Some r -> (l, s') ∈ read_transitions s i r -> Good s'.
Proof.
  intros HG Hi. pose proof (gd_each _ HG) as Hall. rewrite Forall_lookup in Hall. pose proof (Hall _ _ Hi) as Hr.
  unfold read_transitions. destruct (r_phase r) eqn:Hp; try (by intros ?%elem_of_nil).
  - intros Hin%list_elem_of_singleton. simplify_eq. destruct (ro_new _ _ Hr Hp) as (Hc & Hinv & Hb & He).
    eapply Good_request; [done..| |]; [|simpl; by destruct (refused s r)].
    split; simpl; try (by destruct (refused s r)); [|by intros [|[|]]; destruct (refused s r) | apply Hr].
    intros _. auto.
  - by apply Good_wait.
  - intros [Hin|Hin]%elem_of_cons.
    + simplify_eq. eapply Good_request; [done..| |]; [|simpl; by destruct (r_cancelled r)].
      apply read_phase_ok; [done | congruence | by destruct (r_cancelled r)..|]. intros _. by left.
    + destruct (r_cancelled r); [by apply elem_of_nil in Hin|].
      apply list_elem_of_singleton in Hin. simplify_eq. eapply Good_request; [done..| |]; [|by left].
      destruct Hr as [R1 R2 R3 R4]. by split.
  - intros Hin. assert (exists p, s' = request s i (with_phase p r) /\ (p = SUCCESS \/ p = CANCELLED)) as (p & -> & Hpp).
    { set_solver. }
    eapply Good_request; [done..| |]; [|simpl; intros ->; naive_solver].
    apply read_phase_ok; [done | congruence | naive_solver..|]. intros _. rewrite Hp. by right; left.
Qed.

Lemma elem_of_transitions s l s' :
  (l, s') ∈ transitions s <-> (l, s') ∈ replica_transitions s \/
    (s_expired s = false /\ l = Label None ADeadline /\ s' = set_flags (s_quorum s) (s_closed s) true s) \/
    exists i r, s_reads s !! i = Some r /\ (l, s') ∈ read_transitions s i r.
Proof.
  unfold transitions. rewrite !elem_of_app. f_equiv. f_equiv.
  - destruct (s_expired s); [set_solver|]. rewrite list_elem_of_singleton. naive_solver.
  - rewrite list_elem_of_In, in_concat. split.
    + intros (x & Hx & Hin). apply list_elem_of_In, elem_of_lookup_imap in Hx as (i & r & -> & Hi).
      exists i, r. split; [done|]. by apply list_elem_of_In.
    + intros (i & r & Hi & Hin). exists (read_transitions s i r). split; [|by apply list_elem_of_In].
      apply list_elem_of_In, elem_of_lookup_imap. by exists i, r.
Qed.

Lemma Good_transition s l s' : Good s -> (l, s') ∈ transitions s -> Good s'.
Proof.
  intros HG [Hin | [(_ & _ & ->) | (i & r & Hi & Hin)]]%elem_of_transitions.
  - by eapply Good_replica.
  - destruct HG. by split.
  - by eapply Good_read.
Qed.

Lemma Good_roots s : s ∈ roots -> Good s.
Proof.
  intros Hs. unfold roots in Hs. apply elem_of_cons in Hs as [-> | Hs]; [|apply list_elem_of_singleton in Hs as ->].
  all: split; simpl; try lia; try (by repeat constructor); try (vm_compute; lia).
  all: repeat (apply Forall_cons; split; [split; simpl; try done; [by intros [|[|]] | by left]|]); apply Forall_nil.
  all: done.
Qed.

(** ** The checks of an edge *)

(** [enum H] goes through the cases of a membership in an enumeration of transitions. *)
Ltac enum H :=
  repeat lazymatch type of H with
  | _ ∈ [] => by apply elem_of_nil in H
  | _ ∈ _ :: _ => apply elem_of_cons in H as [H|H]
  | _ ∈ _ ++ _ => apply elem_of_app in H as [H|H]
  | _ ∈ (if ?b then _ else _) => destruct b eqn:?
  | _ ∈ (match ?x with _ => _ end) => destruct x eqn:?
  end.

(** What every transition does to the reads: nothing, or it changes one read that is not terminal. *)
Lemma transition_reads s l s' :
  (l, s') ∈ transitions s ->
  s_reads s' = s_reads s \/
  exists i r r', s_reads s !! i = Some r /\ s_reads s' = <[i := r']> (s_reads s) /\ terminal r = false.
Proof.
  assert (Ht : forall r p, r_phase r = p -> (p = NEW \/ p = WAIT \/ p = ACTIVE \/ p = RELEASED) -> terminal r = false).
  { intros r p Hp Hor. unfold terminal, is_phase. rewrite Hp. by destruct Hor as [-> | [-> | [-> | ->]]]. }
  intros [Hin | [(_ & _ & ->) | (i & r & Hi & Hin)]]%elem_of_transitions.
  - left. unfold replica_transitions in Hin. destruct (s_closed s); [by apply elem_of_nil in Hin|].
    rewrite !elem_of_app in Hin. destruct_or? Hin.
    + destruct (_ && _); set_solver.
    + destruct (_ && _); [|set_solver].
      apply list_elem_of_In, in_concat in Hin as (x & Hx & Hin). apply in_map_iff in Hx as (inc & <- & _).
      destruct (_ <=? _); [|done]. destruct Hin as [Hin | []]. by simplify_eq.
    + destruct (_ && _); set_solver.
    + destruct (_ <? _); set_solver.
    + apply list_elem_of_In, in_concat in Hin as (x & Hx & Hin). apply in_map_iff in Hx as (ro & <- & _).
      destruct (decide _); [done|]. destruct Hin as [Hin | []]. by simplify_eq.
    + apply list_elem_of_singleton in Hin. by simplify_eq.
    + apply list_elem_of_singleton in Hin. by simplify_eq.
  - by left.
  - right. exists i, r.
    assert (exists r', s_reads s' = <[i := r']> (s_reads s) /\ terminal r = false) as (r' & ? & ?); [|by exists r'].
    unfold read_transitions, wait_transitions, capture in Hin. cbv zeta in Hin.
    destruct (r_phase r) eqn:Hp; enum Hin; simplify_eq; (eexists; split; [reflexivity|]); (eapply Ht; [exact Hp | tauto]).
Qed.

(** A transition that changes the publication needs a replica without an active view; captures
    record the leader's current epoch. *)
Lemma transition_publication s l s' :
  (l, s') ∈ transitions s -> any_active s = true -> s_published s' = s_published s.
Proof.
  intros [Hin | [(_ & _ & ->) | (i & r & Hi & Hin)]]%elem_of_transitions Ha.
  - unfold replica_transitions in Hin. rewrite Ha, andb_false_r in Hin.
    destruct (s_closed s); [by apply elem_of_nil in Hin|].
    rewrite !elem_of_app in Hin. destruct_or? Hin.
    + destruct (_ && _); set_solver.
    + destruct (_ && _); [|set_solver].
      apply list_elem_of_In, in_concat in Hin as (x & Hx & Hin). apply in_map_iff in Hx as (inc & <- & _).
      destruct (_ <=? _); [|done]. destruct Hin as [Hin | []]. by simplify_eq.
    + by apply elem_of_nil in Hin.
    + destruct (_ <? _); set_solver.
    + apply list_elem_of_In, in_concat in Hin as (x & Hx & Hin). apply in_map_iff in Hx as (ro & <- & _).
      destruct (decide _); [done|]. destruct Hin as [Hin | []]. by simplify_eq.
    + apply list_elem_of_singleton in Hin. by simplify_eq.
    + apply list_elem_of_singleton in Hin. by simplify_eq.
  - done.
  - unfold read_transitions, wait_transitions, capture in Hin. rewrite Ha in Hin. cbv zeta in Hin.
    destruct (r_phase r); enum Hin; by simplify_eq.
Qed.

Lemma replica_label s l s' : (l, s') ∈ replica_transitions s -> l_read l = None.
Proof.
  unfold replica_transitions. cbv zeta. intros Hin. enum Hin; simplify_eq; try done.
  - apply list_elem_of_In, in_concat in Hin as (x & Hx & Hin). apply in_map_iff in Hx as (inc & <- & _).
    destruct (_ <=? _); [|done]. destruct Hin as [Hin | []]. by simplify_eq.
  - apply list_elem_of_In, in_concat in Hin as (x & Hx & Hin). apply in_map_iff in Hx as (ro & <- & _).
    destruct (decide _); [done|]. destruct Hin as [Hin | []]. by simplify_eq.
Qed.

Lemma transition_capture s i s' :
  Good s -> (Label (Some i) ACapture, s') ∈ transitions s ->
  exists r, s_reads s !! i = Some r /\ s_reads s' = <[i := with_capture (s_published s) r]> (s_reads s) /\
    (r_policy r = Strong -> r_epoch r = s_epoch s /\ s_role s = Leader).
Proof.
  intros HG [Hin | [(_ & ? & _) | (j & r & Hi & Hin)]]%elem_of_transitions; [by apply replica_label in Hin | done|].
  assert (j = i /\ r_phase r = WAIT /\ s' = request s i (with_capture (s_published s) r) /\
    (r_policy r = Strong -> 0 <= r_barrier r /\ s_role s = Leader /\ (r_epoch r = 0 \/ r_epoch r = s_epoch s)))
    as (-> & Hp & -> & Hs).
  { unfold read_transitions, wait_transitions, capture in Hin. cbv zeta in Hin.
    destruct (r_phase r) eqn:Hp; enum Hin; simplify_eq; bool_tac; split_and!; try done; try congruence.
    intros _. split; [done|]. split; [by apply dec_stable|].
    destruct (Z.eqb_spec (r_epoch r) 0), (Z.eqb_spec (r_epoch r) (s_epoch s)); simpl in *; first [by left | by right | done]. }
  exists r. split_and!; [done..|]. intros Hst. destruct (Hs Hst) as (Hb & Hrole & Hep). split; [|done].
  pose proof (gd_each _ HG) as Hall. rewrite Forall_lookup in Hall. destruct (ro_wait _ _ (Hall _ _ Hi) Hp) as (_ & _ & Hw).
  pose proof (gd_epoch _ HG). lia.
Qed.

Lemma check_edge_ok s l s' : Good s -> (l, s') ∈ transitions s -> check_edge s l s' = Ok tt.
Proof.
  intros HG Hin. pose proof (Good_transition _ _ _ HG Hin) as HG'. unfold check_edge.
  rewrite (Good_check _ HG'). cbn [rbind].
  assert ((match l with
    | Label (Some i) ACapture =>
        rbind (of_option (s_reads s' !! i) IndexError) (fun r =>
        raise_if (bool_decide (r_policy r = Strong)
          && (negb (r_epoch r =? s_epoch s) || bool_decide (s_role s <> Leader))) "strong capture epoch")
    | _ => Ok tt end) = Ok tt) as ->.
  { destruct l as [[i|] a]; [|done]. destruct a; try done.
    destruct (transition_capture _ _ _ HG Hin) as (r & Hi & -> & Hs).
    rewrite list_lookup_insert_eq by (by eapply lookup_lt_Some). simpl. apply raise_if_false.
    case_bool_decide as Hp; [|done]. destruct (Hs Hp) as [-> ->]. by rewrite Z.eqb_refl. }
  cbn [rbind]. rewrite (raise_if_false _ "active cut changed"); [cbn [rbind]|].
  2: { destruct (any_active s) eqn:Ha; [|done]. rewrite (transition_publication _ _ _ Hin Ha).
       by rewrite Z.eqb_refl. }
  apply each_ok. intros [x y] Hxy. apply raise_if_false. simpl.
  apply list_elem_of_lookup in Hxy as [k Hk]. apply lookup_zip_Some in Hk as [Hx Hy].
  destruct (transition_reads _ _ _ Hin) as [Heq | (i & r & r' & Hi & Heq & Ht)]; rewrite Heq in Hy.
  - rewrite bool_decide_true by congruence. by rewrite andb_false_r.
  - destruct (decide (i = k)) as [->|Hne].
    + assert (x = r) as -> by congruence. by rewrite Ht.
    + rewrite list_lookup_insert_ne in Hy by done. rewrite bool_decide_true by congruence. by rewrite andb_false_r.
Qed.

(** ** Paths *)

Definition next (s s' : State) : Prop := exists l, (l, s') ∈ transitions s.

(** [within n s]: some root reaches [s] in at most [n] transitions. *)
Inductive within : nat -> State -> Prop :=
  | within_root n s : s ∈ roots -> within n s
  | within_next n s s' : within n s -> next s s' -> within (S n) s'.

Lemma within_Good n s : within n s -> Good s.
Proof. induction 1 as [n s Hs | n s s' _ IH [l Hl]]; [by apply Good_roots | by eapply Good_transition]. Qed.

Lemma within_le n m s : (n <= m)%nat -> within n s -> within m s.
Proof.
  intros Hle H. revert m Hle. induction H as [n s Hs | n s s' _ IH Hn]; intros m Hle; [by constructor|].
  destruct m as [|m]; [lia|]. eapply within_next; [|done]. apply IH. lia.
Qed.
