(* ===== verification/ReadExplore.v ===== *)
(** * The bounded exploration of the V5.2 read model is exact

    The breadth-first loop keeps its seen states as the expanded ones followed by its frontier,
    with levels that never decrease; so it terminates within the fuel given to it, no check ever
    fails, and a passing run has seen exactly the states within its depth. *)

From stdpp Require Import base gmap sets strings list sorting.
From S2P Require Import Prelude ReadModel ReadSafety.
Import ResultNotations.
Local Open Scope py_scope.

(** ** One expansion *)

Lemma visit_edges_spec mx level s es x :
  Good s -> (forall e, e ∈ es -> e ∈ transitions s) -> NoDup (x_seen x) ->
  exists r, visit_edges mx level s es x = Ok r /\
  match r with
  | inl x' => exists new, x_seen x' = x_seen x ++ new /\
      x_frontier x' = x_frontier x ++ map (fun s' => (s', S level)) new /\
      NoDup (x_seen x') /\ (forall s', s' ∈ new -> next s s') /\ (forall e, e ∈ es -> e.2 ∈ x_seen x') /\
      length (x_seen x') <= max (length (x_seen x)) mx
  | inr _ => True
  end.
Proof.
  intros HG. revert x. induction es as [|[l s'] es IH]; intros x Hes Hnd; simpl.
  - eexists. split; [done|]. exists []. rewrite !app_nil_r. split_and!; auto; [set_solver..|lia].
  - unfold visit_edge. rewrite check_edge_ok by (try done; apply Hes; left). simpl.
    assert (Hes' : forall e, e ∈ es -> e ∈ transitions s) by (intros e He; apply Hes; by right).
    case_bool_decide as Hin; simpl.
    + edestruct (IH (Exploration (x_seen x) (x_frontier x) (S (x_edges x)) (x_outcomes x) (bump (l_action l) (x_counts x))))
        as (r & -> & Hr); [done..|]. exists r. split; [done|]. destruct r as [x'|]; [|done].
      destruct Hr as (new & E1 & E2 & E3 & E4 & E5 & E6). simpl in *. exists new. split_and!; auto.
      intros e [->|He]%elem_of_cons; [rewrite E1; set_solver | auto].
    + destruct (Nat.leb_spec mx (length (x_seen x))) as [Hle|Hlt]; [by eexists|]. simpl.
      edestruct (IH (Exploration (x_seen x ++ [s']) (x_frontier x ++ [(s', S level)]) (S (x_edges x))
        (x_outcomes x) (bump (l_action l) (x_counts x)))) as (r & -> & Hr); [done| |].
      { simpl. apply NoDup_app. split_and!; [done| |apply NoDup_singleton]. set_solver. }
      exists r. split; [done|]. destruct r as [x'|]; [|done].
      destruct Hr as (new & E1 & E2 & E3 & E4 & E5 & E6). simpl in *. exists (s' :: new).
      rewrite <- !app_assoc in *. simpl in *. split_and!; auto.
      * intros s'' [->|H]%elem_of_cons; [|auto]. exists l. apply Hes. left.
      * intros e [->|He]%elem_of_cons; [rewrite E1; set_solver | auto].
      * rewrite length_app in E6. simpl in E6. lia.
Qed.

(** ** The loop invariant *)

Record Explored (depth mx : nat) (done : list (State * nat)) (x : exploration) : Prop := {
  ex_seen : x_seen x = map fst (done ++ x_frontier x);
  ex_nodup : NoDup (x_seen x);
  ex_roots : forall s, s ∈ roots -> (s, 0) ∈ done ++ x_frontier x;
  ex_within : forall s l, (s, l) ∈ done ++ x_frontier x -> l <= depth /\ within l s;
  ex_levels : match x_frontier x with
    | [] => True
    | (_, l0) :: _ => forall s l, (s, l) ∈ done ++ x_frontier x -> l <= S l0
    end;
  ex_sorted : StronglySorted (fun p q : State * nat => p.2 <= q.2) (x_frontier x);
  ex_closed : forall s l s', (s, l) ∈ done -> l < depth -> next s s' ->
    exists l', (s', l') ∈ done ++ x_frontier x /\ l' <= S l;
  ex_size : length (x_seen x) <= max 2 mx
}.

Lemma Explored_start depth mx : Explored depth mx [] start.
Proof.
  assert (Hin : forall s l, (s, l) ∈ map (fun r : State => (r, 0)) roots -> l = 0 /\ s ∈ roots).
  { intros s l Hin. apply list_elem_of_fmap in Hin as (r & [= -> ->] & Hr). done. }
  split; cbn [start x_seen x_frontier app].
  - done.
  - apply (bool_decide_unpack _). by vm_compute.
  - intros s Hs. apply list_elem_of_fmap. by exists s.
  - intros s l [-> Hs]%Hin. split; [lia | by constructor].
  - simpl. intros s l [-> _]%(Hin s l). lia.
  - repeat constructor.
  - intros s l s' H. by apply elem_of_nil in H.
  - simpl. lia.
Qed.

Lemma StronglySorted_snoc_all (l k : list (State * nat)) n :
  StronglySorted (fun p q : State * nat => p.2 <= q.2) l -> (forall p, p ∈ l -> p.2 <= n) -> (forall p, p ∈ k -> p.2 = n) ->
  StronglySorted (fun p q : State * nat => p.2 <= q.2) (l ++ k).
Proof.
  intros Hl Hn Hk. induction Hl as [|p l Hl IH Hp]; simpl.
  - clear Hn. induction k as [|q k IH]; constructor.
    + apply IH. intros p Hp. apply Hk. by right.
    + apply Forall_forall. intros p Hp. rewrite (Hk q), (Hk p); [done | by right | left].
  - constructor.
    + apply IH. intros q Hq. apply Hn. by right.
    + apply Forall_app. split; [done|]. apply Forall_forall. intros q Hq. rewrite (Hk q Hq). apply Hn. left.
Qed.

(** One turn of the loop on a state below the depth. *)
Lemma Explored_expand depth mx done x x' s level rest new :
  Explored depth mx done x -> x_frontier x = (s, level) :: rest -> level < depth ->
  x_seen x' = x_seen x ++ new -> x_frontier x' = rest ++ map (fun s' => (s', S level)) new ->
  NoDup (x_seen x') -> (forall s', s' ∈ new -> next s s') ->
  (forall s', next s s' -> s' ∈ x_seen x') -> length (x_seen x') <= max 2 mx ->
  Explored depth mx (done ++ [(s, level)]) x'.
Proof.
  intros [X1 X2 X3 X4 X5 X6 X7 X8] Hf Hlt Hs' Hf' Hnd Hnew Hsucc Hsz. rewrite Hf in *.
  assert (Hall : (done ++ [(s, level)]) ++ x_frontier x' =
    (done ++ (s, level) :: rest) ++ map (fun s' => (s', S level)) new).
  { rewrite Hf', <- !app_assoc. done. }
  assert (Hold : forall p, p ∈ done ++ (s, level) :: rest -> p ∈ (done ++ [(s, level)]) ++ x_frontier x').
  { intros p Hp. rewrite Hall. apply elem_of_app. by left. }
  assert (Hcase : forall s' l, (s', l) ∈ (done ++ [(s, level)]) ++ x_frontier x' ->
    (s', l) ∈ done ++ (s, level) :: rest \/ (l = S level /\ s' ∈ new)).
  { intros s' l. rewrite Hall. intros [?|Hin]%elem_of_app; [by left | right].
    apply list_elem_of_fmap in Hin as (s1 & [= -> ->] & ?). done. }
  assert (Hhere : (s, level) ∈ done ++ (s, level) :: rest) by set_solver.
  assert (Hmax : forall s' l, (s', l) ∈ (done ++ [(s, level)]) ++ x_frontier x' -> l <= S level).
  { intros s' l [Hin | [-> _]]%Hcase; [by eapply X5 | done]. }
  assert (Hrest : forall p, p ∈ x_frontier x' -> level <= p.2).
  { intros p. rewrite Hf'. intros [Hp|Hp]%elem_of_app.
    - apply StronglySorted_inv in X6 as [_ X6]. rewrite Forall_forall in X6. by apply X6.
    - apply list_elem_of_fmap in Hp as (s1 & -> & _). simpl. lia. }
  split; auto.
  - rewrite Hall, Hs', X1, (map_app fst (done ++ (s, level) :: rest)), map_map. f_equal. simpl. by rewrite map_id.
  - intros s' l [Hin | [-> Hin]]%Hcase; [by apply X4|]. split; [lia|].
    eapply within_next; [by apply (X4 s level) | by apply Hnew].
  - destruct (x_frontier x') as [|[s1 l1] f1] eqn:E; [done|]. intros s' l Hin%Hmax.
    assert (level <= l1); [|lia]. apply (Hrest (s1, l1)). left.
  - rewrite Hf'. apply StronglySorted_inv in X6 as [X6 _]. apply StronglySorted_snoc_all with (n := S level); [done| |].
    + intros [s1 l1] Hp. apply (X5 s1 l1). set_solver.
    + intros p Hp. by apply list_elem_of_fmap in Hp as (s1 & -> & _).
  - intros s' l s'' [Hin|Hin]%elem_of_app Hl Hn.
    + destruct (X7 _ _ _ Hin Hl Hn) as (l' & ? & ?). exists l'. auto.
    + apply list_elem_of_singleton in Hin. simplify_eq. apply Hsucc in Hn.
      assert (s'' ∈ map fst ((done ++ [(s, level)]) ++ x_frontier x')) as Hm.
      { rewrite Hall, (map_app fst (done ++ (s, level) :: rest)), map_map. simpl. rewrite map_id, <- X1, <- Hs'. done. }
      apply list_elem_of_fmap in Hm as ([s1 l1] & -> & Hm). exists l1. split; [done|]. by eapply Hmax.
Qed.

(** One turn of the loop on a state at the depth. *)
Lemma Explored_skip depth mx done x x' s rest :
  Explored depth mx done x -> x_frontier x = (s, depth) :: rest ->
  x_seen x' = x_seen x -> x_frontier x' = rest -> Explored depth mx (done ++ [(s, depth)]) x'.
Proof.
  intros [X1 X2 X3 X4 X5 X6 X7 X8] Hf Hs' Hf'. rewrite Hf in *.
  assert (Hall : (done ++ [(s, depth)]) ++ x_frontier x' = done ++ (s, depth) :: rest).
  { by rewrite Hf', <- app_assoc. }
  split; rewrite ?Hall, ?Hs'; auto.
  - rewrite Hf'. destruct rest as [|[s1 l1] rest]; [done|]. intros s' l Hin%X4.
    apply StronglySorted_inv in X6 as [_ X6]. apply Forall_cons in X6 as [X6 _]. simpl in X6. lia.
  - rewrite Hf'. by apply StronglySorted_inv in X6 as [X6 _].
  - intros s' l s'' [Hin|Hin]%elem_of_app Hl Hn; [by eapply X7|].
    apply list_elem_of_singleton in Hin. simplify_eq. lia.
Qed.

Lemma explore_loop_spec depth mx fuel done x :
  Explored depth mx done x -> max 2 mx < length done + fuel ->
  exists r, explore_loop fuel depth mx x = Ok r /\ match r with inl x' => exists done', Explored depth mx done' x' /\ x_frontier x' = [] | inr _ => True end.
Proof.
  revert done x. induction fuel as [|fuel IH]; intros done x HE Hfuel.
  { pose proof (ex_seen _ _ _ _ HE) as Hs. pose proof (ex_size _ _ _ _ HE) as Hz.
    rewrite Hs, length_map, length_app in Hz. lia. }
  simpl. destruct (x_frontier x) as [|[s level] rest] eqn:Hf; [eexists; split; [done|]; by exists done|].
  destruct (ex_within _ _ _ _ HE s level) as [Hle Hw]; [rewrite Hf; set_solver|].
  pose proof (within_Good _ _ Hw) as HG. rewrite (Good_check _ HG). cbn [rbind].
  set (x1 := Exploration _ _ _ _ _).
  destruct (Nat.eqb_spec level depth) as [->|Hne].
  - eapply (IH (done ++ [(s, depth)])); [by eapply Explored_skip | rewrite length_app; simpl; lia].
  - edestruct (visit_edges_spec mx level s (transitions s) x1) as (r & -> & Hr); [done..|apply (ex_nodup _ _ _ _ HE)|].
    cbn [rbind]. destruct r as [x'|x']; [|by eexists].
    destruct Hr as (new & E1 & E2 & E3 & E4 & E5 & E6).
    eapply (IH (done ++ [(s, level)])); [|rewrite length_app; simpl; lia].
    eapply Explored_expand; [exact HE | exact Hf | lia | exact E1 | exact E2 | done | done | |].
    + intros s' [l Hl]. by apply (E5 (l, s')).
    + pose proof (ex_size _ _ _ _ HE). simpl in E6. lia.
Qed.

Lemma explore_run_spec depth mx :
  exists r, explore_run depth mx = Ok r /\ match r with inl x' => exists done', Explored depth mx done' x' /\ x_frontier x' = [] | inr _ => True end.
Proof. eapply explore_loop_spec; [apply Explored_start | simpl; lia]. Qed.

Lemma Explored_complete depth mx done x k s :
  Explored depth mx done x -> x_frontier x = [] -> within k s -> k <= depth ->
  exists l, (s, l) ∈ done /\ l <= k.
Proof.
  intros HE Hf Hw. assert (Happ : done ++ x_frontier x = done) by (by rewrite Hf, app_nil_r).
  induction Hw as [n s Hs | n s s' _ IH Hn]; intros Hk.
  - exists 0. split; [rewrite <- Happ; by apply (ex_roots _ _ _ _ HE) | lia].
  - destruct IH as (l & Hl & Hle); [lia|].
    destruct (ex_closed _ _ _ _ HE _ _ _ Hl ltac:(lia) Hn) as (l' & Hl' & ?).
    rewrite Happ in Hl'. exists l'. split; [done | lia].
Qed.
