(* ===== verification/ReadProperties.v ===== *)
(** * Properties of the V5.2 read model

    What the exploration establishes, and what a client may conclude from a served read. *)

From stdpp Require Import base gmap sets strings list relations.
From S2P Require Import Prelude ReadModel ReadSafety ReadExplore.
Local Open Scope Z_scope.

(** ** One read along a path *)

(** A strong read invoked when [k] positions were proven. *)
Definition fresh (k : Z) (r : Read) : Prop :=
  r_policy r = Strong /\
  match r_phase r with
  | NEW => r_barrier r = -1
  | WAIT => r_barrier r = -1 \/ k < r_barrier r
  | ACTIVE | RELEASED | SUCCESS => k < r_cut r
  | REJECTED | CANCELLED => True
  end.

Lemma replica_proven s l s' :
  Good s -> (l, s') ∈ replica_transitions s -> s_proven s <= s_proven s' /\ s_reads s' = s_reads s.
Proof.
  intros [G1 G2 G3 G4 G5 G6 G7 G8 G9] Hin. unfold replica_transitions in Hin. cbv zeta in Hin.
  enum Hin; bool_tac; simplify_eq; try (split; [simpl; lia | done]).
  - apply list_elem_of_In, in_concat in Hin as (x & Hx & Hin). apply in_map_iff in Hx as (inc & <- & _).
    destruct (_ <=? _); [|done]. destruct Hin as [Hin | []]. simplify_eq/=. split; [lia | done].
  - apply list_elem_of_In, in_concat in Hin as (x & Hx & Hin). apply in_map_iff in Hx as (ro & <- & _).
    destruct (decide _); [done|]. destruct Hin as [Hin | []]. simplify_eq/=. split; [lia | done].
Qed.

Lemma read_step_fresh k s i r l s' :
  Good s -> s_reads s !! i = Some r -> k <= s_proven s -> (l, s') ∈ read_transitions s i r ->
  s_proven s <= s_proven s' /\ exists r', s_reads s' = <[i := r']> (s_reads s) /\ (fresh k r -> fresh k r').
Proof.
  intros HG Hi Hk Hin. unfold fresh.
  unfold read_transitions, wait_transitions, capture in Hin. cbv zeta in Hin.
  destruct (r_phase r) eqn:Hp; enum Hin; simplify_eq; bool_tac; (split; [simpl; lia|]);
    (eexists; split; [reflexivity|]); intros [Hpol Hf]; (split; [simpl; congruence|]);
    simpl; rewrite ?Hp; repeat case_match; try done; try lia.
  all: try (left; exact Hf).
Qed.

Lemma step_fresh k s l s' i r :
  Good s -> (l, s') ∈ transitions s -> s_reads s !! i = Some r -> k <= s_proven s -> fresh k r ->
  k <= s_proven s' /\ exists r', s_reads s' !! i = Some r' /\ fresh k r'.
Proof.
  intros HG [Hin | [(_ & _ & ->) | (j & rj & Hj & Hin)]]%elem_of_transitions Hi Hk Hf.
  - destruct (replica_proven _ _ _ HG Hin) as [Hle ->]. split; [lia|]. by exists r.
  - split; [done|]. by exists r.
  - destruct (read_step_fresh k _ _ _ _ _ HG Hj Hk Hin) as (Hle & r' & -> & Hr'). split; [lia|].
    destruct (decide (j = i)) as [->|Hne].
    + simplify_eq. exists r'. rewrite list_lookup_insert_eq by (by eapply lookup_lt_Some). auto.
    + exists r. by rewrite list_lookup_insert_ne.
Qed.

Lemma path_fresh k s s' i r :
  rtc next s s' -> Good s -> s_reads s !! i = Some r -> k <= s_proven s -> fresh k r ->
  Good s' /\ exists r', s_reads s' !! i = Some r' /\ fresh k r'.
Proof.
  intros Hp. revert r. induction Hp as [s|s s1 s2 [l Hl] _ IH]; intros r HG Hi Hk Hf; [eauto|].
  destruct (step_fresh k _ _ _ _ _ HG Hl Hi Hk Hf) as (Hk1 & r1 & Hr1 & Hf1).
  eapply IH; eauto using Good_transition.
Qed.

(** ** The properties *)

(** C8: The read model is safe at every depth.  Every state any schedule can reach from the two
    declared roots passes [check], and every enabled transition of it passes all checks that
    [explore] makes on an edge. *)
Theorem read_model_safe n s :
  within n s -> check s = Ok tt /\ forall l s', (l, s') ∈ transitions s -> check_edge s l s' = Ok tt.
Proof. intros Hw%within_Good. split; [by apply Good_check | intros l s'; by apply check_edge_ok]. Qed.

Lemma read_model_safe_witness :
  check (set_flags true true false state_default) = Ok tt.
Proof.
  apply (read_model_safe 1). eapply within_next; [apply within_root; left|].
  exists (Label None AClose). apply (bool_decide_unpack _). by vm_compute.
Defined.

(** C7: The exploration is exact.  For every depth and state budget [explore] terminates without
    raising; when it reports PASS, its state count is the number of distinct states reachable in
    at most [depth] transitions: nothing was missed and nothing was counted twice. *)
Theorem explore_exact depth max_states :
  exists rep, explore depth max_states = Ok rep /\
  (rep_status rep = PASS ->
    exists states, NoDup states /\ length states = rep_states rep /\ forall s, s ∈ states <-> within depth s).
Proof.
  unfold explore. destruct (explore_run_spec depth max_states) as (r & -> & Hr). simpl.
  destruct r as [x|x]; (eexists; split; [done|]); [|done]. intros _.
  destruct Hr as (done' & HE & Hf). exists (x_seen x). simpl. split_and!; [apply HE | done |]. intros s.
  rewrite (ex_seen _ _ _ _ HE), Hf, app_nil_r. split.
  - intros ([s1 l] & -> & Hin)%list_elem_of_fmap.
    destruct (ex_within _ _ _ _ HE s1 l) as [Hle Hw]; [by rewrite Hf, app_nil_r|].
    by eapply within_le.
  - intros Hw. destruct (Explored_complete _ _ _ _ _ _ HE Hf Hw (le_n _)) as (l & Hl & _).
    apply list_elem_of_fmap. by exists (s, l).
Qed.

(** C9: Strong reads are fresh.  If a strong read has not been admitted in a reachable state, then in
    every later state in which it holds or has returned a view, that view is published and covers
    strictly more than everything proven when the read was still new. *)
Theorem strong_read_fresh n s s' i r r' :
  within n s -> rtc next s s' -> s_reads s !! i = Some r -> r_phase r = NEW -> r_policy r = Strong ->
  s_reads s' !! i = Some r' -> serving (r_phase r') ->
  s_proven s < r_cut r' <= s_published s'.
Proof.
  intros Hw%within_Good Hp Hi Hn Hpol Hi' Hs.
  pose proof (gd_each _ Hw) as Hall. rewrite Forall_lookup in Hall.
  destruct (ro_new _ _ (Hall _ _ Hi) Hn) as (_ & _ & Hb & _).
  destruct (path_fresh (s_proven s) _ _ _ _ Hp Hw Hi (Z.le_refl _)) as (HG' & r1 & Hr1 & Hf).
  { unfold fresh. by rewrite Hn. }
  simplify_eq. pose proof (gd_each _ HG') as Hall'. rewrite Forall_lookup in Hall'.
  destruct (ro_serve _ _ (Hall' _ _ Hi') Hs) as (Hc & _). destruct Hf as [_ Hf].
  destruct Hs as [Hs | [Hs | Hs]]; rewrite Hs in Hf; lia.
Qed.

(** A strong read served on the default root: admit, barrier, publish, capture. *)
Definition served_labels : list label :=
  [Label (Some 0%nat) AAdmit; Label (Some 0%nat) ABarrier; Label None APublish; Label (Some 0%nat) ACapture].
Definition follow (s : State) (l : label) : State :=
  match filter (fun e : label * State => e.1 = l) (transitions s) with
  | e :: _ => e.2
  | [] => s
  end.
Definition served : State := fold_left follow served_labels state_default.

Lemma follow_step s l : follow s l = s \/ next s (follow s l).
Proof.
  unfold follow. destruct (filter (fun e : label * State => e.1 = l) (transitions s)) as [|[l' s'] es] eqn:E; [by left|].
  right. exists l'. assert ((l', s') ∈ filter (fun e : label * State => e.1 = l) (transitions s)) as Hin.
  { rewrite E. left. }
  by apply list_elem_of_filter in Hin as [_ Hin].
Qed.

Lemma follow_rtc ls s : rtc next s (fold_left follow ls s).
Proof.
  revert s. induction ls as [|l ls IH]; intros s; simpl; [done|]. etrans; [|apply IH].
  destruct (follow_step s l) as [-> | Hn]; [done | by apply rtc_once].
Qed.

Lemma follow_within ls n s : within n s -> within (n + length ls) (fold_left follow ls s).
Proof.
  revert n s. induction ls as [|l ls IH]; intros n s Hw; simpl; [by rewrite Nat.add_0_r|].
  rewrite <- Nat.add_succ_comm. apply IH. destruct (follow_step s l) as [-> | Hn].
  - eapply within_le; [|done]. lia.
  - by eapply within_next.
Qed.

Lemma strong_read_fresh_witness :
  exists r', s_reads served !! 0%nat = Some r' /\ s_proven state_default < r_cut r' <= s_published served.
Proof.
  destruct (s_reads served !! 0%nat) as [r'|] eqn:Hr; [|vm_compute in Hr; discriminate].
  exists r'. split; [done|].
  refine (strong_read_fresh 0 state_default served 0 (read_default Strong) r' _ _ _ _ _ Hr _).
  - apply within_root. left.
  - apply follow_rtc.
  - reflexivity.
  - reflexivity.
  - reflexivity.
  - vm_compute in Hr. injection Hr as <-. by left.
Defined.

(** Served reads meet their policy.  In every reachable state a read that holds, releases or has
    returned a view was called back exactly once with a published position under a token of this
    replica's history; a minimum read got at least its minimum, a strong read its own barrier. *)
Theorem served_reads_meet_policy n s i r :
  within n s -> s_reads s !! i = Some r -> serving (r_phase r) ->
  r_invoked r = 1 /\ r_identity r = 0 /\ 0 <= r_cut r <= s_published s /\
  (r_policy r = Minimum -> r_minimum r <= r_cut r) /\
  (r_policy r = Strong -> 1 <= r_barrier r <= r_cut r).
Proof.
  intros Hw%within_Good Hi Hs. pose proof (gd_each _ Hw) as Hall. rewrite Forall_lookup in Hall.
  destruct (ro_serve _ _ (Hall _ _ Hi) Hs) as (? & ? & ? & ? & Hst). split_and!; try lia; auto; intros Hp; by apply Hst.
Qed.

Lemma served_reads_meet_policy_witness : exists r, s_reads served !! 0%nat = Some r /\ r_invoked r = 1.
Proof.
  destruct (s_reads served !! 0%nat) as [r|] eqn:Hr; [|vm_compute in Hr; discriminate].
  exists r. split; [done|].
  refine (proj1 (served_reads_meet_policy 4 served 0 r _ Hr _)).
  - apply (follow_within served_labels 0). apply within_root. left.
  - vm_compute in Hr. injection Hr as <-. by left.
Defined.

(** ** Reads of the V5.2 model can be served

    Under a leader that has its quorum, every read that has just been issued can reach success by steps
    of the replica and of the reads alone: nothing need be cancelled, closed, fenced or timed out.  And a
    read takes at most six steps of its own, whatever the schedule. *)

(** ** Steps that help *)

Definition helpful (a : action) : bool :=
  match a with
  | AAccept | AProof | APublish | AAdmit | ABarrier | ACapture | ARelease | AComplete => true
  | APromise | ARole _ | AQuorum | AClose | ADeadline | ACancel | AReject | AFenced | ACancelActive => false
  end.
Definition helps (s s' : State) : Prop := exists l, (l, s') ∈ transitions s /\ helpful (l_action l) = true.

(** The service is open and in time, and the replica leads with its quorum. *)
Definition ready (s : State) : Prop :=
  s_closed s = false /\ s_expired s = false /\ s_role s = Leader /\ s_quorum s = true.

(** A state on the way: the read at [i] is [r]. *)
Record on_way (i : nat) (r : Read) (s : State) : Prop := {
  ow_good : Good s;
  ow_ready : ready s;
  ow_read : s_reads s !! i = Some r
}.

Lemma helps_next s s' : helps s s' -> next s s'.
Proof. intros (l & Hl & _). by exists l. Qed.

Lemma helps_good s s' : Good s -> helps s s' -> Good s'.
Proof. intros HG (l & Hl & _). by eapply Good_transition. Qed.

(** Transitions of the replica and of one read, by membership *)
Lemma helps_replica s l s' : (l, s') ∈ replica_transitions s -> helpful (l_action l) = true -> helps s s'.
Proof. intros Hl Hh. exists l. split; [|done]. apply elem_of_transitions. by left. Qed.

Lemma helps_read s i r l s' :
  s_reads s !! i = Some r -> (l, s') ∈ read_transitions s i r -> helpful (l_action l) = true -> helps s s'.
Proof. intros Hi Hl Hh. exists l. split; [|done]. apply elem_of_transitions. right; right. by exists i, r. Qed.

Lemma on_way_step i r s s' :
  on_way i r s -> helps s s' -> ready s' -> s_reads s' !! i = Some r -> on_way i r s'.
Proof. intros [HG Hr Hi] Hh Hr' Hi'. split; [by eapply helps_good|done..]. Qed.

(** *** The replica *)

Ltac in_list := rewrite ?elem_of_app, ?elem_of_cons; tauto.

Lemma accept_step i r s :
  on_way i r s -> s_accepted s = s_proven s -> s_accepted s < 3 ->
  let s' := set_log (s_accepted s + 1) (s_proven s) (s_sequence s) s in helps s s' /\ on_way i r s'.
Proof.
  intros Hw He Hl s'. pose proof Hw as [HG Hr Hi]. assert (helps s s') as Hh.
  { eapply (helps_replica s (Label None AAccept)); [|done]. unfold replica_transitions. destruct Hr as (-> & _).
    rewrite (proj2 (Z.eqb_eq _ _) He), (proj2 (Z.ltb_lt _ _) Hl). cbn [andb]. in_list. }
  split; [done|]. eapply on_way_step; [exact Hw|done..].
Qed.

Lemma proof_step i r s :
  on_way i r s -> s_proven s < s_accepted s ->
  let s' := set_log (s_accepted s) (s_accepted s) (s_sequence s ++ [last_sequence s]) s in helps s s' /\ on_way i r s'.
Proof.
  intros Hw Hl s'. pose proof Hw as [HG Hr Hi]. assert (helps s s') as Hh.
  { eapply (helps_replica s (Label None AProof)); [|done]. unfold replica_transitions. destruct Hr as (-> & _ & _ & ->).
    rewrite (proj2 (Z.ltb_lt _ _) Hl). cbn [andb map concat]. rewrite Z.add_0_r.
    pose proof (last_bounds _ (gd_sequence _ HG)) as Hb. unfold last_sequence. rewrite (proj2 (Z.leb_le _ _)) by lia.
    rewrite elem_of_app. right. rewrite elem_of_app. left. cbn [app]. left. }
  split; [done|]. eapply on_way_step; [exact Hw|done..].
Qed.

Lemma publish_step i r s :
  on_way i r s -> s_published s < s_proven s -> any_active s = false ->
  let s' := set_published (s_proven s) s in helps s s' /\ on_way i r s'.
Proof.
  intros Hw Hl Ha s'. pose proof Hw as [HG Hr Hi]. assert (helps s s') as Hh.
  { eapply (helps_replica s (Label None APublish)); [|done]. unfold replica_transitions. destruct Hr as (-> & _).
    rewrite (proj2 (Z.ltb_lt _ _) Hl), Ha. cbn [andb negb]. in_list. }
  split; [done|]. eapply on_way_step; [exact Hw|done..].
Qed.

(** *** Other reads *)

Lemma any_active_spec s : any_active s = true <-> exists j x, s_reads s !! j = Some x /\ r_phase x = ACTIVE.
Proof.
  unfold any_active. rewrite existsb_exists. split.
  - intros (x & Hx & Hp%is_phase_spec). apply list_elem_of_In, list_elem_of_lookup in Hx as [j Hj]. by exists j, x.
  - intros (j & x & Hj & Hp). exists x. split; [by apply list_elem_of_In, list_elem_of_lookup_2 with j|by apply is_phase_spec].
Qed.

Lemma active_count s : any_active s = false <-> count_reads (is_phase ACTIVE) (s_reads s) = 0%nat.
Proof.
  unfold any_active, count_reads. induction (s_reads s) as [|x l IH]; [done|]. cbn [existsb]. rewrite filter_cons.
  destruct (is_phase ACTIVE x) eqn:Hx; [rewrite decide_True by done|rewrite decide_False by congruence]; cbn; [done|exact IH].
Qed.

(** The one read that holds a view lets go of it. *)
Lemma release_others i r s :
  on_way i r s -> r_phase r <> ACTIVE ->
  exists s', rtc helps s s' /\ on_way i r s' /\ any_active s' = false /\ s_proven s' = s_proven s /\ s_accepted s' = s_accepted s.
Proof.
  intros Hw Hp. destruct (any_active s) eqn:Ha; [|by exists s]. apply any_active_spec in Ha as (j & x & Hj & Hx).
  pose proof Hw as [HG Hr Hi]. assert (i <> j) as Hne by congruence.
  set (x' := with_phase (if r_cancelled x then CANCELLED else RELEASED) x).
  assert (helps s (request s j x')) as Hh.
  { eapply (helps_read s j x (Label (Some j) ARelease)); [done| |done]. unfold read_transitions. rewrite Hx. left. }
  exists (request s j x'). split; [by apply rtc_once|]. split; [|split; [|done]].
  - eapply on_way_step; [exact Hw|done..|]. cbn. by rewrite list_lookup_insert_ne.
  - apply active_count. pose proof (gd_active _ HG) as Hc. pose proof (count_insert (is_phase ACTIVE) _ _ _ x' Hj) as Hn.
    rewrite (proj2 (is_phase_spec _ _) Hx) in Hn. assert (is_phase ACTIVE x' = false) as E.
    { apply not_true_iff_false. rewrite is_phase_spec. unfold x'. by destruct (r_cancelled x). }
    rewrite E in Hn. cbn [request s_reads]. lia.
Qed.

(** ** The log catches up *)

Lemma prove_pending i r s :
  on_way i r s ->
  exists s', rtc helps s s' /\ on_way i r s' /\ any_active s' = any_active s /\ s_proven s' = s_accepted s /\ s_accepted s' = s_accepted s.
Proof.
  intros Hw. destruct (decide (s_proven s < s_accepted s)) as [Hl|Hl].
  - destruct (proof_step _ _ _ Hw Hl) as [Hh Hw']. eexists. split; [by apply rtc_once|]. by split_and!.
  - pose proof (gd_log _ (ow_good _ _ _ Hw)). exists s. split_and!; try done. lia.
Qed.

(** The log grows to any position up to its bound of three. *)
Lemma prove_up_to i r m : m <= 3 -> forall s, on_way i r s -> s_accepted s = s_proven s ->
  exists s', rtc helps s s' /\ on_way i r s' /\ any_active s' = any_active s /\ s_accepted s' = s_proven s' /\ m <= s_proven s'.
Proof.
  intros Hm s. remember (Z.to_nat (m - s_proven s)) as k eqn:Hk. revert s Hk. induction k as [|k IH]; intros s Hk Hw He.
  - exists s. split_and!; try done. lia.
  - destruct (accept_step _ _ _ Hw He) as [H1 W1]; [lia|]. destruct (proof_step _ _ _ W1) as [H2 W2]; [cbn; lia|].
    edestruct IH as (s' & Hp & Hw' & Ha & Heq & Hle); [|exact W2|done|]; [cbn; lia|].
    exists s'. split_and!; try done. eapply rtc_l; [exact H1|]. by eapply rtc_l.
Qed.

Lemma publish_all i r s :
  on_way i r s -> any_active s = false ->
  exists s', rtc helps s s' /\ on_way i r s' /\ any_active s' = false /\ s_published s' = s_proven s /\ s_epoch s' = s_epoch s.
Proof.
  intros Hw Ha. destruct (decide (s_published s < s_proven s)) as [Hl|Hl].
  - destruct (publish_step _ _ _ Hw Hl Ha) as [Hh Hw']. eexists. split; [by apply rtc_once|]. by split_and!.
  - pose proof (gd_log _ (ow_good _ _ _ Hw)). exists s. split_and!; try done. lia.
Qed.

(** ** The read itself *)

(** What the bounded model leaves room for: a strong read needs one more position, a minimum within three. *)
Definition fits (s : State) (r : Read) : Prop :=
  match r_policy r with Strong => s_accepted s < 3 | Minimum => r_minimum r <= 3 | Stale => True end.

Definition issued (r : Read) : Prop := (r_phase r = NEW \/ r_phase r = WAIT) /\ r_barrier r < 0 /\ r_identity r = 0 /\ r_epoch r = 0.

Lemma ready_admits s r : ready s -> r_identity r = 0 -> refused s r = false.
Proof. intros (Hc & Hx & Hr & _) Hi. unfold refused. by rewrite Hc, Hx, Hr, Hi. Qed.

(** One step of read [i], to [r'] *)
Lemma read_step i r r' l s :
  on_way i r s -> (Label (Some i) l, request s i r') ∈ read_transitions s i r -> helpful l = true ->
  helps s (request s i r') /\ on_way i r' (request s i r').
Proof.
  intros Hw Hl Hh. pose proof Hw as [HG Hr Hi]. assert (helps s (request s i r')) as Hs by (by eapply helps_read).
  split; [done|]. split; [by eapply helps_good|done|]. cbn. by rewrite list_lookup_insert_eq by (by eapply lookup_lt_Some).
Qed.

(** Behind the capture *)
Lemma finish_read i r s :
  on_way i r s -> r_phase r = ACTIVE -> r_cancelled r = false ->
  exists s' r', rtc helps s s' /\ on_way i r' s' /\ r_phase r' = SUCCESS.
Proof.
  intros Hw Hp Hc. edestruct (read_step i r (with_phase RELEASED r) ARelease) as [H1 W1]; [exact Hw| |done|].
  { unfold read_transitions. rewrite Hp, Hc. left. }
  edestruct (read_step i (with_phase RELEASED r) (with_phase SUCCESS (with_phase RELEASED r)) AComplete) as [H2 W2];
    [exact W1|by left|done|].
  eexists _, _. split; [eapply rtc_l; [exact H1|by apply rtc_once]|]. by split.
Qed.

Lemma capture_read i r s :
  on_way i r s -> any_active s = false -> r_phase r = WAIT -> r_cancelled r = false ->
  (forall e, e ∈ capture s i r -> e ∈ wait_transitions s i r) ->
  exists s' r', rtc helps s s' /\ on_way i r' s' /\ r_phase r' = SUCCESS.
Proof.
  intros Hw Ha Hp Hc Hcap. edestruct (read_step i r (with_capture (s_published s) r) ACapture) as [H1 W1]; [exact Hw| |done|].
  { unfold read_transitions. rewrite Hp. apply Hcap. unfold capture. rewrite Ha. left. }
  destruct (finish_read _ _ _ W1) as (s' & r' & Hs & Hw' & Hp'); [done..|]. exists s', r'. split_and!; try done. by eapply rtc_l.
Qed.

(** The barrier of a strong read commits a position of its own. *)
Lemma barrier_step i r s :
  on_way i r s -> r_phase r = WAIT -> r_policy r = Strong -> issued r -> s_accepted s = s_proven s -> s_proven s < 3 ->
  let r' := with_barrier (s_proven s + 1) (s_epoch s) r in
  let s' := set_log (s_proven s + 1) (s_proven s + 1) (s_sequence s ++ [last_sequence s]) (request s i r') in
  helps s s' /\ on_way i r' s'.
Proof.
  intros Hw Hp Hpol (_ & Hb & Hid & He) Hacc Hl r' s'. pose proof Hw as [HG Hr Hi]. assert (helps s s') as Hh.
  { eapply (helps_read s i r (Label (Some i) ABarrier)); [done| |done]. unfold read_transitions, wait_transitions.
    rewrite Hp, ready_admits, Hpol, He by done. destruct Hr as (_ & _ & -> & ->). rewrite bool_decide_eq_false_2 by auto.
    cbn [Z.eqb negb orb andb]. rewrite (proj2 (Z.ltb_lt _ _) Hb), (proj2 (Z.eqb_eq _ _) Hacc), (proj2 (Z.ltb_lt _ _) Hl).
    cbn [andb orb]. right. left. }
  split; [done|]. split; [by eapply helps_good|done|]. cbn. by rewrite list_lookup_insert_eq by (by eapply lookup_lt_Some).
Qed.

Lemma serve_waiting i r s :
  on_way i r s -> r_phase r = WAIT -> issued r -> r_cancelled r = false -> fits s r ->
  exists s' r', rtc helps s s' /\ on_way i r' s' /\ r_phase r' = SUCCESS.
Proof.
  intros Hw Hp His Hc Hf. destruct (release_others _ _ _ Hw) as (s1 & P1 & W1 & A1 & E1 & F1); [by rewrite Hp|].
  destruct (prove_pending _ _ _ W1) as (s2 & P2 & W2 & A2 & E2 & F2). rewrite A1 in A2.
  pose proof His as (_ & Hb & Hid & Hep). unfold fits in Hf. destruct (r_policy r) eqn:Hpol.
  - destruct (barrier_step _ _ _ W2 Hp Hpol His) as [H3 W3]; [lia|lia|].
    edestruct (publish_all _ _ _ W3) as (s4 & P4 & W4 & A4 & E4 & F4).
    { apply active_count. cbn [s_reads set_log request]. apply active_count in A2.
      pose proof (count_insert (is_phase ACTIVE) _ _ _ (with_barrier (s_proven s2 + 1) (s_epoch s2) r) (ow_read _ _ _ W2)) as Hn.
      assert (is_phase ACTIVE r = false) as Ei by (apply not_true_iff_false; rewrite is_phase_spec; congruence).
      assert (is_phase ACTIVE (with_barrier (s_proven s2 + 1) (s_epoch s2) r) = false) as Ej
        by (apply not_true_iff_false; rewrite is_phase_spec; cbn; congruence). rewrite Ei, Ej in Hn. lia. }
    edestruct (capture_read _ _ _ W4 A4) as (s' & r' & P' & W' & H'); [done..| |].
    { intros e Hin. unfold wait_transitions. rewrite (ready_admits _ _ (ow_ready _ _ _ W4)) by done. cbn [with_barrier r_policy].
      rewrite Hpol. destruct (ow_ready _ _ _ W4) as (_ & _ & -> & _). rewrite bool_decide_eq_false_2 by auto. cbn [orb r_epoch r_barrier].
      rewrite F4, Z.eqb_refl, andb_false_r. rewrite E4. cbn [s_proven set_log request].
      pose proof (gd_log _ (ow_good _ _ _ W2)). change (r_barrier (with_barrier (s_proven s2 + 1) (s_epoch s2) r)) with (s_proven s2 + 1).
      rewrite (proj2 (Z.ltb_ge (s_proven s2 + 1) 0)), Z.ltb_irrefl by lia. cbn [orb andb].
      right. done. }
    exists s', r'. split_and!; try done. etrans; [exact P1|]. etrans; [exact P2|]. eapply rtc_l; [exact H3|]. by etrans.
  - destruct (prove_up_to _ _ _ Hf _ W2) as (s3 & P3 & W3 & A3 & E3 & F3); [congruence|]. rewrite A2 in A3.
    destruct (publish_all _ _ _ W3 A3) as (s4 & P4 & W4 & A4 & E4 & F4).
    edestruct (capture_read _ _ _ W4 A4) as (s' & r' & P' & W' & H'); [done..| |].
    { intros e Hin. unfold wait_transitions. rewrite (ready_admits _ _ (ow_ready _ _ _ W4)), Hpol by done.
      rewrite (proj2 (Z.ltb_ge _ _)) by lia. by right. }
    exists s', r'. split_and!; try done. etrans; [exact P1|]. etrans; [exact P2|]. etrans; [exact P3|]. by etrans.
  - edestruct (capture_read _ _ _ W2 A2) as (s' & r' & P' & W' & H'); [done..| |].
    { intros e Hin. unfold wait_transitions. rewrite (ready_admits _ _ (ow_ready _ _ _ W2)), Hpol by done. by right. }
    exists s', r'. split_and!; try done. etrans; [exact P1|]. by etrans.
Qed.

(** ** The steps of a read *)

(** How far a read is from its end *)
Definition rank (r : Read) : nat :=
  match r_phase r with
  | NEW => 6
  | WAIT => if (r_barrier r <? 0)%Z then 5 else 4
  | ACTIVE => if r_cancelled r then 2 else 3
  | RELEASED => 1
  | SUCCESS | REJECTED | CANCELLED => 0
  end%nat.

Lemma read_event_rank s i r l s' :
  Good s -> s_reads s !! i = Some r -> (l, s') ∈ read_transitions s i r ->
  exists r', s_reads s' = <[i := r']> (s_reads s) /\ (rank r' < rank r)%nat.
Proof.
  intros HG Hi Hin. pose proof (gd_log _ HG). unfold read_transitions, wait_transitions, capture in Hin. cbv zeta in Hin. unfold rank.
  destruct (r_phase r) eqn:Hp; enum Hin; simplify_eq; bool_tac; (eexists; split; [reflexivity|]); cbn; rewrite ?Hp;
    repeat case_match; bool_tac; simplify_eq; lia.
Qed.

(** [read_events k s s']: a path from [s] to [s'] with [k] events of reads *)
Inductive read_events : nat -> State -> State -> Prop :=
  | events_none s : read_events 0 s s
  | events_replica k s l s1 s' : (l, s1) ∈ transitions s -> l_read l = None -> read_events k s1 s' -> read_events k s s'
  | events_read k s l s1 s' : (l, s1) ∈ transitions s -> l_read l <> None -> read_events k s1 s' -> read_events (S k) s s'.

Definition total_rank (s : State) : nat := list_sum (rank <$> s_reads s).

Lemma total_rank_insert s s' i r r' :
  s_reads s !! i = Some r -> s_reads s' = <[i := r']> (s_reads s) -> (rank r' < rank r)%nat -> (total_rank s' < total_rank s)%nat.
Proof.
  intros Hi He Hr. unfold total_rank. rewrite He. clear He. revert i Hi. induction (s_reads s) as [|x l IH]; intros [|i] Hi; simplify_eq/=; [lia|].
  specialize (IH _ Hi). lia.
Qed.

Lemma read_labels s i r l s' : (l, s') ∈ read_transitions s i r -> l_read l = Some i.
Proof.
  intros Hin. unfold read_transitions, wait_transitions, capture in Hin. cbv zeta in Hin. destruct (r_phase r); enum Hin; by simplify_eq.
Qed.

Lemma replica_events s l s' :
  Good s -> (l, s') ∈ transitions s -> l_read l = None -> total_rank s' = total_rank s.
Proof.
  intros HG [Hin|[(_ & _ & ->)|(i & r & Hi & Hin)]]%elem_of_transitions Hn; [|done|].
  - unfold total_rank. by destruct (replica_proven _ _ _ HG Hin) as [_ ->].
  - by rewrite (read_labels _ _ _ _ _ Hin) in Hn.
Qed.

Lemma read_event s l s' :
  Good s -> (l, s') ∈ transitions s -> l_read l <> None -> (total_rank s' < total_rank s)%nat.
Proof.
  intros HG [Hin|[(_ & -> & _)|(i & r & Hi & Hin)]]%elem_of_transitions Hn; [|done|].
  - by rewrite (replica_label _ _ _ Hin) in Hn.
  - destruct (read_event_rank _ _ _ _ _ HG Hi Hin) as (r' & He & Hr). by eapply total_rank_insert.
Qed.

Lemma read_events_bound k s s' : read_events k s s' -> Good s -> (k + total_rank s' <= total_rank s)%nat.
Proof.
  induction 1 as [s|k s l s1 s' Hl Hn _ IH|k s l s1 s' Hl Hn _ IH]; intros HG; [lia| |];
    specialize (IH (Good_transition _ _ _ HG Hl)).
  - by rewrite <- (replica_events _ _ _ HG Hl Hn).
  - pose proof (read_event _ _ _ HG Hl Hn). lia.
Qed.

(** A read just issued is admitted and served. *)
Lemma serve_issued i r s :
  on_way i r s -> issued r -> r_cancelled r = false -> fits s r ->
  exists s' r', rtc helps s s' /\ on_way i r' s' /\ r_phase r' = SUCCESS.
Proof.
  intros Hw His Hc Hf. pose proof His as ([Hp|Hp] & Hb & Hid & Hep); [|by eapply serve_waiting].
  edestruct (read_step i r (with_phase WAIT r) AAdmit) as [H1 W1]; [exact Hw| |done|].
  { unfold read_transitions. rewrite Hp, (ready_admits _ _ (ow_ready _ _ _ Hw) Hid). in_list. }
  destruct (serve_waiting _ _ _ W1) as (s' & r' & P' & W' & H'); [done| |done|done|].
  { split; [by right|done]. }
  exists s', r'. split_and!; try done. by eapply rtc_l.
Qed.

(** ** The property *)

(** C10: Reads of the model can be served, and none goes on forever.  In every reachable state whose
    service is open and in time and whose replica leads with its quorum, a read that is new, or waits
    without a barrier, reaches success by steps of the replica and of the reads alone, if the bounded log
    has room for the position it asks for; no read is cancelled or refused, and nothing is closed, on that
    path.  And on every path from there, whatever the schedule, the reads together take at most
    [total_rank] steps: none of them is retried without end. *)
Theorem reads_can_be_served n s i r :
  within n s -> ready s -> s_reads s !! i = Some r -> issued r -> r_cancelled r = false -> fits s r ->
  (exists s' r', rtc helps s s' /\ ready s' /\ s_reads s' !! i = Some r' /\ r_phase r' = SUCCESS) /\
  forall k s', read_events k s s' -> (k <= total_rank s)%nat.
Proof.
  intros HG%within_Good Hr Hi His Hc Hf. split.
  - destruct (serve_issued i r s) as (s' & r' & P & [_ Hr' Hi'] & Hp); [by split|done..|]. by exists s', r'.
  - intros k s' Hk. pose proof (read_events_bound _ _ _ Hk HG). lia.
Qed.

(** The strong read of the first root *)
Lemma reads_can_be_served_witness :
  (exists s' r', rtc helps state_default s' /\ ready s' /\ s_reads s' !! 0%nat = Some r' /\ r_phase r' = SUCCESS) /\
  forall k s', read_events k state_default s' -> (k <= 18)%nat.
Proof.
  apply (reads_can_be_served 0 state_default 0 (read_default Strong)).
  - apply within_root. left.
  - by split_and!.
  - reflexivity.
  - split; [by left|]. by split_and!.
  - reflexivity.
  - vm_compute. reflexivity.
Defined.
