(* ===== verification/Bytes.v ===== *)
(** * Bytes, big-endian integers, UTF-8 and bounded readers

    What the binary format scripts use of Python: [bytes], [int.from_bytes], the integer shapes of
    [struct], strict UTF-8 decoding, hexadecimal text, and readers that consume a byte string from
    the front.  A Python [str] is represented by its UTF-8 encoding in a Rocq [string]; a reader
    (an object with [value] and [offset]) by the bytes it has not consumed yet. *)

From Stdlib Require Import Init.Byte Strings.Byte Ascii.
From stdpp Require Import base list strings numbers.
From S2P Require Import Prelude.
Import StateNotations.
Local Open Scope py_scope.
Local Open Scope Z_scope.

Notation byte := Byte.byte.
Notation bytes := (list Byte.byte).

#[export] Instance byte_eq_dec : EqDecision byte := Byte.byte_eq_dec.

(** ** One byte *)

Definition b2z (b : byte) : Z := Z.of_N (Byte.to_N b).
Definition z2b (z : Z) : byte := default x00 (Byte.of_N (Z.to_N (z mod 256))).

Lemma b2z_range b : 0 <= b2z b < 256.
Proof. unfold b2z. pose proof (Byte.to_N_bounded b). lia. Qed.

Lemma z2b_b2z b : z2b (b2z b) = b.
Proof.
  unfold z2b, b2z. rewrite Z.mod_small by apply b2z_range. by rewrite N2Z.id, Byte.of_to_N.
Qed.

Lemma b2z_z2b z : b2z (z2b z) = z mod 256.
Proof.
  unfold b2z, z2b. pose proof (Z.mod_pos_bound z 256 ltac:(lia)) as Hb.
  destruct (Byte.of_N (Z.to_N (z mod 256))) as [b|] eqn:E; simpl.
  - apply Byte.to_of_N in E. rewrite E. lia.
  - apply Byte.of_N_None_iff in E. lia.
Qed.

Lemma b2z_inj a b : b2z a = b2z b -> a = b.
Proof. intros H. by rewrite <- (z2b_b2z a), H, z2b_b2z. Qed.

(** ** Big-endian integers *)

(** [int.from_bytes(bs, 'big')] *)
Definition be_join (bs : bytes) : Z := fold_left (fun acc b => acc * 256 + b2z b) bs 0.

(** The [n] low bytes of [z], most significant first. *)
Fixpoint be_split (n : nat) (z : Z) : bytes :=
  match n with
  | O => []
  | S n' => be_split n' (z / 256) ++ [z2b z]
  end.

Lemma be_join_snoc bs b : be_join (bs ++ [b]) = be_join bs * 256 + b2z b.
Proof. unfold be_join. by rewrite fold_left_app. Qed.

Lemma length_be_split n z : length (be_split n z) = n.
Proof. revert z. induction n as [|n IH]; intros z; simpl; [done|]. rewrite length_app, IH. simpl. lia. Qed.

Lemma be_join_range bs : 0 <= be_join bs < 256 ^ Z.of_nat (length bs).
Proof.
  induction bs as [|b bs IH] using rev_ind; [vm_compute; split; congruence|].
  rewrite be_join_snoc, length_app, Nat2Z.inj_add, Z.pow_add_r by lia. simpl.
  pose proof (b2z_range b). nia.
Qed.

Lemma be_join_split n z : be_join (be_split n z) = z mod 256 ^ Z.of_nat n.
Proof.
  revert z. induction n as [|n IH]; intros z; simpl be_split.
  - rewrite Z.pow_0_r, Z.mod_1_r. done.
  - rewrite be_join_snoc, IH, b2z_z2b.
    replace (256 ^ Z.of_nat (S n)) with (256 * 256 ^ Z.of_nat n) by (rewrite Nat2Z.inj_succ, Z.pow_succ_r; lia).
    rewrite Z.rem_mul_r by lia. lia.
Qed.

Lemma be_split_join bs : be_split (length bs) (be_join bs) = bs.
Proof.
  induction bs as [|b bs IH] using rev_ind; [done|].
  rewrite length_app, Nat.add_1_r, be_join_snoc. simpl.
  pose proof (b2z_range b). f_equal.
  - rewrite Z.div_add_l, Z.div_small by lia. by rewrite Z.add_0_r.
  - f_equal. apply b2z_inj. rewrite b2z_z2b, Z.add_comm, Z_mod_plus_full. by apply Z.mod_small.
Qed.

Lemma be_split_inj n a b :
  0 <= a < 256 ^ Z.of_nat n -> 0 <= b < 256 ^ Z.of_nat n -> be_split n a = be_split n b -> a = b.
Proof.
  intros Ha Hb H. apply (f_equal be_join) in H. rewrite !be_join_split, !Z.mod_small in H; done.
Qed.

(** Two's complement on [n] bytes, as the signed shapes [b h i q] of [struct] read it. *)
Definition to_signed (n : nat) (u : Z) : Z :=
  if u <? 2 ^ (8 * Z.of_nat n - 1) then u else u - 2 ^ (8 * Z.of_nat n).

Definition signed_range (n : nat) (z : Z) : Prop := - 2 ^ (8 * Z.of_nat n - 1) <= z < 2 ^ (8 * Z.of_nat n - 1).
Definition unsigned_range (n : nat) (z : Z) : Prop := 0 <= z < 2 ^ (8 * Z.of_nat n).

Lemma pow_256 n : 256 ^ Z.of_nat n = 2 ^ (8 * Z.of_nat n).
Proof. rewrite Z.pow_mul_r by lia. done. Qed.

Lemma to_signed_split n z : (0 < n)%nat -> signed_range n z -> to_signed n (be_join (be_split n z)) = z.
Proof.
  intros Hn Hz. unfold signed_range in Hz. rewrite be_join_split, pow_256. unfold to_signed.
  set (h := 2 ^ (8 * Z.of_nat n - 1)) in *.
  replace (2 ^ (8 * Z.of_nat n)) with (2 * h) by (unfold h; rewrite <- Z.pow_succ_r by lia; f_equal; lia).
  assert (0 < h) by (apply Z.pow_pos_nonneg; lia).
  destruct (Z.lt_ge_cases z 0) as [Hneg|Hpos].
  - replace (z mod (2 * h)) with (z + 2 * h); [rewrite (proj2 (Z.ltb_ge _ _)); lia|].
    apply Z.mod_unique with (q := -1); lia.
  - rewrite Z.mod_small by lia. by rewrite (proj2 (Z.ltb_lt _ _)) by lia.
Qed.

Lemma to_signed_range n bs : (0 < n)%nat -> length bs = n -> signed_range n (to_signed n (be_join bs)).
Proof.
  intros Hn Hl. pose proof (be_join_range bs) as Hr. rewrite Hl, pow_256 in Hr. unfold signed_range, to_signed.
  set (h := 2 ^ (8 * Z.of_nat n - 1)) in *.
  replace (2 ^ (8 * Z.of_nat n)) with (2 * h) in * by (unfold h; rewrite <- Z.pow_succ_r by lia; f_equal; lia).
  destruct (Z.ltb_spec (be_join bs) h); lia.
Qed.

(** ** Strict UTF-8 *)

Definition between (lo hi : Z) (b : byte) : bool := (lo <=? b2z b) && (b2z b <=? hi).
Definition continuation : byte -> bool := between 128 191.

(** [bs.decode('utf-8', errors='strict')] succeeds: shortest forms, no surrogates, at most U+10FFFF. *)
Fixpoint utf8_valid (bs : bytes) : bool :=
  match bs with
  | [] => true
  | a :: r =>
      if between 0 127 a then utf8_valid r else
      match r with
      | [] => false
      | b :: r =>
          if between 194 223 a then continuation b && utf8_valid r else
          match r with
          | [] => false
          | c :: r =>
              if between 224 224 a then between 160 191 b && continuation c && utf8_valid r
              else if between 237 237 a then between 128 159 b && continuation c && utf8_valid r
              else if between 225 239 a then continuation b && continuation c && utf8_valid r
              else
              match r with
              | [] => false
              | d :: r =>
                  if between 240 240 a then between 144 191 b && continuation c && continuation d && utf8_valid r
                  else if between 241 243 a then continuation b && continuation c && continuation d && utf8_valid r
                  else if between 244 244 a then between 128 143 b && continuation c && continuation d && utf8_valid r
                  else false
              end
          end
      end
  end.

Definition str_of_bytes (bs : bytes) : string := String.string_of_list_byte bs.
Definition utf8 (s : string) : bytes := String.list_byte_of_string s.

Definition decode_utf8 (e : exn) (bs : bytes) : result string :=
  if utf8_valid bs then Ok (str_of_bytes bs) else Err e.

(** The text a model string stands for is well formed. *)
Definition is_text (s : string) : bool := utf8_valid (utf8 s).

Lemma utf8_str bs : utf8 (str_of_bytes bs) = bs.
Proof. apply String.list_byte_of_string_of_list_byte. Qed.

Lemma str_utf8 s : str_of_bytes (utf8 s) = s.
Proof. apply String.string_of_list_byte_of_string. Qed.

Lemma decode_encode e s : is_text s = true -> decode_utf8 e (utf8 s) = Ok s.
Proof. unfold decode_utf8, is_text. intros ->. by rewrite str_utf8. Qed.

Lemma utf8_cons c s : utf8 (String c s) = Ascii.byte_of_ascii c :: utf8 s.
Proof. done. Qed.

Lemma utf8_valid_ascii a bs : between 0 127 a = true -> utf8_valid (a :: bs) = utf8_valid bs.
Proof. intros H. cbn [utf8_valid]. by rewrite H. Qed.

Lemma utf8_inj s t : utf8 s = utf8 t -> s = t.
Proof. intros H. by rewrite <- (str_utf8 s), H, str_utf8. Qed.

(** ** Hexadecimal text *)

Definition hex_digit (z : Z) : ascii := Ascii.ascii_of_N (Z.to_N (if z <? 10 then 48 + z else 87 + z)).

(** [bs.hex()] *)
Fixpoint hex (bs : bytes) : string :=
  match bs with
  | [] => ""
  | b :: bs' => String (hex_digit (b2z b / 16)) (String (hex_digit (b2z b mod 16)) (hex bs'))
  end.

Definition hex_value (c : ascii) : option Z :=
  let z := Z.of_N (Ascii.N_of_ascii c) in
  if (48 <=? z) && (z <=? 57) then Some (z - 48)
  else if (97 <=? z) && (z <=? 102) then Some (z - 87)
  else if (65 <=? z) && (z <=? 70) then Some (z - 55)
  else None.

(** [bytes.fromhex(s)] of text without white space. *)
Fixpoint unhex (s : string) : option bytes :=
  match s with
  | EmptyString => Some []
  | String a (String b s') =>
      match hex_value a, hex_value b, unhex s' with
      | Some x, Some y, Some bs => Some (z2b (x * 16 + y) :: bs)
      | _, _, _ => None
      end
  | String _ EmptyString => None
  end.

Lemma hex_value_digit z : 0 <= z < 16 -> hex_value (hex_digit z) = Some z.
Proof.
  intros Hz. assert (In z (map Z.of_nat (seq 0 16))) as Hin.
  { apply in_map_iff. exists (Z.to_nat z). split; [lia|]. apply in_seq. lia. }
  vm_compute in Hin. repeat destruct Hin as [<- | Hin]; try done.
Qed.

Lemma unhex_hex bs : unhex (hex bs) = Some bs.
Proof.
  induction bs as [|b bs IH]; [done|]. cbn [hex unhex]. pose proof (b2z_range b).
  rewrite !hex_value_digit, IH.
  - rewrite Z.mul_comm, <- Z.div_mod by lia. by rewrite z2b_b2z.
  - apply Z.mod_pos_bound. lia.
  - split; [apply Z.div_pos; lia | apply Z.div_lt_upper_bound; lia].
Qed.

Lemma hex_inj bs bs' : hex bs = hex bs' -> bs = bs'.
Proof. intros H. assert (Some bs = Some bs') as Hs by (rewrite <- !unhex_hex; by rewrite H). by injection Hs. Qed.

(** ** Readers *)

Definition reader (A : Type) : Type := ST bytes A.

(** [take(size)]: the next [size] bytes, or the error [e] of the script. *)
Definition take_bytes (e : exn) (size : Z) : reader bytes := fun s =>
  if (size <? 0) || (Z.of_nat (length s) <? size) then (Err e, s)
  else (Ok (take (Z.to_nat size) s), drop (Z.to_nat size) s).

Definition read_uint (e : exn) (n : nat) : reader Z :=
  let* bs := take_bytes e (Z.of_nat n) in ret (be_join bs).
Definition read_int (e : exn) (n : nat) : reader Z :=
  let* bs := take_bytes e (Z.of_nat n) in ret (to_signed n (be_join bs)).

(** [if not condition: raise e] inside a reader *)
Definition ensure (b : bool) (e : exn) : reader unit := liftr (guard b e).

(** Running a reader on a whole byte string. *)
Definition run_reader {A} (p : reader A) (bs : bytes) : result A := fst (p bs).

(** [p] reads exactly [a] in front of any rest, with value [x]. *)
Definition reads {A} (p : reader A) (a : bytes) (x : A) : Prop := forall r, p (a ++ r) = (Ok x, r).

Lemma reads_bind {A B} (p : reader A) (k : A -> reader B) a b x y :
  reads p a x -> reads (k x) b y -> reads (bind p k) (a ++ b) y.
Proof. intros Hp Hk r. unfold bind. rewrite <- app_assoc, Hp. apply Hk. Qed.

Lemma reads_ret {A} (x : A) : reads (ret x) [] x.
Proof. by intros r. Qed.

Lemma reads_ensure b e : b = true -> reads (ensure b e) [] tt.
Proof. by intros -> r. Qed.

Lemma reads_liftr {A} (m : result A) x : m = Ok x -> reads (liftr m) [] x.
Proof. by intros -> r. Qed.

Lemma reads_check {A} b e (k : unit -> reader A) a y :
  b = true -> reads (k tt) a y -> reads (bind (ensure b e) k) a y.
Proof. intros -> Hk r. exact (Hk r). Qed.

Lemma reads_take e n a : Z.of_nat (length a) = n -> reads (take_bytes e n) a a.
Proof.
  intros Hn r. unfold take_bytes. rewrite length_app, (proj2 (Z.ltb_ge _ _)), (proj2 (Z.ltb_ge _ _)) by lia. simpl.
  subst n. rewrite Nat2Z.id. by rewrite take_app_length, drop_app_length.
Qed.

Lemma reads_uint e n z : unsigned_range n z -> reads (read_uint e n) (be_split n z) z.
Proof.
  intros Hz. unfold read_uint. rewrite <- (app_nil_r (be_split n z)).
  eapply reads_bind; [apply reads_take; by rewrite length_be_split|].
  replace (be_join (be_split n z)) with z; [apply reads_ret|].
  rewrite be_join_split, pow_256. symmetry. by apply Z.mod_small.
Qed.

Lemma reads_int e n z : (0 < n)%nat -> signed_range n z -> reads (read_int e n) (be_split n z) z.
Proof.
  intros Hn Hz. unfold read_int. rewrite <- (app_nil_r (be_split n z)).
  eapply reads_bind; [apply reads_take; by rewrite length_be_split|].
  rewrite to_signed_split by done. apply reads_ret.
Qed.

(** ** What a successful read consumed *)

Lemma be_split_mod n z : be_split n (z mod 256 ^ Z.of_nat n) = be_split n z.
Proof.
  rewrite <- be_join_split. rewrite <- (length_be_split n z) at 1. apply be_split_join.
Qed.

Lemma be_split_signed bs : be_split (length bs) (to_signed (length bs) (be_join bs)) = bs.
Proof.
  rewrite <- be_split_mod. unfold to_signed. rewrite <- pow_256. pose proof (be_join_range bs) as Hr.
  destruct (be_join bs <? _).
  - rewrite Z.mod_small by done. apply be_split_join.
  - replace ((be_join bs - _) mod _) with (be_join bs); [apply be_split_join|].
    apply Z.mod_unique with (q := -1); lia.
Qed.

Lemma take_bytes_ok e n s a s2 :
  take_bytes e n s = (Ok a, s2) <-> s = a ++ s2 /\ Z.of_nat (length a) = n.
Proof.
  split.
  - unfold take_bytes. destruct (_ || _) eqn:E; [done|]. bool_tac. intros [= <- <-].
    split; [by rewrite take_drop|]. rewrite length_take. lia.
  - intros [-> Hn]. by apply reads_take.
Qed.

Lemma read_uint_ok e n s z s2 :
  read_uint e n s = (Ok z, s2) -> exists a, s = a ++ s2 /\ length a = n /\ be_join a = z.
Proof.
  intros H. unfold read_uint in H. ok_inv H. apply take_bytes_ok in Hx as [-> Hl]. subst. exists x.
  split_and!; [done|lia|done].
Qed.

Lemma read_int_ok e n s z s2 :
  read_int e n s = (Ok z, s2) -> exists a, s = a ++ s2 /\ length a = n /\ to_signed n (be_join a) = z.
Proof.
  intros H. unfold read_int in H. ok_inv H. apply take_bytes_ok in Hx as [-> Hl]. subst. exists x.
  split_and!; [done|lia|done].
Qed.

Lemma ensure_ok b e s u s2 : ensure b e s = (Ok u, s2) <-> b = true /\ s = s2.
Proof. unfold ensure. rewrite liftr_ok, guard_ok. done. Qed.

Lemma run_reader_ok {A} (p : reader A) s a : run_reader p s = Ok a <-> exists s2, p s = (Ok a, s2).
Proof.
  unfold run_reader. destruct (p s) as [r s2]; simpl. split; [intros ->; by exists s2 | by intros (? & [= -> _])].
Qed.

Lemma be_join_inj a b : length a = length b -> be_join a = be_join b -> a = b.
Proof. intros Hl H. rewrite <- (be_split_join a), <- (be_split_join b), H, Hl. done. Qed.

Lemma uint_bytes e n s z s2 : read_uint e n s = (Ok z, s2) -> s = be_split n z ++ s2 /\ unsigned_range n z.
Proof.
  intros (a & -> & Hl & <-)%read_uint_ok. subst n. rewrite be_split_join. split; [done|].
  unfold unsigned_range. rewrite <- pow_256. apply be_join_range.
Qed.

Lemma int_bytes e n s z s2 :
  (0 < n)%nat -> read_int e n s = (Ok z, s2) -> s = be_split n z ++ s2 /\ signed_range n z.
Proof.
  intros Hn (a & -> & Hl & <-)%read_int_ok. subst n. rewrite be_split_signed. split; [done|].
  by apply to_signed_range.
Qed.

(** ** What a failed read raised *)

Lemma read_uint_err e n s e' s2 : read_uint e n s = (Err e', s2) -> e' = e.
Proof. unfold read_uint, take_bytes, bind. destruct (_ || _); by intros [= <- <-]. Qed.

Lemma read_int_err e n s e' s2 : read_int e n s = (Err e', s2) -> e' = e.
Proof. unfold read_int, take_bytes, bind. destruct (_ || _); by intros [= <- <-]. Qed.
