(* ===== verification/Sha256.v ===== *)
(** * SHA-256, as [hashlib.sha256(data).digest()] computes it

    The round constants and the initial state are the leading 32 fractional bits of the cube and
    square roots of the first primes, computed here rather than listed. *)

From Stdlib Require Import Uint63.
From stdpp Require Import base list strings.
From S2P Require Import Prelude Bytes.
Local Open Scope Z_scope.

(** ** Constants *)

(** The greatest [r < 2^bits] with [r^k <= n]. *)
Fixpoint root_bits (k : Z) (n : Z) (bits : nat) (r : Z) : Z :=
  match bits with
  | O => r
  | S b => let r' := r + 2 ^ Z.of_nat b in root_bits k n b (if r' ^ k <=? n then r' else r)
  end.

Definition is_prime (n : nat) : bool :=
  (2 <=? n)%nat && forallb (fun d => negb (n mod d =? 0)%nat) (seq 2 (n - 2)).

Definition primes : list Z := map Z.of_nat (List.filter is_prime (seq 2 311)).

(** The leading 32 bits of the fractional part of the [k]-th root of [p]. *)
Definition root_fraction (k p : Z) : Z := root_bits k (p * 2 ^ (32 * k)) 40 0 mod 2 ^ 32.

Definition round_constants : list int := Eval vm_compute in map (fun p => of_Z (root_fraction 3 p)) (take 64 primes).
Definition initial_state : list int := Eval vm_compute in map (fun p => of_Z (root_fraction 2 p)) (take 8 primes).

(** ** Words

    A word of 32 bits is a machine integer of 63 bits below [2 ^ 32]. *)

Definition mask : int := of_Z (2 ^ 32 - 1).
Definition word (z : int) : int := Uint63.land z mask.
Definition rotate (n x : int) : int := Uint63.lor (Uint63.lsr x n) (word (Uint63.lsl x (32 - n))).
Definition xor3 (a b c : int) : int := Uint63.lxor (Uint63.lxor a b) c.

Definition choose (e f g : int) : int := Uint63.lxor (Uint63.land e f) (Uint63.land (Uint63.lxor e mask) g).
Definition majority (a b c : int) : int := xor3 (Uint63.land a b) (Uint63.land a c) (Uint63.land b c).

(** ** The compression of one block *)

Fixpoint words (fuel : nat) (bs : bytes) : list int :=
  match fuel with
  | O => []
  | S n => of_Z (be_join (take 4 bs)) :: words n (drop 4 bs)
  end.

(** The schedule keeps the last sixteen words, most recent first. *)
Definition next_word (w : list int) : int :=
  let at_ i := List.nth i w 0%uint63 in
  let s0 := xor3 (rotate 7 (at_ 14%nat)) (rotate 18 (at_ 14%nat)) (Uint63.lsr (at_ 14%nat) 3) in
  let s1 := xor3 (rotate 17 (at_ 1%nat)) (rotate 19 (at_ 1%nat)) (Uint63.lsr (at_ 1%nat) 10) in
  word (at_ 15%nat + s0 + at_ 6%nat + s1).

Fixpoint schedule (n : nat) (w : list int) : list int :=
  match n with
  | O => []
  | S n' => let x := next_word w in x :: schedule n' (x :: take 15 w)
  end.

Definition round_step (st : list int) (kw : int * int) : list int :=
  match st with
  | [a; b; c; d; e; f; g; h] =>
      let t1 := (h + xor3 (rotate 6 e) (rotate 11 e) (rotate 25 e) + choose e f g + kw.1 + kw.2)%uint63 in
      let t2 := (xor3 (rotate 2 a) (rotate 13 a) (rotate 22 a) + majority a b c)%uint63 in
      [word (t1 + t2); a; b; c; word (d + t1); e; f; g]
  | _ => st
  end.

Definition compress (st : list int) (block : bytes) : list int :=
  let w := words 16 block in
  let all := w ++ schedule 48 (rev w) in
  let st' := fold_left round_step (combine round_constants all) st in
  map (fun p : int * int => word (p.1 + p.2)) (combine st st').

(** ** Padding and the digest *)

Definition padding (len : Z) : bytes :=
  z2b 128 :: List.repeat (z2b 0) (Z.to_nat ((55 - len) mod 64)) ++ be_split 8 (8 * len).

Fixpoint blocks (fuel : nat) (st : list int) (bs : bytes) : list int :=
  match fuel with
  | O => st
  | S n => match bs with
           | [] => st
           | _ => blocks n (compress st (take 64 bs)) (drop 64 bs)
           end
  end.

Definition sha256 (data : bytes) : bytes :=
  let padded := data ++ padding (Z.of_nat (length data)) in
  concat (map (fun w => be_split 4 (to_Z w)) (blocks (S (length padded / 64)) initial_state padded)).

(** ** The digest has 32 bytes *)

Example sha256_abc :
  sha256 [Byte.x61; Byte.x62; Byte.x63] =
  be_split 32 0xba7816bf8f01cfea414140de5dae2223b00361a396177a9cb410ff61f20015ad.
Proof. vm_compute. reflexivity. Qed.

Lemma round_step_length st kw : length st = 8%nat -> length (round_step st kw) = 8%nat.
Proof. intros H. do 9 (destruct st as [|? st]; try done). Qed.

Lemma compress_length st block : length st = 8%nat -> length (compress st block) = 8%nat.
Proof.
  intros H. unfold compress. rewrite length_map, length_combine.
  assert (forall l st', length st' = 8%nat -> length (fold_left round_step l st') = 8%nat) as Hf.
  { induction l as [|kw l IH]; intros st' Hs; simpl; [done|]. by apply IH, round_step_length. }
  rewrite Hf by done. lia.
Qed.

Lemma blocks_length fuel st bs : length st = 8%nat -> length (blocks fuel st bs) = 8%nat.
Proof.
  revert st bs. induction fuel as [|n IH]; intros st bs H; simpl; [done|].
  destruct bs; [done|]. by apply IH, compress_length.
Qed.

Lemma length_sha256 data : length (sha256 data) = 32%nat.
Proof.
  unfold sha256. rewrite length_concat, map_map.
  assert (forall l, length l = 8%nat -> list_sum (map (fun x => length (be_split 4 (to_Z x))) l) = 32%nat) as H.
  { intros l Hl. do 9 (destruct l as [|? l]; try done). }
  apply H, blocks_length. reflexivity.
Qed.

(** An explicit collision: two different strings with one digest. *)
Definition collides (a b : bytes) : Prop := a <> b /\ sha256 a = sha256 b.

Lemma same_digest a b : sha256 a = sha256 b -> a = b \/ collides a b.
Proof. intros H. destruct (decide (a = b)); [by left|right]. done. Qed.
