(* ===== verification/Crc32c.v ===== *)
(** * CRC-32C ([crc32c] of [scripts/v4/storage_inspector.py])

    The checksum of every V4 storage artifact, and what it detects: two byte strings of one length
    that differ in a single byte never have the same checksum. *)

From stdpp Require Import base list.
From S2P Require Import Prelude Bytes.
Local Open Scope Z_scope.

Definition crc_bit (checksum : Z) : Z :=
  if Z.odd checksum then Z.lxor (Z.shiftr checksum 1) 0x82F63B78 else Z.shiftr checksum 1.

Definition crc_byte (checksum : Z) (value : byte) : Z :=
  Nat.iter 8 crc_bit (Z.lxor checksum (b2z value)).

Definition crc32c (data : bytes) : Z := Z.lxor (fold_left crc_byte data 0xFFFFFFFF) 0xFFFFFFFF.

(** ** 32-bit registers *)

Definition register (z : Z) : Prop := 0 <= z < 2 ^ 32.

Lemma register_bits z : register z <-> 0 <= z /\ forall i, 32 <= i -> Z.testbit z i = false.
Proof.
  split.
  - intros [H1 H2]. split; [done|]. intros i Hi. destruct (Z.eq_dec z 0) as [->|Hz]; [apply Z.bits_0|].
    apply Z.bits_above_log2; [done|]. assert (Z.log2 z < 32) by (apply Z.log2_lt_pow2; lia). lia.
  - intros [H1 H2]. split; [done|]. destruct (Z.lt_ge_cases z (2 ^ 32)) as [|Hge]; [done|].
    assert (32 <= Z.log2 z) by (apply Z.log2_le_pow2; lia).
    specialize (H2 (Z.log2 z) ltac:(done)). rewrite Z.bit_log2 in H2; [done|lia].
Qed.

Lemma register_lxor a b : register a -> register b -> register (Z.lxor a b).
Proof.
  rewrite !register_bits. intros [Ha Ha'] [Hb Hb']. split; [by apply Z.lxor_nonneg; split|].
  intros i Hi. by rewrite Z.lxor_spec, Ha', Hb'.
Qed.

Lemma register_shiftr a : register a -> register (Z.shiftr a 1).
Proof.
  intros [H1 H2]. unfold register. rewrite Z.shiftr_div_pow2 by lia. change (2 ^ 1) with 2.
  pose proof (Z.div_pos a 2 H1 ltac:(lia)). assert (a / 2 < 2 ^ 32); [|lia].
  apply Z.div_lt_upper_bound; lia.
Qed.

Lemma register_byte b : register (b2z b).
Proof. pose proof (b2z_range b). unfold register. lia. Qed.

Lemma register_bit c : register c -> register (crc_bit c).
Proof.
  intros H. unfold crc_bit. destruct (Z.odd c); [|by apply register_shiftr].
  apply register_lxor; [by apply register_shiftr|]. by split.
Qed.

(** ** One bit: the polynomial's top bit tells which branch was taken *)

Lemma crc_bit_top c : register c -> Z.testbit (crc_bit c) 31 = Z.odd c.
Proof.
  intros H. apply register_bits in H as [H1 H2]. unfold crc_bit. destruct (Z.odd c).
  - rewrite Z.lxor_spec, Z.shiftr_spec, H2 by lia. done.
  - rewrite Z.shiftr_spec by lia. by apply H2.
Qed.

Lemma odd_half_inj a b : Z.odd a = Z.odd b -> Z.shiftr a 1 = Z.shiftr b 1 -> a = b.
Proof.
  intros Ho Hs. rewrite (Z.div2_odd a), (Z.div2_odd b), !Z.div2_spec, Hs, Ho. done.
Qed.

Lemma crc_bit_inj a b : register a -> register b -> crc_bit a = crc_bit b -> a = b.
Proof.
  intros Ha Hb H. assert (Z.odd a = Z.odd b) as Ho.
  { rewrite <- (crc_bit_top a), <- (crc_bit_top b), H by done. done. }
  apply odd_half_inj; [done|]. unfold crc_bit in H. rewrite Ho in H. destruct (Z.odd b); [|done].
  apply (f_equal (fun z => Z.lxor z 0x82F63B78)) in H. rewrite !Z.lxor_assoc, Z.lxor_nilpotent, !Z.lxor_0_r in H. done.
Qed.

Lemma iter_bit n a : register a -> register (Nat.iter n crc_bit a).
Proof. intros Ha. induction n as [|n IH]; simpl; [done|]. by apply register_bit. Qed.

Lemma iter_bit_inj n a b :
  register a -> register b -> Nat.iter n crc_bit a = Nat.iter n crc_bit b -> a = b.
Proof.
  intros Ha Hb. induction n as [|n IH]; simpl; [done|]. intros H.
  apply IH. apply crc_bit_inj; [by apply iter_bit..|done].
Qed.

(** ** Bytes and byte strings *)

Lemma register_step c v : register c -> register (crc_byte c v).
Proof. intros H. unfold crc_byte. apply iter_bit, register_lxor; [done | apply register_byte]. Qed.

Lemma lxor_cancel_r a b c : Z.lxor a c = Z.lxor b c -> a = b.
Proof.
  intros H. apply (f_equal (fun z => Z.lxor z c)) in H.
  by rewrite !Z.lxor_assoc, Z.lxor_nilpotent, !Z.lxor_0_r in H.
Qed.

Lemma crc_byte_inj_l a b v : register a -> register b -> crc_byte a v = crc_byte b v -> a = b.
Proof.
  intros Ha Hb H. apply iter_bit_inj in H; [by eapply lxor_cancel_r|..].
  all: apply register_lxor; [done | apply register_byte].
Qed.

Lemma crc_byte_inj_r a v w : register a -> crc_byte a v = crc_byte a w -> v = w.
Proof.
  intros Ha H. apply iter_bit_inj in H; [|apply register_lxor; [done | apply register_byte]..].
  rewrite !(Z.lxor_comm a) in H. apply lxor_cancel_r in H. by apply b2z_inj.
Qed.

Lemma register_fold data c : register c -> register (fold_left crc_byte data c).
Proof. revert c. induction data as [|v data IH]; intros c Hc; simpl; [done|]. by apply IH, register_step. Qed.

Lemma fold_inj data a b :
  register a -> register b -> fold_left crc_byte data a = fold_left crc_byte data b -> a = b.
Proof.
  revert a b. induction data as [|v data IH]; intros a b Ha Hb H; simpl in H; [done|].
  apply IH in H; [by eapply crc_byte_inj_l | by apply register_step..].
Qed.

Lemma register_crc data : register (crc32c data).
Proof. unfold crc32c. apply register_lxor; [apply register_fold; by split | by split]. Qed.

Lemma crc32c_single pre v w post :
  crc32c (pre ++ v :: post) = crc32c (pre ++ w :: post) -> v = w.
Proof.
  unfold crc32c. intros H%lxor_cancel_r. rewrite !fold_left_app in H. simpl in H.
  assert (register (fold_left crc_byte pre 0xFFFFFFFF)) as Hr by (apply register_fold; by split).
  apply fold_inj in H; [by eapply crc_byte_inj_r | by apply register_step..].
Qed.
