(* ===== verification/Wire.v ===== *)
(** * Length-prefixed and checksummed binary members

    What the packed format scripts ([scripts/v41], [scripts/v42] and [scripts/v43]) share: each
    script has a copy of its own, with an exception class of its own, so the readers take the
    exceptions as arguments.  The second half says, reader by reader, which bytes a successful read
    consumed and that it accepts them again: the lemmas the canonicity proofs are made of. *)

From stdpp Require Import base list strings.
From S2P Require Import Prelude Bytes Crc32c.
Import StateNotations ResultNotations.
Local Open Scope py_scope.
Local Open Scope Z_scope.

(** ** Writers *)

(** [lp]: four bytes of length, then the UTF-8 bytes. *)
Definition text_size (s : string) : Z := Z.of_nat (length (utf8 s)).
Definition put_text (s : string) : bytes := be_split 4 (text_size s) ++ utf8 s.

(** [checked]: the content and its CRC32C. *)
Definition seal_bytes (content : bytes) : bytes := content ++ be_split 4 (crc32c content).

(** [data[:-4]] and the checksum in [data[-4:]]. *)
Definition sealed_body (data : bytes) : bytes := take (length data - 4) data.
Definition sealed_checksum (data : bytes) : Z := be_join (drop (length data - 4) data).

(** [for _ in range(n): out.append(item())] *)
Fixpoint repeat_reader {A} (n : nat) (item : reader A) : reader (list A) :=
  match n with
  | O => ret []
  | S n' => let* x := item in let* xs := repeat_reader n' item in ret (x :: xs)
  end.

(** ** Readers *)

(** [Cursor.string], with the length condition of the script. *)
Definition read_text (truncated bound strict : exn) (fits : Z -> bool) : reader string :=
  let* length := read_uint truncated 4 in
  do* ensure (fits length) bound in
  let* raw := take_bytes truncated length in
  liftr (decode_utf8 strict raw).

(** [if cursor.offset != len(cursor.data): raise] *)
Definition expect_end (e : exn) : reader unit := fun s => (guard (bool_decide (s = [])) e, s).

(** [for _ in range(count)] with a signed [count]. *)
Definition times {A} (count : Z) (item : reader A) : reader (list A) := repeat_reader (Z.to_nat count) item.

(** ** What a successful read consumed *)

Lemma read_text_ok t b u fits s x s2 :
  read_text t b u fits s = (Ok x, s2) ->
  s = put_text x ++ s2 /\ is_text x = true /\ fits (text_size x) = true /\ text_size x < 2 ^ 32.
Proof.
  intros H. unfold read_text in H. ok_inv H. apply uint_bytes in Hx as [-> Hr]. apply ensure_ok in Hx0 as [Hf <-].
  apply take_bytes_ok in Hx1 as [-> Hl]. unfold decode_utf8 in Hx2. destruct (utf8_valid x2) eqn:Hv; [|done].
  injection Hx2 as <-. subst. unfold put_text, text_size, is_text, unsigned_range in *. rewrite utf8_str.
  rewrite <- app_assoc. split_and!; [done..|lia].
Qed.

Lemma reads_text t b u fits x :
  is_text x = true -> fits (text_size x) = true -> text_size x < 2 ^ 32 ->
  reads (read_text t b u fits) (put_text x) x.
Proof.
  intros Hv Hf Hl. unfold read_text, put_text. eapply reads_bind.
  { apply reads_uint. unfold unsigned_range, text_size in *. change (8 * Z.of_nat 4) with 32. lia. }
  eapply reads_check; [done|]. rewrite <- (app_nil_r (utf8 x)). eapply reads_bind; [by apply reads_take|].
  apply reads_liftr. by apply decode_encode.
Qed.

Lemma expect_end_ok e s u s2 : expect_end e s = (Ok u, s2) <-> s = [] /\ s2 = [].
Proof.
  unfold expect_end. destruct u. case_bool_decide; simpl; split; try done.
  - intros [= <-]. done.
  - by intros [-> ->].
  - by intros [-> _].
Qed.

Lemma repeat_reader_ok {A} (item : reader A) (enc : A -> bytes) (good : A -> Prop) n s xs s2 :
  (forall s x s', item s = (Ok x, s') -> s = enc x ++ s' /\ good x) ->
  repeat_reader n item s = (Ok xs, s2) ->
  s = concat (enc <$> xs) ++ s2 /\ Forall good xs /\ length xs = n.
Proof.
  intros Hi. revert s xs. induction n as [|n IH]; intros s xs H; simpl in H.
  - apply ret_ok in H as [<- <-]. split_and!; [done|constructor|done].
  - ok_inv H. subst. apply Hi in Hx as [-> Hg]. apply IH in Hx0 as (-> & Hf & <-).
    simpl. rewrite <- app_assoc. split_and!; [done|by constructor|done].
Qed.

Lemma repeat_reader_length {A} (item : reader A) n s xs s2 : repeat_reader n item s = (Ok xs, s2) -> length xs = n.
Proof.
  revert s xs. induction n as [|n IH]; intros s xs H; simpl in H.
  - apply ret_ok in H as [<- _]. done.
  - ok_inv H. subst. simpl. f_equal. by eapply IH.
Qed.

Lemma reads_repeat {A} (item : reader A) (enc : A -> bytes) n xs :
  length xs = n -> Forall (fun x => reads item (enc x) x) xs ->
  reads (repeat_reader n item) (concat (enc <$> xs)) xs.
Proof.
  intros <- H. induction H as [|x xs Hx H IH]; simpl; [apply reads_ret|].
  eapply reads_bind; [done|]. rewrite <- (app_nil_r (concat _)). eapply reads_bind; [done|apply reads_ret].
Qed.

(** Running a reader that ends with the end-of-input check. *)
Lemma reads_run {A} (p : reader A) (bs : bytes) (x : A) : reads p bs x -> run_reader p bs = Ok x.
Proof. intros H. unfold run_reader. rewrite <- (app_nil_r bs), H. done. Qed.

Lemma run_exact {A} (p : reader A) s x s2 : p s = (Ok x, s2) -> run_reader p s = Ok x.
Proof. unfold run_reader. by intros ->. Qed.

(** ** The sealed tail *)

Definition sealed (data : bytes) : Prop := crc32c (sealed_body data) = sealed_checksum data.

Lemma insert_same_length (data : bytes) i b : length (<[i := b]> data) = length data.
Proof. apply length_insert. Qed.

Lemma crc32c_insert data i b c :
  data !! i = Some c -> crc32c (<[i := b]> data) = crc32c data -> b = c.
Proof.
  intros Hc H. rewrite insert_take_drop in H by (by eapply lookup_lt_Some).
  rewrite <- (take_drop_middle data i c Hc) in H at 3. by apply crc32c_single in H.
Qed.

Lemma sealed_insert data i b c :
  sealed data -> data !! i = Some c -> sealed (<[i := b]> data) -> b = c.
Proof.
  unfold sealed, sealed_body, sealed_checksum. rewrite insert_same_length. intros Hs Hc Hs'.
  destruct (decide (i < length data - 4)%nat) as [Hi|Hi].
  - rewrite take_insert_lt in Hs' by done. rewrite drop_insert_lt in Hs' by lia.
    rewrite <- Hs in Hs'. apply crc32c_insert with (c := c) in Hs'; [done|].
    by rewrite lookup_take_lt.
  - rewrite take_insert_ge in Hs' by lia. rewrite Hs in Hs'.
    apply be_join_inj in Hs'; [|by rewrite !length_drop, insert_same_length].
    rewrite drop_insert_ge in Hs' by lia.
    apply (f_equal (fun l => l !! (i - (length data - 4))%nat)) in Hs'.
    rewrite list_lookup_insert_eq in Hs'.
    + rewrite lookup_drop in Hs'. replace (_ + _)%nat with i in Hs' by lia. by simplify_eq.
    + rewrite length_drop. apply lookup_lt_Some in Hc. lia.
Qed.

Lemma sealed_seal content : sealed (seal_bytes content).
Proof.
  unfold sealed, sealed_body, sealed_checksum, seal_bytes. rewrite length_app, length_be_split.
  replace (length content + 4 - 4)%nat with (length content) by lia.
  rewrite take_app_length, drop_app_length, be_join_split. symmetry. apply Z.mod_small.
  rewrite pow_256. apply (register_crc content).
Qed.

Lemma sealed_body_seal content : sealed_body (seal_bytes content) = content.
Proof.
  unfold sealed_body, seal_bytes. rewrite length_app, length_be_split.
  replace (length content + 4 - 4)%nat with (length content) by lia. apply take_app_length.
Qed.

Lemma seal_sealed data : (4 <= length data)%nat -> sealed data -> data = seal_bytes (sealed_body data).
Proof.
  unfold sealed, seal_bytes. intros Hl ->. unfold sealed_body, sealed_checksum.
  replace 4%nat with (length (drop (length data - 4) data)) at 2 by (rewrite length_drop; lia).
  by rewrite be_split_join, take_drop.
Qed.

Lemma length_seal content : length (seal_bytes content) = (length content + 4)%nat.
Proof. unfold seal_bytes. by rewrite length_app, length_be_split. Qed.

(** ** Fields in front of a rest determine themselves *)

Lemma app_field (a b x y : bytes) : length a = length b -> a ++ x = b ++ y -> a = b /\ x = y.
Proof. intros Hl H. by apply app_inj_1. Qed.

Lemma be_field n a b x y :
  0 <= a < 256 ^ Z.of_nat n -> 0 <= b < 256 ^ Z.of_nat n ->
  be_split n a ++ x = be_split n b ++ y -> a = b /\ x = y.
Proof.
  intros Ha Hb H. apply app_field in H as [H ->]; [|by rewrite !length_be_split].
  split; [|done]. by eapply be_split_inj.
Qed.

Lemma uint_field n a b x y :
  unsigned_range n a -> unsigned_range n b -> be_split n a ++ x = be_split n b ++ y -> a = b /\ x = y.
Proof. unfold unsigned_range. rewrite <- pow_256. apply be_field. Qed.

Lemma int_field n a b x y :
  (0 < n)%nat -> signed_range n a -> signed_range n b -> be_split n a ++ x = be_split n b ++ y -> a = b /\ x = y.
Proof.
  intros Hn Ha Hb H. apply app_field in H as [H ->]; [|by rewrite !length_be_split]. split; [|done].
  by rewrite <- (to_signed_split n a), <- (to_signed_split n b), H.
Qed.

Lemma text_field a b x y :
  text_size a < 2 ^ 32 -> text_size b < 2 ^ 32 -> put_text a ++ x = put_text b ++ y -> a = b /\ x = y.
Proof.
  intros Ha Hb H. unfold put_text in H. rewrite <- !app_assoc in H.
  apply uint_field in H as [Hl H]; [|unfold unsigned_range, text_size in *; lia..].
  apply app_field in H as [H ->]; [|unfold text_size in Hl; lia]. split; [by apply utf8_inj|done].
Qed.

(** ** Automation

    [fields_inv] turns every successful read in the context into the bytes it consumed;
    [feed_step] runs one read of a parser on the bytes of an encoder. *)

Ltac fields_inv :=
  repeat match goal with
  | H : read_uint _ _ _ = (Ok _, _) |- _ => apply uint_bytes in H as [-> ?]
  | H : read_int _ _ _ = (Ok _, _) |- _ => apply int_bytes in H as [-> ?]; [|lia]
  | H : take_bytes _ _ _ = (Ok _, _) |- _ => apply take_bytes_ok in H as [-> ?]
  | H : read_text _ _ _ _ _ = (Ok _, _) |- _ => apply read_text_ok in H as (-> & ? & ? & ?)
  | H : ensure _ _ _ = (Ok _, _) |- _ => apply ensure_ok in H as [? ->]
  | H : expect_end _ _ = (Ok _, _) |- _ => apply expect_end_ok in H as [-> ->]
  end.

Lemma feed {A B} (p : reader A) (k : A -> reader B) a x r res :
  reads p a x -> k x r = res -> bind p k (a ++ r) = res.
Proof. intros Hp Hk. unfold bind. by rewrite Hp. Qed.

Lemma feed_check {B} b e (k : unit -> reader B) s res : b = true -> k tt s = res -> bind (ensure b e) k s = res.
Proof. by intros -> Hk. Qed.

Lemma feed_end {B} e (k : unit -> reader B) res : k tt [] = res -> bind (expect_end e) k [] = res.
Proof. done. Qed.

Ltac range_tac := first [assumption | lia | (split; vm_compute; congruence)].
Ltac read_tac :=
  lazymatch goal with
  | |- reads (read_uint _ _) _ _ => apply reads_uint; range_tac
  | |- reads (read_int _ _) _ _ => apply reads_int; [lia|range_tac]
  | |- reads (take_bytes _ _) _ _ => apply reads_take; range_tac
  | |- reads (read_text _ _ _ _) _ _ => apply reads_text; first [done | reflexivity]
  end.
Ltac feed_step :=
  lazymatch goal with
  | |- bind (ensure _ _) _ _ = _ => apply feed_check
  | |- bind (expect_end _) _ [] = _ => apply feed_end
  | |- bind _ _ (_ ++ _) = _ => eapply feed; [solve [read_tac]|]
  end; cbv beta.

(** [peel H] reads equal encodings field by field. *)
Ltac peel H :=
  repeat first
    [ apply text_field in H as [? H]; [|done..]
    | apply int_field in H as [? H]; [|lia|done..]
    | apply uint_field in H as [? H]; [|done..] ].
