(* ===== verification/Files.v ===== *)
(** * A snapshot of a directory tree, and Python's text helpers

    The inspectors only read.  A path is modelled by what it leads to at the time of the call;
    [sorted(path.iterdir())] is the sorted list of member names. *)

From Stdlib Require Import Ascii.
From stdpp Require Import base gmap sets strings list sorting.
From S2P Require Import Prelude Bytes.
Local Open Scope Z_scope.

Inductive file : Type :=
  | Regular (content : bytes)
  | Folder (members : gmap string file)
  | Irregular.

(** [path.is_file() and not path.is_symlink()] *)
Definition regular_content (f : file) : option bytes :=
  match f with Regular c => Some c | _ => None end.
Definition is_regular (f : file) : bool := match f with Regular _ => true | _ => false end.
(** [path.is_dir() and not path.is_symlink()] *)
Definition folder_members (f : file) : option (gmap string file) :=
  match f with Folder m => Some m | _ => None end.

Definition string_le (a b : string) : Prop := String.leb a b = true.
#[export] Instance string_le_dec : RelDecision string_le.
Proof. intros a b. unfold string_le. apply _. Defined.

(** [sorted(names)] *)
Definition sorted_names (m : gmap string file) : list string := merge_sort string_le (elements (dom m)).

(** ** Text *)

(** [text.startswith(prefix)], giving the rest. *)
Fixpoint strip_prefix (p s : string) : option string :=
  match p, s with
  | EmptyString, _ => Some s
  | String a p', String b s' => if decide (a = b) then strip_prefix p' s' else None
  | String _ _, EmptyString => None
  end.
Definition starts_with (p s : string) : bool := bool_decide (is_Some (strip_prefix p s)).

(** [sub in text] *)
Fixpoint contains (sub s : string) : bool :=
  starts_with sub s || match s with EmptyString => false | String _ s' => contains sub s' end.

(** [text.endswith(suffix)] *)
Fixpoint ends_with (suffix s : string) : bool :=
  bool_decide (s = suffix) || match s with EmptyString => false | String _ s' => ends_with suffix s' end.

(** [n] leading characters of a class, and the rest. *)
Fixpoint span_class (cls : ascii -> bool) (n : nat) (s : string) : option (string * string) :=
  match n with
  | O => Some (EmptyString, s)
  | S n' =>
      match s with
      | String c s' => if cls c then option_map (fun p : string * string => (String c p.1, p.2)) (span_class cls n' s') else None
      | EmptyString => None
      end
  end.

Definition code (c : ascii) : Z := Z.of_N (Ascii.N_of_ascii c).
Definition is_digit (c : ascii) : bool := (48 <=? code c) && (code c <=? 57).
Definition is_lower (c : ascii) : bool := (97 <=? code c) && (code c <=? 122).
Definition is_lower_hex (c : ascii) : bool := is_digit c || ((97 <=? code c) && (code c <=? 102)).

(** [int(text)] of decimal digits. *)
Fixpoint decimal (acc : Z) (s : string) : Z :=
  match s with
  | EmptyString => acc
  | String c s' => decimal (acc * 10 + (code c - 48)) s'
  end.

(** Text files are read with universal newlines. *)
Fixpoint universal_newlines (s : string) : string :=
  match s with
  | EmptyString => EmptyString
  | String a s' =>
      if code a =? 13 then
        match s' with
        | String b s'' => if code b =? 10 then String b (universal_newlines s'') else String (ascii_of_nat 10) (universal_newlines s')
        | EmptyString => String (ascii_of_nat 10) EmptyString
        end
      else String a (universal_newlines s')
  end.

(** [sep.join(parts)] *)
Fixpoint join (sep : string) (parts : list string) : string :=
  match parts with
  | [] => ""
  | [p] => p
  | p :: parts' => p +:+ sep +:+ join sep parts'
  end.

(** [path.read_bytes()] *)
Definition member_bytes (members : gmap string file) (name : string) : result bytes :=
  match members !! name with
  | Some f => of_option (regular_content f) OSError
  | None => Err OSError
  end.

Definition ascii_space (c : ascii) : bool := (code c =? 32) || ((9 <=? code c) && (code c <=? 13)).

(** [bytes.fromhex(text)]: white space is allowed between two bytes. *)
Fixpoint from_hex (s : string) : option bytes :=
  match s with
  | EmptyString => Some []
  | String a s1 =>
      if ascii_space a then from_hex s1 else
      match s1 with
      | EmptyString => None
      | String b s2 =>
          match hex_value a, hex_value b, from_hex s2 with
          | Some x, Some y, Some bs => Some (z2b (x * 16 + y) :: bs)
          | _, _, _ => None
          end
      end
  end.

Definition is_ascii (bs : bytes) : bool := forallb (between 0 127) bs.

(** [path.read_text(encoding="ascii")] *)
Definition ascii_text (e : exn) (raw : bytes) : result string :=
  if is_ascii raw then Ok (universal_newlines (str_of_bytes raw)) else Err e.

(** [text.splitlines()] of ASCII text. *)
Definition line_break (c : ascii) : bool :=
  ((10 <=? code c) && (code c <=? 13)) || ((28 <=? code c) && (code c <=? 30)).
Fixpoint split_where (sep : ascii -> bool) (s : string) : list string :=
  match s with
  | EmptyString => [EmptyString]
  | String c s' =>
      if sep c then EmptyString :: split_where sep s'
      else match split_where sep s' with
           | p :: ps => String c p :: ps
           | [] => [String c EmptyString]
           end
  end.
Definition splitlines (s : string) : list string :=
  let ls := split_where line_break s in
  match last ls with
  | Some EmptyString => take (length ls - 1) ls
  | _ => ls
  end.

(** [line.split(sep)] for a one-character separator. *)
Definition split_char (sep : ascii) (s : string) : list string := split_where (fun c => bool_decide (c = sep)) s.

(** [line.split(sep, 1)], when the separator occurs. *)
Fixpoint split_once (sep : ascii) (s : string) : option (string * string) :=
  match s with
  | EmptyString => None
  | String c s' =>
      if decide (c = sep) then Some (EmptyString, s')
      else option_map (fun p : string * string => (String c p.1, p.2)) (split_once sep s')
  end.

(** ** Lemmas *)

Lemma append_nil_r s : (s +:+ "")%string = s.
Proof. induction s as [|a s IH]; [done|]. change (String a (s +:+ "") = String a s). by rewrite IH. Qed.
Lemma append_assoc (a b c : string) : (a +:+ b) +:+ c = a +:+ b +:+ c.
Proof. induction a as [|x a IH]; [done|]. change (String x ((a +:+ b) +:+ c) = String x (a +:+ b +:+ c)). by rewrite IH. Qed.
Lemma append_length (a b : string) : String.length (a +:+ b) = (String.length a + String.length b)%nat.
Proof. induction a as [|x a IH]; [done|]. change (S (String.length (a +:+ b)) = S (String.length a + String.length b)). by rewrite IH. Qed.

Lemma strip_prefix_app p s : strip_prefix p (p +:+ s) = Some s.
Proof. induction p as [|a p IH]; simpl; [done|]. by rewrite decide_True. Qed.

Lemma strip_prefix_Some p s r : strip_prefix p s = Some r -> s = p +:+ r.
Proof.
  revert s. induction p as [|a p IH]; intros [|b s]; simpl; try (intros ?; by simplify_eq).
  case_decide; [|done]. intros Hr. subst. rewrite (IH s Hr). done.
Qed.
