(* ===== verification/StorageInspector.v ===== *)
(** * The V4 storage inspector ([scripts/v4/storage_inspector.py])

    The independent reader of the durable storage directory: metadata, checkpoint manifest and
    checkpoint, write-ahead log generations and the directory inventory of each phase. *)

From Stdlib Require Import Ascii.
From stdpp Require Import base gmap sets strings list.
From S2P Require Import Prelude Bytes Crc32c Wire Files.
Import StateNotations ResultNotations.
Local Open Scope py_scope.
Local Open Scope Z_scope.

Definition fault (msg : string) : exn := EvidenceError msg.
Definition demand (b : bool) (msg : string) : result unit := guard b (fault msg).

(** ** [Cursor] *)

Definition truncated : exn := fault "bounded storage field is truncated".
Definition cursor_read (size : Z) : reader bytes := take_bytes truncated size.
Definition u8 : reader Z := read_uint truncated 1.
Definition i8 : reader Z := read_int truncated 1.
Definition i16 : reader Z := read_int truncated 2.
Definition i32 : reader Z := read_int truncated 4.
Definition u32 : reader Z := read_uint truncated 4.
Definition i64 : reader Z := read_int truncated 8.
Definition u64 : reader Z := read_uint truncated 8.

Definition check_that (b : bool) (msg : string) : reader unit := ensure b (fault msg).

Definition cursor_string (allow_empty : bool) : reader string :=
  let* length := i32 in
  do* check_that (negb ((length <? 0) || (1024 <? length) || ((length =? 0) && negb allow_empty)))
    "persisted string length is invalid" in
  let* raw := cursor_read length in
  liftr (decode_utf8 (fault "persisted string is not UTF-8") raw).

(** [cursor.offset == len(cursor.data)] *)
Definition at_end : reader bool := fun s => (Ok (bool_decide (s = [])), s).

(** ** Constants *)

Definition METADATA_MAGIC : Z := 0x4753454D45544131.
Definition WAL_MAGIC : Z := 0x47534557414C3130.
Definition FRAME_MAGIC : Z := 0x47534546.
Definition CHECKPOINT_MAGIC : Z := 0x47534543484B3130.
Definition MANIFEST_MAGIC : Z := 0x4753454D414E3130.
Definition WAL_HEADER_BYTES : nat := 48.
Definition FRAME_HEADER_BYTES : nat := 28.
Definition FRAME_TRAILER_BYTES : nat := 4.
Definition MAX_FRAME_BYTES : Z := 256 * 1024 * 1024.
Definition HARD_LIMITS : list Z :=
  [64 * 1024 * 1024; 256 * 1024 * 1024; 1000000; 100000000; 1024 * 1024 * 1024 * 1024; 16 * 1024 * 1024 * 1024 * 1024].

(** [WAL_NAME], [CHECKPOINT_NAME] and [CHECKPOINT_STAGING_NAME], full matches. *)
Definition wal_generation (name : string) : option Z :=
  match strip_prefix "gse-wal-" name with
  | Some s => match span_class is_digit 20 s with
              | Some (digits, ".log") => Some (decimal 0 digits)
              | _ => None
              end
  | None => None
  end.
Definition is_wal_name (name : string) : bool := bool_decide (is_Some (wal_generation name)).

Definition checkpoint_suffix (name : string) : option string :=
  match strip_prefix "gse-checkpoint-" name with
  | Some s => match span_class is_digit 20 s with
              | Some (_, String "-" s') => option_map snd (span_class is_lower_hex 32 s')
              | _ => None
              end
  | None => None
  end.
Definition is_checkpoint_name (name : string) : bool := bool_decide (checkpoint_suffix name = Some ".chk"%string).
Definition is_checkpoint_staging (name : string) : bool :=
  bool_decide (checkpoint_suffix name = Some ".chk.staging"%string).

(** ** Metadata *)

Record index := Index { ix_kind : Z; ix_field : string; ix_analyzer : string }.

#[export] Instance index_eq_dec : EqDecision index.
Proof. solve_decision. Defined.

Record metadata := Metadata {
  md_history_most : Z;
  md_history_least : Z;
  md_storage_identity : string;
  md_schema_identity : string;
  md_codec_id : string;
  md_codec_version : Z;
  md_limits : list Z;
  md_indexes : list index;
  md_bytes : Z
}.

Definition md_limit (md : metadata) (i : nat) : Z := List.nth i (md_limits md) 0.
Definition max_key (md : metadata) : Z := md_limit md 0.
Definition max_document (md : metadata) : Z := md_limit md 1.
Definition max_bulk (md : metadata) : Z := md_limit md 2.
Definition max_documents (md : metadata) : Z := md_limit md 3.

Definition known_kind (k : Z) : bool := (1 <=? k) && (k <=? 4).
(** [(kind == 4) == (analyzer == "gse-simple-v1")] *)
Definition analyzer_fits (kind : Z) (analyzer : string) : bool :=
  Bool.eqb (kind =? 4) (bool_decide (analyzer = "gse-simple-v1"%string)).

(** The identity every artifact starts with: ["QhhQQ"]. *)
Record identity := Identity { id_magic : Z; id_major : Z; id_minor : Z; id_most : Z; id_least : Z }.
Definition read_identity : reader identity :=
  let* magic := u64 in let* major := i16 in let* minor := i16 in
  let* most := u64 in let* least := u64 in ret (Identity magic major minor most least).

Definition is_format (magic : Z) (i : identity) : bool :=
  (id_magic i =? magic) && (id_major i =? 1) && (id_minor i =? 0).
Definition same_history (md : metadata) (i : identity) : bool :=
  bool_decide (hex (be_split 8 (id_most i)) = hex (be_split 8 (md_history_most md)))
  && bool_decide (hex (be_split 8 (id_least i)) = hex (be_split 8 (md_history_least md))).

Definition metadata_index : reader index :=
  let* kind := i8 in
  let* field := cursor_string false in
  let* analyzer := cursor_string true in
  do* check_that (known_kind kind) "metadata index kind is invalid" in
  do* check_that (analyzer_fits kind analyzer) "metadata analyzer identity is invalid" in
  ret (Index kind field analyzer).

Definition read_metadata (size : Z) : reader metadata :=
  let* i := read_identity in
  do* check_that (is_format METADATA_MAGIC i) "metadata format identity mismatch" in
  let* family := cursor_string false in
  do* check_that (bool_decide (family = "gse-durable"%string)) "metadata family mismatch" in
  let* storage := cursor_string false in
  let* schema := cursor_string false in
  let* codec := cursor_string false in
  let* version := i32 in
  let* l0 := i32 in let* l1 := i32 in let* l2 := i32 in let* l3 := i32 in
  let* l4 := i64 in let* l5 := i64 in
  let limits := [l0; l1; l2; l3; l4; l5] in
  do* check_that (negb ((version <? 0) || existsb (fun v => v <=? 0) limits
      || existsb (fun p : Z * Z => p.2 <? p.1) (combine limits HARD_LIMITS) || (l5 <=? l4)))
    "metadata codec or limits are invalid" in
  let* count := i32 in
  do* check_that (negb ((count <? 0) || (100000 <? count))) "metadata index count is invalid" in
  let* indexes := repeat_reader (Z.to_nat count) metadata_index in
  let* e := at_end in
  do* check_that e "metadata has trailing bytes" in
  ret (Metadata (id_most i) (id_least i) storage schema codec version limits indexes size).

Definition inspect_metadata (data : bytes) : result metadata :=
  do! demand (negb ((length data <? 4)%nat || negb (crc32c (sealed_body data) =? sealed_checksum data)))
    "metadata checksum mismatch" in
  run_reader (read_metadata (Z.of_nat (length data))) (sealed_body data).

(** ** Checkpoint manifest *)

Record manifest := Manifest {
  mf_sequence : Z;
  mf_file : string;
  mf_bytes : Z;
  mf_checksum : Z;
  mf_wal_generation : Z;
  mf_wal_first : Z;
  mf_size : Z
}.

Definition read_manifest (md : metadata) (size : Z) : reader manifest :=
  let* i := read_identity in
  let* sequence := i64 in let* nbytes := i64 in let* checksum := u32 in
  let* file := cursor_string false in
  let* generation := i64 in let* first := i64 in
  let* e := at_end in
  do* check_that (is_format MANIFEST_MAGIC i && same_history md i && (0 <=? sequence) && (56 <=? nbytes)
      && is_checkpoint_name file && (1 <? generation) && (first =? sequence + 1) && e)
    "checkpoint manifest identity is invalid" in
  ret (Manifest sequence file nbytes checksum generation first size).

Definition inspect_manifest (data : bytes) (md : metadata) : result manifest :=
  do! demand (negb ((length data <? 72)%nat || (16 * 1024 <? Z.of_nat (length data))
      || negb (crc32c (sealed_body data) =? sealed_checksum data)))
    "checkpoint manifest checksum or size is invalid" in
  run_reader (read_manifest md (Z.of_nat (length data))) (sealed_body data).

(** ** Checkpoint *)

Record checkpoint := Checkpoint {
  cp_sequence : Z;
  cp_next_doc_id : Z;
  cp_live : Z;
  cp_indexes : list index;
  cp_checksum : Z;
  cp_bytes : Z
}.

Definition is_nil {A} (l : list A) : bool := match l with [] => true | _ => false end.

(** One turn of the descriptor loop: [seen_indexes] has the same members as [indexes]. *)
Definition checkpoint_index (indexes : list index) : reader (list index) :=
  let* kind := i8 in
  let* field := cursor_string false in
  let* analyzer := cursor_string true in
  let descriptor := Index kind field analyzer in
  do* check_that (known_kind kind && analyzer_fits kind analyzer && bool_decide (descriptor ∉ indexes))
    "checkpoint index descriptor is invalid" in
  ret (indexes ++ [descriptor]).

Fixpoint checkpoint_indexes (n : nat) (indexes : list index) : reader (list index) :=
  match n with
  | O => ret indexes
  | S n' => let* indexes' := checkpoint_index indexes in checkpoint_indexes n' indexes'
  end.

(** One slot: the number of live documents it adds. *)
Definition checkpoint_slot (md : metadata) : reader Z :=
  let* state := u8 in
  if state =? 0 then ret 0 else
  do* check_that (state =? 1) "checkpoint slot state is invalid" in
  let* key_length := i32 in
  do* check_that (negb ((key_length <? 0) || (max_key md <? key_length))) "checkpoint key length is invalid" in
  let* _ := cursor_read key_length in
  let* document_length := i32 in
  do* check_that (negb ((document_length <? 0) || (max_document md <? document_length)))
    "checkpoint document length is invalid" in
  let* _ := cursor_read document_length in
  ret 1.

Fixpoint checkpoint_slots (md : metadata) (n : nat) (decoded_live : Z) : reader Z :=
  match n with
  | O => ret decoded_live
  | S n' => let* live := checkpoint_slot md in checkpoint_slots md n' (decoded_live + live)
  end.

Definition read_checkpoint (md : metadata) (mf : manifest) (stored_checksum size : Z) : reader checkpoint :=
  let* i := read_identity in
  let* sequence := i64 in let* next_doc_id := i32 in
  let* live_documents := i32 in let* index_count := i32 in
  do* check_that (is_format CHECKPOINT_MAGIC i && same_history md i && (sequence =? mf_sequence mf)
      && negb (next_doc_id <? 0) && negb (live_documents <? 0)
      && negb (Z.min next_doc_id (max_documents md) <? live_documents)
      && negb ((index_count <? 0) || (100000 <? index_count)))
    "checkpoint header is invalid" in
  let* indexes := checkpoint_indexes (Z.to_nat index_count) [] in
  let* slot_count := i32 in
  do* check_that (slot_count =? next_doc_id) "checkpoint slot count is not canonical" in
  let* decoded_live := checkpoint_slots md (Z.to_nat slot_count) 0 in
  let* e := at_end in
  do* check_that ((decoded_live =? live_documents) && e) "checkpoint document structure is invalid" in
  ret (Checkpoint sequence next_doc_id live_documents indexes stored_checksum size).

Definition inspect_checkpoint (data : bytes) (md : metadata) (mf : manifest) : result checkpoint :=
  do! demand ((Z.of_nat (length data) =? mf_bytes mf) && (56 <=? Z.of_nat (length data)))
    "checkpoint size does not match manifest" in
  let stored_checksum := sealed_checksum data in
  do! demand ((crc32c (sealed_body data) =? stored_checksum) && (stored_checksum =? mf_checksum mf))
    "checkpoint checksum mismatch" in
  run_reader (read_checkpoint md mf stored_checksum (Z.of_nat (length data))) (sealed_body data).

(** ** Write-ahead log *)

Definition inspect_mutation (md : metadata) : reader unit :=
  let* operation := i8 in
  do* check_that ((1 <=? operation) && (operation <=? 3)) "WAL mutation operation is invalid" in
  let* key_length := i32 in
  do* check_that (negb ((key_length <? 0) || (max_key md <? key_length))) "WAL key length is invalid" in
  let* _ := cursor_read key_length in
  let* document_length := i32 in
  if operation =? 3 then check_that (document_length =? -1) "remove WAL entry contains a document"
  else
    do* check_that (negb ((document_length <? 0) || (max_document md <? document_length)))
      "WAL document length is invalid" in
    let* _ := cursor_read document_length in
    ret tt.

Definition payload_body (unit_type : Z) (md : metadata) : reader unit :=
  if unit_type =? 1 then inspect_mutation md
  else if unit_type =? 2 then
    let* count := i32 in
    do* check_that (negb ((count <=? 0) || (max_bulk md <? count))) "WAL bulk element count is invalid" in
    let* _ := repeat_reader (Z.to_nat count) (inspect_mutation md) in
    ret tt
  else if unit_type =? 3 then
    let* kind := i8 in
    let* field := cursor_string false in
    let* analyzer := cursor_string true in
    do* check_that (known_kind kind && negb (bool_decide (field = ""%string))) "WAL index descriptor is invalid" in
    check_that (analyzer_fits kind analyzer) "WAL index analyzer is invalid"
  else
    let* _ := cursor_string false in
    ret tt.

Definition inspect_payload (unit_type : Z) (payload : bytes) (md : metadata) : result unit :=
  run_reader
    (do* payload_body unit_type md in
     let* e := at_end in
     check_that e "WAL payload has trailing bytes") payload.

(** [data[a:b]] *)
Definition slice (a b : nat) (data : bytes) : bytes := take (b - a) (drop a data).

Definition fixed_identity : bytes := be_split 4 FRAME_MAGIC ++ be_split 2 1 ++ be_split 2 0.

Definition validate_incomplete_header (data : bytes) (expected_sequence : Z) : result unit :=
  let n := length data in
  let identity_bytes := Nat.min n (length fixed_identity) in
  do! demand (bool_decide (take identity_bytes data = take identity_bytes fixed_identity))
    "incomplete WAL frame identity is invalid" in
  do! (if (12 <=? n)%nat then
         let frame_length := to_signed 4 (be_join (slice 8 12 data)) in
         demand (negb ((frame_length <? Z.of_nat (FRAME_HEADER_BYTES + FRAME_TRAILER_BYTES))
                       || (MAX_FRAME_BYTES <? frame_length)))
           "incomplete WAL frame length is invalid"
       else Ok tt) in
  do! (if (20 <=? n)%nat then
         demand (to_signed 8 (be_join (slice 12 20 data)) =? expected_sequence)
           "incomplete WAL sequence is not contiguous"
       else Ok tt) in
  do! (if (21 <=? n)%nat then
         let t := be_join (slice 20 21 data) in
         demand (known_kind t) "incomplete WAL frame type is invalid"
       else Ok tt) in
  do! (if (22 <=? n)%nat then
         demand (be_join (slice 21 22 data) =? 0) "incomplete WAL frame flags are invalid"
       else Ok tt) in
  if (24 <=? n)%nat then
    demand (be_join (slice 22 24 data) =? 0) "incomplete WAL frame reserved bytes are invalid"
  else Ok tt.

Record frame := Frame {
  fr_sequence : Z;
  fr_type : Z;
  fr_payload : Z;
  fr_offset : Z;
  fr_bytes : Z
}.

Inductive tail := NONE | INCOMPLETE_HEADER | INCOMPLETE_FRAME.

Record wal := Wal {
  wl_generation : Z;
  wl_first : Z;
  wl_frames : list frame;
  wl_last : Z;
  wl_last_offset : Z;
  wl_tail : tail;
  wl_bytes : Z
}.

(** [struct.unpack(">IhhIqbbhi", header)]: the checks on a complete header, and its fields. *)
Record header := Header { hd_length : Z; hd_sequence : Z; hd_type : Z; hd_payload : Z }.

Definition frame_header : reader header :=
  let* magic := u32 in let* major := i16 in let* minor := i16 in
  let* frame_length := u32 in let* sequence := i64 in
  let* unit_type := i8 in let* flags := i8 in let* reserved := i16 in let* payload_length := i32 in
  do* check_that ((magic =? FRAME_MAGIC) && (major =? 1) && (minor =? 0)) "WAL frame identity is invalid" in
  do* check_that (known_kind unit_type && (flags =? 0) && (reserved =? 0)) "WAL frame type or flags are invalid" in
  do* check_that (negb ((payload_length <? 0)
      || negb (frame_length =? Z.of_nat FRAME_HEADER_BYTES + payload_length + Z.of_nat FRAME_TRAILER_BYTES)
      || (MAX_FRAME_BYTES <? frame_length)))
    "WAL frame length relation is invalid" in
  ret (Header frame_length sequence unit_type payload_length).

(** The complete frame in [data[offset:offset + frame_length]]. *)
Definition inspect_frame (md : metadata) (expected_sequence : Z) (h : header) (frame : bytes) : result unit :=
  do! demand (crc32c (sealed_body frame) =? sealed_checksum frame) "complete WAL frame checksum mismatch" in
  do! demand (hd_sequence h =? expected_sequence) "WAL sequence is not contiguous" in
  inspect_payload (hd_type h) (drop FRAME_HEADER_BYTES (sealed_body frame)) md.

(** The loop; [rest] is [data[offset:]].  A frame has at least 32 bytes, so as many turns as there
    are bytes are enough ([wal_loop_enough] below). *)
Fixpoint wal_loop (fuel : nat) (md : metadata) (offset expected_sequence : Z) (frames : list frame)
    (rest : bytes) : result (list frame * Z * Z * tail) :=
  match fuel with
  | O => Ok (frames, expected_sequence, offset, NONE)
  | S fuel' =>
      if is_nil rest then Ok (frames, expected_sequence, offset, NONE)
      else if (length rest <? FRAME_HEADER_BYTES)%nat then
        do! validate_incomplete_header rest expected_sequence in
        Ok (frames, expected_sequence, offset, INCOMPLETE_HEADER)
      else
        let! h := run_reader frame_header (take FRAME_HEADER_BYTES rest) in
        if Z.of_nat (length rest) <? hd_length h then Ok (frames, expected_sequence, offset, INCOMPLETE_FRAME)
        else
          let n := Z.to_nat (hd_length h) in
          do! inspect_frame md expected_sequence h (take n rest) in
          wal_loop fuel' md (offset + hd_length h) (expected_sequence + 1)
            (frames ++ [Frame (hd_sequence h) (hd_type h) (hd_payload h) offset (hd_length h)])
            (drop n rest)
  end.

Record wal_header := WalHeader { wh_identity : identity; wh_generation : Z; wh_first : Z; wh_checksum : Z }.
Definition read_wal_header : reader wal_header :=
  let* i := read_identity in
  let* generation := u64 in let* first := u64 in let* checksum := u32 in
  ret (WalHeader i generation first checksum).

Definition check_wal_header (md : metadata) (expected_generation expected_first : Z) (data : bytes)
    : result wal_header :=
  do! demand (negb (length data <? WAL_HEADER_BYTES)%nat) "WAL generation header is truncated" in
  let head := take WAL_HEADER_BYTES data in
  let! w := run_reader read_wal_header head in
  do! demand (is_format WAL_MAGIC (wh_identity w) && (wh_generation w =? expected_generation)
      && (wh_first w =? expected_first)) "WAL generation identity is invalid" in
  do! demand (crc32c (sealed_body head) =? wh_checksum w) "WAL generation checksum mismatch" in
  do! demand (same_history md (wh_identity w)) "WAL history identity mismatch" in
  Ok w.

Definition inspect_wal (data : bytes) (md : metadata) (expected_generation expected_first : Z) : result wal :=
  let! w := check_wal_header md expected_generation expected_first data in
  let rest := drop WAL_HEADER_BYTES data in
  let! turns := wal_loop (length rest) md (Z.of_nat WAL_HEADER_BYTES) (wh_first w) [] rest in
  let '(frames, expected_sequence, offset, terminal) := turns in
  Ok (Wal (wh_generation w) (wh_first w) frames (expected_sequence - 1) offset terminal (Z.of_nat (length data))).

(** ** The directory of each phase *)

(** [sorted(workspace.iterdir())] of a regular directory. *)
Definition directory_entries (workspace : file) : result (list (string * file)) :=
  match workspace with
  | Folder members =>
      Ok (omap (fun name => (fun f => (name, f)) <$> members !! name) (sorted_names members))
  | _ => Err (fault "engine directory must be a regular directory")
  end.

(** [for entry in entries: if not entry.is_file() or entry.is_symlink(): raise] and the next check. *)
Fixpoint check_entries (ok : string -> bool) (irregular_msg name_msg : string) (entries : list (string * file))
    : result unit :=
  match entries with
  | [] => Ok tt
  | (name, f) :: entries' =>
      do! demand (is_regular f) irregular_msg in
      do! demand (ok name) name_msg in
      check_entries ok irregular_msg name_msg entries'
  end.

Definition entry_content (entries : list (string * file)) (name : string) : option bytes :=
  match assoc_get name entries with Some f => regular_content f | None => None end.

Definition RESERVED_PRODUCTION_PREFIXES : list string := ["manifest"; "checkpoint-"; "wal-"].

(** [read_text] of a file and [f"barrierId={barrier}\n" in text]. *)
Definition newline : string := String (ascii_of_nat 10) EmptyString.

Definition inspect_phase1_directory (workspace : file) (barrier : string) : result (list string) :=
  let! entries := directory_entries workspace in
  do! check_entries (fun name => negb (existsb (fun p => starts_with p name) RESERVED_PRODUCTION_PREFIXES))
    "unexpected engine-directory member" "Phase 1 contains a production storage artifact" entries in
  let! state := of_option (entry_content entries "phase1-scaffold.properties")
    (fault "phase1 scaffold state is missing") in
  let! raw := decode_utf8 UnicodeError state in
  let text := universal_newlines raw in
  do! demand (contains (("barrierId=" +:+ barrier) +:+ newline) text) "phase1 scaffold barrier mismatch" in
  do! demand (contains ("productionStorage=false" +:+ newline) text) "Phase 1 must not claim production storage" in
  do! demand (negb (bool_decide (is_Some (assoc_get "graceful-close.marker"%string entries))))
    "graceful shutdown path ran" in
  Ok entries.*1.

Definition PHASE2_FILES : gset string := {[ "gse.lock"; "gse-metadata"; "gse-wal-00000000000000000001.log" ]}.

Record phase2 := Phase2 { p2_files : list string; p2_metadata : metadata; p2_wal : wal }.

(** A file known to be there is read; the inventory check before makes the exception unreachable. *)
Definition read_bytes (entries : list (string * file)) (name : string) : result bytes :=
  of_option (entry_content entries name) KeyError.

Definition inspect_phase2_directory (workspace : file) : result phase2 :=
  let! entries := directory_entries workspace in
  do! demand (bool_decide ((list_to_set entries.*1 : gset string) = PHASE2_FILES))
    "unexpected Phase 2 storage members" in
  do! check_entries (fun _ => true) "non-regular Phase 2 storage member" "" entries in
  let! raw := read_bytes entries "gse-metadata" in
  let! md := inspect_metadata raw in
  let! log := read_bytes entries "gse-wal-00000000000000000001.log" in
  let! w := inspect_wal log md 1 1 in
  Ok (Phase2 entries.*1 md w).

(** Phase 3 changes the classification only. *)
Definition inspect_phase3_directory (workspace : file) : result phase2 := inspect_phase2_directory workspace.

Definition allowed_fixed : list string :=
  ["gse.lock"; "gse-metadata"; "gse-metadata.staging"; "gse-checkpoint-manifest"; "gse-checkpoint-manifest.staging"].

Record phase4 := Phase4 {
  p4_files : list string;
  p4_metadata : metadata;
  p4_manifest : option manifest;
  p4_checkpoint : option checkpoint;
  p4_wals : list wal;
  p4_durable : Z;
  p4_staging : list string
}.

(** One turn of the loop over the WAL files: [previous] is [previous_generation] with the
    [expected_first] the previous turn computed. *)
Definition wal_turn (md : metadata) (mf : option manifest) (previous : option (Z * Z)) (name : string)
    (content : bytes) : result (wal * (Z * Z)) :=
  let! generation := of_option (wal_generation name) (AssertionError "") in
  do! demand (match previous with Some (g, _) => generation =? g + 1 | None => true end)
    "WAL generations are not contiguous" in
  let header := take WAL_HEADER_BYTES content in
  do! demand (bool_decide (length header = WAL_HEADER_BYTES)) "WAL generation header is truncated" in
  let! w := run_reader read_wal_header header in
  let first := wh_first w in
  do! (match previous with
       | None =>
           do! demand (negb ((generation =? 1) && negb (first =? 1))) "initial WAL sequence is not one" in
           demand (negb (negb (generation =? 1)
               && match mf with None => true | Some m => mf_wal_generation m <? generation end))
             "leading WAL generation is not authoritative"
       | Some (_, expected_first) => demand (first =? expected_first) "WAL generation sequences are not contiguous"
       end) in
  let! inspected := inspect_wal content md generation first in
  Ok (inspected, (generation, wl_last inspected + 1)).

Fixpoint wal_turns (md : metadata) (mf : option manifest) (previous : option (Z * Z))
    (entries : list (string * bytes)) : result (list wal) :=
  match entries with
  | [] => Ok []
  | (name, content) :: entries' =>
      let! turn := wal_turn md mf previous name content in
      let! wals := wal_turns md mf (Some turn.2) entries' in
      Ok (turn.1 :: wals)
  end.

(** [next((wal for wal in wals if wal["generation"] == ...), None)] *)
Definition boundary_ok (mf : manifest) (wals : list wal) : bool :=
  match List.find (fun w => wl_generation w =? mf_wal_generation mf) wals with
  | None => false
  | Some w => wl_first w =? mf_wal_first mf
  end.

Definition durable_sequence (mf : option manifest) (wals : list wal) : Z :=
  fold_right Z.max (match mf with Some m => mf_sequence m | None => 0 end) (wl_last <$> wals).

Definition wal_contents (entries : list (string * file)) : list (string * bytes) :=
  omap (fun e : string * file =>
    if is_wal_name e.1 then (fun c => (e.1, c)) <$> regular_content e.2 else None) entries.

Definition inspect_phase4_directory (workspace : file) : result phase4 :=
  let! entries := directory_entries workspace in
  do! check_entries (fun name => bool_decide (name ∈ allowed_fixed) || is_wal_name name
        || is_checkpoint_name name || is_checkpoint_staging name)
    "non-regular Phase 4 storage member" "unknown Phase 4 storage member" entries in
  do! demand (bool_decide ("gse-metadata"%string ∈ entries.*1)) "Phase 4 metadata is missing" in
  do! demand (existsb is_wal_name entries.*1) "Phase 4 WAL generation is missing" in
  let! raw := read_bytes entries "gse-metadata" in
  let! md := inspect_metadata raw in
  let! mf := match entry_content entries "gse-checkpoint-manifest" with
             | Some c => let! m := inspect_manifest c md in Ok (Some m)
             | None => Ok None
             end in
  let! cp := match mf with
             | Some m =>
                 let! c := of_option (entry_content entries (mf_file m)) (fault "authoritative checkpoint is missing") in
                 let! cp := inspect_checkpoint c md m in Ok (Some cp)
             | None => Ok None
             end in
  let! wals := wal_turns md mf None (wal_contents entries) in
  do! demand (match mf with Some m => boundary_ok m wals | None => true end)
    "manifest WAL boundary is missing or inconsistent" in
  Ok (Phase4 entries.*1 md mf cp wals (durable_sequence mf wals)
        (List.filter (ends_with ".staging") entries.*1)).
