(* ===== verification/StorageLog.v ===== *)
(** * The write-ahead log of the storage inspector, as a language

    [log] is the set of byte strings the frame loop of [inspect_wal] accepts, as an inductive
    relation; the loop decides it.  On top of it: every crash prefix of a complete log is accepted
    with the frames it still holds, and no single changed byte goes unnoticed. *)

From stdpp Require Import base sets list strings.
From S2P Require Import Prelude Bytes Crc32c Wire Files StorageInspector.
Import StateNotations ResultNotations.
Local Open Scope py_scope.
Local Open Scope Z_scope.

(** ** Frame headers *)

Definition header_bytes (h : header) : bytes :=
  fixed_identity ++ be_split 4 (hd_length h) ++ be_split 8 (hd_sequence h) ++ be_split 1 (hd_type h)
  ++ be_split 1 0 ++ be_split 2 0 ++ be_split 4 (hd_payload h).

Definition header_ok (h : header) : Prop :=
  known_kind (hd_type h) = true /\ 0 <= hd_payload h /\ hd_length h = 32 + hd_payload h
  /\ hd_length h <= MAX_FRAME_BYTES /\ signed_range 8 (hd_sequence h).

Lemma length_header_bytes h : length (header_bytes h) = FRAME_HEADER_BYTES.
Proof. unfold header_bytes. rewrite !length_app, !length_be_split. reflexivity. Qed.

Lemma known_kind_range k : known_kind k = true -> 1 <= k <= 4.
Proof. unfold known_kind. intros H. bool_tac. lia. Qed.

Ltac field_inv :=
  repeat match goal with
  | H : u8 _ = (Ok _, _) |- _ => apply uint_bytes in H as [-> ?]
  | H : u32 _ = (Ok _, _) |- _ => apply uint_bytes in H as [-> ?]
  | H : u64 _ = (Ok _, _) |- _ => apply uint_bytes in H as [-> ?]
  | H : i8 _ = (Ok _, _) |- _ => apply int_bytes in H as [-> ?]; [|lia]
  | H : i16 _ = (Ok _, _) |- _ => apply int_bytes in H as [-> ?]; [|lia]
  | H : i32 _ = (Ok _, _) |- _ => apply int_bytes in H as [-> ?]; [|lia]
  | H : i64 _ = (Ok _, _) |- _ => apply int_bytes in H as [-> ?]; [|lia]
  | H : check_that _ _ _ = (Ok _, _) |- _ => apply ensure_ok in H as [? ?]
  end.

Lemma frame_header_sound s h s2 : frame_header s = (Ok h, s2) -> s = header_bytes h ++ s2 /\ header_ok h.
Proof.
  intros H. unfold frame_header in H. ok_inv H. subst. field_inv. bool_tac. subst.
  unfold header_bytes, header_ok, fixed_identity; simpl hd_length; simpl hd_sequence; simpl hd_type; simpl hd_payload.
  split; [by rewrite <- !app_assoc|]. change (Z.of_nat FRAME_HEADER_BYTES) with 28 in *.
  change (Z.of_nat FRAME_TRAILER_BYTES) with 4 in *. split_and!; try done; lia.
Qed.

Lemma frame_header_complete h : header_ok h -> reads frame_header (header_bytes h) h.
Proof.
  intros (Hk & Hp & Hl & Hm & Hs). unfold header_bytes, fixed_identity. rewrite <- !app_assoc.
  pose proof (known_kind_range _ Hk). unfold MAX_FRAME_BYTES in Hm.
  rewrite <- (app_nil_r (be_split 4 (hd_payload h))).
  repeat (eapply reads_bind;
    [first [apply reads_uint | apply reads_int; [lia|]]; unfold unsigned_range, signed_range in *;
     change FRAME_MAGIC with 0x47534546; lia|]).
  apply reads_check; [by rewrite !Z.eqb_refl|]. apply reads_check; [by rewrite Hk|]. apply reads_check.
  - change (Z.of_nat FRAME_HEADER_BYTES) with 28. change (Z.of_nat FRAME_TRAILER_BYTES) with 4.
    rewrite (proj2 (Z.ltb_ge _ _)), (proj2 (Z.eqb_eq _ _)), (proj2 (Z.ltb_ge _ _)); [done|unfold MAX_FRAME_BYTES; lia|lia|lia].
  - destruct h. apply reads_ret.
Qed.

(** ** The accepted logs *)

(** A whole frame: an intact header, the declared length, a matching checksum, the expected
    sequence number and a well-formed payload. *)
Definition whole_frame (md : metadata) (expected : Z) (h : header) (this : bytes) : Prop :=
  header_ok h /\ take FRAME_HEADER_BYTES this = header_bytes h /\ Z.of_nat (length this) = hd_length h
  /\ sealed this /\ hd_sequence h = expected
  /\ inspect_payload (hd_type h) (drop FRAME_HEADER_BYTES (sealed_body this)) md = Ok tt.

Definition frame_at (offset : Z) (h : header) : frame :=
  Frame (hd_sequence h) (hd_type h) (hd_payload h) offset (hd_length h).

(** [log md offset expected rest frames expected' offset' tail]: from [offset] and [expected], the
    bytes [rest] are [frames] followed by a terminal tail. *)
Inductive log (md : metadata) : Z -> Z -> bytes -> list frame -> Z -> Z -> tail -> Prop :=
  | log_end off e : log md off e [] [] e off NONE
  | log_short off e rest :
      rest <> [] -> (length rest < FRAME_HEADER_BYTES)%nat -> validate_incomplete_header rest e = Ok tt ->
      log md off e rest [] e off INCOMPLETE_HEADER
  | log_torn off e rest h :
      header_ok h -> take FRAME_HEADER_BYTES rest = header_bytes h -> Z.of_nat (length rest) < hd_length h ->
      log md off e rest [] e off INCOMPLETE_FRAME
  | log_frame off e h this rest frames e' off' t :
      whole_frame md e h this ->
      log md (off + hd_length h) (e + 1) rest frames e' off' t ->
      log md off e (this ++ rest) (frame_at off h :: frames) e' off' t.

Lemma header_ok_length h : header_ok h -> 32 <= hd_length h.
Proof. intros (_ & ? & ? & _). lia. Qed.

Lemma run_header s h :
  run_reader frame_header (take FRAME_HEADER_BYTES s) = Ok h <-> take FRAME_HEADER_BYTES s = header_bytes h /\ header_ok h.
Proof.
  rewrite run_reader_ok. split.
  - intros [s2 H]. apply frame_header_sound in H as [Heq Hok]. split; [|done].
    assert (s2 = []) as ->; [|by rewrite app_nil_r in Heq].
    apply nil_length_inv. apply (f_equal length) in Heq. rewrite length_app, length_header_bytes, length_take in Heq. lia.
  - intros [-> Hok]. exists []. pose proof (frame_header_complete h Hok []) as H. by rewrite app_nil_r in H.
Qed.

Lemma whole_frame_length md e h this : whole_frame md e h this -> (32 <= length this)%nat.
Proof. intros (Hok & _ & Hl & _). apply header_ok_length in Hok. lia. Qed.

Lemma take_header (this rest : bytes) :
  (28 <= length this)%nat -> take FRAME_HEADER_BYTES (this ++ rest) = take FRAME_HEADER_BYTES this.
Proof. intros H. apply take_app_le. exact H. Qed.

Lemma inspect_frame_ok md e h this :
  inspect_frame md e h this = Ok tt <->
  sealed this /\ hd_sequence h = e
  /\ inspect_payload (hd_type h) (drop FRAME_HEADER_BYTES (sealed_body this)) md = Ok tt.
Proof.
  unfold inspect_frame, demand, sealed. split.
  - intros H. ok_inv H. bool_tac. done.
  - intros (H1 & H2 & H3). rewrite H1, H2, !Z.eqb_refl. simpl. done.
Qed.

Lemma is_nil_false {A} (l : list A) : l <> [] -> is_nil l = false.
Proof. by destruct l. Qed.

Lemma long_not_nil (l : bytes) n : (S n <= length l)%nat -> l <> [].
Proof. intros H ->. simpl in H. lia. Qed.

(** One turn of the loop on a whole frame. *)
Lemma wal_loop_frame fuel md off e acc h this rest :
  whole_frame md e h this ->
  wal_loop (S fuel) md off e acc (this ++ rest)
  = wal_loop fuel md (off + hd_length h) (e + 1) (acc ++ [frame_at off h]) rest.
Proof.
  intros Hw. pose proof (whole_frame_length _ _ _ _ Hw) as Hlen.
  destruct Hw as (Hok & Hh & Hl & Hs & He & Hp). cbn [wal_loop].
  rewrite is_nil_false by (apply (long_not_nil _ 31); rewrite length_app; lia).
  rewrite (proj2 (Nat.ltb_ge _ _)) by (rewrite length_app; unfold FRAME_HEADER_BYTES; lia).
  rewrite (proj2 (run_header (this ++ rest) h)) by (rewrite take_header by lia; done). cbn [rbind].
  rewrite (proj2 (Z.ltb_ge _ _)) by (rewrite length_app; lia).
  replace (Z.to_nat (hd_length h)) with (length this) by lia.
  rewrite take_app_length, drop_app_length.
  rewrite (proj2 (inspect_frame_ok _ _ _ _)) by done. done.
Qed.

Theorem wal_loop_complete fuel md off e acc rest frames e' off' t :
  log md off e rest frames e' off' t -> (length rest <= fuel)%nat ->
  wal_loop fuel md off e acc rest = Ok (acc ++ frames, e', off', t).
Proof.
  intros H. revert fuel acc. induction H as [off e|off e rest Hne Hlt Hv|off e rest h Hok Hh Hlt|off e h this rest frames e' off' t Hw Hl IH]; intros fuel acc Hf.
  - rewrite app_nil_r. by destruct fuel.
  - rewrite app_nil_r. destruct fuel as [|fuel]; [destruct rest; [done|simpl in Hf; lia]|].
    cbn [wal_loop]. rewrite is_nil_false by done.
    rewrite (proj2 (Nat.ltb_lt _ _)) by done. rewrite Hv. done.
  - rewrite app_nil_r. assert (28 <= length rest)%nat as Hlen.
    { apply (f_equal length) in Hh. rewrite length_header_bytes, length_take in Hh. unfold FRAME_HEADER_BYTES in Hh. lia. }
    destruct fuel as [|fuel]; [lia|]. cbn [wal_loop].
    rewrite is_nil_false by (by apply (long_not_nil _ 27)).
    rewrite (proj2 (Nat.ltb_ge _ _)) by done. rewrite (proj2 (run_header rest h)) by done. cbn [rbind].
    rewrite (proj2 (Z.ltb_lt _ _)) by done. done.
  - pose proof (whole_frame_length _ _ _ _ Hw). rewrite length_app in Hf. destruct fuel as [|fuel]; [lia|].
    rewrite (wal_loop_frame _ _ _ _ _ h) by done. rewrite IH by lia. by rewrite <- app_assoc.
Qed.

Theorem wal_loop_sound fuel md off e acc rest out e' off' t :
  (length rest <= fuel)%nat -> wal_loop fuel md off e acc rest = Ok (out, e', off', t) ->
  exists frames, out = acc ++ frames /\ log md off e rest frames e' off' t.
Proof.
  revert off e acc rest. induction fuel as [|fuel IH]; intros off e acc rest Hf H.
  - destruct rest; [|simpl in Hf; lia]. injection H as <- <- <- <-. exists []. rewrite app_nil_r. split; [done|constructor].
  - cbn [wal_loop] in H. destruct rest as [|b r] eqn:E.
    { injection H as <- <- <- <-. exists []. rewrite app_nil_r. split; [done|constructor]. }
    rewrite <- E in *. assert (rest <> []) as Hne by (by rewrite E). clear b r E. rewrite is_nil_false in H by done.
    destruct (Nat.ltb_spec (length rest) FRAME_HEADER_BYTES) as [Hs|Hs].
    { ok_inv H. injection H as <- <- <- <-. destruct x. exists []. rewrite app_nil_r. split; [done|]. by constructor. }
    ok_inv H. apply run_header in Hx as [Hh Hok]. pose proof (header_ok_length _ Hok) as Hlen.
    destruct (Z.ltb_spec (Z.of_nat (length rest)) (hd_length x)) as [Ht|Ht].
    { injection H as <- <- <- <-. exists []. rewrite app_nil_r. split; [done|]. by econstructor. }
    ok_inv H. destruct x0. apply inspect_frame_ok in Hx as (Hse & Hsq & Hp).
    set (n := Z.to_nat (hd_length x)) in *.
    assert (length (take n rest) = n) as Hn by (rewrite length_take; lia).
    apply IH in H as (frames & -> & Hl); [|rewrite length_drop; lia].
    exists (frame_at off x :: frames). split; [by rewrite <- app_assoc|].
    rewrite <- (take_drop n rest) at 1. constructor; [|done].
    split_and!; try done; [|lia]. rewrite take_take, Nat.min_l; [done|unfold FRAME_HEADER_BYTES; lia].
Qed.

(** ** Crash prefixes *)

Lemma split4 z : exists a b c d, be_split 4 z = [a; b; c; d].
Proof. by do 4 eexists. Qed.
Lemma split8 z : exists a b c d f g i j, be_split 8 z = [a; b; c; d; f; g; i; j].
Proof. by do 8 eexists. Qed.

Lemma validate_prefix h n :
  header_ok h -> (n < FRAME_HEADER_BYTES)%nat ->
  validate_incomplete_header (take n (header_bytes h)) (hd_sequence h) = Ok tt.
Proof.
  intros (Hk & Hp & Hl & Hm & Hs) Hn. unfold MAX_FRAME_BYTES in Hm.
  assert (to_signed 4 (be_join (be_split 4 (hd_length h))) = hd_length h) as HL.
  { apply to_signed_split; [lia|]. unfold signed_range. lia. }
  assert (to_signed 8 (be_join (be_split 8 (hd_sequence h))) = hd_sequence h) as HS by (apply to_signed_split; [lia|done]).
  assert (be_join (be_split 1 (hd_type h)) = hd_type h) as HT.
  { apply known_kind_range in Hk. rewrite be_join_split. apply Z.mod_small. lia. }
  assert (negb ((hd_length h <? 32) || (MAX_FRAME_BYTES <? hd_length h)) = true) as HR.
  { unfold MAX_FRAME_BYTES. rewrite (proj2 (Z.ltb_ge _ _)), (proj2 (Z.ltb_ge _ _)) by lia. done. }
  unfold header_bytes. change (be_split 1 (hd_type h)) with [z2b (hd_type h)] in *.
  destruct (split4 (hd_length h)) as (a & b & c & d & E). rewrite E in *.
  destruct (split8 (hd_sequence h)) as (a1 & b1 & c1 & d1 & f1 & g1 & i1 & j1 & E1). rewrite E1 in *.
  clear E E1. unfold FRAME_HEADER_BYTES in Hn.
  do 28 (destruct n as [|n]; [clear Hn; unfold validate_incomplete_header, demand, slice;
    change (Z.of_nat (FRAME_HEADER_BYTES + FRAME_TRAILER_BYTES)) with 32;
    cbn -[be_join to_signed Z.ltb Z.eqb known_kind MAX_FRAME_BYTES];
    rewrite bool_decide_true by reflexivity; rewrite ?HL, ?HS, ?HT, ?Hk, ?HR, ?Z.eqb_refl; reflexivity|]).
  lia.
Qed.

(** The frames that end within the first [n] bytes after [off]. *)
Definition frames_within (limit : Z) (frames : list frame) : list frame :=
  List.filter (fun f => fr_offset f + fr_bytes f <=? limit) frames.

Lemma log_offsets md off e rest frames e' off' t :
  log md off e rest frames e' off' t -> Forall (fun f => off + 32 <= fr_offset f + fr_bytes f) frames.
Proof.
  induction 1 as [| | |off e h this rest frames e' off' t Hw Hl IH]; [constructor..|].
  pose proof (header_ok_length h (proj1 Hw)). constructor; [simpl; lia|].
  eapply Forall_impl; [exact IH|]. simpl. intros f Hf. lia.
Qed.

Lemma log_extent md off e rest frames e' off' t :
  log md off e rest frames e' off' t -> off <= off' <= off + Z.of_nat (length rest).
Proof.
  induction 1 as [| | |off e h this rest frames e' off' t Hw Hl IH]; try lia.
  pose proof (header_ok_length h (proj1 Hw)). destruct Hw as (_ & _ & Hlen & _). rewrite length_app. lia.
Qed.

Lemma frames_within_none limit off frames :
  Forall (fun f => off + 32 <= fr_offset f + fr_bytes f) frames -> limit < off + 32 -> frames_within limit frames = [].
Proof.
  intros H Hl. induction H as [|f frames Hf H IH]; simpl; [done|]. rewrite (proj2 (Z.leb_gt _ _)) by lia. done.
Qed.

Theorem log_cut md off e rest frames e' off' t n :
  log md off e rest frames e' off' t -> Z.of_nat n <= off' - off ->
  exists e2 off2 t2, log md off e (take n rest) (frames_within (off + Z.of_nat n) frames) e2 off2 t2
    /\ e2 = e + Z.of_nat (length (frames_within (off + Z.of_nat n) frames)).
Proof.
  intros H. revert n. induction H as [off e|off e rest Hne Hlt Hv|off e rest h Hok Hh Hlt|off e h this rest frames e' off' t Hw Hl IH]; intros n Hn.
  1-3: (exists e, off, NONE; replace n with O by lia; rewrite take_0; split; [constructor|simpl; lia]).
  pose proof (header_ok_length h (proj1 Hw)) as Hmin. pose proof (log_offsets _ _ _ _ _ _ _ _ Hl) as Hoff.
  destruct Hw as (Hok & Hh & Hlen & Hse & He & Hp).
  destruct (decide (length this <= n)%nat) as [Hge|Hlt].
  - destruct (IH (n - length this)%nat) as (e2 & off2 & t2 & Hc & He2); [lia|].
    exists e2, off2, t2. replace (off + hd_length h + Z.of_nat (n - length this)) with (off + Z.of_nat n) in * by lia.
    rewrite take_app_ge by lia. cbn [frames_within List.filter]. cbn [frame_at fr_offset fr_bytes].
    rewrite (proj2 (Z.leb_le _ _)) by lia. split; [by constructor|]. rewrite He2. simpl length. unfold frames_within. lia.
  - assert (frames_within (off + Z.of_nat n) (frame_at off h :: frames) = []) as ->.
    { cbn [frames_within List.filter]. cbn [frame_at fr_offset fr_bytes]. rewrite (proj2 (Z.leb_gt _ _)) by lia.
      apply (frames_within_none _ (off + hd_length h)); [exact Hoff|lia]. }
    rewrite take_app_le by lia. destruct (decide (n < FRAME_HEADER_BYTES)%nat) as [Hs|Hs].
    + destruct n as [|n]; [exists e, off, NONE; split; [constructor|simpl; lia]|].
      exists e, off, INCOMPLETE_HEADER. split; [|simpl; lia]. unfold FRAME_HEADER_BYTES in Hs. constructor.
      * destruct this; [simpl in Hlen; lia|done].
      * rewrite length_take. unfold FRAME_HEADER_BYTES. lia.
      * replace (take (S n) this) with (take (S n) (header_bytes h)).
        -- rewrite <- He. by apply validate_prefix.
        -- rewrite <- Hh, take_take. f_equal. unfold FRAME_HEADER_BYTES. lia.
    + exists e, off, INCOMPLETE_FRAME. split; [|simpl; lia]. apply log_torn with (h := h); [done|..].
      * rewrite take_take. unfold FRAME_HEADER_BYTES in *. rewrite Nat.min_l by lia. done.
      * rewrite length_take. lia.
Qed.

(** ** One changed byte *)

Lemma header_field h i n : slice i (i + n) (header_bytes h) = take n (drop i (header_bytes h)).
Proof. unfold slice. f_equal. lia. Qed.

Lemma header_length_field h : slice 8 12 (header_bytes h) = be_split 4 (hd_length h).
Proof. destruct (split4 (hd_length h)) as (a & b & c & d & E). unfold header_bytes. by rewrite E. Qed.

Lemma header_payload_field h : slice 24 28 (header_bytes h) = be_split 4 (hd_payload h).
Proof.
  unfold header_bytes. destruct (split4 (hd_length h)) as (a & b & c & d & ->).
  destruct (split8 (hd_sequence h)) as (a1 & b1 & c1 & d1 & f1 & g1 & i1 & j1 & ->).
  by destruct (split4 (hd_payload h)) as (a2 & b2 & c2 & d2 & ->).
Qed.

Lemma slice_insert (l : bytes) a b i x : (i < a \/ b <= i)%nat -> slice a b (<[i := x]> l) = slice a b l.
Proof.
  intros H. unfold slice. destruct (decide (i < a)%nat).
  - by rewrite drop_insert_lt by lia.
  - rewrite drop_insert_ge, take_insert_ge by lia. done.
Qed.

(** A header with one byte changed does not declare another length. *)
Lemma header_length_stable h h' i b :
  header_ok h -> header_ok h' -> header_bytes h' = <[i := b]> (header_bytes h) -> hd_length h' = hd_length h.
Proof.
  intros (_ & Hp & Hl & Hm & _) (_ & Hp' & Hl' & Hm' & _) Heq. unfold MAX_FRAME_BYTES in *.
  destruct (decide (8 <= i < 12)%nat) as [Hi|Hi].
  - apply (f_equal (slice 24 28)) in Heq. rewrite slice_insert in Heq by lia.
    rewrite !header_payload_field in Heq. apply be_split_inj in Heq; lia.
  - apply (f_equal (slice 8 12)) in Heq. rewrite slice_insert in Heq by lia.
    rewrite !header_length_field in Heq. apply be_split_inj in Heq; lia.
Qed.

Lemma header_length_same h h' :
  header_ok h -> header_ok h' -> header_bytes h' = header_bytes h -> hd_length h' = hd_length h.
Proof.
  intros Hok Hok' Heq. apply (header_length_stable h h' FRAME_HEADER_BYTES (z2b 0)); [done..|].
  rewrite Heq. symmetry. apply list_insert_ge. by rewrite length_header_bytes.
Qed.

Lemma log_nil_inv md off e frames e' off' t :
  log md off e [] frames e' off' t -> frames = [].
Proof.
  remember [] as rest eqn:Hr. destruct 1 as [| | |off e h this rest frames e' off' t Hw Hl]; try done.
  apply whole_frame_length in Hw. apply app_eq_nil in Hr as [-> _]. simpl in Hw. lia.
Qed.

Theorem log_changed_byte md off e rest frames e' off' t i b c :
  log md off e rest frames e' off' t -> Z.of_nat i < off' - off -> rest !! i = Some c -> b <> c ->
  forall frames2 e2 off2 t2, ~ log md off e (<[i := b]> rest) frames2 e2 off2 t2.
Proof.
  intros H. revert i. induction H as [off e|off e rest Hne Hlt Hv|off e rest h Hok Hh Hlt|off e h this rest frames e' off' t Hw Hl IH];
    intros i Hi Hc Hb frames2 e2 off2 t2 H2; [lia..|].
  pose proof (whole_frame_length _ _ _ _ Hw) as Hmin. pose proof Hw as (Hok & Hh & Hlen & Hse & He & Hp).
  assert (Hh0 : forall l : bytes, take FRAME_HEADER_BYTES (<[i := b]> this ++ l) = take FRAME_HEADER_BYTES (<[i := b]> this)).
  { intros l. apply take_header. rewrite insert_same_length. lia. }
  destruct (decide (i < length this)%nat) as [Hin|Hout].
  - rewrite insert_app_l in H2 by done. rewrite lookup_app_l in Hc by done.
    assert (Hst : forall h', header_ok h' -> take FRAME_HEADER_BYTES (<[i := b]> this) = header_bytes h' ->
                  hd_length h' = hd_length h).
    { intros h' Hok' Hh'. destruct (decide (i < FRAME_HEADER_BYTES)%nat) as [Hi'|Hi'].
      - apply (header_length_stable h h' i b); [done..|]. rewrite <- Hh', <- Hh. by apply take_insert_lt.
      - rewrite take_insert_ge in Hh' by lia. rewrite Hh in Hh'.
        by apply header_length_same. }
    remember (<[i:=b]> this ++ rest) as whole eqn:Hwh.
    destruct H2 as [off2' e2'|off2' e2' rest2 Hne2 Hlt2 Hv2|off2' e2' rest2 h2 Hok2 Hh2 Hlt2|off2' e2' h2 this2 rest2 frames2 e2'' off2'' t2 Hw2 Hl2].
    + apply (f_equal length) in Hwh. rewrite length_app, insert_same_length in Hwh. simpl in Hwh. lia.
    + subst rest2. rewrite length_app, insert_same_length in Hlt2. unfold FRAME_HEADER_BYTES in Hlt2. lia.
    + subst rest2. rewrite Hh0 in Hh2. rewrite (Hst h2) in Hlt2 by done.
      rewrite length_app, insert_same_length in Hlt2. lia.
    + pose proof (whole_frame_length _ _ _ _ Hw2) as Hmin2. destruct Hw2 as (Hok2 & Hh2 & Hlen2 & Hse2 & _).
      pose proof (f_equal (take FRAME_HEADER_BYTES) Hwh) as Ht. rewrite Hh0 in Ht.
      rewrite take_header in Ht by lia. rewrite Hh2 in Ht. symmetry in Ht. apply Hst in Ht; [|done].
      apply app_inj_1 in Hwh as [-> _]; [|rewrite insert_same_length; lia].
      apply Hb. by eapply (sealed_insert this).
  - rewrite insert_app_r_alt in H2 by lia. rewrite lookup_app_r in Hc by lia.
    remember (this ++ <[(i - length this)%nat:=b]> rest) as whole eqn:Hwh.
    assert (Htk : take FRAME_HEADER_BYTES whole = header_bytes h) by (by rewrite Hwh, take_header by lia).
    destruct H2 as [off2' e2'|off2' e2' rest2 Hne2 Hlt2 Hv2|off2' e2' rest2 h2 Hok2 Hh2 Hlt2|off2' e2' h2 this2 rest2 frames2 e2'' off2'' t2 Hw2 Hl2].
    + apply (f_equal length) in Hwh. rewrite length_app in Hwh. simpl in Hwh. lia.
    + subst rest2. rewrite length_app in Hlt2. unfold FRAME_HEADER_BYTES in Hlt2. lia.
    + subst rest2. rewrite Hh2 in Htk.
      rewrite (header_length_same h h2) in Hlt2 by done.
      rewrite length_app in Hlt2. lia.
    + pose proof (whole_frame_length _ _ _ _ Hw2) as Hmin2. pose proof Hw2 as (Hok2 & Hh2 & Hlen2 & _).
      rewrite take_header in Htk by lia. rewrite Hh2 in Htk.
      assert (hd_length h2 = hd_length h) as Hhl by (by apply header_length_same).
      apply app_inj_1 in Hwh as [-> ->]; [|lia].
      rewrite Hhl in Hl2. eapply IH; [| |exact Hb|exact Hl2]; [lia|done].
Qed.

(** ** Whole files *)

Lemma log_sequences md off e rest frames e' off' t :
  log md off e rest frames e' off' t ->
  fr_sequence <$> frames = seqZ e (Z.of_nat (length frames)) /\ e' = e + Z.of_nat (length frames).
Proof.
  induction 1 as [| | |off e h this rest frames e' off' t Hw Hl [IH1 IH2]]; [simpl; split; [done|lia]..|].
  destruct Hw as (_ & _ & _ & _ & He & _). split; [|simpl length; lia].
  rewrite fmap_cons, seqZ_cons by (simpl length; lia). f_equal; [by simpl|].
  rewrite IH1. f_equal; simpl length; lia.
Qed.

Lemma sealed_checksum_app (p : bytes) c : unsigned_range 4 c -> sealed_checksum (p ++ be_split 4 c) = c.
Proof.
  intros Hc. unfold sealed_checksum. rewrite length_app, length_be_split.
  replace (length p + 4 - 4)%nat with (length p) by lia. rewrite drop_app_length, be_join_split, pow_256.
  by apply Z.mod_small.
Qed.

Lemma wal_header_checksum s w : length s = WAL_HEADER_BYTES -> run_reader read_wal_header s = Ok w ->
  wh_checksum w = sealed_checksum s.
Proof.
  intros Hl [s2 Hr]%run_reader_ok. unfold read_wal_header, read_identity in Hr. ok_inv Hr. field_inv. subst.
  rewrite !length_app, !length_be_split in Hl. unfold WAL_HEADER_BYTES in Hl.
  destruct s2; [|simpl in Hl; lia]. rewrite app_nil_r, !app_assoc, sealed_checksum_app by done. done.
Qed.

Lemma wal_header_fields md g f data wh :
  check_wal_header md g f data = Ok wh ->
  wh_generation wh = g /\ wh_first wh = f /\ (WAL_HEADER_BYTES <= length data)%nat
  /\ sealed (take WAL_HEADER_BYTES data).
Proof.
  unfold check_wal_header, demand. intros H. ok_inv H. bool_tac. injection H as <-.
  split_and!; [done..|]. unfold sealed. rewrite <- (wal_header_checksum _ x0); [done| |done].
  rewrite length_take. lia.
Qed.

Lemma inspect_wal_ok data md g f w :
  inspect_wal data md g f = Ok w <->
  exists wh frames off t, check_wal_header md g f data = Ok wh
    /\ log md 48 f (drop WAL_HEADER_BYTES data) frames (f + Z.of_nat (length frames)) off t
    /\ w = Wal g f frames (f + Z.of_nat (length frames) - 1) off t (Z.of_nat (length data)).
Proof.
  unfold inspect_wal. split.
  - intros H. ok_inv H. pose proof (wal_header_fields _ _ _ _ _ Hx) as (Hg & Hf & _).
    destruct x0 as [[[fs e] off] t]. injection H as <-. rewrite Hg, Hf in *.
    apply wal_loop_sound in Hx0 as (frames & -> & Hl); [|done].
    pose proof (log_sequences _ _ _ _ _ _ _ _ Hl) as [_ ->]. exists x, frames, off, t. done.
  - intros (wh & frames & off & t & Hh & Hl & ->). rewrite Hh. cbn [rbind].
    pose proof (wal_header_fields _ _ _ _ _ Hh) as (Hg & Hf & _). rewrite Hg, Hf.
    rewrite (wal_loop_complete _ _ _ _ _ _ _ _ _ _ Hl) by done. done.
Qed.

Lemma check_wal_header_take md g f data n :
  (WAL_HEADER_BYTES <= n)%nat -> check_wal_header md g f (take n data) = check_wal_header md g f data.
Proof.
  intros Hn. unfold check_wal_header. rewrite take_take, (Nat.min_l WAL_HEADER_BYTES n), length_take by done.
  do 2 f_equal. destruct (Nat.ltb_spec (length data) WAL_HEADER_BYTES), (Nat.ltb_spec (n `min` length data) WAL_HEADER_BYTES); lia || done.
Qed.

Lemma check_wal_header_insert md g f data wh i b :
  (WAL_HEADER_BYTES <= i)%nat -> check_wal_header md g f data = Ok wh ->
  check_wal_header md g f (<[i := b]> data) = Ok wh.
Proof. intros Hi <-. unfold check_wal_header. by rewrite take_insert_ge, insert_same_length. Qed.

(** ** Directories: the chain of generations *)

Definition sequences (wals : list wal) : list Z := fr_sequence <$> concat (wl_frames <$> wals).

(** Generations [g, g+1, ...] whose sequence numbers start at [first] and end before [next]. *)
Inductive generations : Z -> Z -> list wal -> Z -> Prop :=
  | gen_nil g first : generations g first [] first
  | gen_cons g first w wals next :
      wl_generation w = g -> wl_first w = first ->
      fr_sequence <$> wl_frames w = seqZ first (Z.of_nat (length (wl_frames w))) ->
      wl_last w = first + Z.of_nat (length (wl_frames w)) - 1 ->
      generations (g + 1) (wl_last w + 1) wals next -> generations g first (w :: wals) next.

Lemma inspect_wal_fields data md g f w :
  inspect_wal data md g f = Ok w ->
  wl_generation w = g /\ wl_first w = f
  /\ fr_sequence <$> wl_frames w = seqZ f (Z.of_nat (length (wl_frames w)))
  /\ wl_last w = f + Z.of_nat (length (wl_frames w)) - 1.
Proof.
  intros (wh & frames & off & t & Hh & Hl & ->)%inspect_wal_ok. simpl.
  split_and!; try done. by eapply log_sequences.
Qed.

Lemma wal_turns_generations md mf prev entries wals :
  wal_turns md mf prev entries = Ok wals ->
  (forall g f, prev = Some (g, f) -> exists next, generations (g + 1) f wals next)
  /\ (prev = None -> wals <> [] -> exists g f next, generations g f wals next
        /\ (g = 1 -> f = 1) /\ (g <> 1 -> exists m, mf = Some m /\ g <= mf_wal_generation m)).
Proof.
  revert prev wals. induction entries as [|[name content] entries IH]; intros prev wals H; simpl in H.
  - injection H as <-. split; [|done]. intros g f _. exists f. constructor.
  - ok_inv H. injection H as <-. apply IH in Hx0 as [Hn _]. clear IH.
    destruct x as [w [g' f']]. simpl in *. unfold wal_turn, demand in Hx. ok_inv Hx. injection Hx as <- <- <-.
    apply inspect_wal_fields in Hx5 as (Hg & Hf & Hseq & Hlast).
    destruct (Hn _ _ eq_refl) as [next Hgen]. split.
    + intros g f ->. ok_inv Hx4. bool_tac. subst. exists next. by constructor.
    + intros -> _. ok_inv Hx4. exists x, (wh_first x3), next. split; [by constructor|].
      apply negb_true_iff, andb_false_iff in Hx, Hx4. split.
      * intros ->. destruct Hx as [Hx|Hx]; bool_tac; done.
      * intros Hne. destruct Hx4 as [Hx4|Hx4]; bool_tac; [done|]. destruct mf as [m|]; [|done]. bool_tac. by exists m.
Qed.

Lemma generations_le g f wals next : generations g f wals next -> f <= next.
Proof. induction 1; lia. Qed.

Lemma generations_sequences g f wals next : generations g f wals next -> sequences wals = seqZ f (next - f).
Proof.
  induction 1 as [g f|g f w wals next Hg Hf Hs Hl H IH]; [by rewrite Z.sub_diag|].
  unfold sequences in *. rewrite fmap_cons. simpl concat. rewrite fmap_app, IH, Hs.
  pose proof (generations_le _ _ _ _ H). rewrite Hl in *.
  replace (next - f) with (Z.of_nat (length (wl_frames w)) + (next - (f + Z.of_nat (length (wl_frames w))))) by lia.
  rewrite seqZ_app by lia. f_equal. f_equal; lia.
Qed.

Lemma generations_durable g f wals next base :
  generations g f wals next -> wals <> [] -> fold_right Z.max base (wl_last <$> wals) = Z.max base (next - 1).
Proof.
  induction 1 as [g f|g f w wals next Hg Hf Hs Hl H IH]; [done|]. intros _.
  change (Z.max (wl_last w) (fold_right Z.max base (wl_last <$> wals)) = Z.max base (next - 1)).
  pose proof (generations_le _ _ _ _ H). destruct wals as [|w2 wals].
  - inversion H; subst. simpl. lia.
  - rewrite IH by done. lia.
Qed.

Lemma generations_member g f wals next w :
  generations g f wals next -> w ∈ wals -> f <= wl_first w <= next.
Proof.
  induction 1 as [g f|g f w' wals next Hg Hf Hs Hl H IH]; intros Hw; [set_solver|].
  pose proof (generations_le _ _ _ _ H). apply elem_of_cons in Hw as [->|Hw]; [lia|]. apply IH in Hw. lia.
Qed.

Lemma filter_seqZ base first len :
  first <= base + 1 <= first + len -> List.filter (fun s => base <? s) (seqZ first len) = seqZ (base + 1) (first + len - (base + 1)).
Proof.
  intros H. replace len with ((base + 1 - first) + (first + len - (base + 1))) at 1 by lia.
  rewrite seqZ_app by lia. rewrite List.filter_app.
  assert (forall (f : Z -> bool) l, (forall x, x ∈ l -> f x = false) -> List.filter f l = []) as Hnone.
  { intros h l Hl. induction l as [|x l IH]; simpl; [done|]. rewrite Hl by set_solver. apply IH. set_solver. }
  assert (forall (f : Z -> bool) l, (forall x, x ∈ l -> f x = true) -> List.filter f l = l) as Hall.
  { intros h l Hl. induction l as [|x l IH]; simpl; [done|]. rewrite Hl by set_solver. f_equal. apply IH. set_solver. }
  rewrite Hnone, Hall; [simpl; f_equal; lia|..].
  - intros x. rewrite elem_of_seqZ. intros Hx. apply Z.ltb_lt. lia.
  - intros x. rewrite elem_of_seqZ. intros Hx. apply Z.ltb_ge. lia.
Qed.

(** ** What the other artifacts promise *)

Lemma inspect_manifest_fields data md mf :
  inspect_manifest data md = Ok mf -> 0 <= mf_sequence mf /\ mf_wal_first mf = mf_sequence mf + 1 /\ 1 < mf_wal_generation mf.
Proof.
  unfold inspect_manifest, demand. intros H. ok_inv H. apply run_reader_ok in H as [s2 H].
  unfold read_manifest in H. ok_inv H. subst. field_inv. bool_tac. simpl. done.
Qed.

Lemma inspect_checkpoint_fields data md mf cp :
  inspect_checkpoint data md mf = Ok cp ->
  cp_sequence cp = mf_sequence mf /\ cp_checksum cp = mf_checksum mf
  /\ cp_live cp <= cp_next_doc_id cp /\ cp_live cp <= max_documents md.
Proof.
  unfold inspect_checkpoint, demand. intros H. ok_inv H. apply run_reader_ok in H as [s2 H].
  unfold read_checkpoint in H. ok_inv H. subst. field_inv. bool_tac. simpl. split_and!; lia || done.
Qed.

Lemma wal_turns_length md mf prev entries wals :
  wal_turns md mf prev entries = Ok wals -> length wals = length entries.
Proof.
  revert prev wals. induction entries as [|[name content] entries IH]; intros prev wals H; simpl in H.
  - by injection H as <-.
  - ok_inv H. injection H as <-. simpl. f_equal. by eapply IH.
Qed.

Lemma wal_contents_nonempty ok m1 m2 entries :
  check_entries ok m1 m2 entries = Ok tt -> existsb is_wal_name entries.*1 = true -> wal_contents entries <> [].
Proof.
  unfold wal_contents. induction entries as [|[name f] entries IH]; [done|]. simpl. intros H Hw. unfold demand in H.
  ok_inv H. destruct f as [c| |]; try done. destruct (is_wal_name name); simpl in *; [done|]. by apply IH.
Qed.

Lemma boundary_ok_spec m wals :
  boundary_ok m wals = true -> exists w, w ∈ wals /\ wl_generation w = mf_wal_generation m /\ wl_first w = mf_wal_first m.
Proof.
  unfold boundary_ok. destruct (List.find _ _) as [w|] eqn:E; [|done]. intros H.
  apply List.find_some in E as [Hin Hg]. bool_tac. exists w. by rewrite list_elem_of_In.
Qed.
