(* ===== verification/StorageProperties.v ===== *)
(** * Properties of the storage inspector, with witnesses *)

From Stdlib Require Import Ascii List.
From stdpp Require Import base gmap sets list strings.
From S2P Require Import Prelude Bytes Crc32c Wire Files StorageInspector StorageLog.
Import StateNotations ResultNotations.
Local Open Scope py_scope.
Local Open Scope Z_scope.

(** ** Sample artifacts *)

Definition seal (body : bytes) : bytes := body ++ be_split 4 (crc32c body).
Definition put_string (s : string) : bytes := be_split 4 (Z.of_nat (String.length s)) ++ utf8 s.
Definition put_identity (magic most least : Z) : bytes :=
  be_split 8 magic ++ be_split 2 1 ++ be_split 2 0 ++ be_split 8 most ++ be_split 8 least.

Definition sample_metadata : bytes := seal
  (put_identity METADATA_MAGIC 7 9 ++ put_string "gse-durable" ++ put_string "store" ++ put_string "schema"
   ++ put_string "codec" ++ be_split 4 1 ++ be_split 4 64 ++ be_split 4 128 ++ be_split 4 10 ++ be_split 4 100
   ++ be_split 8 1000 ++ be_split 8 2000 ++ be_split 4 1
   ++ be_split 1 4 ++ put_string "title" ++ put_string "gse-simple-v1").

Definition sample_md : metadata :=
  Metadata 7 9 "store" "schema" "codec" 1 [64; 128; 10; 100; 1000; 2000] [Index 4 "title" "gse-simple-v1"] 142.

Example sample_metadata_accepted : inspect_metadata sample_metadata = Ok sample_md.
Proof. vm_compute. reflexivity. Qed.

Definition sample_mutation : bytes := be_split 1 1 ++ be_split 4 2 ++ utf8 "k1" ++ be_split 4 3 ++ utf8 "doc".
Definition encode_frame (sequence unit_type : Z) (payload : bytes) : bytes :=
  let n := Z.of_nat (length payload) in
  seal (header_bytes (Header (n + 32) sequence unit_type n) ++ payload).
Definition encode_wal_header (generation first : Z) : bytes :=
  seal (put_identity WAL_MAGIC 7 9 ++ be_split 8 generation ++ be_split 8 first).
Definition sample_wal : bytes :=
  encode_wal_header 1 1 ++ encode_frame 1 1 sample_mutation ++ encode_frame 2 4 (put_string "title").

Example sample_wal_accepted : inspect_wal sample_wal sample_md 1 1
  = Ok (Wal 1 1 [Frame 1 1 14 48 46; Frame 2 4 9 94 41] 2 135 NONE 135).
Proof. vm_compute. reflexivity. Qed.

(** ** The write-ahead log *)

(** C11: [inspect_wal] accepts exactly the files that are a valid header followed by a log of whole
    frames with consecutive sequence numbers and a terminal tail, and reports those frames. *)
Theorem wal_language data md g f w :
  inspect_wal data md g f = Ok w <->
  exists wh frames off t, check_wal_header md g f data = Ok wh
    /\ log md 48 f (drop WAL_HEADER_BYTES data) frames (f + Z.of_nat (length frames)) off t
    /\ w = Wal g f frames (f + Z.of_nat (length frames) - 1) off t (Z.of_nat (length data)).
Proof. apply inspect_wal_ok. Qed.

(** C12: After a crash that cuts an accepted write-ahead log anywhere behind its header and not behind
    its last valid offset, the file is accepted, with exactly the frames that still end within it. *)
Theorem wal_crash_prefix data md g f w n :
  inspect_wal data md g f = Ok w -> (WAL_HEADER_BYTES <= n)%nat -> Z.of_nat n <= wl_last_offset w ->
  exists off t, inspect_wal (take n data) md g f
    = Ok (let kept := frames_within (Z.of_nat n) (wl_frames w) in
          Wal g f kept (f + Z.of_nat (length kept) - 1) off t (Z.of_nat n)).
Proof.
  intros (wh & frames & off & t & Hh & Hl & ->)%inspect_wal_ok Hn Hoff. simpl in *.
  pose proof (wal_header_fields _ _ _ _ _ Hh) as (_ & _ & Hlen & _).
  pose proof (log_extent _ _ _ _ _ _ _ _ Hl) as Hext. rewrite length_drop in Hext. unfold WAL_HEADER_BYTES in *.
  destruct (log_cut _ _ _ _ _ _ _ _ (n - 48) Hl) as (e2 & off2 & t2 & Hc & ->); [lia|].
  replace (48 + Z.of_nat (n - 48)) with (Z.of_nat n) in Hc by lia.
  exists off2, t2. apply inspect_wal_ok. exists wh, (frames_within (Z.of_nat n) frames), off2, t2.
  rewrite check_wal_header_take by done. split_and!; [done| |f_equal; rewrite length_take; lia].
  rewrite skipn_firstn_comm. exact Hc.
Qed.

Lemma wal_crash_prefix_witness :
  exists off t, inspect_wal (take 100 sample_wal) sample_md 1 1 = Ok (Wal 1 1 [Frame 1 1 14 48 46] 1 off t 100).
Proof.
  apply (wal_crash_prefix sample_wal sample_md 1 1 _ 100 sample_wal_accepted); vm_compute; [|discriminate].
  repeat constructor.
Defined.

(** Changing one byte of an accepted write-ahead log, in its header or in any complete frame, makes
    the inspector reject it; no changed byte is taken for a torn tail. *)
Theorem wal_changed_byte data md g f w i b c :
  inspect_wal data md g f = Ok w -> Z.of_nat i < wl_last_offset w -> data !! i = Some c -> b <> c ->
  is_ok (inspect_wal (<[i := b]> data) md g f) = false.
Proof.
  intros (wh & frames & off & t & Hh & Hl & ->)%inspect_wal_ok Hi Hc Hb. simpl in Hi.
  destruct (inspect_wal (<[i:=b]> data) md g f) as [w2|] eqn:E; [|done]. exfalso.
  apply inspect_wal_ok in E as (wh2 & frames2 & off2 & t2 & Hh2 & Hl2 & _).
  pose proof (wal_header_fields _ _ _ _ _ Hh) as (_ & _ & Hlen & Hs).
  pose proof (wal_header_fields _ _ _ _ _ Hh2) as (_ & _ & _ & Hs2).
  destruct (decide (i < WAL_HEADER_BYTES)%nat) as [Hlt|Hge].
  - rewrite take_insert_lt in Hs2 by done. apply Hb. eapply sealed_insert; [exact Hs| |exact Hs2].
    by rewrite lookup_take_lt.
  - rewrite drop_insert_ge in Hl2 by lia. unfold WAL_HEADER_BYTES in *.
    eapply (log_changed_byte _ _ _ _ _ _ _ _ (i - 48) b c Hl); [lia| |exact Hb|exact Hl2].
    rewrite lookup_drop. by replace (48 + (i - 48))%nat with i by lia.
Qed.

Lemma wal_changed_byte_witness :
  is_ok (inspect_wal (<[60%nat := z2b 255]> sample_wal) sample_md 1 1) = false.
Proof.
  eapply (wal_changed_byte sample_wal sample_md 1 1 _ 60 (z2b 255) _ sample_wal_accepted).
  - vm_compute. reflexivity.
  - vm_compute. reflexivity.
  - vm_compute. discriminate.
Defined.

(** ** Sealed artifacts *)

(** Changing one byte of an accepted metadata file, checkpoint manifest or checkpoint makes the
    inspector reject it. *)
Theorem sealed_artifacts_changed_byte data i b c :
  data !! i = Some c -> b <> c ->
  (forall md, inspect_metadata data = Ok md -> is_ok (inspect_metadata (<[i := b]> data)) = false)
  /\ (forall md mf, inspect_manifest data md = Ok mf -> is_ok (inspect_manifest (<[i := b]> data) md) = false)
  /\ (forall md mf cp, inspect_checkpoint data md mf = Ok cp ->
        is_ok (inspect_checkpoint (<[i := b]> data) md mf) = false).
Proof.
  intros Hc Hb.
  assert (sealed data -> sealed (<[i := b]> data) -> False) as Hno.
  { intros Hs Hs'. apply Hb. eapply sealed_insert; [exact Hs|exact Hc|exact Hs'|..]. }
  split_and!.
  - intros md H. destruct (inspect_metadata (<[i := b]> data)) as [md'|] eqn:E; [|done]. exfalso.
    unfold inspect_metadata, demand in H, E. ok_inv H. ok_inv E. bool_tac. by apply Hno.
  - intros md mf H. destruct (inspect_manifest (<[i := b]> data) md) as [md'|] eqn:E; [|done]. exfalso.
    unfold inspect_manifest, demand in H, E. ok_inv H. ok_inv E. bool_tac. by apply Hno.
  - intros md mf cp H. destruct (inspect_checkpoint (<[i := b]> data) md mf) as [md'|] eqn:E; [|done]. exfalso.
    unfold inspect_checkpoint, demand in H, E. ok_inv H. ok_inv E. bool_tac. by apply Hno.
Qed.

Lemma sealed_artifacts_changed_byte_witness :
  is_ok (inspect_metadata (<[20%nat := z2b 255]> sample_metadata)) = false.
Proof.
  refine (proj1 (sealed_artifacts_changed_byte sample_metadata 20 (z2b 255) (z2b 0) _ _) sample_md sample_metadata_accepted).
  - vm_compute. reflexivity.
  - vm_compute. discriminate.
Defined.

(** ** A divergence in the handling of torn tails *)

(** A header torn within its 28 bytes is checked against the expected sequence number; a whole header
    of a torn frame is not.  So the same file with its last byte cut off can go from accepted to
    rejected. *)
Definition stray_wal : bytes := encode_wal_header 1 1 ++ take 28 (encode_frame 5 1 sample_mutation).

Theorem torn_frame_sequence_unchecked :
  is_ok (inspect_wal stray_wal sample_md 1 1) = true
  /\ inspect_wal (take 75 stray_wal) sample_md 1 1 = Err (fault "incomplete WAL sequence is not contiguous").
Proof. split; vm_compute; reflexivity. Qed.

(** A torn tail in a generation that is not the newest is accepted as well. *)
Definition gap_workspace : file := Folder (list_to_map [
  ("gse.lock"%string, Regular []);
  ("gse-metadata"%string, Regular sample_metadata);
  ("gse-wal-00000000000000000001.log"%string, Regular (take 100 sample_wal));
  ("gse-wal-00000000000000000002.log"%string,
   Regular (encode_wal_header 2 2 ++ encode_frame 2 4 (put_string "title")))]).

Theorem torn_older_generation_accepted :
  (let! p := inspect_phase4_directory gap_workspace in Ok (wl_tail <$> p4_wals p, p4_durable p))
  = Ok ([INCOMPLETE_HEADER; NONE], 2).
Proof. vm_compute. reflexivity. Qed.

(** ** The phase 4 directory *)

Definition base_sequence (p : phase4) : Z := match p4_manifest p with Some m => mf_sequence m | None => 0 end.

(** An accepted phase 4 directory holds a gapless history: behind the checkpoint (or from the
    beginning), the complete frames of its log generations carry exactly the sequence numbers up to
    the reported durable sequence, in order and once each; with a manifest, the checkpoint is the
    one it names and its log boundary is the start of a retained generation. *)
Theorem phase4_history_gapless workspace p :
  inspect_phase4_directory workspace = Ok p ->
  List.filter (fun s => base_sequence p <? s) (sequences (p4_wals p))
    = seqZ (base_sequence p + 1) (p4_durable p - base_sequence p)
  /\ base_sequence p <= p4_durable p
  /\ (forall m, p4_manifest p = Some m ->
        (exists cp, p4_checkpoint p = Some cp /\ cp_sequence cp = mf_sequence m /\ cp_checksum cp = mf_checksum m)
        /\ exists w, w ∈ p4_wals p /\ wl_generation w = mf_wal_generation m /\ wl_first w = mf_sequence m + 1).
Proof.
  unfold inspect_phase4_directory, demand. intros H. ok_inv H. injection H as <-.
  destruct x0. pose proof (wal_contents_nonempty _ _ _ _ Hx0 Hx2) as Hne. rename x7 into wals, Hx7 into Hw.
  assert (wals <> []) as Hnw.
  { intros ->. apply wal_turns_length in Hw. by destruct (wal_contents x). }
  destruct (wal_turns_generations _ _ _ _ _ Hw) as [_ Hg]. destruct (Hg eq_refl Hnw) as (g & f & next & Hgen & Hg1 & Hg2).
  unfold base_sequence. cbn [p4_manifest p4_wals p4_durable p4_checkpoint].
  unfold durable_sequence. rewrite (generations_durable _ _ _ _ _ Hgen) by done.
  rewrite (generations_sequences _ _ _ _ Hgen).
  set (base := match x5 with Some m => mf_sequence m | None => 0 end).
  assert (f <= base + 1 <= next /\ forall m, x5 = Some m ->
    (exists cp, x6 = Some cp /\ cp_sequence cp = mf_sequence m /\ cp_checksum cp = mf_checksum m)
    /\ exists w, w ∈ wals /\ wl_generation w = mf_wal_generation m /\ wl_first w = mf_sequence m + 1) as [Hb Hm].
  { destruct x5 as [m|].
    - apply rbind_ok in Hx6 as (c' & _ & Hx6). apply rbind_ok in Hx6 as (cp & Hcp & [= <-]).
      destruct (entry_content x "gse-checkpoint-manifest") as [c|]; [|done].
      apply rbind_ok in Hx5 as (m' & Hmf & [= ->]). apply inspect_manifest_fields in Hmf as (Hs & Hf & _).
      apply inspect_checkpoint_fields in Hcp as (Hcs & Hcc & _).
      apply boundary_ok_spec in Hx8 as (w & Hin & Hwg & Hwf).
      pose proof (generations_member _ _ _ _ _ Hgen Hin). split; [unfold base; lia|].
      intros m' [= <-]. split; [by eexists|]. exists w. split_and!; [done..|lia].
    - split; [|done]. pose proof (generations_le _ _ _ _ Hgen). destruct (decide (g = 1)) as [->|Hn].
      + rewrite (Hg1 eq_refl) in *. unfold base. lia.
      + by destruct (Hg2 Hn) as (? & ? & _). }
  split_and!; [|lia|exact Hm]. rewrite filter_seqZ by lia. f_equal. lia.
Qed.

Definition sample_checkpoint : bytes := seal
  (put_identity CHECKPOINT_MAGIC 7 9 ++ be_split 8 2 ++ be_split 4 2 ++ be_split 4 1 ++ be_split 4 1
   ++ be_split 1 1 ++ put_string "title" ++ be_split 4 0
   ++ be_split 4 2 ++ be_split 1 0 ++ be_split 1 1 ++ be_split 4 2 ++ utf8 "k1" ++ be_split 4 3 ++ utf8 "doc").
Definition sample_checkpoint_name : string :=
  "gse-checkpoint-00000000000000000002-0123456789abcdef0123456789abcdef.chk".
Definition sample_manifest : bytes := seal
  (put_identity MANIFEST_MAGIC 7 9 ++ be_split 8 2 ++ be_split 8 (Z.of_nat (length sample_checkpoint))
   ++ be_split 4 (sealed_checksum sample_checkpoint) ++ put_string sample_checkpoint_name
   ++ be_split 8 2 ++ be_split 8 3).
Definition sample_workspace : file := Folder (list_to_map [
  ("gse.lock"%string, Regular []);
  ("gse-metadata"%string, Regular sample_metadata);
  ("gse-checkpoint-manifest"%string, Regular sample_manifest);
  (sample_checkpoint_name, Regular sample_checkpoint);
  ("gse-wal-00000000000000000001.log"%string, Regular sample_wal);
  ("gse-wal-00000000000000000002.log"%string,
   Regular (encode_wal_header 2 3 ++ encode_frame 3 4 (put_string "title") ++ take 20 (encode_frame 4 1 sample_mutation)))]).

Lemma phase4_history_gapless_witness :
  match inspect_phase4_directory sample_workspace with
  | Ok p => p4_durable p = 3 /\ List.filter (fun s => base_sequence p <? s) (sequences (p4_wals p)) = [3]
      /\ List.filter (fun s => base_sequence p <? s) (sequences (p4_wals p))
        = seqZ (base_sequence p + 1) (p4_durable p - base_sequence p)
  | Err _ => False
  end.
Proof.
  destruct (inspect_phase4_directory sample_workspace) as [p|] eqn:H; [|vm_compute in H; discriminate].
  split; [|split; [|exact (proj1 (phase4_history_gapless sample_workspace p H))]].
  all: vm_compute in H; injection H as <-; vm_compute; reflexivity.
Defined.

(** ** Phases 1 to 3 *)

Example phase1_scaffold_accepted :
  inspect_phase1_directory (Folder (list_to_map [("phase1-scaffold.properties"%string,
    Regular (utf8 ("barrierId=b7" +:+ newline +:+ "productionStorage=false" +:+ newline)))])) "b7"
  = Ok ["phase1-scaffold.properties"%string].
Proof. vm_compute. reflexivity. Qed.

Example phase2_directory_accepted :
  is_ok (inspect_phase3_directory (Folder (list_to_map [("gse.lock"%string, Regular []);
    ("gse-metadata"%string, Regular sample_metadata);
    ("gse-wal-00000000000000000001.log"%string, Regular sample_wal)]))) = true.
Proof. vm_compute. reflexivity. Qed.
