(* ===== verification/BackupFormat.v ===== *)
(** * The gse-backup (1,0) bundle ([scripts/v41/backup_format.py])

    The fixture encoder and the byte inspector of a backup: a manifest, the source metadata and the
    source checkpoint, tied together by a SHA-256 content identity. *)

From Stdlib Require Import Ascii.
From stdpp Require Import base gmap sets strings list sorting.
From S2P Require Import Prelude Bytes Sha256 Crc32c Wire Files.
Import StateNotations ResultNotations.
Local Open Scope py_scope.
Local Open Scope Z_scope.

(** ** Constants *)

Definition BACKUP_MAGIC : Z := 0x475345424B503130.
Definition METADATA_MAGIC : Z := 0x4753454D45544131.
Definition CHECKPOINT_MAGIC : Z := 0x47534543484B3130.
Definition FORMAT_FAMILY : string := "gse-backup".
Definition FORMAT_MAJOR : Z := 1.
Definition FORMAT_MINOR : Z := 0.
Definition MAX_MANIFEST_BYTES : Z := 16 * 1024 * 1024.
Definition MEMBERS : list string := ["gse-backup-checkpoint"; "gse-backup-manifest"; "gse-backup-metadata"]%string.
Definition PAYLOAD_MEMBERS : list string := ["gse-backup-checkpoint"; "gse-backup-metadata"]%string.
Definition DOMAIN : bytes := utf8 "gse-backup-content-v1" ++ [Byte.x00].

Definition fault (msg : string) : exn := BackupFormatError msg.

(** ** [lp], [checked] and [Cursor] *)

Definition lp (value : string) : bytes := put_text value.
Definition checked (data : bytes) : bytes := seal_bytes data.

Definition truncated : exn := fault "bounded field is truncated".
Definition cursor_take (size : Z) : reader bytes := take_bytes truncated size.
Local Notation uint n := (read_uint truncated n).
Local Notation int n := (read_int truncated n).

Definition cursor_string (maximum : Z) : reader string :=
  read_text truncated (fault "string exceeds its format bound") (fault "string is not strict UTF-8")
    (fun length => negb (maximum <? length)).

(** [len(data) < minimum or crc32c(data[:-4]) != struct.unpack(">I", data[-4:])[0]] *)
Definition intact (minimum : nat) (data : bytes) : bool :=
  negb ((length data <? minimum)%nat || negb (crc32c (sealed_body data) =? sealed_checksum data)).

(** ** Data *)

(** The manifest fields the content identity covers. *)
Record fields := Fields {
  f_family : string;
  f_source_family : string;
  f_history_most : Z;
  f_history_least : Z;
  f_sequence : Z;
  f_storage_identity : string;
  f_schema_identity : string;
  f_codec_identity : string;
  f_codec_version : Z
}.

Record descriptor := Descriptor { d_size : Z; d_sha256 : string }.

Record manifest := Manifest {
  m_major : Z;
  m_minor : Z;
  m_source_major : Z;
  m_source_minor : Z;
  m_fields : fields;
  m_members : list (string * descriptor);
  m_content_digest : string;
  m_created_epoch_millis : Z;
  m_request_id : string;
  m_bytes : Z
}.

Definition m_content_identity (m : manifest) : string := "gse-backup-v1-" +:+ m_content_digest m.

Definition index : Type := (Z * string * string)%type.

Record metadata := Metadata {
  md_history_most : Z;
  md_history_least : Z;
  md_storage_identity : string;
  md_schema_identity : string;
  md_codec_identity : string;
  md_codec_version : Z;
  md_max_key : Z;
  md_max_document : Z;
  md_max_documents : Z;
  md_indexes : list index
}.

Record checkpoint := Checkpoint {
  cp_sequence : Z;
  cp_next_doc_id : Z;
  cp_live_documents : Z;
  cp_indexes : list index
}.

(** ** [content_preimage] *)

(** A payload dictionary, listed by name. *)
Definition payload_le (a b : string * bytes) : Prop := string_le a.1 b.1.
#[export] Instance payload_le_dec : RelDecision payload_le.
Proof. intros a b. unfold payload_le. apply _. Defined.

Definition put_payload (p : string * bytes) : bytes :=
  lp p.1 ++ be_split 8 (Z.of_nat (length p.2)) ++ sha256 p.2.

Definition content_preimage (f : fields) (payloads : list (string * bytes)) : bytes :=
  DOMAIN ++ lp (f_family f) ++ be_split 2 FORMAT_MAJOR ++ be_split 2 FORMAT_MINOR
  ++ lp (f_source_family f)
  ++ be_split 2 1 ++ be_split 2 0 ++ be_split 8 (f_history_most f) ++ be_split 8 (f_history_least f)
  ++ be_split 8 (f_sequence f)
  ++ lp (f_storage_identity f) ++ lp (f_schema_identity f) ++ lp (f_codec_identity f)
  ++ be_split 4 (f_codec_version f) ++ be_split 4 (Z.of_nat (length payloads))
  ++ concat (put_payload <$> merge_sort payload_le payloads).

(** ** [parse_manifest] *)

(** [for _ in range(count)]: the members read so far are a dictionary. *)
Fixpoint read_members (count : nat) (members : list (string * descriptor)) : reader (list (string * descriptor)) :=
  match count with
  | O => ret members
  | S count' =>
      let* name := cursor_string 128 in
      let* size := uint 8 in
      let* digest := cursor_take 32 in
      do* ensure (negb (bool_decide (name ∈ members.*1))) (fault "duplicate manifest member") in
      read_members count' (members ++ [(name, Descriptor size (hex digest))])
  end.

Definition manifest_body (size : Z) : reader manifest :=
  let* magic := uint 8 in
  let* major := int 2 in
  let* minor := int 2 in
  let* family := cursor_string 128 in
  let* source_family := cursor_string 128 in
  let* source_major := int 2 in
  let* source_minor := int 2 in
  let* history_most := uint 8 in
  let* history_least := uint 8 in
  let* sequence := int 8 in
  let* storage_identity := cursor_string 128 in
  let* schema_identity := cursor_string 128 in
  let* codec_identity := cursor_string 128 in
  let* codec_version := int 4 in
  let* count := uint 4 in
  do* ensure ((magic =? BACKUP_MAGIC) && (major =? FORMAT_MAJOR) && (minor =? FORMAT_MINOR)
        && bool_decide (family = FORMAT_FAMILY)) (fault "unsupported backup header") in
  do* ensure (bool_decide (source_family = "gse-durable"%string) && (source_major =? 1) && (source_minor =? 0))
    (fault "unsupported source storage format") in
  do* ensure (negb ((sequence <? 0) || (codec_version <? 0) || negb (count =? 2)))
    (fault "manifest identity fields are invalid") in
  let* members := read_members (Z.to_nat count) [] in
  let* content_digest := cursor_take 32 in
  let* created := int 8 in
  let* request_id := cursor_string 256 in
  do* expect_end (fault "manifest has trailing bytes") in
  do* ensure (bool_decide (members.*1 = PAYLOAD_MEMBERS)) (fault "manifest payload inventory is not canonical") in
  ret (Manifest major minor source_major source_minor
         (Fields family source_family history_most history_least sequence storage_identity schema_identity
            codec_identity codec_version)
         members (hex content_digest) created request_id size).

Definition parse_manifest (data : bytes) : result manifest :=
  do! guard (negb ((length data <? 128)%nat || (MAX_MANIFEST_BYTES <? Z.of_nat (length data))))
    (fault "manifest size is outside the frozen bound") in
  do! guard (crc32c (sealed_body data) =? sealed_checksum data) (fault "manifest CRC32C mismatch") in
  run_reader (manifest_body (Z.of_nat (length data))) (sealed_body data).

(** ** [parse_metadata] *)

Definition read_index (invalid : exn) : reader index :=
  let* kind := uint 1 in
  let* field := cursor_string 1024 in
  let* analyzer := cursor_string 128 in
  do* ensure (negb (negb ((1 <=? kind) && (kind <=? 4))
                    || negb (Bool.eqb (kind =? 4) (bool_decide (analyzer = "gse-simple-v1"%string))))) invalid in
  ret (kind, field, analyzer).

Definition metadata_body : reader metadata :=
  let* magic := uint 8 in
  let* major := int 2 in
  let* minor := int 2 in
  let* history_most := uint 8 in
  let* history_least := uint 8 in
  let* family := cursor_string 128 in
  let* storage_identity := cursor_string 128 in
  let* schema_identity := cursor_string 128 in
  let* codec_identity := cursor_string 128 in
  let* codec_version := int 4 in
  let* max_key := int 4 in
  let* max_document := int 4 in
  let* max_bulk := int 4 in
  let* max_documents := int 4 in
  let* checkpoint_wal := int 8 in
  let* max_retained := int 8 in
  let* index_count := int 4 in
  do* ensure ((magic =? METADATA_MAGIC) && (major =? 1) && (minor =? 0) && bool_decide (family = "gse-durable"%string))
    (fault "source metadata format is unsupported") in
  do* ensure (negb ((codec_version <? 0)
                    || existsb (fun value => value <=? 0)
                         [max_key; max_document; max_bulk; max_documents; checkpoint_wal; max_retained]
                    || (max_retained <=? checkpoint_wal) || (index_count <? 0) || (100000 <? index_count)))
    (fault "source metadata bounds are invalid") in
  let* indexes := times index_count (read_index (fault "source metadata index is invalid")) in
  do* expect_end (fault "source metadata is not canonical") in
  do* ensure (bool_decide (NoDup indexes)) (fault "source metadata is not canonical") in
  ret (Metadata history_most history_least storage_identity schema_identity codec_identity codec_version
         max_key max_document max_documents indexes).

Definition parse_metadata (data : bytes) : result metadata :=
  do! guard (intact 64 data) (fault "source metadata checksum or size is invalid") in
  run_reader metadata_body (sealed_body data).

(** ** [parse_checkpoint] *)

(** One slot: empty, or a key and a document within the bounds of the metadata. *)
Definition read_slot (md : metadata) : reader (option (bytes * bytes)) :=
  let* state := uint 1 in
  if state =? 0 then ret None else
  do* ensure (state =? 1) (fault "source checkpoint slot state is invalid") in
  let* key_size := int 4 in
  do* ensure (negb ((key_size <? 0) || (md_max_key md <? key_size))) (fault "source checkpoint key exceeds its bound") in
  let* key := cursor_take key_size in
  let* document_size := int 4 in
  do* ensure (negb ((document_size <? 0) || (md_max_document md <? document_size)))
    (fault "source checkpoint document exceeds its bound") in
  let* document := cursor_take document_size in
  ret (Some (key, document)).

Definition live (slots : list (option (bytes * bytes))) : Z := Z.of_nat (length (omap id slots)).

Definition checkpoint_body (md : metadata) : reader checkpoint :=
  let* magic := uint 8 in
  let* major := int 2 in
  let* minor := int 2 in
  let* history_most := uint 8 in
  let* history_least := uint 8 in
  let* sequence := int 8 in
  let* next_doc_id := int 4 in
  let* live_documents := int 4 in
  let* index_count := int 4 in
  do* ensure (negb (negb ((magic =? CHECKPOINT_MAGIC) && (major =? 1) && (minor =? 0))
                    || negb (history_most =? md_history_most md) || negb (history_least =? md_history_least md)
                    || (sequence <? 0) || (next_doc_id <? 0)
                    || (live_documents <? 0) || (next_doc_id <? live_documents)
                    || (md_max_documents md <? live_documents) || (index_count <? 0) || (100000 <? index_count)))
    (fault "source checkpoint identity or bounds are invalid") in
  let* indexes := times index_count (read_index (fault "source checkpoint index is invalid")) in
  let* slot_count := int 4 in
  do* ensure (negb (negb (slot_count =? next_doc_id) || negb (bool_decide (indexes = md_indexes md))))
    (fault "source checkpoint is not canonical") in
  let* slots := times slot_count (read_slot md) in
  do* ensure (live slots =? live_documents) (fault "source checkpoint payload is not canonical") in
  do* expect_end (fault "source checkpoint payload is not canonical") in
  ret (Checkpoint sequence next_doc_id live_documents indexes).

Definition parse_checkpoint (data : bytes) (md : metadata) : result checkpoint :=
  do! guard (intact 56 data) (fault "source checkpoint checksum or size is invalid") in
  run_reader (checkpoint_body md) (sealed_body data).

(** ** [inspect_bundle] *)

Record inspection := Inspection {
  in_content_identity : string;
  in_source_history : string;
  in_sequence : Z;
  in_members : list string;
  in_authoritative_bytes : Z
}.

Definition check_payload (m : manifest) (payload : string * bytes) : result unit :=
  let! d := of_option (assoc_get payload.1 (m_members m)) KeyError in
  guard ((d_size d =? Z.of_nat (length payload.2)) && bool_decide (d_sha256 d = hex (sha256 payload.2)))
    (fault ("payload integrity mismatch: " +:+ payload.1)).

(** The manifest repeats the identity of the source metadata, field by field. *)
Definition same_source (f : fields) (md : metadata) : bool :=
  (f_history_most f =? md_history_most md) && (f_history_least f =? md_history_least md)
  && bool_decide (f_storage_identity f = md_storage_identity md)
  && bool_decide (f_schema_identity f = md_schema_identity md)
  && bool_decide (f_codec_identity f = md_codec_identity md)
  && (f_codec_version f =? md_codec_version md).

(** The three members once they are read. *)
Definition inspect_members (metadata_data checkpoint_data manifest_data : bytes) : result (manifest * checkpoint) :=
  let payloads := [("gse-backup-checkpoint", checkpoint_data); ("gse-backup-metadata", metadata_data)]%string in
  let! m := parse_manifest manifest_data in
  let! md := parse_metadata metadata_data in
  let! cp := parse_checkpoint checkpoint_data md in
  do! check_all (check_payload m) payloads in
  do! guard (bool_decide (hex (sha256 (content_preimage (m_fields m) payloads)) = m_content_digest m))
    (fault "content identity mismatch") in
  do! guard (same_source (m_fields m) md) (fault "manifest/source metadata mismatch") in
  do! guard (f_sequence (m_fields m) =? cp_sequence cp) (fault "manifest/source checkpoint sequence mismatch") in
  Ok (m, cp).

(** [changed name]: the size or the modification time of the member differs between the two
    observations around the reads. *)
Definition inspect_bundle (changed : string -> bool) (directory : file) : result inspection :=
  let! members := of_option (folder_members directory) (fault "backup path must be a non-symbolic directory") in
  do! guard (bool_decide (sorted_names members = MEMBERS)) (fault "backup inventory mismatch") in
  do! guard (forallb (fun kv => is_regular kv.2) (map_to_list members)) (fault "non-regular backup member") in
  let! checkpoint_data := member_bytes members "gse-backup-checkpoint" in
  let! metadata_data := member_bytes members "gse-backup-metadata" in
  let! manifest_data := member_bytes members "gse-backup-manifest" in
  do! check_all (fun name => guard (negb (changed name)) (fault ("member changed while read: " +:+ name))) MEMBERS in
  let! r := inspect_members metadata_data checkpoint_data manifest_data in
  let f := m_fields r.1 in
  Ok (Inspection (m_content_identity r.1)
        (hex (be_split 8 (f_history_most f)) +:+ hex (be_split 8 (f_history_least f)))
        (f_sequence f) MEMBERS
        (Z.of_nat (length checkpoint_data + length manifest_data + length metadata_data))).

(** ** [fixture] *)

Record Fixture := mkFixture {
  fx_metadata : bytes;
  fx_checkpoint : bytes;
  fx_manifest : bytes;
  fx_content_identity : string
}.

Definition history_most : Z := 0x0011223344556677.
Definition history_least : Z := 0x8899AABBCCDDEEFF.

Definition fixture_metadata : bytes := checked (
  be_split 8 METADATA_MAGIC ++ be_split 2 1 ++ be_split 2 0 ++ be_split 8 history_most ++ be_split 8 history_least
  ++ lp "gse-durable" ++ lp "v41-fixture-store" ++ lp "v41-fixture-schema" ++ lp "v41-fixture-codec"
  ++ be_split 4 1 ++ be_split 4 1024 ++ be_split 4 4096 ++ be_split 4 1000 ++ be_split 4 10000
  ++ be_split 8 1048576 ++ be_split 8 67108864 ++ be_split 4 0).

Definition fixture_checkpoint : bytes :=
  let key := utf8 "doc-1" in
  let document := utf8 "fixture-value" in
  checked (
    be_split 8 CHECKPOINT_MAGIC ++ be_split 2 1 ++ be_split 2 0 ++ be_split 8 history_most ++ be_split 8 history_least
    ++ be_split 8 7 ++ be_split 4 1 ++ be_split 4 1 ++ be_split 4 0
    ++ be_split 4 1 ++ be_split 1 1
    ++ be_split 4 (Z.of_nat (length key)) ++ key
    ++ be_split 4 (Z.of_nat (length document)) ++ document).

Definition fixture_fields : fields :=
  Fields FORMAT_FAMILY "gse-durable" history_most history_least 7 "v41-fixture-store" "v41-fixture-schema"
    "v41-fixture-codec" 1.

Definition fixture : Fixture :=
  let payloads := [("gse-backup-checkpoint", fixture_checkpoint); ("gse-backup-metadata", fixture_metadata)]%string in
  let content_digest := sha256 (content_preimage fixture_fields payloads) in
  mkFixture fixture_metadata fixture_checkpoint
    (checked (
       be_split 8 BACKUP_MAGIC ++ be_split 2 FORMAT_MAJOR ++ be_split 2 FORMAT_MINOR
       ++ lp FORMAT_FAMILY ++ lp "gse-durable"
       ++ be_split 2 1 ++ be_split 2 0 ++ be_split 8 history_most ++ be_split 8 history_least ++ be_split 8 7
       ++ lp (f_storage_identity fixture_fields) ++ lp (f_schema_identity fixture_fields)
       ++ lp (f_codec_identity fixture_fields)
       ++ be_split 4 1 ++ be_split 4 (Z.of_nat (length PAYLOAD_MEMBERS))
       ++ concat (put_payload <$> payloads)
       ++ content_digest ++ be_split 8 0 ++ lp "phase1-fixture"))
    ("gse-backup-v1-" +:+ hex content_digest).

(** ** [load_hex_fixture] *)

Definition read_hex (members : gmap string file) (name : string) : result bytes :=
  let invalid := fault "invalid fixture representation" in
  match member_bytes members (name +:+ ".hex") with
  | Ok raw => let! text := ascii_text invalid raw in of_option (from_hex text) invalid
  | Err _ => Err invalid
  end.

Definition load_hex_fixture (members : gmap string file) : result Fixture :=
  let! md := read_hex members "gse-backup-metadata" in
  let! cp := read_hex members "gse-backup-checkpoint" in
  let! mf := read_hex members "gse-backup-manifest" in
  let! parsed := parse_manifest mf in
  Ok (mkFixture md cp mf (m_content_identity parsed)).

Definition fixture_bundle : file :=
  Folder (list_to_map [("gse-backup-checkpoint", Regular (fx_checkpoint fixture));
                       ("gse-backup-manifest", Regular (fx_manifest fixture));
                       ("gse-backup-metadata", Regular (fx_metadata fixture))]%string).
