(* ===== verification/BackupProofs.v ===== *)
(** * The gse-backup (1,0) manifest as a canonical encoding, and what the content identity binds *)

From stdpp Require Import base gmap sets strings list sorting.
From S2P Require Import Prelude Bytes Sha256 Crc32c Wire Files BackupFormat.
Import StateNotations ResultNotations.
Local Open Scope py_scope.
Local Open Scope Z_scope.
#[local] Opaque be_split.

(** ** The manifest encoder *)

Definition text_fits (maximum : Z) (s : string) : Prop :=
  is_text s = true /\ text_size s <= maximum /\ text_size s < 2 ^ 32.

Lemma reads_string maximum s : text_fits maximum s -> reads (cursor_string maximum) (lp s) s.
Proof. intros (Ht & Hm & Hl). apply reads_text; [done| |done]. apply negb_true_iff, Z.ltb_ge. done. Qed.

Definition raw_hex (s : string) : bytes := default [] (unhex s).
Definition hex_of (n : nat) (s : string) : Prop := exists bs, length bs = n /\ s = hex bs.

Lemma raw_hex_hex bs : raw_hex (hex bs) = bs.
Proof. unfold raw_hex. by rewrite unhex_hex. Qed.

Lemma hex_raw n s : hex_of n s -> hex (raw_hex s) = s /\ length (raw_hex s) = n.
Proof. intros (bs & <- & ->). by rewrite raw_hex_hex. Qed.

Definition put_member (d : string * descriptor) : bytes :=
  lp d.1 ++ be_split 8 (d_size d.2) ++ raw_hex (d_sha256 d.2).

Definition put_manifest_body (m : manifest) : bytes :=
  let f := m_fields m in
  be_split 8 BACKUP_MAGIC ++ be_split 2 (m_major m) ++ be_split 2 (m_minor m)
  ++ lp (f_family f) ++ lp (f_source_family f)
  ++ be_split 2 (m_source_major m) ++ be_split 2 (m_source_minor m)
  ++ be_split 8 (f_history_most f) ++ be_split 8 (f_history_least f) ++ be_split 8 (f_sequence f)
  ++ lp (f_storage_identity f) ++ lp (f_schema_identity f) ++ lp (f_codec_identity f)
  ++ be_split 4 (f_codec_version f) ++ be_split 4 (Z.of_nat (length (m_members m)))
  ++ concat (put_member <$> m_members m)
  ++ raw_hex (m_content_digest m) ++ be_split 8 (m_created_epoch_millis m) ++ lp (m_request_id m).

Definition put_manifest (m : manifest) : bytes := checked (put_manifest_body m).

Definition member_valid (d : string * descriptor) : Prop :=
  text_fits 128 d.1 /\ unsigned_range 8 (d_size d.2) /\ hex_of 32 (d_sha256 d.2).

Record fields_valid (f : fields) : Prop := {
  fv_family : f_family f = FORMAT_FAMILY;
  fv_source : f_source_family f = "gse-durable"%string;
  fv_most : unsigned_range 8 (f_history_most f);
  fv_least : unsigned_range 8 (f_history_least f);
  fv_sequence : signed_range 8 (f_sequence f) /\ 0 <= f_sequence f;
  fv_storage : text_fits 128 (f_storage_identity f);
  fv_schema : text_fits 128 (f_schema_identity f);
  fv_codec : text_fits 128 (f_codec_identity f);
  fv_version : signed_range 4 (f_codec_version f) /\ 0 <= f_codec_version f
}.

Record manifest_valid (m : manifest) : Prop := {
  mv_version : m_major m = 1 /\ m_minor m = 0 /\ m_source_major m = 1 /\ m_source_minor m = 0;
  mv_fields : fields_valid (m_fields m);
  mv_names : (m_members m).*1 = PAYLOAD_MEMBERS;
  mv_members : Forall member_valid (m_members m);
  mv_digest : hex_of 32 (m_content_digest m);
  mv_created : signed_range 8 (m_created_epoch_millis m);
  mv_request : text_fits 256 (m_request_id m);
  mv_bytes : m_bytes m = Z.of_nat (length (put_manifest m));
  mv_size : 128 <= m_bytes m <= MAX_MANIFEST_BYTES
}.

Lemma read_members_ok n acc s ms s2 :
  read_members n acc s = (Ok ms, s2) ->
  exists new, ms = acc ++ new /\ length new = n /\ s = concat (put_member <$> new) ++ s2 /\ Forall member_valid new.
Proof.
  revert acc s. induction n as [|n IH]; intros acc s H; simpl in H.
  - apply ret_ok in H as [<- <-]. exists []. rewrite app_nil_r. split_and!; [done..|constructor].
  - unfold cursor_string, cursor_take in H. ok_inv H. fields_inv. bool_tac. apply IH in H as (new & -> & <- & -> & Hf).
    eexists (_ :: new). rewrite <- app_assoc. split_and!; [done..| |].
    + simpl. unfold put_member at 2, lp. simpl. rewrite raw_hex_hex, <- !app_assoc. done.
    + constructor; [|done]. unfold member_valid, text_fits, hex_of. simpl. split_and!; try done.
      eexists. split; [|done]. lia.
Qed.

Lemma reads_members new acc :
  Forall member_valid new -> NoDup (acc ++ new).*1 ->
  reads (read_members (length new) acc) (concat (put_member <$> new)) (acc ++ new).
Proof.
  intros Hf. revert acc. induction Hf as [|[n d] new [Ht [Hr Hh]] Hf IH]; intros acc Hd; simpl.
  - rewrite app_nil_r. apply reads_ret.
  - apply hex_raw in Hh as [Hh Hn]. simpl in *. unfold put_member at 1. simpl. rewrite <- !app_assoc.
    eapply reads_bind; [by apply reads_string|]. eapply reads_bind; [by apply reads_uint|].
    eapply reads_bind; [apply reads_take; lia|]. rewrite Hh. eapply reads_check.
    + apply negb_true_iff, bool_decide_eq_false. rewrite fmap_app in Hd. apply NoDup_app in Hd as (_ & Hd & _).
      intros Hin. apply (Hd _ Hin). left.
    + replace (acc ++ (n, d) :: new) with ((acc ++ [(n, d)]) ++ new) in * by (by rewrite <- app_assoc).
      destruct d. by apply IH.
Qed.

Lemma parse_manifest_ok data m :
  parse_manifest data = Ok m <->
  128 <= Z.of_nat (length data) <= MAX_MANIFEST_BYTES /\
  exists body, data = checked body /\ run_reader (manifest_body (Z.of_nat (length data))) body = Ok m.
Proof.
  unfold parse_manifest. split.
  - intros H. ok_inv H. bool_tac. split; [lia|].
    exists (sealed_body data). split; [|done]. apply seal_sealed; [lia|done].
  - intros [Hl (body & -> & H)]. unfold checked in *.
    rewrite (proj2 (Nat.ltb_ge _ _)), (proj2 (Z.ltb_ge _ _)) by lia. cbn [negb orb guard rbind].
    pose proof (sealed_seal body) as Hs. unfold sealed in Hs. rewrite Hs, Z.eqb_refl, sealed_body_seal. done.
Qed.

Lemma manifest_body_ok size body m :
  run_reader (manifest_body size) body = Ok m ->
  body = put_manifest_body m /\ m_bytes m = size /\ (m_members m).*1 = PAYLOAD_MEMBERS /\
  Forall member_valid (m_members m) /\ fields_valid (m_fields m) /\
  (m_major m = 1 /\ m_minor m = 0 /\ m_source_major m = 1 /\ m_source_minor m = 0) /\
  hex_of 32 (m_content_digest m) /\ signed_range 8 (m_created_epoch_millis m) /\ text_fits 256 (m_request_id m).
Proof.
  intros [s2 H]%run_reader_ok. unfold manifest_body, cursor_string, cursor_take in H. ok_inv H. fields_inv.
  lazymatch goal with Hm : read_members _ _ _ = _ |- _ => apply read_members_ok in Hm as (new & -> & Hn & -> & Hf) end.
  bool_tac. subst. simpl in *. unfold put_manifest_body. simpl. rewrite raw_hex_hex, Hn.
  split_and!; try done.
  - by rewrite app_nil_r.
  - exists x18. split; [lia|done].
Qed.

Lemma manifest_body_complete m :
  manifest_valid m -> run_reader (manifest_body (m_bytes m)) (put_manifest_body m) = Ok m.
Proof.
  intros [(H1 & H2 & H3 & H4) [] Hnames Hms Hd Hc Hr _ _]. apply hex_raw in Hd as [Hd Hdl].
  unfold put_manifest_body, manifest_body, cursor_take.
  destruct m as [mj mn sj sn [fam src most least seq sto sch cod ver] ms dig crt req size]. simpl in *. subst.
  destruct fv_sequence0 as [? ?], fv_version0 as [? ?].
  assert (length ms = 2%nat) as Hn by (by rewrite <- (length_fmap fst ms), Hnames).
  rewrite Hn. rewrite <- (app_nil_r (lp req)).
  apply run_exact with (s2 := []).
  do 3 feed_step. eapply feed; [apply reads_string; by vm_compute|]. eapply feed; [apply reads_string; by vm_compute|].
  do 5 feed_step. do 3 (eapply feed; [by apply reads_string|]). do 2 feed_step.
  feed_step; [done|]. feed_step; [done|]. feed_step.
  { apply negb_true_iff, orb_false_iff. split; [apply orb_false_iff; split; by apply Z.ltb_ge|done]. }
  eapply feed.
  { change (Z.to_nat (Z.of_nat 2)) with 2%nat. rewrite <- Hn. apply (reads_members ms []); [done|].
    simpl. rewrite Hnames. by apply (bool_decide_unpack _). }
  do 2 feed_step. eapply feed; [by apply reads_string|]. feed_step. feed_step; [by apply bool_decide_eq_true|].
  rewrite Hd. reflexivity.
Qed.

(** ** What the content identity binds *)

Lemma payloads_sorted cp md :
  merge_sort payload_le [("gse-backup-checkpoint"%string, cp); ("gse-backup-metadata"%string, md)] =
  [("gse-backup-checkpoint"%string, cp); ("gse-backup-metadata"%string, md)].
Proof. reflexivity. Qed.

Lemma preimage_fields f1 f2 cp1 md1 cp2 md2 :
  fields_valid f1 -> fields_valid f2 ->
  content_preimage f1 [("gse-backup-checkpoint"%string, cp1); ("gse-backup-metadata"%string, md1)] =
  content_preimage f2 [("gse-backup-checkpoint"%string, cp2); ("gse-backup-metadata"%string, md2)] ->
  f1 = f2 /\ sha256 cp1 = sha256 cp2 /\ sha256 md1 = sha256 md2.
Proof.
  intros [] [] H. unfold content_preimage in H. rewrite !payloads_sorted in H. apply app_inv_head in H.
  destruct f1, f2. simpl in *. subst. unfold lp, put_payload, lp, text_fits in *. simpl in H. rewrite <- !app_assoc in H.
  destruct_and?. do 3 apply app_inv_head in H. peel H.
  do 2 (apply app_field in H as [? H]; [|by rewrite ?length_be_split, ?length_sha256]). apply app_inv_head in H.
  do 2 (apply app_field in H as [? H]; [|by rewrite ?length_be_split, ?length_sha256]).
  subst. done.
Qed.

Lemma inspect_members_ok md_data cp_data mf_data m cp :
  inspect_members md_data cp_data mf_data = Ok (m, cp) ->
  let payloads := [("gse-backup-checkpoint"%string, cp_data); ("gse-backup-metadata"%string, md_data)] in
  parse_manifest mf_data = Ok m /\ m_content_digest m = hex (sha256 (content_preimage (m_fields m) payloads)) /\
  exists md, parse_metadata md_data = Ok md /\ parse_checkpoint cp_data md = Ok cp /\
    same_source (m_fields m) md = true /\ f_sequence (m_fields m) = cp_sequence cp.
Proof.
  intros H payloads. unfold inspect_members in H. fold payloads in H. ok_inv H. bool_tac. injection H as <- <-.
  split_and!; [done..|]. by exists x0.
Qed.

(** The content of a bundle: its payloads and the manifest fields they are hashed with. *)
Definition bundle_content (directory : file) (f : fields) (cp md : bytes) : Prop :=
  exists members mf m, directory = Folder members /\ member_bytes members "gse-backup-checkpoint" = Ok cp /\
    member_bytes members "gse-backup-metadata" = Ok md /\ member_bytes members "gse-backup-manifest" = Ok mf /\
    parse_manifest mf = Ok m /\ m_fields m = f.

Definition content_of (f : fields) (cp md : bytes) : bytes :=
  content_preimage f [("gse-backup-checkpoint"%string, cp); ("gse-backup-metadata"%string, md)].

Lemma inspect_bundle_ok changed directory r :
  inspect_bundle changed directory = Ok r ->
  exists f cp md,
    bundle_content directory f cp md /\ fields_valid f /\
    in_content_identity r = ("gse-backup-v1-" +:+ hex (sha256 (content_of f cp md)))%string /\
    in_sequence r = f_sequence f /\
    in_source_history r = (hex (be_split 8 (f_history_most f)) +:+ hex (be_split 8 (f_history_least f)))%string.
Proof.
  intros H. unfold inspect_bundle in H. ok_inv H. destruct directory as [|members|]; try done. injection Hx as <-.
  destruct x6 as [m c]. injection H as <-. apply inspect_members_ok in Hx6 as (Hp & Hd & _).
  exists (m_fields m), x2, x3. split_and!; try done.
  - by exists members, x4, m.
  - apply parse_manifest_ok in Hp as [_ (? & _ & Hp)]. by apply manifest_body_ok in Hp as (_ & _ & _ & _ & ? & _).
  - simpl. unfold m_content_identity. by rewrite Hd.
Qed.

(** ** Properties of the gse-backup bundles *)

#[local] Transparent be_split.

(** [parse_manifest] accepts exactly the canonical encodings: a byte string parses to a manifest
    exactly when the manifest is well formed and the bytes are its encoding. In particular printing
    an accepted manifest gives the same bytes back, and one manifest has one encoding. *)
Theorem manifest_canonical data m :
  parse_manifest data = Ok m <-> manifest_valid m /\ data = put_manifest m.
Proof.
  rewrite parse_manifest_ok. split.
  - intros [Hl (body & -> & H)]. apply manifest_body_ok in H as (-> & Hb & Hn & Hm & Hf & Hv & Hd & Hc & Hr).
    split; [|done]. constructor; try done. by rewrite Hb.
  - intros [Hv ->]. destruct (Hv) as [_ _ _ _ _ _ _ Hb Hs]. rewrite <- Hb. split; [done|].
    exists (put_manifest_body m). split; [done|]. by apply manifest_body_complete.
Qed.

(** The content identity of an accepted bundle binds its content. Two accepted bundles with one
    identity have the same checkpoint and metadata bytes and agree on every manifest field the
    identity covers, unless two of the byte strings hashed on the way, which the theorem names, are a
    SHA-256 collision. *)
Theorem backup_identity_binds ch1 ch2 d1 d2 r1 r2 :
  inspect_bundle ch1 d1 = Ok r1 -> inspect_bundle ch2 d2 = Ok r2 ->
  in_content_identity r1 = in_content_identity r2 ->
  exists f1 f2 cp1 cp2 md1 md2, bundle_content d1 f1 cp1 md1 /\ bundle_content d2 f2 cp2 md2 /\
    ((f1 = f2 /\ cp1 = cp2 /\ md1 = md2) \/ collides cp1 cp2 \/ collides md1 md2
     \/ collides (content_of f1 cp1 md1) (content_of f2 cp2 md2)).
Proof.
  intros (f1 & cp1 & md1 & C1 & V1 & I1 & _)%inspect_bundle_ok (f2 & cp2 & md2 & C2 & V2 & I2 & _)%inspect_bundle_ok He.
  exists f1, f2, cp1, cp2, md1, md2. split_and!; try done.
  rewrite I1, I2 in He. apply (inj (String.app _)), hex_inj, same_digest in He as [He|He]; [|by auto].
  apply (preimage_fields _ _ _ _ _ _ V1 V2) in He as (-> & Hc & Hm).
  apply same_digest in Hc as [->|?]; [|by auto]. apply same_digest in Hm as [->|?]; [|by auto]. by left.
Qed.

Lemma backup_identity_binds_witness :
  exists r, inspect_bundle (fun _ => false) fixture_bundle = Ok r /\
    exists f1 f2 cp1 cp2 md1 md2, bundle_content fixture_bundle f1 cp1 md1 /\ bundle_content fixture_bundle f2 cp2 md2 /\
      ((f1 = f2 /\ cp1 = cp2 /\ md1 = md2) \/ collides cp1 cp2 \/ collides md1 md2
       \/ collides (content_of f1 cp1 md1) (content_of f2 cp2 md2)).
Proof.
  assert (exists r, inspect_bundle (fun _ => false) fixture_bundle = Ok r) as [r Hr]
    by (eexists; vm_compute; reflexivity).
  exists r. split; [exact Hr|].
  exact (backup_identity_binds (fun _ => false) (fun _ => false) fixture_bundle fixture_bundle r r Hr Hr eq_refl).
Defined.
