(* ===== verification/HexFixture.v ===== *)
(** * Hexadecimal fixture directories

    The loader that [scripts/v42/storage_format_v11.py] and [scripts/v43/derived_format_v12.py] each
    have a copy of: an inventory of hexadecimal files with their digests and a properties file.
    [fault] is the exception class of the script. *)

From Stdlib Require Import Ascii.
From stdpp Require Import base gmap strings list.
From S2P Require Import Prelude Bytes Sha256 Files.
Import ResultNotations.
Local Open Scope py_scope.
Local Open Scope Z_scope.

(** The live and the backup members read so far. *)
Definition images : Type := (list (string * bytes) * list (string * bytes))%type.

Definition tab : ascii := ascii_of_nat 9.
Definition equals_sign : ascii := "="%char.

Definition unpack_error : exn := ValueError "not enough values to unpack".

(** One line of [fixture-inventory.tsv]. *)
Definition load_line (fault : string -> exn) (members : gmap string file) (fx : images) (line : string)
    : result images :=
  if bool_decide (line = ""%string) || starts_with "#" line then Ok fx else
  match split_char tab line with
  | [kind; name; digest; hex_name] =>
      let! raw := member_bytes members hex_name in
      let! text := ascii_text UnicodeError raw in
      let! value := of_option (from_hex text) (ValueError "non-hexadecimal number") in
      do! guard (bool_decide (hex (sha256 value) = digest)) (fault ("fixture checksum mismatch: " +:+ name)) in
      Ok (if bool_decide (kind = "live"%string) then (assoc_set name value fx.1, fx.2)
          else (fx.1, assoc_set name value fx.2))
  | _ => Err unpack_error
  end.

Fixpoint load_lines (fault : string -> exn) (members : gmap string file) (fx : images) (lines : list string)
    : result images :=
  match lines with
  | [] => Ok fx
  | line :: lines' => let! fx' := load_line fault members fx line in load_lines fault members fx' lines'
  end.

(** [dict(line.split("=", 1) for line in lines if line)] *)
Fixpoint load_properties (lines : list string) (properties : list (string * string)) : result (list (string * string)) :=
  match lines with
  | [] => Ok properties
  | line :: lines' =>
      if bool_decide (line = ""%string) then load_properties lines' properties else
      let! kv := of_option (split_once equals_sign line) (ValueError "dictionary update sequence") in
      load_properties lines' (assoc_set kv.1 kv.2 properties)
  end.

Definition read_lines (members : gmap string file) (name : string) : result (list string) :=
  let! raw := member_bytes members name in
  let! text := ascii_text UnicodeError raw in
  Ok (splitlines text).
