(* ===== verification/StorageV11.v ===== *)
(** * The gse-durable and gse-backup (1,1) formats ([scripts/v42/storage_format_v11.py])

    Fixture encoder and structural inspector of a live store (metadata, checkpoint, checkpoint
    manifest, write-ahead log) and of a backup, all bound to a digest of the format profile. *)

From Stdlib Require Import Ascii.
From stdpp Require Import base gmap sets strings list sorting.
From S2P Require Import Prelude Bytes Sha256 Crc32c Wire Files HexFixture StorageInspector.
Import StateNotations ResultNotations.
Local Open Scope py_scope.
Local Open Scope Z_scope.

(** ** Constants *)

Definition METADATA_MAGIC : Z := 0x4753454D45544131.
Definition CHECKPOINT_MAGIC : Z := 0x47534543484B3130.
Definition CHECKPOINT_MANIFEST_MAGIC : Z := 0x4753454D414E3130.
Definition WAL_MAGIC : Z := 0x47534557414C3130.
Definition BACKUP_MAGIC : Z := 0x475345424B503130.
Definition PROFILE_DOMAIN : bytes := utf8 "gse-durable-format-profile-v1" ++ [Byte.x00].
Definition BACKUP_DOMAIN : bytes := utf8 "gse-backup-content-v2" ++ [Byte.x00].
Definition PROFILE_CAPABILITIES : list string :=
  ["canonical-documents-v1"; "checkpoint-authority-v1"; "crc32c-wal-v1"; "logical-index-config-v1";
   "sha256-profile-binding-v1"]%string.
Definition BACKUP_MEMBERS : list string :=
  ["gse-backup-checkpoint"; "gse-backup-manifest"; "gse-backup-metadata"]%string.
Definition BACKUP_PAYLOAD_ORDER : list string := ["gse-backup-checkpoint"; "gse-backup-metadata"]%string.
Definition CHECKPOINT_NAME : string := "gse-checkpoint-00000000000000000007-00112233445566778899aabbccddeeff.chk".
Definition WAL_NAME : string := "gse-wal-00000000000000000002.log".
Definition FRAME_MAGIC : Z := 0x47534546.
Definition FRAME_HEADER_BYTES : nat := 28.
Definition FRAME_TRAILER_BYTES : nat := 4.
Definition MAX_FRAME_BYTES : Z := 256 * 1024 * 1024.

Definition fault (msg : string) : exn := StorageFormatError msg.

(** [CAPABILITY.fullmatch] *)
Definition capability_char (c : ascii) : bool := is_lower c || is_digit c || (code c =? 45).
Fixpoint all_chars (cls : ascii -> bool) (s : string) : bool :=
  match s with
  | EmptyString => true
  | String c s' => cls c && all_chars cls s'
  end.
Definition capability_ok (s : string) : bool :=
  match s with
  | EmptyString => false
  | String c s' => (is_lower c || is_digit c) && all_chars capability_char s' && (String.length s' <=? 127)%nat
  end.

(** ** [checked], [lp], the profile and [Cursor] *)

Definition checked (content : bytes) : bytes := seal_bytes content.
Definition lp (value : string) : bytes := put_text value.

Definition profile_bytes (required optional : list string) : bytes :=
  be_split 4 (Z.of_nat (length required)) ++ concat (lp <$> required)
  ++ be_split 4 (Z.of_nat (length optional)) ++ concat (lp <$> optional).
Definition default_profile : bytes := profile_bytes PROFILE_CAPABILITIES [].

(** [profile or profile_bytes()]: an empty profile counts as none. *)
Definition profile_digest (profile : option bytes) : bytes :=
  sha256 (PROFILE_DOMAIN ++ match profile with
                            | Some ((_ :: _) as p) => p
                            | _ => default_profile
                            end).

Definition truncated : exn := fault "bounded field is truncated".
Definition cursor_take (size : Z) : reader bytes := take_bytes truncated size.
Local Notation uint n := (read_uint truncated n).
Local Notation int n := (read_int truncated n).

Definition cursor_string (maximum : Z) (allow_empty : bool) : reader string :=
  read_text truncated (fault "string length is outside its bound") (fault "string is not strict UTF-8")
    (fun length => negb ((maximum <? length) || ((length =? 0) && negb allow_empty))).

Definition finish : reader unit := expect_end (fault "member has trailing bytes").

(** ** [uncheck] *)

(** The cursor over the content of a sealed member; [struct.unpack] fails on fewer than four bytes. *)
Definition uncheck (data : bytes) (minimum : nat) (name : string) : result bytes :=
  do! guard (negb (length data <? minimum)%nat) (fault (name +:+ " is shorter than its fixed header")) in
  do! guard (4 <=? length data)%nat StructError in
  do! guard (crc32c (sealed_body data) =? sealed_checksum data) (fault (name +:+ " CRC32C mismatch")) in
  Ok (sealed_body data).

(** ** [read_profile] *)

Definition sorted_set (l : list string) : list string := merge_sort string_le (remove_dups l).

Definition read_capabilities : reader (list string) :=
  let* count := uint 4 in
  do* ensure (negb (64 <? count)) (fault "profile capability count exceeds its bound") in
  let* result := times count (cursor_string 128 false) in
  do* ensure (forallb capability_ok result && bool_decide (sorted_set result = result))
    (fault "profile capabilities are not canonical") in
  ret result.

Definition profile_body : reader (list string * list string) :=
  let* required := read_capabilities in
  let* optional := read_capabilities in
  do* finish in
  ret (required, optional).

Definition read_profile : reader bytes :=
  let* length := uint 4 in
  do* ensure (negb ((length <? 12) || (4096 <? length))) (fault "profile length is outside its bound") in
  let* encoded := cursor_take length in
  let* observed := cursor_take 32 in
  do* ensure (bool_decide (observed = profile_digest (Some encoded))) (fault "profile digest mismatch") in
  let* profile := liftr (run_reader profile_body encoded) in
  do* ensure (bool_decide (profile = (PROFILE_CAPABILITIES, []))) (fault "profile capabilities are incompatible") in
  ret observed.

(** ** [parse_metadata] *)

Definition index : Type := (Z * string * string)%type.

Record metadata := Metadata {
  md_history : Z * Z;
  md_profile_digest : bytes;
  md_storage_identity : string;
  md_schema_identity : string;
  md_codec_identity : string;
  md_codec_version : Z;
  md_max_key : Z;
  md_max_document : Z;
  md_max_bulk : Z;
  md_max_documents : Z;
  md_max_retained : Z;
  md_indexes : list index
}.

Definition read_index : reader index :=
  let* kind := uint 1 in
  let* field := cursor_string 1024 false in
  let* analyzer := cursor_string 128 true in
  ret (kind, field, analyzer).

Definition metadata_body : reader metadata :=
  let* magic := uint 8 in
  let* major := int 2 in
  let* minor := int 2 in
  let* most := uint 8 in
  let* least := uint 8 in
  let* family := cursor_string 128 false in
  do* ensure ((magic =? METADATA_MAGIC) && (major =? 1) && (minor =? 1) && bool_decide (family = "gse-durable"%string))
    (fault "metadata format is unsupported") in
  let* profile_sha := read_profile in
  let* storage := cursor_string 128 false in
  let* schema := cursor_string 128 false in
  let* codec := cursor_string 128 false in
  let* codec_version := int 4 in
  let* max_key := int 4 in
  let* max_document := int 4 in
  let* max_bulk := int 4 in
  let* max_documents := int 4 in
  let* checkpoint_wal := int 8 in
  let* max_retained := int 8 in
  let* index_count := int 4 in
  do* ensure (negb ((codec_version <? 0)
                    || existsb (fun value => value <=? 0)
                         [max_key; max_document; max_bulk; max_documents; checkpoint_wal; max_retained]
                    || (max_retained <=? checkpoint_wal) || (100000 <? index_count)))
    (fault "metadata bounds are invalid") in
  let* indexes := times index_count read_index in
  do* finish in
  ret (Metadata (most, least) profile_sha storage schema codec codec_version max_key max_document max_bulk
         max_documents max_retained indexes).

Definition parse_metadata (data : bytes) : result metadata :=
  let! content := uncheck data 64 "metadata" in
  run_reader metadata_body content.

(** ** [parse_checkpoint] *)

Record checkpoint := Checkpoint { cp_sequence : Z; cp_bytes : Z; cp_checksum : Z }.

Definition read_slot : reader (option (bytes * bytes)) :=
  let* state := uint 1 in
  if state =? 0 then ret None else
  do* ensure (state =? 1) (fault "checkpoint slot state is invalid") in
  let* key_length := int 4 in
  let* key := cursor_take key_length in
  let* document_length := int 4 in
  let* document := cursor_take document_length in
  ret (Some (key, document)).

Definition decoded (slots : list (option (bytes * bytes))) : Z := Z.of_nat (length (omap id slots)).

Definition checkpoint_body (md : metadata) : reader Z :=
  let* magic := uint 8 in
  let* major := int 2 in
  let* minor := int 2 in
  let* most := uint 8 in
  let* least := uint 8 in
  let* binding := cursor_take 32 in
  let* sequence := int 8 in
  let* next_doc_id := int 4 in
  let* live_documents := int 4 in
  let* index_count := int 4 in
  do* ensure ((magic =? CHECKPOINT_MAGIC) && (major =? 1) && (minor =? 1)
        && bool_decide ((most, least) = md_history md) && bool_decide (binding = md_profile_digest md))
    (fault "checkpoint authority is invalid") in
  let* indexes := times index_count read_index in
  let* count := int 4 in
  let* slots := times count read_slot in
  do* finish in
  do* ensure (negb ((sequence <? 0) || negb (next_doc_id =? count) || negb (decoded slots =? live_documents)
                    || negb (bool_decide (indexes = md_indexes md))))
    (fault "checkpoint counts or indexes are invalid") in
  ret sequence.

Definition parse_checkpoint (data : bytes) (md : metadata) : result checkpoint :=
  let! content := uncheck data 88 "checkpoint" in
  let! sequence := run_reader (checkpoint_body md) content in
  Ok (Checkpoint sequence (Z.of_nat (length data)) (sealed_checksum data)).

(** ** [parse_checkpoint_manifest] *)

Record checkpoint_manifest := CheckpointManifest {
  cm_sequence : Z;
  cm_checkpoint_bytes : Z;
  cm_checkpoint_checksum : Z;
  cm_checkpoint_name : string;
  cm_generation : Z;
  cm_first_sequence : Z
}.

Definition checkpoint_manifest_body (md : metadata) : reader checkpoint_manifest :=
  let* magic := uint 8 in
  let* major := int 2 in
  let* minor := int 2 in
  let* most := uint 8 in
  let* least := uint 8 in
  let* binding := cursor_take 32 in
  let* sequence := int 8 in
  let* checkpoint_bytes := int 8 in
  let* checkpoint_crc := uint 4 in
  let* checkpoint_name := cursor_string 256 false in
  let* generation := int 8 in
  let* first_sequence := int 8 in
  do* finish in
  do* ensure ((magic =? CHECKPOINT_MANIFEST_MAGIC) && (major =? 1) && (minor =? 1)
        && bool_decide ((most, least) = md_history md) && bool_decide (binding = md_profile_digest md)
        && (first_sequence =? sequence + 1))
    (fault "checkpoint manifest authority is invalid") in
  ret (CheckpointManifest sequence checkpoint_bytes checkpoint_crc checkpoint_name generation first_sequence).

Definition parse_checkpoint_manifest (data : bytes) (md : metadata) : result checkpoint_manifest :=
  let! content := uncheck data 104 "checkpoint manifest" in
  run_reader (checkpoint_manifest_body md) content.

(** ** [parse_wal] *)

Record wal := Wal { wl_generation : Z; wl_first_sequence : Z; wl_records : Z; wl_last_sequence : Z }.

Definition wal_header_body (md : metadata) : reader (Z * Z) :=
  let* magic := uint 8 in
  let* major := int 2 in
  let* minor := int 2 in
  let* most := uint 8 in
  let* least := uint 8 in
  let* binding := cursor_take 32 in
  let* generation := int 8 in
  let* first_sequence := int 8 in
  do* finish in
  do* ensure ((magic =? WAL_MAGIC) && (major =? 1) && (minor =? 1)
        && bool_decide ((most, least) = md_history md) && bool_decide (binding = md_profile_digest md)
        && (0 <? generation) && (0 <? first_sequence))
    (fault "WAL generation authority is invalid") in
  ret (generation, first_sequence).

Record frame_header := FrameHeader {
  fh_magic : Z; fh_major : Z; fh_minor : Z; fh_length : Z; fh_sequence : Z;
  fh_type : Z; fh_flags : Z; fh_reserved : Z; fh_payload : Z
}.

(** [struct.unpack(">IhhIqBBhI", frame_header)] *)
Definition read_frame_header : reader frame_header :=
  let* magic := read_uint StructError 4 in
  let* major := read_int StructError 2 in
  let* minor := read_int StructError 2 in
  let* length := read_uint StructError 4 in
  let* sequence := read_int StructError 8 in
  let* type := read_uint StructError 1 in
  let* flags := read_uint StructError 1 in
  let* reserved := read_int StructError 2 in
  let* payload := read_uint StructError 4 in
  ret (FrameHeader magic major minor length sequence type flags reserved payload).

(** The frame header fits the expected sequence and the bytes left. *)
Definition frame_header_ok (h : frame_header) (sequence left : Z) : bool :=
  let fixed := Z.of_nat (FRAME_HEADER_BYTES + FRAME_TRAILER_BYTES) in
  (fh_magic h =? FRAME_MAGIC) && (fh_major h =? 1) && (fh_minor h =? 1)
  && (fixed <=? fh_length h) && (fh_length h <=? MAX_FRAME_BYTES) && (fh_payload h =? fh_length h - fixed)
  && (fh_sequence h =? sequence) && ((1 <=? fh_type h) && (fh_type h <=? 4))
  && (fh_flags h =? 0) && (fh_reserved h =? 0) && (fh_length h <=? left).

(** [while offset < len(data)], on the bytes from [offset]; each turn consumes at least 32 bytes, so
    the fuel [length rest] never runs out ([frames_fuel]). *)
Fixpoint frames_loop (fuel : nat) (rest : bytes) (sequence records : Z) : result (Z * Z) :=
  match rest with
  | [] => Ok (sequence, records)
  | _ =>
      match fuel with
      | O => Err (AssertionError "fuel")
      | S fuel' =>
          do! guard (FRAME_HEADER_BYTES + FRAME_TRAILER_BYTES <=? length rest)%nat (fault "WAL frame is truncated") in
          let! h := run_reader read_frame_header (take FRAME_HEADER_BYTES rest) in
          do! guard (frame_header_ok h sequence (Z.of_nat (length rest))) (fault "WAL frame header is invalid") in
          let frame := take (Z.to_nat (fh_length h)) rest in
          do! guard (crc32c (sealed_body frame) =? sealed_checksum frame) (fault "WAL frame CRC32C mismatch") in
          frames_loop fuel' (drop (Z.to_nat (fh_length h)) rest) (sequence + 1) (records + 1)
      end
  end.

Definition parse_wal (data : bytes) (md : metadata) : result wal :=
  do! guard (negb (length data <? 80)%nat) (fault "WAL is shorter than its fixed header") in
  let header := take 80 data in
  do! guard (crc32c (sealed_body header) =? sealed_checksum header) (fault "WAL generation header CRC32C mismatch") in
  let! h := run_reader (wal_header_body md) (sealed_body header) in
  let! r := frames_loop (length data) (drop 80 data) h.2 0 in
  Ok (Wal h.1 h.2 r.2 (r.1 - 1)).

(** ** [inspect_store] *)

Record store_report := StoreReport {
  sr_sequence : Z;
  sr_profile_digest : string;
  sr_wal_records : Z
}.

(** [sorted(name for name in names if pattern.fullmatch(name))] must be a single name. *)
Definition matching (pattern : string -> bool) (members : gmap string file) : list string :=
  filter (fun name => pattern name = true) (sorted_names members).

Definition authorities_agree (name : string) (checkpoint_bytes : bytes) (cp : checkpoint)
    (m : checkpoint_manifest) (w : wal) : bool :=
  bool_decide (cm_checkpoint_name m = name)
  && (cm_checkpoint_bytes m =? Z.of_nat (length checkpoint_bytes))
  && (cm_checkpoint_checksum m =? cp_checksum cp)
  && (cm_sequence m =? cp_sequence cp)
  && (cm_generation m =? wl_generation w)
  && (cm_first_sequence m =? wl_first_sequence w).

(** The four authority members once they are read. *)
Definition inspect_authorities (checkpoint_name : string) (metadata_bytes checkpoint_bytes manifest_bytes wal_bytes : bytes)
    : result store_report :=
  let! md := parse_metadata metadata_bytes in
  let! cp := parse_checkpoint checkpoint_bytes md in
  let! m := parse_checkpoint_manifest manifest_bytes md in
  let! w := parse_wal wal_bytes md in
  do! guard (authorities_agree checkpoint_name checkpoint_bytes cp m w) (fault "live authority members disagree") in
  Ok (StoreReport (if wl_records w =? 0 then cp_sequence cp else wl_last_sequence w)
        (hex (md_profile_digest md)) (wl_records w)).

Definition inspect_store (directory : file) : result store_report :=
  let! members := of_option (folder_members directory) OSError in
  match matching is_checkpoint_name members, matching is_wal_name members with
  | [checkpoint_name], [wal_name] =>
      do! guard (bool_decide (dom members =
            list_to_set ["gse.lock"; "gse-metadata"; "gse-checkpoint-manifest"; checkpoint_name; wal_name]%string))
        (fault "live inventory is not the exact fixture inventory") in
      let! lock := member_bytes members "gse.lock" in
      do! guard (bool_decide (lock = [])) (fault "live inventory is not the exact fixture inventory") in
      let! metadata_bytes := member_bytes members "gse-metadata" in
      let! checkpoint_bytes := member_bytes members checkpoint_name in
      let! manifest_bytes := member_bytes members "gse-checkpoint-manifest" in
      let! wal_bytes := member_bytes members wal_name in
      inspect_authorities checkpoint_name metadata_bytes checkpoint_bytes manifest_bytes wal_bytes
  | _, _ => Err (fault "live inventory lacks one checkpoint and WAL")
  end.

(** ** [parse_backup_manifest] *)

Record payload_digest := PayloadDigest { pd_size : Z; pd_sha256 : bytes }.

Record backup_manifest := BackupManifest {
  bm_history : Z * Z;
  bm_sequence : Z;
  bm_profile_digest : bytes;
  bm_storage_identity : string;
  bm_schema_identity : string;
  bm_codec_identity : string;
  bm_codec_version : Z;
  bm_payloads : list (string * payload_digest);
  bm_content_digest : bytes;
  bm_request_id : string
}.

Fixpoint read_payloads (count : nat) (payloads : list (string * payload_digest))
    : reader (list (string * payload_digest)) :=
  match count with
  | O => ret payloads
  | S count' =>
      let* name := cursor_string 128 false in
      let* size := uint 8 in
      let* digest := cursor_take 32 in
      do* ensure (negb (bool_decide (name ∈ payloads.*1))) (fault "duplicate backup payload") in
      read_payloads count' (payloads ++ [(name, PayloadDigest size digest)])
  end.

Definition backup_manifest_body : reader backup_manifest :=
  let* magic := uint 8 in
  let* major := int 2 in
  let* minor := int 2 in
  let* family := cursor_string 128 false in
  let* source_family := cursor_string 128 false in
  let* source_major := int 2 in
  let* source_minor := int 2 in
  let* binding := cursor_take 32 in
  let* most := uint 8 in
  let* least := uint 8 in
  let* sequence := int 8 in
  let* storage := cursor_string 128 false in
  let* schema := cursor_string 128 false in
  let* codec := cursor_string 128 false in
  let* codec_version := int 4 in
  let* count := uint 4 in
  do* ensure ((magic =? BACKUP_MAGIC) && (major =? 1) && (minor =? 1) && bool_decide (family = "gse-backup"%string)
        && (bool_decide (source_family = "gse-durable"%string) && (source_major =? 1) && (source_minor =? 1))
        && bool_decide (binding = profile_digest None) && (count =? 2))
    (fault "backup format authority is invalid") in
  let* payloads := read_payloads (Z.to_nat count) [] in
  let* content_digest := cursor_take 32 in
  let* created := int 8 in
  let* request := cursor_string 256 true in
  do* finish in
  do* ensure (negb (negb (bool_decide (payloads.*1 = BACKUP_PAYLOAD_ORDER)) || (sequence <? 0) || (codec_version <? 0)
                    || (created <? 0)))
    (fault "backup canonical fields are invalid") in
  ret (BackupManifest (most, least) sequence binding storage schema codec codec_version payloads content_digest request).

Definition parse_backup_manifest (data : bytes) : result backup_manifest :=
  let! content := uncheck data 160 "backup manifest" in
  run_reader backup_manifest_body content.

(** ** [backup_preimage] *)

Record backup_fields := BackupFields {
  bf_history_most : Z;
  bf_history_least : Z;
  bf_sequence : Z;
  bf_storage_identity : string;
  bf_schema_identity : string;
  bf_codec_identity : string;
  bf_codec_version : Z
}.

Definition payload_before (a b : string * bytes) : Prop := string_le a.1 b.1.
#[export] Instance payload_before_dec : RelDecision payload_before.
Proof. intros a b. unfold payload_before. apply _. Defined.

Definition put_payload (p : string * bytes) : bytes :=
  lp p.1 ++ be_split 8 (Z.of_nat (length p.2)) ++ sha256 p.2.

Definition backup_preimage (f : backup_fields) (payloads : list (string * bytes)) (profile_sha : bytes) : bytes :=
  BACKUP_DOMAIN ++ lp "gse-backup" ++ be_split 2 1 ++ be_split 2 1
  ++ lp "gse-durable" ++ be_split 2 1 ++ be_split 2 1 ++ profile_sha
  ++ be_split 8 (bf_history_most f) ++ be_split 8 (bf_history_least f) ++ be_split 8 (bf_sequence f)
  ++ lp (bf_storage_identity f) ++ lp (bf_schema_identity f) ++ lp (bf_codec_identity f)
  ++ be_split 4 (bf_codec_version f) ++ be_split 4 (Z.of_nat (length payloads))
  ++ concat (put_payload <$> merge_sort payload_before payloads).

(** ** [inspect_backup] *)

Record backup_report := BackupReport {
  br_sequence : Z;
  br_profile_digest : string;
  br_content_identity : string
}.

Definition check_payload (m : backup_manifest) (payload : string * bytes) : result unit :=
  let! d := of_option (assoc_get payload.1 (bm_payloads m)) KeyError in
  guard ((pd_size d =? Z.of_nat (length payload.2)) && bool_decide (pd_sha256 d = sha256 payload.2))
    (fault "backup payload integrity mismatch").

Definition manifest_fields (m : backup_manifest) : backup_fields :=
  BackupFields (fst (bm_history m)) (snd (bm_history m)) (bm_sequence m) (bm_storage_identity m) (bm_schema_identity m)
    (bm_codec_identity m) (bm_codec_version m).

Definition inspect_backup_members (checkpoint_data manifest_data metadata_data : bytes) : result backup_report :=
  let! m := parse_backup_manifest manifest_data in
  let! md := parse_metadata metadata_data in
  let! cp := parse_checkpoint checkpoint_data md in
  let payloads := [("gse-backup-checkpoint", checkpoint_data); ("gse-backup-metadata", metadata_data)]%string in
  do! check_all (check_payload m) payloads in
  let expected := sha256 (backup_preimage (manifest_fields m) payloads (bm_profile_digest m)) in
  do! guard (bool_decide (bm_history m = md_history md) && bool_decide (bm_profile_digest m = md_profile_digest md)
        && (bm_sequence m =? cp_sequence cp) && bool_decide (bm_content_digest m = expected))
    (fault "backup members or content identity disagree") in
  Ok (BackupReport (bm_sequence m) (hex (bm_profile_digest m)) ("gse-backup-v2-" +:+ hex expected)).

Definition inspect_backup (directory : file) : result backup_report :=
  let! members := of_option (folder_members directory) OSError in
  do! guard (bool_decide (dom members = list_to_set BACKUP_MEMBERS)) (fault "backup inventory is not canonical") in
  let! checkpoint_data := member_bytes members "gse-backup-checkpoint" in
  let! manifest_data := member_bytes members "gse-backup-manifest" in
  let! metadata_data := member_bytes members "gse-backup-metadata" in
  inspect_backup_members checkpoint_data manifest_data metadata_data.

(** ** [fixture] *)

Record Fixture := mkFixture {
  fx_live : list (string * bytes);
  fx_backup : list (string * bytes);
  fx_profile_sha256 : string;
  fx_backup_identity : string
}.

Definition most : Z := 0x0011223344556677.
Definition least : Z := 0x8899AABBCCDDEEFF.

(** The common head of the live members: [">QhhQQ"]. *)
Definition put_head (magic : Z) : bytes :=
  be_split 8 magic ++ be_split 2 1 ++ be_split 2 1 ++ be_split 8 most ++ be_split 8 least.

Definition fixture_metadata : bytes := checked (
  put_head METADATA_MAGIC ++ lp "gse-durable"
  ++ be_split 4 (Z.of_nat (length default_profile)) ++ default_profile ++ profile_digest (Some default_profile)
  ++ lp "v42-fixture-store" ++ lp "v42-fixture-schema" ++ lp "v42-fixture-codec"
  ++ be_split 4 1 ++ be_split 4 1024 ++ be_split 4 4096 ++ be_split 4 1000 ++ be_split 4 10000
  ++ be_split 8 1048576 ++ be_split 8 67108864 ++ be_split 4 0).

Definition fixture_checkpoint : bytes :=
  let key := utf8 "doc-1" in
  let document := utf8 "fixture-value" in
  checked (
    put_head CHECKPOINT_MAGIC ++ profile_digest (Some default_profile)
    ++ be_split 8 7 ++ be_split 4 1 ++ be_split 4 1 ++ be_split 4 0
    ++ be_split 4 1 ++ be_split 1 1
    ++ be_split 4 (Z.of_nat (length key)) ++ key
    ++ be_split 4 (Z.of_nat (length document)) ++ document).

Definition fixture_checkpoint_manifest : bytes := checked (
  put_head CHECKPOINT_MANIFEST_MAGIC ++ profile_digest (Some default_profile)
  ++ be_split 8 7 ++ be_split 8 (Z.of_nat (length fixture_checkpoint)) ++ be_split 4 (sealed_checksum fixture_checkpoint)
  ++ lp CHECKPOINT_NAME ++ be_split 8 2 ++ be_split 8 8).

Definition fixture_wal : bytes := checked (
  put_head WAL_MAGIC ++ profile_digest (Some default_profile) ++ be_split 8 2 ++ be_split 8 8).

Definition fixture_fields : backup_fields :=
  BackupFields most least 7 "v42-fixture-store" "v42-fixture-schema" "v42-fixture-codec" 1.

Definition fixture : Fixture :=
  let profile_sha := profile_digest (Some default_profile) in
  let payloads := [("gse-backup-checkpoint", fixture_checkpoint); ("gse-backup-metadata", fixture_metadata)]%string in
  let content_digest := sha256 (backup_preimage fixture_fields payloads profile_sha) in
  let manifest := checked (
    be_split 8 BACKUP_MAGIC ++ be_split 2 1 ++ be_split 2 1 ++ lp "gse-backup" ++ lp "gse-durable"
    ++ be_split 2 1 ++ be_split 2 1 ++ profile_sha
    ++ be_split 8 most ++ be_split 8 least ++ be_split 8 7
    ++ lp (bf_storage_identity fixture_fields) ++ lp (bf_schema_identity fixture_fields)
    ++ lp (bf_codec_identity fixture_fields)
    ++ be_split 4 1 ++ be_split 4 (Z.of_nat (length BACKUP_PAYLOAD_ORDER))
    ++ concat (put_payload <$> payloads)
    ++ content_digest ++ be_split 8 0 ++ lp "phase2-fixture") in
  mkFixture
    [("gse.lock", []); ("gse-metadata", fixture_metadata); (CHECKPOINT_NAME, fixture_checkpoint);
     ("gse-checkpoint-manifest", fixture_checkpoint_manifest); (WAL_NAME, fixture_wal)]%string
    (payloads ++ [("gse-backup-manifest"%string, manifest)])
    (hex profile_sha) ("gse-backup-v2-" +:+ hex content_digest).

(** ** [load_hex_fixture] *)

Definition load_hex_fixture (root : gmap string file) : result Fixture :=
  let! inventory := read_lines root "fixture-inventory.tsv" in
  let! fx := load_lines fault root ([("gse.lock"%string, [])], []) inventory in
  let! identities := read_lines root "fixture-identities.properties" in
  let! properties := load_properties identities [] in
  let! profile := of_option (assoc_get "profileDigest"%string properties) KeyError in
  let! backup := of_option (assoc_get "backupIdentity"%string properties) KeyError in
  Ok (mkFixture fx.1 fx.2 profile backup).

(** A directory with the members of a fixture. *)
Definition as_directory (members : list (string * bytes)) : file :=
  Folder (list_to_map (prod_map id Regular <$> members)).
