(* ===== verification/V11Proofs.v ===== *)
(** * The gse-durable and gse-backup (1,1) inspectors: seals, frames and the content identity *)

From stdpp Require Import base gmap sets strings list sorting.
From S2P Require Import Prelude Bytes Sha256 Crc32c Wire Files StorageInspector StorageV11.
Import StateNotations ResultNotations.
Local Open Scope py_scope.
Local Open Scope Z_scope.
#[local] Opaque be_split sha256.

(** ** Seals *)

Lemma uncheck_ok data minimum name content :
  uncheck data minimum name = Ok content -> sealed data /\ content = sealed_body data /\ (4 <= length data)%nat.
Proof. intros H. unfold uncheck in H. ok_inv H. bool_tac. injection H as <-. done. Qed.

Lemma parse_metadata_sealed data md : parse_metadata data = Ok md -> sealed data.
Proof. intros H. unfold parse_metadata in H. ok_inv H. by apply uncheck_ok in Hx as [? _]. Qed.

Lemma parse_checkpoint_sealed data md cp :
  parse_checkpoint data md = Ok cp -> sealed data /\ cp_bytes cp = Z.of_nat (length data).
Proof.
  intros H. unfold parse_checkpoint in H. ok_inv H. apply uncheck_ok in Hx as [? _]. injection H as <-. done.
Qed.

Lemma parse_manifest_sealed data md m : parse_checkpoint_manifest data md = Ok m -> sealed data.
Proof. intros H. unfold parse_checkpoint_manifest in H. ok_inv H. by apply uncheck_ok in Hx as [? _]. Qed.

Lemma parse_manifest_next data md m : parse_checkpoint_manifest data md = Ok m -> cm_first_sequence m = cm_sequence m + 1.
Proof.
  intros H. unfold parse_checkpoint_manifest in H. ok_inv H. apply run_reader_ok in H as [s2 H].
  unfold checkpoint_manifest_body in H. ok_inv H. fields_inv. bool_tac. by subst.
Qed.

(** ** Frame headers *)

Definition put_frame_header (h : frame_header) : bytes :=
  (be_split 4 (fh_magic h) ++ be_split 2 (fh_major h) ++ be_split 2 (fh_minor h)) ++ be_split 4 (fh_length h)
  ++ (be_split 8 (fh_sequence h) ++ be_split 1 (fh_type h) ++ be_split 1 (fh_flags h) ++ be_split 2 (fh_reserved h))
  ++ be_split 4 (fh_payload h).

Lemma read_frame_header_ok bs h :
  length bs = FRAME_HEADER_BYTES -> run_reader read_frame_header bs = Ok h ->
  bs = put_frame_header h /\ unsigned_range 4 (fh_length h) /\ unsigned_range 4 (fh_payload h).
Proof.
  intros Hl [s2 H]%run_reader_ok. unfold read_frame_header in H. ok_inv H. fields_inv. subst. unfold put_frame_header. cbn [fh_magic fh_major fh_minor fh_length fh_sequence fh_type fh_flags fh_reserved fh_payload].
  rewrite !length_app, !length_be_split in Hl. unfold FRAME_HEADER_BYTES in Hl.
  destruct s2 as [|? s2]; [|cbn [length] in Hl; lia]. rewrite app_nil_r, <- !app_assoc. done.
Qed.

Lemma one_field_changes (a a' l l' m m' p p' : bytes) i b :
  length a = length a' -> length l = length l' -> length m = length m' -> length p = length p' ->
  a' ++ l' ++ m' ++ p' = <[i := b]> (a ++ l ++ m ++ p) -> l' = l \/ p' = p.
Proof.
  intros Ha Hl Hm Hp H. destruct (decide (i < length a)%nat) as [Hi|Hi].
  - rewrite insert_app_l in H by done. apply app_field in H as [_ H]; [|by rewrite length_insert].
    left. by apply app_field in H as [? _].
  - rewrite insert_app_r_alt in H by lia. apply app_field in H as [_ H]; [|done].
    destruct (decide (i - length a < length l)%nat) as [Hj|Hj].
    + rewrite insert_app_l in H by done. apply app_field in H as [_ H]; [|by rewrite length_insert].
      right. by apply app_field in H as [_ ?].
    + rewrite insert_app_r_alt in H by lia. left. by apply app_field in H as [? _].
Qed.

(** One changed byte cannot change the declared length: the payload length repeats it. *)
Lemma frame_length_stable h h' i b :
  put_frame_header h' = <[i := b]> (put_frame_header h) ->
  unsigned_range 4 (fh_length h) -> unsigned_range 4 (fh_length h') ->
  unsigned_range 4 (fh_payload h) -> unsigned_range 4 (fh_payload h') ->
  fh_payload h = fh_length h - 32 -> fh_payload h' = fh_length h' - 32 -> fh_length h' = fh_length h.
Proof.
  unfold put_frame_header. intros H Hl Hl' Hp Hp' He He'.
  apply one_field_changes in H as [H|H]; [..|by rewrite !length_app, !length_be_split|by rewrite !length_be_split
    |by rewrite !length_app, !length_be_split|by rewrite !length_be_split].
  - apply be_split_inj in H; [done|by rewrite pow_256..].
  - apply be_split_inj in H; [lia|by rewrite pow_256..].
Qed.

(** ** The frame loop *)

Lemma frames_step fuel rest sequence records x :
  frames_loop (S fuel) rest sequence records = Ok x -> rest <> [] ->
  exists h n, n = Z.to_nat (fh_length h) /\ (32 <= n <= length rest)%nat /\
    run_reader read_frame_header (take FRAME_HEADER_BYTES rest) = Ok h /\
    frame_header_ok h sequence (Z.of_nat (length rest)) = true /\ sealed (take n rest) /\
    frames_loop fuel (drop n rest) (sequence + 1) (records + 1) = Ok x.
Proof.
  intros H Hr. destruct rest as [|r0 rest]; [done|]. cbn [frames_loop] in H. ok_inv H. bool_tac.
  pose proof Hx1 as Hh. unfold frame_header_ok in Hh. bool_tac.
  unfold FRAME_HEADER_BYTES, FRAME_TRAILER_BYTES in *.
  exists x1, (Z.to_nat (fh_length x1)). split_and!; try done; lia.
Qed.

Lemma frames_records fuel rest sequence records s' r' :
  frames_loop fuel rest sequence records = Ok (s', r') -> s' - sequence = r' - records /\ records <= r'.
Proof.
  revert rest sequence records. induction fuel as [|fuel IH]; intros rest sequence records H.
  - destruct rest; [|done]. injection H as <- <-. lia.
  - destruct (decide (rest = [])) as [->|Hr]; [injection H as <- <-; lia|].
    apply frames_step in H as (h & n & _ & _ & _ & _ & _ & H); [|done]. apply IH in H. lia.
Qed.

Lemma frame_declares_payload h s left : frame_header_ok h s left = true -> fh_payload h = fh_length h - 32.
Proof. unfold frame_header_ok. intros H. bool_tac. done. Qed.

Lemma run_frame_header rest h : (32 <= length rest)%nat ->
  run_reader read_frame_header (take FRAME_HEADER_BYTES rest) = Ok h ->
  take FRAME_HEADER_BYTES rest = put_frame_header h /\ unsigned_range 4 (fh_length h) /\ unsigned_range 4 (fh_payload h).
Proof. intros Hl H. apply read_frame_header_ok; [rewrite length_take; unfold FRAME_HEADER_BYTES; lia|done]. Qed.

(** A frame run with one changed byte is rejected. *)
Lemma frames_changed fuel fuel' rest s r s' r' i b c x y :
  frames_loop fuel rest s r = Ok x -> rest !! i = Some c ->
  frames_loop fuel' (<[i := b]> rest) s' r' = Ok y -> b = c.
Proof.
  revert fuel' rest s r s' r' i. induction fuel as [|fuel IH]; intros fuel' rest s r s' r' i H Hc H'.
  { destruct rest; done. }
  destruct (decide (rest = [])) as [->|Hr]; [done|].
  assert (<[i := b]> rest <> []) as Hr'.
  { intros E. apply (f_equal length) in E. rewrite length_insert in E. by destruct rest. }
  destruct fuel' as [|fuel']; [by destruct (<[i := b]> rest)|].
  apply frames_step in H as (h & n & Hn & Hnl & Hh & Hok & Hs & H); [|done].
  apply frames_step in H' as (h' & n' & Hn' & Hnl' & Hh' & Hok' & Hs' & H'); [|done].
  rewrite length_insert in Hnl'. pose proof Hh as Hh1. pose proof Hh' as Hh1'.
  apply run_frame_header in Hh as (Hb & Hu & Hp); [|lia].
  apply run_frame_header in Hh' as (Hb' & Hu' & Hp'); [|rewrite length_insert; lia].
  assert (n' = n) as ->.
  { destruct (decide (i < FRAME_HEADER_BYTES)%nat) as [Hi|Hi].
    - rewrite take_insert_lt, Hb in Hb' by done. symmetry in Hb'. subst n n'. f_equal.
      eapply frame_length_stable; [exact Hb'|done..| |]; by eapply frame_declares_payload.
    - rewrite take_insert_ge in Hh1' by lia. rewrite Hh1 in Hh1'. injection Hh1' as <-. congruence. }
  destruct (decide (i < n)%nat) as [Hi|Hi].
  - rewrite take_insert_lt in Hs' by done. eapply sealed_insert; [exact Hs|by rewrite lookup_take_lt|exact Hs'].
  - rewrite drop_insert_ge in H' by lia.
    eapply (IH fuel' _ _ _ _ _ (i - n)%nat H); [|exact H'].
    rewrite lookup_drop. by replace (n + (i - n))%nat with i by lia.
Qed.

Lemma run_header_err bs e : run_reader read_frame_header bs = Err e -> e = StructError.
Proof.
  unfold run_reader. destruct (read_frame_header bs) as [[?|e'] s2] eqn:H; [done|]. intros [= ->].
  unfold read_frame_header in H.
  repeat (apply bind_err in H as [H|(? & ? & _ & H)]; [by first [apply read_uint_err in H | apply read_int_err in H]|]).
  done.
Qed.

(** The fuel of [parse_wal] never runs out. *)
Lemma frames_fuel fuel rest s r : (length rest <= fuel)%nat -> frames_loop fuel rest s r <> Err (AssertionError "fuel").
Proof.
  revert rest s r. induction fuel as [|fuel IH]; intros [|r0 rest] s r Hl; try done; [cbn in Hl; lia|].
  cbn [frames_loop]. destruct (_ <=? _)%nat eqn:E1; [|done]. cbn [guard rbind].
  destruct (run_reader _ _) as [h|e] eqn:E2.
  2: { apply run_header_err in E2 as ->. done. }
  cbn [rbind]. destruct (frame_header_ok _ _ _) eqn:E4; [|done]. cbn [guard rbind].
  destruct (_ =? _); [|done]. cbn [guard rbind]. apply IH.
  unfold frame_header_ok, FRAME_HEADER_BYTES, FRAME_TRAILER_BYTES in E4. bool_tac.
  rewrite length_drop. cbn [length] in *. lia.
Qed.

Lemma parse_wal_ok data md w :
  parse_wal data md = Ok w ->
  sealed (take 80 data) /\ (80 <= length data)%nat /\
  exists x, frames_loop (length data) (drop 80 data) (wl_first_sequence w) 0 = Ok x /\
    wl_records w = x.2 /\ wl_last_sequence w = x.1 - 1.
Proof. intros H. unfold parse_wal in H. ok_inv H. bool_tac. injection H as <-. split_and!; try done. by exists x2. Qed.

Lemma parse_wal_changed data md md' w w' i b c :
  parse_wal data md = Ok w -> data !! i = Some c -> parse_wal (<[i := b]> data) md' = Ok w' -> b = c.
Proof.
  intros H Hc H'. apply parse_wal_ok in H as (Hs & Hl & x & H & _), H' as (Hs' & _ & x' & H' & _).
  destruct (decide (i < 80)%nat) as [Hi|Hi].
  - rewrite take_insert_lt in Hs' by done. eapply sealed_insert; [exact Hs|by rewrite lookup_take_lt|done].
  - rewrite drop_insert_ge in H' by lia. eapply frames_changed; [exact H| |exact H'].
    rewrite lookup_drop. by replace (80 + (i - 80))%nat with i by lia.
Qed.

(** ** The live store *)

Lemma member_bytes_ok members name data : member_bytes members name = Ok data <-> members !! name = Some (Regular data).
Proof.
  unfold member_bytes. destruct (members !! name) as [[d| |]|]; simpl; split; try done; by intros [= ->].
Qed.

Lemma inspect_store_ok directory r :
  inspect_store directory = Ok r ->
  exists ms cn wn md cp mf w, directory = Folder ms /\
    matching is_checkpoint_name ms = [cn] /\ matching is_wal_name ms = [wn] /\
    dom ms = list_to_set ["gse.lock"; "gse-metadata"; "gse-checkpoint-manifest"; cn; wn]%string /\
    ms !! "gse.lock"%string = Some (Regular []) /\ ms !! "gse-metadata"%string = Some (Regular md) /\
    ms !! cn = Some (Regular cp) /\ ms !! "gse-checkpoint-manifest"%string = Some (Regular mf) /\
    ms !! wn = Some (Regular w) /\ inspect_authorities cn md cp mf w = Ok r.
Proof.
  intros H. unfold inspect_store in H. ok_inv H. destruct directory as [|ms|]; try done. injection Hx as <-.
  destruct (matching is_checkpoint_name ms) as [|cn [|? ?]] eqn:Ec; try done.
  destruct (matching is_wal_name ms) as [|wn [|? ?]] eqn:Ew; try done.
  ok_inv H. bool_tac.
  repeat match goal with H : member_bytes _ _ = Ok _ |- _ => apply member_bytes_ok in H end. subst.
  by repeat eexists.
Qed.

Lemma authorities_ok cn md cp mf w r :
  inspect_authorities cn md cp mf w = Ok r ->
  exists m c k v, parse_metadata md = Ok m /\ parse_checkpoint cp m = Ok c /\
    parse_checkpoint_manifest mf m = Ok k /\ parse_wal w m = Ok v /\ authorities_agree cn cp c k v = true /\
    r = StoreReport (if wl_records v =? 0 then cp_sequence c else wl_last_sequence v)
          (hex (md_profile_digest m)) (wl_records v).
Proof. intros H. unfold inspect_authorities in H. ok_inv H. injection H as <-. by repeat eexists. Qed.

Lemma sorted_names_insert ms name f : is_Some (ms !! name) -> sorted_names (<[name := f]> ms) = sorted_names ms.
Proof.
  intros Hn. unfold sorted_names. f_equal. f_equal. rewrite dom_insert_L. apply elem_of_dom in Hn. set_solver.
Qed.

(** A member of the store other than the empty lock is sealed against single changed bytes. *)
Lemma store_changed ms name data i b c r r' :
  inspect_store (Folder ms) = Ok r -> ms !! name = Some (Regular data) -> data !! i = Some c ->
  inspect_store (Folder (<[name := Regular (<[i := b]> data)]> ms)) = Ok r' -> b = c.
Proof.
  intros (? & cn & wn & md & cp & mf & w & [= <-] & Hc & Hw & Hd & Hl & Hmd & Hcp & Hmf & Hwl & H)%inspect_store_ok Hn Hi
    (? & cn' & wn' & md' & cp' & mf' & w' & [= <-] & Hc' & Hw' & Hd' & Hl' & Hmd' & Hcp' & Hmf' & Hwl' & H')%inspect_store_ok.
  unfold matching in Hc', Hw'. rewrite sorted_names_insert in Hc', Hw' by done.
  unfold matching in Hc, Hw. rewrite Hc in Hc'. rewrite Hw in Hw'. injection Hc' as <-. injection Hw' as <-.
  apply authorities_ok in H as (m & k1 & k2 & v & P1 & P2 & P3 & P4 & _), H' as (m' & k1' & k2' & v' & P1' & P2' & P3' & P4' & _).
  assert (name ∈ dom ms) as Hin by (by apply elem_of_dom; eexists). rewrite Hd in Hin.
  apply elem_of_list_to_set in Hin. rewrite !elem_of_cons in Hin.
  destruct Hin as [->|[->|[->|[->|[->|Hin]]]]]; [| | | | |by apply elem_of_nil in Hin].
  - by simplify_eq.
  - rewrite lookup_insert_eq in Hmd'. simplify_eq. apply parse_metadata_sealed in P1, P1'.
    exact (sealed_insert _ _ _ _ P1 Hi P1').
  - rewrite lookup_insert_eq in Hmf'. simplify_eq. apply parse_manifest_sealed in P3, P3'.
    exact (sealed_insert _ _ _ _ P3 Hi P3').
  - rewrite lookup_insert_eq in Hcp'. simplify_eq. apply parse_checkpoint_sealed in P2 as [P2 _], P2' as [P2' _].
    exact (sealed_insert _ _ _ _ P2 Hi P2').
  - rewrite lookup_insert_eq in Hwl'. simplify_eq. exact (parse_wal_changed _ _ _ _ _ _ _ _ P4 Hi P4').
Qed.

(** ** The content identity of a backup *)

Definition text_fits (s : string) : Prop := text_size s < 2 ^ 32.

Record fields_ok (f : backup_fields) : Prop := {
  fo_most : unsigned_range 8 (bf_history_most f);
  fo_least : unsigned_range 8 (bf_history_least f);
  fo_sequence : signed_range 8 (bf_sequence f);
  fo_storage : text_fits (bf_storage_identity f);
  fo_schema : text_fits (bf_schema_identity f);
  fo_codec : text_fits (bf_codec_identity f);
  fo_version : signed_range 4 (bf_codec_version f)
}.

Definition payload_list (cp md : bytes) : list (string * bytes) :=
  [("gse-backup-checkpoint"%string, cp); ("gse-backup-metadata"%string, md)].

Lemma parse_backup_manifest_ok data m :
  parse_backup_manifest data = Ok m -> sealed data /\ fields_ok (manifest_fields m) /\ bm_profile_digest m = profile_digest None.
Proof.
  intros H. unfold parse_backup_manifest in H. ok_inv H. apply uncheck_ok in Hx as [Hs _]. split; [done|].
  apply run_reader_ok in H as [s2 H]. unfold backup_manifest_body, cursor_string, cursor_take, finish in H.
  ok_inv H. fields_inv. bool_tac. subst m. split; [constructor; assumption|assumption].
Qed.

Lemma preimage_fields_v11 f1 f2 sha cp1 md1 cp2 md2 :
  fields_ok f1 -> fields_ok f2 ->
  backup_preimage f1 (payload_list cp1 md1) sha = backup_preimage f2 (payload_list cp2 md2) sha ->
  f1 = f2 /\ sha256 cp1 = sha256 cp2 /\ sha256 md1 = sha256 md2.
Proof.
  intros [] [] H. unfold backup_preimage in H.
  change (merge_sort payload_before (payload_list cp1 md1)) with (payload_list cp1 md1) in H.
  change (merge_sort payload_before (payload_list cp2 md2)) with (payload_list cp2 md2) in H.
  do 8 apply app_inv_head in H.
  destruct f1, f2. unfold text_fits, payload_list, put_payload, lp in *. simpl in *. rewrite <- !app_assoc in H.
  peel H.
  do 2 (apply app_field in H as [? H]; [|by rewrite ?length_be_split, ?length_sha256]). apply app_inv_head in H.
  do 2 (apply app_field in H as [? H]; [|by rewrite ?length_be_split, ?length_sha256]). subst. done.
Qed.

Lemma inspect_backup_ok directory r :
  inspect_backup directory = Ok r ->
  exists ms m cp md, directory = Folder ms /\ ms !! "gse-backup-checkpoint"%string = Some (Regular cp) /\
    ms !! "gse-backup-metadata"%string = Some (Regular md) /\ fields_ok (manifest_fields m) /\
    br_sequence r = bm_sequence m /\ bm_profile_digest m = profile_digest None /\
    br_content_identity r =
      ("gse-backup-v2-" +:+ hex (sha256 (backup_preimage (manifest_fields m) (payload_list cp md) (bm_profile_digest m))))%string.
Proof.
  intros H. unfold inspect_backup in H. ok_inv H. destruct directory as [|ms|]; try done. injection Hx as <-.
  repeat match goal with H : member_bytes _ _ = Ok _ |- _ => apply member_bytes_ok in H end.
  unfold inspect_backup_members in H. ok_inv H. injection H as <-.
  apply parse_backup_manifest_ok in Hx as (_ & Hf & Hp).
  exists ms, x, x1, x3. unfold payload_list. split_and!; first [assumption | reflexivity].
Qed.

(** ** Properties of the (1,1) live store and backup *)

#[local] Transparent be_split sha256.

(** An accepted live store is gapless and every byte of it is sealed. The reported sequence is
    the sequence of the checkpoint plus the number of whole frames in the write-ahead log, so the log
    continues the checkpoint without a gap; and changing any one byte of any member makes
    [inspect_store] reject the directory. *)
Theorem live_store_sealed ms r :
  inspect_store (Folder ms) = Ok r ->
  (exists cn cp m c, matching is_checkpoint_name ms = [cn] /\ ms !! cn = Some (Regular cp) /\
     parse_checkpoint cp m = Ok c /\ 0 <= sr_wal_records r /\ sr_sequence r = cp_sequence c + sr_wal_records r) /\
  forall name data i b c, ms !! name = Some (Regular data) -> data !! i = Some c -> b <> c ->
    is_ok (inspect_store (Folder (<[name := Regular (<[i := b]> data)]> ms))) = false.
Proof.
  intros H. split.
  - apply inspect_store_ok in H as (? & cn & wn & md & cp & mf & w & [= <-] & Hc & _ & _ & _ & _ & Hcp & _ & _ & H).
    apply authorities_ok in H as (m & c & k & v & _ & Pc & Pk & Pw & Ha & ->).
    exists cn, cp, m, c. split_and!; try done; simpl; apply parse_wal_ok in Pw as (_ & _ & [s n] & Hf & -> & Hl);
      apply frames_records in Hf; simpl in *; [lia|].
    apply parse_manifest_next in Pk. unfold authorities_agree in Ha. bool_tac.
    destruct (Z.eqb_spec n 0); lia.
  - intros name data i b c Hn Hi Hb. destruct (inspect_store (Folder (<[_ := _]> ms))) as [r'|] eqn:E; [|done].
    destruct (Hb (store_changed _ _ _ _ _ _ _ _ H Hn Hi E)).
Qed.

Definition fixture_members : gmap string file := list_to_map (prod_map id Regular <$> fx_live fixture).

Lemma live_store_sealed_witness :
  exists r, inspect_store (Folder fixture_members) = Ok r /\
  ((exists cn cp m c, matching is_checkpoint_name fixture_members = [cn] /\ fixture_members !! cn = Some (Regular cp) /\
     parse_checkpoint cp m = Ok c /\ 0 <= sr_wal_records r /\ sr_sequence r = cp_sequence c + sr_wal_records r) /\
  forall name data i b c, fixture_members !! name = Some (Regular data) -> data !! i = Some c -> b <> c ->
    is_ok (inspect_store (Folder (<[name := Regular (<[i := b]> data)]> fixture_members))) = false).
Proof.
  assert (exists r, inspect_store (Folder fixture_members) = Ok r) as [r Hr] by (eexists; vm_compute; reflexivity).
  exists r. split; [exact Hr|]. exact (live_store_sealed fixture_members r Hr).
Defined.

(** The content of a (1,1) backup. *)
Definition backup_content (directory : file) (f : backup_fields) (cp md : bytes) (identity : string) : Prop :=
  exists ms, directory = Folder ms /\ ms !! "gse-backup-checkpoint"%string = Some (Regular cp) /\
    ms !! "gse-backup-metadata"%string = Some (Regular md) /\
    identity = ("gse-backup-v2-" +:+ hex (sha256 (backup_preimage f (payload_list cp md) (profile_digest None))))%string.

(** The content identity of an accepted (1,1) backup binds its content: two accepted backups
    with one identity have the same checkpoint, metadata and manifest fields, unless the checkpoints,
    the metadata or the two hashed contents are a SHA-256 collision. *)
Theorem v11_identity_binds d1 d2 r1 r2 :
  inspect_backup d1 = Ok r1 -> inspect_backup d2 = Ok r2 -> br_content_identity r1 = br_content_identity r2 ->
  exists f1 f2 cp1 cp2 md1 md2,
    backup_content d1 f1 cp1 md1 (br_content_identity r1) /\ backup_content d2 f2 cp2 md2 (br_content_identity r2) /\
    ((f1 = f2 /\ cp1 = cp2 /\ md1 = md2) \/ collides cp1 cp2 \/ collides md1 md2
     \/ collides (backup_preimage f1 (payload_list cp1 md1) (profile_digest None))
                 (backup_preimage f2 (payload_list cp2 md2) (profile_digest None))).
Proof.
  intros (ms1 & m1 & cp1 & md1 & -> & C1 & M1 & V1 & _ & P1 & I1)%inspect_backup_ok
    (ms2 & m2 & cp2 & md2 & -> & C2 & M2 & V2 & _ & P2 & I2)%inspect_backup_ok He.
  rewrite P1 in I1. rewrite P2 in I2.
  exists (manifest_fields m1), (manifest_fields m2), cp1, cp2, md1, md2.
  split; [exists ms1; split_and!; first [assumption|reflexivity]|].
  split; [exists ms2; split_and!; first [assumption|reflexivity]|]. rewrite I1, I2 in He.
  apply (inj (String.app _)), hex_inj, same_digest in He as [He|He]; [|right; right; right; assumption].
  apply (preimage_fields_v11 _ _ _ _ _ _ _ V1 V2) in He as (-> & Hc & Hm).
  apply same_digest in Hc as [->|?]; [|right; left; assumption].
  apply same_digest in Hm as [->|?]; [|right; right; left; assumption]. left. split_and!; reflexivity.
Qed.

Lemma v11_identity_binds_witness :
  exists r, inspect_backup (as_directory (fx_backup fixture)) = Ok r /\
    exists f1 f2 cp1 cp2 md1 md2,
      backup_content (as_directory (fx_backup fixture)) f1 cp1 md1 (br_content_identity r) /\
      backup_content (as_directory (fx_backup fixture)) f2 cp2 md2 (br_content_identity r) /\
      ((f1 = f2 /\ cp1 = cp2 /\ md1 = md2) \/ collides cp1 cp2 \/ collides md1 md2
       \/ collides (backup_preimage f1 (payload_list cp1 md1) (profile_digest None))
                   (backup_preimage f2 (payload_list cp2 md2) (profile_digest None))).
Proof.
  assert (exists r, inspect_backup (as_directory (fx_backup fixture)) = Ok r) as [r Hr]
    by (eexists; vm_compute; reflexivity).
  exists r. split; [exact Hr|]. exact (v11_identity_binds _ _ r r Hr Hr eq_refl).
Defined.
