(* ===== verification/DerivedV12.v ===== *)
(** * The (1,2) live, backup and derived-index formats ([scripts/v43/derived_format_v12.py])

    Fixture encoder and parser: metadata, checkpoint, the derived index components and the catalog
    that binds them to the checkpoint, and the (1,2) backup. *)

From Stdlib Require Import Ascii.
From stdpp Require Import base gmap sets strings list sorting pretty.
From S2P Require Import Prelude Bytes Sha256 Crc32c Wire Files HexFixture.
Import StateNotations ResultNotations.
Local Open Scope py_scope.
Local Open Scope Z_scope.

(** ** Constants *)

Definition METADATA_MAGIC : Z := 0x4753454D45544131.
Definition CHECKPOINT_MAGIC : Z := 0x47534543484B3130.
Definition CHECKPOINT_MANIFEST_MAGIC : Z := 0x4753454D414E3130.
Definition WAL_MAGIC : Z := 0x47534557414C3130.
Definition BACKUP_MAGIC : Z := 0x475345424B503130.
Definition CATALOG_MAGIC : Z := 0x4753454443415431.
Definition COMPONENT_MAGIC : Z := 0x4753454449445831.
Definition PROFILE_DOMAIN : bytes := utf8 "gse-durable-format-profile-v1" ++ [Byte.x00].
Definition BACKUP_DOMAIN : bytes := utf8 "gse-backup-content-v3" ++ [Byte.x00].
Definition CATALOG_DOMAIN : bytes := utf8 "gse-derived-catalog-content-v1" ++ [Byte.x00].
Definition COMPONENT_DOMAIN : bytes := utf8 "gse-derived-component-content-v1" ++ [Byte.x00].
Definition GENERATOR : string := "gse-derived-generator-v1".
Definition GENERATOR_VERSION : Z := 1.
Definition CAPABILITIES : list string :=
  ["canonical-documents-v1"; "checkpoint-authority-v1"; "crc32c-wal-v1"; "logical-index-config-v1";
   "reconstructible-derived-index-images-v1"; "sha256-profile-binding-v1"]%string.

(** A descriptor: kind, field and analyzer. *)
Definition descriptor : Type := (Z * string * string)%type.
Definition DESCRIPTORS : list descriptor :=
  [(1, "category", ""); (2, "price", ""); (3, "title", ""); (4, "body", "gse-simple-v1")]%string.
Definition CHECKPOINT_NAME : string := "gse-checkpoint-00000000000000000007-00112233445566778899aabbccddeeff.chk".
Definition WAL_NAME : string := "gse-wal-00000000000000000002.log".
Definition GENERATION : string := "0123456789abcdeffedcba9876543210".
Definition MAX_COMPONENTS : Z := 100000.
Definition MAX_STRING : Z := 1024 * 1024.

(** [COMPONENT_RE.fullmatch] *)
Definition is_component_name (name : string) : bool :=
  match strip_prefix "gse-derived-index-" name with
  | Some s =>
      match span_class is_digit 20 s with
      | Some (_, String "-" s1) =>
          match span_class is_digit 5 s1 with
          | Some (_, String "-" s2) =>
              bool_decide (option_map snd (span_class is_lower_hex 32 s2) = Some ".idx"%string)
          | _ => false
          end
      | _ => false
      end
  | None => false
  end.

Definition fault (msg : string) : exn := DerivedFormatError msg.

(** ** [checked], [lp], the profile and [Cursor] *)

Definition checked (content : bytes) : bytes := seal_bytes content.
Definition lp (value : string) : bytes := put_text value.
Definition profile_bytes : bytes :=
  be_split 4 (Z.of_nat (length CAPABILITIES)) ++ concat (lp <$> CAPABILITIES) ++ be_split 4 0.
Definition profile_digest : bytes := sha256 (PROFILE_DOMAIN ++ profile_bytes).

Definition truncated : exn := fault "bounded field is truncated".
Definition cursor_take (size : Z) : reader bytes := take_bytes truncated size.
Local Notation uint n := (read_uint truncated n).
Local Notation int n := (read_int truncated n).

Definition cursor_string (maximum : Z) (allow_empty : bool) : reader string :=
  read_text truncated (fault "string length is outside its bound") (fault "string is not strict UTF-8")
    (fun length => negb ((maximum <? length) || ((length =? 0) && negb allow_empty))).

Definition finish : reader unit := expect_end (fault "member has trailing bytes").

Definition uncheck (data : bytes) (minimum : nat) (member : string) : result bytes :=
  do! guard (negb (length data <? minimum)%nat) (fault (member +:+ " is truncated")) in
  do! guard (4 <=? length data)%nat StructError in
  do! guard (crc32c (sealed_body data) =? sealed_checksum data) (fault (member +:+ " CRC32C mismatch")) in
  Ok (sealed_body data).

(** ** [parse_metadata] *)

Record metadata := Metadata {
  md_history : Z * Z;
  md_profile : bytes;
  md_storage : string;
  md_schema : string;
  md_codec : string;
  md_codec_version : Z;
  md_descriptors : list descriptor
}.

Definition read_descriptor : reader descriptor :=
  let* kind := uint 1 in
  let* field := cursor_string 1024 false in
  let* analyzer := cursor_string 128 true in
  ret (kind, field, analyzer).

Definition read_descriptors (count : Z) : reader (list descriptor) :=
  do* ensure (negb (MAX_COMPONENTS <? count)) (fault "descriptor count exceeds its bound") in
  times count read_descriptor.

Definition metadata_body : reader metadata :=
  let* magic := uint 8 in
  let* major := int 2 in
  let* minor := int 2 in
  let* most := uint 8 in
  let* least := uint 8 in
  let* family := cursor_string 128 false in
  let* length := uint 4 in
  let* profile := cursor_take length in
  let* digest := cursor_take 32 in
  do* ensure ((magic =? METADATA_MAGIC) && (major =? 1) && (minor =? 2) && bool_decide (family = "gse-durable"%string)
        && bool_decide (profile = profile_bytes) && bool_decide (digest = profile_digest))
    (fault "metadata format profile differs") in
  let* storage := cursor_string 128 false in
  let* schema := cursor_string 128 false in
  let* codec := cursor_string 128 false in
  let* codec_version := int 4 in
  let* max_key := int 4 in
  let* max_document := int 4 in
  let* max_bulk := int 4 in
  let* max_documents := int 4 in
  let* checkpoint_wal := int 8 in
  let* retained := int 8 in
  let* derived := int 8 in
  let* count := int 4 in
  let* descriptors := read_descriptors count in
  do* finish in
  do* ensure (negb (existsb (fun value => value <=? 0)
                      [codec_version + 1; max_key; max_document; max_bulk; max_documents; checkpoint_wal; retained; derived]
                    || (retained <? derived) || negb (bool_decide (descriptors = DESCRIPTORS))))
    (fault "metadata bounds or descriptors differ") in
  ret (Metadata (most, least) digest storage schema codec codec_version descriptors).

Definition parse_metadata (data : bytes) : result metadata :=
  let! content := uncheck data 64 "metadata" in
  run_reader metadata_body content.

(** ** [parse_checkpoint] *)

Record checkpoint := Checkpoint {
  cp_sequence : Z;
  cp_next_doc_id : Z;
  cp_live_documents : Z;
  cp_sha256 : bytes;
  cp_bytes : Z;
  cp_crc : Z
}.

Definition read_slot : reader (option (bytes * bytes)) :=
  let* state := uint 1 in
  if state =? 0 then ret None else
  do* ensure (state =? 1) (fault "checkpoint slot state is invalid") in
  let* key_length := int 4 in
  do* ensure (negb (key_length <? 0)) (fault "checkpoint key length is invalid") in
  let* key := cursor_take key_length in
  let* document_length := int 4 in
  do* ensure (negb (document_length <? 0)) (fault "checkpoint document length is invalid") in
  let* document := cursor_take document_length in
  ret (Some (key, document)).

Definition decoded (slots : list (option (bytes * bytes))) : Z := Z.of_nat (length (omap id slots)).

(** With an expected sequence the checkpoint must be that of the empty fixture; without, its counts
    must agree. *)
Definition counts_ok (expected_sequence : option Z) (sequence next_doc live slots found : Z) : bool :=
  match expected_sequence with
  | Some expected => (sequence =? expected) && ((next_doc =? 0) && (live =? 0) && (slots =? 0))
  | None => true
  end
  && negb ((next_doc <? 0) || (live <? 0) || (slots <? 0))
  && match expected_sequence with
     | Some _ => true
     | None => (next_doc =? slots) && (found =? live)
     end.

Definition checkpoint_body (md : metadata) (expected_sequence : option Z) : reader (Z * Z * Z) :=
  let* magic := uint 8 in
  let* major := int 2 in
  let* minor := int 2 in
  let* most := uint 8 in
  let* least := uint 8 in
  let* binding := cursor_take 32 in
  let* sequence := int 8 in
  let* next_doc := int 4 in
  let* live := int 4 in
  let* count := int 4 in
  let* descriptors := read_descriptors count in
  let* slot_count := int 4 in
  let* slots := times slot_count read_slot in
  do* finish in
  do* ensure ((magic =? CHECKPOINT_MAGIC) && (major =? 1) && (minor =? 2)
        && bool_decide ((most, least) = md_history md) && bool_decide (binding = md_profile md)
        && counts_ok expected_sequence sequence next_doc live slot_count (decoded slots)
        && bool_decide (descriptors = md_descriptors md))
    (fault "checkpoint authority differs") in
  ret (sequence, next_doc, live).

Definition parse_checkpoint (data : bytes) (md : metadata) (expected_sequence : option Z) : result checkpoint :=
  let! content := uncheck data 88 "checkpoint" in
  let! r := run_reader (checkpoint_body md expected_sequence) content in
  Ok (Checkpoint r.1.1 r.1.2 r.2 (sha256 data) (Z.of_nat (length data)) (sealed_checksum data)).

(** ** [parse_component] *)

Record component := Component {
  co_ordinal : Z;
  co_kind : Z;
  co_name : string;
  co_analyzer : string;
  co_bytes : Z;
  co_crc : Z;
  co_sha256 : bytes
}.

(** [data[:-36]]: without the identity and the checksum. *)
Definition identified (data : bytes) : bytes := take (length data - 36) data.

(** The empty image of the fixture, by kind. *)
Definition component_payload (kind : Z) : reader unit :=
  if (1 <=? kind) && (kind <=? 3) then
    let* count := uint 4 in
    ensure (count =? 0) (fault "fixture component is not empty")
  else if kind =? 4 then
    let* a := uint 4 in
    let* b := int 8 in
    let* c := uint 4 in
    let* d := uint 4 in
    ensure ((a =? 0) && (b =? 0) && (c =? 0) && (d =? 0)) (fault "fixture text component is not empty")
  else liftr (Err (fault "component kind is unsupported")).

Definition component_body (md : metadata) (cp : checkpoint) (ordinal : nat) (content : bytes)
    : reader (Z * string * string) :=
  let* magic := uint 8 in
  let* encoding_major := int 2 in
  let* encoding_minor := int 2 in
  let* live_major := int 2 in
  let* live_minor := int 2 in
  let* binding := cursor_take 32 in
  let* most := uint 8 in
  let* least := uint 8 in
  let* sequence := int 8 in
  let* checkpoint_sha := cursor_take 32 in
  let* storage := cursor_string 128 false in
  let* schema := cursor_string 128 false in
  let* codec := cursor_string 128 false in
  let* codec_version := int 4 in
  let* generator := cursor_string 128 false in
  let* generator_version := int 4 in
  let* observed_ordinal := int 4 in
  let* kind := uint 1 in
  let* name := cursor_string MAX_STRING false in
  let* analyzer := cursor_string 128 true in
  let* next_doc := int 4 in
  let* live := int 4 in
  do* component_payload kind in
  let* identity := cursor_take 32 in
  do* finish in
  let* expected := liftr (of_option (md_descriptors md !! ordinal) IndexError) in
  do* ensure (((magic =? COMPONENT_MAGIC) && (encoding_major =? 1) && (encoding_minor =? 0) && (live_major =? 1)
               && (live_minor =? 2))
        && bool_decide (binding = md_profile md)
        && bool_decide ((most, least) = md_history md) && (sequence =? 7)
        && bool_decide (checkpoint_sha = cp_sha256 cp)
        && bool_decide ((storage, schema, codec, codec_version)
                        = (md_storage md, md_schema md, md_codec md, md_codec_version md))
        && (bool_decide (generator = GENERATOR) && (generator_version =? 1))
        && (observed_ordinal =? Z.of_nat ordinal) && bool_decide ((kind, name, analyzer) = expected)
        && ((next_doc =? 0) && (live =? 0))
        && bool_decide (identity = sha256 (COMPONENT_DOMAIN ++ content)))
    (fault "component binding differs") in
  ret (kind, name, analyzer).

Definition parse_component (data : bytes) (md : metadata) (cp : checkpoint) (ordinal : nat) : result component :=
  let! body := uncheck data 192 "component" in
  let! d := run_reader (component_body md cp ordinal (identified data)) body in
  Ok (Component (Z.of_nat ordinal) d.1.1 d.1.2 d.2 (Z.of_nat (length data)) (sealed_checksum data) (sha256 data)).

(** ** [parse_catalog] *)

Record catalog := Catalog { ca_identity : string; ca_components : list component }.

(** One entry of the catalog; the component it names is parsed at once. *)
Definition read_entry (md : metadata) (cp : checkpoint) (components : gmap string bytes) (expected_ordinal : nat)
    : reader component :=
  let* ordinal := int 4 in
  let* kind := uint 1 in
  let* name := cursor_string MAX_STRING false in
  let* analyzer := cursor_string 128 true in
  let* filename := cursor_string 256 false in
  let* size := uint 8 in
  let* checksum := uint 4 in
  let* sha := cursor_take 32 in
  do* ensure ((ordinal =? Z.of_nat expected_ordinal) && is_component_name filename)
    (fault "catalog entry order or filename differs") in
  let* data := liftr (of_option (components !! filename) KeyError) in
  let* c := liftr (parse_component data md cp expected_ordinal) in
  let* expected := liftr (of_option (md_descriptors md !! expected_ordinal) IndexError) in
  do* ensure (bool_decide ((kind, name, analyzer) = expected)
        && bool_decide ((size, checksum, sha) = (co_bytes c, co_crc c, co_sha256 c)))
    (fault "catalog component binding differs") in
  ret c.

(** [for expected_ordinal in range(count)] *)
Fixpoint read_entries (md : metadata) (cp : checkpoint) (components : gmap string bytes) (ordinals : list nat)
    : reader (list component) :=
  match ordinals with
  | [] => ret []
  | n :: ordinals' =>
      let* c := read_entry md cp components n in
      let* cs := read_entries md cp components ordinals' in
      ret (c :: cs)
  end.

Definition catalog_body (md : metadata) (cp : checkpoint) (components : gmap string bytes) (content : bytes)
    : reader catalog :=
  let* magic := uint 8 in
  let* encoding_major := int 2 in
  let* encoding_minor := int 2 in
  let* live_major := int 2 in
  let* live_minor := int 2 in
  let* binding := cursor_take 32 in
  let* most := uint 8 in
  let* least := uint 8 in
  let* sequence := int 8 in
  let* checkpoint_name := cursor_string 256 false in
  let* checkpoint_bytes := int 8 in
  let* checkpoint_crc := uint 4 in
  let* checkpoint_sha := cursor_take 32 in
  let* storage := cursor_string 128 false in
  let* schema := cursor_string 128 false in
  let* codec := cursor_string 128 false in
  let* codec_version := int 4 in
  let* generator := cursor_string 128 false in
  let* generator_version := int 4 in
  let* next_doc := int 4 in
  let* live := int 4 in
  let* count := int 4 in
  do* ensure (count =? Z.of_nat (length DESCRIPTORS)) (fault "catalog component count differs") in
  let* entries := read_entries md cp components (seq 0 (Z.to_nat count)) in
  let* identity := cursor_take 32 in
  do* finish in
  do* ensure (((magic =? CATALOG_MAGIC) && (encoding_major =? 1) && (encoding_minor =? 0) && (live_major =? 1)
               && (live_minor =? 2))
        && bool_decide (binding = md_profile md)
        && bool_decide ((most, least) = md_history md) && (sequence =? 7)
        && bool_decide (checkpoint_name = CHECKPOINT_NAME)
        && bool_decide ((checkpoint_bytes, checkpoint_crc, checkpoint_sha) = (cp_bytes cp, cp_crc cp, cp_sha256 cp))
        && bool_decide ((storage, schema, codec, codec_version)
                        = (md_storage md, md_schema md, md_codec md, md_codec_version md))
        && (bool_decide (generator = GENERATOR) && (generator_version =? 1) && (next_doc =? 0) && (live =? 0))
        && bool_decide (identity = sha256 (CATALOG_DOMAIN ++ content)))
    (fault "catalog authority differs") in
  ret (Catalog ("gse-derived-catalog-v1-" +:+ hex identity) entries).

Definition parse_catalog (data : bytes) (md : metadata) (cp : checkpoint) (components : gmap string bytes)
    : result catalog :=
  let! body := uncheck data 256 "catalog" in
  run_reader (catalog_body md cp components (identified data)) body.

(** ** [inspect_live] *)

Record live_report := LiveReport { lr_profile_digest : string; lr_catalog : catalog }.

Definition member (members : gmap string bytes) (name : string) : result bytes := of_option (members !! name) KeyError.

Definition inspect_live (members : gmap string bytes) : result live_report :=
  let! metadata_data := member members "gse-metadata" in
  let! md := parse_metadata metadata_data in
  let! checkpoint_data := member members CHECKPOINT_NAME in
  let! cp := parse_checkpoint checkpoint_data md (Some 7) in
  let derived := filter (fun kv : string * bytes => is_component_name kv.1 = true) members in
  let! manifest_data := member members "gse-derived-manifest" in
  let! c := parse_catalog manifest_data md cp derived in
  do! guard (size derived =? length DESCRIPTORS)%nat (fault "derived inventory differs") in
  Ok (LiveReport (hex (md_profile md)) c).

(** ** [_backup_preimage] and [inspect_backup] *)

Definition payload_before (a b : string * bytes) : Prop := string_le a.1 b.1.
#[export] Instance payload_order_dec : RelDecision payload_before.
Proof. intros a b. unfold payload_before. apply _. Defined.

Definition put_payload (p : string * bytes) : bytes :=
  lp p.1 ++ be_split 8 (Z.of_nat (length p.2)) ++ sha256 p.2.

(** The identity fields a backup repeats from its source. *)
Record source := Source {
  so_history : Z * Z;
  so_sequence : Z;
  so_storage : string;
  so_schema : string;
  so_codec : string;
  so_codec_version : Z
}.

Definition backup_preimage (payloads : list (string * bytes)) (profile_sha : bytes) (s : source) : bytes :=
  BACKUP_DOMAIN ++ lp "gse-backup" ++ be_split 2 1 ++ be_split 2 2
  ++ lp "gse-durable" ++ be_split 2 1 ++ be_split 2 2 ++ profile_sha
  ++ be_split 8 (fst (so_history s)) ++ be_split 8 (snd (so_history s)) ++ be_split 8 (so_sequence s)
  ++ lp (so_storage s) ++ lp (so_schema s) ++ lp (so_codec s)
  ++ be_split 4 (so_codec_version s) ++ be_split 4 (Z.of_nat (length payloads))
  ++ concat (put_payload <$> merge_sort payload_before payloads).

Record backup_report := BackupReport { br_sequence : Z; br_content_identity : string }.

Fixpoint read_bindings (count : nat) (members : gmap string bytes) : reader (list string) :=
  match count with
  | O => ret []
  | S count' =>
      let* name := cursor_string 128 false in
      let* size := uint 8 in
      let* sha := cursor_take 32 in
      do* ensure (match members !! name with
                  | Some data => (Z.of_nat (length data) =? size) && bool_decide (sha256 data = sha)
                  | None => false
                  end) (fault "backup payload binding differs") in
      let* names := read_bindings count' members in
      ret (name :: names)
  end.

(** [{name: members[name] for name in names}] *)
Definition payload_dict (members : gmap string bytes) (names : list string) : list (string * bytes) :=
  fold_left (fun d name => match members !! name with Some data => assoc_set name data d | None => d end) names [].

Definition backup_body (md : metadata) (cp : checkpoint) (members : gmap string bytes) : reader backup_report :=
  let* magic := uint 8 in
  let* major := int 2 in
  let* minor := int 2 in
  let* family := cursor_string 128 false in
  let* source_family := cursor_string 128 false in
  let* source_major := int 2 in
  let* source_minor := int 2 in
  let* binding := cursor_take 32 in
  let* most := uint 8 in
  let* least := uint 8 in
  let* sequence := int 8 in
  let* storage := cursor_string 128 false in
  let* schema := cursor_string 128 false in
  let* codec := cursor_string 128 false in
  let* codec_version := int 4 in
  let* count := uint 4 in
  let* names := read_bindings (Z.to_nat count) members in
  let* identity := cursor_take 32 in
  let* created := int 8 in
  let* request := cursor_string 256 true in
  do* finish in
  do* ensure (((magic =? BACKUP_MAGIC) && (major =? 1) && (minor =? 2) && bool_decide (family = "gse-backup"%string)
               && bool_decide (source_family = "gse-durable"%string) && (source_major =? 1) && (source_minor =? 2))
        && bool_decide (binding = md_profile md)
        && bool_decide ((most, least) = md_history md)
        && bool_decide ((storage, schema, codec, codec_version)
                        = (md_storage md, md_schema md, md_codec md, md_codec_version md))
        && bool_decide (names = ["gse-backup-checkpoint"; "gse-backup-metadata"]%string)
        && (0 <=? created) && (cp_sequence cp =? sequence)
        && bool_decide (identity = sha256 (backup_preimage (payload_dict members names) binding
             (Source (most, least) sequence storage schema codec codec_version))))
    (fault "backup authority differs") in
  ret (BackupReport sequence ("gse-backup-v3-" +:+ hex identity)).

Definition BACKUP_MEMBERS : list string :=
  ["gse-backup-checkpoint"; "gse-backup-manifest"; "gse-backup-metadata"]%string.

Definition inspect_backup (members : gmap string bytes) : result backup_report :=
  do! guard (bool_decide (dom members = list_to_set BACKUP_MEMBERS)) (fault "backup inventory differs") in
  let! metadata_data := member members "gse-backup-metadata" in
  let! md := parse_metadata metadata_data in
  let! checkpoint_data := member members "gse-backup-checkpoint" in
  let! cp := parse_checkpoint checkpoint_data md None in
  let! manifest_data := member members "gse-backup-manifest" in
  let! content := uncheck manifest_data 160 "backup manifest" in
  run_reader (backup_body md cp members) content.

(** ** [inspect_backup_directory] *)

Definition read_member (members : gmap string file) (name : string) : result (string * bytes) :=
  let! data := of_option (match members !! name with Some f => regular_content f | None => None end)
                 (fault "backup member is not a regular file") in
  do! guard (negb (512 * 1024 * 1024 <? Z.of_nat (length data))) (fault "backup member exceeds its inspection bound") in
  Ok (name, data).

Fixpoint read_all {A B} (read : A -> result B) (l : list A) : result (list B) :=
  match l with
  | [] => Ok []
  | x :: l' => let! y := read x in let! ys := read_all read l' in Ok (y :: ys)
  end.

Definition inspect_backup_directory (root : file) : result backup_report :=
  let! members := of_option (folder_members root) (fault "backup path must be a non-symbolic directory") in
  do! guard (bool_decide (dom members = list_to_set BACKUP_MEMBERS)) (fault "backup directory inventory differs") in
  let! contents := read_all (read_member members) BACKUP_MEMBERS in
  inspect_backup (list_to_map contents).

(** ** [fixture] *)

Record Fixture := mkFixture {
  fx_live : list (string * bytes);
  fx_backup : list (string * bytes);
  fx_profile_sha256 : string;
  fx_catalog_identity : string;
  fx_backup_identity : string
}.

Definition most : Z := 0x0011223344556677.
Definition least : Z := 0x8899AABBCCDDEEFF.

Definition put_head (magic : Z) : bytes :=
  be_split 8 magic ++ be_split 2 1 ++ be_split 2 2 ++ be_split 8 most ++ be_split 8 least.

(** [">Qhhhh"] of a derived member, its profile and the history. *)
Definition put_derived_head (magic : Z) : bytes :=
  be_split 8 magic ++ be_split 2 1 ++ be_split 2 0 ++ be_split 2 1 ++ be_split 2 2 ++ profile_digest
  ++ be_split 8 most ++ be_split 8 least ++ be_split 8 7.

Definition put_descriptor (d : descriptor) : bytes := be_split 1 d.1.1 ++ lp d.1.2 ++ lp d.2.

Definition put_identity : bytes := lp "v43-fixture-store" ++ lp "v43-fixture-schema" ++ lp "v43-fixture-codec".

Definition put_component_payload (kind : Z) : bytes :=
  if (1 <=? kind) && (kind <=? 3) then be_split 4 0 else be_split 4 0 ++ be_split 8 0 ++ be_split 4 0 ++ be_split 4 0.

Definition put_component (ordinal : nat) (d : descriptor) (checkpoint_sha : bytes) : bytes :=
  let content :=
    put_derived_head COMPONENT_MAGIC ++ checkpoint_sha ++ put_identity ++ be_split 4 1
    ++ lp GENERATOR ++ be_split 4 GENERATOR_VERSION ++ be_split 4 (Z.of_nat ordinal) ++ be_split 1 d.1.1
    ++ lp d.1.2 ++ lp d.2 ++ be_split 4 0 ++ be_split 4 0 ++ put_component_payload d.1.1 in
  checked (content ++ sha256 (COMPONENT_DOMAIN ++ content)).

Definition fixture_metadata : bytes := checked (
  put_head METADATA_MAGIC ++ lp "gse-durable" ++ be_split 4 (Z.of_nat (length profile_bytes)) ++ profile_bytes
  ++ profile_digest ++ put_identity
  ++ be_split 4 1 ++ be_split 4 1024 ++ be_split 4 4096 ++ be_split 4 1000 ++ be_split 4 10000
  ++ be_split 8 1048576 ++ be_split 8 67108864 ++ be_split 8 33554432 ++ be_split 4 (Z.of_nat (length DESCRIPTORS))
  ++ concat (put_descriptor <$> DESCRIPTORS)).

Definition fixture_checkpoint : bytes := checked (
  put_head CHECKPOINT_MAGIC ++ profile_digest ++ be_split 8 7 ++ be_split 4 0 ++ be_split 4 0
  ++ be_split 4 (Z.of_nat (length DESCRIPTORS)) ++ concat (put_descriptor <$> DESCRIPTORS) ++ be_split 4 0).

Definition fixture_manifest : bytes := checked (
  put_head CHECKPOINT_MANIFEST_MAGIC ++ profile_digest ++ be_split 8 7
  ++ be_split 8 (Z.of_nat (length fixture_checkpoint)) ++ be_split 4 (sealed_checksum fixture_checkpoint)
  ++ lp CHECKPOINT_NAME ++ be_split 8 2 ++ be_split 8 8).

Definition fixture_wal : bytes := checked (put_head WAL_MAGIC ++ profile_digest ++ be_split 8 2 ++ be_split 8 8).

(** [f"{n:0{width}d}"] of a natural number *)
Definition zero_padded (width n : nat) : string :=
  let digits := pretty n in String.string_of_list_ascii (replicate (width - String.length digits) "0"%char) +:+ digits.

Definition component_name (ordinal : nat) : string :=
  "gse-derived-index-" +:+ zero_padded 20 7 +:+ "-" +:+ zero_padded 5 ordinal +:+ "-" +:+ GENERATION +:+ ".idx".

Definition fixture_components : list (string * bytes) :=
  imap (fun ordinal d => (component_name ordinal, put_component ordinal d (sha256 fixture_checkpoint))) DESCRIPTORS.

Definition put_entry (ordinal : nat) (d : descriptor) (c : string * bytes) : bytes :=
  be_split 4 (Z.of_nat ordinal) ++ be_split 1 d.1.1 ++ lp d.1.2 ++ lp d.2 ++ lp c.1
  ++ be_split 8 (Z.of_nat (length c.2)) ++ be_split 4 (sealed_checksum c.2) ++ sha256 c.2.

Definition fixture_catalog_content : bytes :=
  put_derived_head CATALOG_MAGIC ++ lp CHECKPOINT_NAME
  ++ be_split 8 (Z.of_nat (length fixture_checkpoint)) ++ be_split 4 (sealed_checksum fixture_checkpoint)
  ++ sha256 fixture_checkpoint ++ put_identity ++ be_split 4 1
  ++ lp GENERATOR ++ be_split 4 GENERATOR_VERSION ++ be_split 4 0 ++ be_split 4 0
  ++ be_split 4 (Z.of_nat (length DESCRIPTORS))
  ++ concat (imap (fun ordinal p => put_entry ordinal p.1 p.2) (zip DESCRIPTORS fixture_components)).

Definition fixture_source : source := Source (most, least) 7 "v43-fixture-store" "v43-fixture-schema" "v43-fixture-codec" 1.

Definition fixture : Fixture :=
  let catalog_digest := sha256 (CATALOG_DOMAIN ++ fixture_catalog_content) in
  let payloads := [("gse-backup-checkpoint", fixture_checkpoint); ("gse-backup-metadata", fixture_metadata)]%string in
  let backup_digest := sha256 (backup_preimage payloads profile_digest fixture_source) in
  let backup_manifest := checked (
    be_split 8 BACKUP_MAGIC ++ be_split 2 1 ++ be_split 2 2 ++ lp "gse-backup" ++ lp "gse-durable"
    ++ be_split 2 1 ++ be_split 2 2 ++ profile_digest ++ be_split 8 most ++ be_split 8 least ++ be_split 8 7
    ++ put_identity ++ be_split 4 1 ++ be_split 4 2 ++ concat (put_payload <$> payloads)
    ++ backup_digest ++ be_split 8 0 ++ lp "phase2-fixture") in
  mkFixture
    ([("gse.lock", []); ("gse-metadata", fixture_metadata); (CHECKPOINT_NAME, fixture_checkpoint);
      ("gse-checkpoint-manifest", fixture_manifest); (WAL_NAME, fixture_wal)]%string
     ++ fixture_components
     ++ [("gse-derived-manifest"%string, checked (fixture_catalog_content ++ catalog_digest))])
    (payloads ++ [("gse-backup-manifest"%string, backup_manifest)])
    (hex profile_digest) ("gse-derived-catalog-v1-" +:+ hex catalog_digest) ("gse-backup-v3-" +:+ hex backup_digest).

(** ** [load_hex_fixture], [write_fixture] and the [inspect] command *)

Definition load_hex_fixture (root : gmap string file) : result Fixture :=
  let! inventory := read_lines root "fixture-inventory.tsv" in
  let! fx := load_lines fault root ([("gse.lock"%string, [])], []) inventory in
  let! identities := read_lines root "fixture-identities.properties" in
  let! properties := load_properties identities [] in
  let! profile := of_option (assoc_get "profileDigest"%string properties) KeyError in
  let! catalog_identity := of_option (assoc_get "catalogIdentity"%string properties) KeyError in
  let! backup := of_option (assoc_get "backupIdentity"%string properties) KeyError in
  Ok (mkFixture fx.1 fx.2 profile catalog_identity backup).

Definition newline : string := String (ascii_of_nat 10) EmptyString.
Definition tab_text : string := String tab EmptyString.

(** One member as a hexadecimal file, and its inventory line. *)
Definition hex_file (kind : string) (m : string * bytes) : string * string :=
  (kind +:+ "-" +:+ m.1 +:+ ".hex", hex m.2 +:+ newline)%string.
Definition inventory_line (kind : string) (m : string * bytes) : string :=
  join tab_text [kind; m.1; hex (sha256 m.2); kind +:+ "-" +:+ m.1 +:+ ".hex"]%string.

(** The files [write_fixture] leaves in its directory, as text. *)
Definition write_fixture (value : Fixture) : gmap string file :=
  let visible := filter (fun m : string * bytes => m.1 <> "gse.lock"%string) in
  let live := visible (fx_live value) in
  let backup := visible (fx_backup value) in
  let inventory := (inventory_line "live" <$> live) ++ (inventory_line "backup" <$> backup) in
  let files :=
    (hex_file "live" <$> live) ++ (hex_file "backup" <$> backup)
    ++ [("fixture-inventory.tsv",
          join tab_text ["# kind"; "member"; "sha256"; "hex-file"] +:+ newline +:+ join newline inventory +:+ newline);
        ("fixture-identities.properties",
          "profileDigest=" +:+ fx_profile_sha256 value +:+ newline
          +:+ "catalogIdentity=" +:+ fx_catalog_identity value +:+ newline
          +:+ "backupIdentity=" +:+ fx_backup_identity value +:+ newline)]%string in
  list_to_map (rev (prod_map id (fun text => Regular (utf8 text)) <$> files)).

(** [main inspect root]: the frozen identities must be the ones the members have. *)
Definition inspect_root (root : gmap string file) : result unit :=
  let! value := load_hex_fixture root in
  let! live := inspect_live (list_to_map (rev (fx_live value))) in
  let! backup := inspect_backup (list_to_map (rev (fx_backup value))) in
  guard (bool_decide (lr_profile_digest live = fx_profile_sha256 value)
         && bool_decide (ca_identity (lr_catalog live) = fx_catalog_identity value)
         && bool_decide (br_content_identity backup = fx_backup_identity value))
    (fault "frozen identities differ").
