(* ===== verification/V12Proofs.v ===== *)
(** * The derived catalog (1,2): what its identity covers *)

From stdpp Require Import base gmap sets strings list.
From S2P Require Import Prelude Bytes Sha256 Crc32c Wire Files HexFixture DerivedV12.
Import StateNotations ResultNotations.
Local Open Scope py_scope.
Local Open Scope Z_scope.
#[local] Opaque be_split sha256 profile_digest profile_bytes.

(** Two runs of readers on the same bytes read the same fields. *)
Ltac same_reads :=
  repeat match goal with
  | H1 : ?p ?s = (Ok ?a, ?s1), H2 : ?p ?s = (Ok ?b, ?s2) |- _ =>
      rewrite H1 in H2; injection H2 as ?; subst
  | H1 : ensure _ _ _ = (Ok _, _) |- _ => apply ensure_ok in H1 as [? ->]
  | H1 : expect_end _ _ = (Ok _, _) |- _ => apply expect_end_ok in H1 as [-> ->]
  | H1 : liftr _ _ = (Ok _, _) |- _ => apply liftr_ok in H1 as [? ->]
  end.

Lemma uncheck_v12 data minimum name body :
  uncheck data minimum name = Ok body -> sealed data /\ body = sealed_body data /\ (4 <= length data)%nat.
Proof. intros H. unfold uncheck in H. ok_inv H. bool_tac. injection H as <-. done. Qed.

Lemma sealed_body_inj a b :
  (4 <= length a)%nat -> (4 <= length b)%nat -> sealed a -> sealed b -> sealed_body a = sealed_body b -> a = b.
Proof. intros La Lb Sa Sb H. rewrite (seal_sealed a), (seal_sealed b), H by done. done. Qed.

Lemma identified_body data pre identity :
  (4 <= length data)%nat -> sealed_body data = pre ++ identity -> length identity = 32%nat -> identified data = pre.
Proof.
  intros Hl Hb Hi. assert (length (pre ++ identity) = length data - 4)%nat as Hp.
  { rewrite <- Hb. unfold sealed_body. rewrite length_take. lia. }
  rewrite length_app in Hp. unfold identified.
  replace (take (length data - 36) data) with (take (length data - 36) (sealed_body data)).
  - rewrite Hb. replace (length data - 36)%nat with (length pre) by lia. apply take_app_length.
  - unfold sealed_body. rewrite take_take. f_equal. lia.
Qed.

(** ** Entries *)

(** What one catalog entry says of the component [data] it names. *)
Definition entry_names (md : metadata) (cp : checkpoint) (components : gmap string bytes) (n : nat) (f : string)
    (sha : bytes) : Prop :=
  exists data c, components !! f = Some data /\ sha256 data = sha /\ parse_component data md cp n = Ok c.

Lemma parse_component_sha data md cp n c : parse_component data md cp n = Ok c -> co_sha256 c = sha256 data.
Proof. intros H. unfold parse_component in H. ok_inv H. injection H as <-. reflexivity. Qed.

Lemma read_entry_pair md1 cp1 k1 md2 cp2 k2 n s c1 s1 c2 s2 :
  read_entry md1 cp1 k1 n s = (Ok c1, s1) -> read_entry md2 cp2 k2 n s = (Ok c2, s2) ->
  s1 = s2 /\ exists f sha a, entry_names md1 cp1 k1 n f sha /\ entry_names md2 cp2 k2 n f sha /\ s = a ++ s1.
Proof.
  intros H1 H2. unfold read_entry in H1, H2. ok_inv H1. ok_inv H2. subst. same_reads.
  unfold cursor_string, cursor_take in *. fields_inv. bool_tac.
  lazymatch goal with A : parse_component _ md1 _ _ = Ok _, B : parse_component _ md2 _ _ = Ok _ |- _ =>
    pose proof (parse_component_sha _ _ _ _ _ A); pose proof (parse_component_sha _ _ _ _ _ B) end.
  split; [done|]. eexists. exists (co_sha256 c1). eexists. split; [|split; [|rewrite !app_assoc; reflexivity]].
  - do 2 eexists. split_and!; [eassumption|congruence|eassumption].
  - do 2 eexists. split_and!; [eassumption|congruence|eassumption].
Qed.

Lemma read_entries_pair md1 cp1 k1 md2 cp2 k2 ordinals s c1 s1 c2 s2 :
  read_entries md1 cp1 k1 ordinals s = (Ok c1, s1) -> read_entries md2 cp2 k2 ordinals s = (Ok c2, s2) ->
  s1 = s2 /\ (exists a, s = a ++ s1) /\
  exists fs, Forall2 (fun n fsha => entry_names md1 cp1 k1 n fsha.1 fsha.2 /\ entry_names md2 cp2 k2 n fsha.1 fsha.2)
               ordinals fs.
Proof.
  revert s c1 c2. induction ordinals as [|n ordinals IH]; intros s c1 c2 H1 H2; simpl in H1, H2.
  - apply ret_ok in H1 as [_ <-], H2 as [_ <-]. split_and!; [reflexivity|exists []; reflexivity|]. exists []. constructor.
  - ok_inv H1. ok_inv H2. subst.
    match goal with A : read_entry md1 _ _ _ _ = _, B : read_entry md2 _ _ _ _ = _ |- _ =>
      destruct (read_entry_pair _ _ _ _ _ _ _ _ _ _ _ _ A B) as [-> (f & sha & a & E1 & E2 & ->)] end.
    match goal with A : read_entries md1 _ _ _ _ = _, B : read_entries md2 _ _ _ _ = _ |- _ =>
      destruct (IH _ _ _ A B) as (-> & [b ->] & fs & Hfs) end.
    split_and!; [reflexivity| |].
    + exists (a ++ b). rewrite app_assoc. reflexivity.
    + exists ((f, sha) :: fs). constructor; [exact (conj E1 E2)|exact Hfs].
Qed.

(** The component declares its own ordinal. *)
Lemma component_ordinal data md cp n n' c c' :
  parse_component data md cp n = Ok c -> parse_component data md cp n' = Ok c' -> n = n'.
Proof.
  intros H H'. unfold parse_component in H, H'. ok_inv H. ok_inv H'. rewrite Hx in Hx1. injection Hx1 as <-.
  apply run_reader_ok in Hx0 as [s2 R], Hx2 as [s2' R']. unfold component_body in R, R'.
  ok_inv R. ok_inv R'. same_reads. bool_tac. lia.
Qed.

(** ** The catalog *)

Lemma catalog_pair md1 cp1 k1 md2 cp2 k2 content body c1 c2 :
  run_reader (catalog_body md1 cp1 k1 content) body = Ok c1 ->
  run_reader (catalog_body md2 cp2 k2 content) body = Ok c2 ->
  cp_sha256 cp1 = cp_sha256 cp2 /\
  exists fs, Forall2 (fun n fsha => entry_names md1 cp1 k1 n fsha.1 fsha.2 /\ entry_names md2 cp2 k2 n fsha.1 fsha.2)
               (seq 0 4) fs.
Proof.
  intros [t1 H1]%run_reader_ok [t2 H2]%run_reader_ok. unfold catalog_body in H1, H2. ok_inv H1. ok_inv H2. subst. same_reads.
  bool_tac. simplify_eq.
  match goal with A : read_entries md1 _ _ _ _ = _, B : read_entries md2 _ _ _ _ = _ |- _ =>
    destruct (read_entries_pair _ _ _ _ _ _ _ _ _ _ _ _ A B) as (-> & _ & fs & Hfs) end.
  split; [congruence|]. by exists fs.
Qed.

Lemma catalog_identity_field md cp k content body c :
  run_reader (catalog_body md cp k content) body = Ok c ->
  exists pre identity, body = pre ++ identity /\ length identity = 32%nat /\
    identity = sha256 (CATALOG_DOMAIN ++ content) /\ ca_identity c = ("gse-derived-catalog-v1-" +:+ hex identity)%string.
Proof.
  intros [t H]%run_reader_ok. unfold catalog_body in H. ok_inv H. subst.
  match goal with A : read_entries md _ _ _ _ = _ |- _ =>
    destruct (read_entries_pair _ _ _ _ _ _ _ _ _ _ _ _ A A) as (_ & [es ->] & _) end.
  unfold cursor_string, cursor_take, finish in *. fields_inv. bool_tac. subst.
  rewrite app_nil_r, !app_assoc. eexists _, _. split_and!.
  - reflexivity.
  - apply length_sha256.
  - reflexivity.
  - reflexivity.
Qed.

Definition derived (members : gmap string bytes) : gmap string bytes :=
  filter (fun kv : string * bytes => is_component_name kv.1 = true) members.

Lemma inspect_live_ok members r :
  inspect_live members = Ok r ->
  exists md cp cat_data cp_data, members !! CHECKPOINT_NAME = Some cp_data /\ cp_sha256 cp = sha256 cp_data /\
    members !! "gse-derived-manifest"%string = Some cat_data /\
    parse_catalog cat_data md cp (derived members) = Ok (lr_catalog r) /\ size (derived members) = 4%nat.
Proof.
  intros H. unfold inspect_live in H. ok_inv H. unfold member in *. ok_inv Hx. ok_inv Hx1. ok_inv Hx3. bool_tac.
  injection H as <-. exists x0, x2, x3, x1. split_and!; try assumption.
  unfold parse_checkpoint in Hx2. ok_inv Hx2. injection Hx2 as <-. reflexivity.
Qed.

(** The bytes of an accepted catalog, up to a collision, are determined by its identity. *)
Lemma same_catalog d1 md1 cp1 k1 c1 d2 md2 cp2 k2 c2 :
  parse_catalog d1 md1 cp1 k1 = Ok c1 -> parse_catalog d2 md2 cp2 k2 = Ok c2 -> ca_identity c1 = ca_identity c2 ->
  d1 = d2 \/ collides (CATALOG_DOMAIN ++ identified d1) (CATALOG_DOMAIN ++ identified d2).
Proof.
  intros H1 H2 He. unfold parse_catalog in H1, H2. ok_inv H1. ok_inv H2.
  apply uncheck_v12 in Hx as (S1 & -> & L1), Hx0 as (S2 & -> & L2).
  apply catalog_identity_field in H1 as (p1 & i1 & B1 & N1 & I1 & C1), H2 as (p2 & i2 & B2 & N2 & I2 & C2).
  rewrite C1, C2 in He. apply (inj (String.app _)), hex_inj in He.
  pose proof (identified_body _ _ _ L1 B1 N1) as P1. pose proof (identified_body _ _ _ L2 B2 N2) as P2.
  rewrite I1, I2 in He. apply same_digest in He as [He|He]; [left|right; exact He].
  apply app_inv_head in He. apply sealed_body_inj; [assumption..|].
  rewrite B1, B2, I1, I2, <- P1, <- P2, He. reflexivity.
Qed.

(** The names of a list of entries are distinct, since a component declares its own ordinal. *)
Lemma entry_names_inj md cp k n n' f sha sha' :
  entry_names md cp k n f sha -> entry_names md cp k n' f sha' -> n = n'.
Proof.
  intros (d & c & Hd & _ & Hc) (d' & c' & Hd' & _ & Hc'). rewrite Hd in Hd'. injection Hd' as <-.
  exact (component_ordinal _ _ _ _ _ _ _ Hc Hc').
Qed.

Lemma entry_files_NoDup md cp k ordinals fs :
  NoDup ordinals -> Forall2 (fun n fsha => entry_names md cp k n fsha.1 fsha.2) ordinals fs -> NoDup fs.*1.
Proof.
  intros Hn H. induction H as [|n [f sha] ordinals fs Hf H IH]; [constructor|].
  apply NoDup_cons in Hn as [Hn Hd]. simpl. constructor; [|exact (IH Hd)].
  intros ([f' sha'] & -> & Hin)%list_elem_of_fmap. apply list_elem_of_lookup_1 in Hin as [i Hi].
  apply (Forall2_lookup_r _ _ _ _ _ H) in Hi as (n' & Hn' & He).
  rewrite (entry_names_inj _ _ _ _ _ _ _ _ Hf He) in Hn. apply Hn. by eapply list_elem_of_lookup_2.
Qed.

Lemma full_dom {A} (k : gmap string A) (fs : list string) :
  NoDup fs -> Forall (fun f => is_Some (k !! f)) fs -> size k = length fs -> dom k = list_to_set fs.
Proof.
  intros Hn Hf Hs. symmetry. apply set_subseteq_size_eq.
  - intros f Hin%elem_of_list_to_set. rewrite Forall_forall in Hf. apply elem_of_dom, Hf, Hin.
  - rewrite size_dom, Hs, size_list_to_set by done. lia.
Qed.

Lemma derived_member m name data : derived m !! name = Some data -> m !! name = Some data.
Proof. unfold derived. intros H. by apply map_lookup_filter_Some in H as [? _]. Qed.

Lemma derived_lookup m name : is_component_name name = true -> derived m !! name = m !! name.
Proof.
  intros Hn. apply option_eq. intros data. split; [apply derived_member|].
  intros H. apply map_lookup_filter_Some. by split.
Qed.

Lemma not_in_files m fs name :
  NoDup fs -> size (derived m) = length fs -> Forall (fun f => is_Some (derived m !! f)) fs -> name ∉ fs ->
  derived m !! name = None.
Proof.
  intros Hn Hs Hf Hi. apply not_elem_of_dom. rewrite (full_dom _ fs) by done. by rewrite elem_of_list_to_set.
Qed.

(** Two readings of one catalog name the same four files, with the same digests. *)
Lemma catalog_files data md1 cp1 m1 c1 md2 cp2 m2 c2 :
  parse_catalog data md1 cp1 (derived m1) = Ok c1 -> parse_catalog data md2 cp2 (derived m2) = Ok c2 ->
  cp_sha256 cp1 = cp_sha256 cp2 /\
  exists fs, NoDup fs /\ length fs = 4%nat /\
    Forall (fun f => exists a b, derived m1 !! f = Some a /\ derived m2 !! f = Some b /\ sha256 a = sha256 b) fs.
Proof.
  intros H1 H2. unfold parse_catalog in H1, H2. ok_inv H1. ok_inv H2. rewrite Hx in Hx0. injection Hx0 as <-.
  destruct (catalog_pair _ _ _ _ _ _ _ _ _ _ H1 H2) as [Hs (fs & Hf)]. split; [exact Hs|]. exists fs.*1. split_and!.
  - eapply (entry_files_NoDup md1 cp1 (derived m1) (seq 0 4)); [apply NoDup_seq|].
    eapply Forall2_impl; [exact Hf|]. intros n p [Hp _]. exact Hp.
  - rewrite length_fmap. apply Forall2_length in Hf. symmetry. exact Hf.
  - apply Forall_fmap. eapply Forall2_Forall_r; [exact Hf|]. apply Forall_forall.
    intros n _ [f sha] [(a & ? & Ha & Hsa & _) (b & ? & Hb & Hsb & _)]. exists a, b. simpl in *. split_and!; congruence.
Qed.

Lemma some_left (k1 k2 : gmap string bytes) fs :
  Forall (fun f => exists a b, k1 !! f = Some a /\ k2 !! f = Some b /\ sha256 a = sha256 b) fs ->
  Forall (fun f => is_Some (k1 !! f)) fs.
Proof. intros Hf. eapply Forall_impl; [exact Hf|]. intros f (a & _ & H & _). by exists a. Qed.

Lemma some_right (k1 k2 : gmap string bytes) fs :
  Forall (fun f => exists a b, k1 !! f = Some a /\ k2 !! f = Some b /\ sha256 a = sha256 b) fs ->
  Forall (fun f => is_Some (k2 !! f)) fs.
Proof. intros Hf. eapply Forall_impl; [exact Hf|]. intros f (_ & b & _ & H & _). by exists b. Qed.

(** ** Properties of the derived catalog (1,2) *)

#[local] Opaque sha256.

(** The two byte strings whose digests an accepted store compares for one member. *)
Definition member_collision (m1 m2 : gmap string bytes) : Prop :=
  exists name a b, m1 !! name = Some a /\ m2 !! name = Some b /\
    (collides a b \/ collides (CATALOG_DOMAIN ++ identified a) (CATALOG_DOMAIN ++ identified b)).

(** The catalog identity of an accepted live store binds the catalog, the checkpoint and every
    derived index component: two accepted stores that report one catalog identity have the same
    catalog, the same checkpoint and the same set of component files with the same bytes, unless two
    members of the same name are a SHA-256 collision. *)
Theorem catalog_identity_binds m1 m2 r1 r2 :
  inspect_live m1 = Ok r1 -> inspect_live m2 = Ok r2 ->
  ca_identity (lr_catalog r1) = ca_identity (lr_catalog r2) ->
  (m1 !! "gse-derived-manifest"%string = m2 !! "gse-derived-manifest"%string /\
   m1 !! CHECKPOINT_NAME = m2 !! CHECKPOINT_NAME /\
   forall name, is_component_name name = true -> m1 !! name = m2 !! name)
  \/ member_collision m1 m2.
Proof.
  intros (md1 & cp1 & d1 & k1 & K1 & S1 & D1 & P1 & Z1)%inspect_live_ok
         (md2 & cp2 & d2 & k2 & K2 & S2 & D2 & P2 & Z2)%inspect_live_ok He.
  destruct (same_catalog _ _ _ _ _ _ _ _ _ _ P1 P2 He) as [->|Hc];
    [|right; exists "gse-derived-manifest"%string, d1, d2; split; [exact D1|split; [exact D2|right; exact Hc]]].
  destruct (catalog_files _ _ _ _ _ _ _ _ _ P1 P2) as (Hs & fs & Hn & Hl & Hf).
  rewrite S1, S2 in Hs. apply same_digest in Hs as [->|Hc];
    [|right; exists CHECKPOINT_NAME, k1, k2; split; [exact K1|split; [exact K2|left; exact Hc]]].
  destruct (decide (Forall (fun f => derived m1 !! f = derived m2 !! f) fs)) as [Ha|Ha].
  - left. split; [congruence|]. split; [congruence|]. intros name Hname.
    rewrite <- (derived_lookup m1 _ Hname), <- (derived_lookup m2 _ Hname).
    destruct (decide (name ∈ fs)) as [Hin|Hin]; [rewrite Forall_forall in Ha; exact (Ha _ Hin)|].
    rewrite (not_in_files m1 fs name Hn (eq_trans Z1 (eq_sym Hl)) (some_left _ _ _ Hf) Hin).
    rewrite (not_in_files m2 fs name Hn (eq_trans Z2 (eq_sym Hl)) (some_right _ _ _ Hf) Hin). reflexivity.
  - right. apply not_Forall_Exists, Exists_exists in Ha as (f & Hin & Hne); [|intros ?; apply _].
    rewrite Forall_forall in Hf. destruct (Hf _ Hin) as (a & b & Hda & Hdb & Hab).
    exists f, a, b. split; [exact (derived_member _ _ _ Hda)|]. split; [exact (derived_member _ _ _ Hdb)|].
    left. apply same_digest in Hab as [->|Hc]; [|exact Hc]. destruct Hne. simpl. congruence.
Qed.

Definition fixture_live : gmap string bytes := list_to_map (fx_live fixture).

Lemma catalog_identity_binds_witness :
  exists r, inspect_live fixture_live = Ok r /\
    ((fixture_live !! "gse-derived-manifest"%string = fixture_live !! "gse-derived-manifest"%string /\
      fixture_live !! CHECKPOINT_NAME = fixture_live !! CHECKPOINT_NAME /\
      forall name, is_component_name name = true -> fixture_live !! name = fixture_live !! name)
     \/ member_collision fixture_live fixture_live).
Proof.
  assert (exists r, inspect_live fixture_live = Ok r) as [r Hr] by (eexists; vm_compute; reflexivity).
  exists r. split; [exact Hr|]. exact (catalog_identity_binds fixture_live fixture_live r r Hr Hr eq_refl).
Defined.
