(* ===== verification/Json.v ===== *)
(** * Canonical JSON text

    [json.dumps(value, sort_keys=True, separators=(",", ":"))] with the default [ensure_ascii], for
    values built from null, booleans, integers, strings, lists and string-keyed objects. *)

From Stdlib Require Import Ascii.
From stdpp Require Import base list strings sorting pretty.
From S2P Require Import Prelude Bytes Files.
Local Open Scope Z_scope.

Inductive json : Type :=
  | JNull
  | JBool (b : bool)
  | JInt (z : Z)
  | JString (s : string)
  | JArray (l : list json)
  | JObject (m : list (string * json)).

(** The code points of a well-formed UTF-8 string. *)
Fixpoint code_points (bs : bytes) : list Z :=
  match bs with
  | [] => []
  | a :: r =>
      if between 0 127 a then b2z a :: code_points r else
      match r with
      | [] => []
      | b :: r =>
          if b2z a <? 224 then ((b2z a - 192) * 64 + (b2z b - 128)) :: code_points r else
          match r with
          | [] => []
          | c :: r =>
              if b2z a <? 240 then (((b2z a - 224) * 64 + (b2z b - 128)) * 64 + (b2z c - 128)) :: code_points r else
              match r with
              | [] => []
              | d :: r =>
                  ((((b2z a - 240) * 64 + (b2z b - 128)) * 64 + (b2z c - 128)) * 64 + (b2z d - 128)) :: code_points r
              end
          end
      end
  end.

Definition quote_char : string := String (ascii_of_nat 34) EmptyString.
Definition backslash : string := String (ascii_of_nat 92) EmptyString.
Definition hex4 (z : Z) : string := hex (be_split 2 z).
Definition unicode_escape (z : Z) : string := backslash +:+ "u" +:+ hex4 z.

Definition escape (z : Z) : string :=
  if z =? 34 then backslash +:+ quote_char
  else if z =? 92 then backslash +:+ backslash
  else if z =? 10 then backslash +:+ "n"
  else if z =? 13 then backslash +:+ "r"
  else if z =? 9 then backslash +:+ "t"
  else if z =? 12 then backslash +:+ "f"
  else if z =? 8 then backslash +:+ "b"
  else if (32 <=? z) && (z <=? 126) then String (ascii_of_N (Z.to_N z)) EmptyString
  else if z <? 65536 then unicode_escape z
  else unicode_escape (55296 + (z - 65536) / 1024) +:+ unicode_escape (56320 + (z - 65536) mod 1024).

Definition quote (s : string) : string :=
  quote_char +:+ join "" (escape <$> code_points (utf8 s)) +:+ quote_char.

Definition member_le (a b : string * string) : Prop := string_le a.1 b.1.
#[export] Instance member_le_dec : RelDecision member_le.
Proof. intros a b. unfold member_le. apply _. Defined.

Definition render_member (kv : string * string) : string := quote kv.1 +:+ ":" +:+ kv.2.

Fixpoint dumps (j : json) : string :=
  match j with
  | JNull => "null"
  | JBool true => "true"
  | JBool false => "false"
  | JInt z => pretty z
  | JString s => quote s
  | JArray l => "[" +:+ join "," (map dumps l) +:+ "]"
  | JObject m =>
      "{" +:+ join "," (render_member <$> merge_sort member_le (map (fun kv => (fst kv, dumps (snd kv))) m)) +:+ "}"
  end.

(** [a == b] of JSON values: whatever the order of members, and with [True == 1] and [False == 0] *)
Fixpoint numbers (j : json) : json :=
  match j with
  | JBool b => JInt (if b then 1 else 0)
  | JArray l => JArray (numbers <$> l)
  | JObject m => JObject ((fun kv : string * json => (kv.1, numbers kv.2)) <$> m)
  | _ => j
  end.
Definition json_eqb (a b : json) : bool := bool_decide (dumps (numbers a) = dumps (numbers b)).

Example dumps_sorted :
  dumps (JObject [("b"%string, JArray [JInt (-3); JNull]); ("a"%string, JString (str_of_bytes (be_split 3 0xE282AC)))])
  = ("{" +:+ quote "a" +:+ ":" +:+ quote_char +:+ backslash +:+ "u20ac" +:+ quote_char +:+ ","
     +:+ quote "b" +:+ ":[-3,null]}")%string.
Proof. vm_compute. reflexivity. Qed.

(** ** Parsing

    [json.loads] on text without fractions, exponents, [NaN] and [Infinity], which a value here cannot be,
    and without unpaired surrogates, which have no UTF-8 text.  The modelled scripts compare the texts of
    their formats with the canonical text of the value, and their fields are of the types here, so they
    reject a text outside this fragment as well; the two places where one may stand in an accepted text
    are a free string of a script and the index descriptor of the recovery oracle. *)

(** The UTF-8 bytes of a code point. *)
Definition utf8_point (z : Z) : bytes :=
  if z <? 128 then [z2b z]
  else if z <? 2048 then [z2b (192 + z / 64); z2b (128 + z mod 64)]
  else if z <? 65536 then [z2b (224 + z / 4096); z2b (128 + z / 64 mod 64); z2b (128 + z mod 64)]
  else [z2b (240 + z / 262144); z2b (128 + z / 4096 mod 64); z2b (128 + z / 64 mod 64); z2b (128 + z mod 64)].

Definition hex_quad (s : string) : option (Z * string) :=
  match s with
  | String a (String b (String c (String d s'))) =>
      match hex_value a, hex_value b, hex_value c, hex_value d with
      | Some x, Some y, Some z, Some w => Some (((x * 16 + y) * 16 + z) * 16 + w, s')
      | _, _, _, _ => None
      end
  | _ => None
  end.

(** The characters of a string literal up to its closing quote. *)
Fixpoint parse_chars (fuel : nat) (s : string) : option (bytes * string) :=
  match fuel, s with
  | S fuel', String c s' =>
      let more (bs : bytes) (rest : string) :=
        option_map (fun p : bytes * string => (bs ++ p.1, p.2)) (parse_chars fuel' rest) in
      if code c =? 34 then Some ([], s')
      else if code c =? 92 then
        match s' with
        | String e s'' =>
            match code e with
            | 34 | 92 | 47 => more [z2b (code e)] s''
            | 98 => more [z2b 8] s''
            | 102 => more [z2b 12] s''
            | 110 => more [z2b 10] s''
            | 114 => more [z2b 13] s''
            | 116 => more [z2b 9] s''
            | 117 =>
                match hex_quad s'' with
                | Some (hi, rest) =>
                    if (hi <? 55296) || (57343 <? hi) then more (utf8_point hi) rest
                    else if hi <? 56320 then
                      match rest with
                      | String e1 (String e2 rest') =>
                          if (code e1 =? 92) && (code e2 =? 117) then
                            match hex_quad rest' with
                            | Some (lo, rest'') =>
                                if (56320 <=? lo) && (lo <=? 57343)
                                then more (utf8_point (65536 + (hi - 55296) * 1024 + (lo - 56320))) rest''
                                else None
                            | None => None
                            end
                          else None
                      | _ => None
                      end
                    else None
                | None => None
                end
            | _ => None
            end
        | EmptyString => None
        end
      else if code c <? 32 then None
      else more [z2b (code c)] s'
  | _, _ => None
  end.

(** White space between the tokens *)
Definition is_space (c : ascii) : bool := (code c =? 32) || (code c =? 9) || (code c =? 10) || (code c =? 13).
Fixpoint skip_space (s : string) : string :=
  match s with
  | String c s' => if is_space c then skip_space s' else s
  | EmptyString => EmptyString
  end.

Fixpoint span_digits (s : string) : string * string :=
  match s with
  | String c s' => if is_digit c then let p := span_digits s' in (String c p.1, p.2) else (EmptyString, s)
  | EmptyString => (EmptyString, EmptyString)
  end.

Definition parse_natural (s : string) : option (Z * string) :=
  match span_digits s with
  | (EmptyString, _) => None
  | (String c (String _ _) as ds, rest) => if code c =? 48 then None else Some (decimal 0 ds, rest)
  | (ds, rest) => Some (decimal 0 ds, rest)
  end.

(** A value, white space before it; [parse_items] and [parse_members] read the rest of a list and of an
    object. *)
Fixpoint parse_value (fuel : nat) (s : string) : option (json * string) :=
  match fuel, skip_space s with
  | S fuel', String c s' as t =>
      match code c with
      | 34 => option_map (fun p : bytes * string => (JString (str_of_bytes p.1), p.2)) (parse_chars (String.length t) s')
      | 91 =>
          match skip_space s' with
          | String d s'' => if code d =? 93 then Some (JArray [], s'') else parse_items fuel' s' []
          | EmptyString => None
          end
      | 123 =>
          match skip_space s' with
          | String d s'' => if code d =? 125 then Some (JObject [], s'') else parse_members fuel' s' []
          | EmptyString => None
          end
      | 45 => option_map (fun p : Z * string => (JInt (- p.1), p.2)) (parse_natural s')
      | 110 => option_map (fun r => (JNull, r)) (strip_prefix "null" t)
      | 116 => option_map (fun r => (JBool true, r)) (strip_prefix "true" t)
      | 102 => option_map (fun r => (JBool false, r)) (strip_prefix "false" t)
      | _ => option_map (fun p : Z * string => (JInt p.1, p.2)) (parse_natural t)
      end
  | _, _ => None
  end
with parse_items (fuel : nat) (s : string) (items : list json) : option (json * string) :=
  match fuel with
  | O => None
  | S fuel' =>
      match parse_value fuel' s with
      | Some (v, rest) =>
          match skip_space rest with
          | String d s' =>
              if code d =? 44 then parse_items fuel' s' (items ++ [v])
              else if code d =? 93 then Some (JArray (items ++ [v]), s')
              else None
          | EmptyString => None
          end
      | None => None
      end
  end
with parse_members (fuel : nat) (s : string) (members : list (string * json)) : option (json * string) :=
  match fuel, skip_space s with
  | S fuel', String q s' as t =>
      if code q =? 34 then
        match parse_chars (String.length t) s' with
        | Some (key, after) =>
            match skip_space after with
            | String colon s'' =>
                if code colon =? 58 then
                  match parse_value fuel' s'' with
                  | Some (v, after) =>
                      match skip_space after with
                      | String d rest =>
                          let members' := assoc_set (str_of_bytes key) v members in
                          if code d =? 44 then parse_members fuel' rest members'
                          else if code d =? 125 then Some (JObject members', rest)
                          else None
                      | EmptyString => None
                      end
                  | None => None
                  end
                else None
            | EmptyString => None
            end
        | None => None
        end
      else None
  | _, _ => None
  end.

(** The whole text is one value, white space around it; each step of the parser consumes a character, and
    a value takes at most two steps per character. *)
Definition loads (s : string) : option json :=
  match parse_value (2 * String.length s + 2) s with
  | Some (v, rest) => match skip_space rest with EmptyString => Some v | String _ _ => None end
  | None => None
  end.

Example loads_dumps :
  let j := JObject [("a"%string, JArray [JInt (-30); JNull; JBool true; JObject []; JArray []]);
                    ("b"%string, JString (str_of_bytes (be_split 3 0xE282AC ++ be_split 4 0xF09F9880 ++ be_split 2 0x0A22)))] in
  loads (dumps j) = Some j.
Proof. vm_compute. reflexivity. Qed.
Example loads_spaced :
  let q := quote_char in
  loads (" { " +:+ q +:+ "b" +:+ q +:+ " : [ 1 , -0 ], " +:+ q +:+ "a" +:+ q +:+ ":[ ] , " +:+ q +:+ "b" +:+ q +:+ ":{ } }  ")
  = Some (JObject [("b", JObject []); ("a", JArray [])])%string /\
  loads "1 2" = None /\ loads "[1,]" = None /\ loads "[01]" = None /\ loads " " = None.
Proof. vm_compute. split_and!; reflexivity. Qed.
