(* ===== verification/Transport.v ===== *)
(** * The deterministic message schedule ([scripts/v50/deterministic_transport.py])

    Scheduling with its capacity bounds, the replay of a schedule with drops, duplicates and link
    faults, and the canonical trace document.  A payload is any type that has a JSON value. *)

From Stdlib Require Import Ascii.
From stdpp Require Import base gmap sets strings list sorting pretty.
From S2P Require Import Prelude Bytes Sha256 Files Json.
Import StateNotations ResultNotations.
Local Open Scope py_scope.
Local Open Scope Z_scope.

Definition MAX_EVENTS : Z := 10000.
Definition MAX_TRACE_BYTES : Z := 8 * 1024 * 1024.

Class Payload (P : Type) := payload_json : P -> json.

(** ** [Delivery] *)

Record delivery := Delivery {
  d_trace : string;
  d_sequence : Z;
  d_source : string;
  d_target : string;
  d_type : string;
  d_digest : string;
  d_action : string;
  d_ticks : Z
}.

#[export] Instance delivery_eq_dec : EqDecision delivery.
Proof. solve_decision. Defined.

Definition ACTIONS : list string := ["deliver"; "drop"; "duplicate"; "disconnect"; "reconnect"].
Definition nonempty (s : string) : bool := negb (bool_decide (s = ""%string)).

(** [Delivery.__post_init__] *)
Definition delivery_post_init (d : delivery) : result delivery :=
  do! guard (bool_decide (d_action d ∈ ACTIONS)) (ValueError "unsupported deterministic action") in
  do! guard ((0 <=? d_sequence d) && (0 <=? d_ticks d) && (d_ticks d <=? 1000000))
    (ValueError "schedule counters must not be negative") in
  do! guard (forallb nonempty [d_trace d; d_source d; d_target d; d_type d; d_digest d])
    (ValueError "event identities must be nonempty strings") in
  Ok d.

(** [asdict(event)] *)
Definition delivery_json (d : delivery) : json := JObject [
  ("trace_id"%string, JString (d_trace d)); ("sequence"%string, JInt (d_sequence d));
  ("source"%string, JString (d_source d)); ("target"%string, JString (d_target d));
  ("message_type"%string, JString (d_type d)); ("payload_digest"%string, JString (d_digest d));
  ("action"%string, JString (d_action d)); ("delay_ticks"%string, JInt (d_ticks d))].

Definition text_length (s : string) : Z := Z.of_nat (String.length s).
Definition event_size (d : delivery) : Z := text_length (dumps (delivery_json d)) + 1.

Section Transport.
Context {P : Type} `{Payload P}.

(** ** [DeterministicTransport] *)

Record transport := Transport {
  t_trace : string;
  t_events : list delivery;
  t_payloads : gmap string P;
  t_payload_bytes : Z;
  t_event_bytes : Z
}.

(** [DeterministicTransport(trace_id)] *)
Definition new_transport (trace_id : string) : result transport :=
  do! guard (nonempty trace_id) (ValueError "trace_id is required") in Ok (Transport trace_id [] ∅ 0 0).

Definition set_payload_bytes (n : Z) (t : transport) : transport :=
  Transport (t_trace t) (t_events t) (t_payloads t) n (t_event_bytes t).
Definition add_event (d : delivery) (t : transport) : transport :=
  Transport (t_trace t) (t_events t ++ [d]) (t_payloads t) (t_payload_bytes t) (t_event_bytes t + event_size d).
Definition set_payload (digest : string) (p : P) (t : transport) : transport :=
  Transport (t_trace t) (t_events t) (<[digest := p]> (t_payloads t)) (t_payload_bytes t) (t_event_bytes t).

Definition T := ST transport.

Definition schedule (source target message_type payload_digest action : string) (delay_ticks : Z) : T delivery :=
  let* t := get in
  do* liftr (guard (Z.of_nat (length (t_events t)) <? MAX_EVENTS) (ValueError "trace event capacity exceeded")) in
  let* event := liftr (delivery_post_init (Delivery (t_trace t) (Z.of_nat (length (t_events t))) source target
                         message_type payload_digest action delay_ticks)) in
  do* liftr (guard (negb (MAX_TRACE_BYTES <? t_event_bytes t + t_payload_bytes t + event_size event + 512))
        (ValueError "trace byte capacity exceeded")) in
  do* modify (add_event event) in
  ret event.

Definition payload_digest (p : P) : string := hex (sha256 (utf8 (dumps (payload_json p)))).
Definition payload_size (p : P) : Z := text_length (dumps (payload_json p)) + text_length (payload_digest p) + 4.

(** [try: m except ValueError: handler; raise] *)
Definition on_value_error {A} (m : T A) (handler : transport -> transport) : T A := fun t =>
  match m t with
  | (Err (ValueError msg), t') => (Err (ValueError msg), handler t')
  | r => r
  end.

Definition message (source target message_type : string) (p : P) (action : string) (delay_ticks : Z) : T delivery :=
  let raw := dumps (payload_json p) in
  do* liftr (guard (negb (MAX_TRACE_BYTES <? text_length raw)) (ValueError "payload capacity exceeded")) in
  let digest := payload_digest p in
  let* t := get in
  let new_bytes := if bool_decide (is_Some (t_payloads t !! digest)) then 0 else payload_size p in
  do* modify (fun t => set_payload_bytes (t_payload_bytes t + new_bytes) t) in
  let* event := on_value_error (schedule source target message_type digest action delay_ticks)
                  (fun t => set_payload_bytes (t_payload_bytes t - new_bytes) t) in
  do* modify (set_payload digest p) in
  ret event.

(** [payload]: a deep copy of the stored value. *)
Definition payload_of (t : transport) (event : delivery) : result P :=
  of_option (t_payloads t !! d_digest event) (ValueError "trace lacks replay payload").

(** ** [replay] *)

Definition event_le (a b : delivery) : Prop :=
  d_ticks a < d_ticks b \/ (d_ticks a = d_ticks b /\ d_sequence a <= d_sequence b).
#[local] Instance event_le_dec : RelDecision event_le.
Proof. intros a b. unfold event_le. apply _. Defined.

Definition replay_order (t : transport) : list delivery := merge_sort event_le (t_events t).

Definition link (d : delivery) : string * string :=
  if String.leb (d_source d) (d_target d) then (d_source d, d_target d) else (d_target d, d_source d).

Inductive outcome (V : Type) : Type :=
  | Linked (action : string)
  | Dropped
  | Delivered (copy : nat) (value : V)
  | RejectedCopy (copy : nat) (reason : string).
Arguments Linked {V}.
Arguments Dropped {V}.
Arguments Delivered {V}.
Arguments RejectedCopy {V}.

Record row (V : Type) := Row { r_sequence : Z; r_tick : Z; r_outcome : outcome V }.
Arguments Row {V}.

Section Replay.
Context {S V : Type} (receive : delivery -> ST S V).

(** One copy: a [ValueError] is recorded, any other exception ends the replay. *)
Definition deliver_copy (event : delivery) (copy : nat) : ST S (row V) := fun s =>
  match receive event s with
  | (Ok value, s') => (Ok (Row (d_sequence event) (d_ticks event) (Delivered copy value)), s')
  | (Err (ValueError reason), s') => (Ok (Row (d_sequence event) (d_ticks event) (RejectedCopy copy reason)), s')
  | (Err e, s') => (Err e, s')
  end.

Fixpoint deliver_copies (event : delivery) (copies : list nat) : ST S (list (row V)) :=
  match copies with
  | [] => ret []
  | c :: copies' => let* r := deliver_copy event c in let* rs := deliver_copies event copies' in ret (r :: rs)
  end.

Fixpoint replay_loop (events : list delivery) (disconnected : gset (string * string)) (transcript : list (row V))
    : ST S (list (row V)) :=
  match events with
  | [] => ret transcript
  | event :: events' =>
      let note := fun o => Row (d_sequence event) (d_ticks event) o in
      if bool_decide (d_action event = "disconnect"%string) then
        replay_loop events' (disconnected ∪ {[link event]}) (transcript ++ [note (Linked "disconnect")])
      else if bool_decide (d_action event = "reconnect"%string) then
        replay_loop events' (disconnected ∖ {[link event]}) (transcript ++ [note (Linked "reconnect")])
      else if bool_decide (d_action event = "drop"%string) || bool_decide (link event ∈ disconnected) then
        replay_loop events' disconnected (transcript ++ [note Dropped])
      else
        let copies := if bool_decide (d_action event = "duplicate"%string) then [0%nat; 1%nat] else [0%nat] in
        let* rows := deliver_copies event copies in
        replay_loop events' disconnected (transcript ++ rows)
  end.

Definition replay (t : transport) : ST S (list (row V)) := replay_loop (replay_order t) ∅ [].
End Replay.

(** ** The trace document *)

Definition SCHEMA : string := "gse-v50-network-trace-v1".

Record document := Document {
  doc_schema : string;
  doc_trace : string;
  doc_events : list delivery;
  doc_payloads : list (string * P)
}.

Definition to_document (t : transport) : document :=
  Document SCHEMA (t_trace t) (t_events t) (map_to_list (t_payloads t)).

Definition document_json (d : document) : json := JObject [
  ("schemaVersion"%string, JString (doc_schema d));
  ("traceId"%string, JString (doc_trace d));
  ("events"%string, JArray (delivery_json <$> doc_events d));
  ("payloads"%string, JObject ((fun kp : string * P => (kp.1, payload_json kp.2)) <$> doc_payloads d))].

Definition to_json (t : transport) : result string :=
  let raw := dumps (document_json (to_document t)) in
  do! guard (negb (MAX_TRACE_BYTES <? text_length raw)) (ValueError "trace byte capacity exceeded") in
  Ok raw.

Definition load_payload (kp : string * P) : T unit :=
  do* liftr (guard (bool_decide (payload_digest kp.2 = kp.1)) (ValueError "trace payload digest mismatch")) in
  modify (fun t => set_payload_bytes (t_payload_bytes t + payload_size kp.2) (set_payload kp.1 kp.2 t)).

Definition load_event (raw_event : delivery) : T unit :=
  let* event := liftr (delivery_post_init raw_event) in
  let* t := get in
  do* liftr (guard (bool_decide (d_trace event = t_trace t)
        && (d_sequence event =? Z.of_nat (length (t_events t))))
      (ValueError "non-canonical trace identity or sequence")) in
  let* _ := schedule (d_source event) (d_target event) (d_type event) (d_digest event) (d_action event) (d_ticks event) in
  ret tt.

(** [from_json] of a text of [size] bytes that [json.loads] reads as [d]. *)
Definition from_json (size : Z) (d : document) : result transport :=
  do! guard (negb (MAX_TRACE_BYTES <? size)) (ValueError "trace byte capacity exceeded") in
  do! guard (bool_decide (doc_schema d = SCHEMA)) (ValueError "unsupported trace schema") in
  let! t := new_transport (doc_trace d) in
  do! guard (Z.of_nat (length (doc_events d)) <=? MAX_EVENTS) (ValueError "trace event capacity exceeded") in
  match (do* for_each (doc_payloads d) load_payload in for_each (doc_events d) load_event) t with
  | (Ok _, t') => Ok t'
  | (Err e, _) => Err e
  end.
End Transport.
Arguments transport P : clear implicits.
Arguments document P : clear implicits.
Arguments Linked {V}.
Arguments Dropped {V}.
Arguments Delivered {V}.
Arguments RejectedCopy {V}.
Arguments Row {V}.
