(* ===== verification/TransportProofs.v ===== *)
(** * The capacity accounting and the trace round trip of the deterministic transport *)

From Stdlib Require Import Ascii.
From stdpp Require Import base gmap sets strings list sorting pretty.
From S2P Require Import Prelude Bytes Sha256 Files Json Transport.
Import StateNotations ResultNotations.
Local Open Scope py_scope.
Local Open Scope Z_scope.

(** ** Sizes *)

Definition zsum (l : list Z) : Z := fold_right Z.add 0 l.

Lemma zsum_cons x l : zsum (x :: l) = x + zsum l.
Proof. done. Qed.

Lemma zsum_app l1 l2 : zsum (l1 ++ l2) = zsum l1 + zsum l2.
Proof. induction l1 as [|x l1 IH]; simpl; [done|lia]. Qed.

#[export] Instance zsum_perm : Proper (Permutation ==> eq) zsum.
Proof. intros l1 l2 H. induction H; simpl; lia. Qed.

Lemma zsum_nonneg l : Forall (fun x => 0 <= x) l -> 0 <= zsum l.
Proof. induction 1; simpl; lia. Qed.

Lemma text_length_app s1 s2 : text_length (s1 +:+ s2) = text_length s1 + text_length s2.
Proof. unfold text_length. induction s1 as [|a s1 IH]; simpl in *; [done|]. lia. Qed.

Lemma text_length_nonneg s : 0 <= text_length s.
Proof. unfold text_length. lia. Qed.

(** A comma-separated text takes one byte more per part, at most. *)
Lemma text_length_join (parts : list string) : text_length (join "," parts) <= zsum ((fun s => text_length s + 1) <$> parts).
Proof.
  induction parts as [|p parts IH]; [done|]. destruct parts as [|q parts].
  - simpl. pose proof (text_length_nonneg p). lia.
  - change (join "," (p :: q :: parts)) with (p +:+ "," +:+ join "," (q :: parts)).
    rewrite !text_length_app. change (text_length ",") with 1.
    change ((fun s : string => text_length s + 1) <$> p :: q :: parts)
      with ((text_length p + 1) :: ((fun s : string => text_length s + 1) <$> q :: parts)).
    cbn [zsum fold_right] in *. fold (zsum ((fun s => text_length s + 1) <$> (q :: parts))). lia.
Qed.

Lemma length_hex bs : text_length (hex bs) = 2 * Z.of_nat (length bs).
Proof. unfold text_length. induction bs as [|b bs IH]; [done|]. cbn [hex String.length length]. lia. Qed.

(** Hexadecimal text needs no escapes. *)
Lemma quote_hex bs : text_length (quote (hex bs)) = 2 * Z.of_nat (length bs) + 2.
Proof.
  unfold quote. rewrite !text_length_app. change (text_length quote_char) with 1.
  enough (text_length (join "" (escape <$> code_points (utf8 (hex bs)))) = 2 * Z.of_nat (length bs)) by lia.
  assert (forall a l, join "" (a :: l) = (a +:+ join "" l)%string) as Hj.
  { intros a [|b l]; [|done]. cbn [join]. by rewrite append_nil_r. }
  induction bs as [|b bs IH]; [done|].
  assert (forall z s, 0 <= z < 16 -> text_length (join "" (escape <$> code_points (utf8 (String (hex_digit z) s))))
    = 1 + text_length (join "" (escape <$> code_points (utf8 s)))) as Hd.
  { intros z s Hz.
    assert (In z (map Z.of_nat (seq 0 16))) as Hin by (apply in_map_iff; exists (Z.to_nat z); split; [lia|apply in_seq; lia]).
    rewrite utf8_cons. vm_compute in Hin. generalize (utf8 s). intros bs'.
    repeat destruct Hin as [<- | Hin]; try done.
    all: match goal with |- context [escape <$> code_points (?b :: ?r)] =>
      let c := eval vm_compute in (head (code_points [b])) in
      match c with Some ?z => change (escape <$> code_points (b :: r)) with (escape z :: (escape <$> code_points r)) end end.
    all: rewrite Hj, text_length_app; reflexivity. }
  pose proof (b2z_range b). cbn [hex]. rewrite !Hd, IH.
  - cbn [length]. lia.
  - apply Z.mod_pos_bound. lia.
  - split; [apply Z.div_pos; lia | apply Z.div_lt_upper_bound; lia].
Qed.

Section Proofs.
Context {P : Type} `{Payload P}.
Implicit Types (t : transport P) (d : delivery) (p : P).

Lemma length_digest p : text_length (payload_digest p) = 64.
Proof. unfold payload_digest. by rewrite length_hex, length_sha256. Qed.

Lemma quote_digest p : text_length (quote (payload_digest p)) = 66.
Proof. unfold payload_digest. by rewrite quote_hex, length_sha256. Qed.

Lemma payload_size_nonneg p : 0 <= payload_size p.
Proof. unfold payload_size. pose proof (text_length_nonneg (dumps (payload_json p))). rewrite length_digest. lia. Qed.

Lemma event_size_nonneg d : 0 <= event_size d.
Proof. unfold event_size. pose proof (text_length_nonneg (dumps (delivery_json d))). lia. Qed.

Lemma dumps_document (d : document P) :
  dumps (document_json d) =
    "{" +:+ (render_member ("events"%string, dumps (JArray (delivery_json <$> doc_events d))) +:+ "," +:+
    (render_member ("payloads"%string, dumps (JObject ((fun kp : string * P => (kp.1, payload_json kp.2)) <$> doc_payloads d))) +:+ "," +:+
    (render_member ("schemaVersion"%string, quote (doc_schema d)) +:+ "," +:+
     render_member ("traceId"%string, quote (doc_trace d))))) +:+ "}".
Proof.
  unfold document_json. generalize (JArray (delivery_json <$> doc_events d)).
  generalize (JObject ((fun kp : string * P => (kp.1, payload_json kp.2)) <$> doc_payloads d)).
  intros ps es. reflexivity.
Qed.

Lemma text_length_array (l : list json) :
  text_length (dumps (JArray l)) <= 2 + zsum ((fun j => text_length (dumps j) + 1) <$> l).
Proof.
  cbn [dumps]. rewrite !text_length_app. change (text_length "[") with 1. change (text_length "]") with 1.
  pose proof (text_length_join (map dumps l)) as Hj. rewrite <- list_fmap_compose in Hj. unfold compose in Hj.
  cbn in Hj |- *. lia.
Qed.

Lemma text_length_object (l : list (string * json)) :
  text_length (dumps (JObject l)) <= 2 + zsum ((fun kv => text_length (quote kv.1) + 2 + text_length (dumps kv.2)) <$> l).
Proof.
  cbn [dumps]. rewrite !text_length_app. change (text_length "{") with 1. change (text_length "}") with 1.
  set (l' := map (fun kv => (fst kv, dumps (snd kv))) l).
  pose proof (text_length_join (render_member <$> merge_sort member_le l')) as Hj.
  rewrite (merge_sort_Permutation member_le l') in Hj at 2.
  enough (zsum ((fun s => text_length s + 1) <$> (render_member <$> l'))
    = zsum ((fun kv => text_length (quote kv.1) + 2 + text_length (dumps kv.2)) <$> l)) by lia.
  unfold l'. clear. induction l as [|[k v] l IH]; [done|]. cbn [map]. rewrite !fmap_cons, !zsum_cons, IH.
  unfold render_member. cbn [fst snd]. rewrite !text_length_app. change (text_length ":") with 1. lia.
Qed.

(** ** The accounting invariant *)

Record accounted t : Prop := {
  ac_events : forall i d, t_events t !! i = Some d ->
    d_trace d = t_trace t /\ d_sequence d = Z.of_nat i /\ delivery_post_init d = Ok d;
  ac_count : Z.of_nat (length (t_events t)) <= MAX_EVENTS;
  ac_event_bytes : t_event_bytes t = zsum (event_size <$> t_events t);
  ac_keys : forall k p, t_payloads t !! k = Some p -> payload_digest p = k;
  ac_payload_bytes : t_payload_bytes t = zsum (payload_size <$> (map_to_list (t_payloads t)).*2);
  ac_empty : t_events t = [] -> t_payloads t = ∅;
  ac_capacity : t_events t <> [] -> t_event_bytes t + t_payload_bytes t + 512 <= MAX_TRACE_BYTES;
  ac_trace : t_trace t <> ""%string
}.

Lemma schedule_spec source target ty digest action ticks t :
  (exists d, schedule source target ty digest action ticks t = (Ok d, add_event d t)
     /\ d = Delivery (t_trace t) (Z.of_nat (length (t_events t))) source target ty digest action ticks
     /\ delivery_post_init d = Ok d /\ Z.of_nat (length (t_events t)) < MAX_EVENTS
     /\ t_event_bytes t + t_payload_bytes t + event_size d + 512 <= MAX_TRACE_BYTES)
  \/ exists msg, schedule source target ty digest action ticks t = (Err (ValueError msg), t).
Proof.
  unfold schedule, bind, get, liftr, modify, ret.
  destruct (Z.ltb_spec (Z.of_nat (length (t_events t))) MAX_EVENTS); cbn [guard]; [|right; by eexists].
  set (d := Delivery _ _ _ _ _ _ _ _).
  assert (delivery_post_init d = Ok d \/ exists msg, delivery_post_init d = Err (ValueError msg)) as [Hd|[msg Hd]].
  { unfold delivery_post_init. repeat (match goal with |- context [guard ?b _] => destruct b end; cbn [guard rbind]; [|right; by eexists]).
    by left. }
  2:{ right. rewrite Hd. by eexists. }
  rewrite Hd. destruct (Z.ltb_spec MAX_TRACE_BYTES (t_event_bytes t + t_payload_bytes t + event_size d + 512));
    cbn [negb guard]; [right; by eexists|]. left. exists d. split_and!; done.
Qed.

Lemma add_event_accounted d t :
  accounted t ->
  d_trace d = t_trace t -> d_sequence d = Z.of_nat (length (t_events t)) -> delivery_post_init d = Ok d ->
  Z.of_nat (length (t_events t)) < MAX_EVENTS ->
  t_event_bytes t + t_payload_bytes t + event_size d + 512 <= MAX_TRACE_BYTES -> accounted (add_event d t).
Proof.
  intros [E C B K PB Em Cap Tr] Ht Hs Hp Hc Hb. split; simpl; try done.
  all: try (intros i x Hx; apply lookup_app_Some in Hx as [Hx|[Hi Hx]]; [by apply E|];
            apply list_lookup_singleton_Some in Hx as [Hi' <-]; split_and!; try done; rewrite Hs; f_equal; lia).
  all: rewrite ?length_app, ?fmap_app, ?zsum_app; simpl; try lia.
  all: intros Hn; by apply app_eq_nil in Hn as [_ ?].
Qed.

(** ** Any sequence of [schedule] and [message] calls *)

Inductive call : Type :=
  | Schedule (source target message_type digest action : string) (ticks : Z)
  | Message (source target message_type : string) (p : P) (action : string) (ticks : Z).

Definition perform (c : call) : T delivery :=
  match c with
  | Schedule source target ty digest action ticks => schedule source target ty digest action ticks
  | Message source target ty p action ticks => message source target ty p action ticks
  end.
Definition run (calls : list call) t : transport P := fold_left (fun t c => snd (perform c t)) calls t.

Definition call_payloads (calls : list call) : list P :=
  omap (fun c => match c with Message _ _ _ p _ _ => Some p | _ => None end) calls.

(** No two of the payloads collide under SHA-256. *)
Definition collision_free (ps : list P) : Prop :=
  forall p q, p ∈ ps -> q ∈ ps -> payload_digest p = payload_digest q ->
  dumps (payload_json p) = dumps (payload_json q).

Definition known (ps : list P) t : Prop := forall k p, t_payloads t !! k = Some p -> p ∈ ps.

Lemma total_insert (m : gmap string P) k p :
  zsum (payload_size <$> (map_to_list (<[k := p]> m)).*2)
  = zsum (payload_size <$> (map_to_list m).*2) + payload_size p
    - match m !! k with Some q => payload_size q | None => 0 end.
Proof.
  rewrite <- insert_delete_eq. rewrite map_to_list_insert by apply lookup_delete_eq.
  rewrite !fmap_cons, zsum_cons. destruct (m !! k) as [q|] eqn:Hk.
  - rewrite <- (insert_delete_id m k q Hk) at 2. rewrite map_to_list_insert by apply lookup_delete_eq.
    rewrite !fmap_cons, zsum_cons. cbn [snd]. lia.
  - rewrite delete_id by done. cbn [snd]. lia.
Qed.

Definition new_bytes t p : Z := if bool_decide (is_Some (t_payloads t !! payload_digest p)) then 0 else payload_size p.

Lemma message_spec source target ty p action ticks t :
  (exists d, message source target ty p action ticks t
       = (Ok d, set_payload (payload_digest p) p (add_event d (set_payload_bytes (t_payload_bytes t + new_bytes t p) t)))
     /\ d = Delivery (t_trace t) (Z.of_nat (length (t_events t))) source target ty (payload_digest p) action ticks
     /\ delivery_post_init d = Ok d /\ Z.of_nat (length (t_events t)) < MAX_EVENTS
     /\ t_event_bytes t + (t_payload_bytes t + new_bytes t p) + event_size d + 512 <= MAX_TRACE_BYTES)
  \/ exists msg, message source target ty p action ticks t = (Err (ValueError msg), t).
Proof.
  unfold message, bind, liftr, get, modify, on_value_error, ret.
  destruct (negb (MAX_TRACE_BYTES <? _)); cbn [guard]; [|right; by eexists].
  change (if bool_decide _ then 0 else payload_size p) with (new_bytes t p).
  set (t1 := set_payload_bytes (t_payload_bytes t + new_bytes t p) t).
  destruct (schedule_spec source target ty (payload_digest p) action ticks t1) as [(d & -> & Hd)|[msg ->]].
  - left. exists d. done.
  - right. exists msg. f_equal. unfold t1, set_payload_bytes. simpl. destruct t. simpl. f_equal. lia.
Qed.

Lemma message_accounted ps source target ty p action ticks t :
  collision_free ps -> p ∈ ps -> accounted t -> known ps t ->
  accounted (snd (message source target ty p action ticks t)) /\ known ps (snd (message source target ty p action ticks t))
  /\ t_trace (snd (message source target ty p action ticks t)) = t_trace t.
Proof.
  intros Hcf Hp Ha Hk.
  destruct (message_spec source target ty p action ticks t) as [(d & -> & Hd & Hpost & Hc & Hb)|[msg ->]]; [|done].
  set (nb := new_bytes t p) in *. cbn [snd]. split_and!; [|intros k q Hq; simpl in Hq|done].
  - assert (Hnb : nb + match t_payloads t !! payload_digest p with Some q => payload_size q | None => 0 end = payload_size p).
    { unfold nb, new_bytes. destruct (t_payloads t !! payload_digest p) as [q|] eqn:Hq; simpl; [|lia].
      unfold payload_size. rewrite (Hcf p q); [by rewrite !length_digest|done|by eapply Hk|].
      symmetry. by apply (ac_keys _ Ha). }
    destruct Ha as [E C B K PB Em Cap Tr]. simpl in *. split; simpl; try done.
    + intros i x Hx. apply lookup_app_Some in Hx as [Hx|[Hi Hx]]; [by apply E|].
      apply list_lookup_singleton_Some in Hx as [Hi' <-]. subst d. split_and!; try done. simpl. f_equal. lia.
    + rewrite length_app. simpl. lia.
    + rewrite fmap_app, zsum_app, B. simpl. lia.
    + intros k q Hq. apply lookup_insert_Some in Hq as [[<- <-]|[_ Hq]]; [done|by apply K].
    + rewrite total_insert, PB. lia.
    + intros Hn. by apply app_eq_nil in Hn as [_ ?].
    + lia.
  - apply lookup_insert_Some in Hq as [[_ <-]|[_ Hq]]; [done|by eapply Hk].
Qed.

Lemma perform_accounted ps c t :
  collision_free ps -> call_payloads [c] ⊆ ps -> accounted t -> known ps t ->
  accounted (snd (perform c t)) /\ known ps (snd (perform c t)) /\ t_trace (snd (perform c t)) = t_trace t.
Proof.
  intros Hcf Hps Ha Hk. destruct c as [s ta ty dg ac ti|s ta ty p ac ti]; cbn [perform].
  - destruct (schedule_spec s ta ty dg ac ti t) as [(d & -> & -> & Hd & Hc & Hb)|[msg ->]]; [|done].
    split_and!; [|done|done]. by apply add_event_accounted.
  - apply message_accounted; try done. apply Hps. by left.
Qed.

Lemma run_accounted ps calls t :
  collision_free ps -> call_payloads calls ⊆ ps -> accounted t -> known ps t ->
  accounted (run calls t) /\ t_trace (run calls t) = t_trace t.
Proof.
  intros Hcf. revert t. induction calls as [|c calls IH]; intros t Hps Ha Hk; [done|].
  assert (call_payloads [c] ⊆ ps /\ call_payloads calls ⊆ ps) as [H1 H2].
  { split; intros p Hp; apply Hps; unfold call_payloads in *; simpl in *; destruct c; set_solver. }
  destruct (perform_accounted ps c t) as (Ha' & Hk' & Ht'); try done.
  change (run (c :: calls) t) with (run calls (snd (perform c t))).
  destruct (IH _ H2 Ha' Hk') as [HA HT]. split; [done|]. by rewrite HT.
Qed.

Lemma new_accounted trace t : new_transport trace = Ok t -> accounted t /\ known [] t /\ t_trace t = trace.
Proof.
  unfold new_transport, nonempty. intros Hn. ok_inv Hn. injection Hn as <-. bool_tac.
  split_and!; [|intros k p Hk; done|done]. by split.
Qed.

(** ** The trace document fits *)

Lemma to_json_fits t :
  accounted t -> text_length (quote (t_trace t)) <= 431 -> exists raw, to_json t = Ok raw.
Proof.
  intros [E C B K PB Em Cap Tr] Hq. unfold to_json. set (raw := dumps _).
  enough (text_length raw <= MAX_TRACE_BYTES) as Hle by (rewrite (proj2 (Z.ltb_ge _ _)) by lia; by eexists).
  unfold raw. rewrite dumps_document. cbn [to_document doc_schema doc_trace doc_events doc_payloads].
  unfold render_member. cbn [fst snd]. rewrite !text_length_app.
  pose proof (text_length_array (delivery_json <$> t_events t)) as Ha. rewrite <- list_fmap_compose in Ha.
  pose proof (text_length_object ((fun kp : string * P => (kp.1, payload_json kp.2)) <$> map_to_list (t_payloads t))) as Ho.
  rewrite <- list_fmap_compose in Ho.
  assert (zsum (((fun kv => text_length (quote kv.1) + 2 + text_length (dumps kv.2)) ∘ (fun kp : string * P => (kp.1, payload_json kp.2)))
    <$> map_to_list (t_payloads t)) = t_payload_bytes t) as Hps.
  { rewrite PB, <- list_fmap_compose. f_equal. apply list_fmap_ext. intros i [k p] Hi. simpl.
    apply list_elem_of_lookup_2, elem_of_map_to_list in Hi. apply K in Hi. subst k.
    unfold payload_size. rewrite quote_digest, length_digest. lia. }
  rewrite Hps in Ho. change (zsum (_ <$> t_events t)) with (zsum (event_size <$> t_events t)) in Ha. rewrite <- B in Ha.
  change (text_length (quote "events")) with 8. change (text_length (quote "payloads")) with 10.
  change (text_length (quote "schemaVersion")) with 15. change (text_length (quote "traceId")) with 9.
  change (text_length (quote SCHEMA)) with 26. change (text_length "{") with 1. change (text_length "}") with 1.
  change (text_length ",") with 1. change (text_length ":") with 1.
  destruct (decide (t_events t = [])) as [Hn|Hn].
  - rewrite Hn in B. rewrite (Em Hn) in PB. simpl in B. rewrite map_to_list_empty in PB. simpl in PB.
    unfold MAX_TRACE_BYTES. lia.
  - specialize (Cap Hn). lia.
Qed.

(** ** The round trip *)

Lemma load_payloads_all (l : list (string * P)) t :
  NoDup l.*1 -> (forall k p, (k, p) ∈ l -> payload_digest p = k) ->
  for_each l load_payload t
  = (Ok tt, Transport (t_trace t) (t_events t) (list_to_map l ∪ t_payloads t)
       (t_payload_bytes t + zsum (payload_size <$> l.*2)) (t_event_bytes t)).
Proof.
  revert t. induction l as [|[k p] l IH]; intros t Hnd Hk.
  - simpl. unfold ret. rewrite (left_id_L ∅ (∪)). destruct t. simpl. by rewrite Z.add_0_r.
  - apply NoDup_cons in Hnd as [Hn Hnd]. cbn [for_each]. unfold bind at 1, load_payload at 1, bind at 1, liftr.
    rewrite bool_decide_true by (apply Hk; by left). cbn [guard]. unfold modify. rewrite IH; [|done|set_solver]. simpl.
    rewrite <- insert_union_r by (by apply not_elem_of_list_to_map_1). rewrite insert_union_l.
    by rewrite <- Z.add_assoc.
Qed.

Lemma load_events_all suffix t :
  (forall i d, suffix !! i = Some d -> d_trace d = t_trace t
     /\ d_sequence d = Z.of_nat (length (t_events t) + i) /\ delivery_post_init d = Ok d) ->
  Z.of_nat (length (t_events t) + length suffix) <= MAX_EVENTS ->
  (suffix <> [] -> t_event_bytes t + zsum (event_size <$> suffix) + t_payload_bytes t + 512 <= MAX_TRACE_BYTES) ->
  for_each suffix load_event t
  = (Ok tt, Transport (t_trace t) (t_events t ++ suffix) (t_payloads t) (t_payload_bytes t)
       (t_event_bytes t + zsum (event_size <$> suffix))).
Proof.
  revert t. induction suffix as [|d suffix IH]; intros t Hev Hc Hb.
  - simpl. unfold ret. rewrite app_nil_r. destruct t. simpl. by rewrite Z.add_0_r.
  - destruct (Hev 0%nat d eq_refl) as (Ht & Hs & Hp). rewrite Nat.add_0_r in Hs.
    rewrite fmap_cons, zsum_cons in Hb. specialize (Hb ltac:(done)).
    assert (0 <= zsum (event_size <$> suffix)) as Hz.
    { apply zsum_nonneg, Forall_fmap, Forall_forall. intros x _. apply event_size_nonneg. }
    assert (load_event d t = (Ok tt, add_event d t)) as Hl.
    { unfold load_event, bind at 1, liftr. rewrite Hp. unfold bind at 1, get, bind at 1.
      rewrite bool_decide_true by done. rewrite (proj2 (Z.eqb_eq _ _)) by done. cbn [andb guard]. unfold bind at 1.
      assert (d = Delivery (t_trace t) (Z.of_nat (length (t_events t))) (d_source d) (d_target d) (d_type d) (d_digest d)
        (d_action d) (d_ticks d)) as Hd by (rewrite <- Ht, <- Hs; by destruct d).
      destruct (schedule_spec (d_source d) (d_target d) (d_type d) (d_digest d) (d_action d) (d_ticks d) t)
        as [(d' & Hsch & Hd' & _)|[msg Hsch]].
      - rewrite Hsch. rewrite Hd', <- Hd. done.
      - exfalso. unfold schedule, bind, get, liftr in Hsch. cbn [length] in Hc.
        rewrite (proj2 (Z.ltb_lt _ _)) in Hsch by lia. cbn [guard] in Hsch. rewrite <- Hd, Hp in Hsch.
        rewrite (proj2 (Z.ltb_ge _ _)) in Hsch by lia. done. }
    cbn [for_each]. unfold bind at 1. rewrite Hl. rewrite IH; simpl.
    + rewrite <- app_assoc. simpl. by rewrite Z.add_assoc.
    + intros i x Hx. rewrite length_app. simpl. destruct (Hev (S i) x Hx) as (? & Hsx & ?). split_and!; try done.
      rewrite Hsx. f_equal. lia.
    + rewrite length_app. simpl in *. lia.
    + intros _. lia.
Qed.

Lemma from_to_document t raw :
  accounted t -> to_json t = Ok raw -> from_json (text_length raw) (to_document t) = Ok t.
Proof.
  intros [E C B K PB Em Cap Tr] Hj. unfold to_json in Hj. ok_inv Hj.
  assert (dumps (document_json (to_document t)) = raw) as <- by congruence. bool_tac. unfold from_json. rewrite (proj2 (Z.ltb_ge _ _)) by lia. cbn [negb guard rbind to_document doc_schema doc_trace doc_events doc_payloads].
  rewrite bool_decide_true by done. cbn [guard rbind]. unfold new_transport, nonempty.
  rewrite bool_decide_false by done. cbn [negb guard rbind]. rewrite (proj2 (Z.leb_le _ _)) by done. cbn [guard rbind].
  unfold bind. rewrite load_payloads_all; [|apply NoDup_fst_map_to_list|intros k p Hp; by apply K, elem_of_map_to_list].
  cbn [t_trace t_events t_payloads t_payload_bytes t_event_bytes]. rewrite load_events_all; cbn [t_trace t_events t_payloads t_payload_bytes t_event_bytes].
  - rewrite list_to_map_to_list, (right_id_L ∅ (∪)). simpl. destruct t. simpl in *. subst. done.
  - intros i d Hd. simpl. by apply E.
  - simpl. done.
  - intros Hne. specialize (Cap Hne). rewrite PB, B in Cap. simpl. lia.
Qed.
End Proofs.
