(* ===== verification/ReplicatedHistory.v ===== *)
(** * The replicated-history safety model ([scripts/v50/replicated_history_model.py])

    Three fixed voters, hash-chained entries, durable receipts, commit proofs and application.
    Python's [ValueError] leaves an object as it is at that point; the calls below are written in the
    state monad of the prelude, so what a failing call leaves behind is part of the model. *)

From stdpp Require Import base gmap sets strings list sorting pretty.
From S2P Require Import Prelude Bytes Sha256 Files.
Import StateNotations ResultNotations.
Local Open Scope py_scope.
Local Open Scope Z_scope.

Definition VOTERS : list string := ["node-1"; "node-2"; "node-3"].
Definition QUORUM : nat := 2.
Definition MAX_EPOCH : Z := 2 ^ 63 - 1.
Definition APPLICATION_OPERATIONS : list string :=
  ["ADD"; "UPDATE"; "REMOVE"; "ADD_ALL"; "UPDATE_ALL"; "REMOVE_ALL"; "INDEX_CREATE"; "INDEX_DROP"].
Definition CONTROL_OPERATIONS : list string := ["NO_OP"; "SNAPSHOT_MARKER"].

Definition is_empty (s : string) : bool := bool_decide (s = ""%string).
Definition is_application (operation : string) : bool := bool_decide (operation ∈ APPLICATION_OPERATIONS).

(** ** [Entry] *)

Record entry := Entry {
  e_index : Z;
  e_epoch : Z;
  e_operation : string;
  e_payload_digest : string;
  e_predecessor : string;
  e_incarnation : string
}.

#[export] Instance entry_eq_dec : EqDecision entry.
Proof. solve_decision. Defined.

(** [Entry.__post_init__] *)
Definition post_init (e : entry) : result entry :=
  do! guard ((1 <=? e_index e) && (e_index e <=? MAX_EPOCH) && (1 <=? e_epoch e) && (e_epoch e <=? MAX_EPOCH))
    (ValueError "entry index/epoch must be positive signed 64-bit values") in
  do! guard (is_application (e_operation e) || bool_decide (e_operation e ∈ CONTROL_OPERATIONS))
    (ValueError "unsupported operation (membership is fixed)") in
  do! guard (negb (is_empty (e_incarnation e) || is_empty (e_payload_digest e) || is_empty (e_predecessor e)))
    (ValueError "entry identities must not be empty") in
  Ok e.

Definition nul : string := String Ascii.zero EmptyString.
Definition sha256_hex (material : string) : string := hex (sha256 (utf8 material)).

(** [Entry.digest] *)
Definition entry_material (e : entry) : string :=
  join nul [pretty (e_index e); pretty (e_epoch e); e_operation e; e_payload_digest e; e_predecessor e; e_incarnation e].
Definition entry_digest (e : entry) : string := sha256_hex (entry_material e).

(** ** [CommitProof] *)

Record commit_proof := CommitProof { p_entry : entry; p_receipts : list (string * string) }.

#[export] Instance commit_proof_eq_dec : EqDecision commit_proof.
Proof. solve_decision. Defined.

Definition proof_digest (p : commit_proof) : string :=
  sha256_hex ("PROOF" +:+ nul +:+ entry_digest (p_entry p) +:+ nul
    +:+ join nul ((fun r : string * string => r.1 +:+ ":" +:+ r.2) <$> p_receipts p)).

(** [ReplicatedHistory.receipt] *)
Definition receipt (node : string) (e : entry) : string :=
  sha256_hex ("ACK" +:+ nul +:+ node +:+ nul +:+ entry_digest e).

(** ** [Voter] and the model *)

Record voter := Voter {
  promised_epoch : Z;
  promised_incarnation : string;
  log : gmap Z entry;
  proofs : gmap Z commit_proof;
  applied_index : Z;
  application_sequence : Z;
  snapshot_index : Z
}.
Definition voter0 : voter := Voter 0 "" ∅ ∅ 0 0 0.

Record history := History {
  voters : gmap string voter;
  active_epoch : Z;
  active_incarnation : string;
  commit_index : Z;
  leader_sequence : Z
}.
Definition history0 : history := History (list_to_map ((fun n => (n, voter0)) <$> VOTERS)) 0 "" 0 0.

(** Assignments to one voter's fields. *)
Definition promise_voter (epoch : Z) (incarnation : string) (v : voter) : voter :=
  Voter epoch incarnation (log v) (proofs v) (applied_index v) (application_sequence v) (snapshot_index v).
Definition log_entry (e : entry) (v : voter) : voter :=
  Voter (promised_epoch v) (promised_incarnation v) (<[e_index e := e]> (log v)) (proofs v)
    (applied_index v) (application_sequence v) (snapshot_index v).
Definition hold_proof (i : Z) (p : commit_proof) (v : voter) : voter :=
  Voter (promised_epoch v) (promised_incarnation v) (log v) (<[i := p]> (proofs v))
    (applied_index v) (application_sequence v) (snapshot_index v).
Definition apply_voter (sequence through : Z) (v : voter) : voter :=
  Voter (promised_epoch v) (promised_incarnation v) (log v) (proofs v) through sequence (snapshot_index v).
Definition snapshot_voter (i : Z) (v : voter) : voter :=
  Voter (promised_epoch v) (promised_incarnation v) (log v) (proofs v) (applied_index v) (application_sequence v) i.
(** [log.pop(index); proofs.pop(index, None)] for the logged indices from [from] on. *)
Definition drop_suffix (from : Z) (v : voter) : voter :=
  Voter (promised_epoch v) (promised_incarnation v)
    (filter (fun p : Z * entry => p.1 < from) (log v))
    (filter (fun p : Z * commit_proof => p.1 < from \/ log v !! p.1 = None) (proofs v))
    (applied_index v) (application_sequence v) (snapshot_index v).

Definition set_voter (node : string) (f : voter -> voter) (h : history) : history :=
  History (alter f node (voters h)) (active_epoch h) (active_incarnation h) (commit_index h) (leader_sequence h).
Definition set_active (epoch : Z) (incarnation : string) (h : history) : history :=
  History (voters h) epoch incarnation (commit_index h) (leader_sequence h).
Definition set_commit (i : Z) (h : history) : history :=
  History (voters h) (active_epoch h) (active_incarnation h) i (leader_sequence h).
Definition set_sequence (n : Z) (h : history) : history :=
  History (voters h) (active_epoch h) (active_incarnation h) (commit_index h) n.

(** ** Operations *)

Definition M := ST history.
Definition require (b : bool) (msg : string) : M unit := liftr (guard b (ValueError msg)).
(** [self.voters[node]] *)
Definition get_voter (node : string) : M voter := let* h := get in liftr (of_option (voters h !! node) KeyError).

(** [_quorum] *)
Definition quorum (nodes : list string) : M unit :=
  let distinct : gset string := list_to_set nodes in
  require ((QUORUM <=? size distinct)%nat && bool_decide (size distinct = length nodes)
      && bool_decide (distinct ⊆ list_to_set VOTERS))
    "requires a distinct configured voter quorum".

Definition promise_loop (epoch : Z) (incarnation : string) (nodes : list string) : M unit :=
  for_each nodes (fun node => modify (set_voter node (promise_voter epoch incarnation))).

(** [max(self.voters[node].promised_epoch for node in nodes)] *)
Fixpoint max_promise (nodes : list string) : M Z :=
  match nodes with
  | [] => raise (ValueError "max() arg is an empty sequence")
  | [node] => let* v := get_voter node in ret (promised_epoch v)
  | node :: nodes' =>
      let* v := get_voter node in let* m := max_promise nodes' in ret (Z.max (promised_epoch v) m)
  end.

Definition promise (epoch : Z) (nodes : list string) (incarnation leader : string) : M unit :=
  do* quorum nodes in
  do* require (bool_decide (leader = "node-1"%string) && negb (is_empty incarnation))
    "only the configured leader incarnation may activate" in
  do* require ((1 <=? epoch) && (epoch <=? MAX_EPOCH)) "epoch overflow or invalid epoch" in
  let* m := max_promise nodes in
  do* require (m <? epoch) "epoch must be strictly greater than every promise" in
  do* promise_loop epoch incarnation nodes in
  modify (set_active epoch incarnation).

(** [_active] *)
Definition active (v : voter) (e : entry) : M unit :=
  let* h := get in
  require (negb (negb (e_epoch e =? active_epoch h)
      || negb (bool_decide (e_incarnation e = active_incarnation h))
      || (e_epoch e <? promised_epoch v)
      || ((e_epoch e =? promised_epoch v) && negb (bool_decide (e_incarnation e = promised_incarnation v)))))
    "stale or inactive epoch/incarnation".

Definition same_or_absent {A} `{EqDecision A} (o : option A) (a : A) : bool :=
  match o with Some x => bool_decide (x = a) | None => true end.

Definition append (node : string) (e : entry) : M string :=
  let* v := get_voter node in
  do* active v e in
  do* require (same_or_absent (log v !! e_index e) e) "same-index different-content conflict" in
  do* (if 1 <? e_index e then
         require (match log v !! (e_index e - 1) with
                  | Some predecessor => bool_decide (entry_digest predecessor = e_predecessor e)
                  | None => false
                  end) "missing or conflicting predecessor"
       else require (bool_decide (e_predecessor e = "GENESIS"%string)) "first entry must extend genesis") in
  do* modify (set_voter node (log_entry e)) in
  ret (receipt node e).

(** The sorted receipts of the voters that still hold the entry; [VOTERS] is in sorted order. *)
Definition durable_receipts (h : history) (e : entry) (receipts : gmap string string) : list (string * string) :=
  omap (fun node =>
    match receipts !! node, voters h !! node with
    | Some r, Some v =>
        if bool_decide (log v !! e_index e = Some e) && bool_decide (r = receipt node e) then Some (node, r) else None
    | _, _ => None
    end) VOTERS.

Definition prepare_proof (e : entry) (receipts : gmap string string) : M commit_proof :=
  let* leader := get_voter "node-1" in
  do* active leader e in
  do* require (bool_decide (log leader !! e_index e = Some e)) "leader must force its own entry before commitment" in
  let* h := get in
  let durable := durable_receipts h e receipts in
  do* require (QUORUM <=? length durable)%nat "entry lacks durable quorum" in
  do* require (negb ((commit_index h + 1 <? e_index e) || (e_index e <? commit_index h)))
    "commit must extend the committed prefix" in
  ret (CommitProof e durable).

(** [_validate_proof_target] *)
Definition validate_proof_target (node : string) (p : commit_proof) : M unit :=
  let e := p_entry p in
  let* v := get_voter node in
  do* active v e in
  do* quorum (p_receipts p).*1 in
  do* require (forallb (fun r : string * string => bool_decide (r.2 = receipt r.1 e)) (p_receipts p))
    "invalid durable receipt digest" in
  do* require (bool_decide (log v !! e_index e = Some e)) "proof voter lacks the exact entry" in
  require (match proofs v !! e_index e with Some q => bool_decide (p_entry q = e) | None => true end)
    "conflicting commit proof".

Definition persist_proof (node : string) (p : commit_proof) : M string :=
  do* validate_proof_target node p in
  do* modify (set_voter node (hold_proof (e_index (p_entry p)) p)) in
  ret (proof_digest p).

Definition acknowledged (h : history) (p : commit_proof) (ack : string * string) : bool :=
  bool_decide (ack.2 = proof_digest p)
  && match voters h !! ack.1 with
     | Some v => bool_decide (proofs v !! e_index (p_entry p) = Some p)
     | None => false
     end.

Definition complete_commit (p : commit_proof) (acknowledgements : list (string * string)) : M unit :=
  let* leader := get_voter "node-1" in
  do* active leader (p_entry p) in
  do* quorum acknowledgements.*1 in
  let* h := get in
  do* require (forallb (acknowledged h p) acknowledgements) "commit proof lacks durable quorum acknowledgements" in
  do* require ((commit_index h <=? e_index (p_entry p)) && (e_index (p_entry p) <=? commit_index h + 1))
    "commit must extend the committed prefix" in
  modify (set_commit (e_index (p_entry p))).

(** [{node: self.persist_proof(node, proof) for node in proof_nodes}] *)
Fixpoint persist_all (nodes : list string) (p : commit_proof) : M (list (string * string)) :=
  match nodes with
  | [] => ret []
  | node :: nodes' =>
      let* d := persist_proof node p in let* acks := persist_all nodes' p in ret ((node, d) :: acks)
  end.

Definition commit (e : entry) (receipts : gmap string string) (proof_nodes : list string) : M string :=
  do* quorum proof_nodes in
  let* p := prepare_proof e receipts in
  do* for_each proof_nodes (fun node => validate_proof_target node p) in
  let* acknowledgements := persist_all proof_nodes p in
  do* complete_commit p acknowledgements in
  ret (proof_digest p).

(** The entries of [range(first, first + n)]. *)
Definition logged (v : voter) (i : Z) : bool := bool_decide (is_Some (log v !! i)).
Definition application_at (v : voter) (i : Z) : Z :=
  match log v !! i with Some e => if is_application (e_operation e) then 1 else 0 | None => 0 end.
Definition sum (l : list Z) : Z := fold_right Z.add 0 l.

Definition apply (node : string) (through_index : Z) : M unit :=
  let* v := get_voter node in
  do* require (negb (through_index <? applied_index v)) "applied index cannot regress" in
  let* h := get in
  do* require (negb (commit_index h <? through_index)) "cannot apply an uncommitted entry" in
  let pending := seqZ (applied_index v + 1) (through_index - applied_index v) in
  do* require (forallb (logged v) pending) "cannot apply a missing entry" in
  do* require (negb ((applied_index v <? through_index)
      && negb (existsb (fun q : Z * commit_proof => (through_index <=? q.1) && (q.1 <=? commit_index h))
                 (map_to_list (proofs v)))))
    "cannot apply without a local durable commit proof" in
  let sequence := application_sequence v + sum (application_at v <$> pending) in
  do* modify (set_voter node (apply_voter sequence through_index)) in
  if bool_decide (node = "node-1"%string) then modify (set_sequence sequence) else ret tt.

Definition copy_committed_proof (source target : string) (index : Z) : M unit :=
  let* sender := get_voter source in
  let* receiver := get_voter target in
  let* h := get in
  do* require (negb ((commit_index h <? index) || negb (bool_decide (is_Some (proofs sender !! index)))))
    "source lacks a committed proof" in
  do* require (forallb (fun i => bool_decide (log receiver !! i = log sender !! i) && logged receiver i)
      (seqZ 1 index)) "proof receiver lacks the exact committed prefix" in
  let* p := liftr (of_option (proofs sender !! index) KeyError) in
  modify (set_voter target (hold_proof index p)).

Definition install_snapshot (node : string) (index : Z) : M unit :=
  let* v := get_voter node in
  do* require (negb ((index <? snapshot_index v) || (applied_index v <? index)))
    "snapshot cannot regress or exceed applied state" in
  do* require ((index =? 0) || bool_decide (is_Some (proofs v !! index)))
    "snapshot requires a local durable commit proof" in
  modify (set_voter node (snapshot_voter index)).

(** [max((index for voter in voters.values() for index in voter.proofs), default=0)] *)
Definition proof_indices (h : history) : list Z :=
  mbind (fun nv : string * voter => (map_to_list (proofs nv.2)).*1) (map_to_list (voters h)).
Definition max_of (l : list Z) : Z :=
  match l with [] => 0 | x :: l' => fold_right Z.max x l' end.

Definition truncate_uncommitted (node : string) (from_index : Z) : M unit :=
  let* h := get in
  do* require (Z.max (commit_index h) (max_of (proof_indices h)) <? from_index) "committed history is immutable" in
  do* bind (get_voter node) (fun _ => ret tt) in
  modify (set_voter node (drop_suffix from_index)).

(** [sorted(...)[-QUORUM]] *)
Definition recovery_floor (h : history) : result Z :=
  let indices := merge_sort Z.le (snapshot_index <$> (map_to_list (voters h)).*2) in
  do! guard (QUORUM <=? length indices)%nat IndexError in
  of_option (indices !! (length indices - QUORUM)%nat) IndexError.

(** ** Any use of the object: a sequence of calls, some of which raise

    An [Entry] argument is constructed by the caller, which runs [__post_init__]. *)

Inductive call : Type :=
  | Promise (epoch : Z) (nodes : list string) (incarnation leader : string)
  | Append (node : string) (e : entry)
  | PersistProof (node : string) (p : commit_proof)
  | CompleteCommit (p : commit_proof) (acknowledgements : list (string * string))
  | Commit (e : entry) (receipts : gmap string string) (proof_nodes : list string)
  | Apply (node : string) (through_index : Z)
  | CopyProof (source target : string) (index : Z)
  | InstallSnapshot (node : string) (index : Z)
  | Truncate (node : string) (from_index : Z).

Definition construct (e : entry) : M entry := liftr (post_init e).
Definition construct_proof (p : commit_proof) : M commit_proof :=
  let* e := construct (p_entry p) in ret (CommitProof e (p_receipts p)).

Definition perform (c : call) : M unit :=
  match c with
  | Promise epoch nodes incarnation leader => promise epoch nodes incarnation leader
  | Append node e => let* e := construct e in let* _ := append node e in ret tt
  | PersistProof node p => let* p := construct_proof p in let* _ := persist_proof node p in ret tt
  | CompleteCommit p acks => let* p := construct_proof p in complete_commit p acks
  | Commit e receipts nodes => let* e := construct e in let* _ := commit e receipts nodes in ret tt
  | Apply node through => apply node through
  | CopyProof source target index => copy_committed_proof source target index
  | InstallSnapshot node index => install_snapshot node index
  | Truncate node from => truncate_uncommitted node from
  end.

(** The object after a call, whether the call returned or raised. *)
Definition after (c : call) (h : history) : history := snd (perform c h).
Definition run (calls : list call) (h : history) : history := fold_left (fun h c => after c h) calls h.
