(* ===== verification/ReplicatedHistorySafety.v ===== *)
(** * Invariants of the replicated-history model

    Every call of [ReplicatedHistory] preserves [Inv], whether it returns or raises, and only ever
    extends what has been proven ([evolves]); a call that raises changes nothing ([atomic]). *)

From stdpp Require Import base gmap sets strings list sorting pretty.
From S2P Require Import Prelude Bytes Sha256 ReplicatedHistory.
Import StateNotations ResultNotations.
Local Open Scope py_scope.
Local Open Scope Z_scope.

(** ** The invariant *)

Record voter_ok (committed : Z) (v : voter) : Prop := {
  vo_log : forall i e, log v !! i = Some e -> e_index e = i /\ 1 <= i;
  vo_proofs : forall i p, proofs v !! i = Some p -> log v !! i = Some (p_entry p);
  vo_bounds : 0 <= snapshot_index v <= applied_index v /\ applied_index v <= committed;
  vo_prefix : forall i, 1 <= i <= applied_index v -> is_Some (log v !! i);
  vo_sequence : application_sequence v = sum (application_at v <$> seqZ 1 (applied_index v))
}.

(** Two voters hold proofs of the same entry at index [i]. *)
Definition proven_by_two (h : history) (i : Z) : Prop :=
  exists a b va vb p q, a <> b /\ voters h !! a = Some va /\ voters h !! b = Some vb
    /\ proofs va !! i = Some p /\ proofs vb !! i = Some q /\ p_entry p = p_entry q.

Record Inv (h : history) : Prop := {
  inv_dom : dom (voters h) = list_to_set VOTERS;
  inv_voter : forall n v, voters h !! n = Some v -> voter_ok (commit_index h) v;
  inv_leader : forall v, voters h !! "node-1"%string = Some v -> leader_sequence h = application_sequence v;
  inv_committed : commit_index h = 0 \/ proven_by_two h (commit_index h)
}.

(** What a later state owes an earlier one. *)
Definition keeps (v v' : voter) : Prop :=
  (forall i p, proofs v !! i = Some p -> exists q, proofs v' !! i = Some q /\ p_entry q = p_entry p)
  /\ (forall i, 1 <= i <= applied_index v -> log v' !! i = log v !! i)
  /\ applied_index v <= applied_index v' /\ snapshot_index v <= snapshot_index v'.

Definition evolves (h h' : history) : Prop :=
  commit_index h <= commit_index h'
  /\ forall n v, voters h !! n = Some v -> exists v', voters h' !! n = Some v' /\ keeps v v'.

#[export] Instance keeps_preorder : PreOrder keeps.
Proof.
  split.
  - intros v. split_and!; try done; try lia. intros i p Hp. by exists p.
  - intros v1 v2 v3 (P1 & L1 & A1 & S1) (P2 & L2 & A2 & S2). split_and!; try lia.
    + intros i p Hp. destruct (P1 _ _ Hp) as (q & Hq & Heq). destruct (P2 _ _ Hq) as (q' & Hq' & Heq'). exists q'. split; congruence.
    + intros i Hi. rewrite L2, L1 by lia. done.
Qed.

#[export] Instance evolves_preorder : PreOrder evolves.
Proof.
  split.
  - intros h. split; [lia|]. intros n v Hv. by exists v.
  - intros h1 h2 h3 [C1 V1] [C2 V2]. split; [lia|]. intros n v Hv.
    destruct (V1 _ _ Hv) as (v2 & Hv2 & K1). destruct (V2 _ _ Hv2) as (v3 & Hv3 & K2). exists v3. split; [done|].
    by etrans.
Qed.

Lemma proven_by_two_evolves h h' i : evolves h h' -> proven_by_two h i -> proven_by_two h' i.
Proof.
  intros [_ E] (a & b & va & vb & p & q & Hab & Ha & Hb & Hp & Hq & Heq).
  destruct (E _ _ Ha) as (va' & Ha' & Ka & _). destruct (E _ _ Hb) as (vb' & Hb' & Kb & _).
  destruct (Ka _ _ Hp) as (p' & Hp' & Hpe). destruct (Kb _ _ Hq) as (q' & Hq' & Hqe).
  exists a, b, va', vb', p', q'. split_and!; try done. congruence.
Qed.

(** ** Weakest preconditions of the primitive calls *)

Lemma wp_require b msg (Q : unit -> history -> Prop) (E : history -> Prop) h :
  (b = true -> Q tt h) -> E h -> wp (require b msg) Q E h.
Proof. intros HQ HE. unfold require. apply wp_liftr; [|done]. intros [] H. apply guard_ok in H. auto. Qed.

Lemma wp_get_voter n (Q : voter -> history -> Prop) (E : history -> Prop) h :
  (forall v, voters h !! n = Some v -> Q v h) -> E h -> wp (get_voter n) Q E h.
Proof.
  intros HQ HE. unfold get_voter. apply wp_bind, wp_get, wp_liftr; [|done].
  intros v Hv. apply of_option_ok in Hv. auto.
Qed.

Lemma wp_active v e (Q : unit -> history -> Prop) (E : history -> Prop) h : Q tt h -> E h -> wp (active v e) Q E h.
Proof. intros HQ HE. unfold active. apply wp_bind, wp_get, wp_require; auto. Qed.

Lemma size_list_to_set_le (l : list string) : (size (list_to_set l : gset string) <= length l)%nat.
Proof.
  induction l as [|x l IH]; simpl; [vm_compute; constructor|].
  pose proof (size_union_alt ({[x]} : gset string) (list_to_set l)) as Hs. rewrite size_singleton in Hs.
  pose proof (subseteq_size (list_to_set l ∖ {[x]} : gset string) (list_to_set l) ltac:(set_solver)). lia.
Qed.

Lemma NoDup_of_size (l : list string) : size (list_to_set l : gset string) = length l -> NoDup l.
Proof.
  induction l as [|x l IH]; simpl; intros H; [constructor|]. pose proof (size_list_to_set_le l) as Hle.
  constructor.
  - intros Hx. assert (({[x]} ∪ list_to_set l : gset string) = list_to_set l) as Heq by set_solver.
    rewrite Heq in H. lia.
  - apply IH. pose proof (size_union_alt ({[x]} : gset string) (list_to_set l)) as Hs. rewrite size_singleton in Hs.
    pose proof (subseteq_size (list_to_set l ∖ {[x]} : gset string) (list_to_set l) ltac:(set_solver)). lia.
Qed.

Lemma wp_quorum nodes (Q : unit -> history -> Prop) (E : history -> Prop) h :
  ((2 <= length nodes)%nat /\ NoDup nodes /\ nodes ⊆ VOTERS -> Q tt h) -> E h -> wp (quorum nodes) Q E h.
Proof.
  intros HQ HE. unfold quorum. apply wp_require; [|done]. intros H. bool_tac. apply HQ.
  unfold QUORUM in *. split_and!; [lia|by apply NoDup_of_size|].
  intros x Hx. apply (elem_of_list_to_set (C := gset string)). set_solver.
Qed.

Lemma wp_construct e (Q : entry -> history -> Prop) (E : history -> Prop) h :
  (1 <= e_index e -> Q e h) -> E h -> wp (construct e) Q E h.
Proof.
  intros HQ HE. unfold construct. apply wp_liftr; [|done]. intros e' H. unfold post_init in H. ok_inv H.
  injection H as <-. bool_tac. auto.
Qed.

(** ** Preservation *)

Lemma inv_alter h n f ae ai s :
  Inv h ->
  (forall v, voters h !! n = Some v -> voter_ok (commit_index h) (f v) /\ keeps v (f v)) ->
  (forall v, alter f n (voters h) !! "node-1"%string = Some v -> s = application_sequence v) ->
  Inv (History (alter f n (voters h)) ae ai (commit_index h) s)
  /\ evolves h (History (alter f n (voters h)) ae ai (commit_index h) s).
Proof.
  intros [D V L C] Hf Hs.
  assert (evolves h (History (alter f n (voters h)) ae ai (commit_index h) s)) as HE.
  { split; [simpl; lia|]. intros m v Hv. destruct (decide (n = m)) as [<-|Hne].
    - exists (f v). simpl. rewrite lookup_alter_eq, Hv. split; [done|by apply Hf].
    - exists v. simpl. by rewrite lookup_alter_ne. }
  split; [split|done]; simpl; try done.
  - by rewrite dom_alter_L.
  - intros m v Hv. apply lookup_alter_Some in Hv as [(-> & v0 & Hv0 & ->)|[_ Hv]]; [by apply Hf|by eapply V].
  - destruct C as [C|C]; [by left|right]. by eapply proven_by_two_evolves.
Qed.

(** Assignments that leave [application_sequence] alone. *)
Lemma inv_set_voter h n f :
  Inv h ->
  (forall v, voters h !! n = Some v -> voter_ok (commit_index h) v ->
     voter_ok (commit_index h) (f v) /\ keeps v (f v) /\ application_sequence (f v) = application_sequence v) ->
  Inv (set_voter n f h) /\ evolves h (set_voter n f h).
Proof.
  intros HI Hf. apply inv_alter; [done|..].
  - intros v Hv. destruct (Hf v Hv) as (? & ? & _); [by eapply inv_voter|done].
  - intros v Hv. apply lookup_alter_Some in Hv as [(Hn & v0 & Hv0 & ->)|[_ Hv]].
    + destruct (Hf v0) as (_ & _ & ->); [by rewrite Hn|by eapply inv_voter|]. by apply (inv_leader _ HI).
    + by apply (inv_leader _ HI).
Qed.

Lemma inv_set_active h epoch incarnation : Inv h -> Inv (set_active epoch incarnation h) /\ evolves h (set_active epoch incarnation h).
Proof.
  intros [D V L C]. assert (evolves h (set_active epoch incarnation h)) as HE.
  { split; [simpl; lia|]. intros n v Hv. by exists v. }
  split; [by split|done].
Qed.

Lemma inv_set_commit h i :
  Inv h -> commit_index h <= i -> proven_by_two h i -> Inv (set_commit i h) /\ evolves h (set_commit i h).
Proof.
  intros [D V L C] Hi Hp. split; [split|]; simpl; try done.
  - intros n v Hv. destruct (V n v Hv). split; try done. simpl. lia.
  - by right.
  - split; [simpl; lia|]. intros n v Hv. by exists v.
Qed.

(** The postcondition every call meets, on return and on an exception. *)
Definition good (h h' : history) : Prop := Inv h' /\ evolves h h'.

Lemma good_refl h : Inv h -> good h h.
Proof. by split. Qed.

Lemma good_step h h1 h2 : good h h1 -> (Inv h1 -> good h1 h2) -> good h h2.
Proof. intros [I1 E1] H. destruct (H I1) as [I2 E2]. split; [done|by etrans]. Qed.

Lemma voter_ok_same c v v' :
  voter_ok c v -> log v' = log v -> proofs v' = proofs v -> applied_index v' = applied_index v ->
  application_sequence v' = application_sequence v -> 0 <= snapshot_index v' <= applied_index v -> voter_ok c v'.
Proof.
  intros [? ? ? ? Hs] Hl Hp Ha Hq Hb. split; rewrite ?Hl, ?Hp, ?Ha, ?Hq; try done; [lia|].
  rewrite Hs. unfold application_at. by rewrite Hl.
Qed.

Lemma good_promise_voter h n epoch incarnation :
  Inv h -> good h (set_voter n (promise_voter epoch incarnation) h).
Proof.
  intros HI. apply inv_set_voter; [done|]. intros v Hv Hok. split_and!; [|split_and!; try done; simpl; try lia|done].
  - apply (voter_ok_same _ v); try done. apply (vo_bounds _ _ Hok).
  - intros i p Hp. by exists p.
Qed.

Lemma sum_application_insert v e (l : list Z) :
  (forall i, i ∈ l -> log v !! i <> None -> i = e_index e -> log v !! i = Some e) ->
  (forall i, i ∈ l -> is_Some (log v !! i)) ->
  application_at (log_entry e v) <$> l = application_at v <$> l.
Proof.
  intros Hs Hl. apply list_fmap_ext. intros k i Hi. apply list_elem_of_lookup_2 in Hi. unfold application_at. simpl.
  destruct (decide (i = e_index e)) as [->|Hne].
  - rewrite lookup_insert_eq, (Hs (e_index e)); try done. destruct (Hl _ Hi) as [x Hx]. by rewrite Hx.
  - by rewrite lookup_insert_ne.
Qed.

Lemma good_log_entry h n v e :
  Inv h -> voters h !! n = Some v -> 1 <= e_index e -> same_or_absent (log v !! e_index e) e = true ->
  good h (set_voter n (log_entry e) h).
Proof.
  intros HI Hv Hpos Hsame.
  assert (forall i, log v !! i <> None -> i = e_index e -> log v !! i = Some e) as Hs.
  { intros i Hi ->. unfold same_or_absent in Hsame. destruct (log v !! e_index e); [|done]. bool_tac. by subst. }
  assert (forall i x, log v !! i = Some x -> log (log_entry e v) !! i = Some x) as Hkeep.
  { intros i x Hx. simpl. destruct (decide (i = e_index e)) as [->|Hne].
    - rewrite lookup_insert_eq, <- (Hs (e_index e)); [done|by rewrite Hx|done].
    - by rewrite lookup_insert_ne. }
  apply inv_set_voter; [done|]. intros v' Hv' Hok. rewrite Hv in Hv'. injection Hv' as <-.
  destruct Hok as [L P B X S]. split_and!; [split|split_and!|]; simpl; try done; try lia.
  - intros i x Hx. apply lookup_insert_Some in Hx as [[<- <-]|[_ Hx]]; [done|by apply L].
  - intros i p Hp. apply Hkeep. by apply P.
  - intros i Hi. destruct (X i Hi) as [x Hx]. exists x. by apply Hkeep.
  - rewrite sum_application_insert; [done|intros i _; by apply Hs|].
    intros i Hi. apply elem_of_seqZ in Hi. apply X. lia.
  - intros i p Hp. by exists p.
  - intros i Hi. destruct (X i Hi) as [x Hx]. rewrite Hx. apply Hkeep in Hx. exact Hx.
Qed.

(** Persisting or copying a proof of the entry the voter's own log holds. *)
Lemma good_hold_proof h n v i p :
  Inv h -> voters h !! n = Some v -> log v !! i = Some (p_entry p) -> good h (set_voter n (hold_proof i p) h).
Proof.
  intros HI Hv Hl. apply inv_set_voter; [done|]. intros v' Hv' Hok. rewrite Hv in Hv'. injection Hv' as <-.
  destruct Hok as [L P B X S]. split_and!; [split|split_and!|]; simpl; try done; try lia.
  - intros j q Hq. apply lookup_insert_Some in Hq as [[<- <-]|[_ Hq]]; [done|by apply P].
  - intros j q Hq. destruct (decide (j = i)) as [->|Hne].
    + exists p. rewrite lookup_insert_eq. split; [done|]. apply P in Hq. congruence.
    + exists q. by rewrite lookup_insert_ne.
Qed.

(** ** The operations *)

Lemma max_of_ge l x : x ∈ l -> x <= max_of l.
Proof.
  destruct l as [|y l]; [set_solver|]. simpl. intros Hx.
  assert (y <= fold_right Z.max y l /\ forall z, z ∈ l -> z <= fold_right Z.max y l) as [H1 H2].
  { clear. induction l as [|z l [IH1 IH2]]; simpl; [split; [lia|set_solver]|]. split; [lia|].
    intros w Hw. apply elem_of_cons in Hw as [->|Hw]; [lia|]. apply IH2 in Hw. lia. }
  apply elem_of_cons in Hx as [->|Hx]; auto.
Qed.

Lemma proof_indices_spec h n v i p : voters h !! n = Some v -> proofs v !! i = Some p -> i ∈ proof_indices h.
Proof.
  intros Hv Hp. unfold proof_indices. apply list_elem_of_bind. exists (n, v). split.
  - apply list_elem_of_fmap. exists (i, p). split; [done|]. by apply elem_of_map_to_list.
  - by apply elem_of_map_to_list.
Qed.

Lemma good_drop_suffix h n from :
  Inv h -> Z.max (commit_index h) (max_of (proof_indices h)) < from -> good h (set_voter n (drop_suffix from) h).
Proof.
  intros HI Hfrom. apply inv_set_voter; [done|]. intros v Hv Hok. destruct Hok as [L P B X S].
  assert (forall i p, proofs v !! i = Some p -> i < from) as Hp.
  { intros i p Hp. pose proof (max_of_ge _ _ (proof_indices_spec _ _ _ _ _ Hv Hp)). lia. }
  assert (forall i, i < from -> log (drop_suffix from v) !! i = log v !! i) as Hl.
  { intros i Hi. simpl. destruct (log v !! i) as [x|] eqn:Hx.
    - apply map_lookup_filter_Some. done.
    - apply map_lookup_filter_None. by left. }
  split_and!; [split|split_and!|]; simpl; try done; try lia.
  - intros i e He. apply map_lookup_filter_Some in He as [He _]. by apply L.
  - intros i p Hq. apply map_lookup_filter_Some in Hq as [Hq _]. pose proof (Hp _ _ Hq). rewrite Hl by done. by apply P.
  - intros i Hi. rewrite Hl by lia. by apply X.
  - rewrite S. f_equal. apply list_fmap_ext. intros k i Hi. apply list_elem_of_lookup_2, elem_of_seqZ in Hi.
    unfold application_at. rewrite Hl by lia. done.
  - intros i p Hq. exists p. split; [|done]. apply map_lookup_filter_Some. split; [done|]. left. by eapply Hp.
  - intros i Hi. by rewrite Hl by lia.
Qed.

Lemma sum_app l1 l2 : sum (l1 ++ l2) = sum l1 + sum l2.
Proof. induction l1 as [|x l1 IH]; simpl; [done|]. unfold sum in *. simpl. lia. Qed.

Lemma seqZ_split m n : 0 <= m <= n -> seqZ 1 n = seqZ 1 m ++ seqZ (m + 1) (n - m).
Proof.
  intros H. replace n with (m + (n - m)) at 1 by lia. rewrite seqZ_app by lia.
  by replace (1 + m) with (m + 1) by lia.
Qed.

Lemma good_apply_voter h n v through s :
  Inv h -> voters h !! n = Some v -> applied_index v <= through <= commit_index h ->
  (forall i, applied_index v < i <= through -> is_Some (log v !! i)) ->
  let sequence := application_sequence v + sum (application_at v <$> seqZ (applied_index v + 1) (through - applied_index v)) in
  s = (if decide (n = "node-1"%string) then sequence else leader_sequence h) ->
  good h (History (alter (apply_voter sequence through) n (voters h)) (active_epoch h) (active_incarnation h) (commit_index h) s).
Proof.
  intros HI Hv Hb Hl sequence Hs. apply inv_alter; [done|..].
  - intros v' Hv'. rewrite Hv in Hv'. injection Hv' as <-. pose proof (inv_voter _ HI _ _ Hv) as [L P B X S].
    split; [split|split_and!]; simpl; try done; try lia.
    + intros i Hi. destruct (decide (i <= applied_index v)); [apply X; lia|apply Hl; lia].
    + unfold sequence. rewrite S, <- sum_app, <- fmap_app.
      rewrite (seqZ_split (applied_index v) through) by lia. done.
    + intros i p Hp. by exists p.
  - intros v' Hv'. rewrite Hs. case_decide as Hn.
    + subst n. rewrite lookup_alter_eq, Hv in Hv'. simpl in Hv'. by injection Hv' as <-.
    + rewrite lookup_alter_ne in Hv' by done. by apply (inv_leader _ HI).
Qed.

(** [wp_good] steps through the checks of a call: a failed check leaves the state as it is. *)
Ltac wp_good :=
  repeat lazymatch goal with
  | |- wp (bind _ _) _ _ _ => apply wp_bind
  | |- wp (construct _) _ _ _ => apply wp_construct; [intros ? | by apply good_refl]
  | |- wp (require _ _) _ _ _ => apply wp_require; [intros ? | by apply good_refl]
  | |- wp (get_voter _) _ _ _ => apply wp_get_voter; [intros ? ? | by apply good_refl]
  | |- wp (active _ _) _ _ _ => apply wp_active; [|by apply good_refl]
  | |- wp (quorum _) _ _ _ => apply wp_quorum; [intros (? & ? & ?) | by apply good_refl]
  | |- wp get _ _ _ => apply wp_get
  | |- wp (ret _) _ _ _ => apply wp_ret
  | |- wp (liftr _) _ _ _ => apply wp_liftr; [intros ? ? | by apply good_refl]
  end.

Definition keeps_good {A} (m : M A) : Prop := forall h, Inv h -> wp m (fun _ => good h) (good h) h.

Lemma max_promise_pure nodes h : wp (max_promise nodes) (fun _ h' => h' = h) (fun h' => h' = h) h.
Proof.
  induction nodes as [|n nodes IH]; [done|]. destruct nodes as [|n' nodes].
  - simpl. apply wp_bind, wp_get_voter; [|done]. intros v Hv. by apply wp_ret.
  - cbn [max_promise] in *. apply wp_bind, wp_get_voter; [|done]. intros v Hv. apply wp_bind.
    eapply wp_mono; [apply IH| |done]. intros m h' ->. by apply wp_ret.
Qed.

Lemma promise_good epoch nodes incarnation leader : keeps_good (promise epoch nodes incarnation leader).
Proof.
  intros h HI. unfold promise. wp_good. eapply wp_mono; [apply max_promise_pure| |intros h' ->; by apply good_refl].
  intros m h' ->. wp_good. eapply (wp_mono _ (fun _ => good h) _ (good h)).
  - unfold promise_loop. apply wp_for_each; [by apply good_refl|]. intros n h' _ Hh'. apply wp_modify.
    eapply good_step; [done|]. intros HI'. by apply good_promise_voter.
  - intros [] h' Hh'. apply wp_modify. eapply good_step; [done|]. intros HI'. by apply inv_set_active.
  - done.
Qed.

Lemma append_good node e : 1 <= e_index e -> keeps_good (append node e).
Proof.
  intros Hpos h HI. unfold append. wp_good.
  destruct (1 <? e_index e); wp_good; apply wp_modify; by eapply good_log_entry.
Qed.

Lemma validate_good node p (Q : unit -> history -> Prop) h :
  Inv h ->
  (forall v, voters h !! node = Some v -> log v !! e_index (p_entry p) = Some (p_entry p) -> Q tt h) ->
  wp (validate_proof_target node p) Q (good h) h.
Proof. intros HI HQ. unfold validate_proof_target. wp_good. bool_tac. by eapply HQ. Qed.

Lemma persist_good node p : keeps_good (persist_proof node p).
Proof.
  intros h HI. unfold persist_proof. apply wp_bind, validate_good; [done|]. intros v Hv Hl.
  wp_good. apply wp_modify. by eapply good_hold_proof.
Qed.

Lemma acknowledged_by_two h p (acks : list (string * string)) :
  (2 <= length acks.*1)%nat -> NoDup acks.*1 -> forallb (acknowledged h p) acks = true ->
  proven_by_two h (e_index (p_entry p)).
Proof.
  destruct acks as [|[a da] [|[b db] acks]]; simpl; [lia..|]. intros _ Hnd Hack.
  apply NoDup_cons in Hnd as [Hn _]. unfold acknowledged in Hack. simpl in Hack. bool_tac.
  destruct (voters h !! a) as [va|] eqn:Ha; [|done]. destruct (voters h !! b) as [vb|] eqn:Hb; [|done]. bool_tac.
  exists a, b, va, vb, p, p. split_and!; try done. intros ->. apply Hn. by left.
Qed.

Lemma complete_good p acks : keeps_good (complete_commit p acks).
Proof.
  intros h HI. unfold complete_commit. wp_good. apply wp_modify. bool_tac. apply inv_set_commit; [done..|].
  by eapply acknowledged_by_two.
Qed.

Lemma seq_good {A B} (m : M A) (k : A -> M B) :
  keeps_good m -> (forall a, keeps_good (k a)) -> keeps_good (bind m k).
Proof.
  intros Hm Hk h HI. apply wp_bind. eapply wp_mono; [by apply Hm| |done]. intros a h' [HI' HE'].
  eapply wp_mono; [by apply Hk|..]; intros; (eapply good_step; [by split|done]).
Qed.

Lemma ret_good {A} (a : A) : keeps_good (ret a : M A).
Proof. intros h HI. by apply good_refl. Qed.

Lemma persist_all_good nodes p : keeps_good (persist_all nodes p).
Proof.
  induction nodes as [|n nodes IH]; simpl; [apply ret_good|].
  apply seq_good; [apply persist_good|]. intros d. apply seq_good; [done|]. intros acks. apply ret_good.
Qed.

Lemma prepare_good e receipts : keeps_good (prepare_proof e receipts).
Proof. intros h HI. unfold prepare_proof. wp_good. by apply good_refl. Qed.

Lemma validate_all_good nodes p : keeps_good (for_each nodes (fun node => validate_proof_target node p)).
Proof.
  induction nodes as [|n nodes IH]; simpl; [apply ret_good|]. apply seq_good; [|intros []; apply IH].
  intros h HI. apply validate_good; [done|]. intros. by apply good_refl.
Qed.

Lemma commit_good e receipts nodes : keeps_good (commit e receipts nodes).
Proof.
  unfold commit. apply seq_good; [intros h HI; apply wp_quorum; intros; by apply good_refl|]. intros [].
  apply seq_good; [apply prepare_good|]. intros p. apply seq_good; [apply validate_all_good|]. intros [].
  apply seq_good; [apply persist_all_good|]. intros acks. apply seq_good; [apply complete_good|]. intros []. apply ret_good.
Qed.

Lemma apply_good node through : keeps_good (apply node through).
Proof.
  intros h HI. unfold apply. wp_good. bool_tac. apply wp_modify.
  assert (forall i, applied_index v < i <= through -> is_Some (log v !! i)) as Hl.
  { intros i Hi. match goal with Hf : forallb (logged v) _ = true |- _ => rewrite forallb_forall in Hf;
      specialize (Hf i); unfold logged in Hf; apply bool_decide_eq_true in Hf; [done|] end.
    apply list_elem_of_In, elem_of_seqZ. lia. }
  assert (applied_index v <= through <= commit_index h) as Hb by lia.
  destruct (decide (node = "node-1"%string)) as [Hn|Hn].
  - rewrite bool_decide_true by done. apply wp_modify. apply (good_apply_voter h node v through); try done. by rewrite decide_True.
  - rewrite bool_decide_false by done. apply wp_ret. apply (good_apply_voter h node v through); try done. by rewrite decide_False.
Qed.

Lemma copy_good source target index : keeps_good (copy_committed_proof source target index).
Proof.
  intros h HI. unfold copy_committed_proof. wp_good. apply wp_modify. apply of_option_ok in H3.
  pose proof (inv_voter _ HI _ _ H) as Hs. pose proof (vo_proofs _ _ Hs _ _ H3) as Hl.
  destruct (vo_log _ _ Hs _ _ Hl) as [_ Hpos]. eapply good_hold_proof; [done|exact H0|].
  rewrite forallb_forall in H2. specialize (H2 index). rewrite andb_true_iff, bool_decide_eq_true in H2.
  destruct H2 as [-> _]; [|done]. apply list_elem_of_In, elem_of_seqZ. lia.
Qed.

Lemma install_good node index : keeps_good (install_snapshot node index).
Proof.
  intros h HI. unfold install_snapshot. wp_good. apply wp_modify. bool_tac. apply inv_set_voter; [done|].
  intros w Hw Hok. rewrite H in Hw. injection Hw as <-. pose proof (vo_bounds _ _ Hok).
  split_and!; [by apply (voter_ok_same _ v); simpl; try lia|split_and!|done]; simpl; try done; try lia.
  intros i p Hp. by exists p.
Qed.

Lemma truncate_good node from : keeps_good (truncate_uncommitted node from).
Proof. intros h HI. unfold truncate_uncommitted. wp_good. apply wp_modify. bool_tac. by apply good_drop_suffix. Qed.

Lemma construct_good {A} e (k : entry -> M A) :
  (forall e', 1 <= e_index e' -> keeps_good (k e')) -> keeps_good (bind (construct e) k).
Proof. intros Hk h HI. apply wp_bind, wp_construct; [|by apply good_refl]. intros Hpos. by apply Hk. Qed.

Theorem perform_good c : keeps_good (perform c).
Proof.
  destruct c; cbn [perform].
  - apply promise_good.
  - apply construct_good. intros e' He. apply seq_good; [by apply append_good|intros; apply ret_good].
  - unfold construct_proof. intros h HI. apply wp_bind, wp_bind, wp_construct; [|by apply good_refl]. intros _.
    apply wp_ret. apply seq_good; [apply persist_good|intros; apply ret_good|done].
  - unfold construct_proof. intros h HI. apply wp_bind, wp_bind, wp_construct; [|by apply good_refl]. intros _.
    apply wp_ret. by apply complete_good.
  - apply construct_good. intros e' _. apply seq_good; [apply commit_good|intros; apply ret_good].
  - apply apply_good.
  - apply copy_good.
  - apply install_good.
  - apply truncate_good.
Qed.

Lemma after_good c h : Inv h -> good h (after c h).
Proof.
  intros HI. pose proof (perform_good c h HI) as Hw. unfold wp in Hw. unfold after.
  destruct (perform c h) as [[[]|e] h']; done.
Qed.

Lemma run_good calls h : Inv h -> good h (run calls h).
Proof.
  revert h. induction calls as [|c calls IH]; intros h HI; simpl; [by apply good_refl|].
  pose proof (after_good c h HI) as Hg. eapply good_step; [done|]. intros HI'. by apply IH.
Qed.

Lemma inv_history0 : Inv history0.
Proof.
  split; [vm_compute; reflexivity| | |].
  - intros n v Hv. apply elem_of_list_to_map_2, list_elem_of_fmap in Hv as (m & [= _ ->] & _).
    split; simpl; try done; try lia; intros i x Hx; done.
  - intros v Hv. vm_compute in Hv. by injection Hv as <-.
  - by left.
Qed.

Lemma reachable_inv calls : Inv (run calls history0).
Proof. apply run_good, inv_history0. Qed.
