(* ===== verification/ReplicatedHistoryAtomic.v ===== *)
(** * A call of the replicated-history model that raises changes nothing *)

From stdpp Require Import base gmap sets strings list sorting pretty.
From S2P Require Import Prelude Bytes Sha256 ReplicatedHistory ReplicatedHistorySafety.
Import StateNotations ResultNotations.
Local Open Scope py_scope.
Local Open Scope Z_scope.

Definition still {A} (m : M A) : Prop := forall h, snd (m h) = h.
Definition sure {A} (m : M A) : Prop := forall h, is_ok (fst (m h)) = true.
Definition atomic {A} (m : M A) : Prop := forall h e h', m h = (Err e, h') -> h' = h.

Lemma still_ret {A} (a : A) : still (ret a). Proof. done. Qed.
Lemma still_liftr {A} (r : result A) : still (liftr r). Proof. done. Qed.
Lemma still_get : still get. Proof. done. Qed.
Lemma still_bind {A B} (m : M A) (k : A -> M B) : still m -> (forall a, still (k a)) -> still (bind m k).
Proof.
  intros Hm Hk h. unfold bind. specialize (Hm h). destruct (m h) as [[a|e] h']; simpl in *; subst; [apply Hk|done].
Qed.
Lemma still_get_voter n : still (get_voter n).
Proof. apply still_bind; [apply still_get|]. intros h. apply still_liftr. Qed.
Lemma still_require b msg : still (require b msg). Proof. apply still_liftr. Qed.
Lemma still_active v e : still (active v e).
Proof. apply still_bind; [apply still_get|]. intros h. apply still_require. Qed.
Lemma still_quorum nodes : still (quorum nodes). Proof. apply still_require. Qed.
Lemma still_construct e : still (construct e). Proof. apply still_liftr. Qed.

Create HintDb still discriminated.
#[export] Hint Resolve still_ret still_liftr still_get still_get_voter still_require still_active still_quorum still_construct : still.
Ltac still := repeat first [solve [auto with still] | apply still_bind; [|intros ?] | match goal with |- still (if ?b then _ else _) => destruct b end].

Lemma still_max_promise nodes : still (max_promise nodes).
Proof.
  induction nodes as [|n nodes IH]; [done|]. destruct nodes as [|n' nodes]; [simpl; still|].
  cbn [max_promise] in *. still.
Qed.
Lemma still_validate n p : still (validate_proof_target n p).
Proof. unfold validate_proof_target. still. Qed.
Lemma still_prepare e receipts : still (prepare_proof e receipts).
Proof. unfold prepare_proof. still. Qed.
Lemma still_for_each (nodes : list string) (body : string -> M unit) : (forall n, still (body n)) -> still (for_each nodes body).
Proof. intros Hb. induction nodes as [|n nodes IH]; simpl; still. Qed.
#[export] Hint Resolve still_max_promise still_validate still_prepare : still.

Lemma atomic_still {A} (m : M A) : still m -> atomic m.
Proof. intros Hm h e h' H. specialize (Hm h). by rewrite H in Hm. Qed.
Lemma atomic_sure {A} (m : M A) : sure m -> atomic m.
Proof. intros Hm h e h' H. specialize (Hm h). by rewrite H in Hm. Qed.
Lemma atomic_bind {A B} (m : M A) (k : A -> M B) : still m -> (forall a, atomic (k a)) -> atomic (bind m k).
Proof.
  intros Hm Hk h e h'. unfold bind. specialize (Hm h). destruct (m h) as [[a|e0] h0]; simpl in *; subst h0.
  - apply Hk.
  - by intros [= _ ->].
Qed.
Lemma atomic_then {A B} (m : M A) (k : A -> M B) : atomic m -> (forall a, sure (k a)) -> atomic (bind m k).
Proof.
  intros Hm Hk h e h'. unfold bind. destruct (m h) as [[a|e0] h0] eqn:E; simpl in *.
  - intros H. specialize (Hk a h0). by rewrite H in Hk.
  - intros [= <- <-]. by eapply Hm.
Qed.
Lemma sure_modify f : sure (modify f : M unit). Proof. done. Qed.
Lemma sure_ret {A} (a : A) : sure (ret a). Proof. done. Qed.
Lemma sure_bind {A B} (m : M A) (k : A -> M B) : sure m -> (forall a, sure (k a)) -> sure (bind m k).
Proof.
  intros Hm Hk h. unfold bind. specialize (Hm h). destruct (m h) as [[a|e] h']; simpl in *; [apply Hk|done].
Qed.
Lemma sure_for_each (nodes : list string) (body : string -> M unit) : (forall n, sure (body n)) -> sure (for_each nodes body).
Proof. intros Hb. induction nodes as [|n nodes IH]; simpl; [apply sure_ret|]. apply sure_bind; [apply Hb|intros _; apply IH]. Qed.

#[export] Hint Resolve sure_modify sure_ret : still.
Ltac atomic :=
  repeat first
    [ solve [apply atomic_still; auto with still] | solve [apply atomic_sure; auto with still]
    | apply atomic_bind; [solve [still]|intros ?]
    | match goal with |- atomic (if ?b then _ else _) => destruct b end
    | apply atomic_sure, sure_bind; [auto with still|intros ?; auto with still] ].

Lemma promise_atomic epoch nodes incarnation leader : atomic (promise epoch nodes incarnation leader).
Proof.
  unfold promise. atomic. apply sure_for_each. intros n. auto with still.
Qed.
Lemma append_atomic node e : atomic (append node e).
Proof. unfold append. atomic. Qed.
Lemma persist_atomic node p : atomic (persist_proof node p).
Proof. unfold persist_proof. atomic. Qed.
Lemma complete_atomic p acks : atomic (complete_commit p acks).
Proof. unfold complete_commit. atomic. Qed.
Lemma apply_atomic node through : atomic (apply node through).
Proof.
  unfold apply. atomic. destruct (bool_decide _); auto with still.
Qed.
Lemma copy_atomic source target index : atomic (copy_committed_proof source target index).
Proof. unfold copy_committed_proof. atomic. Qed.
Lemma install_atomic node index : atomic (install_snapshot node index).
Proof. unfold install_snapshot. atomic. Qed.
Lemma truncate_atomic node from : atomic (truncate_uncommitted node from).
Proof. unfold truncate_uncommitted. atomic. Qed.

(** ** [commit] validates every target before it changes any of them *)

Definition is_active (h : history) (v : voter) (e : entry) : bool :=
  negb (negb (e_epoch e =? active_epoch h)
      || negb (bool_decide (e_incarnation e = active_incarnation h))
      || (e_epoch e <? promised_epoch v)
      || ((e_epoch e =? promised_epoch v) && negb (bool_decide (e_incarnation e = promised_incarnation v)))).

Definition is_target (h : history) (n : string) (p : commit_proof) : Prop :=
  exists v, voters h !! n = Some v /\ is_active h v (p_entry p) = true /\ fst (quorum (p_receipts p).*1 h) = Ok tt
    /\ forallb (fun r : string * string => bool_decide (r.2 = receipt r.1 (p_entry p))) (p_receipts p) = true
    /\ log v !! e_index (p_entry p) = Some (p_entry p)
    /\ match proofs v !! e_index (p_entry p) with Some q => bool_decide (p_entry q = p_entry p) | None => true end = true.

Lemma require_true b msg h : b = true -> require b msg h = (Ok tt, h).
Proof. by intros ->. Qed.
Lemma get_voter_some n v h : voters h !! n = Some v -> get_voter n h = (Ok v, h).
Proof. intros Hv. unfold get_voter, bind, get, liftr. by rewrite Hv. Qed.
Lemma active_true v e h : is_active h v e = true -> active v e h = (Ok tt, h).
Proof. intros Ha. unfold active, bind, get. by apply require_true. Qed.
Lemma bind_run {A B} (m : M A) (k : A -> M B) h a h1 : m h = (Ok a, h1) -> bind m k h = k a h1.
Proof. unfold bind. by intros ->. Qed.
Lemma quorum_same nodes h h' : fst (quorum nodes h) = Ok tt -> quorum nodes h' = (Ok tt, h').
Proof. unfold quorum, require, liftr. simpl. by intros ->. Qed.

Lemma get_voter_inv n v h h' : get_voter n h = (Ok v, h') -> voters h !! n = Some v /\ h' = h.
Proof.
  unfold get_voter. intros H. ok_inv H. by injection Hx as <- <-.
Qed.
Lemma require_inv b msg h u h' : require b msg h = (Ok u, h') -> b = true /\ h' = h.
Proof. unfold require. intros H. ok_inv H. done. Qed.
Lemma active_inv v e h u h' : active v e h = (Ok u, h') -> is_active h v e = true /\ h' = h.
Proof. unfold active. intros H. ok_inv H. injection Hx as <- <-. by apply require_inv in H. Qed.
Lemma quorum_inv nodes h u h' : quorum nodes h = (Ok u, h') -> fst (quorum nodes h) = Ok tt /\ h' = h.
Proof. intros H. destruct u. rewrite H. split; [done|]. pose proof (still_quorum nodes h) as Hs. by rewrite H in Hs. Qed.

Ltac run_inv :=
  repeat match goal with
  | H : get_voter _ _ = (Ok _, _) |- _ => apply get_voter_inv in H as [? ?]; subst
  | H : require _ _ _ = (Ok _, _) |- _ => apply require_inv in H as [? ?]; subst
  | H : active _ _ _ = (Ok _, _) |- _ => apply active_inv in H as [? ?]; subst
  | H : quorum _ _ = (Ok _, _) |- _ => apply quorum_inv in H as [? ?]; subst
  | H : get _ = (Ok _, _) |- _ => injection H as <- <-
  end.

Lemma validate_target n p h : validate_proof_target n p h = (Ok tt, h) <-> is_target h n p.
Proof.
  unfold validate_proof_target, is_target. split.
  - intros H. ok_inv H. run_inv. exists x. bool_tac. split_and!; try done.
  - intros (v & Hv & Ha & Hq & Hr & Hl & Hp).
    rewrite (bind_run _ _ _ v h) by (by apply get_voter_some). rewrite (bind_run _ _ _ tt h) by (by apply active_true).
    rewrite (bind_run _ _ _ tt h) by (by eapply quorum_same).
    rewrite (bind_run _ _ _ tt h) by (by apply require_true).
    rewrite (bind_run _ _ _ tt h) by (apply require_true; by apply bool_decide_eq_true). by apply require_true.
Qed.

(** States that differ from [h] in proofs [p] only. *)
Definition forced (p : commit_proof) (h h2 : history) : Prop :=
  commit_index h2 = commit_index h /\ active_epoch h2 = active_epoch h /\ active_incarnation h2 = active_incarnation h
  /\ forall n v, voters h !! n = Some v ->
       voters h2 !! n = Some v \/ voters h2 !! n = Some (hold_proof (e_index (p_entry p)) p v).

Lemma hold_proof_twice i p v : hold_proof i p (hold_proof i p v) = hold_proof i p v.
Proof. unfold hold_proof. simpl. by rewrite insert_insert_eq. Qed.

Lemma is_target_forced p h h2 n : forced p h h2 -> is_target h n p -> is_target h2 n p.
Proof.
  intros (C & E & I & V) (v & Hv & Ha & Hq & Hr & Hl & Hp). destruct (V _ _ Hv) as [Hv2|Hv2].
  - exists v. unfold is_active in *. rewrite E, I. split_and!; try done.
  - exists (hold_proof (e_index (p_entry p)) p v). unfold is_active in *. simpl. rewrite E, I. split_and!; try done.
    rewrite lookup_insert_eq. by apply bool_decide_eq_true.
Qed.

Lemma forced_step p h h2 n : forced p h h2 -> forced p h (set_voter n (hold_proof (e_index (p_entry p)) p) h2).
Proof.
  intros (C & E & I & V). split_and!; try done. intros m v Hv. simpl. destruct (decide (n = m)) as [->|Hne].
  - rewrite lookup_alter_eq. right. destruct (V _ _ Hv) as [-> | ->]; simpl; [done|]. by rewrite hold_proof_twice.
  - rewrite lookup_alter_ne by done. by apply V.
Qed.

Definition holds (p : commit_proof) (h : history) (n : string) : Prop :=
  exists v, voters h !! n = Some v /\ proofs v !! e_index (p_entry p) = Some p.

Lemma holds_step p h n m : holds p h n -> holds p (set_voter m (hold_proof (e_index (p_entry p)) p) h) n.
Proof.
  intros (v & Hv & Hp). unfold holds. simpl. destruct (decide (m = n)) as [->|Hne].
  - rewrite lookup_alter_eq, Hv. eexists. split; [done|]. simpl. by rewrite lookup_insert_eq.
  - rewrite lookup_alter_ne by done. by exists v.
Qed.

Lemma persist_all_forced p h nodes h2 :
  forced p h h2 -> (forall n, n ∈ nodes -> is_target h n p) ->
  exists h3, persist_all nodes p h2 = (Ok ((fun n => (n, proof_digest p)) <$> nodes), h3) /\ forced p h h3
    /\ (forall n, holds p h2 n -> holds p h3 n) /\ (forall n, n ∈ nodes -> holds p h3 n).
Proof.
  revert h2. induction nodes as [|n nodes IH]; intros h2 HF HT.
  - exists h2. split_and!; try done. set_solver.
  - set (h1 := set_voter n (hold_proof (e_index (p_entry p)) p) h2).
    assert (persist_proof n p h2 = (Ok (proof_digest p), h1)) as Hp.
    { unfold persist_proof. rewrite (bind_run _ _ _ tt h2); [done|].
      apply validate_target, (is_target_forced p h); [done|]. apply HT. by left. }
    destruct (IH h1) as (h3 & Hall & HF3 & Hk & Hn); [by apply forced_step|set_solver|].
    exists h3. split_and!; try done.
    + cbn [persist_all]. rewrite (bind_run _ _ _ _ _ Hp), (bind_run _ _ _ _ _ Hall). done.
    + intros m Hm. by apply Hk, holds_step.
    + intros m Hm. apply elem_of_cons in Hm as [->|Hm]; [|by apply Hn]. apply Hk.
      destruct (HT n) as (v & Hv & _); [by left|]. unfold holds, h1. simpl. destruct HF as (_ & _ & _ & V).
      rewrite lookup_alter_eq. destruct (V _ _ Hv) as [-> | ->]; eexists; (split; [done|]); simpl; by rewrite lookup_insert_eq.
Qed.

Lemma complete_forced p h h3 nodes leader :
  forced p h h3 -> fst (quorum nodes h) = Ok tt -> (forall n, n ∈ nodes -> holds p h3 n) ->
  voters h !! "node-1"%string = Some leader -> is_active h leader (p_entry p) = true ->
  commit_index h <= e_index (p_entry p) <= commit_index h + 1 ->
  is_ok (fst (complete_commit p ((fun n => (n, proof_digest p)) <$> nodes) h3)) = true.
Proof.
  intros (C & E & I & V) Hq Hh Hl Ha Hi. unfold complete_commit.
  assert (exists l, voters h3 !! "node-1"%string = Some l /\ is_active h3 l (p_entry p) = true) as (l & Hl3 & Ha3).
  { unfold is_active in *. rewrite E, I. destruct (V _ _ Hl) as [Hv|Hv]; eexists; (split; [exact Hv|]); done. }
  rewrite (bind_run _ _ _ l h3) by (by apply get_voter_some). rewrite (bind_run _ _ _ tt h3) by (by apply active_true).
  rewrite <- list_fmap_compose. rewrite (bind_run _ _ _ tt h3).
  2:{ rewrite (list_fmap_ext _ id); [|done]. rewrite list_fmap_id. by eapply quorum_same. }
  rewrite (bind_run _ _ _ h3 h3) by done. rewrite (bind_run _ _ _ tt h3).
  2:{ apply require_true. apply forallb_forall. intros [n d] Hin. apply list_elem_of_In, list_elem_of_fmap in Hin as (m & [= -> ->] & Hm).
      destruct (Hh m Hm) as (v & Hv & Hp). unfold acknowledged. cbn [fst snd]. rewrite Hv, !bool_decide_true by done. done. }
  rewrite (bind_run _ _ _ tt h3); [done|]. apply require_true. rewrite C. apply andb_true_iff.
  split; apply Z.leb_le; lia.
Qed.

Lemma validate_all_inv nodes p h u h' :
  for_each nodes (fun n => validate_proof_target n p) h = (Ok u, h') -> h' = h /\ forall n, n ∈ nodes -> is_target h n p.
Proof.
  revert h. induction nodes as [|n nodes IH]; intros h H; simpl in H.
  - ok_inv H. subst. split; [done|set_solver].
  - ok_inv H. pose proof (still_validate n p h) as Hs. rewrite Hx in Hs. simpl in Hs. subst s. destruct x.
    apply IH in H as [-> Hn]. split; [done|]. intros m Hm. apply elem_of_cons in Hm as [->|Hm]; [|by apply Hn].
    by apply validate_target.
Qed.

Lemma prepare_inv e receipts h p h' :
  prepare_proof e receipts h = (Ok p, h') ->
  h' = h /\ p_entry p = e /\ p_receipts p = durable_receipts h e receipts
  /\ (2 <= length (p_receipts p))%nat
  /\ commit_index h <= e_index e <= commit_index h + 1
  /\ exists leader, voters h !! "node-1"%string = Some leader /\ is_active h leader e = true
       /\ log leader !! e_index e = Some e.
Proof.
  unfold prepare_proof. intros H. ok_inv H. run_inv. subst. simpl. bool_tac.
  unfold QUORUM in *. split_and!; try done; try lia. by exists x.
Qed.

Lemma commit_atomic e receipts nodes : atomic (commit e receipts nodes).
Proof.
  unfold commit. intros h x h' H. unfold bind in H.
  destruct (quorum nodes h) as [[u|y] h1] eqn:Hq; [|injection H as _ <-; by pose proof (still_quorum nodes h) as Hs; rewrite Hq in Hs].
  apply quorum_inv in Hq as [Hq ->].
  destruct (prepare_proof e receipts h) as [[p|y] h1] eqn:Hp; [|injection H as _ <-; by pose proof (still_prepare e receipts h) as Hs; rewrite Hp in Hs].
  apply prepare_inv in Hp as (-> & <- & _ & _ & Hi & leader & Hl & Ha & _).
  destruct (for_each nodes _ h) as [[u'|y] h1] eqn:Hf.
  2:{ injection H as _ <-. pose proof (still_for_each nodes (fun n => validate_proof_target n p) (fun n => still_validate n p) h) as Hs.
      by rewrite Hf in Hs. }
  apply validate_all_inv in Hf as [-> Ht].
  destruct (persist_all_forced p h nodes h) as (h3 & Hall & HF & _ & Hh); [|done|].
  { split_and!; try done. intros n v Hv. by left. }
  rewrite Hall in H. pose proof (complete_forced p h h3 nodes leader HF Hq Hh Hl Ha Hi) as Hc.
  destruct (complete_commit p _ h3) as [[u''|y] h4]; done.
Qed.

Lemma perform_atomic c : atomic (perform c).
Proof.
  destruct c; cbn [perform]; unfold construct_proof.
  - apply promise_atomic.
  - apply atomic_bind; [auto with still|]. intros e'. apply atomic_then; [apply append_atomic|intros; auto with still].
  - apply atomic_bind; [still|]. intros p'. apply atomic_then; [apply persist_atomic|intros; auto with still].
  - apply atomic_bind; [still|]. intros p'. apply complete_atomic.
  - apply atomic_bind; [auto with still|]. intros e'. apply atomic_then; [apply commit_atomic|intros; auto with still].
  - apply apply_atomic.
  - apply copy_atomic.
  - apply install_atomic.
  - apply truncate_atomic.
Qed.
