(* ===== verification/ModelNetwork.v ===== *)
(** * Messages against the replicated-history model ([scripts/v50/model_network.py])

    The adapter that turns deliveries of the deterministic transport into calls of
    [ReplicatedHistory]: forces, acknowledgements, proof preparation and application.  The decoded
    payload object is a record of the fields the adapter reads, each absent or present. *)

From stdpp Require Import base gmap sets strings list.
From S2P Require Import Prelude Bytes Sha256 Files Json Transport ReplicatedHistory.
Import StateNotations ResultNotations.
Local Open Scope py_scope.
Local Open Scope Z_scope.

Record payload := PayloadFields {
  pl_epoch : option Z;
  pl_voters : option (list string);
  pl_incarnation : option string;
  pl_entry : option entry
}.

Definition entry_json (e : entry) : json := JObject [
  ("index"%string, JInt (e_index e)); ("epoch"%string, JInt (e_epoch e));
  ("operation"%string, JString (e_operation e)); ("payload_digest"%string, JString (e_payload_digest e));
  ("predecessor_digest"%string, JString (e_predecessor e)); ("incarnation"%string, JString (e_incarnation e))].

Definition field {A} (name : string) (f : A -> json) (o : option A) : list (string * json) :=
  match o with Some a => [(name, f a)] | None => [] end.

Definition payload_object (p : payload) : json := JObject
  (field "epoch" JInt (pl_epoch p) ++ field "voters" (fun l => JArray (JString <$> l)) (pl_voters p)
   ++ field "incarnation" JString (pl_incarnation p) ++ field "entry" entry_json (pl_entry p)).
#[export] Instance network_payload : Payload payload := payload_object.

(** ** [ModelNetwork] *)

Record network := Network {
  n_history : history;
  n_entry_acks : gmap Z (gmap string string);
  n_proof_acks : gmap Z (gmap string string);
  n_proofs : gmap Z commit_proof
}.
Definition network0 : network := Network history0 ∅ ∅ ∅.

Definition N := ST network.

(** A call of [self.history]. *)
Definition on_history {A} (m : M A) : N A := fun n =>
  match m (n_history n) with
  | (r, h) => (r, Network h (n_entry_acks n) (n_proof_acks n) (n_proofs n))
  end.

(** [acks.setdefault(index, {})[node] = digest] *)
Definition set_ack (i : Z) (node digest : string) (acks : gmap Z (gmap string string)) : gmap Z (gmap string string) :=
  <[i := <[node := digest]> (default ∅ (acks !! i))]> acks.
Definition add_entry_ack (i : Z) (node digest : string) (n : network) : network :=
  Network (n_history n) (set_ack i node digest (n_entry_acks n)) (n_proof_acks n) (n_proofs n).
Definition add_proof_ack (i : Z) (node digest : string) (n : network) : network :=
  Network (n_history n) (n_entry_acks n) (set_ack i node digest (n_proof_acks n)) (n_proofs n).
Definition add_proof (i : Z) (p : commit_proof) (n : network) : network :=
  Network (n_history n) (n_entry_acks n) (n_proof_acks n) (<[i := p]> (n_proofs n)).

Inductive value := Number (z : Z) | Text (s : string).

Definition check (b : bool) (msg : string) : N unit := liftr (guard b (ValueError msg)).
Definition is_type (d : delivery) (types : list string) : bool := bool_decide (d_type d ∈ types).

Definition activate (p : payload) : N value :=
  let* epoch := liftr (of_option (pl_epoch p) KeyError) in
  let* nodes := liftr (of_option (pl_voters p) KeyError) in
  do* on_history (promise epoch nodes (default "leader-1"%string (pl_incarnation p)) "node-1") in
  let* n := get in
  ret (Number (active_epoch (n_history n))).

Definition durable_ack (source : string) (e : entry) : N value :=
  let* v := on_history (get_voter source) in
  do* check (bool_decide (log v !! e_index e = Some e)) "ACK precedes durable entry" in
  do* on_history (active v e) in
  do* modify (add_entry_ack (e_index e) source (receipt source e)) in
  ret (Text (entry_digest e)).

Definition prepare_message (e : entry) : N value :=
  let* n := get in
  let* p := on_history (prepare_proof e (default ∅ (n_entry_acks n !! e_index e))) in
  do* modify (add_proof (e_index e) p) in
  ret (Text (proof_digest p)).

Definition proof_ack (source : string) (e : entry) (p : commit_proof) : N value :=
  let* v := on_history (get_voter source) in
  do* check (bool_decide (proofs v !! e_index e = Some p)) "ACK precedes durable proof" in
  do* modify (add_proof_ack (e_index e) source (proof_digest p)) in
  ret (Text (proof_digest p)).

Definition commit_message (source : string) (e : entry) (p : commit_proof) : N value :=
  do* check (bool_decide (source = "node-1"%string)) "only configured leader completes commitment" in
  let* n := get in
  do* on_history (complete_commit p (map_to_list (default ∅ (n_proof_acks n !! e_index e)))) in
  let* n := get in
  ret (Number (commit_index (n_history n))).

Definition apply_message (target : string) (e : entry) : N value :=
  do* on_history (apply target (e_index e)) in
  let* v := on_history (get_voter target) in
  ret (Number (application_sequence v)).

(** The messages about a prepared proof. *)
Definition proof_message (event : delivery) (e : entry) : N value :=
  let* n := get in
  let* p := liftr (of_option (n_proofs n !! e_index e) (ValueError "no prepared proof for the exact entry")) in
  do* check (bool_decide (p_entry p = e)) "no prepared proof for the exact entry" in
  if is_type event ["COMMIT_PROOF"] then
    let* d := on_history (persist_proof (d_target event) p) in ret (Text d)
  else if is_type event ["COMMIT_PROOF_ACK"] then proof_ack (d_source event) e p
  else if is_type event ["COMMIT"] then commit_message (d_source event) e p
  else if is_type event ["APPLY"] then apply_message (d_target event) e
  else raise (ValueError "unsupported model message").

Definition entry_message (event : delivery) (e : entry) : N value :=
  do* check (negb (is_type event ["APPEND"; "PREPARE_PROOF"; "COMMIT_PROOF"; "APPLY"]
        && negb (bool_decide (d_source event = "node-1"%string))))
    "only the configured leader may send this message" in
  do* check (negb (is_type event ["DURABLE_ACK"; "COMMIT_PROOF_ACK"; "COMMIT"; "PREPARE_PROOF"]
        && negb (bool_decide (d_target event = "node-1"%string))))
    "acknowledgements/commit belong to the configured leader" in
  if is_type event ["APPEND"] then
    let* r := on_history (append (d_target event) e) in ret (Text r)
  else if is_type event ["DURABLE_ACK"] then durable_ack (d_source event) e
  else if is_type event ["PREPARE_PROOF"] then prepare_message e
  else proof_message event e.

(** [receive]; [t] is the trace the network was built on. *)
Definition receive (t : transport payload) (event : delivery) : N value :=
  let* p := liftr (payload_of t event) in
  let* n := get in
  do* check (bool_decide (is_Some (voters (n_history n) !! d_source event))
        && bool_decide (is_Some (voters (n_history n) !! d_target event))) "unknown voter" in
  if is_type event ["ACTIVATE"] then
    do* check (bool_decide (d_source event = "node-1"%string) && bool_decide (d_target event = "node-1"%string))
      "activation must run at the configured leader" in
    activate p
  else
    let* raw := liftr (of_option (pl_entry p) KeyError) in
    let* e := on_history (construct raw) in
    entry_message event e.

(** [run]: the transcript, and the network the replay leaves behind. *)
Definition run_network (t : transport payload) : result (list (row value)) * network := replay (receive t) t network0.
