(* ===== verification/ModelNetworkSafety.v ===== *)
(** * Agreement of the voters under message replay

    Behind the message adapter logs only grow, so the entry a commit proof was prepared from stays
    in the logs of a quorum; quorums intersect, and the digests chain each log. *)

From stdpp Require Import base gmap sets strings list.
From S2P Require Import Prelude Bytes Sha256 Files Json Transport ReplicatedHistory ReplicatedHistorySafety ReplicatedHistoryAtomic ModelNetwork.
Import StateNotations ResultNotations.
Local Open Scope py_scope.
Local Open Scope Z_scope.

(** ** Calls that leave a view of every voter as it is *)

Definition view_at {X} (view : voter -> X) (h : history) (n : string) : option X := view <$> voters h !! n.
Definition log_at : history -> string -> option (gmap Z entry) := view_at log.
Definition evidence (v : voter) : gmap Z commit_proof * Z := (proofs v, applied_index v).

Section View.
Context {X : Type} (view : voter -> X).

Definition same_view (h h' : history) : Prop := forall n, view_at view h' n = view_at view h n.
Definition keeps_view {A} (m : M A) : Prop := forall h, same_view h (snd (m h)).

Lemma keeps_view_still {A} (m : M A) : still m -> keeps_view m.
Proof. intros Hm h n. by rewrite Hm. Qed.

Lemma keeps_view_bind {A B} (m : M A) (k : A -> M B) : keeps_view m -> (forall a, keeps_view (k a)) -> keeps_view (bind m k).
Proof.
  intros Hm Hk h n. unfold bind. specialize (Hm h n). destruct (m h) as [[a|e] h']; simpl in *; [|done].
  by rewrite Hk.
Qed.

Lemma keeps_view_set_voter n f : (forall v, view (f v) = view v) -> keeps_view (modify (set_voter n f) : M unit).
Proof.
  intros Hf h m. unfold view_at. simpl. destruct (decide (n = m)) as [->|Hne].
  - rewrite lookup_alter_eq. destruct (voters h !! m) as [v|]; simpl; [by rewrite Hf|done].
  - by rewrite lookup_alter_ne.
Qed.

Lemma keeps_view_modify (f : history -> history) : (forall h, voters (f h) = voters h) -> keeps_view (modify f : M unit).
Proof. intros Hf h n. unfold view_at. simpl. by rewrite Hf. Qed.
End View.

Ltac keeps_view :=
  repeat first
    [ solve [apply keeps_view_still; still]
    | apply keeps_view_bind; [|intros ?]
    | apply keeps_view_set_voter; done | apply keeps_view_modify; done
    | match goal with |- keeps_view _ (if ?b then _ else _) => destruct b end ].

Lemma promise_view {X} (view : voter -> X) epoch nodes incarnation leader :
  (forall v, view (promise_voter epoch incarnation v) = view v) -> keeps_view view (promise epoch nodes incarnation leader).
Proof.
  intros Hv. unfold promise. keeps_view. unfold promise_loop.
  induction nodes as [|n nodes IH]; simpl; [by apply keeps_view_still|].
  apply keeps_view_bind; [by apply keeps_view_set_voter|done].
Qed.
Lemma append_view node e : keeps_view evidence (append node e).
Proof. unfold append. keeps_view. Qed.
Lemma persist_view node p : keeps_view log (persist_proof node p).
Proof. unfold persist_proof. keeps_view. Qed.
Lemma complete_view {X} (view : voter -> X) p acks : keeps_view view (complete_commit p acks).
Proof. unfold complete_commit. keeps_view. Qed.
Lemma apply_view node through : keeps_view log (apply node through).
Proof. unfold apply. keeps_view. Qed.

Lemma view_at_some {X} (view : voter -> X) h n x : view_at view h n = Some x <-> exists v, voters h !! n = Some v /\ view v = x.
Proof. unfold view_at. rewrite fmap_Some. split; intros (v & ? & ?); exists v; by subst. Qed.

(** ** The invariant *)

Definition grows (h h' : history) : Prop :=
  forall n l, log_at h n = Some l -> exists l', log_at h' n = Some l' /\ l ⊆ l'.

Lemma same_grows h h' : same_view log h h' -> grows h h'.
Proof. intros Hs n l Hl. exists l. unfold log_at in *. by rewrite Hs. Qed.

(** Two voters' logs hold [e] at index [i]. *)
Definition quorum_holds (h : history) (i : Z) (e : entry) : Prop :=
  exists a b la lb, a <> b /\ log_at h a = Some la /\ log_at h b = Some lb /\ la !! i = Some e /\ lb !! i = Some e.

Lemma quorum_holds_grows h h' i e : grows h h' -> quorum_holds h i e -> quorum_holds h' i e.
Proof.
  intros Hg (a & b & la & lb & Hab & Ha & Hb & Hea & Heb).
  destruct (Hg _ _ Ha) as (la' & Ha' & Sa). destruct (Hg _ _ Hb) as (lb' & Hb' & Sb).
  exists a, b, la', lb'. split_and!; try done; [exact (lookup_weaken _ _ _ _ Hea Sa)|exact (lookup_weaken _ _ _ _ Heb Sb)].
Qed.

Definition chained (l : gmap Z entry) : Prop :=
  forall i e, l !! i = Some e -> 1 < i -> exists e', l !! (i - 1) = Some e' /\ entry_digest e' = e_predecessor e.

Record NInv (n : network) : Prop := {
  ni_inv : Inv (n_history n);
  ni_chain : forall m l, log_at (n_history n) m = Some l -> chained l;
  ni_proofs : forall i p, n_proofs n !! i = Some p -> e_index (p_entry p) = i /\ quorum_holds (n_history n) i (p_entry p);
  ni_held : forall m v i p, voters (n_history n) !! m = Some v -> proofs v !! i = Some p ->
    quorum_holds (n_history n) i (p_entry p);
  ni_applied : forall m v, voters (n_history n) !! m = Some v -> 0 < applied_index v ->
    exists j p, applied_index v <= j /\ proofs v !! j = Some p
}.

Definition with_history (h : history) (n : network) : network := Network h (n_entry_acks n) (n_proof_acks n) (n_proofs n).

(** A call that changes no proofs and no applied index, and at most extends logs. *)
Lemma ninv_evidence n h :
  NInv n -> Inv h -> grows (n_history n) h -> (forall m l, log_at h m = Some l -> chained l) ->
  same_view evidence (n_history n) h -> NInv (with_history h n).
Proof.
  intros [I C Pr H A] HI Hg Hc Hs.
  assert (forall m v, voters h !! m = Some v -> exists w, voters (n_history n) !! m = Some w
    /\ proofs w = proofs v /\ applied_index w = applied_index v) as Hv.
  { intros m v Hv. assert (view_at evidence (n_history n) m = Some (evidence v)) as Hw by (rewrite <- Hs; apply view_at_some; by exists v).
    apply view_at_some in Hw as (w & Hw & [= Hp Ha]). by exists w. }
  split; simpl; try done.
  - intros i p Hp. destruct (Pr _ _ Hp) as [? ?]. split; [done|]. by eapply quorum_holds_grows.
  - intros m v i p Hm Hp. destruct (Hv _ _ Hm) as (w & Hw & Hpw & _). rewrite <- Hpw in Hp.
    eapply quorum_holds_grows; [done|]. by eapply H.
  - intros m v Hm Ha. destruct (Hv _ _ Hm) as (w & Hw & Hpw & Haw). rewrite <- Hpw, <- Haw in *. by eapply A.
Qed.

Lemma ninv_acks n ea pa : NInv n -> NInv (Network (n_history n) ea pa (n_proofs n)).
Proof. intros [I C Pr H A]. by split. Qed.

(** ** Calls *)

Lemma good_inv {A} (m : M A) h : keeps_good m -> Inv h -> Inv (snd (m h)).
Proof.
  intros Hm HI. specialize (Hm h HI). unfold wp in Hm. destruct (m h) as [[a|e] h']; apply Hm.
Qed.

Lemma append_cases node e h :
  snd (append node e h) = h \/
  exists v, voters h !! node = Some v /\ same_or_absent (log v !! e_index e) e = true
    /\ (1 < e_index e -> exists e', log v !! (e_index e - 1) = Some e' /\ entry_digest e' = e_predecessor e)
    /\ snd (append node e h) = set_voter node (log_entry e) h.
Proof.
  destruct (append node e h) as [[r|x] h'] eqn:Ha.
  2:{ left. by eapply append_atomic. }
  right. unfold append in Ha. ok_inv Ha. run_inv. injection Hx3 as <- <-.
  assert (s2 = h) as -> by (by destruct (1 <? e_index e); run_inv). exists x. split_and!; try done.
  intros Hi. rewrite (proj2 (Z.ltb_lt _ _)) in Hx2 by done. run_inv.
  destruct (log x !! (e_index e - 1)) as [e'|]; [|done]. bool_tac. by exists e'.
Qed.

Lemma log_entry_extends e v : same_or_absent (log v !! e_index e) e = true -> log v ⊆ log (log_entry e v).
Proof.
  intros Hs. simpl. apply map_subseteq_spec. intros i x Hx. destruct (decide (i = e_index e)) as [->|Hne].
  - rewrite Hx in Hs. simpl in Hs. bool_tac. subst. by rewrite lookup_insert_eq.
  - by rewrite lookup_insert_ne.
Qed.

Lemma append_ninv n node e : 1 <= e_index e -> NInv n -> NInv (with_history (snd (append node e (n_history n))) n).
Proof.
  intros Hpos HN. assert (HI : Inv (snd (append node e (n_history n)))) by (apply good_inv; [by apply append_good|apply HN]).
  pose proof (append_view node e (n_history n)) as Hev. destruct (append_cases node e (n_history n)) as [Hs|(v & Hv & Hsame & Hpred & Hs)].
  { rewrite Hs. by destruct n. }
  rewrite Hs in *. pose proof (log_entry_extends e v Hsame) as Hext.
  assert (Hat : forall m l, log_at (set_voter node (log_entry e) (n_history n)) m = Some l ->
    (m = node /\ l = log (log_entry e v)) \/ log_at (n_history n) m = Some l).
  { intros m l Hl. apply view_at_some in Hl as (w & Hw & <-). simpl in Hw. apply lookup_alter_Some in Hw as [(-> & w0 & Hw0 & ->)|[Hne Hw]].
    - left. rewrite Hv in Hw0. by injection Hw0 as <-.
    - right. apply view_at_some. by exists w. }
  apply ninv_evidence; try done.
  - intros m l Hl. destruct (decide (m = node)) as [->|Hne].
    + apply view_at_some in Hl as (w & Hw & <-). rewrite Hv in Hw. injection Hw as <-.
      exists (log (log_entry e v)). split; [|done]. apply view_at_some. exists (log_entry e v). split; [|done].
      simpl. by rewrite lookup_alter_eq, Hv.
    + exists l. split; [|done]. apply view_at_some in Hl as (w & Hw & <-). apply view_at_some. exists w. split; [|done].
      simpl. by rewrite lookup_alter_ne.
  - intros m l Hl. destruct (Hat _ _ Hl) as [[-> ->]|Hold]; [|by eapply ni_chain].
    assert (Hc : chained (log v)) by (eapply ni_chain; [done|]; apply view_at_some; by exists v).
    intros i x Hx Hi. simpl in Hx. apply lookup_insert_Some in Hx as [[<- <-]|[Hne Hx]].
    + destruct (Hpred Hi) as (e' & He' & Hd). exists e'. split; [exact (lookup_weaken _ _ _ _ He' Hext)|done].
    + destruct (Hc i x Hx Hi) as (e' & He' & Hd). exists e'. split; [exact (lookup_weaken _ _ _ _ He' Hext)|done].
Qed.

(** Calls that keep logs and evidence. *)
Lemma quiet_ninv {A} (m : M A) n :
  keeps_good m -> keeps_view log m -> keeps_view evidence m -> NInv n -> NInv (with_history (snd (m (n_history n))) n).
Proof.
  intros Hg Hl He HN. apply ninv_evidence; [done| | | |apply He].
  - apply good_inv; [done|apply HN].
  - by apply same_grows.
  - intros k l Hk. unfold log_at in Hk. rewrite Hl in Hk. by eapply ni_chain.
Qed.

Lemma persist_ninv n node p i :
  n_proofs n !! i = Some p -> NInv n -> NInv (with_history (snd (persist_proof node p (n_history n))) n).
Proof.
  intros Hp HN. assert (HI : Inv (snd (persist_proof node p (n_history n)))) by (apply good_inv; [apply persist_good|apply HN]).
  pose proof (persist_view node p (n_history n)) as Hl. pose proof (same_grows _ _ Hl) as Hg.
  destruct (ni_proofs _ HN _ _ Hp) as [Hi Hq].
  assert (Hs : snd (persist_proof node p (n_history n)) = n_history n
    \/ snd (persist_proof node p (n_history n)) = set_voter node (hold_proof (e_index (p_entry p)) p) (n_history n)).
  { destruct (persist_proof node p (n_history n)) as [[d|x] h'] eqn:E; [|left; by eapply persist_atomic].
    right. unfold persist_proof in E. ok_inv E. pose proof (still_validate node p (n_history n)) as Hst. rewrite Hx in Hst.
    simpl in Hst. subst. by injection Hx0 as <- <-. }
  destruct HN as [I C Pr H A]. split; simpl; [done| | | |].
  - intros m l Hm. unfold log_at in Hm. rewrite Hl in Hm. by eapply C.
  - intros j q Hj. destruct (Pr _ _ Hj). split; [done|]. by eapply quorum_holds_grows.
  - intros m v j q Hm Hj. eapply quorum_holds_grows; [exact Hg|]. destruct Hs as [Hs|Hs]; rewrite Hs in Hm; [by eapply H|].
    simpl in Hm. apply lookup_alter_Some in Hm as [(-> & w & Hw & ->)|[_ Hm]]; [|by eapply H].
    simpl in Hj. apply lookup_insert_Some in Hj as [[<- <-]|[_ Hj]]; [by rewrite Hi|by eapply H].
  - intros m v Hm Ha. destruct Hs as [Hs|Hs]; rewrite Hs in Hm; [by eapply A|].
    simpl in Hm. apply lookup_alter_Some in Hm as [(-> & w & Hw & ->)|[_ Hm]]; [|by eapply A].
    destruct (A _ _ Hw Ha) as (j & q & Hj & Hq'). destruct (decide (j = e_index (p_entry p))) as [->|Hne].
    + exists (e_index (p_entry p)), p. simpl. by rewrite lookup_insert_eq.
    + exists j, q. simpl. by rewrite lookup_insert_ne.
Qed.

Lemma apply_cases node through h :
  snd (apply node through h) = h \/
  exists v s s', voters h !! node = Some v
    /\ (applied_index v < through -> exists j p, through <= j /\ proofs v !! j = Some p)
    /\ applied_index v <= through
    /\ snd (apply node through h) = History (alter (apply_voter s through) node (voters h))
         (active_epoch h) (active_incarnation h) (commit_index h) s'.
Proof.
  destruct (apply node through h) as [[r|x] h'] eqn:Ha.
  2:{ left. by eapply apply_atomic. }
  right. unfold apply in Ha. ok_inv Ha. run_inv. bool_tac. injection Hx5 as <- <-.
  assert (exists s s', h' = History (alter (apply_voter s through) node (voters h)) (active_epoch h) (active_incarnation h)
    (commit_index h) s') as (s & s' & ->).
  { destruct (bool_decide (node = "node-1"%string)) in Ha; injection Ha as _ <-; by do 2 eexists. }
  exists x, s, s'. split_and!; [done| |done|done].
  intros Hlt. rewrite (proj2 (Z.ltb_lt _ _)) in * by done. simpl in *. bool_tac.
  match goal with Hex : existsb _ _ = true |- _ => apply existsb_exists in Hex as ([j p] & Hin & Hb) end. simpl in Hb. bool_tac.
  exists j, p. split; [done|]. by apply list_elem_of_In, elem_of_map_to_list in Hin.
Qed.

Lemma apply_ninv n node through : NInv n -> NInv (with_history (snd (apply node through (n_history n))) n).
Proof.
  intros HN. assert (HI : Inv (snd (apply node through (n_history n)))) by (apply good_inv; [apply apply_good|apply HN]).
  pose proof (apply_view node through (n_history n)) as Hl. pose proof (same_grows _ _ Hl) as Hg.
  destruct (apply_cases node through (n_history n)) as [Hs|(v & s & s' & Hv & Hproof & Hle & Hs)].
  { rewrite Hs. by destruct n. }
  destruct HN as [I C Pr H A]. split; simpl; [done| | | |].
  - intros m l Hm. unfold log_at in Hm. rewrite Hl in Hm. by eapply C.
  - intros j q Hj. destruct (Pr _ _ Hj). split; [done|]. by eapply quorum_holds_grows.
  - intros m w j q Hm Hj. eapply quorum_holds_grows; [exact Hg|]. rewrite Hs in Hm. simpl in Hm.
    apply lookup_alter_Some in Hm as [(-> & w0 & Hw & ->)|[_ Hm]]; by eapply H.
  - intros m w Hm Ha. rewrite Hs in Hm. simpl in Hm. apply lookup_alter_Some in Hm as [(-> & w0 & Hw & ->)|[_ Hm]]; [|by eapply A].
    rewrite Hv in Hw. injection Hw as <-. simpl in *. destruct (decide (applied_index v < through)) as [Hlt|Hge].
    + destruct (Hproof Hlt) as (j & p & Hj & Hp). by exists j, p.
    + replace through with (applied_index v) in * by lia. by eapply A.
Qed.

(** ** Messages *)

Definition np {A} (m : N A) : Prop := forall n, NInv n -> NInv (snd (m n)).

Lemma np_liftr {A} (r : result A) : np (liftr r). Proof. by intros n. Qed.
Lemma np_ret {A} (a : A) : np (ret a). Proof. by intros n. Qed.
Lemma np_raise {A} e : np (raise e : N A). Proof. by intros n. Qed.
Lemma np_get : np get. Proof. by intros n. Qed.
Lemma np_bind {A B} (m : N A) (k : A -> N B) : np m -> (forall a, np (k a)) -> np (bind m k).
Proof. intros Hm Hk n Hn. unfold bind. specialize (Hm n Hn). destruct (m n) as [[a|e] n']; simpl in *; [by apply Hk|done]. Qed.
Lemma np_on_history {A} (m : M A) : (forall n, NInv n -> NInv (with_history (snd (m (n_history n))) n)) -> np (on_history m).
Proof. intros Hm n Hn. specialize (Hm n Hn). unfold on_history. by destruct (m (n_history n)) as [r h]. Qed.
Lemma np_still {A} (m : M A) : still m -> np (on_history m).
Proof. intros Hm. apply np_on_history. intros n Hn. rewrite Hm. by destruct n. Qed.
Lemma np_check b msg : np (check b msg). Proof. apply np_liftr. Qed.
Lemma np_entry_ack i node digest : np (modify (add_entry_ack i node digest)).
Proof. intros n Hn. by apply ninv_acks. Qed.
Lemma np_proof_ack i node digest : np (modify (add_proof_ack i node digest)).
Proof. intros n Hn. by apply ninv_acks. Qed.

Create HintDb network discriminated.
#[export] Hint Resolve np_liftr np_ret np_raise np_get np_check np_entry_ack np_proof_ack : network.
Ltac np :=
  repeat first
    [ solve [auto with network] | solve [apply np_still; still]
    | match goal with |- np (bind _ _) => apply np_bind; [|intros ?] end
    | match goal with |- np (if ?b then _ else _) => destruct b end ].

Lemma np_activate p : np (activate p).
Proof.
  unfold activate. np. apply np_on_history. intros n Hn. apply quiet_ninv; [apply promise_good|..|done].
  - by apply promise_view.
  - by apply promise_view.
Qed.

Lemma np_durable_ack source e : np (durable_ack source e).
Proof. unfold durable_ack. np. Qed.

Lemma durable_receipts_spec h e receipts (node : string) r :
  (node, r) ∈ durable_receipts h e receipts -> exists l, log_at h node = Some l /\ l !! e_index e = Some e.
Proof.
  unfold durable_receipts. intros (m & Hm & Hin)%list_elem_of_omap.
  destruct (receipts !! m) as [r'|]; [|done]. destruct (voters h !! m) as [v|] eqn:Hv; [|done].
  destruct (bool_decide (log v !! e_index e = Some e) && _) eqn:Hb; [|done]. bool_tac. injection Hin as <- <-.
  exists (log v). split; [|done]. apply view_at_some. by exists v.
Qed.

Lemma durable_receipts_nodup h e receipts : NoDup (durable_receipts h e receipts).*1.
Proof.
  unfold durable_receipts. assert (NoDup VOTERS) as Hnd by (refine (bool_decide_unpack _ _); vm_compute; exact I).
  induction VOTERS as [|m l IH]; [constructor|]. apply NoDup_cons in Hnd as [Hn Hnd]. simpl.
  destruct (receipts !! m) as [r|]; [|by apply IH]. destruct (voters h !! m) as [v|]; [|by apply IH].
  destruct (_ && _); [|by apply IH]. simpl. constructor; [|by apply IH]. intros (x & Hx & Hin)%list_elem_of_fmap.
  apply list_elem_of_omap in Hin as (m' & Hm' & Hin). destruct (receipts !! m'), (voters h !! m'); try done.
  destruct (_ && _) in Hin; [|done]. injection Hin as <-. simpl in Hx. by subst.
Qed.

Lemma np_prepare e : np (prepare_message e).
Proof.
  intros n Hn. unfold prepare_message, bind, get, on_history, modify, ret.
  destruct (prepare_proof e _ (n_history n)) as [[p|x] h'] eqn:E.
  2:{ pose proof (still_prepare e (default ∅ (n_entry_acks n !! e_index e)) (n_history n)) as Hs. rewrite E in Hs. simpl in *. subst. by destruct n. }
  apply prepare_inv in E as (-> & Hpe & Hr & Hlen & _). simpl.
  assert (quorum_holds (n_history n) (e_index e) e) as Hq.
  { pose proof (durable_receipts_nodup (n_history n) e (default ∅ (n_entry_acks n !! e_index e))) as Hnd. rewrite <- Hr in Hnd.
    pose proof (durable_receipts_spec (n_history n) e (default ∅ (n_entry_acks n !! e_index e))) as Hspec. rewrite <- Hr in Hspec.
    destruct (p_receipts p) as [|[a ra] [|[b rb] rest]]; simpl in *; [lia..|].
    destruct (Hspec a ra) as (la & Ha & Hea); [by left|]. destruct (Hspec b rb) as (lb & Hb & Heb); [right; by left|].
    exists a, b, la, lb. split_and!; try done. intros ->. apply NoDup_cons in Hnd as [Hnn _]. apply Hnn. by left. }
  destruct Hn as [I C Pr H A]. split; simpl; try done. intros i q Hq'. simpl in Hq'.
  apply lookup_insert_Some in Hq' as [[<- <-]|[_ Hq']]; [|by apply Pr]. rewrite Hpe. done.
Qed.

Lemma np_proof_message event e : np (proof_message event e).
Proof.
  intros n Hn. unfold proof_message. unfold bind at 1, get. unfold bind at 1, liftr at 1.
  destruct (n_proofs n !! e_index e) as [p|] eqn:Hp; [|done]. cbn [of_option].
  enough (np (do* check (bool_decide (p_entry p = e)) "no prepared proof for the exact entry" in
    if is_type event ["COMMIT_PROOF"] then let* _ := check true "" in ret (Text "")
    else if is_type event ["COMMIT_PROOF_ACK"] then proof_ack (d_source event) e p
    else if is_type event ["COMMIT"] then commit_message (d_source event) e p
    else if is_type event ["APPLY"] then apply_message (d_target event) e
    else raise (ValueError "unsupported model message"))) as Hrest.
  - specialize (Hrest n Hn). unfold bind at 1 in Hrest. unfold bind at 1.
    destruct (check _ _ n) as [[u|x] n1] eqn:Hc; [|done].
    assert (n1 = n) as -> by (unfold check, liftr in Hc; by injection Hc as _ <-).
    destruct (is_type event ["COMMIT_PROOF"]); [|done].
    unfold bind, on_history, ret. destruct (persist_proof (d_target event) p (n_history n)) as [[d|x] h'] eqn:E; simpl.
    all: change (NInv (with_history h' n)); replace h' with (snd (persist_proof (d_target event) p (n_history n))) by (by rewrite E);
      by eapply persist_ninv.
  - np.
    + unfold proof_ack. np.
    + unfold commit_message. np. apply np_on_history. intros m Hm. apply quiet_ninv; [apply complete_good|apply complete_view|apply complete_view|done].
    + unfold apply_message. np. apply np_on_history. intros m Hm. by apply apply_ninv.
Qed.

Lemma np_entry_message event e : 1 <= e_index e -> np (entry_message event e).
Proof.
  intros Hpos. unfold entry_message. np.
  - apply np_on_history. intros n Hn. by apply append_ninv.
  - apply np_durable_ack.
  - apply np_prepare.
  - apply np_proof_message.
Qed.

Lemma construct_ok e e' h h' : construct e h = (Ok e', h') -> e' = e /\ h' = h /\ 1 <= e_index e.
Proof.
  unfold construct, post_init. intros H. ok_inv H. injection Hx as <-. bool_tac. done.
Qed.

Lemma np_construct event e : np (let* e' := on_history (construct e) in entry_message event e').
Proof.
  intros n Hn. unfold bind, on_history. destruct (construct e (n_history n)) as [[e'|x] h'] eqn:E.
  - apply construct_ok in E as (-> & -> & Hpos). apply np_entry_message; [done|]. by destruct n.
  - unfold construct, liftr in E. injection E as _ <-. by destruct n.
Qed.

Lemma np_receive t event : np (receive t event).
Proof.
  unfold receive. do 3 (apply np_bind; [np|intros ?]). destruct (is_type event ["ACTIVATE"]).
  - apply np_bind; [np|intros _]. apply np_activate.
  - apply np_bind; [np|intros raw]. apply np_construct.
Qed.

(** ** Replay *)

Lemma copies_inv {S V} (receive : delivery -> ST S V) (I : S -> Prop) :
  (forall d s, I s -> I (snd (receive d s))) ->
  forall event copies s, I s -> I (snd (deliver_copies receive event copies s)).
Proof.
  intros Hr event copies. induction copies as [|c copies IH]; intros s Hs; [done|]. cbn [deliver_copies].
  unfold bind at 1, deliver_copy. specialize (Hr event s Hs). destruct (receive event s) as [[v|x] s']; simpl in Hr.
  2: destruct x; try done.
  all: unfold bind; specialize (IH s' Hr); destruct (deliver_copies receive event copies s') as [[rs|y] s'']; done.
Qed.

Lemma replay_inv {P S V} `{Payload P} (receive : delivery -> ST S V) (I : S -> Prop) (t : transport P) s :
  (forall d s, I s -> I (snd (receive d s))) -> I s -> I (snd (replay receive t s)).
Proof.
  intros Hr. unfold replay. generalize (@nil (row V)) as rows. generalize (∅ : gset (string * string)) as cut.
  revert s. induction (replay_order t) as [|event events IH]; intros s cut rows Hs; [done|]. cbn [replay_loop].
  repeat (match goal with |- context [if ?b then replay_loop _ _ _ _ else _] => destruct b; [by apply IH|] end).
  unfold bind. match goal with |- context [deliver_copies receive event ?l s] =>
    pose proof (copies_inv receive I Hr event l s Hs) as Hc; destruct (deliver_copies receive event l s) as [[rs|y] s'] end; [|done].
  by apply IH.
Qed.

Lemma history0_voter m v : voters history0 !! m = Some v -> v = voter0.
Proof. intros Hv. apply elem_of_list_to_map_2, list_elem_of_fmap in Hv as (x & [= _ ->] & _). done. Qed.

Lemma ninv0 : NInv network0.
Proof.
  split; [apply inv_history0| |done|..].
  - intros m l Hl. apply view_at_some in Hl as (v & Hv & <-). apply history0_voter in Hv as ->. intros i e He. done.
  - intros m v i p Hv Hp. by apply history0_voter in Hv as ->.
  - intros m v Hv Ha. apply history0_voter in Hv as ->. simpl in Ha. lia.
Qed.

Lemma run_ninv t : NInv (snd (run_network t)).
Proof. apply (replay_inv (receive t) NInv t network0); [intros d n Hn; by apply np_receive|apply ninv0]. Qed.

(** ** Agreement *)

Lemma voter_names h n v : Inv h -> voters h !! n = Some v -> n = "node-1"%string \/ n = "node-2"%string \/ n = "node-3"%string.
Proof.
  intros HI Hv. assert (n ∈ dom (voters h)) as Hd by (by apply elem_of_dom_2 in Hv). rewrite (inv_dom _ HI) in Hd.
  unfold VOTERS in Hd. set_solver.
Qed.

Lemma quorums_meet h i j e f :
  Inv h -> quorum_holds h i e -> quorum_holds h j f -> exists m l, log_at h m = Some l /\ l !! i = Some e /\ l !! j = Some f.
Proof.
  intros HI (a & b & la & lb & Hab & Ha & Hb & Hea & Heb) (c & d & lc & ld & Hcd & Hc & Hd & Hec & Hed).
  assert (forall m l, log_at h m = Some l -> m = "node-1"%string \/ m = "node-2"%string \/ m = "node-3"%string) as Hn.
  { intros m l Hm. apply view_at_some in Hm as (v & Hv & _). by eapply voter_names. }
  pose proof (Hn _ _ Ha). pose proof (Hn _ _ Hb). pose proof (Hn _ _ Hc). pose proof (Hn _ _ Hd).
  assert (a = c \/ a = d \/ b = c \/ b = d) as Hmeet by (clear - H H0 H1 H2 Hab Hcd; naive_solver).
  destruct Hmeet as [<-|[<-|[<-|<-]]].
  - exists a, la. rewrite Ha in Hc. injection Hc as <-. done.
  - exists a, la. rewrite Ha in Hd. injection Hd as <-. done.
  - exists b, lb. rewrite Hb in Hc. injection Hc as <-. done.
  - exists b, lb. rewrite Hb in Hd. injection Hd as <-. done.
Qed.

(** Two different entries of the logs with the same digest. *)
Definition collision (h : history) : Prop :=
  exists a b la lb i j e f, log_at h a = Some la /\ log_at h b = Some lb /\ la !! i = Some e /\ lb !! j = Some f
    /\ e <> f /\ entry_digest e = entry_digest f.

(** Chained logs that agree at an index agree below it. *)
Lemma chains_agree h a b la lb j e :
  log_at h a = Some la -> log_at h b = Some lb -> chained la -> chained lb -> la !! j = Some e -> lb !! j = Some e ->
  collision h \/ forall i, 1 <= i <= j -> la !! i = lb !! i.
Proof.
  intros Ha Hb Ca Cb. destruct (decide (j <= 0)) as [|Hj]; [intros; right; lia|].
  revert e. assert (exists n, j = Z.of_nat (S n)) as [n ->] by (exists (Z.to_nat (j - 1)); lia). clear Hj.
  induction n as [|n IH]; intros e Hea Heb.
  - right. intros i Hi. assert (i = Z.of_nat 1) as -> by lia. congruence.
  - destruct (Ca _ _ Hea) as (ea & Hpa & Hda); [lia|]. destruct (Cb _ _ Heb) as (eb & Hpb & Hdb); [lia|].
    replace (Z.of_nat (S (S n)) - 1) with (Z.of_nat (S n)) in * by lia.
    destruct (decide (ea = eb)) as [<-|Hne].
    + destruct (IH _ Hpa Hpb) as [|Hi]; [by left|]. right. intros i Hi'.
      destruct (decide (i = Z.of_nat (S (S n)))) as [->|]; [congruence|]. apply Hi. lia.
    + left. exists a, b, la, lb, (Z.of_nat (S n)), (Z.of_nat (S n)), ea, eb. split_and!; try done. congruence.
Qed.
