(* ===== verification/ReplicationProperties.v ===== *)
(** * Properties of the replicated-history model, its transport and its message adapter *)

From stdpp Require Import base gmap sets strings list sorting.
From S2P Require Import Prelude Bytes Sha256 Files Json Transport TransportProofs ReplicatedHistory ReplicatedHistorySafety ReplicatedHistoryAtomic ModelNetwork ModelNetworkSafety.
Import StateNotations ResultNotations.
Local Open Scope py_scope.
Local Open Scope Z_scope.

(** ** Sample calls *)

Definition first_entry : entry := Entry 1 1 "ADD" "payload" "GENESIS" "leader-1".
Definition receipts_of (e : entry) (nodes : list string) : gmap string string :=
  list_to_map ((fun n => (n, receipt n e)) <$> nodes).
Definition two : list string := ["node-1"; "node-2"].
Definition committed_calls : list ReplicatedHistory.call := [
  Promise 1 two "leader-1" "node-1"; Append "node-1" first_entry; Append "node-2" first_entry;
  Commit first_entry (receipts_of first_entry two) two; Apply "node-1" 1; Apply "node-2" 1;
  InstallSnapshot "node-1" 1; InstallSnapshot "node-2" 1 ].

(** C15: A call of the replicated-history model that raises leaves the model exactly as it was; in
    particular a commit validates every target voter before it changes any of them. *)
Theorem history_calls_atomic c h e h' : ReplicatedHistory.perform c h = (Err e, h') -> h' = h.
Proof. apply perform_atomic. Qed.

Definition acknowledged_history : history := Eval vm_compute in ReplicatedHistory.run (take 3 committed_calls) history0.
Definition committed_history : history := Eval vm_compute in ReplicatedHistory.run committed_calls history0.

Lemma committed_run : ReplicatedHistory.run committed_calls history0 = committed_history.
Proof. vm_compute. reflexivity. Qed.

Lemma history_calls_atomic_witness :
  exists e h', ReplicatedHistory.perform (Commit first_entry (receipts_of first_entry two) ["node-1"; "node-3"]) acknowledged_history
      = (Err e, h') /\ h' = acknowledged_history.
Proof.
  destruct (ReplicatedHistory.perform (Commit first_entry (receipts_of first_entry two) ["node-1"; "node-3"])
    acknowledged_history) as [[u|e] h'] eqn:E; [exfalso; vm_compute in E; discriminate E|].
  exists e, h'. split; [exact eq_refl|]. exact (history_calls_atomic _ _ _ _ E).
Defined.

(** After any sequence of calls, a voter's snapshot is within what it applied, it applied committed
    entries only, it holds every entry it applied, and its application sequence counts exactly the
    applied application operations. *)
Theorem history_bookkeeping calls node v :
  voters (ReplicatedHistory.run calls history0) !! node = Some v ->
  0 <= snapshot_index v <= applied_index v
  /\ applied_index v <= commit_index (ReplicatedHistory.run calls history0)
  /\ (forall i, 1 <= i <= applied_index v -> is_Some (log v !! i))
  /\ application_sequence v = sum (application_at v <$> seqZ 1 (applied_index v)).
Proof.
  intros Hv. destruct (inv_voter _ (reachable_inv calls) _ _ Hv) as [L P [B1 B2] X S]. done.
Qed.

Lemma history_bookkeeping_witness :
  exists v, voters committed_history !! "node-1"%string = Some v
    /\ applied_index v = 1 /\ application_sequence v = sum (application_at v <$> seqZ 1 (applied_index v)).
Proof.
  destruct (voters committed_history !! "node-1"%string) as [v|] eqn:E; [|vm_compute in E; discriminate].
  exists v. split; [exact eq_refl|]. split; [vm_compute in E; injection E as <-; reflexivity|].
  rewrite <- committed_run in E. destruct (history_bookkeeping committed_calls _ _ E) as (_ & _ & _ & Hs). exact Hs.
Defined.

(** C14: Proven history is immutable: whatever is called later, a voter that held a commit proof at an
    index still holds a proof of the same entry and that entry in its log; the commit index never
    regresses and stays proven by two voters. *)
Theorem proven_history_durable calls later node v i p :
  voters (ReplicatedHistory.run calls history0) !! node = Some v -> proofs v !! i = Some p ->
  let h := ReplicatedHistory.run (calls ++ later) history0 in
  (exists v' q, voters h !! node = Some v' /\ proofs v' !! i = Some q /\ p_entry q = p_entry p
     /\ log v' !! i = Some (p_entry p))
  /\ commit_index (ReplicatedHistory.run calls history0) <= commit_index h
  /\ (commit_index h = 0 \/ proven_by_two h (commit_index h)).
Proof.
  intros Hv Hp h. assert (h = ReplicatedHistory.run later (ReplicatedHistory.run calls history0)) as Hh by apply fold_left_app.
  destruct (run_good later _ (reachable_inv calls)) as [HI [HC HE]]. rewrite <- Hh in *.
  destruct (HE _ _ Hv) as (v' & Hv' & K & _). destruct (K _ _ Hp) as (q & Hq & Heq).
  split_and!; [|done|apply (inv_committed _ HI)]. exists v', q. split_and!; try done.
  rewrite <- Heq. exact (vo_proofs _ _ (inv_voter _ HI _ _ Hv') _ _ Hq).
Qed.

Definition truncated_history : history :=
  Eval vm_compute in ReplicatedHistory.run (committed_calls ++ [Truncate "node-2" 1]) history0.
Lemma truncated_run : ReplicatedHistory.run (committed_calls ++ [Truncate "node-2" 1]) history0 = truncated_history.
Proof. vm_compute. reflexivity. Qed.

Lemma proven_history_durable_witness :
  exists v q, voters truncated_history !! "node-2"%string = Some v /\ proofs v !! 1 = Some q /\ p_entry q = first_entry.
Proof.
  destruct (voters committed_history !! "node-2"%string) as [v|] eqn:Ev; [|vm_compute in Ev; discriminate].
  destruct (proofs v !! 1) as [p|] eqn:Ep; [|vm_compute in Ev; injection Ev as <-; vm_compute in Ep; discriminate].
  assert (p_entry p = first_entry) as He.
  { vm_compute in Ev. injection Ev as <-. vm_compute in Ep. injection Ep as <-. reflexivity. }
  rewrite <- committed_run in Ev.
  destruct (proven_history_durable committed_calls [Truncate "node-2" 1] _ _ _ _ Ev Ep) as [(v' & q & Hv & Hq & Hpq & _) _].
  rewrite truncated_run in Hv. exists v', q. split; [exact Hv|]. split; [exact Hq|]. rewrite Hpq. exact He.
Defined.

(** The recovery floor is always defined, and two different voters have installed a snapshot, hence
    applied and logged every entry, up to it; it never exceeds the commit index. *)
Theorem recovery_floor_covered calls :
  let h := ReplicatedHistory.run calls history0 in
  exists f a b va vb, recovery_floor h = Ok f /\ a <> b /\ voters h !! a = Some va /\ voters h !! b = Some vb
    /\ f <= snapshot_index va /\ f <= snapshot_index vb /\ f <= commit_index h
    /\ forall i, 1 <= i <= f -> is_Some (log va !! i) /\ is_Some (log vb !! i).
Proof.
  intros h. pose proof (reachable_inv calls) as HI. fold h in HI.
  assert (length (map_to_list (voters h)) = 3%nat) as Hlen.
  { rewrite length_map_to_list, <- size_dom, (inv_dom _ HI). reflexivity. }
  unfold recovery_floor. rewrite <- list_fmap_compose.
  set (sorted := merge_sort Z.le (_ <$> map_to_list (voters h))).
  pose proof (merge_sort_Permutation Z.le ((snapshot_index ∘ snd) <$> map_to_list (voters h))) as Hp.
  pose proof (Sorted_merge_sort Z.le ((snapshot_index ∘ snd) <$> map_to_list (voters h))) as Hs. fold sorted in Hp, Hs.
  apply Permutation_map_inv in Hp as (l & Hl & Hperm). rewrite Hperm in Hlen.
  destruct l as [|[c vc] [|[a va] [|[b vb] [|? ?]]]]; try done. simpl in Hl.
  assert (forall n v, (n, v) ∈ [(c, vc); (a, va); (b, vb)] -> voters h !! n = Some v) as Hin.
  { intros n v Hn. apply elem_of_map_to_list. by rewrite Hperm. }
  pose proof (NoDup_fst_map_to_list (voters h)) as Hnd. rewrite Hperm in Hnd. simpl in Hnd.
  rewrite Hl in *. assert (snapshot_index va <= snapshot_index vb) as Hab by (inversion Hs; subst; inversion H1; subst; by inversion H4).
  pose proof (inv_voter _ HI a va ltac:(apply Hin; set_solver)) as Ha.
  pose proof (inv_voter _ HI b vb ltac:(apply Hin; set_solver)) as Hb.
  pose proof (vo_bounds _ _ Ha). pose proof (vo_bounds _ _ Hb).
  exists (snapshot_index va), a, b, va, vb. split_and!; try done; try lia.
  - intros ->. apply NoDup_cons in Hnd as [_ Hnd]. apply NoDup_cons in Hnd as [Hn _]. apply Hn. by left.
  - apply Hin. set_solver.
  - apply Hin. set_solver.
  - intros i Hi. split; [apply (vo_prefix _ _ Ha)|apply (vo_prefix _ _ Hb)]; lia.
Qed.

(** ** A prepared proof outlives the entry it was prepared for *)

(** [truncate_uncommitted] looks at persisted proofs only.  Within one epoch the leader can prepare a
    proof of [first_entry], drop that entry before any voter forces the proof, replace it, and have
    both proofs forced by different voters: two voters then hold proofs of different entries at the
    same index, and both have applied theirs. *)
Definition other_entry : entry := Entry 1 1 "REMOVE" "other" "GENESIS" "leader-1".
Definition stale_proof : commit_proof :=
  CommitProof first_entry ((fun n => (n, receipt n first_entry)) <$> two).
Definition fresh_proof : commit_proof :=
  CommitProof other_entry ((fun n => (n, receipt n other_entry)) <$> ["node-1"; "node-3"]).
Definition diverging_calls : list ReplicatedHistory.call := [
  Promise 1 two "leader-1" "node-1"; Append "node-1" first_entry; Append "node-2" first_entry;
  Truncate "node-1" 1; Append "node-1" other_entry; Append "node-3" other_entry;
  PersistProof "node-1" fresh_proof; PersistProof "node-3" fresh_proof;
  CompleteCommit fresh_proof [("node-1"%string, proof_digest fresh_proof); ("node-3"%string, proof_digest fresh_proof)];
  PersistProof "node-2" stale_proof; Apply "node-1" 1; Apply "node-2" 1 ].

Theorem stale_proof_diverges :
  fst (prepare_proof first_entry (receipts_of first_entry two)
         (ReplicatedHistory.run (take 3 diverging_calls) history0)) = Ok stale_proof
  /\ (let h := ReplicatedHistory.run diverging_calls history0 in
      (fun n => (fun v => (applied_index v, p_entry <$> proofs v !! 1)) <$> voters h !! n) <$> ["node-1"; "node-2"]%string
      = [Some (1, Some other_entry); Some (1, Some first_entry)]).
Proof. split; vm_compute; reflexivity. Qed.

(** ** Messages *)

(** Whatever messages a trace delivers, drops or duplicates, two voters never hold commit proofs of
    different entries at the same index. *)
Theorem network_proofs_agree t a b va vb i p q :
  let h := n_history (snd (run_network t)) in
  voters h !! a = Some va -> voters h !! b = Some vb -> proofs va !! i = Some p -> proofs vb !! i = Some q ->
  p_entry p = p_entry q.
Proof.
  intros h Ha Hb Hp Hq. pose proof (run_ninv t) as HN.
  pose proof (ni_held _ HN _ _ _ _ Ha Hp) as Hqp. pose proof (ni_held _ HN _ _ _ _ Hb Hq) as Hqq.
  destruct (quorums_meet _ _ _ _ _ (ni_inv _ HN) Hqp Hqq) as (m & l & _ & H1 & H2). congruence.
Qed.

(** C13: Whatever messages a trace delivers, drops or duplicates, any two voters have the same entry at
    every index both have applied, unless two different logged entries share a SHA-256 digest. *)
Theorem network_applied_agree t a b va vb i :
  let h := n_history (snd (run_network t)) in
  voters h !! a = Some va -> voters h !! b = Some vb ->
  1 <= i <= applied_index va -> i <= applied_index vb ->
  collision h \/ (log va !! i = log vb !! i /\ is_Some (log va !! i)).
Proof.
  intros h Ha Hb Hia Hib. pose proof (run_ninv t) as HN. fold h in HN.
  destruct (ni_applied _ HN _ _ Ha) as (ja & pa & Hja & Hpa); [lia|].
  destruct (ni_applied _ HN _ _ Hb) as (jb & pb & Hjb & Hpb); [lia|].
  pose proof (ni_held _ HN _ _ _ _ Ha Hpa) as Hqa. pose proof (ni_held _ HN _ _ _ _ Hb Hpb) as Hqb.
  destruct (quorums_meet _ _ _ _ _ (ni_inv _ HN) Hqa Hqb) as (m & l & Hm & Hla & Hlb).
  assert (forall n v, voters h !! n = Some v -> log_at h n = Some (log v)) as Hat by (intros n v Hv; apply view_at_some; by exists v).
  pose proof (Hat _ _ Ha) as HLa. pose proof (Hat _ _ Hb) as HLb.
  pose proof (vo_proofs _ _ (inv_voter _ (ni_inv _ HN) _ _ Ha) _ _ Hpa) as Hea.
  pose proof (vo_proofs _ _ (inv_voter _ (ni_inv _ HN) _ _ Hb) _ _ Hpb) as Heb.
  pose proof (ni_chain _ HN) as Hc.
  destruct (chains_agree h m a l (log va) ja (p_entry pa) Hm HLa (Hc _ _ Hm) (Hc _ _ HLa) Hla Hea) as [|Hagra]; [by left|].
  destruct (chains_agree h m b l (log vb) jb (p_entry pb) Hm HLb (Hc _ _ Hm) (Hc _ _ HLb) Hlb Heb) as [|Hagrb]; [by left|].
  right. split; [rewrite <- Hagra, <- Hagrb by lia; done|].
  apply (vo_prefix _ _ (inv_voter _ (ni_inv _ HN) _ _ Ha)). lia.
Qed.

(** A trace that commits and applies [first_entry] at two voters, with one message dropped. *)
Definition entry_payload : payload := PayloadFields None None None (Some first_entry).
Definition msg (source target ty : string) : TransportProofs.call (P := payload) := Message source target ty entry_payload "deliver" 0.
Definition sample_messages : list (TransportProofs.call (P := payload)) := [
  Message "node-1" "node-1" "ACTIVATE" (PayloadFields (Some 1) (Some two) None None) "deliver" 0;
  msg "node-1" "node-1" "APPEND"; Message "node-1" "node-2" "APPEND" entry_payload "duplicate" 0;
  Message "node-1" "node-3" "APPEND" entry_payload "drop" 0;
  msg "node-1" "node-1" "DURABLE_ACK"; msg "node-2" "node-1" "DURABLE_ACK"; msg "node-1" "node-1" "PREPARE_PROOF";
  msg "node-1" "node-1" "COMMIT_PROOF"; msg "node-1" "node-2" "COMMIT_PROOF";
  msg "node-1" "node-1" "COMMIT_PROOF_ACK"; msg "node-2" "node-1" "COMMIT_PROOF_ACK"; msg "node-1" "node-1" "COMMIT";
  msg "node-1" "node-1" "APPLY"; msg "node-1" "node-2" "APPLY"].
Definition sample_trace : transport payload :=
  TransportProofs.run sample_messages (Transport "trace" [] ∅ 0 0).
Definition sample_history : history := Eval vm_compute in n_history (snd (run_network sample_trace)).

Lemma sample_run : n_history (snd (run_network sample_trace)) = sample_history.
Proof. vm_compute. reflexivity. Qed.

Lemma network_proofs_agree_witness :
  exists va vb p q, voters sample_history !! "node-1"%string = Some va /\ voters sample_history !! "node-2"%string = Some vb
    /\ proofs va !! 1 = Some p /\ proofs vb !! 1 = Some q /\ p_entry p = p_entry q.
Proof.
  destruct (voters sample_history !! "node-1"%string) as [va|] eqn:Ea; [|vm_compute in Ea; discriminate].
  destruct (voters sample_history !! "node-2"%string) as [vb|] eqn:Eb; [|vm_compute in Eb; discriminate].
  destruct (proofs va !! 1) as [p|] eqn:Ep; [|vm_compute in Ea; injection Ea as <-; vm_compute in Ep; discriminate].
  destruct (proofs vb !! 1) as [q|] eqn:Eq; [|vm_compute in Eb; injection Eb as <-; vm_compute in Eq; discriminate].
  exists va, vb, p, q. split_and!; try done. rewrite <- sample_run in Ea, Eb.
  exact (network_proofs_agree sample_trace _ _ _ _ _ _ _ Ea Eb Ep Eq).
Defined.

Lemma network_applied_agree_witness :
  exists va vb, voters sample_history !! "node-1"%string = Some va /\ voters sample_history !! "node-2"%string = Some vb
    /\ applied_index va = 1 /\ applied_index vb = 1 /\ (collision sample_history \/ log va !! 1 = log vb !! 1).
Proof.
  destruct (voters sample_history !! "node-1"%string) as [va|] eqn:Ea; [|vm_compute in Ea; discriminate].
  destruct (voters sample_history !! "node-2"%string) as [vb|] eqn:Eb; [|vm_compute in Eb; discriminate].
  assert (applied_index va = 1) as Ha by (vm_compute in Ea; injection Ea as <-; reflexivity).
  assert (applied_index vb = 1) as Hb by (vm_compute in Eb; injection Eb as <-; reflexivity).
  exists va, vb. split_and!; try done. rewrite <- sample_run in Ea, Eb.
  destruct (network_applied_agree sample_trace _ _ _ _ 1 Ea Eb) as [Hc|[Hl _]]; [lia|lia| |by right].
  left. rewrite <- sample_run. exact Hc.
Defined.

(** ** The transport *)

(** The 512 bytes the schedule keeps free are enough: whatever was scheduled, if no two payloads
    collide under SHA-256 and the trace identity renders to at most 431 bytes, the trace document is
    within its size bound and [to_json] succeeds. *)
Theorem trace_always_serialises {P} `{Payload P} trace t (calls : list (TransportProofs.call (P := P))) :
  new_transport trace = Ok t -> collision_free (call_payloads calls) -> text_length (quote trace) <= 431 ->
  exists raw, to_json (TransportProofs.run calls t) = Ok raw.
Proof.
  intros Hn Hcf Hq. destruct (new_accounted _ _ Hn) as (Ha & Hk & Ht).
  destruct (run_accounted (call_payloads calls) calls t) as [HA HT]; try done.
  { intros k p Hp. apply Hk in Hp. by apply elem_of_nil in Hp. }
  apply to_json_fits; [done|]. by rewrite HT, Ht.
Qed.

(** Reading back the document of a scheduled trace gives the same transport: events, payloads and
    both byte counters. *)
Theorem trace_round_trip {P} `{Payload P} trace t (calls : list (TransportProofs.call (P := P))) raw :
  new_transport trace = Ok t -> collision_free (call_payloads calls) ->
  to_json (TransportProofs.run calls t) = Ok raw ->
  from_json (text_length raw) (to_document (TransportProofs.run calls t)) = Ok (TransportProofs.run calls t).
Proof.
  intros Hn Hcf Hj. destruct (new_accounted _ _ Hn) as (Ha & Hk & Ht).
  destruct (run_accounted (call_payloads calls) calls t) as [HA HT]; try done.
  { intros k p Hp. apply Hk in Hp. by apply elem_of_nil in Hp. }
  by apply from_to_document.
Qed.

Lemma sample_collision_free : collision_free (call_payloads sample_messages).
Proof.
  intros p q Hp Hq. assert (forall x, x ∈ call_payloads sample_messages -> x = entry_payload \/ x = PayloadFields (Some 1) (Some two) None None) as Hx.
  { intros x Hx. vm_compute in Hx. repeat (apply elem_of_cons in Hx as [-> | Hx]; [vm_compute; tauto|]). by apply elem_of_nil in Hx. }
  destruct (Hx _ Hp) as [-> | ->], (Hx _ Hq) as [-> | ->]; intros Hd.
  1, 4: reflexivity.
  all: vm_compute in Hd; discriminate Hd.
Qed.

Lemma sample_to_json : exists raw, to_json sample_trace = Ok raw.
Proof.
  destruct (new_accounted "trace" (Transport "trace" [] ∅ 0 0) eq_refl) as (Ha & Hk & Ht).
  destruct (run_accounted _ sample_messages (Transport "trace" [] ∅ 0 0) sample_collision_free) as [HA HT]; [done..| |].
  { intros k p Hp. done. }
  apply to_json_fits; [exact HA|]. change (t_trace sample_trace) with (t_trace (TransportProofs.run sample_messages (Transport "trace" [] ∅ 0 0))).
  rewrite HT. vm_compute. discriminate.
Qed.

Lemma trace_always_serialises_witness :
  exists raw, to_json sample_trace = Ok raw.
Proof.
  apply (trace_always_serialises "trace" _ sample_messages); [reflexivity|exact sample_collision_free|].
  vm_compute. discriminate.
Defined.

Lemma trace_round_trip_witness :
  exists raw, from_json (text_length raw) (to_document sample_trace) = Ok sample_trace.
Proof.
  destruct sample_to_json as [raw E]. exists raw.
  exact (trace_round_trip "trace" _ sample_messages raw eq_refl sample_collision_free E).
Defined.
