(* ===== verification/LeaderOracle.v ===== *)
(** * The leader oracle ([scripts/v50/leader_oracle.py])

    Replays the independently parsed histories of three production voters through the safety model of
    [ReplicatedHistory]: its calls promise, append, prepare, persist, complete and apply, and it raises
    where a call raises or a report disagrees.  The members of an entry or a proof that the oracle only
    compares are of any type with decidable equality. *)

From stdpp Require Import base gmap sets strings list.
From S2P Require Import Prelude Bytes Sha256 ReplicatedHistory ReplicatedHistorySafety ReplicatedHistoryAtomic.
Import StateNotations ResultNotations.
Local Open Scope py_scope.
Local Open Scope Z_scope.

Section LeaderOracle.
Context {R P : Type} `{EqDecision R, EqDecision P}.

Record record := LogRecord {
  l_index : Z; l_epoch : Z; l_operation : string; l_payload_digest : string; l_incarnation : string;
  (* the members that are only compared *)
  l_rest : R
}.
Record proof := Proof_ { q_index : Z; q_receipt_voters : list string; q_rest : P }.
#[local] Instance record_eq_dec : EqDecision record.
Proof. solve_decision. Defined.
#[local] Instance proof_eq_dec : EqDecision proof.
Proof. solve_decision. Defined.

Record report := Report { r_last_log_index : Z; r_entries : list record; r_proofs : list proof }.
Record published := Published { a_index : Z; a_sequence : Z }.

(** [l[i]]; a negative [i] counts from the end. *)
Definition py_index {A} (l : list A) (i : Z) : result A :=
  let j := if i <? 0 then Z.of_nat (length l) + i else i in
  of_option (if 0 <=? j then l !! Z.to_nat j else None) IndexError.

Section Validate.
Context (reports : gmap string report) (applied : gmap string published) (successful : list Z).

(** [validate] starts by checking that the keys are the voters, so these lookups never miss. *)
Definition report_of (node : string) : report := default (Report 0 [] []) (reports !! node).
Definition applied_of (node : string) : published := default (Published 0 0) (applied !! node).

Definition holders (index : Z) : list string :=
  List.filter (fun node => index <=? r_last_log_index (report_of node)) VOTERS.

Definition agree (x : record) : result unit :=
  check_all (fun node =>
    let! y := py_index (r_entries (report_of node)) (l_index x - 1) in
    guard (bool_decide (y = x)) (ValueError "production entry histories disagree")) (holders (l_index x)).

(** [next((proof for proof in reports[node]["proofs"] if proof["index"] == index), None)] *)
Definition proof_at (index : Z) (node : string) : option proof :=
  List.find (fun q => q_index q =? index) (r_proofs (report_of node)).
Definition proofs_at (index : Z) : list (string * proof) :=
  omap (fun node => (fun q => (node, q)) <$> proof_at index node) VOTERS.

Definition commit_record (index : Z) (e : entry) : M unit :=
  match proofs_at index with
  | [] => ret tt
  | ((_, canonical) :: _) as held =>
      do* require (forallb (fun q : string * proof => bool_decide (q.2 = canonical)) held)
        "production commit proofs disagree" in
      let* p := prepare_proof e (list_to_map ((fun node => (node, receipt node e)) <$> q_receipt_voters canonical)) in
      let* acknowledgements := persist_all held.*1 p in
      if (2 <=? length acknowledgements)%nat then complete_commit p acknowledgements else ret tt
  end.

(** One turn of the loop over the leader's entries; it returns the next [previous]. *)
Definition check_record (x : record) (previous : string) : M string :=
  do* liftr (agree x) in
  let* h := get in
  do* (if l_epoch x =? active_epoch h then ret tt
       else promise (l_epoch x) (holders (l_index x)) (l_incarnation x) "node-1") in
  let* e := construct (Entry (l_index x) (l_epoch x) (l_operation x) (l_payload_digest x) previous (l_incarnation x)) in
  do* for_each (holders (l_index x)) (fun node => let* _ := append node e in ret tt) in
  do* commit_record (l_index x) e in
  let* h := get in
  do* require (negb (bool_decide (l_index x ∈ successful) && (commit_index h <? l_index x)))
    "successful application response has no durable proof quorum" in
  ret (entry_digest e).

Fixpoint check_records (records : list record) (previous : string) : M unit :=
  match records with
  | [] => ret tt
  | x :: records' => let* previous' := check_record x previous in check_records records' previous'
  end.

Definition apply_to (node : string) : M unit :=
  do* apply node (a_index (applied_of node)) in
  let* v := get_voter node in
  require (application_sequence v =? a_sequence (applied_of node)) "application sequence differs from independent model".

Record verdict := Verdict { model_commit_index : Z; leader_applied_index : Z; leader_application_sequence : Z }.

Definition replay : M verdict :=
  do* require (bool_decide (dom reports = (list_to_set VOTERS : gset string))
      && bool_decide (dom applied = (list_to_set VOTERS : gset string))) "oracle needs all three distinct voters" in
  do* check_records (r_entries (report_of "node-1")) "GENESIS" in
  do* for_each VOTERS apply_to in
  do* require (negb (existsb (fun index => a_index (applied_of "node-1") <? index) successful))
    "successful response precedes leader publication" in
  let* h := get in
  let* leader := get_voter "node-1" in
  ret (Verdict (commit_index h) (applied_index leader) (leader_sequence h)).

(** A fresh model for every call *)
Definition validate : result verdict := (replay history0).1.
End Validate.
End LeaderOracle.
Arguments record : clear implicits.
Arguments proof : clear implicits.
Arguments report : clear implicits.

(** ** A sample: two entries, the second without a proof quorum *)

Definition sample_record (i : Z) (operation : string) : record string := LogRecord i 2 operation "payload" "leader" "digest".
Definition sample_report (entries : list (record string)) (last : Z) (qs : list (proof string)) : report string string :=
  Report last entries qs.
Definition sample_proof : proof string := Proof_ 1 ["node-2"; "node-1"]%string "proof".
Definition sample_reports : gmap string (report string string) :=
  let both := [sample_record 1 "ADD"; sample_record 2 "NO_OP"] in
  list_to_map [("node-1", sample_report both 2 [sample_proof; Proof_ 2 ["node-1"; "node-3"] "other"]);
    ("node-2", sample_report [sample_record 1 "ADD"] 1 [sample_proof]); ("node-3", sample_report both 2 [])]%string.
Definition sample_applied : gmap string published :=
  list_to_map [("node-1", Published 1 1); ("node-2", Published 1 1); ("node-3", Published 0 0)]%string.

Example sample_verdict : validate sample_reports sample_applied [1] = Ok (Verdict 1 1 1).
Proof. vm_compute. reflexivity. Qed.
Example unproven_success : validate sample_reports sample_applied [2]
  = Err (ValueError "successful application response has no durable proof quorum").
Proof. vm_compute. reflexivity. Qed.
Example unpublished_success : validate sample_reports (<["node-1"%string := Published 0 0]> sample_applied) [1]
  = Err (ValueError "successful response precedes leader publication").
Proof. vm_compute. reflexivity. Qed.

(** ** Calls that only change promises, proofs and applied positions *)

Definition unlogged (h h' : history) : Prop :=
  commit_index h' = commit_index h
  /\ forall n v', voters h' !! n = Some v' -> exists v, voters h !! n = Some v /\ log v' = log v.
Definition silent {A} (m : M A) : Prop := forall h, unlogged h (m h).2.

#[export] Instance unlogged_preorder : PreOrder unlogged.
Proof.
  split.
  - intros h. split; [done|]. intros n v Hv. by exists v.
  - intros h1 h2 h3 [C1 V1] [C2 V2]. split; [congruence|]. intros n v Hv.
    destruct (V2 _ _ Hv) as (v2 & Hv2 & ->). destruct (V1 _ _ Hv2) as (v1 & Hv1 & ->). by exists v1.
Qed.

Lemma silent_still {A} (m : M A) : still m -> silent m.
Proof. intros Hm h. unfold still in Hm. rewrite (Hm h). reflexivity. Qed.
Lemma silent_bind {A B} (m : M A) (k : A -> M B) : silent m -> (forall a, silent (k a)) -> silent (bind m k).
Proof.
  intros Hm Hk h. unfold bind. specialize (Hm h). destruct (m h) as [[a|y] h1]; [|done].
  cbn [fst snd] in Hm. etrans; [exact Hm|apply Hk].
Qed.
Lemma silent_set_voter n f : (forall v, log (f v) = log v) -> silent (modify (set_voter n f)).
Proof.
  intros Hf h. split; [done|]. intros m v' Hv. cbn in Hv. apply lookup_alter_Some in Hv as [(-> & v & Hv & ->)|[_ Hv]]; [|by exists v'].
  exists v. by rewrite Hf.
Qed.
Lemma silent_for_each {A} (l : list A) (body : A -> M unit) : (forall x, silent (body x)) -> silent (for_each l body).
Proof.
  intros Hb. induction l as [|x l IH]; [by apply silent_still|]. cbn [for_each]. apply silent_bind; [done|]. by intros [].
Qed.
Lemma silent_promise epoch nodes incarnation leader : silent (promise epoch nodes incarnation leader).
Proof.
  unfold promise. apply silent_bind; [apply silent_still, still_quorum|intros _].
  do 2 (apply silent_bind; [apply silent_still, still_require|intros _]).
  apply silent_bind; [apply silent_still, still_max_promise|intros m].
  apply silent_bind; [apply silent_still, still_require|intros _].
  apply silent_bind; [|intros []; intros h; split; [done|]; intros n v Hv; by exists v].
  apply silent_for_each. intros n. by apply silent_set_voter.
Qed.
Lemma silent_persist_all nodes p : silent (persist_all nodes p).
Proof.
  induction nodes as [|n nodes IH]; [by apply silent_still|]. cbn [persist_all]. apply silent_bind.
  - unfold persist_proof. apply silent_bind; [apply silent_still, still_validate|intros _].
    apply silent_bind; [by apply silent_set_voter|]. intros []. by apply silent_still.
  - intros d. apply silent_bind; [done|]. intros acks. by apply silent_still.
Qed.
Lemma silent_run {A} (m : M A) h r h' : silent m -> m h = (r, h') -> unlogged h h'.
Proof. intros Hm H. specialize (Hm h). by rewrite H in Hm. Qed.
Lemma good_run {A} (m : M A) h r h' : keeps_good m -> Inv h -> m h = (r, h') -> Inv h'.
Proof.
  intros Hm HI H. specialize (Hm h HI). unfold wp in Hm. rewrite H in Hm. destruct r; apply Hm.
Qed.

Lemma apply_inv node through h u h' :
  apply node through h = (Ok u, h') ->
  exists v s, voters h !! node = Some v /\ through <= commit_index h /\ commit_index h' = commit_index h
    /\ voters h' = alter (apply_voter s through) node (voters h).
Proof.
  unfold apply. intros H. apply bind_ok in H as (v & h1 & Hv & H). apply get_voter_inv in Hv as [Hv ->].
  apply bind_ok in H as (w1 & h1 & Hs & H). apply require_inv in Hs as [_ ->].
  apply bind_ok in H as (h0 & h1 & Hs & H). injection Hs as <- <-.
  do 3 (apply bind_ok in H as (? & h1 & Hr & H); apply require_inv in Hr as [? ->]). bool_tac.
  apply bind_ok in H as (w2 & h1 & Hs & H). injection Hs as _ <-. exists v. eexists.
  case_bool_decide; injection H as _ <-; split_and!; done.
Qed.

Lemma complete_inv p acks h u h' :
  complete_commit p acks h = (Ok u, h') ->
  commit_index h <= e_index (p_entry p) <= commit_index h + 1 /\ h' = set_commit (e_index (p_entry p)) h
  /\ (2 <= length acks)%nat /\ NoDup acks.*1.
Proof.
  unfold complete_commit. intros H. apply bind_ok in H as (v & h1 & Hv & H). apply get_voter_inv in Hv as [Hv ->].
  apply bind_ok in H as (w1 & h1 & Hs & H). apply active_inv in Hs as [_ ->].
  apply bind_ok in H as (w2 & h1 & Hs & H). unfold quorum in Hs. apply require_inv in Hs as [Hq ->].
  apply bind_ok in H as (h0 & h1 & Hs & H). injection Hs as <- <-.
  do 2 (apply bind_ok in H as (? & h1 & Hr & H); apply require_inv in Hr as [? ->]). injection H as _ <-. bool_tac.
  unfold QUORUM in *. match goal with Hn : size _ = _ |- _ => pose proof (NoDup_of_size _ Hn); rewrite length_fmap in Hn end.
  split_and!; [lia..|done|lia|done].
Qed.

Lemma append_inv node e h r h' :
  append node e h = (Ok r, h') -> exists v, voters h !! node = Some v /\ h' = set_voter node (log_entry e) h.
Proof.
  unfold append. intros H. apply bind_ok in H as (v & h1 & Hv & H). apply get_voter_inv in Hv as [Hv ->].
  apply bind_ok in H as (w1 & h1 & Hs & H). apply active_inv in Hs as [_ ->].
  apply bind_ok in H as (w2 & h1 & Hs & H). apply require_inv in Hs as [_ ->].
  apply bind_ok in H as (w3 & h1 & Hs & H).
  assert (h1 = h) as -> by (destruct (1 <? e_index e); by apply require_inv in Hs as [_ ->]). clear Hs.
  apply bind_ok in H as (w4 & h1 & Ht & H). injection Ht as _ <-. injection H as _ <-. by exists v.
Qed.

Lemma construct_inv e e' h h' : construct e h = (Ok e', h') -> e' = e /\ h' = h /\ 1 <= e_index e.
Proof.
  unfold construct, post_init. intros H. ok_inv H. injection Hx as <-. bool_tac. split_and!; [done|done|lia].
Qed.

Lemma omap_keys {A B} `{EqDecision A} (f : A -> option (A * B)) l :
  (forall n x, f n = Some x -> x.1 = n) -> NoDup l -> NoDup (omap f l).*1 /\ forall n, n ∈ (omap f l).*1 -> n ∈ l.
Proof.
  intros Hf. induction l as [|n l IH]; intros Hn; [by split; [constructor|]|]. apply NoDup_cons in Hn as [Hn Hl].
  destruct (IH Hl) as [Hd Hs]. cbn [omap list_omap]. destruct (f n) as [x|] eqn:Hx; [|split; [done|]; intros m Hm; right; by apply Hs].
  apply Hf in Hx. cbn [fmap list_fmap]. rewrite Hx. split.
  - constructor; [|done]. intros Hin. by apply Hn, Hs.
  - intros m Hm. apply elem_of_cons in Hm as [->|Hm]; [by left|right; by apply Hs].
Qed.

Lemma two_of {A} (l : list A) : NoDup l -> (2 <= length l)%nat -> exists a b, a <> b /\ a ∈ l /\ b ∈ l.
Proof.
  intros Hd Hl. destruct l as [|a [|b l]]; cbn [length] in Hl; [lia..|]. apply NoDup_cons in Hd as [Ha _].
  exists a, b. split_and!; [intros ->; apply Ha; by left|by left|right; by left].
Qed.

(** ** What an accepted comparison shows *)

Section Sound.
Context {R P : Type} `{EqDecision R, EqDecision P}.
Context (reports : gmap string (report R P)) (applied : gmap string published) (successful : list Z).
Notation report_of := (report_of reports).
Notation applied_of := (applied_of applied).
Notation last node := (r_last_log_index (report_of node)).

(** The record of a voter at a log index *)
Definition held (node : string) (i : Z) : option (record R) := r_entries (report_of node) !! Z.to_nat (i - 1).

(** Record [x] is committed at index [i]: every voter whose log reaches [i] holds it there, the leader does, two voters
    hold one proof of it, and two of the voters that proof names hold the record. *)
Record committed (i : Z) (x : record R) : Prop := {
  c_index : l_index x = i;
  c_held : forall n, n ∈ VOTERS -> i <= last n -> held n i = Some x;
  c_leader : i <= last "node-1"%string;
  c_proofs : exists q a b c d, proof_at reports i a = Some q /\ proof_at reports i b = Some q /\ a <> b /\ a ∈ VOTERS /\ b ∈ VOTERS
    /\ c ∈ q_receipt_voters q /\ d ∈ q_receipt_voters q /\ c <> d /\ c ∈ VOTERS /\ d ∈ VOTERS /\ i <= last c /\ i <= last d
}.

(** The application entries among the first [k] of a voter *)
Definition applications (node : string) (k : Z) : Z :=
  Z.of_nat (length (List.filter (fun x => is_application (l_operation x)) (take (Z.to_nat k) (r_entries (report_of node))))).

(** The model's logs are the reported ones, and what it has committed is. *)
Record replayed (h : history) : Prop := {
  rp_inv : Inv h;
  rp_log : forall n v i e, voters h !! n = Some v -> log v !! i = Some e ->
    i <= last n /\ exists x, held n i = Some x /\ l_operation x = e_operation e;
  rp_committed : forall i, 1 <= i <= commit_index h -> exists x, committed i x
}.

Lemma replayed_silent h h' : Inv h' -> unlogged h h' -> replayed h -> replayed h'.
Proof.
  intros HI [Hc Hv] [_ Hl Hk]. split; [done| |by rewrite Hc]. intros n v' i e Hn He.
  destruct (Hv _ _ Hn) as (v & Hn' & Hlog). rewrite Hlog in He. by eapply Hl.
Qed.
Lemma replayed_run {A} (m : M A) h r h' : keeps_good m -> silent m -> replayed h -> m h = (r, h') -> replayed h'.
Proof.
  intros Hg Hs Hr H. eapply replayed_silent; [|by eapply silent_run|done]. by eapply good_run; [|apply Hr|].
Qed.

Lemma py_index_pos {A} (l : list A) i : 1 <= i -> py_index l (i - 1) = of_option (l !! Z.to_nat (i - 1)) IndexError.
Proof. intros Hi. unfold py_index. rewrite (proj2 (Z.ltb_ge (i - 1) 0)), (proj2 (Z.leb_le 0 (i - 1))) by lia. done. Qed.

Lemma elem_holders n i : n ∈ holders reports i <-> n ∈ VOTERS /\ i <= last n.
Proof. unfold holders. rewrite !list_elem_of_In, filter_In, Z.leb_le. done. Qed.

Lemma agree_ok x : agree reports x = Ok tt -> 1 <= l_index x ->
  forall n, n ∈ VOTERS -> l_index x <= last n -> held n (l_index x) = Some x.
Proof.
  unfold agree. intros H Hi n Hn Hl. eapply check_all_ok in H; [|by apply elem_holders]. cbv beta in H.
  rewrite py_index_pos in H by done. ok_inv H. bool_tac. by subst.
Qed.

Lemma appended x e hs h h' u : agree reports x = Ok tt -> 1 <= e_index e -> l_index x = e_index e -> l_operation x = e_operation e ->
  (forall n, n ∈ hs -> n ∈ VOTERS /\ e_index e <= last n) ->
  for_each hs (fun node => let* _ := append node e in ret tt) h = (Ok u, h') -> replayed h -> replayed h'.
Proof.
  intros Ha Hi Hx Hop. revert h. induction hs as [|n hs IH]; intros h Hin H Hr; cbn [for_each] in H.
  - by apply ret_ok in H as [_ <-].
  - apply bind_ok in H as ([] & h1 & Hn & H). apply bind_ok in Hn as (r & h2 & Hn & Hret). apply ret_ok in Hret as [_ <-].
    apply (IH h2); [set_solver|done|]. pose proof (good_run _ _ _ _ (append_good n e Hi) (rp_inv _ Hr) Hn) as HI.
    apply append_inv in Hn as (v & Hv & ->). split; [done| |by apply Hr].
    intros m w i e' Hm He. destruct (decide (n = m)) as [->|Hne].
    + cbn in Hm. rewrite lookup_alter_eq, Hv in Hm. injection Hm as <-. cbn in He. apply lookup_insert_Some in He as [[<- <-]|[_ He]].
      * destruct (Hin m) as [Hv' Hle]; [by left|]. split; [done|]. exists x. split; [|done]. rewrite <- Hx in Hle |- *.
        apply agree_ok; [done|lia|done..].
      * by eapply Hr.
    + cbn in Hm. rewrite lookup_alter_ne in Hm by done. by eapply Hr.
Qed.

Lemma durable_held h e qs : let d := (durable_receipts h e (list_to_map ((fun n => (n, receipt n e)) <$> qs))).*1 in
  NoDup d /\ forall n, n ∈ d -> n ∈ VOTERS /\ n ∈ qs /\ exists v, voters h !! n = Some v /\ log v !! e_index e = Some e.
Proof.
  intros d. destruct (omap_keys (fun node => match (list_to_map ((fun n => (n, receipt n e)) <$> qs) : gmap string string) !! node, voters h !! node with
      | Some r, Some v => if bool_decide (log v !! e_index e = Some e) && bool_decide (r = receipt node e) then Some (node, r) else None
      | _, _ => None end) VOTERS) as [Hd Hs].
  - intros n x Hx. destruct (list_to_map _ !! n), (voters h !! n); try done. destruct (_ && _); [by injection Hx as <-|done].
  - vm_compute. repeat constructor; set_solver.
  - split; [exact Hd|]. intros n Hn. split; [by apply Hs|].
    apply list_elem_of_fmap in Hn as ([m r] & -> & Hn). unfold durable_receipts in Hn. apply list_elem_of_omap in Hn as (n & _ & Hn). cbn [fst].
    destruct (list_to_map _ !! n) as [r'|] eqn:Hq; [|done]. destruct (voters h !! n) as [v|] eqn:Hv; [|done].
    destruct (_ && _) eqn:Hb; [|done]. injection Hn as -> ->. bool_tac.
    split; [|by exists v]. apply elem_of_list_to_map_2, list_elem_of_fmap in Hq as (? & [= -> _] & Hq). done.
Qed.

Lemma proofs_at_keys i : NoDup (proofs_at reports i).*1 /\ forall n, n ∈ (proofs_at reports i).*1 -> n ∈ VOTERS.
Proof.
  apply omap_keys; [|vm_compute; repeat constructor; set_solver].
  intros n x Hx. destruct (proof_at reports i n); [|done]. by injection Hx as <-.
Qed.

Lemma persist_all_keys nodes p h acks h' : persist_all nodes p h = (Ok acks, h') -> acks.*1 = nodes.
Proof.
  revert h acks h'. induction nodes as [|n nodes IH]; intros h acks h' H; cbn [persist_all] in H; [by apply ret_ok in H as [<- _]|].
  apply bind_ok in H as (d & h1 & _ & H). apply bind_ok in H as (l & h2 & Hl & H). apply ret_ok in H as [<- _].
  cbn. f_equal. exact (IH _ _ _ Hl).
Qed.

Lemma commit_replayed x e h h' u : agree reports x = Ok tt -> 1 <= l_index x -> e_index e = l_index x ->
  commit_record reports (l_index x) e h = (Ok u, h') -> replayed h -> replayed h'.
Proof.
  intros Ha Hi He H Hr. unfold commit_record in H. destruct (proofs_at_keys (l_index x)) as [Hd Hk].
  destruct (proofs_at reports (l_index x)) as [|[n0 q] l] eqn:Hq; [by apply ret_ok in H as [_ <-]|]. rewrite <- Hq in H, Hd, Hk.
  apply bind_ok in H as (w & h1 & Hs & H). apply require_inv in Hs as [Hsame ->].
  apply bind_ok in H as (p & h1 & Hs & H). apply prepare_inv in Hs as (-> & Hpe & Hpr & Htwo & Hc & leader & Hl & _ & Hlog).
  apply bind_ok in H as (acks & h1 & Hs & H). pose proof (persist_all_keys _ _ _ _ _ Hs) as Hacks.
  assert (replayed h1) as Hr1 by (eapply replayed_run; [apply persist_all_good|apply silent_persist_all|done|exact Hs]).
  destruct (silent_run _ _ _ _ (silent_persist_all _ _) Hs) as [Hcommit _].
  destruct (2 <=? length acks)%nat; [|by apply ret_ok in H as [_ <-]].
  pose proof (good_run _ _ _ _ (complete_good p acks) (rp_inv _ Hr1) H) as HI.
  apply complete_inv in H as (Hb & -> & Hla & Hna). split; [done|exact (rp_log _ Hr1)|]. cbn. intros i Hii. rewrite Hpe, He in Hii, Hb.
  destruct (decide (i <= commit_index h1)) as [|Hnew]; [apply (rp_committed _ Hr1); lia|]. assert (i = l_index x) as -> by lia.
  destruct (rp_log _ Hr _ _ _ _ Hl Hlog) as [Hll _]. rewrite He in Hll. exists x. split; [done|by apply agree_ok|done|].
  destruct (durable_held h e (q_receipt_voters q)) as [Hnd Hdur]. rewrite <- Hpr in Hnd, Hdur.
  destruct (two_of _ Hnd) as (c & d & Hcd & Hc1 & Hd1); [by rewrite length_fmap|]. apply Hdur in Hc1 as (? & ? & vc & Hvc & Hlc), Hd1 as (? & ? & vd & Hvd & Hld).
  destruct (two_of _ Hna) as (a & b & Hab & Ha1 & Hb1); [by rewrite length_fmap|]. rewrite Hacks in Ha1, Hb1.
  assert (forall m, m ∈ (proofs_at reports (l_index x)).*1 -> proof_at reports (l_index x) m = Some q) as Hheld.
  { intros m Hm. apply list_elem_of_fmap in Hm as ([m' q'] & -> & Hm). rewrite forallb_forall in Hsame.
    pose proof (Hsame _ (proj1 (list_elem_of_In _ _) Hm)) as Hqq. apply bool_decide_eq_true in Hqq. cbn in Hqq. subst q'. cbn [fst].
    apply list_elem_of_omap in Hm as (m & _ & Hm). destruct (proof_at reports (l_index x) m) eqn:Hp; [|done]. by injection Hm as -> ->. }
  exists q, a, b, c, d. destruct (rp_log _ Hr _ _ _ _ Hvc Hlc) as [Hlc' _], (rp_log _ Hr _ _ _ _ Hvd Hld) as [Hld' _].
  rewrite He in Hlc', Hld'. split_and!; try done; (by apply Hheld) || by apply Hk.
Qed.

Lemma records_replayed records previous h u h' :
  check_records reports successful records previous h = (Ok u, h') -> replayed h -> replayed h'.
Proof.
  revert previous h. induction records as [|x records IH]; intros previous h H Hr; [by apply ret_ok in H as [_ <-]|].
  cbn [check_records] in H. apply bind_ok in H as (previous' & h1 & Hx & H). eapply IH; [exact H|]. clear H IH. unfold check_record in Hx.
  apply bind_ok in Hx as ([] & h2 & Hs & Hx). apply liftr_ok in Hs as [Ha ->].
  apply bind_ok in Hx as (h0 & h3 & Hs & Hx). injection Hs as <- <-.
  apply bind_ok in Hx as (w & h3 & Hs & Hx). assert (replayed h3) as Hr3.
  { destruct (_ =? _); [by apply ret_ok in Hs as [_ <-]|]. eapply replayed_run; [apply promise_good|apply silent_promise|exact Hr|exact Hs]. }
  clear Hs. apply bind_ok in Hx as (e & h4 & Hs & Hx). apply construct_inv in Hs as (-> & -> & Hi).
  apply bind_ok in Hx as (w1 & h4 & Hs & Hx). eapply (appended x) in Hs; try done; [|intros n; by rewrite elem_holders].
  apply bind_ok in Hx as (w2 & h5 & Hc & Hx). eapply (commit_replayed x) in Hc; try done.
  apply bind_ok in Hx as (h6 & h7 & Ht & Hx). injection Ht as <- <-.
  apply bind_ok in Hx as (w3 & h7 & Ht & Hx). apply require_inv in Ht as [_ ->]. by apply ret_ok in Hx as [_ <-].
Qed.

(** ** The application positions *)

Lemma take_held node k : 0 <= k -> (forall i, 1 <= i <= k -> is_Some (held node i)) ->
  applications node k = sum ((fun i => match held node i with Some x => if is_application (l_operation x) then 1 else 0 | None => 0 end) <$> seqZ 1 k).
Proof.
  intros Hk. pattern k. apply natlike_ind; [done| |done]. clear k Hk. intros k Hk IH Hall.
  rewrite (seqZ_split k (Z.succ k)), fmap_app, sum_app by lia. rewrite <- IH by (intros i Hi; apply Hall; lia).
  replace (Z.succ k - k) with 1 by lia. change (seqZ (k + 1) 1) with [k + 1]. cbn [fmap list_fmap].
  destruct (Hall (Z.succ k)) as [x Hx]; [lia|]. replace (k + 1) with (Z.succ k) by lia. rewrite Hx. unfold held in Hx.
  replace (Z.to_nat (Z.succ k - 1)) with (Z.to_nat k) in Hx by lia. unfold applications.
  rewrite Z2Nat.inj_succ by done. rewrite (take_S_r _ _ _ Hx), List.filter_app, length_app, Nat2Z.inj_add. cbn [List.filter sum fold_right].
  destruct (is_application (l_operation x)); cbn [length]; lia.
Qed.

Lemma applied_reported h node v : replayed h -> voters h !! node = Some v ->
  0 <= applied_index v <= commit_index h /\ (forall i, 1 <= i <= applied_index v -> is_Some (held node i))
  /\ application_sequence v = applications node (applied_index v).
Proof.
  intros Hr Hv. destruct (inv_voter _ (rp_inv _ Hr) _ _ Hv) as [_ _ Hb Hp Hs].
  assert (forall i, 1 <= i <= applied_index v -> exists x e, log v !! i = Some e /\ held node i = Some x /\ l_operation x = e_operation e) as Hx.
  { intros i Hi. destruct (Hp i Hi) as [e He]. destruct (rp_log _ Hr _ _ _ _ Hv He) as (_ & x & Hx & Ho). by exists x, e. }
  assert (forall i, 1 <= i <= applied_index v -> is_Some (held node i)) as Hh by (intros i Hi; destruct (Hx i Hi) as (x & e & _ & Hx' & _); by exists x).
  split_and!; [lia|lia|exact Hh|]. rewrite Hs, take_held by (done || lia). f_equal. apply list_fmap_ext. intros j i Hi.
  apply list_elem_of_lookup_2, elem_of_seqZ in Hi. destruct (Hx i) as (x & e & He & Hy & Ho); [lia|]. unfold application_at. by rewrite He, Hy, Ho.
Qed.

(** What one turn of the final loop establishes, and what it leaves for the next *)
Lemma apply_to_replayed node h h' u : replayed h -> apply_to applied node h = (Ok u, h') ->
  replayed h' /\ commit_index h' = commit_index h /\ (forall m, m <> node -> voters h' !! m = voters h !! m)
  /\ 0 <= a_index (applied_of node) <= commit_index h
  /\ a_sequence (applied_of node) = applications node (a_index (applied_of node))
  /\ (forall i, 1 <= i <= a_index (applied_of node) -> is_Some (held node i))
  /\ exists v, voters h' !! node = Some v /\ applied_index v = a_index (applied_of node) /\ application_sequence v = a_sequence (applied_of node).
Proof.
  intros Hr H. unfold apply_to in H. apply bind_ok in H as (w & h1 & Ha & H). pose proof (good_run _ _ _ _ (apply_good _ _) (rp_inv _ Hr) Ha) as HI.
  apply apply_inv in Ha as (v & s & Hv & Hle & Hc & Hvs). apply bind_ok in H as (v' & h2 & Hg & H). apply get_voter_inv in Hg as [Hv' ->].
  apply require_inv in H as [Hs ->]. bool_tac. rewrite Hvs, lookup_alter_eq, Hv in Hv'. injection Hv' as <-. cbn in Hs.
  assert (replayed h1) as Hr1.
  { eapply replayed_silent; [done| |exact Hr]. split; [done|]. intros n v' Hn. rewrite Hvs in Hn.
    apply lookup_alter_Some in Hn as [(-> & v0 & Hn & ->)|[_ Hn]]; [by exists v0|by exists v']. }
  assert (voters h1 !! node = Some (apply_voter s (a_index (applied_of node)) v)) as Hn by (by rewrite Hvs, lookup_alter_eq, Hv).
  destruct (applied_reported _ _ _ Hr1 Hn) as (Hb & Hh & Hseq). cbn in Hb, Hh, Hseq. rewrite Hc in Hb.
  split_and!; try done; try lia; [|eexists; split_and!; [exact Hn|done|done]].
  intros m Hm. by rewrite Hvs, lookup_alter_ne.
Qed.

(** C33: an accepted comparison of three replicas with the model.  Successful operations are published by the leader
    and published entries are committed.  Every committed index has one record, which every voter whose log reaches
    the index holds there, the leader among them, with one proof of it at two voters that names two voters holding it.
    Every voter applied a prefix of its own reported log, as many application entries as it says. *)
Theorem leader_oracle_sound r : validate reports applied successful = Ok r ->
  (forall i, i ∈ successful -> i <= leader_applied_index r) /\ leader_applied_index r <= model_commit_index r
  /\ (forall i, 1 <= i <= model_commit_index r -> exists x, committed i x)
  /\ (forall n, n ∈ VOTERS -> 0 <= a_index (applied_of n) <= model_commit_index r
       /\ (forall i, 1 <= i <= a_index (applied_of n) -> is_Some (held n i))
       /\ a_sequence (applied_of n) = applications n (a_index (applied_of n)))
  /\ leader_applied_index r = a_index (applied_of "node-1") /\ leader_application_sequence r = a_sequence (applied_of "node-1").
Proof.
  unfold validate. destruct (replay reports applied successful history0) as [r' hf] eqn:H. cbn [fst]. intros ->. unfold replay in H.
  apply bind_ok in H as (w & h1 & Hs & H). apply require_inv in Hs as [_ ->].
  apply bind_ok in H as (w1 & h1 & Hs & H). apply records_replayed in Hs; [|split; [apply inv_history0| |]].
  2:{ intros n v i e Hv He. apply elem_of_list_to_map_2, list_elem_of_fmap in Hv as (m & [= _ ->] & _). done. }
  2:{ intros i Hi. cbn in Hi. lia. }
  apply bind_ok in H as (w2 & h2 & Hl & H). cbn [for_each VOTERS] in Hl.
  apply bind_ok in Hl as (u1 & ha & Ha & Hl). apply bind_ok in Hl as (u2 & hb & Hb & Hl). apply bind_ok in Hl as (u3 & hc & Hc & Hl).
  apply ret_ok in Hl as [_ ->].
  apply apply_to_replayed in Ha as (Ra & Ca & _ & Ba & Sa & La & v & Va & Ia & Qa); [|done].
  apply apply_to_replayed in Hb as (Rb & Cb & Vb & Bb & Sb & Lb & _); [|done].
  apply apply_to_replayed in Hc as (Rc & Cc & Vc & Bc & Sc & Lc & _); [|done].
  rewrite <- Vb, <- Vc in Va by done. apply bind_ok in H as (w3 & h3 & Ht & H). apply require_inv in Ht as [Hsucc ->].
  apply bind_ok in H as (h4 & h3 & Ht & H). injection Ht as <- <-. apply bind_ok in H as (v' & h3 & Ht & H). apply get_voter_inv in Ht as [Hv' ->].
  apply ret_ok in H as [<- _]. rewrite Va in Hv'. injection Hv' as <-. cbn [model_commit_index leader_applied_index leader_application_sequence].
  split_and!; [|lia|apply Rc| |done|by rewrite (inv_leader _ (rp_inv _ Rc) _ Va)].
  - intros i Hi. rewrite Ia. apply Z.le_ngt. intros Hlt. apply negb_true_iff, not_true_iff_false in Hsucc. apply Hsucc.
    apply existsb_exists. exists i. split; [by apply list_elem_of_In|by apply Z.ltb_lt].
  - intros n Hn. repeat (apply elem_of_cons in Hn as [->|Hn]); [split_and!; (done || lia)..|]. by apply not_elem_of_nil in Hn.
Qed.
End Sound.

Lemma leader_oracle_sound_witness :
  validate sample_reports sample_applied [1] = Ok (Verdict 1 1 1) /\ exists x, committed sample_reports 1 x.
Proof.
  assert (validate sample_reports sample_applied [1] = Ok (Verdict 1 1 1)) as Hv by (vm_compute; reflexivity).
  split; [exact Hv|]. apply (leader_oracle_sound sample_reports sample_applied [1] (Verdict 1 1 1) Hv). cbn. lia.
Defined.
