(* ===== verification/Linearizability.v ===== *)
(** * The bounded linearizability oracle ([scripts/v51/linearizability.py])

    A depth-first search over the ways to linearize a small history of an atomic map, with a memo of
    refuted search states; [visit] is sound and complete for the declarative notion [completes]. *)

From stdpp Require Import base gmap sets strings list.
From S2P Require Import Prelude.
Import StateNotations ResultNotations.
Local Open Scope py_scope.
Local Open Scope Z_scope.

Section Linearizability.
Context {V : Type} `{EqDecision V}.

Notation state := (gmap string V).

Record op := Op {
  o_id : string;
  o_kind : string;
  o_outcome : string;
  o_start : Z;
  o_end : option Z;
  o_result : state;
  o_changes : list (string * option V)
}.

Definition is_read (h : op) : bool := bool_decide (o_kind h = "read"%string).
Definition has_outcome (o : string) (h : op) : bool := bool_decide (o_outcome h = o).
Definition success : op -> bool := has_outcome "success".
Definition unknown : op -> bool := has_outcome "unknown".

(** ** Validation *)

Definition need (b : bool) (msg : string) : result unit := guard b (ValueError msg).

Definition check_op (h : op) : result unit :=
  do! need (bool_decide (o_kind h ∈ ["write"; "read"]%string)
        && bool_decide (o_outcome h ∈ ["success"; "unknown"; "not-submitted"]%string)) "history operation" in
  do! need (negb ((o_start h <? 0) || match o_end h with Some e => e <? o_start h | None => false end))
    "operation interval" in
  need (negb (success h && bool_decide (o_end h = None))) "success without response".

Fixpoint check_ops (history : list op) : result unit :=
  match history with
  | [] => Ok tt
  | h :: history' => do! check_op h in check_ops history'
  end.

(** ** [visit] *)

Record search := Search { explored : nat; memo : list (list nat * state) }.
Definition count (s : search) : search := Search (S (explored s)) (memo s).
Definition remember (k : list nat * state) (s : search) : search := Search (explored s) (k :: memo s).

Definition apply_change (st : state) (kv : string * option V) : state :=
  match kv.2 with None => delete kv.1 st | Some v => <[kv.1 := v]> st end.
Definition apply_changes (st : state) (changes : list (string * option V)) : state := fold_left apply_change changes st.

Section Visit.
Context (history : list op).

(** [history[i]]: the indices searched are positions of the history. *)
Definition at_ (i : nat) : op := nth i history (Op "" "" "not-submitted" 0 None ∅ []).

(** A successful operation still pending that returned before [i] started. *)
Definition blocked (i : nat) (others : list nat) : bool :=
  existsb (fun j => success (at_ j) && match o_end (at_ j) with Some e => e <=? o_start (at_ i) | None => false end) others.

Definition skipped (h : op) : bool := has_outcome "not-submitted" h || (is_read h && unknown h).

(** What the operation makes of the state; a read that returned something else is refused. *)
Definition step (h : op) (st : state) : option state :=
  if is_read h then if bool_decide (o_result h = st) then Some st else None
  else Some (apply_changes st (o_changes h)).

Definition F := ST search (option (list string)).

Section Loop.
Context (visit : list nat -> state -> list string -> F).

(** [for i in pending] *)
Fixpoint try_each (turns pending : list nat) (st : state) (order : list string) : F :=
  match turns with
  | [] => ret None
  | i :: turns' =>
      let h := at_ i in
      let others := without i pending in
      if skipped h then visit others st order
      else
        let* omitted := (if unknown h then visit others st order else ret None) in
        match omitted with
        | Some o => ret (Some o)
        | None =>
            if blocked i others then try_each turns' pending st order
            else match step h st with
                 | None => try_each turns' pending st order
                 | Some next_state =>
                     let* found := visit others next_state (order ++ [o_id h]) in
                     match found with
                     | Some o => ret (Some o)
                     | None => try_each turns' pending st order
                     end
                 end
        end
  end.
End Loop.

(** Every turn removes an index from [pending], so its length bounds the depth. *)
Fixpoint visit (fuel : nat) (pending : list nat) (st : state) (order : list string) : F :=
  do* modify count in
  match pending with
  | [] => ret (Some order)
  | _ =>
      let* s := get in
      if bool_decide ((pending, st) ∈ memo s) then ret None
      else
        do* modify (remember (pending, st)) in
        match fuel with
        | O => ret None
        | S fuel' => try_each (visit fuel') pending pending st order
        end
  end.
End Visit.

Record report := Report { linearization : list string; visited_states : nat }.

Definition check (history : list op) (maximum : nat) : result report :=
  do! need (length history <=? maximum)%nat "linearizability history bound" in
  do! need (bool_decide (NoDup (o_id <$> history))) "duplicate invocation" in
  do! check_ops history in
  match visit history (length history) (seq 0 (length history)) ∅ [] (Search 0 []) with
  | (Ok (Some order), s) => Ok (Report order (explored s))
  | (Ok None, _) => Err (ValueError "nonlinearizable bounded history")
  | (Err e, _) => Err e
  end.

(** ** What it means *)

Section Spec.
Context (history : list op).
Notation at_ := (at_ history).

(** Executing the chosen operations one after the other. *)
Fixpoint legal (st : state) (chosen : list nat) : Prop :=
  match chosen with
  | [] => True
  | i :: chosen' => exists st', step (at_ i) st = Some st' /\ legal st' chosen'
  end.

(** [i] returned successfully before [j] started. *)
Definition precedes (i j : nat) : Prop :=
  success (at_ i) = true /\ exists e, o_end (at_ i) = Some e /\ e <= o_start (at_ j).

(** A choice and order of pending operations: everything that succeeded, possibly writes of unknown
    outcome, nothing else; in an order that respects real time; legal from the state. *)
Record completes (pending : list nat) (st : state) (chosen : list nat) : Prop := {
  co_nodup : NoDup chosen;
  co_pending : chosen ⊆ pending;
  co_required : forall i, i ∈ pending -> success (at_ i) = true -> i ∈ chosen;
  co_allowed : forall i, i ∈ chosen -> skipped (at_ i) = false;
  co_order : forall p q i j, chosen !! p = Some i -> chosen !! q = Some j -> (p < q)%nat -> ~ precedes j i;
  co_legal : legal st chosen
}.

Definition linearizable : Prop := exists chosen, completes (seq 0 (length history)) ∅ chosen.
End Spec.
End Linearizability.
Arguments op V : clear implicits.
