(* ===== verification/LinearizabilityProofs.v ===== *)
(** * The linearizability search is sound and complete *)

From stdpp Require Import base gmap sets strings list.
From S2P Require Import Prelude Linearizability.
Import StateNotations ResultNotations.
Local Open Scope py_scope.
Local Open Scope Z_scope.

Section Proofs.
Context {V : Type} `{EqDecision V}.
Context (history : list (op V)).
Notation at_ := (at_ history).
Notation state := (gmap string V).
Notation completes := (completes history).

(** Validated outcomes. *)
Definition sorted_outcomes : Prop := forall i, success (at_ i) = true \/ unknown (at_ i) = true \/ skipped (at_ i) = true.

Lemma success_not_unknown h : success h = true -> unknown (V := V) h = false.
Proof. unfold success, unknown, has_outcome. intros Hs. bool_tac. apply bool_decide_eq_false. rewrite Hs. done. Qed.

Lemma skipped_not_success h : skipped (V := V) h = true -> success h = false.
Proof.
  unfold skipped, success, unknown, has_outcome. intros Hs. apply bool_decide_eq_false. intros Ho.
  apply orb_true_iff in Hs as [Hs|Hs]; bool_tac; rewrite Ho in *; done.
Qed.

Lemma NoDup_without i pending : NoDup pending -> NoDup (without i pending).
Proof. unfold without. rewrite !NoDup_ListNoDup. apply List.NoDup_filter. Qed.

(** ** Choices *)

Lemma completes_omit i pending st chosen :
  success (at_ i) = false -> completes (without i pending) st chosen -> completes pending st chosen.
Proof.
  intros Hs [N P R A O L]. split; try done.
  - intros j Hj. apply P in Hj. by apply elem_without in Hj as [? _].
  - intros j Hj Hsj. apply R; [|done]. apply elem_without. split; [done|]. intros ->. congruence.
Qed.

Lemma completes_nil st : completes [] st [].
Proof. split; try done; [apply NoDup_nil_2|intros i Hi; by apply elem_of_nil in Hi..]. Qed.

Lemma completes_skip i pending st chosen :
  i ∉ chosen -> completes pending st chosen -> completes (without i pending) st chosen.
Proof.
  intros Hi [N P R A O L]. split; try done.
  - intros j Hj. apply elem_without. split; [by apply P|]. by intros ->.
  - intros j Hj Hsj. apply R; [|done]. by apply elem_without in Hj as [? _].
Qed.

Lemma blocked_false i others :
  blocked history i others = false <-> forall j, j ∈ others -> ~ precedes history j i.
Proof.
  unfold blocked, precedes. split.
  - intros Hb j Hj (Hs & e & He & Hle). apply not_true_iff_false in Hb. apply Hb, existsb_exists. exists j.
    rewrite <- list_elem_of_In, Hs, He. split; [done|]. by apply Z.leb_le.
  - intros Hn. apply not_true_iff_false. intros Hb. apply existsb_exists in Hb as (j & Hj & Hb). apply list_elem_of_In in Hj.
    apply andb_true_iff in Hb as [Hs Hb]. destruct (o_end (at_ j)) as [e|] eqn:He; [|done]. apply Z.leb_le in Hb.
    apply (Hn j Hj). split; [done|]. by exists e.
Qed.

Lemma completes_cons i pending st st' chosen :
  i ∈ pending -> skipped (at_ i) = false -> blocked history i (without i pending) = false ->
  step (at_ i) st = Some st' -> completes (without i pending) st' chosen -> completes pending st (i :: chosen).
Proof.
  intros Hi Hsk Hb Hst [N P R A O L]. rewrite blocked_false in Hb. split.
  - constructor; [|done]. intros Hc. apply P in Hc. by apply elem_without in Hc as [_ ?].
  - intros j Hj. apply elem_of_cons in Hj as [->|Hj]; [done|]. apply P in Hj. by apply elem_without in Hj as [? _].
  - intros j Hj Hsj. apply elem_of_cons. destruct (decide (j = i)) as [|Hne]; [by left|]. right. apply R; [|done].
    by apply elem_without.
  - intros j Hj. apply elem_of_cons in Hj as [->|Hj]; [done|by apply A].
  - intros p q a b Ha Hb' Hpq. destruct q as [|q]; [lia|]. simpl in Hb'. destruct p as [|p]; simpl in Ha.
    + injection Ha as <-. apply Hb, P. by eapply list_elem_of_lookup_2.
    + eapply O; [exact Ha|exact Hb'|lia].
  - exists st'. done.
Qed.

Lemma completes_uncons i pending st chosen :
  completes pending st (i :: chosen) ->
  i ∈ pending /\ skipped (at_ i) = false /\ blocked history i (without i pending) = false
  /\ exists st', step (at_ i) st = Some st' /\ completes (without i pending) st' chosen.
Proof.
  intros [N P R A O L]. apply NoDup_cons in N as [Hn N]. destruct L as (st' & Hst & L). split_and!.
  - apply P. by left.
  - apply A. by left.
  - apply blocked_false. intros j Hj Hp. apply elem_without in Hj as [Hj Hne].
    assert (j ∈ i :: chosen) as Hc by (apply R; [done|apply Hp]).
    apply elem_of_cons in Hc as [->|Hc]; [done|]. apply list_elem_of_lookup_1 in Hc as [q Hq].
    eapply (O 0%nat (S q) i j); [done|done|lia|done].
  - exists st'. split; [done|]. split; try done.
    + intros j Hj. apply elem_without. split; [apply P; by right|]. by intros ->.
    + intros j Hj Hsj. apply elem_without in Hj as [Hj Hne]. pose proof (R j Hj Hsj) as Hc.
      by apply elem_of_cons in Hc as [->|Hc].
    + intros j Hj. apply A. by right.
    + intros p q a b Ha Hb Hpq. eapply (O (S p) (S q)); [done|done|lia].
Qed.

(** ** Soundness *)

Definition ids (chosen : list nat) : list string := (fun i => o_id (at_ i)) <$> chosen.

Definition sound_at (v : list nat -> state -> list string -> F (V := V)) (pending : list nat) : Prop :=
  forall st order s o s', v pending st order s = (Ok (Some o), s') ->
  exists chosen, completes pending st chosen /\ o = order ++ ids chosen.

Lemma try_each_sound v turns pending st order s o s' :
  sorted_outcomes -> turns ⊆ pending -> (forall i, i ∈ pending -> sound_at v (without i pending)) ->
  try_each history v turns pending st order s = (Ok (Some o), s') ->
  exists chosen, completes pending st chosen /\ o = order ++ ids chosen.
Proof.
  intros Hout Hsub Hv. revert s. induction turns as [|i turns IH]; intros s H; [done|]. cbn [try_each] in H.
  assert (i ∈ pending) as Hi by (apply Hsub; by left). assert (turns ⊆ pending) as Hsub' by set_solver.
  destruct (skipped (at_ i)) eqn:Hsk.
  { destruct (Hv i Hi _ _ _ _ _ H) as (chosen & Hc & ->). exists chosen. split; [|done].
    eapply completes_omit; [by apply skipped_not_success|exact Hc]. }
  apply bind_ok in H as ([o1|] & s1 & Ho & H).
  { ok_inv H. simplify_eq. destruct (unknown (at_ i)) eqn:Hu; [|done].
    destruct (Hv i Hi _ _ _ _ _ Ho) as (chosen & Hc & ->). exists chosen. split; [|done].
    eapply completes_omit; [|exact Hc]. destruct (success (at_ i)) eqn:Hs; [|done]. apply success_not_unknown in Hs. congruence. }
  destruct (blocked history i (without i pending)) eqn:Hb; [by eapply IH|].
  destruct (step (at_ i) st) as [st'|] eqn:Hst; [|by eapply IH].
  apply bind_ok in H as ([o2|] & s2 & Ho2 & H); [|by eapply IH].
  ok_inv H. simplify_eq. destruct (Hv i Hi _ _ _ _ _ Ho2) as (chosen & Hc & ->). exists (i :: chosen).
  split; [by eapply completes_cons|]. rewrite <- app_assoc. done.
Qed.

Lemma visit_sound fuel pending : sorted_outcomes -> sound_at (visit history fuel) pending.
Proof.
  intros Hout. revert pending. induction fuel as [|fuel IH]; intros pending st order s o s' H; cbn [visit] in H.
  all: apply bind_ok in H as (u & s0 & _ & H).
  all: destruct pending as [|j pending']; [ok_inv H; simplify_eq; exists []; split; [apply completes_nil|by rewrite app_nil_r]|].
  all: remember (j :: pending') as pending; apply bind_ok in H as (s1 & s2 & Hg & H).
  all: destruct (bool_decide _); [by ok_inv H|]; apply bind_ok in H as (u' & s3 & _ & H).
  { by ok_inv H. }
  eapply try_each_sound; [done| |intros i Hi; apply IH|exact H]. done.
Qed.

(** ** Completeness *)

(** Every remembered search state of at most [n] pending operations is refuted. *)
Definition refuted (n : nat) (s : search (V := V)) : Prop :=
  forall k, k ∈ memo s -> (length k.1 <= n)%nat -> forall chosen, ~ completes k.1 k.2 chosen.

(** A search only remembers states of at most [n] pending operations. *)
Definition remembers (n : nat) (s s' : search (V := V)) : Prop :=
  forall k, k ∈ memo s' -> k ∈ memo s \/ (length k.1 <= n)%nat.

Definition exact_at (v : list nat -> state -> list string -> F (V := V)) (pending : list nat) : Prop :=
  forall st order s r s', refuted (length pending) s -> v pending st order s = (r, s') ->
  (exists o, r = Ok (Some o)) \/
  (r = Ok None /\ (forall chosen, ~ completes pending st chosen) /\ refuted (length pending) s'
   /\ remembers (length pending) s s').

Lemma remembers_trans n s1 s2 s3 : remembers n s1 s2 -> remembers n s2 s3 -> remembers n s1 s3.
Proof. intros H1 H2 k Hk. destruct (H2 k Hk) as [Hk2|]; [|by right]. by apply H1. Qed.

Lemma try_each_exact v n turns pending st order s r s' :
  sorted_outcomes -> NoDup pending -> length pending = S n -> turns ⊆ pending ->
  (forall i, i ∈ pending -> exact_at v (without i pending)) ->
  refuted n s -> try_each history v turns pending st order s = (r, s') ->
  (exists o, r = Ok (Some o)) \/
  (r = Ok None /\ refuted n s' /\ remembers n s s'
   /\ forall chosen, completes pending st chosen ->
        match chosen with [] => turns = [] | i :: _ => i ∉ turns end).
Proof.
  intros Hout Hnd Hlen Hsub Hv. revert s. induction turns as [|i turns IH]; intros s Href H.
  { right. ok_inv H. injection H as <- <-. split_and!; [done|done|by intros k Hk; left|]. intros [|? ?] _; [done|set_solver]. }
  assert (i ∈ pending) as Hi by (apply Hsub; by left). assert (turns ⊆ pending) as Hsub' by set_solver.
  pose proof (length_without i pending Hnd Hi) as Hlw. assert (length (without i pending) = n) as Hn by lia.
  cbn [try_each] in H. destruct (skipped (at_ i)) eqn:Hsk.
  { assert (Href' : refuted (length (without i pending)) s) by (by rewrite Hn).
    destruct (Hv i Hi _ _ _ _ _ Href' H) as [|(-> & Hno & Hr & Hm)]; [by left|]. right. rewrite Hn in *.
    split_and!; try done. intros chosen Hc. exfalso. apply (Hno chosen). apply completes_skip; [|done].
    intros Hin. pose proof (co_allowed _ _ _ _ Hc _ Hin). congruence. }
  (* the turns after [i], once every completion that starts with [i] is refuted *)
  assert (Hrest : forall s1, refuted n s1 -> remembers n s s1 -> try_each history v turns pending st order s1 = (r, s') ->
    (forall chosen, ~ completes pending st (i :: chosen)) -> ~ completes pending st [] ->
    (exists o, r = Ok (Some o)) \/ (r = Ok None /\ refuted n s' /\ remembers n s s'
      /\ forall chosen, completes pending st chosen -> match chosen with [] => i :: turns = [] | j :: _ => j ∉ i :: turns end)).
  { intros s1 Hr1 Hm1 H1 Hhead Hnil. destruct (IH Hsub' s1 Hr1 H1) as [|(-> & Hr & Hm & Hc)]; [by left|]. right.
    split_and!; [done|done|by eapply remembers_trans|]. intros [|j chosen] Hj; [done|].
    apply not_elem_of_cons. split; [|by apply (Hc _ Hj)]. intros ->. by eapply Hhead. }
  assert (Hnil : unknown (at_ i) = true -> (forall chosen, ~ completes (without i pending) st chosen) -> ~ completes pending st []).
  { intros _ Hno Hc. apply (Hno []). apply completes_skip; [|done]. apply not_elem_of_nil. }
  assert (Hnil' : success (at_ i) = true -> ~ completes pending st []).
  { intros Hs Hc. pose proof (co_required _ _ _ _ Hc i Hi Hs) as Hin. by apply elem_of_nil in Hin. }
  apply bind_inv in H as (r1 & s1 & Ho & H).
  assert ((exists o, r1 = Ok (Some o)) \/ (r1 = Ok None /\ refuted n s1 /\ remembers n s s1 /\ ~ completes pending st [])) as Hom.
  { destruct (unknown (at_ i)) eqn:Hu.
    - assert (Href' : refuted (length (without i pending)) s) by (by rewrite Hn).
      destruct (Hv i Hi _ _ _ _ _ Href' Ho) as [|(-> & Hno & Hr & Hm)]; [by left|]. right. rewrite Hn in *.
      split_and!; try done. by apply Hnil.
    - right. injection Ho as <- <-. split_and!; try done; [by intros k Hk; left|]. apply Hnil'.
      destruct (Hout i) as [|[|]]; [done|congruence..]. }
  destruct Hom as [[o ->]|(-> & Hr1 & Hm1 & Hnil1)]; [left; unfold ret in H; injection H as <- _; by eexists|].
  destruct (blocked history i (without i pending)) eqn:Hb.
  { eapply Hrest; [exact Hr1|exact Hm1|exact H| |done]. intros chosen Hc. apply completes_uncons in Hc as (_ & _ & Hb' & _). congruence. }
  destruct (step (at_ i) st) as [st'|] eqn:Hst.
  2:{ eapply Hrest; [exact Hr1|exact Hm1|exact H| |done]. intros chosen Hc. apply completes_uncons in Hc as (_ & _ & _ & st' & Hst' & _). congruence. }
  apply bind_inv in H as (r2 & s2 & Ho2 & H).
  assert (Href' : refuted (length (without i pending)) s1) by (by rewrite Hn).
  destruct (Hv i Hi _ _ _ _ _ Href' Ho2) as [[o ->]|(-> & Hno & Hr2 & Hm2)]; [left; unfold ret in H; injection H as <- _; by eexists|].
  rewrite Hn in *. eapply Hrest; [exact Hr2|by eapply remembers_trans|exact H| |done].
  intros chosen Hc. apply completes_uncons in Hc as (_ & _ & _ & st2 & Hst2 & Hc). rewrite Hst in Hst2. injection Hst2 as <-.
  by eapply Hno.
Qed.

Lemma visit_exact fuel pending :
  sorted_outcomes -> NoDup pending -> (length pending <= fuel)%nat -> exact_at (visit history fuel) pending.
Proof.
  intros Hout. revert pending. induction fuel as [|fuel IH]; intros pending Hnd Hf st order s r s' Href H.
  - destruct pending; [|simpl in Hf; lia]. left. cbn [visit] in H. unfold bind, modify, ret in H. injection H as <- <-. by eexists.
  - cbn [visit] in H. unfold bind at 1, modify at 1 in H.
    destruct pending as [|j pending'] eqn:Hp; [left; injection H as <- <-; by eexists|]. rewrite <- Hp in *.
    unfold bind at 1, get in H. destruct (bool_decide ((pending, st) ∈ memo (count s))) eqn:Hm.
    + bool_tac. injection H as <- <-. right. split_and!; [done| |done|by intros k Hk; left].
      apply (Href _ Hm). simpl. lia.
    + unfold bind, modify in H.
      set (n := length pending'). assert (length pending = S n) as Hlen by (by rewrite Hp).
      assert (refuted n (remember (pending, st) (count s))) as Hr0.
      { intros k Hk Hkn. simpl in Hk. apply elem_of_cons in Hk as [->|Hk]; [simpl in Hkn; lia|]. apply Href; [done|lia]. }
      eapply try_each_exact in H; [|done|done|exact Hlen|done| |exact Hr0].
      2:{ intros i Hi. pose proof (length_without i pending Hnd Hi). apply IH; [by apply NoDup_without|lia]. }
      destruct H as [|(-> & Hr & Hrm & Hc)]; [by left|]. right. split; [done|].
      assert (forall chosen, ~ completes pending st chosen) as Hno.
      { intros [|i chosen] Hi; pose proof (Hc _ Hi) as Hb; simpl in Hb; [by rewrite Hp in Hb|].
        apply completes_uncons in Hi as [Hi _]. done. }
      split_and!; [done| |].
      * intros k Hk Hkn. destruct (decide (length k.1 <= n)%nat) as [Hle|Hgt]; [by apply Hr|].
        destruct (Hrm k Hk) as [Hk'|]; [|lia]. simpl in Hk'. apply elem_of_cons in Hk' as [->|Hk']; [done|].
        by apply Href.
      * intros k Hk. destruct (Hrm k Hk) as [Hk'|]; [|right; lia]. simpl in Hk'.
        apply elem_of_cons in Hk' as [->|Hk']; [right; simpl; lia|by left].
Qed.
End Proofs.

(** ** [check] *)

Section Check.
Context {V : Type} `{EqDecision V}.
Implicit Types history : list (op V).

(** The part of [check] that validates its input. *)
Definition valid (history : list (op V)) (maximum : nat) : Prop :=
  (length history <= maximum)%nat /\ NoDup (o_id <$> history) /\ check_ops history = Ok tt.

Lemma check_ops_outcomes history : check_ops history = Ok tt -> sorted_outcomes history.
Proof.
  intros Hc i. unfold at_. set (d := Op "" "" "not-submitted" 0 None ∅ []).
  destruct (decide (i < length history)%nat) as [Hi|Hi]; [|right; right; rewrite nth_overflow by lia; reflexivity].
  assert (nth i history d ∈ history) as Hin by (apply list_elem_of_In, nth_In; done).
  generalize dependent (nth i history d). intros h Hin. clear i Hi.
  induction history as [|h' history IH]; [set_solver|]. simpl in Hc. ok_inv Hc. destruct x.
  apply elem_of_cons in Hin as [->|Hin]; [|by apply IH]. unfold check_op, need in Hx. ok_inv Hx. bool_tac.
  match goal with Ho : o_outcome h' ∈ _ |- _ => repeat (apply elem_of_cons in Ho as [Ho|Ho]); [..|by apply elem_of_nil in Ho] end.
  - left. unfold success, has_outcome. by apply bool_decide_eq_true.
  - right; left. unfold unknown, has_outcome. by apply bool_decide_eq_true.
  - right; right. unfold skipped, has_outcome. rewrite bool_decide_true by done. done.
Qed.

Lemma check_spec history maximum :
  (valid history maximum -> exists r s, visit history (length history) (seq 0 (length history)) ∅ [] (Search 0 []) = (r, s)
     /\ check history maximum = match r with
          | Ok (Some order) => Ok (Report order (explored s))
          | Ok None => Err (ValueError "nonlinearizable bounded history")
          | Err e => Err e
          end)
  /\ (~ valid history maximum -> is_ok (check history maximum) = false).
Proof.
  unfold check, need, valid. split.
  - intros (Hl & Hn & Hc). rewrite (proj2 (Nat.leb_le _ _)) by done. cbn [guard rbind].
    rewrite bool_decide_true by done. cbn [guard rbind]. rewrite Hc. cbn [rbind].
    destruct (visit _ _ _ _ _ _) as [r s]. exists r, s. split; [done|]. destruct r as [[o|]|e]; done.
  - intros Hv. destruct (Nat.leb_spec (length history) maximum); [|done]. cbn [guard rbind].
    destruct (bool_decide (NoDup _)) eqn:Hn; [|done]. cbn [guard rbind]. bool_tac.
    destruct (check_ops history) as [[]|e] eqn:Hc; [|done]. exfalso. by apply Hv.
Qed.

Lemma check_exact history maximum :
  (is_ok (check history maximum) = true <-> valid history maximum /\ linearizable history)
  /\ forall rep, check history maximum = Ok rep ->
       exists chosen, completes history (seq 0 (length history)) ∅ chosen
         /\ linearization rep = (fun i => o_id (at_ history i)) <$> chosen.
Proof.
  destruct (check_spec history maximum) as [Hv Hn].
  destruct (decide (length history <= maximum)%nat) as [Hl|Hl].
  2:{ rewrite Hn by (intros (? & _); lia). split; [split; [done|intros [(? & _) _]; lia]|]. intros rep Hr.
      assert (is_ok (check history maximum) = false) as Hf by (apply Hn; intros (? & _); lia). by rewrite Hr in Hf. }
  destruct (decide (NoDup (o_id <$> history) /\ check_ops history = Ok tt)) as [[Hd Hc]|Hd].
  2:{ assert (~ valid history maximum) as Hnv by (intros (? & ? & ?); apply Hd; done). rewrite Hn by done.
      split; [split; [done|by intros [? _]]|]. intros rep Hr. pose proof (Hn Hnv) as Hf. by rewrite Hr in Hf. }
  assert (valid history maximum) as Hval by done. destruct (Hv Hval) as (r & s & Hvis & ->). pose proof (check_ops_outcomes _ Hc) as Hout.
  pose proof (visit_exact history (length history) (seq 0 (length history)) Hout (NoDup_seq _ _)) as He.
  rewrite length_seq in He. specialize (He ltac:(lia) ∅ [] (Search 0 []) r s).
  destruct He as [[o ->]|(-> & Hno & _)]; [|exact Hvis| |].
  - intros k Hk. by apply elem_of_nil in Hk.
  - destruct (visit_sound _ _ _ Hout _ _ _ _ _ Hvis) as (chosen & Hch & Ho).
    split; [split; [|done]|intros rep [= <-]; exists chosen; split; done].
    intros _. split; [done|]. by exists chosen.
  - split; [|done]. split; [done|]. intros [_ [chosen Hch]]. exfalso. by eapply Hno.
Qed.
End Check.

(** ** Properties of the client-history oracle *)

(** C16: The bounded linearizability check passes exactly the well-formed histories that have a
    linearization (with writes of unknown outcome omitted or completed), always returns, and the order
    it reports is such a linearization; remembering refuted search states loses none. *)
Theorem linearizability_exact {V} `{EqDecision V} (history : list (op V)) maximum :
  (is_ok (check history maximum) = true <-> valid history maximum /\ linearizable history)
  /\ forall rep, check history maximum = Ok rep ->
       exists chosen, completes history (seq 0 (length history)) ∅ chosen
         /\ linearization rep = (fun i => o_id (at_ history i)) <$> chosen.
Proof. apply check_exact. Qed.

(** A write of unknown outcome that a later read observed, and one that nobody did. *)
Definition sample_operations : list (op Z) := [
  Op "w1" "write" "success" 0 (Some 2) ∅ [("k"%string, Some 1)];
  Op "w2" "write" "unknown" 1 (Some 9) ∅ [("k"%string, Some 2)];
  Op "w3" "write" "unknown" 3 None ∅ [("k"%string, Some 3)];
  Op "r1" "read" "success" 4 (Some 5) {[ "k"%string := 2 ]} [];
  Op "r2" "read" "success" 6 (Some 7) {[ "k"%string := 2 ]} [] ].

Lemma linearizability_exact_witness :
  exists rep chosen, check sample_operations 10 = Ok rep
    /\ completes sample_operations (seq 0 5) ∅ chosen /\ linearization rep = ["w1"; "w2"; "r1"; "r2"]%string
    /\ linearization rep = (fun i => o_id (at_ sample_operations i)) <$> chosen.
Proof.
  destruct (check sample_operations 10) as [rep|] eqn:E; [|vm_compute in E; discriminate].
  destruct (proj2 (linearizability_exact sample_operations 10) rep E) as (chosen & Hc & Ho).
  exists rep, chosen. split; [done|]. split; [exact Hc|]. split; [|exact Ho]. vm_compute in E. injection E as <-. reflexivity.
Defined.

(** The stale read is refused. *)
Example stale_read_rejected :
  check (take 4 sample_operations ++ [Op "r2" "read" "success" 6 (Some 7) {[ "k"%string := 1 ]} []]) 10
  = Err (ValueError "nonlinearizable bounded history").
Proof. vm_compute. reflexivity. Qed.
