(* ===== verification/PublicHistory.v ===== *)
(** * The bounded client-history search ([scripts/v51/public_history.py])

    A depth-first search, over masks of operations already placed, for an order of a client history of
    atomic [addAll] calls and ordered match-all reads.  A search that would visit more states than its
    bound raises instead of answering.  [public_history_exact] relates its answers to the declarative
    [linearizable].  Document identities and values are of any types with decidable equality. *)

From stdpp Require Import base gmap sets strings list.
From S2P Require Import Prelude.
Import StateNotations ResultNotations.
Local Open Scope py_scope.
Local Open Scope Z_scope.

Section PublicHistory.
Context {K V : Type} `{EqDecision K, EqDecision V}.

(** The pairs ([id], [value]), in order *)
Notation state := (list (K * V)).

Record op := Op {
  o_id : string; o_start : Z; o_end : option Z; o_outcome : string; o_kind : string;
  (* [None] when the key is missing *)
  o_documents : option state
}.

Definition need (b : bool) (msg : string) : result unit := guard b (ValueError msg).
Definition needs {S} (b : bool) (msg : string) : ST S unit := liftr (need b msg).

Definition OUTCOMES : list string :=
  ["SUCCESS"; "NOT_SUBMITTED"; "INDETERMINATE"; "PENDING"; "CANCELLED"; "NOT_APPLICABLE"; "VALIDATION_FAILURE"]%string.
Definition has_outcome (outcomes : list string) (x : op) : bool := bool_decide (o_outcome x ∈ outcomes).
Definition success : op -> bool := has_outcome ["SUCCESS"%string].
Definition is_write (x : op) : bool := bool_decide (o_kind x = "addAll"%string).
Definition is_read (x : op) : bool := bool_decide (o_kind x = "read"%string).

(** ** Validation *)

Definition check_op (x : op) : result unit :=
  do! need (0 <=? o_start x) "invocation time" in
  do! need (match o_end x with None => true | Some e => o_start x <=? e end) "response interval" in
  do! need (has_outcome OUTCOMES x) "unknown outcome" in
  do! need (has_outcome ["PENDING"%string] x || bool_decide (is_Some (o_end x))) "missing response time" in
  do! need (is_write x || is_read x) "unsupported history operation" in
  if is_write x then
    let! docs := of_option (o_documents x) KeyError in
    do! need (negb (bool_decide (docs = [])) && bool_decide (NoDup docs.*1)) "atomic bulk keys" in
    need (negb (has_outcome ["NOT_APPLICABLE"%string] x)) "mutation without outcome"
  else
    do! need (negb (has_outcome ["NOT_SUBMITTED"; "INDETERMINATE"; "CANCELLED"]%string x)) "read has mutation outcome" in
    if success x then need (bool_decide (is_Some (o_documents x))) "missing read result" else Ok tt.

(** The operations the search places: successes, and writes that may have happened *)
Definition is_active (x : op) : bool :=
  success x || (is_write x && has_outcome ["PENDING"; "INDETERMINATE"; "CANCELLED"]%string x).

Fixpoint check_ops (ids : list string) (history : list op) : result (list op) :=
  match history with
  | [] => Ok []
  | x :: history' =>
      do! need (negb (bool_decide (o_id x ∈ ids))) "duplicate operation identity" in
      do! check_op x in
      let! active := check_ops (o_id x :: ids) history' in
      Ok (if is_active x then x :: active else active)
  end.

(** ** [search] *)

Record choice := Choice { c_op : string; c_included : bool }.

Section Search.
Context (active : list op) (max_states : Z).

(** [active[i]]: the positions searched are those of the list. *)
Definition at_ (i : nat) : op := nth i active (Op EmptyString 0 None EmptyString EmptyString None).

(** A success that ended before [i] started *)
Definition precedes (j i : nat) : bool :=
  negb (j =? i)%nat && success (at_ j) && match o_end (at_ j) with Some e => e <? o_start (at_ i) | None => false end.

(** [sum(1 << j for j, other in enumerate(active) if ...)] *)
Definition bits (l : list nat) : Z := fold_right (fun j m => Z.shiftl 1 (Z.of_nat j) + m) 0 l.
Definition predecessors (i : nat) : Z := bits (List.filter (fun j => precedes j i) (seq 0 (length active))).
Definition done_mask : Z := Z.shiftl 1 (Z.of_nat (length active)) - 1.

Definition key : Type := Z * state.
Definition F := ST (list key) (option (list choice)).

(** What an included operation makes of the state; [None] where the search goes on to the next one *)
Definition effect (x : op) (st : state) : result (option state) :=
  let! docs := of_option (o_documents x) KeyError in
  Ok (if is_read x then (if bool_decide (docs = st) then Some st else None)
      else if existsb (fun k => bool_decide (k ∈ docs.*1)) st.*1 then None else Some (st ++ docs)).

Section Loop.
Context (search : Z -> state -> list choice -> F).

(** [for i, op in enumerate(active)], from position [i] on *)
Fixpoint try_each (turns : list nat) (mask : Z) (st : state) (path : list choice) : F :=
  match turns with
  | [] => ret None
  | i :: turns' =>
      let x := at_ i in
      let bit := Z.shiftl 1 (Z.of_nat i) in
      if negb (Z.land mask bit =? 0) || negb (Z.land (predecessors i) (Z.lnot mask) =? 0) then try_each turns' mask st path
      else
        let* omitted := (if success x then ret None
                         else search (Z.lor mask bit) st (path ++ [Choice (o_id x) false])) in
        match omitted with
        | Some w => ret (Some w)
        | None =>
            let* next_state := liftr (effect x st) in
            match next_state with
            | None => try_each turns' mask st path
            | Some st' =>
                let* found := search (Z.lor mask bit) st' (path ++ [Choice (o_id x) true]) in
                match found with
                | Some w => ret (Some w)
                | None => try_each turns' mask st path
                end
            end
        end
  end.
End Loop.

(** Every call sets a bit of [mask], so the number of operations bounds the depth. *)
Fixpoint search (fuel : nat) (mask : Z) (st : state) (path : list choice) : F :=
  if mask =? done_mask then ret (Some path)
  else
    let* visited := get in
    if bool_decide ((mask, st) ∈ visited) then ret None
    else
      do* needs (Z.of_nat (length visited) <? max_states) "history search bound exceeded (inconclusive)" in
      do* modify (cons (mask, st)) in
      match fuel with
      | O => raise (AssertionError "fuel")
      | S fuel' => try_each (search fuel') (seq 0 (length active)) mask st path
      end.
End Search.

Record report := Report { r_operations : nat; r_active : nat; r_explored : nat; r_witness : list choice }.

Definition check (history : list op) (max_operations max_states : Z) (initial : state) : result report :=
  do! need ((0 <? Z.of_nat (length history)) && (Z.of_nat (length history) <=? max_operations)) "history operation bound" in
  do! need (bool_decide (NoDup initial.*1)) "duplicate initial document" in
  let! active := check_ops [] history in
  match search active max_states (length active) 0 initial [] [] with
  | (Ok (Some witness), visited) => Ok (Report (length history) (length active) (length visited) witness)
  | (Ok None, _) => Err (ValueError "history is not linearizable within declared model")
  | (Err e, _) => Err e
  end.
End PublicHistory.
Arguments op : clear implicits.

(** ** What it means *)

Section Spec.
Context {K V : Type} `{EqDecision K, EqDecision V}.
Context (active : list (op K V)).
Notation at_ := (at_ active).
Notation state := (list (K * V)).

(** Executing the chosen operations one after the other *)
Fixpoint legal (st : state) (chosen : list nat) : Prop :=
  match chosen with
  | [] => True
  | i :: chosen' => exists st', effect (at_ i) st = Ok (Some st') /\ legal st' chosen'
  end.

(** A choice and order of pending operations: everything that succeeded and possibly writes of uncertain
    outcome, in an order that respects real time; legal from the state. *)
Record completes (pending : list nat) (st : state) (chosen : list nat) : Prop := {
  co_nodup : NoDup chosen;
  co_pending : chosen ⊆ pending;
  co_required : forall i, i ∈ pending -> success (at_ i) = true -> i ∈ chosen;
  co_order : forall p q i j, chosen !! p = Some i -> chosen !! q = Some j -> (p < q)%nat -> precedes active j i = false;
  co_legal : legal st chosen
}.

Definition linearizable (initial : state) : Prop := exists chosen, completes (seq 0 (length active)) initial chosen.

(** ** Masks *)

Definition within (mask : Z) : Prop := forall k, Z.of_nat (length active) <= k -> Z.testbit mask k = false.
Definition open_ (mask : Z) (i : nat) : bool := negb (Z.testbit mask (Z.of_nat i)).
Definition pending (mask : Z) : list nat := List.filter (open_ mask) (seq 0 (length active)).

Lemma elem_pending mask i : i ∈ pending mask <-> (i < length active)%nat /\ Z.testbit mask (Z.of_nat i) = false.
Proof. unfold pending, open_. rewrite list_elem_of_In, filter_In, in_seq, negb_true_iff. intuition lia. Qed.

Lemma pending_nodup mask : NoDup (pending mask).
Proof. unfold pending. rewrite NoDup_ListNoDup. apply List.NoDup_filter, seq_NoDup. Qed.

Lemma pending_zero : pending 0 = seq 0 (length active).
Proof.
  unfold pending. generalize (seq 0 (length active)). intros l. induction l as [|i l IH]; [done|]. cbn [List.filter].
  unfold open_ at 1. rewrite Z.testbit_0_l. cbn. by rewrite IH.
Qed.

Lemma bit_testbit i k : Z.testbit (Z.shiftl 1 (Z.of_nat i)) (Z.of_nat k) = bool_decide (k = i).
Proof.
  rewrite Z.shiftl_spec by lia. destruct (decide (k = i)) as [->|Hne]; [rewrite Z.sub_diag; by rewrite bool_decide_eq_true_2|].
  rewrite bool_decide_eq_false_2 by done. destruct (Z.ltb_spec (Z.of_nat k - Z.of_nat i) 0); [by apply Z.testbit_neg_r|].
  apply (Z.bits_above_log2 1); cbn; lia.
Qed.

Lemma bit_clear mask i : Z.land mask (Z.shiftl 1 (Z.of_nat i)) = 0 <-> Z.testbit mask (Z.of_nat i) = false.
Proof.
  split.
  - intros H. apply (f_equal (fun z => Z.testbit z (Z.of_nat i))) in H. rewrite Z.land_spec, Z.testbit_0_l in H.
    rewrite Z.shiftl_spec in H by lia. rewrite Z.sub_diag in H. cbn in H. by rewrite andb_true_r in H.
  - intros H. apply Z.bits_inj'. intros k Hk. rewrite Z.land_spec, Z.testbit_0_l. rewrite <- (Z2Nat.id k) by lia.
    rewrite bit_testbit. case_bool_decide as Hki; [|apply andb_false_r]. by rewrite Hki, H.
Qed.

Lemma bits_testbit l k : NoDup l -> Z.testbit (bits l) (Z.of_nat k) = bool_decide (k ∈ l).
Proof.
  revert k. induction l as [|j l IH]; intros k Hn; [by rewrite Z.testbit_0_l|]. apply NoDup_cons in Hn as [Hj Hn]. cbn [bits fold_right].
  fold (bits l). assert (Z.land (Z.shiftl 1 (Z.of_nat j)) (bits l) = 0) as Hland.
  { rewrite Z.land_comm. apply bit_clear. rewrite IH by done. by apply bool_decide_eq_false. }
  rewrite <- Z.add_lor_land, Hland, Z.add_0_r, Z.lor_spec, IH, bit_testbit by done. destruct (decide (k = j)) as [->|Hne].
  - by rewrite (bool_decide_eq_true_2 (j = j)), (bool_decide_eq_true_2 (j ∈ j :: l)) by set_solver.
  - rewrite (bool_decide_eq_false_2 (k = j)) by done. apply bool_decide_ext. set_solver.
Qed.

Lemma set_bit mask i k : 0 <= k -> Z.testbit (Z.lor mask (Z.shiftl 1 (Z.of_nat i))) k = Z.testbit mask k || (k =? Z.of_nat i).
Proof.
  intros Hk. rewrite Z.lor_spec. f_equal. destruct (Z.eqb_spec k (Z.of_nat i)) as [->|Hne].
  - by rewrite (bit_testbit i i), bool_decide_eq_true_2.
  - rewrite <- (Z2Nat.id k) by lia. rewrite bit_testbit. apply bool_decide_eq_false_2. lia.
Qed.

Lemma done_pending mask : within mask -> (mask =? done_mask active) = true <-> pending mask = [].
Proof.
  intros Hw. unfold done_mask. assert (Z.shiftl 1 (Z.of_nat (length active)) - 1 = Z.ones (Z.of_nat (length active))) as -> by done.
  rewrite Z.eqb_eq. split.
  - intros ->. apply elem_of_nil_inv. intros i Hi. apply elem_pending in Hi as [Hi Hb]. rewrite Z.ones_spec_low in Hb by lia. done.
  - intros Hp. apply Z.bits_inj'. intros k Hk. destruct (decide (k < Z.of_nat (length active))) as [Hlt|Hge].
    + rewrite Z.ones_spec_low by lia. destruct (Z.testbit mask k) eqn:E; [done|exfalso].
      assert (Z.to_nat k ∈ pending mask) as Hin by (apply elem_pending; rewrite Z2Nat.id by lia; split; [lia|done]).
      rewrite Hp in Hin. by apply not_elem_of_nil in Hin.
    + rewrite Z.ones_spec_high by lia. apply Hw. lia.
Qed.

Lemma pending_set mask i : (i < length active)%nat -> within mask ->
  let mask' := Z.lor mask (Z.shiftl 1 (Z.of_nat i)) in within mask' /\ pending mask' = without i (pending mask).
Proof.
  intros Hi Hw mask'. split.
  - intros k Hk. unfold mask'. rewrite set_bit, Hw by lia. cbn. apply Z.eqb_neq. lia.
  - unfold pending, without. generalize (seq 0 (length active)). intros l. induction l as [|j l IH]; [done|]. cbn [List.filter].
    assert (open_ mask' j = open_ mask j && negb (j =? i)%nat) as ->.
    { unfold open_, mask'. rewrite set_bit, negb_orb by lia. f_equal. f_equal.
      destruct (Z.eqb_spec (Z.of_nat j) (Z.of_nat i)), (Nat.eqb_spec j i); lia || done. }
    destruct (open_ mask j); cbn [andb List.filter]; [|done]. destruct (j =? i)%nat; cbn [negb]; [done|by rewrite IH].
Qed.

(** No predecessor of [i] is pending. *)
Lemma ready mask i : (i < length active)%nat ->
  Z.land (predecessors active i) (Z.lnot mask) = 0 <-> forall j, j ∈ pending mask -> precedes active j i = false.
Proof.
  intros Hi. set (l := List.filter (fun j => precedes active j i) (seq 0 (length active))).
  assert (NoDup l) as Hn by (unfold l; rewrite NoDup_ListNoDup; apply List.NoDup_filter, seq_NoDup).
  assert (forall j, j ∈ l <-> (j < length active)%nat /\ precedes active j i = true) as Hl.
  { intros j. unfold l. rewrite list_elem_of_In, filter_In, in_seq. intuition lia. }
  unfold predecessors. fold l. split.
  - intros H j Hj. apply elem_pending in Hj as [Hlt Hb]. apply not_true_iff_false. intros Hp.
    apply (f_equal (fun z => Z.testbit z (Z.of_nat j))) in H.
    rewrite Z.land_spec, Z.testbit_0_l, Z.lnot_spec, Hb, bits_testbit, bool_decide_eq_true_2 in H by (done || lia || by apply Hl). done.
  - intros H. apply Z.bits_inj'. intros k Hk. rewrite Z.land_spec, Z.testbit_0_l, Z.lnot_spec by lia.
    rewrite <- (Z2Nat.id k) by lia. rewrite bits_testbit by done. destruct (Z.testbit mask _) eqn:E; [apply andb_false_r|].
    rewrite andb_true_r. apply bool_decide_eq_false_2. intros [Hlt Hp]%Hl. rewrite H in Hp; [done|]. by apply elem_pending.
Qed.

(** ** Choices *)

Lemma client_completes_omit i l st chosen :
  success (at_ i) = false -> completes (without i l) st chosen -> completes l st chosen.
Proof.
  intros Hs [N P R O L]. split; try done.
  - intros j Hj. apply P in Hj. by apply elem_without in Hj as [? _].
  - intros j Hj Hsj. apply R; [|done]. apply elem_without. split; [done|]. intros ->. congruence.
Qed.

Lemma client_completes_skip i l st chosen : i ∉ chosen -> completes l st chosen -> completes (without i l) st chosen.
Proof.
  intros Hi [N P R O L]. split; try done.
  - intros j Hj. apply elem_without. split; [by apply P|]. by intros ->.
  - intros j Hj Hsj. apply R; [|done]. by apply elem_without in Hj as [? _].
Qed.

Lemma client_completes_cons i l st st' chosen :
  i ∈ l -> (forall j, j ∈ l -> precedes active j i = false) -> effect (at_ i) st = Ok (Some st') ->
  completes (without i l) st' chosen -> completes l st (i :: chosen).
Proof.
  intros Hi Hb Hst [N P R O L]. split.
  - constructor; [|done]. intros Hc. apply P in Hc. by apply elem_without in Hc as [_ ?].
  - intros j Hj. apply elem_of_cons in Hj as [->|Hj]; [done|]. apply P in Hj. by apply elem_without in Hj as [? _].
  - intros j Hj Hsj. apply elem_of_cons. destruct (decide (j = i)) as [|Hne]; [by left|]. right. apply R; [|done].
    by apply elem_without.
  - intros p q a b Ha Hb' Hpq. destruct q as [|q]; [lia|]. cbn in Hb'. destruct p as [|p]; cbn in Ha.
    + injection Ha as <-. apply Hb. apply list_elem_of_lookup_2 in Hb'. apply P in Hb'. by apply elem_without in Hb' as [? _].
    + eapply O; [exact Ha|exact Hb'|lia].
  - by exists st'.
Qed.

Lemma precedes_self i : precedes active i i = false.
Proof. unfold precedes. by rewrite Nat.eqb_refl. Qed.
Lemma precedes_success j i : precedes active j i = true -> success (at_ j) = true.
Proof. unfold precedes. intros H. by apply andb_true_iff in H as [H _]; apply andb_true_iff in H as [_ H]. Qed.

Lemma client_completes_uncons i l st chosen :
  completes l st (i :: chosen) ->
  i ∈ l /\ (forall j, j ∈ l -> precedes active j i = false) /\
  exists st', effect (at_ i) st = Ok (Some st') /\ completes (without i l) st' chosen.
Proof.
  intros [N P R O L]. apply NoDup_cons in N as [Hn N]. destruct L as (st' & Hst & L). split_and!.
  - apply P. by left.
  - intros j Hj. apply not_true_iff_false. intros Hp. destruct (decide (j = i)) as [->|Hne]; [by rewrite precedes_self in Hp|].
    assert (j ∈ i :: chosen) as Hc by (apply R; [done|by eapply precedes_success]).
    apply elem_of_cons in Hc as [->|Hc]; [done|]. apply list_elem_of_lookup_1 in Hc as [q Hq].
    rewrite (O 0%nat (S q) i j) in Hp; [done|done|done|lia].
  - exists st'. split; [done|]. split; try done.
    + intros j Hj. apply elem_without. split; [apply P; by right|]. by intros ->.
    + intros j Hj Hsj. apply elem_without in Hj as [Hj Hne]. pose proof (R j Hj Hsj) as Hc.
      by apply elem_of_cons in Hc as [->|Hc].
    + intros p q a b Ha Hb Hpq. eapply (O (S p) (S q)); [done|done|lia].
Qed.

Lemma completes_none l st : completes l st [] -> forall i, i ∈ l -> success (at_ i) = false /\ forall j, j ∈ l -> precedes active j i = false.
Proof.
  intros [N P R O L] i Hi. assert (forall j, j ∈ l -> success (at_ j) = false) as Hs.
  { intros j Hj. apply not_true_iff_false. intros Hs. pose proof (R j Hj Hs) as Hin. by apply not_elem_of_nil in Hin. }
  split; [by apply Hs|]. intros j Hj. apply not_true_iff_false. intros Hp%precedes_success. by rewrite Hs in Hp.
Qed.

Lemma client_completes_nil st : completes [] st [].
Proof. split; try done; [apply NoDup_nil_2|intros i Hi; by apply not_elem_of_nil in Hi..]. Qed.

(** ** The search *)

Definition inconclusive : exn := ValueError "history search bound exceeded (inconclusive)".
Definition ids (chosen : list nat) : list string := (fun i => o_id (at_ i)) <$> chosen.
Definition included (w : list choice) : list string := c_op <$> List.filter c_included w.

Lemma included_app a b : included (a ++ b) = included a ++ included b.
Proof. unfold included. rewrite List.filter_app. apply fmap_app. Qed.

(** Every visited key with at most [n] pending operations is refuted. *)
Definition refuted (n : nat) (v : list (key (K := K) (V := V))) : Prop :=
  forall k, k ∈ v -> (length (pending k.1) <= n)%nat -> forall chosen, ~ completes (pending k.1) k.2 chosen.
(** A search only visits keys of at most [n] pending operations. *)
Definition remembers (n : nat) (v v' : list (key (K := K) (V := V))) : Prop :=
  forall k, k ∈ v' -> k ∈ v \/ (length (pending k.1) <= n)%nat.

Lemma remembers_refl n v : remembers n v v.
Proof. intros k Hk. by left. Qed.
Lemma client_remembers_trans n a b c : remembers n a b -> remembers n b c -> remembers n a c.
Proof. intros H1 H2 k Hk. destruct (H2 k Hk) as [Hk2|]; [|by right]. by apply H1. Qed.

Context (max_states : Z) (Hknown : forall i, (i < length active)%nat -> is_Some (o_documents (at_ i))).

(** The three answers to a search: an order, a refutation, or the bound was met *)
Definition found (mask : Z) (st : state) (path : list choice) (r : result (option (list choice))) : Prop :=
  exists w chosen, r = Ok (Some w) /\ completes (pending mask) st chosen /\ included w = included path ++ ids chosen.
Definition gave_up (r : result (option (list choice))) (v' : list (key (K := K) (V := V))) : Prop :=
  r = Err inconclusive /\ max_states <= Z.of_nat (length v').

Definition exact_at (f : Z -> state -> list choice -> F) (mask : Z) : Prop :=
  forall st path v r v', refuted (length (pending mask)) v -> f mask st path v = (r, v') ->
  found mask st path r \/
  (r = Ok None /\ (forall chosen, ~ completes (pending mask) st chosen) /\ refuted (length (pending mask)) v' /\
   remembers (length (pending mask)) v v') \/
  gave_up r v'.

Lemma effect_known i st : (i < length active)%nat -> exists o, effect (at_ i) st = Ok o.
Proof. intros Hi. destruct (Hknown i Hi) as [docs Hd]. unfold effect. rewrite Hd. by eexists. Qed.

Lemma client_turns_exact f n turns mask st path v r v' :
  within mask -> length (pending mask) = S n -> turns ⊆ seq 0 (length active) ->
  (forall i, i ∈ pending mask -> exact_at f (Z.lor mask (Z.shiftl 1 (Z.of_nat i)))) ->
  refuted n v -> try_each active f turns mask st path v = (r, v') ->
  found mask st path r \/
  (r = Ok None /\ refuted n v' /\ remembers n v v' /\
   forall chosen, completes (pending mask) st chosen -> match chosen with [] => forall i, i ∈ turns -> i ∉ pending mask | i :: _ => i ∉ turns end) \/
  gave_up r v'.
Proof.
  intros Hw Hlen Hsub Hv. revert v. induction turns as [|i turns IH]; intros v Href H.
  { right; left. injection H as <- <-. split_and!; [done|done|apply remembers_refl|]. intros [|? ?] _; [intros i Hi; by apply not_elem_of_nil in Hi|apply not_elem_of_nil]. }
  assert (i ∈ seq 0 (length active)) as Hi by (apply Hsub; by left). apply elem_of_seq in Hi. destruct Hi as [_ Hi]. cbn in Hi.
  assert (turns ⊆ seq 0 (length active)) as Hsub' by (intros j Hj; apply Hsub; by right). cbn [try_each] in H.
  (* the turns after [i], once [i] is no first step *)
  assert (Hrest : forall v1, refuted n v1 -> remembers n v v1 -> try_each active f turns mask st path v1 = (r, v') ->
    (forall chosen, ~ completes (pending mask) st (i :: chosen)) -> (i ∈ pending mask -> ~ completes (pending mask) st []) ->
    found mask st path r \/ (r = Ok None /\ refuted n v' /\ remembers n v v' /\
      forall chosen, completes (pending mask) st chosen -> match chosen with [] => forall j, j ∈ i :: turns -> j ∉ pending mask | j :: _ => j ∉ i :: turns end) \/
    gave_up r v').
  { intros v1 Hr1 Hm1 H1 Hhead Hnil. destruct (IH Hsub' v1 Hr1 H1) as [|[(-> & Hr & Hm & Hc)|]]; [by left| |by right; right]. right; left.
    split_and!; [done|done|by eapply client_remembers_trans|]. intros [|j chosen] Hj.
    - intros k Hk Hkp. apply elem_of_cons in Hk as [->|Hk]; [by apply Hnil|]. by apply (Hc _ Hj k).
    - apply not_elem_of_cons. split; [|by apply (Hc _ Hj)]. intros ->. by eapply Hhead. }
  destruct (negb (Z.land mask (Z.shiftl 1 (Z.of_nat i)) =? 0)) eqn:Hbit.
  { cbn [orb] in H. assert (i ∉ pending mask) as Hnp.
    { intros [_ Hb]%elem_pending. apply bit_clear in Hb. rewrite Hb in Hbit. done. }
    eapply Hrest; [done|apply remembers_refl|exact H| |done]. intros chosen [Hin _]%client_completes_uncons. done. }
  apply negb_false_iff, Z.eqb_eq, bit_clear in Hbit. assert (i ∈ pending mask) as Hip by (by apply elem_pending).
  destruct (negb (Z.land (predecessors active i) (Z.lnot mask) =? 0)) eqn:Hready; cbn [orb] in H.
  { assert (~ forall j, j ∈ pending mask -> precedes active j i = false) as Hnr.
    { intros Hr. apply (ready mask i Hi) in Hr. rewrite Hr in Hready. done. }
    eapply Hrest; [done|apply remembers_refl|exact H|intros chosen (_ & Hr & _)%client_completes_uncons; done|].
    intros _ Hc. apply Hnr. by apply (completes_none _ _ Hc i Hip). }
  apply negb_false_iff, Z.eqb_eq in Hready. rewrite (ready mask i Hi) in Hready.
  destruct (pending_set mask i Hi Hw) as [Hw' Hpend]. cbv zeta in *.
  pose proof (Hv i Hip) as Hvi. remember (Z.lor mask (Z.shiftl 1 (Z.of_nat i))) as mask' eqn:Emask.
  assert (length (pending mask') = n) as Hn by (pose proof (length_without i _ (pending_nodup mask) Hip); rewrite Hpend; lia).
  (* the branch that leaves [i] out *)
  apply bind_inv in H as (r1 & v1 & Ho & H).
  assert (found mask st path r1 /\ r1 = r /\ v1 = v' \/
          (r1 = Ok None /\ refuted n v1 /\ remembers n v v1 /\ ~ completes (pending mask) st []) \/ gave_up r1 v1 /\ r1 = r /\ v1 = v') as Hom.
  { destruct (success (at_ i)) eqn:Hs.
    - right; left. injection Ho as <- <-. split_and!; [done|done|apply remembers_refl|]. intros Hc. destruct (completes_none _ _ Hc i Hip). congruence.
    - assert (Href' : refuted (length (pending mask')) v) by (by rewrite Hn).
      destruct (Hvi _ _ _ _ _ Href' Ho) as [(w & chosen & -> & Hc & Hinc)|[(-> & Hno & Hr & Hm)|Hg]].
      + left. split; [|injection H as <- <-; done]. exists w, chosen. split; [done|]. split.
        * rewrite Hpend in Hc. by eapply client_completes_omit.
        * by rewrite Hinc, included_app, app_nil_r.
      + right; left. rewrite Hn in *. split_and!; [done|done|done|]. intros Hc. apply (Hno []). rewrite Hpend. apply client_completes_skip; [apply not_elem_of_nil|done].
      + right; right. destruct Hg as [-> Hg]. injection H as <- <-. done. }
  destruct Hom as [(Hf & -> & ->)|[(-> & Hr1 & Hm1 & Hnil1)|(Hg & -> & ->)]]; [by left| |by right; right].
  apply bind_inv in H as (r2 & v2 & Hst & H). destruct (effect_known i st Hi) as [o Heff]. rewrite Heff in Hst. injection Hst as <- <-.
  destruct o as [st'|].
  2:{ eapply Hrest; [exact Hr1|exact Hm1|exact H| |done]. intros chosen (_ & _ & st2 & Hst2 & _)%client_completes_uncons. congruence. }
  apply bind_inv in H as (r3 & v3 & Ho3 & H).
  assert (Href' : refuted (length (pending mask')) v1) by (by rewrite Hn).
  destruct (Hvi _ _ _ _ _ Href' Ho3) as [(w & chosen & -> & Hc & Hinc)|[(-> & Hno & Hr3 & Hm3)|Hg]].
  - left. injection H as <- <-. exists w, (i :: chosen). split; [done|]. split.
    + eapply client_completes_cons; [done|done|done|by rewrite <- Hpend].
    + rewrite Hinc, included_app. unfold included at 2. cbn [List.filter c_included fmap list_fmap c_op]. by rewrite <- app_assoc.
  - rewrite Hn in *. eapply Hrest; [exact Hr3|by eapply client_remembers_trans|exact H| |done].
    intros chosen (_ & _ & st2 & Hst2 & Hc)%client_completes_uncons. rewrite Heff in Hst2. injection Hst2 as <-.
    apply (Hno chosen). by rewrite Hpend.
  - right; right. destruct Hg as [-> Hg]. injection H as <- <-. done.
Qed.

Lemma search_exact fuel mask :
  within mask -> (length (pending mask) <= fuel)%nat -> exact_at (search active max_states fuel) mask.
Proof.
  revert mask. induction fuel as [|fuel IH]; intros mask Hw Hf st path v r v' Href H; cbn [search] in H.
  all: destruct (mask =? done_mask active) eqn:Ed;
    [apply done_pending in Ed; [|done]; left; injection H as <- <-; exists path, []; rewrite Ed; split_and!; [done|apply client_completes_nil|by rewrite app_nil_r]|].
  all: assert (pending mask <> []) as Hne by (intros He; apply done_pending in He; [congruence|done]).
  { destruct (pending mask); [done|cbn in Hf; lia]. }
  apply bind_inv in H as (rv & v0 & Hg & H). injection Hg as <- <-.
  revert H. case_bool_decide as Hm; intros H.
  { injection H as <- <-. right; left. split_and!; [done|apply (Href _ Hm); cbn; lia|done|apply remembers_refl]. }
  apply bind_inv in H as (rn & v1 & Hn & H). unfold needs, need in Hn.
  injection Hn as <- <-. match type of H with context [guard ?b _] => destruct b eqn:Hb end; cbn [guard] in H.
  2:{ right; right. injection H as <- <-. split; [done|by apply Z.ltb_ge in Hb]. }
  apply bind_inv in H as (ru & v2 & Hu & H). injection Hu as <- <-.
  destruct (length (pending mask)) as [|n] eqn:Hlen; [by destruct (pending mask)|].
  assert (refuted n ((mask, st) :: v)) as Hr0.
  { intros k Hk Hkn. apply elem_of_cons in Hk as [->|Hk]; [cbn in Hkn; lia|]. apply Href; [done|lia]. }
  eapply client_turns_exact in H; [|done|exact Hlen|done| |exact Hr0].
  2:{ intros i Hi. pose proof Hi as Hi'. apply elem_pending in Hi' as [Hlt _]. destruct (pending_set mask i Hlt Hw) as [Hw' Hp].
      apply IH; [done|]. rewrite Hp. pose proof (length_without i _ (pending_nodup mask) Hi). lia. }
  destruct H as [|[(-> & Hr & Hrm & Hc)|]]; [by left| |by right; right]. right; left. split; [done|].
  assert (forall chosen, ~ completes (pending mask) st chosen) as Hno.
  { intros [|i chosen] Hi; pose proof (Hc _ Hi) as Hb'; cbn in Hb'.
    - destruct (pending mask) as [|i l] eqn:Hp; [done|]. assert (i ∈ pending mask) as Hin by (rewrite Hp; by left).
      apply (Hb' i); [|by left]. apply elem_pending in Hin as [Hlt _]. apply elem_of_seq. lia.
    - apply Hb'. apply client_completes_uncons in Hi as [Hi _]. apply elem_pending in Hi as [Hlt _]. apply elem_of_seq. lia. }
  split_and!; [done| |].
  - intros k Hk Hkn. destruct (decide (length (pending k.1) <= n)%nat) as [Hle|Hgt]; [by apply Hr|].
    destruct (Hrm k Hk) as [Hk'|]; [|lia]. apply elem_of_cons in Hk' as [->|Hk']; [done|]. by apply Href.
  - intros k Hk. destruct (Hrm k Hk) as [Hk'|]; [|right; lia]. apply elem_of_cons in Hk' as [->|Hk']; [right; cbn; lia|by left].
Qed.
End Spec.

(** ** [check] *)

Section Check.
Context {K V : Type} `{EqDecision K, EqDecision V}.
Implicit Types (history active : list (op K V)).

Lemma check_op_known (x : op K V) : check_op x = Ok tt -> is_active x = true -> is_Some (o_documents x).
Proof.
  unfold check_op, is_active, need. intros H Ha. do 5 (apply rbind_ok in H as (? & _ & H)). destruct (is_write x).
  - apply rbind_ok in H as (docs & Hd & _). apply of_option_ok in Hd. by eexists.
  - apply rbind_ok in H as (? & _ & H). cbn [andb] in Ha. rewrite orb_false_r in Ha. rewrite Ha in H. apply guard_ok in H.
    by apply bool_decide_eq_true in H.
Qed.

Lemma check_ops_active seen history active :
  check_ops seen history = Ok active -> active = List.filter is_active history /\ Forall (fun x => is_Some (o_documents x)) active.
Proof.
  revert seen active. induction history as [|x history IH]; intros seen active H; cbn [check_ops] in H; [injection H as <-; by split|].
  apply rbind_ok in H as (? & _ & H). apply rbind_ok in H as ([] & Hx & H). apply rbind_ok in H as (rest & Hr & [= <-]).
  apply IH in Hr as [-> Hf]. cbn [List.filter]. destruct (is_active x) eqn:Ha; [|done]. split; [done|]. constructor; [by apply check_op_known|done].
Qed.

(** The part of [check] that validates its input *)
Definition valid history (max_operations : Z) (initial : list (K * V)) : Prop :=
  0 < Z.of_nat (length history) <= max_operations /\ NoDup initial.*1 /\ is_ok (check_ops [] history) = true.

Lemma check_search history max_operations max_states initial :
  let active := List.filter is_active history in
  (valid history max_operations initial ->
   (forall i, (i < length active)%nat -> is_Some (o_documents (at_ active i))) /\
   exists r v, search active max_states (length active) 0 initial [] [] = (r, v) /\
     check history max_operations max_states initial =
       match r with
       | Ok (Some w) => Ok (Report (length history) (length active) (length v) w)
       | Ok None => Err (ValueError "history is not linearizable within declared model")
       | Err e => Err e
       end) /\
  (is_ok (check history max_operations max_states initial) = true -> valid history max_operations initial).
Proof.
  intros active. unfold check, valid, need. split.
  - intros ([Hl1 Hl2] & Hn & Hc). rewrite (proj2 (Z.ltb_lt _ _)), (proj2 (Z.leb_le _ _)) by done. cbn [andb guard rbind].
    rewrite bool_decide_eq_true_2 by done. cbn [guard rbind]. destruct (check_ops [] history) as [a|] eqn:E; [|done]. cbn [rbind].
    apply check_ops_active in E as [-> Hf]. fold active in Hf |- *. split.
    + intros i Hi. rewrite Forall_forall in Hf. apply Hf. unfold at_. apply list_elem_of_In, nth_In. done.
    + destruct (search _ _ _ _ _ _ _) as [r v]. exists r, v. split; [done|]. by destruct r as [[w|]|e].
  - intros H. destruct (guard _ _) as [[]|] eqn:E1 in H; [|done]. apply guard_ok, andb_true_iff in E1 as [H1 H2]. cbn [rbind] in H.
    destruct (guard _ _) as [[]|] eqn:E2 in H; [|done]. apply guard_ok, bool_decide_eq_true in E2. cbn [rbind] in H.
    destruct (check_ops [] history); [|done]. split_and!; [lia|lia|done|done].
Qed.

Lemma search_bounded active max_states fuel mask st path v r v' :
  0 <= max_states -> Z.of_nat (length v) <= max_states -> search active max_states fuel mask st path v = (r, v') ->
  Z.of_nat (length v') <= max_states.
Proof.
  intros Hm. revert mask st path v r v'. induction fuel as [|fuel IH]; intros mask st path v r v' Hv H; cbn [search] in H.
  all: destruct (mask =? done_mask active); [by injection H as _ <-|].
  all: apply bind_inv in H as (rv & v0 & Hg & H); injection Hg as <- <-.
  all: revert H; case_bool_decide as Hseen; intros H; [by injection H as _ <-|].
  all: apply bind_inv in H as (rn & v1 & Hn & H); unfold needs, need in Hn; injection Hn as <- <-.
  all: match type of H with context [guard ?b _] => destruct b eqn:Hb end; cbn [guard] in H; [|by injection H as _ <-].
  all: apply Z.ltb_lt in Hb; apply bind_inv in H as (ru & v2 & Hu & H); injection Hu as <- <-.
  { injection H as _ <-. cbn [length]. unfold key in *. lia. }
  assert (Z.of_nat (length ((mask, st) :: v)) <= max_states) as Hv2 by (cbn [length]; unfold key in *; lia).
  revert H Hv2. generalize ((mask, st) :: v), (seq 0 (length active)). clear v Hv Hb Hseen. intros v turns. revert v.
  induction turns as [|i turns IHt]; intros v H Hv; cbn [try_each] in H; [by injection H as _ <-|].
  destruct (_ || _); [by eapply IHt|]. apply bind_inv in H as (r1 & v1 & Ho & H).
  assert (Z.of_nat (length v1) <= max_states) as Hv1 by (destruct (success (at_ active i)); [by injection Ho as _ <-|by eapply IH]).
  destruct r1 as [[w|]|e]; [by injection H as _ <-| |by injection H as _ <-].
  apply bind_inv in H as (r2 & v2 & Ho2 & H). injection Ho2 as <- <-. destruct (effect (at_ active i) st) as [[st'|]|e]; [|by eapply IHt|by injection H as _ <-].
  apply bind_inv in H as (r3 & v3 & Ho3 & H). apply IH in Ho3; [|done].
  destruct r3 as [[w|]|e]; [by injection H as _ <-|by eapply IHt|by injection H as _ <-].
Qed.

(** C32: the client-history search is exact within its bound.  It passes only valid histories; on a valid one it
    answers one of three things: it passes, having visited no more than its bound of states, and the operations
    its witness includes are, in order, a linearization; or it fails and there is none; or it raises the
    inconclusive error.  A linearization takes every successful operation and any of the writes whose outcome
    is uncertain, respects real time, adds disjoint bulks and answers every read with the whole ordered state. *)
Theorem public_history_exact history max_operations max_states (initial : list (K * V)) :
  let active := List.filter is_active history in
  let result := check history max_operations max_states initial in
  0 <= max_states ->
  (is_ok result = true -> valid history max_operations initial) /\
  (valid history max_operations initial ->
   (exists r chosen, result = Ok r /\ completes active (seq 0 (length active)) initial chosen /\
      included (r_witness r) = ids active chosen /\ Z.of_nat (r_explored r) <= max_states) \/
   result = Err (ValueError "history is not linearizable within declared model") /\ ~ linearizable active initial \/
   result = Err inconclusive).
Proof.
  intros active result Hms. destruct (check_search history max_operations max_states initial) as [Hs Hok]. split; [exact Hok|].
  intros Hv. destruct (Hs Hv) as (Hknown & r & v & Hsearch & Hr). fold result active in Hr, Hsearch, Hknown.
  pose proof (search_bounded _ _ _ _ _ _ _ _ _ Hms (Hms : Z.of_nat (length []) <= max_states) Hsearch) as Hb.
  assert (within active 0) as Hw by (intros k _; apply Z.testbit_0_l).
  destruct (search_exact active max_states Hknown (length active) 0 Hw) with (st := initial) (path := @nil choice) (v := @nil (key (K := K) (V := V))) (r := r) (v' := v)
    as [(w & chosen & -> & Hc & Hi)|[(-> & Hno & _)|[-> _]]].
  - rewrite pending_zero, length_seq. done.
  - intros k Hk. by apply not_elem_of_nil in Hk.
  - exact Hsearch.
  - left. eexists _, chosen. split; [exact Hr|]. rewrite pending_zero in Hc. cbn [r_witness r_explored]. split_and!; [done|done|exact Hb].
  - right; left. split; [exact Hr|]. intros [chosen Hc]. apply (Hno chosen). by rewrite pending_zero.
  - right; right. exact Hr.
Qed.
End Check.

(** A bulk of uncertain outcome that a read observed before a confirmed one, and one that nobody observed *)
Definition sample_history : list (op Z string) := [
  Op "w1" 0 (Some 9) "SUCCESS" "addAll" (Some [(1, "a"); (2, "b")]%string);
  Op "w2" 1 (Some 4) "INDETERMINATE" "addAll" (Some [(3, "c")]%string);
  Op "w3" 2 None "PENDING" "addAll" (Some [(4, "d")]%string);
  Op "r1" 5 (Some 6) "SUCCESS" "read" (Some [(0, "x"); (3, "c")]%string);
  Op "r2" 10 (Some 12) "SUCCESS" "read" (Some [(0, "x"); (3, "c"); (1, "a"); (2, "b")]%string);
  Op "r3" 11 (Some 12) "VALIDATION_FAILURE" "read" None ].
Definition sample_initial : list (Z * string) := [(0, "x"%string)].

Lemma public_history_exact_witness :
  exists r chosen, check sample_history 24 100000 sample_initial = Ok r /\
    completes (List.filter is_active sample_history) (seq 0 5) sample_initial chosen /\ included (r_witness r) = ["w2"; "r1"; "w1"; "r2"]%string.
Proof.
  destruct (public_history_exact sample_history 24 100000 sample_initial) as [_ H]; [lia|].
  assert (match check sample_history 24 100000 sample_initial with
          | Ok r => included (r_witness r) = ["w2"; "r1"; "w1"; "r2"]%string | Err _ => False end) as Hc by (vm_compute; reflexivity).
  destruct H as [(r & chosen & Hr & Hd & _)|[[Hr _]|Hr]].
  - split; [split; [reflexivity|vm_compute; discriminate]|]. split; [apply NoDup_singleton|reflexivity].
  - exists r, chosen. rewrite Hr in Hc. split_and!; [exact Hr|exact Hd|exact Hc].
  - rewrite Hr in Hc. contradiction.
  - rewrite Hr in Hc. contradiction.
Defined.

(** A read that misses a confirmed bulk is refused; with too small a bound the search does not answer. *)
Example stale_read_refused :
  check [Op "w1" 0 (Some 1) "SUCCESS" "addAll" (Some [(1, "a"%string)]); Op "r1" 2 (Some 3) "SUCCESS" "read" (Some [])] 24 100000 []
  = Err (ValueError "history is not linearizable within declared model").
Proof. vm_compute. reflexivity. Qed.
Example small_bound : check sample_history 24 3 sample_initial = Err inconclusive.
Proof. vm_compute. reflexivity. Qed.
