(* ===== verification/WindowSchedule.v ===== *)
(** * Fixed arrivals on lanes ([scripts/v51/remote_schedule.py])

    [WindowState], the state machine that accounts for a window of scheduled calls: the scheduler offers each
    call to its lane, an executor invokes and completes it, and [finish] closes the window.  Every method runs
    under one lock, so the calls of all threads form a sequence; the theorems are about any such sequence, with
    any times.  [emit], the observer, is a log.  Threads, clocks and sleeping ([_execute]) are not modelled. *)

From stdpp Require Import base gmap sets strings list.
From S2P Require Import Prelude.
Import StateNotations ResultNotations.
Local Open Scope py_scope.
Local Open Scope Z_scope.

Record call := Call { c_ordinal : Z; c_lane : Z; c_due_millis : Z }.
#[export] Instance call_eq_dec : EqDecision call.
Proof. solve_decision. Defined.
Record spec := Spec {
  lanes : Z; lateness_nanos : Z; burst_spread_nanos : Z; drain_nanos : Z; duration_nanos : Z; calls : list call
}.

Inductive row_state := RESERVED | NOT_DISPATCHED (reason : string) | DISPATCHED | UNFINISHED | LATE_RESULT | COMPLETED.
#[export] Instance row_state_eq_dec : EqDecision row_state.
Proof. solve_decision. Defined.

(** What a callback hands back: a dictionary, with its ['outcome'], or anything else *)
Inductive outcome := NotDict | Dict (outcome : option string).
#[export] Instance outcome_eq_dec : EqDecision outcome.
Proof. solve_decision. Defined.
Definition succeeded (r : outcome) : bool := match r with Dict (Some s) => bool_decide (s = "SUCCESS"%string) | _ => false end.

Record row := Row {
  r_ordinal : Z; r_lane : Z; r_due : Z; r_offered : Z; r_state : row_state;
  (* [None] while the row has no such key *)
  r_invoked : option Z; r_ended : option Z; r_result : option outcome
}.
#[export] Instance row_eq_dec : EqDecision row.
Proof. solve_decision. Defined.

Definition set_state (s : row_state) (r : row) : row :=
  Row (r_ordinal r) (r_lane r) (r_due r) (r_offered r) s (r_invoked r) (r_ended r) (r_result r).
Definition set_invoked (t : Z) (r : row) : row :=
  Row (r_ordinal r) (r_lane r) (r_due r) (r_offered r) (r_state r) (Some t) (r_ended r) (r_result r).
Definition set_ended (t : Z) (r : row) : row :=
  Row (r_ordinal r) (r_lane r) (r_due r) (r_offered r) (r_state r) (r_invoked r) (Some t) (r_result r).
Definition set_result (x : outcome) (r : row) : row :=
  Row (r_ordinal r) (r_lane r) (r_due r) (r_offered r) (r_state r) (r_invoked r) (r_ended r) (Some x).

(** [rows] is a dictionary in insertion order; [emitted] holds the rows given to [emit], newest first. *)
Record window := Window { start : Z; busy : gmap Z Z; rows : list (Z * row); failed : bool; emitted : list row }.
Definition window0 (start : Z) : window := Window start ∅ [] false [].

Section Window.
Context (sp : spec).
Definition M := ST window.

Definition need (b : bool) (msg : string) : M unit := liftr (guard b (ValueError msg)).
Definition fail (w : window) : window := Window (start w) (busy w) (rows w) true (emitted w).
Definition reserve (lane ordinal : Z) (w : window) : window := Window (start w) (<[lane := ordinal]> (busy w)) (rows w) (failed w) (emitted w).
Definition release (lane : Z) (w : window) : window := Window (start w) (delete lane (busy w)) (rows w) (failed w) (emitted w).
Definition put_row (r : row) (w : window) : window := Window (start w) (busy w) (assoc_set (r_ordinal r) r (rows w)) (failed w) (emitted w).
Definition emit (r : row) (w : window) : window := Window (start w) (busy w) (rows w) (failed w) (r :: emitted w).
Definition fail_if (b : bool) : M unit := if b then modify fail else ret tt.

Definition due_of (w : window) (c : call) : Z := start w + c_due_millis c * 10 ^ 6.

Definition refusal (w : window) (c : call) (now : Z) (cancelled : bool) : option string :=
  if cancelled then Some "CANCELLED"%string
  else if failed w then Some "PRIOR_FAILURE"%string
  else if lateness_nanos sp <? now - due_of w c then Some "LATE"%string
  else if bool_decide (is_Some (busy w !! c_lane c)) then Some "LANE_BUSY"%string
  else None.

Definition offer (c : call) (now : Z) (cancelled : bool) : M bool :=
  let* w := get in
  do* need (negb (bool_decide (c_ordinal c ∈ (rows w).*1)) && (0 <=? c_lane c) && (c_lane c <? lanes sp)) "duplicate arrival/lane" in
  let due := due_of w c in
  do* need ((due <=? now) || cancelled || failed w) "early arrival" in
  let r := Row (c_ordinal c) (c_lane c) due now RESERVED None None None in
  match refusal w c now cancelled with
  | Some reason =>
      let r := set_state (NOT_DISPATCHED reason) r in
      do* modify fail in do* modify (put_row r) in do* modify (emit r) in ret false
  | None =>
      do* modify (reserve (c_lane c) (c_ordinal c)) in do* modify (put_row r) in do* modify (emit r) in ret true
  end.

(** [self.rows[ordinal]] *)
Definition get_row (ordinal : Z) : M row := let* w := get in liftr (of_option (assoc_get ordinal (rows w)) KeyError).

Definition invoke (ordinal now : Z) : M bool :=
  let* r := get_row ordinal in
  do* need (bool_decide (r_state r = RESERVED)) "unreserved invocation" in
  if lateness_nanos sp <? now - r_due r then
    let r := set_ended now (set_state (NOT_DISPATCHED "EXECUTOR_LATE") r) in
    do* modify (put_row r) in
    let* w := get in
    do* liftr (guard (bool_decide (is_Some (busy w !! r_lane r))) KeyError) in
    do* modify (release (r_lane r)) in do* modify fail in do* modify (emit r) in ret false
  else
    let r := set_invoked now (set_state DISPATCHED r) in
    do* modify (put_row r) in do* modify (emit r) in ret true.

Definition complete (ordinal now : Z) (result : outcome) : M unit :=
  let* r := get_row ordinal in
  do* need (bool_decide (r_state r = DISPATCHED) || bool_decide (r_state r = UNFINISHED)) "completion without dispatch" in
  let* invoked := liftr (of_option (r_invoked r) KeyError) in
  do* need (invoked <=? now) "guest completion clock" in
  let late := bool_decide (r_state r = UNFINISHED) in
  let r := set_result result (set_ended now (set_state (if late then LATE_RESULT else COMPLETED) r)) in
  do* modify (put_row r) in
  do* modify (release (r_lane r)) in
  do* fail_if (late || negb (succeeded result)) in
  modify (emit r).

(** The rows still open become unfinished. *)
Definition is_open (r : row) : bool := bool_decide (r_state r = RESERVED) || bool_decide (r_state r = DISPATCHED).
Definition close_row (r : row) : row := if is_open r then set_state UNFINISHED r else r.
Definition close_rows (w : window) : window :=
  let closed := List.filter is_open (rows w).*2 in
  Window (start w) (busy w) ((fun x : Z * row => (x.1, close_row x.2)) <$> rows w) (failed w || negb (bool_decide (closed = [])))
    (rev (close_row <$> closed) ++ emitted w).

(** [bursts[due]], for the due times of invoked rows *)
Definition burst (due : Z) (l : list row) : list Z := omap r_invoked (List.filter (fun r => r_due r =? due) l).
Definition max_of (l : list Z) : Z := match l with [] => 0 | x :: l' => fold_right Z.max x l' end.
Definition min_of (l : list Z) : Z := match l with [] => 0 | x :: l' => fold_right Z.min x l' end.
Definition uneven (l : list row) : bool :=
  existsb (fun r => bool_decide (is_Some (r_invoked r)) &&
    let v := burst (r_due r) l in negb (Z.of_nat (length v) =? lanes sp) || (burst_spread_nanos sp <? max_of v - min_of v)) l.

Record report := Report { passed : bool; started : Z; ended : Z; scheduled_end : Z; report_calls : list row }.

Definition finish (now : Z) : M report :=
  let* w := get in
  do* need (bool_decide ((list_to_set (rows w).*1 : gset Z) = list_to_set (c_ordinal <$> calls sp))) "missing scheduled arrivals" in
  do* modify close_rows in
  let finish_line := start w + duration_nanos sp in
  do* fail_if ((now <? finish_line) || (finish_line + drain_nanos sp <? now)) in
  let* w := get in
  do* (if 1 <? lanes sp then fail_if (uneven (rows w).*2) else ret tt) in
  let* w := get in
  ret (Report (negb (failed w)) (start w) now finish_line (rows w).*2).

(** ** Any use of the object *)

Inductive step := Offer (c : call) (now : Z) (cancelled : bool) | Invoke (ordinal now : Z) | Complete (ordinal now : Z) (result : outcome) | Finish (now : Z).
Definition perform (x : step) : M unit :=
  match x with
  | Offer c now cancelled => let* _ := offer c now cancelled in ret tt
  | Invoke ordinal now => let* _ := invoke ordinal now in ret tt
  | Complete ordinal now result => complete ordinal now result
  | Finish now => let* _ := finish now in ret tt
  end.
(** The object after a call, whether the call returned or raised *)
Definition after (w : window) (x : step) : window := (perform x w).2.
Definition run (steps : list step) (w : window) : window := fold_left after steps w.
(** The scheduler offers the calls of the window. *)
Definition scheduled (x : step) : Prop := match x with Offer c _ _ => c ∈ calls sp | _ => True end.
End Window.

(** ** A sample: two lanes, one burst *)

Definition sample_spec : spec := Spec 2 250 10 1000 5000000 [Call 1 0 1; Call 2 1 1; Call 3 0 2; Call 4 1 2].
Definition sample_steps : list step :=
  let ok := Dict (Some "SUCCESS"%string) in
  [Offer (Call 1 0 1) 1000100 false; Offer (Call 2 1 1) 1000101 false; Invoke 2 1000105 ; Invoke 1 1000107; Complete 2 1500000 ok;
   Complete 1 1600000 ok; Offer (Call 3 0 2) 2000000 false; Offer (Call 4 1 2) 2000200 false; Invoke 3 2000201; Invoke 4 2000203;
   Complete 4 2000300 ok; Complete 3 2000400 ok].
Definition passes (m : result report) : bool := match m with Ok r => passed r | Err _ => false end.

Example sample_passes : passes (finish sample_spec 5000500 (run sample_spec sample_steps (window0 0))).1 = true.
Proof. vm_compute. reflexivity. Qed.
(** A lane still busy at the next arrival, or a completion after the window was closed, fails it for good. *)
Example busy_lane_fails :
  passes (finish sample_spec 5000500 (run sample_spec (take 5 sample_steps ++ drop 6 sample_steps) (window0 0))).1 = false.
Proof. vm_compute. reflexivity. Qed.
Example late_result_fails :
  let steps := take 11 sample_steps ++ [Finish 5000500; Complete 3 5000600 (Dict (Some "SUCCESS"%string))] in
  passes (finish sample_spec 5000700 (run sample_spec steps (window0 0))).1 = false.
Proof. vm_compute. reflexivity. Qed.

(** ** The invariant *)

(** A call whose lane is taken *)
Definition live (r : row) : bool := is_open r || bool_decide (r_state r = UNFINISHED).

Section Sound.
Context (sp : spec).

Definition matches (c : call) (w : window) (r : row) : Prop :=
  c ∈ calls sp /\ c_ordinal c = r_ordinal r /\ c_lane c = r_lane r /\ due_of w c = r_due r.

(** A row of a window that has not failed *)
Record timely (r : row) : Prop := {
  tm_state : r_state r = RESERVED \/ r_state r = DISPATCHED \/ r_state r = COMPLETED;
  tm_offered : r_due r <= r_offered r <= r_due r + lateness_nanos sp;
  tm_invoked : r_state r <> RESERVED -> exists t, r_invoked r = Some t /\ t <= r_due r + lateness_nanos sp;
  tm_completed : r_state r = COMPLETED -> exists t e x, r_invoked r = Some t /\ r_ended r = Some e /\ t <= e
                   /\ r_result r = Some x /\ succeeded x = true
}.

Record Inv (w : window) : Prop := {
  i_keys : NoDup (rows w).*1;
  i_rows : forall o r, (o, r) ∈ rows w -> r_ordinal r = o /\ exists c, matches c w r;
  i_timely : failed w = false -> forall o r, (o, r) ∈ rows w -> timely r;
  i_busy : forall lane o, busy w !! lane = Some o <-> exists r, (o, r) ∈ rows w /\ r_lane r = lane /\ live r = true
}.

Lemma inv_window0 t : Inv (window0 t).
Proof.
  split; cbn [rows busy window0]; [constructor|set_solver|set_solver|]. intros lane o. split; [done|]. intros (r & Hr & _). set_solver.
Qed.

(** The rows after a row is put: it, and those of the other ordinals *)
Lemma put_elem (l : list (Z * row)) k v o r : NoDup l.*1 -> ((o, r) ∈ assoc_set k v l <-> (o = k /\ r = v) \/ (o <> k /\ (o, r) ∈ l)).
Proof.
  intros Hd. split.
  - intros Hin. destruct (decide (o = k)) as [->|Hne].
    + left. split; [done|]. pose proof (assoc_get_NoDup _ _ _ (assoc_set_NoDup k v l Hd) Hin) as Hg. rewrite assoc_get_set_eq in Hg. by injection Hg.
    + right. split; [done|]. pose proof (assoc_get_NoDup _ _ _ (assoc_set_NoDup k v l Hd) Hin) as Hg. rewrite assoc_get_set_ne in Hg by done.
      by apply assoc_get_elem.
  - intros [[-> ->]|[Hne Hin]]; apply assoc_get_elem; [apply assoc_get_set_eq|]. rewrite assoc_get_set_ne by done. by apply assoc_get_NoDup.
Qed.

Lemma elem_unique w o r r' : Inv w -> (o, r) ∈ rows w -> (o, r') ∈ rows w -> r = r'.
Proof. intros Hi H1 H2. pose proof (assoc_get_NoDup _ _ _ (i_keys _ Hi) H1). pose proof (assoc_get_NoDup _ _ _ (i_keys _ Hi) H2). congruence. Qed.

Lemma lane_unique w o o' r r' : Inv w -> (o, r) ∈ rows w -> (o', r') ∈ rows w -> live r = true -> live r' = true -> r_lane r = r_lane r' -> o = o'.
Proof.
  intros Hi H1 H2 L1 L2 He. assert (busy w !! r_lane r = Some o) as B1 by (apply i_busy; [done|by exists r]).
  assert (busy w !! r_lane r' = Some o') as B2 by (apply i_busy; [done|by exists r']). rewrite He in B1. congruence.
Qed.

(** Putting a row, with what happens to its lane and to the verdict *)
Lemma inv_put w r b f e : Inv w -> (exists c, matches c w r) ->
  (f = false -> failed w = false /\ timely r) ->
  (forall lane o, b !! lane = Some o <-> (o = r_ordinal r /\ lane = r_lane r /\ live r = true) \/ (o <> r_ordinal r /\ busy w !! lane = Some o)) ->
  Inv (Window (start w) b (assoc_set (r_ordinal r) r (rows w)) f e).
Proof.
  intros Hi Hm Hf Hb. split; cbn [rows busy failed].
  - by apply assoc_set_NoDup, Hi.
  - intros o x Hx. apply put_elem in Hx as [[-> ->]|[_ Hx]]; [|by apply (i_rows _ Hi)|apply Hi]. split; [done|exact Hm].
  - intros Hff o x Hx. destruct (Hf Hff) as [Hw Ht]. apply put_elem in Hx as [[-> ->]|[_ Hx]]; [done|by eapply (i_timely _ Hi)|apply Hi].
  - intros lane o. rewrite Hb, (i_busy _ Hi). split.
    + intros [(-> & -> & Hl)|(Hne & x & Hx & Hlane & Hl)]; [exists r|exists x]; (split; [|done]); apply put_elem; [apply Hi|by left|apply Hi|by right].
    + intros (x & Hx & Hlane & Hl). apply put_elem in Hx as [[-> ->]|[Hne Hx]]; [by left|right|apply Hi]. split; [done|by exists x].
Qed.

Lemma inv_fail w : Inv w -> Inv (fail w).
Proof. intros Hi. split; cbn [rows busy failed fail]; try apply Hi. done. Qed.
Lemma inv_emit r w : Inv w -> Inv (emit r w).
Proof. intros Hi. split; cbn [rows busy failed emit]; apply Hi. Qed.

Lemma busy_key w lane o : Inv w -> busy w !! lane = Some o -> o ∈ (rows w).*1.
Proof. intros Hi Hb. apply i_busy in Hb as (r & Hr & _); [|done]. by apply (list_elem_of_fmap_2 fst) in Hr. Qed.

Lemma need_inv b msg w u w' : need b msg w = (Ok u, w') -> b = true /\ w' = w.
Proof. unfold need. intros H. ok_inv H. done. Qed.
Lemma need_err b msg w e w' : need b msg w = (Err e, w') -> w' = w.
Proof. unfold need, liftr. by intros [= _ <-]. Qed.

Lemma after_bind {A B} (m : M A) (k : A -> M B) (Q : window -> Prop) w :
  (forall e w', m w = (Err e, w') -> Q w') -> (forall a w', m w = (Ok a, w') -> Q (k a w').2) -> Q (bind m k w).2.
Proof. intros He Hk. unfold bind. destruct (m w) as [[a|e] w'] eqn:E; [by apply Hk|by apply (He e)]. Qed.

Lemma after_need {B} b msg (k : unit -> M B) (Q : window -> Prop) w : Q w -> (b = true -> Q (k tt w).2) -> Q (bind (need b msg) k w).2.
Proof.
  intros Hq Hk. apply after_bind; [intros e w' H; apply need_err in H as ->; done|].
  intros [] w' H. apply need_inv in H as [Hb ->]. by apply Hk.
Qed.

Lemma offer_inv c now cancelled w : c ∈ calls sp -> Inv w -> Inv (offer sp c now cancelled w).2.
Proof.
  intros Hc Hi. unfold offer, bind at 1, get. apply after_need; [done|]. intros Hn. apply after_need; [done|]. intros He. bool_tac.
  match goal with A : c_ordinal c ∉ _ |- _ => rename A into Hfresh end.
  set (r := Row (c_ordinal c) (c_lane c) (due_of w c) now RESERVED None None None).
  assert (exists c', matches c' w r) as Hm by (exists c; done).
  destruct (refusal sp w c now cancelled) as [reason|] eqn:Hr.
  - apply (inv_put w (set_state (NOT_DISPATCHED reason) r) (busy w) true); [done|exact Hm|done|]. intros lane o. cbn [r_ordinal set_state r]. split.
    + intros Hb. right. split; [|done]. intros ->. by apply Hfresh, (busy_key w lane).
    + intros [(_ & _ & Hl)|[_ Hb]]; [|done]. vm_compute in Hl. done.
  - unfold refusal in Hr. destruct cancelled; [done|]. destruct (failed w) eqn:Hf; [done|].
    destruct (lateness_nanos sp <? now - due_of w c) eqn:Hlate; [done|]. case_bool_decide as Hb; [done|]. bool_tac.
    rewrite !orb_false_r in He. bool_tac.
    apply (inv_put w r (<[c_lane c := c_ordinal c]> (busy w)) (failed w)); [done|exact Hm| |].
    + intros _. split; [done|]. split; cbn [r_state r_due r_offered r]; [by left|lia|done|done].
    + intros lane o. cbn [r_ordinal r_lane r]. rewrite lookup_insert_Some. split.
      * intros [[<- <-]|[Hne Hbo]]; [by left|right]. split; [|done]. intros ->. by apply Hfresh, (busy_key w lane).
      * intros [(-> & -> & _)|[Hne Hbo]]; [by left|right]. split; [|done]. intros <-. apply Hb. by exists o.
Qed.

Lemma get_row_inv o w r w' : get_row o w = (Ok r, w') -> (o, r) ∈ rows w /\ w' = w.
Proof. unfold get_row. intros H. ok_inv H. injection Hx as <- <-. subst. split; [by apply assoc_get_elem|done]. Qed.
Lemma get_row_err o w e w' : get_row o w = (Err e, w') -> w' = w.
Proof. unfold get_row, bind, get, liftr. by intros [= _ <-]. Qed.

(** A live row leaves its lane. *)
Lemma released w o r lane o' : Inv w -> (o, r) ∈ rows w -> live r = true ->
  delete (r_lane r) (busy w) !! lane = Some o' <-> o' <> o /\ busy w !! lane = Some o'.
Proof.
  intros Hi Hr Hl. assert (busy w !! r_lane r = Some o) as Hb by (apply i_busy; [done|by exists r]). rewrite lookup_delete_Some. split.
  - intros [Hne Hb']. split; [|done]. intros ->. apply i_busy in Hb' as (r' & Hr' & Hl' & _); [|done].
    rewrite (elem_unique w o r' r) in Hl' by done. done.
  - intros [Hne Hb']. split; [|done]. intros <-. congruence.
Qed.

Lemma row_matches w o r r' : Inv w -> (o, r) ∈ rows w -> r_ordinal r' = r_ordinal r -> r_lane r' = r_lane r -> r_due r' = r_due r -> exists c, matches c w r'.
Proof. intros Hi Hr H1 H2 H3. destruct (i_rows _ Hi _ _ Hr) as [_ [c Hc]]. exists c. unfold matches. by rewrite H1, H2, H3. Qed.

Lemma invoke_inv o now w : Inv w -> Inv (invoke sp o now w).2.
Proof.
  intros Hi. unfold invoke. apply after_bind; [intros e w' H; by apply get_row_err in H as ->|]. intros r w' H. apply get_row_inv in H as [Hr ->].
  apply after_need; [done|]. intros Hs. bool_tac. assert (live r = true) as Hl by (unfold live, is_open; by rewrite Hs).
  destruct (i_rows _ Hi _ _ Hr) as [Ho _]. destruct (lateness_nanos sp <? now - r_due r) eqn:Hlate.
  - unfold bind at 1, modify at 1. unfold bind at 1, get. cbn [put_row busy set_ended set_state r_lane].
    assert (busy w !! r_lane r = Some o) as Hb by (apply i_busy; [done|by exists r]).
    rewrite Hb, bool_decide_true by (by exists o). unfold bind, liftr, guard, modify, ret. cbn [snd]. apply inv_emit.
    apply (inv_put w (set_ended now (set_state (NOT_DISPATCHED "EXECUTOR_LATE") r)) (delete (r_lane r) (busy w)) true); [done|by eapply row_matches|done|].
    intros lane o'. cbn [r_ordinal set_state set_ended]. rewrite Ho, released by done. split; [by right|]. intros [(_ & _ & Hl')|?]; [|done]. vm_compute in Hl'. done.
  - bool_tac. apply inv_emit. apply (inv_put w (set_invoked now (set_state DISPATCHED r)) (busy w) (failed w)); [done|by eapply row_matches| |].
    + intros Hf. split; [done|]. destruct (i_timely _ Hi Hf _ _ Hr) as [T1 T2 T3 T4]. split; cbn; [auto|done| |done]. intros _. exists now. split; [done|lia].
    + intros lane o'. cbn [r_ordinal r_lane set_state set_invoked]. rewrite Ho. split.
      * intros Hb. destruct (decide (o' = o)) as [->|Hne]; [left|by right]. apply i_busy in Hb as (r' & Hr' & <- & _); [|done].
        by rewrite (elem_unique w o r' r).
      * intros [(-> & -> & _)|[_ Hb]]; [|done]. apply i_busy; [done|by exists r].
Qed.

Lemma complete_keeps o now x w : Inv w -> Inv (complete o now x w).2.
Proof.
  intros Hi. unfold complete. apply after_bind; [intros e w' H; by apply get_row_err in H as ->|]. intros r w' H. apply get_row_inv in H as [Hr ->].
  apply after_need; [done|]. intros Hs. apply orb_true_iff in Hs. rewrite !bool_decide_eq_true in Hs.
  assert (live r = true) as Hl by (unfold live, is_open; destruct Hs as [-> | ->]; done). destruct (i_rows _ Hi _ _ Hr) as [Ho _].
  apply after_bind; [intros e w' H; unfold liftr in H; by injection H as _ <-|]. intros t w' H. ok_inv H. subst w'.
  apply after_need; [done|]. intros Ht. bool_tac. set (late := bool_decide (r_state r = UNFINISHED)).
  assert (forall f e, (f = false -> failed w = false /\ late = false /\ succeeded x = true) ->
    Inv (Window (start w) (delete (r_lane r) (busy w)) (assoc_set (r_ordinal r) (set_result x (set_ended now (set_state (if late then LATE_RESULT else COMPLETED) r))) (rows w)) f e)) as Hput.
  { intros f e Hf. apply (inv_put w (set_result x (set_ended now (set_state (if late then LATE_RESULT else COMPLETED) r)))); [done|by eapply row_matches| |].
    - intros Hff. destruct (Hf Hff) as (Hw & Hlt & Hsx). split; [done|]. rewrite Hlt. destruct (i_timely _ Hi Hw _ _ Hr) as [T1 T2 T3 T4].
      split; cbn; [auto|done| |].
      + intros _. apply T3. intros E. rewrite E in Hs. by destruct Hs.
      + intros _. exists t, now, x. split_and!; try done.
    - intros lane o'. cbn [r_ordinal set_state set_ended set_result]. rewrite Ho, released by done. split; [by right|].
      intros [(_ & _ & Hl')|?]; [|done]. exfalso. revert Hl'. destruct late; vm_compute; done. }
  unfold fail_if. destruct (late || negb (succeeded x)) eqn:Hb; apply Hput; [done|]. bool_tac. done.
Qed.

Lemma close_elem w o r : (o, r) ∈ rows (close_rows w) <-> exists r', (o, r') ∈ rows w /\ r = close_row r'.
Proof.
  unfold close_rows. cbn [rows]. rewrite list_elem_of_fmap. split.
  - intros ([o' r'] & [= -> ->] & Hin). by exists r'.
  - intros (r' & Hin & ->). by exists (o, r').
Qed.

Lemma close_live r : live (close_row r) = live r.
Proof. unfold close_row, live. destruct (is_open r) eqn:E; [done|]. by rewrite E. Qed.
Lemma close_lane r : r_lane (close_row r) = r_lane r.
Proof. unfold close_row. by destruct (is_open r). Qed.

Lemma close_inv w : Inv w -> Inv (close_rows w).
Proof.
  intros Hi. split.
  - unfold close_rows. cbn [rows]. rewrite <- list_fmap_compose. apply Hi.
  - intros o r Hr. apply close_elem in Hr as (r' & Hr & ->). destruct (i_rows _ Hi _ _ Hr) as [Ho [c Hc]].
    unfold close_row. destruct (is_open r'); (split; [done|by exists c]).
  - intros Hf o r Hr. unfold close_rows in Hf. cbn [failed] in Hf. bool_tac. apply close_elem in Hr as (r' & Hr & ->).
    assert (is_open r' = false) as Hc.
    { destruct (is_open r') eqn:E; [|done]. exfalso. assert (r' ∈ List.filter is_open (rows w).*2) as Hin.
      { apply list_elem_of_In, filter_In. split; [|done]. apply list_elem_of_In. by apply (list_elem_of_fmap_2 snd) in Hr. }
      match goal with A : List.filter is_open _ = [] |- _ => rewrite A in Hin end. by apply not_elem_of_nil in Hin. }
    unfold close_row. rewrite Hc. by eapply (i_timely _ Hi).
  - intros lane o. unfold close_rows at 1. cbn [busy]. rewrite (i_busy _ Hi). split.
    + intros (r & Hr & Hl & Hv). exists (close_row r). rewrite close_lane, close_live. split; [|done]. apply close_elem. by exists r.
    + intros (r & Hr & Hl & Hv). apply close_elem in Hr as (r' & Hr & ->). rewrite close_lane in Hl. rewrite close_live in Hv. by exists r'.
Qed.

Lemma fail_if_inv {B} b (k : unit -> M B) w : (forall w', Inv w' -> Inv (k tt w').2) -> Inv w -> Inv (bind (fail_if b) k w).2.
Proof. intros Hk Hi. unfold fail_if. destruct b; apply Hk; [by apply inv_fail|done]. Qed.

Lemma finish_inv now w : Inv w -> Inv (finish sp now w).2.
Proof.
  intros Hi. unfold finish, bind at 1, get. apply after_need; [done|]. intros _. unfold bind at 1, modify. apply fail_if_inv; [|by apply close_inv].
  intros w1 H1. unfold bind at 1. destruct (1 <? lanes sp); [apply fail_if_inv; [|done]|]; done.
Qed.

Lemma perform_inv x w : scheduled sp x -> Inv w -> Inv (after sp w x).
Proof.
  intros Hx Hi. destruct x; unfold after; cbn [perform]; try (by apply complete_keeps).
  all: apply after_bind; [intros e w' H|intros a w' H; unfold ret; cbn [snd]].
  1,2: pose proof (offer_inv c now cancelled w Hx Hi) as Hw; by rewrite H in Hw.
  1,2: pose proof (invoke_inv ordinal now w Hi) as Hw; by rewrite H in Hw.
  all: pose proof (finish_inv now w Hi) as Hw; by rewrite H in Hw.
Qed.

Lemma run_inv steps w : Forall (scheduled sp) steps -> Inv w -> Inv (run sp steps w).
Proof. intros H. revert w. induction H as [|x steps Hx H IH]; intros w Hi; [done|]. cbn [run fold_left]. by apply IH, perform_inv. Qed.

(** ** The start never changes, and a failure is never taken back *)

Definition stays (w w' : window) : Prop := start w' = start w /\ (failed w = true -> failed w' = true).
Definition steady {A} (m : M A) : Prop := forall w, stays w (m w).2.
#[local] Instance stays_preorder : PreOrder stays.
Proof. split; [done|]. intros a b c [H1 H2] [H3 H4]. split; [congruence|auto]. Qed.

Lemma steady_bind {A B} (m : M A) (k : A -> M B) : steady m -> (forall a, steady (k a)) -> steady (bind m k).
Proof. intros Hm Hk w. specialize (Hm w). unfold bind. destruct (m w) as [[a|e] w1]; [etrans; [exact Hm|apply Hk]|exact Hm]. Qed.
Lemma steady_still {A} (f : window -> result A) : steady (fun w => (f w, w)).
Proof. intros w. by split. Qed.
Lemma steady_update f : (forall w, start (f w) = start w /\ (failed w = true -> failed (f w) = true)) -> steady (modify f).
Proof. intros H w. apply H. Qed.
Lemma steady_if {A} (b : bool) (m k : M A) : steady m -> steady k -> steady (if b then m else k).
Proof. by destruct b. Qed.

Ltac steady_tac :=
  repeat first
    [ apply steady_bind; [|intros ?] | apply steady_if | apply (steady_still (fun _ => _)) | apply (steady_still (fun w => Ok w))
    | apply steady_update; intros ?; split; [done|]; cbn; (done || (intros ->; done)) ].

Lemma offer_steady c now cancelled : steady (offer sp c now cancelled).
Proof. unfold offer. steady_tac. destruct (refusal _ _ _ _ _); steady_tac. Qed.
Lemma invoke_steady o now : steady (invoke sp o now).
Proof. unfold invoke, get_row. steady_tac. Qed.
Lemma complete_steady o now x : steady (complete o now x).
Proof. unfold complete, get_row, fail_if. steady_tac. Qed.
Lemma finish_steady now : steady (finish sp now).
Proof. unfold finish, fail_if. steady_tac. Qed.

Lemma run_steady steps w : stays w (run sp steps w).
Proof.
  revert w. induction steps as [|x steps IH]; intros w; [done|]. cbn [run fold_left]. etrans; [|apply IH]. unfold after.
  destruct x; cbn [perform]; [| |apply complete_steady|].
  all: apply steady_bind; [|intros ?; apply (steady_still (fun _ => _))]; [apply offer_steady || apply invoke_steady || apply finish_steady].
Qed.

(** ** What a passing window shows *)

Record on_time (r : row) : Prop := {
  ot_completed : r_state r = COMPLETED;
  ot_offered : r_due r <= r_offered r <= r_due r + lateness_nanos sp;
  ot_times : exists i e x, r_invoked r = Some i /\ i <= r_due r + lateness_nanos sp /\ r_ended r = Some e /\ i <= e
               /\ r_result r = Some x /\ succeeded x = true
}.

Lemma closed_on_time w o r : Inv (close_rows w) -> failed (close_rows w) = false -> (o, r) ∈ rows (close_rows w) -> on_time r.
Proof.
  intros Hi Hf Hr. destruct (i_timely _ Hi Hf _ _ Hr) as [T1 T2 T3 T4].
  assert (is_open r = false) as Ho.
  { apply close_elem in Hr as (r' & _ & ->). unfold close_row. destruct (is_open r') eqn:E; [done|exact E]. }
  assert (r_state r = COMPLETED) as Hs by (unfold is_open in Ho; bool_tac; naive_solver).
  split; [done|done|]. destruct (T4 Hs) as (t & e & x & H1 & H2 & H3 & H4 & H5). destruct (T3 ltac:(by rewrite Hs)) as (t' & H6 & H7).
  rewrite H1 in H6. injection H6 as <-. by exists t, e, x.
Qed.

Lemma finish_ok now w r w' : finish sp now w = (Ok r, w') -> passed r = true ->
  (list_to_set (rows w).*1 : gset Z) = list_to_set (c_ordinal <$> calls sp) /\ failed (close_rows w) = false
  /\ start w + duration_nanos sp <= now <= start w + duration_nanos sp + drain_nanos sp
  /\ report_calls r = (rows (close_rows w)).*2 /\ (1 < lanes sp -> uneven sp (report_calls r) = false).
Proof.
  intros H Hp. unfold finish in H. apply bind_ok in H as (w0 & w1 & H1 & H). injection H1 as <- <-.
  apply bind_ok in H as (u & w1 & H1 & H). apply need_inv in H1 as [Hset ->]. bool_tac.
  apply bind_ok in H as (u2 & w1 & H1 & H). injection H1 as _ <-. apply bind_ok in H as (u3 & w1 & H1 & H).
  apply bind_ok in H as (w2 & w3 & H2 & H). injection H2 as <- <-. apply bind_ok in H as (u4 & w2 & H2 & H).
  apply bind_ok in H as (w4 & w3 & H3 & H). injection H3 as <- <-. apply ret_ok in H as [<- _]. cbn [passed report_calls] in *. bool_tac.
  unfold fail_if in H1, H2. destruct (_ || _) eqn:Hb.
  - exfalso. injection H1 as _ <-. destruct (1 <? lanes sp); [destruct (uneven _ _)|]; injection H2 as _ <-; done.
  - injection H1 as _ <-. bool_tac. destruct (Z.ltb_spec 1 (lanes sp)) as [Hl|Hl].
    + destruct (uneven sp _) eqn:Hu; injection H2 as _ <-; [done|]. done.
    + injection H2 as _ <-. split_and!; try done. lia.
Qed.

Lemma bounds_fold x y l : x ∈ y :: l -> fold_right Z.min y l <= x <= fold_right Z.max y l.
Proof.
  revert x. induction l as [|z l IH]; intros x Hx; cbn [fold_right].
  - apply list_elem_of_singleton in Hx as ->. lia.
  - pose proof (IH y ltac:(by left)). apply elem_of_cons in Hx as [->|Hx]; [lia|]. apply elem_of_cons in Hx as [->|Hx]; [lia|].
    pose proof (IH x ltac:(by right)). lia.
Qed.

Lemma even_burst l x y i j : uneven sp l = false -> x ∈ l -> y ∈ l -> r_due x = r_due y -> r_invoked x = Some i -> r_invoked y = Some j ->
  Z.of_nat (length (burst (r_due x) l)) = lanes sp /\ Z.abs (i - j) <= burst_spread_nanos sp.
Proof.
  intros Hu Hx Hy Hd Hi Hj. assert (forall z k, z ∈ l -> r_due z = r_due x -> r_invoked z = Some k -> k ∈ burst (r_due x) l) as Hin.
  { intros z k Hz Hdz Hk. unfold burst. apply list_elem_of_omap. exists z. split; [|done]. apply list_elem_of_In, filter_In.
    split; [by apply list_elem_of_In|]. by apply Z.eqb_eq. }
  apply not_true_iff_false in Hu. unfold uneven in Hu. rewrite existsb_exists in Hu.
  destruct (negb (Z.of_nat (length (burst (r_due x) l)) =? lanes sp) || (burst_spread_nanos sp <? max_of (burst (r_due x) l) - min_of (burst (r_due x) l))) eqn:E.
  { exfalso. apply Hu. exists x. split; [by apply list_elem_of_In|]. rewrite Hi, bool_decide_true by (by exists i). exact E. }
  bool_tac. split; [done|]. pose proof (Hin x i Hx eq_refl Hi) as Bi. pose proof (Hin y j Hy (eq_sym Hd) Hj) as Bj.
  destruct (burst (r_due x) l) as [|b bs]; [by apply not_elem_of_nil in Bi|]. cbn [max_of min_of] in *.
  pose proof (bounds_fold i b bs Bi). pose proof (bounds_fold j b bs Bj). lia.
Qed.

(** C37: a passing window accounts for its whole schedule, in any interleaving of the calls of its threads.  Every
    scheduled call has one row, with its lane and due time, and every row is of a scheduled call: offered no earlier
    than due and, like its invocation, within the lateness bound, completed with success after it was invoked.  The
    window was closed between its end and the end of its drain, and with several lanes each due time has as many invoked
    calls as there are lanes, all of them within the burst spread.  (Which lanes those are is for the schedule to say:
    [finish] counts them only.) *)
Theorem window_pass_sound t steps now r w' :
  NoDup (c_ordinal <$> calls sp) -> Forall (scheduled sp) steps ->
  finish sp now (run sp steps (window0 t)) = (Ok r, w') -> passed r = true ->
  (forall c, c ∈ calls sp -> exists x, x ∈ report_calls r /\ r_ordinal x = c_ordinal c /\ r_lane x = c_lane c /\ r_due x = t + c_due_millis c * 10 ^ 6)
  /\ NoDup (r_ordinal <$> report_calls r)
  /\ (forall x, x ∈ report_calls r -> r_ordinal x ∈ (c_ordinal <$> calls sp) /\ on_time x)
  /\ t + duration_nanos sp <= now <= t + duration_nanos sp + drain_nanos sp
  /\ (1 < lanes sp -> forall x y i j, x ∈ report_calls r -> y ∈ report_calls r -> r_due x = r_due y -> r_invoked x = Some i -> r_invoked y = Some j ->
       Z.of_nat (length (burst (r_due x) (report_calls r))) = lanes sp /\ Z.abs (i - j) <= burst_spread_nanos sp).
Proof.
  intros Hnd Hsteps H Hp. set (w := run sp steps (window0 t)) in *. assert (Inv w) as Hi by (apply run_inv, inv_window0; done).
  assert (start w = t) as Hst by apply (run_steady steps (window0 t)).
  destruct (finish_ok _ _ _ _ H Hp) as (Hset & Hf & Hnow & Hcalls & Hburst). pose proof (close_inv w Hi) as Hic.
  assert (forall x, x ∈ report_calls r -> (r_ordinal x, x) ∈ rows (close_rows w)) as Hrow.
  { intros x Hx. rewrite Hcalls in Hx. apply list_elem_of_fmap in Hx as ([o y] & -> & Hy). by destruct (i_rows _ Hic _ _ Hy) as [<- _]. }
  assert (due_of (close_rows w) = due_of w) as Hdue by done. split_and!.
  - intros c Hc. assert (c_ordinal c ∈ (rows w).*1) as Ho.
    { apply (elem_of_list_to_set (C := gset Z)). rewrite Hset. apply elem_of_list_to_set. by apply list_elem_of_fmap_2. }
    apply list_elem_of_fmap in Ho as ([o x] & Heq & Hx). cbn [fst] in Heq. subst o.
    assert ((c_ordinal c, close_row x) ∈ rows (close_rows w)) as Hx' by (apply close_elem; by exists x).
    exists (close_row x). split; [rewrite Hcalls; by apply (list_elem_of_fmap_2 snd) in Hx'|].
    destruct (i_rows _ Hic _ _ Hx') as [Ho (c' & Hc' & Ho' & Hl' & Hd')]. assert (c' = c) as ->.
    { apply list_elem_of_lookup in Hc as [i Hci], Hc' as [j Hcj]. assert (i = j) as ->; [|congruence].
      apply (NoDup_lookup _ _ _ (c_ordinal c) Hnd); rewrite list_lookup_fmap; [by rewrite Hci|rewrite Hcj; cbn; f_equal; congruence]. }
    split_and!; [done|done|]. rewrite <- Hd', Hdue. unfold due_of. by rewrite Hst.
  - rewrite Hcalls, <- list_fmap_compose. rewrite (list_fmap_ext _ fst); [apply Hic|]. intros i [o x] Hx. cbn.
    apply list_elem_of_lookup_2 in Hx. by destruct (i_rows _ Hic _ _ Hx).
  - intros x Hx. apply Hrow in Hx. split; [|by eapply closed_on_time]. destruct (i_rows _ Hic _ _ Hx) as [_ (c & Hc & <- & _)]. by apply list_elem_of_fmap_2.
  - rewrite Hst in Hnow. lia.
  - rewrite Hst in Hnow. lia.
  - intros Hl x y i j Hx Hy Hd Hxi Hyj. by eapply even_burst; try apply Hburst.
Qed.

(** C38: at every moment, in any interleaving, a lane holds at most one call that is reserved, dispatched or unfinished,
    and it is the one [busy] names; once a window has failed it stays failed, so that no later [finish] passes. *)
Theorem window_lanes_exclusive t steps later now :
  Forall (scheduled sp) steps ->
  let w := run sp steps (window0 t) in
  (forall o o' r r', (o, r) ∈ rows w -> (o', r') ∈ rows w -> live r = true -> live r' = true -> r_lane r = r_lane r' -> o = o' /\ r = r')
  /\ (forall lane o, busy w !! lane = Some o <-> exists r, (o, r) ∈ rows w /\ r_lane r = lane /\ live r = true)
  /\ (failed w = true -> failed (run sp later w) = true /\ passes (finish sp now (run sp later w)).1 = false).
Proof.
  intros Hsteps w. assert (Inv w) as Hi by (apply run_inv, inv_window0; done). split_and!.
  - intros o o' r r' H1 H2 L1 L2 Hl. assert (o = o') as <- by (by eapply lane_unique). split; [done|]. by eapply elem_unique.
  - apply Hi.
  - intros Hf. assert (failed (run sp later w) = true) as Hl by (by apply run_steady). split; [done|].
    destruct (finish sp now (run sp later w)) as [[r|e] w'] eqn:E; [|done]. cbn [fst passes]. destruct (passed r) eqn:Hp; [|done]. exfalso.
    apply finish_ok in E as (_ & Hc & _); [|done]. unfold close_rows in Hc. cbn [failed] in Hc. by rewrite Hl in Hc.
Qed.
End Sound.

Lemma window_pass_sound_witness :
  exists r w', finish sample_spec 5000500 (run sample_spec sample_steps (window0 0)) = (Ok r, w') /\ length (report_calls r) = 4%nat
    /\ forall x, x ∈ report_calls r -> on_time sample_spec x.
Proof.
  assert (passes (finish sample_spec 5000500 (run sample_spec sample_steps (window0 0))).1 = true
    /\ match (finish sample_spec 5000500 (run sample_spec sample_steps (window0 0))).1 with Ok r => length (report_calls r) = 4%nat | Err _ => False end) as [Hp Hl]
    by (split; vm_compute; reflexivity).
  destruct (finish sample_spec 5000500 (run sample_spec sample_steps (window0 0))) as [[r|e] w'] eqn:E; [|discriminate Hp].
  exists r, w'. split_and!; [reflexivity|exact Hl|].
  assert (NoDup (c_ordinal <$> calls sample_spec)) as Hn by (apply (bool_decide_unpack _); vm_compute; exact I).
  assert (Forall (scheduled sample_spec) sample_steps) as Hs by (repeat constructor; by apply (bool_decide_unpack _)).
  intros x Hx. apply (window_pass_sound sample_spec 0 sample_steps 5000500 r w' Hn Hs E Hp). exact Hx.
Defined.

Lemma window_lanes_exclusive_witness :
  let w := run sample_spec (take 2 sample_steps) (window0 0) in
  (exists r, (1, r) ∈ rows w /\ live r = true) /\ (forall lane o, busy w !! lane = Some o <-> exists r, (o, r) ∈ rows w /\ r_lane r = lane /\ live r = true).
Proof.
  intros w. split; [eexists; split; [left|reflexivity]|].
  apply (window_lanes_exclusive sample_spec 0 (take 2 sample_steps) [] 0). repeat constructor; by apply (bool_decide_unpack _).
Defined.
