(* ===== verification/ReplicaFrames.v ===== *)
(** * gse-replicated (1,0): record frames and fields ([scripts/v50/storage_format.py])

    The writers and readers every replica file is made of.  A regular file of the replica directory
    is one with a single link; everything else is [Irregular]. *)

From Stdlib Require Import Ascii.
From stdpp Require Import base gmap sets strings list sorting.
From S2P Require Import Prelude Bytes Sha256 Wire Files Json.
Import StateNotations ResultNotations.
Local Open Scope py_scope.
Local Open Scope Z_scope.

(** ** Constants *)

Definition FILES : list string :=
  ["replica.lock"; "manifest.gsr"; "node.gsr"; "promises.gsr"; "entries.gsr"; "proofs.gsr"; "storage-ready.gsr"]%string.
Definition MAX_FRAME : Z := 64 * 1024 * 1024.
Definition MAX_METADATA : Z := 64 * 1024.
Definition MAX_ENTRIES : Z := 1000000.
Definition MAX_PROMISES : Z := 10000.
Definition OPERATIONS : list string :=
  ["ADD"; "UPDATE"; "REMOVE"; "ADD_ALL"; "UPDATE_ALL"; "REMOVE_ALL"; "INDEX_CREATE"; "INDEX_DROP"; "NO_OP";
   "SNAPSHOT_MARKER"]%string.
Definition VOTERS : list string := ["node-1"; "node-2"; "node-3"]%string.
Definition JAVA_WHITESPACE : list Z :=
  [9; 10; 11; 12; 13; 28; 29; 30; 31; 32; 0x1680; 0x2000; 0x2001; 0x2002; 0x2003; 0x2004; 0x2005; 0x2006; 0x2008;
   0x2009; 0x200A; 0x2028; 0x2029; 0x205F; 0x3000].

Definition fault (msg : string) : exn := ValueError msg.
Definition check (condition : bool) (msg : string) : result unit := guard condition (fault msg).
Definition digest (value : bytes) : bytes := sha256 value.

(** ** Writers *)

Definition text (value : string) : bytes := put_text value.

Definition put_prefix (kind length : Z) : bytes :=
  utf8 "GSER" ++ be_split 2 1 ++ be_split 2 0 ++ be_split 2 kind ++ be_split 2 0 ++ be_split 4 length.

Definition frame (kind : Z) (body : bytes) : bytes :=
  let prefix := put_prefix kind (Z.of_nat (length body)) in
  prefix ++ digest (prefix ++ body) ++ body.

(** ** [Reader] *)

Definition truncated : exn := fault "truncated storage field".
Definition take_field (length : Z) : reader bytes := take_bytes truncated length.
Definition number_i : reader Z := read_int truncated 4.
Definition number_q : reader Z := read_int truncated 8.
Definition number_H : reader Z := read_uint truncated 2.
Definition number_B : reader Z := read_uint truncated 1.
Definition checked_that (condition : bool) (msg : string) : reader unit := ensure condition (fault msg).

Definition string_field (maximum : Z) : reader string :=
  let* length := number_i in
  do* checked_that ((0 <? length) && (length <=? maximum)) "invalid string length" in
  let* raw := take_field length in
  liftr (decode_utf8 UnicodeError raw).

(** [re.fullmatch(r"[a-z0-9][a-z0-9._-]{0,maximum-1}", value)] *)
Definition identity_head (c : ascii) : bool := is_lower c || is_digit c.
Definition identity_tail (c : ascii) : bool := identity_head c || (code c =? 46) || (code c =? 95) || (code c =? 45).
Fixpoint all_of (cls : ascii -> bool) (s : string) : bool :=
  match s with
  | EmptyString => true
  | String c s' => cls c && all_of cls s'
  end.
Definition is_identity (maximum : Z) (s : string) : bool :=
  match s with
  | EmptyString => false
  | String c s' => identity_head c && all_of identity_tail s' && (Z.of_nat (String.length s') <=? maximum - 1)
  end.

Definition identity_field (maximum : Z) : reader string :=
  let* value := string_field maximum in
  do* checked_that (is_identity maximum value) "invalid storage identity" in
  ret value.

Definition end_of_fields : reader unit := expect_end (fault "trailing storage fields").

(** [len(value) - offset] *)
Definition remaining : reader Z := fun s => (Ok (Z.of_nat (length s)), s).

(** Parsing a whole body. *)
Definition read_body {A} (p : reader A) (body : bytes) : result A :=
  run_reader (let* x := p in do* end_of_fields in ret x) body.

(** ** [read_frame] *)

(** [source.read(size)] of an open file: at most [size] bytes. *)
Definition source_read (size : Z) : reader bytes := fun s => (Ok (take (Z.to_nat size) s), drop (Z.to_nat size) s).

Record prefix := Prefix { px_magic : bytes; px_major : Z; px_minor : Z; px_kind : Z; px_flags : Z; px_length : Z }.

(** [PREFIX.unpack(prefix)] *)
Definition read_prefix : reader prefix :=
  let* magic := take_bytes StructError 4 in
  let* major := read_uint StructError 2 in
  let* minor := read_uint StructError 2 in
  let* kind := read_uint StructError 2 in
  let* flags := read_uint StructError 2 in
  let* length := read_int StructError 4 in
  ret (Prefix magic major minor kind flags length).

(** [None] at the end of the file, otherwise the body of the next frame and its digest. *)
Definition read_frame (kind maximum : Z) : reader (option (bytes * bytes)) :=
  let* prefix := source_read 16 in
  if bool_decide (prefix = []) then ret None else
  do* checked_that (length prefix =? 16)%nat "incomplete frame header" in
  let* p := liftr (run_reader read_prefix prefix) in
  do* checked_that (bool_decide (px_magic p = utf8 "GSER") && (px_major p =? 1) && (px_minor p =? 0))
    "unsupported storage family/version" in
  do* checked_that ((px_kind p =? kind) && (px_flags p =? 0)) "wrong record kind/flags" in
  do* checked_that ((0 <? px_length p) && (px_length p <=? maximum - 48)) "frame capacity exceeded" in
  let* checksum := source_read 32 in
  let* body := source_read (px_length p) in
  do* checked_that ((length checksum =? 32)%nat && (Z.of_nat (length body) =? px_length p)) "incomplete frame body" in
  do* checked_that (bool_decide (checksum = digest (prefix ++ body))) "record checksum mismatch" in
  ret (Some (body, checksum)).

(** A file with exactly one frame. *)
Definition only_frame (kind maximum : Z) (msg : string) (content : bytes) : result (bytes * bytes) :=
  run_reader (let* r := read_frame kind maximum in
              match r with
              | Some r =>
                  let* more := source_read 1 in
                  do* checked_that (bool_decide (more = [])) msg in
                  ret r
              | None => liftr (Err (fault msg))
              end) content.

Definition single (members : gmap string file) (name : string) (kind : Z) : result (bytes * bytes) :=
  let! content := member_bytes members name in
  only_frame kind MAX_METADATA "metadata must contain one frame" content.

(** ** Entries and receipts *)

Record entry := Entry {
  e_manifest : bytes;
  e_index : Z;
  e_epoch : Z;
  e_incarnation : bytes;
  e_operation : string;
  e_digest : bytes;
  e_payload_digest : bytes;
  e_previous : bytes;
  e_payload : option bytes
}.

#[export] Instance entry_eq_dec : EqDecision entry.
Proof. solve_decision. Defined.

Definition receipt (node : string) (e : entry) : bytes :=
  digest (text "gse-replication/1.0/DURABLE_ACK" ++ e_manifest e ++ text node ++ be_split 8 (e_epoch e)
          ++ e_incarnation e ++ be_split 8 (e_index e) ++ e_digest e).

Record proof := Proof { p_index : Z; p_digest : string; p_receipt_voters : list string }.

#[export] Instance proof_eq_dec : EqDecision proof.
Proof. solve_decision. Defined.

(** [sorted(set(names))] *)
Definition sorted_set (l : list string) : list string := merge_sort string_le (remove_dups l).

(** [bytes(16)] *)
Definition no_incarnation : bytes := replicate 16 Byte.x00.

(** [str(uuid.UUID(bytes=value))] of sixteen bytes *)
Definition uuid_text (value : bytes) : string :=
  join "-" [hex (take 4 value); hex (take 2 (drop 4 value)); hex (take 2 (drop 6 value)); hex (take 2 (drop 8 value));
            hex (drop 10 value)].

(** [OPERATIONS[operation - 1]], within its bounds *)
Definition operation_name (operation : Z) : option string :=
  if (1 <=? operation) && (operation <=? Z.of_nat (length OPERATIONS))
  then OPERATIONS !! Z.to_nat (operation - 1) else None.
Definition operation_code (name : string) : Z :=
  match list_find (fun o => o = name) OPERATIONS with
  | Some (i, _) => Z.of_nat i + 1
  | None => 0
  end.

(** The receipts of a proof: [count] voters with their acknowledgements. *)
Definition read_receipt (voters : list string) (e : entry) (msg : string) : reader string :=
  let* node := identity_field 64 in
  let* ack := take_field 32 in
  do* checked_that (bool_decide (node ∈ voters) && bool_decide (ack = receipt node e)) msg in
  ret node.

(** An identity is plain ASCII, so it is text as long as its characters. *)
Lemma identity_tail_ascii (c : ascii) (s : string) :
  identity_tail c = true -> utf8_valid (utf8 (String c s)) = utf8_valid (utf8 s).
Proof.
  intros H. rewrite utf8_cons. apply utf8_valid_ascii. revert H.
  destruct c as [[] [] [] [] [] [] [] []]; vm_compute; congruence.
Qed.

Lemma identity_text maximum x :
  is_identity maximum x = true -> is_text x = true /\ 0 < text_size x <= maximum.
Proof.
  assert (forall s, all_of identity_tail s = true -> is_text s = true) as Ha.
  { unfold is_text. induction s as [|c s IH]; [done|]. cbn [all_of]. intros H. bool_tac.
    rewrite identity_tail_ascii by done. by apply IH. }
  assert (forall s, length (utf8 s) = String.length s) as Hn.
  { induction s as [|c s IH]; [done|]. rewrite utf8_cons. cbn [length String.length]. by rewrite IH. }
  destruct x as [|c s]; [done|]. unfold is_identity. intros H. bool_tac. split.
  - unfold is_text. rewrite identity_tail_ascii; [by apply Ha|]. unfold identity_tail. by rewrite H.
  - unfold text_size. rewrite Hn. cbn [String.length]. lia.
Qed.
