(* ===== verification/TextCodes.v ===== *)
(** * Text codes: base64 and UUIDs

    Base64, as [base64.b64encode(data).decode()] and [base64.b64decode(text, validate=True)].

    Every decoded text is compared with the encoding of what it decodes to, so only the canonical
    texts matter: whole groups of four characters, padded with equals signs. *)

From Stdlib Require Import Ascii.
From stdpp Require Import base list strings.
From S2P Require Import Prelude Bytes Files Json ReplicaFrames.
Import ResultNotations.
Local Open Scope py_scope.
Local Open Scope Z_scope.

(** The character of six bits, and back. *)
Definition b64_char (z : Z) : ascii :=
  ascii_of_N (Z.to_N (if z <? 26 then 65 + z else if z <? 52 then 71 + z else if z <? 62 then z - 4 else if z =? 62 then 43 else 47)).
Definition b64_value (c : ascii) : option Z :=
  let z := code c in
  if (65 <=? z) && (z <=? 90) then Some (z - 65)
  else if (97 <=? z) && (z <=? 122) then Some (z - 71)
  else if (48 <=? z) && (z <=? 57) then Some (z + 4)
  else if z =? 43 then Some 62
  else if z =? 47 then Some 63
  else None.
Definition padding_char : ascii := "="%char.

Fixpoint b64encode (bs : bytes) : string :=
  match bs with
  | [] => EmptyString
  | [a] =>
      String (b64_char (b2z a / 4)) (String (b64_char (b2z a mod 4 * 16)) (String padding_char (String padding_char EmptyString)))
  | [a; b] =>
      String (b64_char (b2z a / 4)) (String (b64_char (b2z a mod 4 * 16 + b2z b / 16))
        (String (b64_char (b2z b mod 16 * 4)) (String padding_char EmptyString)))
  | a :: b :: c :: bs' =>
      String (b64_char (b2z a / 4)) (String (b64_char (b2z a mod 4 * 16 + b2z b / 16))
        (String (b64_char (b2z b mod 16 * 4 + b2z c / 64)) (String (b64_char (b2z c mod 64)) (b64encode bs'))))
  end.

(** The bytes of one group; padding only ends the text. *)
Definition b64_group (a b c d : ascii) (last : bool) : option bytes :=
  match b64_value a, b64_value b with
  | Some x, Some y =>
      match b64_value c, b64_value d with
      | Some z, Some w => Some [z2b (x * 4 + y / 16); z2b (y mod 16 * 16 + z / 4); z2b (z mod 4 * 64 + w)]
      | Some z, None => if last && bool_decide (d = padding_char) then Some [z2b (x * 4 + y / 16); z2b (y mod 16 * 16 + z / 4)] else None
      | None, None => if last && bool_decide (c = padding_char) && bool_decide (d = padding_char) then Some [z2b (x * 4 + y / 16)] else None
      | None, Some _ => None
      end
  | _, _ => None
  end.

Definition is_empty (s : string) : bool := match s with EmptyString => true | _ => false end.

Fixpoint b64decode (s : string) : option bytes :=
  match s with
  | EmptyString => Some []
  | String a (String b (String c (String d s'))) =>
      match b64_group a b c d (is_empty s'), b64decode s' with
      | Some bs, Some rest => Some (bs ++ rest)
      | _, _ => None
      end
  | _ => None
  end.

Local Ltac Zify.zify_post_hook ::= Z.to_euclidean_division_equations.

Lemma b64_value_char z : 0 <= z < 64 -> b64_value (b64_char z) = Some z.
Proof.
  intros Hz. rewrite <- (Z2Nat.id z) by lia. assert (Z.to_nat z < 64)%nat as Hn by lia. revert Hn.
  generalize (Z.to_nat z). clear Hz z. intros n Hn.
  do 64 (destruct n as [|n]; [reflexivity|]). lia.
Qed.

Lemma b64decode_encode bs : b64decode (b64encode bs) = Some bs.
Proof.
  assert (forall n bs, (length bs <= n)%nat -> b64decode (b64encode bs) = Some bs) as H; [|by apply (H (length bs))].
  clear bs. induction n as [|n IH]; intros bs Hn; [destruct bs; [done|simpl in Hn; lia]|].
  assert (forall x y, b2z x = y -> z2b y = x) as Hz by (intros x y <-; apply z2b_b2z).
  destruct bs as [|a [|b [|c bs]]]; [done|..]; cbn [b64encode b64decode]; unfold b64_group;
    change (b64_value padding_char) with (@None Z); pose proof (b2z_range a).
  - rewrite !b64_value_char by lia. cbn. f_equal. rewrite app_nil_r. f_equal. apply Hz. lia.
  - pose proof (b2z_range b). rewrite !b64_value_char by lia. cbn. f_equal. rewrite app_nil_r. f_equal; [|f_equal]; apply Hz; lia.
  - pose proof (b2z_range b). pose proof (b2z_range c). rewrite !b64_value_char by lia.
    rewrite IH by (simpl in Hn; lia). cbn [app]. f_equal. f_equal; [|f_equal; [|f_equal]]; apply Hz; lia.
Qed.

Lemma b64encode_inj a b : b64encode a = b64encode b -> a = b.
Proof. intros H. assert (Some a = Some b) as [=] by (by rewrite <- !b64decode_encode, H). done. Qed.

(** ** [uuid.UUID(text)] and [str(uuid.UUID(...))]

    The constructor takes many spellings: the prefixes [urn:] and [uuid:], braces and hyphens are
    dropped and the rest is read by [int(text, 16)].  [int] reads the decimal digits and the white
    space of every script as their ASCII counterparts; that table of the Unicode character database is
    the argument [to_ascii], used on texts that are not plain ASCII. *)

(** [text.replace(sub, "")]; [skip] counts the characters of an occurrence still to drop. *)
Fixpoint remove_all (sub : string) (skip : nat) (s : string) : string :=
  match s with
  | EmptyString => EmptyString
  | String c s' =>
      match skip with
      | S skip' => remove_all sub skip' s'
      | O => if starts_with sub s then remove_all sub (String.length sub - 1) s' else String c (remove_all sub 0 s')
      end
  end.

Fixpoint lstrip (cls : ascii -> bool) (s : string) : string :=
  match s with
  | EmptyString => EmptyString
  | String c s' => if cls c then lstrip cls s' else s
  end.
Fixpoint rstrip (cls : ascii -> bool) (s : string) : string :=
  match s with
  | EmptyString => EmptyString
  | String c s' =>
      match rstrip cls s' with
      | EmptyString => if cls c then EmptyString else String c EmptyString
      | r => String c r
      end
  end.
Definition strip (cls : ascii -> bool) (s : string) : string := rstrip cls (lstrip cls s).

Fixpoint drop_chars (cls : ascii -> bool) (s : string) : string :=
  match s with
  | EmptyString => EmptyString
  | String c s' => if cls c then drop_chars cls s' else String c (drop_chars cls s')
  end.

Definition is_brace (c : ascii) : bool := (code c =? 123) || (code c =? 125).
Definition is_dash (c : ascii) : bool := code c =? 45.

(** The digits of [int(text, 16)], single underscores between them. *)
Fixpoint hex_digits (acc : Z) (underscore : bool) (s : string) : option Z :=
  match s with
  | EmptyString => if underscore then None else Some acc
  | String c s' =>
      if code c =? 95 then (if underscore then None else hex_digits acc true s')
      else match hex_value c with Some d => hex_digits (acc * 16 + d) false s' | None => None end
  end.

(** Without sign: an optional prefix [0x], after which one underscore may stand. *)
Definition hex_unsigned (s : string) : option Z :=
  let digits (s : string) := match s with
                | EmptyString => None
                | String c _ => if code c =? 95 then None else hex_digits 0 false s
                end in
  match s with
  | String z (String x s') =>
      if (code z =? 48) && ((code x =? 120) || (code x =? 88)) then
        match s' with
        | String u s'' => if code u =? 95 then digits s'' else digits s'
        | EmptyString => None
        end
      else digits s
  | _ => digits s
  end.

(** [int(text, 16)] of ASCII text *)
Definition int16 (s : string) : option Z :=
  match strip ascii_space s with
  | String c s' =>
      if code c =? 43 then hex_unsigned s'
      else if code c =? 45 then option_map Z.opp (hex_unsigned s')
      else hex_unsigned (String c s')
  | EmptyString => None
  end.

Section Uuid.
Context (to_ascii : Z -> ascii).

Definition ascii_digits (s : string) : string :=
  if is_ascii (utf8 s) then s
  else String.string_of_list_ascii
         ((fun z => if z <? 127 then ascii_of_N (Z.to_N z) else to_ascii z) <$> code_points (utf8 s)).

(** [uuid.UUID(text).bytes] *)
Definition uuid_bytes (s : string) : result bytes :=
  let hex := drop_chars is_dash (strip is_brace (remove_all "uuid:" 0 (remove_all "urn:" 0 s))) in
  do! guard (Z.of_nat (length (code_points (utf8 hex))) =? 32) (ValueError "badly formed hexadecimal UUID string") in
  let! z := of_option (int16 (ascii_digits hex)) (ValueError "invalid literal for int()") in
  do! guard ((0 <=? z) && (z <? 2 ^ 128)) (ValueError "int is out of range (need a 128-bit value)") in
  Ok (be_split 16 z).
End Uuid.

(** ** The canonical spelling *)

Definition uuid_char (c : ascii) : bool := is_lower_hex c || is_dash c.

Lemma hex_digit_class z : 0 <= z < 16 -> is_lower_hex (hex_digit z) = true.
Proof.
  intros Hz. assert (In z (map Z.of_nat (seq 0 16))) as Hin.
  { apply in_map_iff. exists (Z.to_nat z). split; [lia|]. apply in_seq. lia. }
  vm_compute in Hin. repeat destruct Hin as [<- | Hin]; try done.
Qed.

Lemma all_of_impl (p q : ascii -> bool) s :
  (forall c, p c = true -> q c = true) -> all_of p s = true -> all_of q s = true.
Proof.
  intros Hpq. induction s as [|c s IH]; [done|]. cbn [all_of]. intros H. bool_tac. rewrite Hpq by done. by apply IH.
Qed.

Lemma all_of_app p a b : all_of p (a +:+ b) = all_of p a && all_of p b.
Proof.
  induction a as [|c a IH]; [done|]. change (all_of p (String c (a +:+ b)) = p c && all_of p a && all_of p b).
  cbn [all_of]. rewrite IH. by destruct (p c).
Qed.

Lemma all_hex bs : all_of is_lower_hex (hex bs) = true.
Proof.
  induction bs as [|b bs IH]; [done|]. cbn [hex all_of]. pose proof (b2z_range b).
  rewrite !hex_digit_class, IH; [done|apply Z.mod_pos_bound; lia|].
  split; [apply Z.div_pos; lia|apply Z.div_lt_upper_bound; lia].
Qed.

Lemma remove_all_none sub s (p : ascii -> bool) :
  all_of p s = true -> match sub with String c _ => p c = false | EmptyString => False end -> remove_all sub 0 s = s.
Proof.
  intros Hs Hp. induction s as [|c s IH]; [done|]. cbn [all_of] in Hs. bool_tac. cbn [remove_all].
  destruct sub as [|d sub]; [done|]. unfold starts_with. cbn [strip_prefix]. rewrite decide_False by congruence.
  rewrite bool_decide_eq_false_2 by (intros [? [=]]). by rewrite IH.
Qed.

Lemma strip_none cls s : all_of (fun c => negb (cls c)) s = true -> strip cls s = s.
Proof.
  intros H. unfold strip. assert (lstrip cls s = s) as ->.
  { destruct s as [|c s]; [done|]. cbn [all_of lstrip] in *. bool_tac. by rewrite H. }
  induction s as [|c s IH]; [done|]. cbn [all_of rstrip] in *. bool_tac. rewrite IH by done. rewrite H. by destruct s.
Qed.

Lemma drop_chars_app cls a b : drop_chars cls (a +:+ b) = drop_chars cls a +:+ drop_chars cls b.
Proof.
  induction a as [|c a IH]; [done|]. change (drop_chars cls (String c (a +:+ b)) = drop_chars cls (String c a) +:+ drop_chars cls b).
  cbn [drop_chars]. rewrite IH. by destruct (cls c).
Qed.

Lemma drop_chars_none cls s : all_of (fun c => negb (cls c)) s = true -> drop_chars cls s = s.
Proof. induction s as [|c s IH]; [done|]. cbn [all_of drop_chars]. intros H. bool_tac. rewrite H. by rewrite IH. Qed.

Lemma lower_hex_not c : is_lower_hex c = true -> negb (is_dash c) = true /\ negb (is_brace c) = true /\ negb (ascii_space c) = true /\ c <> "u"%char.
Proof. destruct c as [[] [] [] [] [] [] [] []]; vm_compute; intros [=]; split_and!; congruence. Qed.

Lemma hex_digits_hex acc bs :
  hex_digits acc false (hex bs) = Some (fold_left (fun acc b => acc * 256 + b2z b) bs acc).
Proof.
  revert acc. induction bs as [|b bs IH]; intros acc; [done|]. cbn [hex hex_digits]. pose proof (b2z_range b).
  assert (0 <= b2z b / 16 < 16) as H1 by (split; [apply Z.div_pos; lia|apply Z.div_lt_upper_bound; lia]).
  assert (0 <= b2z b mod 16 < 16) as H2 by (apply Z.mod_pos_bound; lia).
  assert (forall z, 0 <= z < 16 -> (code (hex_digit z) =? 95) = false) as Hn.
  { intros z Hz. pose proof (hex_digit_class z Hz) as Hc. revert Hc. generalize (hex_digit z).
    intros [[] [] [] [] [] [] [] []]; vm_compute; congruence. }
  rewrite (Hn _ H1), (Hn _ H2), !hex_value_digit, IH by done. cbn [fold_left]. do 2 f_equal.
  rewrite (Z.div_mod (b2z b) 16) at 3 by lia. lia.
Qed.

Lemma lower_hex_codes c :
  is_lower_hex c = true ->
  (code c =? 43) = false /\ (code c =? 45) = false /\ (code c =? 95) = false /\ (code c =? 120) = false /\ (code c =? 88) = false.
Proof. destruct c as [[] [] [] [] [] [] [] []]; vm_compute; intros [=]; done. Qed.

Lemma int16_hex bs : bs <> [] -> int16 (hex bs) = Some (be_join bs).
Proof.
  intros Hne. unfold int16. rewrite strip_none.
  2:{ eapply all_of_impl; [|apply all_hex]. intros c Hc. by apply lower_hex_not in Hc as (_ & _ & ? & _). }
  pose proof (all_hex bs) as Hh. pose proof (hex_digits_hex 0 bs) as Hd. destruct bs as [|b bs]; [done|].
  cbn [hex] in *. cbn [all_of] in Hh. bool_tac.
  repeat match goal with A : is_lower_hex _ = true |- _ => apply lower_hex_codes in A as (? & ? & ? & ? & ?) end.
  unfold hex_unsigned. repeat match goal with A : (code _ =? _) = false |- _ => rewrite A; clear A end.
  rewrite andb_false_r. exact Hd.
Qed.

Lemma is_ascii_hex bs : is_ascii (utf8 (hex bs)) = true.
Proof.
  unfold is_ascii. pose proof (all_hex bs) as H. revert H. generalize (hex bs). intros s.
  induction s as [|c s IH]; [done|]. rewrite utf8_cons. cbn [all_of forallb]. intros H. bool_tac. rewrite IH by done.
  rewrite andb_true_r. revert H. destruct c as [[] [] [] [] [] [] [] []]; vm_compute; congruence.
Qed.

Lemma ascii_code_points bs : is_ascii bs = true -> length (code_points bs) = length bs.
Proof.
  unfold is_ascii. induction bs as [|b bs IH]; [done|]. cbn [forallb code_points]. intros H. bool_tac.
  match goal with A : between _ _ _ = true |- _ => rewrite A end. cbn [length]. by rewrite IH.
Qed.

Lemma length_hex_text bs : length (utf8 (hex bs)) = (2 * length bs)%nat.
Proof. induction bs as [|b bs IH]; [done|]. cbn [hex]. rewrite !utf8_cons. cbn [length]. lia. Qed.

(** Reading the text [bytes.hex()] writes. *)
Lemma from_hex_hex bs : from_hex (hex bs) = Some bs.
Proof.
  induction bs as [|b bs IH]; [done|]. pose proof (b2z_range b) as Hb. cbn [hex from_hex].
  assert (0 <= b2z b / 16 < 16) as H1 by (split; [apply Z.div_pos; lia|apply Z.div_lt_upper_bound; lia]).
  assert (0 <= b2z b mod 16 < 16) as H2 by (apply Z.mod_pos_bound; lia).
  pose proof (hex_digit_class _ H1) as (_ & _ & Hs & _)%lower_hex_not. apply negb_true_iff in Hs. rewrite Hs.
  rewrite !hex_value_digit, IH by done. do 2 f_equal. rewrite <- (z2b_b2z b) at 3. f_equal.
  rewrite (Z.div_mod (b2z b) 16) at 3 by lia. lia.
Qed.

(** Reading the canonical text of sixteen bytes. *)
Lemma uuid_bytes_text to_ascii bs : length bs = 16%nat -> uuid_bytes to_ascii (uuid_text bs) = Ok bs.
Proof.
  intros Hl.
  assert (all_of uuid_char (uuid_text bs) = true) as Hc.
  { assert (forall b, all_of uuid_char (hex b) = true) as Hh.
    { intros b. eapply all_of_impl; [|apply all_hex]. intros c Hc. unfold uuid_char. by rewrite Hc. }
    unfold uuid_text. cbn [join]. by rewrite !all_of_app, !Hh. }
  assert (forall c, uuid_char c = true -> negb (is_brace c) = true) as Hb.
  { intros c H. unfold uuid_char in H. apply orb_true_iff in H as [H|H]; [by apply lower_hex_not in H as (_ & ? & _)|].
    revert H. destruct c as [[] [] [] [] [] [] [] []]; vm_compute; congruence. }
  assert (drop_chars is_dash (uuid_text bs) = hex bs) as Hd.
  { unfold uuid_text. cbn [join]. rewrite !drop_chars_app.
    assert (forall b, drop_chars is_dash (hex b) = hex b) as Hh.
    { intros b. apply drop_chars_none. eapply all_of_impl; [|apply all_hex]. intros c H. by apply lower_hex_not in H as (? & _). }
    rewrite !Hh. change (drop_chars is_dash "-") with EmptyString.
    do 17 (destruct bs as [|? bs]; try done). }
  unfold uuid_bytes. rewrite (remove_all_none "urn:" _ uuid_char), (remove_all_none "uuid:" _ uuid_char) by done.
  rewrite strip_none by (by eapply all_of_impl). rewrite Hd, ascii_code_points by apply is_ascii_hex.
  rewrite length_hex_text, Hl. cbn [guard rbind]. unfold ascii_digits. rewrite is_ascii_hex.
  rewrite int16_hex by (by destruct bs). cbn [of_option rbind].
  pose proof (be_join_range bs) as Hr. rewrite Hl in Hr. change (256 ^ Z.of_nat 16) with (2 ^ 128) in Hr.
  replace ((0 <=? be_join bs) && (be_join bs <? 2 ^ 128)) with true by lia. cbn [guard rbind].
  change (Z.of_nat (2 * 16) =? 32) with true. cbn [guard rbind]. f_equal.
  transitivity (be_split (length bs) (be_join bs)); [by rewrite Hl|apply be_split_join].
Qed.
