(* ===== verification/Schema.v ===== *)
(** * Schema-driven values ([scripts/v51/format_inspector.py], [scripts/v51/format_encoder.py])

    The (1,2) formats are described by a catalog of schemas.  A schema drives the check of a decoded
    value ([check_schema]), the binary reader ([Reader.read]) and the binary writer ([scalar]). *)

From Stdlib Require Import Ascii.
From stdpp Require Import base gmap sets strings list.
From S2P Require Import Prelude Bytes Files Wire Json TextCodes ReplicaFrames.
Import StateNotations ResultNotations.
Local Open Scope py_scope.
Local Open Scope Z_scope.

Inductive schema : Type :=
  | SName (t : string)
  | SOptional (t : schema)
  | SObject (fields : list (string * schema))
  | SArray (t : schema) (lo hi : Z)
  | SEnum (values : list json)
  | SInteger (lo hi : Z).

Definition MAX_IMAGE : Z := 67108864.
Definition LONG_MAX : Z := 2 ^ 63 - 1.

Definition need (test : bool) (msg : string) : result unit := guard test (ValueError msg).
Definition needs (test : bool) (msg : string) : reader unit := ensure test (ValueError msg).

(** ** Values *)

(** [v[key]], and the same for a value of a known type *)
Definition get (key : string) (v : json) : result json :=
  match v with JObject m => of_option (assoc_get key m) KeyError | _ => Err TypeError end.
Definition as_text (v : json) : result string := match v with JString s => Ok s | _ => Err TypeError end.
Definition as_int (v : json) : result Z := match v with JInt z => Ok z | _ => Err TypeError end.
Definition as_bool (v : json) : result bool := match v with JBool b => Ok b | _ => Err TypeError end.
Definition as_list (v : json) : result (list json) := match v with JArray l => Ok l | _ => Err TypeError end.
Definition get_text (key : string) (v : json) : result string := let! x := get key v in as_text x.
Definition get_int (key : string) (v : json) : result Z := let! x := get key v in as_int x.
Definition get_bool (key : string) (v : json) : result bool := let! x := get key v in as_bool x.
Definition get_list (key : string) (v : json) : result (list json) := let! x := get key v in as_list x.
Definition has_key (key : string) (v : json) : bool :=
  match v with JObject m => bool_decide (is_Some (assoc_get key m)) | _ => false end.

(** [[f(x) for x in l]] *)
Fixpoint map_all {A B} (f : A -> result B) (l : list A) : result (list B) :=
  match l with
  | [] => Ok []
  | x :: l' => let! y := f x in let! ys := map_all f l' in Ok (y :: ys)
  end.

Lemma map_all_ok {A B} (f : A -> result B) l r : map_all f l = Ok r -> Forall2 (fun x y => f x = Ok y) l r.
Proof.
  revert r. induction l as [|x l IH]; intros r H; cbn [map_all] in H; [injection H as <-; constructor|].
  apply rbind_ok in H as (y & Hy & H). apply rbind_ok in H as (ys & Hys & [= <-]). constructor; [done|by apply IH].
Qed.

(** [type(v) is type(x) and v == x] for the constants of an enumeration *)
Definition scalar_eqb (v x : json) : bool :=
  match v, x with
  | JNull, JNull => true
  | JBool a, JBool b => Bool.eqb a b
  | JInt a, JInt b => a =? b
  | JString a, JString b => bool_decide (a = b)
  | _, _ => false
  end.

(** ** Scalars *)

(** [re.fullmatch('[0-9a-f]{64}', v)] *)
Definition is_hash (s : string) : bool := bool_decide (option_map snd (span_class is_lower_hex 64 s) = Some EmptyString).

(** [str(uuid.UUID(v)) == v]; text the constructor refuses raises the same class of exception. *)
Definition canonical_uuid (s : string) : result bytes :=
  let! bs := of_option (unhex (drop_chars is_dash s)) (ValueError "canonical UUID") in
  do! need ((length bs =? 16)%nat && bool_decide (uuid_text bs = s)) "canonical UUID" in
  Ok bs.

(** [raw = base64.b64decode(v, validate=True)], the bound and the canonical encoding *)
Definition canonical_blob (s : string) : result bytes :=
  let! raw := of_option (b64decode s) (ValueError "Invalid base64-encoded string") in
  do! need ((Z.of_nat (length raw) <=? MAX_IMAGE) && bool_decide (b64encode raw = s)) "canonical base64/bound" in
  Ok raw.

Definition slash : ascii := "/"%char.
Definition relative_path (s : string) : bool :=
  negb (starts_with "/" s)
  && forallb (fun part => negb (bool_decide (part ∈ [""; "."; ".."]%string))) (split_char slash s)
  && negb (contains backslash s).

Definition frame_name (t : string) : option string := strip_prefix "frame:" t.
Definition is_blob (t : string) : bool := bool_decide (t = "blob"%string) || bool_decide (is_Some (frame_name t)).

(** [ins raw name depth] inspects a nested frame. *)
Definition check_scalar (ins : bytes -> string -> Z -> result json) (t : string) (v : json) (depth : Z) : result unit :=
  if bool_decide (t ∈ ["positive"; "counter"; "u8"]%string) then
    match v with
    | JInt z => need (((if bool_decide (t = "positive"%string) then 1 else 0) <=? z)
                      && (z <=? (if bool_decide (t = "u8"%string) then 255 else LONG_MAX))) "scalar integer"
    | _ => Err (ValueError "scalar integer")
    end
  else if bool_decide (t = "bool"%string) then
    match v with JBool _ => Ok tt | _ => Err (ValueError "boolean") end
  else
    match v with
    | JString s =>
        if bool_decide (t = "hash"%string) then need (is_hash s) "hash"
        else if bool_decide (t = "uuid"%string) then let! _ := canonical_uuid s in Ok tt
        else if bool_decide (t ∈ ["id"; "node"]%string) then
          need (is_identity (if bool_decide (t = "node"%string) then 64 else 128) s) "identity"
        else if bool_decide (t ∈ ["text"; "relative"]%string) then
          do! need ((0 <? text_size s) && (text_size s <=? 4096) && negb (bool_decide (Byte.x00 ∈ utf8 s))) "text bound" in
          if bool_decide (t = "relative"%string) then need (relative_path s) "relative path" else Ok tt
        else if is_blob t then
          let! raw := canonical_blob s in
          match frame_name t with
          | Some name => let! _ := ins raw name (depth + 1) in Ok tt
          | None => Ok tt
          end
        else Err (ValueError ("unknown scalar " +:+ t))
    | _ => Err (ValueError "string scalar")
    end.

Fixpoint check_schema (ins : bytes -> string -> Z -> result json) (t : schema) (v : json) (depth : Z) : result unit :=
  do! need (depth <=? 16) "schema depth" in
  match t with
  | SOptional t' => match v with JNull => Ok tt | _ => check_schema ins t' v (depth + 1) end
  | SObject fields =>
      match v with
      | JObject m =>
          do! need (bool_decide ((list_to_set m.*1 : gset string) = list_to_set fields.*1)) "exact object fields" in
          (fix members (fields : list (string * schema)) : result unit :=
             match fields with
             | [] => Ok tt
             | (k, s) :: fields' =>
                 let! x := of_option (assoc_get k m) KeyError in
                 do! check_schema ins s x (depth + 1) in
                 members fields'
             end) fields
      | _ => Err (ValueError "exact object fields")
      end
  | SArray t' lo hi =>
      match v with
      | JArray l =>
          do! need ((lo <=? Z.of_nat (length l)) && (Z.of_nat (length l) <=? hi)) "array bound" in
          check_all (fun item => check_schema ins t' item (depth + 1)) l
      | _ => Err (ValueError "array bound")
      end
  | SEnum values => need (existsb (scalar_eqb v) values) "enum value"
  | SInteger lo hi =>
      match v with JInt z => need ((lo <=? z) && (z <=? hi)) "integer range" | _ => Err (ValueError "integer range") end
  | SName t' => check_scalar ins t' v depth
  end.

(** ** [Reader] *)

Definition binary_truncated : exn := ValueError "truncated binary field".
Definition take_raw (n : Z) : reader bytes := take_bytes binary_truncated n.

Definition read_name (t : string) : reader json :=
  if bool_decide (t = "hash"%string) then let* b := take_raw 32 in ret (JString (hex b))
  else if bool_decide (t = "uuid"%string) then let* b := take_raw 16 in ret (JString (uuid_text b))
  else if bool_decide (t ∈ ["positive"; "counter"]%string) then let* z := read_int binary_truncated 8 in ret (JInt z)
  else if bool_decide (t = "u8"%string) then let* z := read_uint binary_truncated 1 in ret (JInt z)
  else
    let* n := read_int binary_truncated 4 in
    do* needs ((0 <=? n) && (n <=? MAX_IMAGE)) "binary byte bound" in
    let* raw := take_raw n in
    if is_blob t then ret (JString (b64encode raw))
    else let* s := liftr (decode_utf8 UnicodeError raw) in ret (JString s).

Fixpoint read_schema (t : schema) : reader json :=
  match t with
  | SOptional t' =>
      let* tag := take_raw 1 in
      do* needs (bool_decide (tag = [Byte.x00]) || bool_decide (tag = [Byte.x01])) "optional discriminator" in
      if bool_decide (tag = [Byte.x00]) then ret JNull else read_schema t'
  | SArray t' lo hi =>
      let* count := read_int binary_truncated 4 in
      do* needs ((lo <=? count) && (count <=? hi)) "binary count" in
      let* l := times count (read_schema t') in
      ret (JArray l)
  | SObject fields =>
      let* m :=
        (fix members (fields : list (string * schema)) : reader (list (string * json)) :=
           match fields with
           | [] => ret []
           | (k, s) :: fields' =>
               let* x := read_schema s in
               let* rest := members fields' in
               ret ((k, x) :: rest)
           end) fields in
      ret (JObject m)
  | SEnum _ | SInteger _ _ => liftr (Err (ValueError "unknown binary schema"))
  | SName t' => read_name t'
  end.

(** [{k: reader.read(t) for k, t in fields}] *)
Fixpoint read_fields (fields : list (string * schema)) : reader (list (string * json)) :=
  match fields with
  | [] => ret []
  | (k, s) :: fields' =>
      let* x := read_schema s in
      let* rest := read_fields fields' in
      ret ((k, x) :: rest)
  end.

(** ** [scalar] *)

(** [struct.pack('>q', value)] and the like: a value of another type or out of range is refused. *)
Definition pack_int (n : nat) (v : json) : result bytes :=
  match v with
  | JInt z => do! guard (bool_decide (signed_range n z)) StructError in Ok (be_split n z)
  | _ => Err StructError
  end.
Definition pack_byte (v : json) : result bytes :=
  match v with
  | JInt z => do! guard ((0 <=? z) && (z <? 256)) StructError in Ok (be_split 1 z)
  | _ => Err StructError
  end.
Definition pack_length (raw : bytes) : result bytes :=
  do! guard (Z.of_nat (length raw) <? 2 ^ 31) StructError in
  Ok (be_split 4 (Z.of_nat (length raw)) ++ raw).

Section Encoder.
Context (to_ascii : Z -> ascii).

Definition scalar_name (t : string) (v : json) : result bytes :=
  if bool_decide (t = "hash"%string) then
    let! s := as_text v in of_option (from_hex s) (ValueError "non-hexadecimal number found in fromhex() arg")
  else if bool_decide (t = "uuid"%string) then let! s := as_text v in uuid_bytes to_ascii s
  else if bool_decide (t ∈ ["positive"; "counter"]%string) then pack_int 8 v
  else if bool_decide (t = "u8"%string) then pack_byte v
  else
    let! s := as_text v in
    let! raw := (if is_blob t then of_option (b64decode s) (ValueError "Invalid base64-encoded string") else Ok (utf8 s)) in
    pack_length raw.

Fixpoint scalar (t : schema) (v : json) : result bytes :=
  match t with
  | SOptional t' => match v with JNull => Ok [Byte.x00] | _ => let! bs := scalar t' v in Ok (Byte.x01 :: bs) end
  | SArray t' _ _ =>
      let! l := as_list v in
      do! guard (Z.of_nat (length l) <? 2 ^ 31) StructError in
      let! items := map_all (scalar t') l in
      Ok (be_split 4 (Z.of_nat (length l)) ++ concat items)
  | SObject fields =>
      (fix members (fields : list (string * schema)) : result bytes :=
         match fields with
         | [] => Ok []
         | (k, s) :: fields' =>
             let! x := get k v in
             let! bs := scalar s x in
             let! rest := members fields' in
             Ok (bs ++ rest)
         end) fields
  | SEnum _ | SInteger _ _ => Err (ValueError "unsupported binary schema")
  | SName t' => scalar_name t' v
  end.

(** [b''.join(scalar(t, value[n]) for n, t in fields)] *)
Fixpoint scalar_fields (fields : list (string * schema)) (v : json) : result bytes :=
  match fields with
  | [] => Ok []
  | (k, s) :: fields' =>
      let! x := get k v in
      let! bs := scalar s x in
      let! rest := scalar_fields fields' v in
      Ok (bs ++ rest)
  end.
End Encoder.
