(* ===== verification/JsonProofs.v ===== *)
(** * Canonical JSON is read back

    [loads] reads the text [dumps] writes to the value it was written from, with the members of its
    objects in the order of their keys. *)

From Stdlib Require Import Ascii.
From stdpp Require Import base list sets strings sorting pretty.
From S2P Require Import Prelude Bytes Files Json ReplicaFrames TextCodes.
Local Open Scope Z_scope.

(** ** Code points *)

(** What UTF-8 can encode *)
Definition scalar_value (z : Z) : Prop := 0 <= z < 55296 \/ 57344 <= z < 1114112.

Lemma between_range lo hi b : between lo hi b = true -> lo <= b2z b <= hi.
Proof. unfold between. intros H. apply andb_true_iff in H as [H1 H2]. lia. Qed.
Lemma between_false hi b : between 0 hi b = false -> hi < b2z b.
Proof. unfold between. intros H. pose proof (b2z_range b). apply andb_false_iff in H as [H|H]; lia. Qed.

Lemma between_other k b : between k k b = false -> b2z b <> k.
Proof. unfold between. intros H. apply andb_false_iff in H as [H|H]; lia. Qed.

Lemma z2b_eq b z : z = b2z b -> z2b z = b.
Proof. intros ->. apply z2b_b2z. Qed.

Lemma cons_eq {A} (x y : A) l l' : x = y -> l = l' -> x :: l = y :: l'.
Proof. by intros -> ->. Qed.

Ltac point_bytes :=
  repeat match goal with H : between _ _ _ = true |- _ => apply between_range in H end;
  unfold utf8_point; repeat (case_match; try lia);
  repeat (apply cons_eq; [apply z2b_eq; Z.to_euclidean_division_equations; lia|]); reflexivity.

Lemma code_points_valid bs :
  utf8_valid bs = true -> Forall scalar_value (code_points bs) /\ concat (utf8_point <$> code_points bs) = bs.
Proof.
  remember (length bs) as n eqn:Hn. assert (length bs <= n)%nat as Hle by lia. clear Hn. revert bs Hle.
  induction n as [|n IH]; intros bs Hle Hv; [destruct bs; [by split|cbn in Hle; lia]|].
  destruct bs as [|a bs]; [by split|]. cbn [length] in Hle. cbn [utf8_valid code_points] in Hv |- *.
  destruct (between 0 127 a) eqn:Ea.
  { destruct (IH bs ltac:(lia) Hv) as [H1 H2]. rewrite fmap_cons. cbn [concat]. split.
    - constructor; [|done]. apply between_range in Ea. left. lia.
    - rewrite H2. assert (utf8_point (b2z a) = [a]) as ->; [|done]. point_bytes. }
  destruct bs as [|b bs]; [done|]. cbn [length] in Hle. unfold continuation in *. apply between_false in Ea.
  destruct (between 194 223 a) eqn:E2.
  { apply andb_true_iff in Hv as [Hb Hv]. destruct (IH bs ltac:(lia) Hv) as [H1 H2].
    pose proof (between_range _ _ _ E2). pose proof (between_range _ _ _ Hb). rewrite (proj2 (Z.ltb_lt _ _)) by lia.
    rewrite fmap_cons. cbn [concat]. rewrite H2. split; [constructor; [left; lia|done]|].
    assert (utf8_point ((b2z a - 192) * 64 + (b2z b - 128)) = [a; b]) as ->; [|done]. point_bytes. }
  destruct bs as [|c bs]; [done|]. cbn [length] in Hle.
  assert (forall v, v && utf8_valid bs = true ->
            let z := ((b2z a - 224) * 64 + (b2z b - 128)) * 64 + (b2z c - 128) in
            scalar_value z -> utf8_point z = [a; b; c] ->
            Forall scalar_value (z :: code_points bs) /\ concat (utf8_point <$> z :: code_points bs) = a :: b :: c :: bs) as Hthree.
  { intros v Hb z Hs Hp. apply andb_true_iff in Hb as [_ Hb]. destruct (IH bs ltac:(lia) Hb) as [H1 H2].
    rewrite fmap_cons. cbn [concat]. rewrite H2, Hp. by split; [constructor|]. }
  destruct (between 224 224 a) eqn:E3; [|destruct (between 237 237 a) eqn:E4; [|destruct (between 225 239 a) eqn:E5]].
  1-3: pose proof Hv as Hw; rewrite !andb_true_iff in Hw; destruct_and! Hw;
    try apply between_other in E4;
    repeat match goal with H : between _ _ _ = true |- _ => apply between_range in H end;
    rewrite (proj2 (Z.ltb_ge (b2z a) 224)), (proj2 (Z.ltb_lt (b2z a) 240)) by lia;
    eapply Hthree; [exact Hv|unfold scalar_value; lia|point_bytes].
  destruct bs as [|d bs]; [done|]. cbn [length] in Hle.
  assert (exists v, v && utf8_valid bs = true /\ 240 <= b2z a <= 244 /\ 128 <= b2z b <= 191 /\ 128 <= b2z c <= 191 /\ 128 <= b2z d <= 191 /\
          (b2z a = 240 -> 144 <= b2z b) /\ (b2z a = 244 -> b2z b <= 143)) as (v & Hw & Ha & Hb & Hc & Hd & Hlo & Hhi).
  { destruct (between 240 240 a) eqn:E6; [|destruct (between 241 243 a) eqn:E7; [|destruct (between 244 244 a) eqn:E8; [|done]]].
    all: eexists; split; [exact Hv|]; rewrite !andb_true_iff in Hv; destruct_and! Hv;
      repeat match goal with H : between _ _ _ = true |- _ => apply between_range in H end; lia. }
  apply andb_true_iff in Hw as [_ Hw]. destruct (IH bs ltac:(lia) Hw) as [H1 H2].
  rewrite (proj2 (Z.ltb_ge (b2z a) 224)), (proj2 (Z.ltb_ge (b2z a) 240)) by lia. rewrite fmap_cons. cbn [concat]. rewrite H2. split; [constructor; [right; lia|done]|].
  match goal with |- utf8_point ?z ++ _ = _ => assert (utf8_point z = [a; b; c; d]) as ->; [|done] end. point_bytes.
Qed.

(** ** String literals *)

Lemma str_cons c s t : String c s +:+ t = String c (s +:+ t).
Proof. done. Qed.
Lemma str_nil t : "" +:+ t = t.
Proof. done. Qed.

Ltac string_heads := repeat first [rewrite str_cons | rewrite str_nil].

Ltac string_head c := match goal with |- context [String c "" +:+ ?s] => change (String c "" +:+ s) with (String c s) end.

Lemma join_empty_cons p l : join "" (p :: l) = p +:+ join "" l.
Proof. destruct l; [by rewrite append_nil_r|]. done. Qed.

Lemma code_ascii z : 0 <= z < 256 -> code (ascii_of_N (Z.to_N z)) = z.
Proof. intros H. unfold code. rewrite N_ascii_embedding by lia. lia. Qed.

Lemma hex_quad_hex4 z rest : 0 <= z < 65536 -> hex_quad (hex4 z +:+ rest) = Some (z, rest).
Proof.
  intros Hz. unfold hex4. change (be_split 2 z) with [z2b (z / 256); z2b z]. cbn [hex]. rewrite !str_cons, str_nil. cbn [hex_quad].
  rewrite !b2z_z2b, !hex_value_digit by (Z.to_euclidean_division_equations; lia).
  f_equal. f_equal. Z.to_euclidean_division_equations; lia.
Qed.

Definition add_bytes (bs : bytes) (p : bytes * string) : bytes * string := (bs ++ p.1, p.2).

Lemma parse_escaped fuel z rest :
  0 <= z < 55296 \/ 57344 <= z < 65536 ->
  parse_chars (S fuel) (unicode_escape z +:+ rest) = option_map (add_bytes (utf8_point z)) (parse_chars fuel rest).
Proof.
  intros Hz. unfold unicode_escape, backslash. string_heads. cbn [parse_chars].
  change (code (ascii_of_nat 92)) with 92. change (code "u") with 117. cbn [Z.eqb Pos.eqb].
  rewrite hex_quad_hex4 by lia.
  assert ((z <? 55296) || (57343 <? z) = true) as -> by (apply orb_true_iff; lia). done.
Qed.

Lemma parse_pair fuel z rest :
  65536 <= z < 1114112 ->
  parse_chars (S fuel) (unicode_escape (55296 + (z - 65536) / 1024) +:+ unicode_escape (56320 + (z - 65536) mod 1024) +:+ rest)
  = option_map (add_bytes (utf8_point z)) (parse_chars fuel rest).
Proof.
  intros Hz. unfold unicode_escape, backslash. string_heads. cbn [parse_chars].
  change (code (ascii_of_nat 92)) with 92. change (code "u") with 117. cbn [Z.eqb Pos.eqb].
  rewrite hex_quad_hex4 by (Z.to_euclidean_division_equations; lia).
  assert ((55296 + (z - 65536) / 1024 <? 55296) || (57343 <? 55296 + (z - 65536) / 1024) = false) as ->
    by (apply orb_false_iff; Z.to_euclidean_division_equations; lia).
  assert (55296 + (z - 65536) / 1024 <? 56320 = true) as -> by (Z.to_euclidean_division_equations; lia).
  change (code (ascii_of_nat 92)) with 92. change (code "u") with 117. cbn [Z.eqb Pos.eqb andb].
  rewrite hex_quad_hex4 by (Z.to_euclidean_division_equations; lia).
  assert ((56320 <=? 56320 + (z - 65536) mod 1024) && (56320 + (z - 65536) mod 1024 <=? 57343) = true) as ->
    by (apply andb_true_iff; Z.to_euclidean_division_equations; lia).
  assert (65536 + (55296 + (z - 65536) / 1024 - 55296) * 1024 + (56320 + (z - 65536) mod 1024 - 56320) = z) as -> by
    (Z.to_euclidean_division_equations; lia). done.
Qed.

Lemma parse_escape fuel z rest :
  scalar_value z ->
  parse_chars (S fuel) (escape z +:+ rest) = option_map (add_bytes (utf8_point z)) (parse_chars fuel rest).
Proof.
  intros Hz. unfold scalar_value in Hz. unfold escape.
  repeat match goal with |- context [if ?a =? ?b then _ else _] => destruct (Z.eqb_spec a b); [subst; reflexivity|] end.
  destruct (_ && _) eqn:Hp.
  - apply andb_true_iff in Hp as [H1 H2]. rewrite str_cons, str_nil. cbn [parse_chars]. rewrite code_ascii by lia.
    rewrite (proj2 (Z.eqb_neq z 34)), (proj2 (Z.eqb_neq z 92)), (proj2 (Z.ltb_ge z 32)) by lia.
    unfold utf8_point. by rewrite (proj2 (Z.ltb_lt z 128)) by lia.
  - destruct (z <? 65536) eqn:He; [apply parse_escaped; lia|]. rewrite append_assoc. apply parse_pair. lia.
Qed.

Lemma parse_text zs fuel rest :
  Forall scalar_value zs -> (length zs < fuel)%nat ->
  parse_chars fuel (join "" (escape <$> zs) +:+ quote_char +:+ rest) = Some (concat (utf8_point <$> zs), rest).
Proof.
  revert fuel. induction zs as [|z zs IH]; intros [|fuel] Hs Hf; cbn [length] in Hf; try lia; [done|].
  apply Forall_cons in Hs as [Hz Hs]. rewrite fmap_cons, join_empty_cons, append_assoc, parse_escape, IH by (done || lia). done.
Qed.

Lemma length_escape z : (1 <= String.length (escape z))%nat.
Proof.
  unfold escape. repeat case_match; unfold unicode_escape, backslash, quote_char; rewrite ?append_length; cbn [String.length]; lia.
Qed.

Lemma length_escapes zs : (length zs <= String.length (join "" (escape <$> zs)))%nat.
Proof.
  induction zs as [|z zs IH]; [done|]. rewrite fmap_cons, join_empty_cons, append_length. cbn [length].
  pose proof (length_escape z). lia.
Qed.

Lemma parse_quoted s rest :
  is_text s = true ->
  exists tail bs, quote s +:+ rest = String (ascii_of_nat 34) tail /\ str_of_bytes bs = s /\
                  forall fuel, (String.length (quote s) <= fuel)%nat -> parse_chars fuel tail = Some (bs, rest).
Proof.
  intros Ht. destruct (code_points_valid _ Ht) as [Hs Hc]. unfold quote.
  exists (join "" (escape <$> code_points (utf8 s)) +:+ quote_char +:+ rest), (utf8 s).
  split; [by rewrite !append_assoc|]. split; [apply str_utf8|]. intros fuel Hf.
  rewrite parse_text; [by rewrite Hc|done|].
  rewrite append_length, append_length in Hf. pose proof (length_escapes (code_points (utf8 s))). cbn in Hf. lia.
Qed.

(** ** Integers *)

Definition no_digit (s : string) : Prop := match s with String c _ => is_digit c = false | EmptyString => True end.

Lemma digit_char d : (d < 10)%N -> code (pretty_N_char d) = 48 + Z.of_N d.
Proof.
  intros H. assert (d = 0 \/ d = 1 \/ d = 2 \/ d = 3 \/ d = 4 \/ d = 5 \/ d = 6 \/ d = 7 \/ d = 8 \/ d = 9)%N as Hd by lia.
  destruct_or! Hd; subst; reflexivity.
Qed.

Lemma digit_char_ok d : (d < 10)%N -> is_digit (pretty_N_char d) = true.
Proof. intros H. unfold is_digit. rewrite digit_char by done. lia. Qed.

Lemma mod_ten x : (x mod 10 < 10)%N.
Proof. apply N.mod_lt. done. Qed.

(** What a function of the printed digits is, from its value on the last digits *)
Lemma pretty_go_ind (P : N -> string -> Prop) :
  (forall s, P 0%N s) ->
  (forall x s, (0 < x)%N -> P (x / 10)%N (String (pretty_N_char (x mod 10)) s) -> P x s) ->
  forall x s, P x s.
Proof.
  intros H0 Hs x. induction (N.lt_wf_0 x) as [x _ IH]; intros s.
  destruct (decide (x = 0%N)) as [->|Hx]; [apply H0|]. apply Hs; [lia|]. apply IH, N.div_lt; lia.
Qed.

Lemma pretty_go_app x s : forall t, pretty_N_go x (s +:+ t) = pretty_N_go x s +:+ t.
Proof.
  revert x s. apply (pretty_go_ind (fun x s => forall t, pretty_N_go x (s +:+ t) = pretty_N_go x s +:+ t)); [done|].
  intros x s Hx IH t. rewrite !(pretty_N_go_step x) by done. by rewrite <- str_cons, IH.
Qed.

Lemma pretty_go_decimal x s : decimal 0 (pretty_N_go x s) = decimal (Z.of_N x) s.
Proof.
  revert x s. apply (pretty_go_ind (fun x s => decimal 0 (pretty_N_go x s) = decimal (Z.of_N x) s)); [done|].
  intros x s Hx IH. rewrite (pretty_N_go_step x) by done. rewrite IH. cbn [decimal].
  rewrite digit_char by apply mod_ten. f_equal. rewrite N2Z.inj_div, N2Z.inj_mod. Z.to_euclidean_division_equations; lia.
Qed.

Lemma pretty_go_span x s : span_digits (pretty_N_go x s) = (pretty_N_go x (span_digits s).1, (span_digits s).2).
Proof.
  revert x s.
  apply (pretty_go_ind (fun x s => span_digits (pretty_N_go x s) = (pretty_N_go x (span_digits s).1, (span_digits s).2))).
  - intros s. rewrite !pretty_N_go_0. by destruct (span_digits s).
  - intros x s Hx IH. rewrite (pretty_N_go_step x) by done. rewrite IH. cbn [span_digits].
    rewrite digit_char_ok by apply mod_ten. cbn [fst snd]. by rewrite (pretty_N_go_step x) by done.
Qed.

Lemma pretty_go_head x s :
  (0 < x)%N -> exists d s', (0 < d < 10)%N /\ pretty_N_go x s = String (pretty_N_char d) s'.
Proof.
  revert x s. apply (pretty_go_ind (fun x s => (0 < x)%N -> exists d s', (0 < d < 10)%N /\ pretty_N_go x s = String (pretty_N_char d) s')); [lia|].
  intros x s Hx IH _. rewrite (pretty_N_go_step x) by done. destruct (decide (x / 10 = 0)%N) as [E|E].
  - rewrite E, pretty_N_go_0. exists (x mod 10)%N, s. split; [|done].
    pose proof (N.div_mod x 10 ltac:(done)). pose proof (mod_ten x). lia.
  - by apply IH, N.neq_0_lt_0.
Qed.

Lemma span_no_digit s : no_digit s -> span_digits s = (EmptyString, s).
Proof. destruct s as [|c s]; [done|]. cbn. by intros ->. Qed.

Lemma parse_positive p rest :
  no_digit rest -> exists d s', (0 < d < 10)%N /\ pretty (Z.pos p) +:+ rest = String (pretty_N_char d) s' /\
                                parse_natural (pretty (Z.pos p) +:+ rest) = Some (Z.pos p, rest).
Proof.
  intros Hr. change (pretty (Z.pos p)) with (pretty_N_go (N.pos p) ""). rewrite <- pretty_go_app. rewrite str_nil.
  destruct (pretty_go_head (N.pos p) rest ltac:(lia)) as (d & s' & Hd & Hh). exists d, s'. split; [done|]. split; [done|].
  unfold parse_natural. rewrite pretty_go_span, (span_no_digit rest) by done. cbn [fst snd].
  destruct (pretty_go_head (N.pos p) "" ltac:(lia)) as (d' & t & Hd' & Ht).
  assert (decimal 0 (pretty_N_go (N.pos p) "") = Z.pos p) as Hv by (rewrite pretty_go_decimal; done).
  rewrite Ht in Hv |- *. destruct t as [|c t]; [by rewrite Hv|].
  rewrite digit_char, (proj2 (Z.eqb_neq _ _)) by lia. by rewrite Hv.
Qed.

Lemma space_code c : code c <> 32 -> code c <> 9 -> code c <> 10 -> code c <> 13 -> is_space c = false.
Proof. intros. unfold is_space. rewrite !orb_false_iff, !Z.eqb_neq. done. Qed.

Lemma skip_char c t : is_space c = false -> skip_space (String c t) = String c t.
Proof. intros H. cbn [skip_space]. by rewrite H. Qed.

Lemma parse_integer fuel z rest :
  no_digit rest -> parse_value (S fuel) (pretty z +:+ rest) = Some (JInt z, rest).
Proof.
  intros Hr. destruct z as [|p|p].
  - change (pretty 0) with "0"%string. rewrite str_cons, str_nil. cbn [parse_value]. rewrite skip_char by done. cbn iota. change (code "0") with 48. cbn [Z.eqb].
    unfold parse_natural. cbn [span_digits]. change (is_digit "0") with true. cbn iota. by rewrite span_no_digit.
  - destruct (parse_positive p rest Hr) as (d & s' & Hd & Hh & Hp). rewrite Hh in Hp |- *. cbn [parse_value]. rewrite skip_char by (apply space_code; rewrite digit_char by lia; lia). cbn iota.
    assert (d = 1 \/ d = 2 \/ d = 3 \/ d = 4 \/ d = 5 \/ d = 6 \/ d = 7 \/ d = 8 \/ d = 9)%N as Hc by lia.
    destruct_or! Hc; subst d; cbn [pretty_N_char] in Hp |- *; rewrite Hp; reflexivity.
  - destruct (parse_positive p rest Hr) as (d & s' & Hd & Hh & Hp).
    change (pretty (Z.neg p)) with ("-" +:+ pretty (Z.pos p)). string_heads. cbn [parse_value]. rewrite skip_char by done. cbn iota. rewrite Hp. reflexivity.
Qed.

(** ** Values *)

Section json_induction.
Context (P : json -> Prop) (Hnull : P JNull) (Hbool : forall b, P (JBool b)) (Hint : forall z, P (JInt z))
        (Hstring : forall s, P (JString s)) (Harray : forall l, Forall P l -> P (JArray l))
        (Hobject : forall m : list (string * json), Forall (fun kv => P kv.2) m -> P (JObject m)).

Fixpoint json_nested (j : json) : P j :=
  match j with
  | JNull => Hnull
  | JBool b => Hbool b
  | JInt z => Hint z
  | JString s => Hstring s
  | JArray l => Harray l ((fix go l := match l return Forall P l with
                                       | [] => Forall_nil_2 _
                                       | v :: l => Forall_cons_2 _ _ _ (json_nested v) (go l)
                                       end) l)
  | JObject m => Hobject m ((fix go m := match m return Forall (fun kv : string * json => P kv.2) m with
                                         | [] => Forall_nil_2 _
                                         | kv :: m => Forall_cons_2 _ _ _ (json_nested kv.2) (go m)
                                         end) m)
  end.
End json_induction.

Definition key_le (a b : string * json) : Prop := string_le a.1 b.1.
#[export] Instance key_le_dec : RelDecision key_le.
Proof. intros a b. unfold key_le. apply _. Defined.

(** The members of objects in the order of their keys *)
Fixpoint normal (j : json) : json :=
  match j with
  | JArray l => JArray (map normal l)
  | JObject m => JObject (merge_sort key_le (map (fun kv => (fst kv, normal (snd kv))) m))
  | _ => j
  end.

(** Strings are texts and the keys of an object differ, as in any Python value *)
Fixpoint well_formed (j : json) : bool :=
  match j with
  | JString s => is_text s
  | JArray l => forallb well_formed l
  | JObject m => bool_decide (NoDup m.*1) && forallb (fun kv => is_text (fst kv) && well_formed (snd kv)) m
  | _ => true
  end.

(** Sorting by a key commutes with mapping the values *)
Section sort_map.
Context {A B} (R : relation A) (S : relation B) `{!RelDecision R} `{!RelDecision S} (f : A -> B)
        (Hf : forall x y, S (f x) (f y) <-> R x y).

Lemma list_merge_map l1 l2 : list_merge S (f <$> l1) (f <$> l2) = f <$> list_merge R l1 l2.
Proof.
  revert l2. induction l1 as [|x l1 IH1]; intros l2; [by destruct l2|].
  induction l2 as [|y l2 IH2]; [done|]. rewrite !fmap_cons. cbn [list_merge].
  destruct (decide (R x y)) as [H|H].
  - rewrite decide_True by (by apply Hf). rewrite fmap_cons. f_equal. apply (IH1 (y :: l2)).
  - rewrite decide_False by (by rewrite Hf). rewrite fmap_cons. f_equal. apply IH2.
Qed.

Let stacks (st : list (option (list A))) : list (option (list B)) := map (option_map (map f)) st.

Lemma merge_to_stack_map st l : merge_list_to_stack S (stacks st) (map f l) = stacks (merge_list_to_stack R st l).
Proof.
  revert l. induction st as [|[s|] st IH]; intros l; [done| |done].
  cbn. rewrite (list_merge_map s l : list_merge S (map f s) (map f l) = map f (list_merge R s l)). f_equal. apply IH.
Qed.

Lemma merge_stack_map st : merge_stack S (stacks st) = map f (merge_stack R st).
Proof.
  induction st as [|[s|] st IH]; [done| |exact IH]. cbn. fold (stacks st). rewrite IH. apply list_merge_map.
Qed.

Lemma merge_sort_map l : merge_sort S (map f l) = map f (merge_sort R l).
Proof.
  unfold merge_sort. change (@nil (option (list B))) with (stacks []).
  generalize (@nil (option (list A))). induction l as [|x l IH]; intros st; [apply merge_stack_map|].
  cbn [map merge_sort_aux]. change [f x] with (map f [x]). by rewrite merge_to_stack_map, IH.
Qed.
End sort_map.

Lemma dumps_head j : exists c t, dumps j = String c t /\ code c <> 93 /\ is_space c = false.
Proof.
  destruct j as [|[]|z|s|l|m].
  1-3: by do 2 eexists.
  - destruct z as [|p|p]; [by do 2 eexists| |by do 2 eexists].
    destruct (pretty_go_head (N.pos p) "" ltac:(lia)) as (d & t & Hd & Ht). exists (pretty_N_char d), t. split; [exact Ht|].
    split; [|apply space_code]; rewrite digit_char by lia; lia.
  - by do 2 eexists.
  - by do 2 eexists.
  - by do 2 eexists.
Qed.

(** [loads] reads [j] back, before any text that does not continue a number *)
Definition reads (j : json) : Prop :=
  forall fuel rest, no_digit rest -> well_formed j = true -> (2 * String.length (dumps j) <= fuel)%nat ->
                    parse_value fuel (dumps j +:+ rest) = Some (normal j, rest).

Lemma parse_items_ok l : l <> [] -> Forall reads l ->
  forall fuel rest acc, forallb well_formed l = true -> (2 * String.length (join "," (map dumps l)) + 1 <= fuel)%nat ->
  parse_items fuel (join "," (map dumps l) +:+ "]" +:+ rest) acc = Some (JArray (acc ++ map normal l), rest).
Proof.
  intros Hne Hl. induction Hl as [|v l Hv Hl IH]; [done|]. intros [|fuel] rest acc Hw Hf; [lia|].
  cbn [forallb] in Hw. apply andb_true_iff in Hw as [Hwv Hw]. destruct l as [|w l].
  - cbn [map join] in Hf |- *. cbn [parse_items]. rewrite Hv by (done || lia). done.
  - change (join "," (map dumps (v :: w :: l))) with (dumps v +:+ "," +:+ join "," (map dumps (w :: l))) in Hf |- *.
    rewrite !append_length in Hf. cbn [String.length] in Hf. rewrite !append_assoc. cbn [parse_items]. rewrite Hv by (done || lia).
    string_head ","%char. rewrite skip_char by done. cbn iota. change (code ",") with 44. cbn [Z.eqb Pos.eqb].
    rewrite IH by (done || lia). by rewrite <- app_assoc.
Qed.

Definition rendered (m : list (string * json)) : string :=
  join "," (map render_member (map (fun kv => (fst kv, dumps (snd kv))) m)).
Definition member_ok (kv : string * json) : bool := is_text kv.1 && well_formed kv.2.

Lemma length_rendered kv m : String.length (rendered (kv :: m)) =
  (String.length (quote kv.1) + 1 + String.length (dumps kv.2) + match m with [] => 0 | _ => S (String.length (rendered m)) end)%nat.
Proof.
  destruct m as [|kv' m]; unfold rendered.
  - cbn [map join fst snd]. unfold render_member. rewrite !append_length. cbn [String.length fst snd]. lia.
  - cbn [map join fst snd]. rewrite !append_length. unfold render_member at 1. rewrite !append_length. cbn [String.length fst snd map join]. lia.
Qed.

Lemma parse_members_ok m : m <> [] -> Forall (fun kv => reads kv.2) m ->
  forall fuel rest acc, forallb member_ok m = true -> NoDup (acc.*1 ++ m.*1) -> (2 * String.length (rendered m) + 1 <= fuel)%nat ->
  parse_members fuel (rendered m +:+ "}" +:+ rest) acc = Some (JObject (acc ++ map (fun kv => (fst kv, normal (snd kv))) m), rest).
Proof.
  intros Hne Hm. induction Hm as [|[k v] m Hv Hm IH]; [done|]. intros [|fuel] rest acc Hw Hd Hf; [lia|].
  cbn [forallb] in Hw. apply andb_true_iff in Hw as [Hwv Hw]. apply andb_true_iff in Hwv as [Hk Hwv]. cbn [fst snd] in *.
  pose proof (length_rendered (k, v) m) as Hlen. cbn [fst snd] in Hlen.
  assert (exists more, rendered ((k, v) :: m) +:+ "}" +:+ rest = quote k +:+ ":" +:+ dumps v +:+ more /\
            match m with [] => more = "}" +:+ rest | _ => more = "," +:+ rendered m +:+ "}" +:+ rest end) as (more & Htext & Hmore).
  { destruct m as [|kv' m]; eexists; (split; [|reflexivity]); unfold rendered; cbn [map join fst snd]; unfold render_member at 1;
      cbn [fst snd]; by rewrite !append_assoc. }
  rewrite Htext. destruct (parse_quoted k (":" +:+ dumps v +:+ more) Hk) as (tail & bs & Hq & Hb & Hp).
  rewrite Hq. cbn [parse_members]. rewrite skip_char by done. cbn iota. change (code (ascii_of_nat 34)) with 34. cbn [Z.eqb Pos.eqb]. rewrite <- Hq, Hp by (rewrite append_length; lia).
  string_head ":"%char. rewrite skip_char by done. cbn iota. change (code ":") with 58. cbn [Z.eqb Pos.eqb].
  assert (k ∉ acc.*1) as Hfresh.
  { rewrite fmap_cons in Hd. cbn [fst] in Hd. apply NoDup_app in Hd as (_ & Hd & _). intros Hin. apply (Hd _ Hin). set_solver. }
  rewrite Hb. destruct m as [|kv' m].
  - subst more. rewrite Hv by (done || lia). string_head "}"%char. rewrite skip_char by done. cbn iota. change (code "}") with 125. cbn [Z.eqb Pos.eqb].
    by rewrite assoc_set_fresh.
  - subst more. rewrite Hv by (done || lia). string_head ","%char. rewrite skip_char by done. cbn iota. change (code ",") with 44. cbn [Z.eqb Pos.eqb].
    rewrite assoc_set_fresh by done. rewrite IH; [by rewrite <- app_assoc|done|done| |lia].
    rewrite fmap_app, <- app_assoc. exact Hd.
Qed.

Lemma dumps_members m : dumps (JObject m) = "{" +:+ rendered (merge_sort key_le m) +:+ "}".
Proof.
  cbn [dumps]. unfold rendered. do 2 f_equal. unfold fmap, list_fmap.
  by rewrite (merge_sort_map key_le member_le (fun kv : string * json => (fst kv, dumps (snd kv)))).
Qed.

Lemma normal_members m :
  normal (JObject m) = JObject (map (fun kv => (fst kv, normal (snd kv))) (merge_sort key_le m)).
Proof. cbn [normal]. by rewrite (merge_sort_map key_le key_le (fun kv : string * json => (fst kv, normal (snd kv)))). Qed.

Lemma sorted_members_ok m :
  well_formed (JObject m) = true ->
  NoDup (merge_sort key_le m).*1 /\ forallb member_ok (merge_sort key_le m) = true.
Proof.
  cbn [well_formed]. intros H. apply andb_true_iff in H as [Hd Hm]. apply bool_decide_eq_true in Hd. split.
  - by rewrite merge_sort_Permutation.
  - apply forallb_forall. intros kv Hkv. apply list_elem_of_In in Hkv. rewrite merge_sort_Permutation in Hkv.
    apply list_elem_of_In in Hkv. exact (proj1 (forallb_forall _ _) Hm _ Hkv).
Qed.

Lemma text_fuel j fuel : (2 * String.length (dumps j) <= fuel)%nat -> exists fuel', fuel = S fuel'.
Proof. destruct (dumps_head j) as (c & t & -> & _), fuel as [|fuel]; cbn [String.length]; [lia|]. by exists fuel. Qed.

Lemma parse_array fuel s rest v :
  (exists c t, s = String c t /\ code c <> 93 /\ is_space c = false) -> parse_items fuel (s +:+ rest) [] = v ->
  parse_value (S fuel) ("[" +:+ s +:+ rest) = v.
Proof.
  intros (c & t & -> & Hc & Hs) Hp. string_head "["%char. rewrite str_cons in Hp |- *. cbn [parse_value].
  rewrite skip_char by done. change (code "[") with 91. cbn iota. rewrite skip_char by done.
  by rewrite (proj2 (Z.eqb_neq _ _)) by done.
Qed.

Lemma parse_object fuel s rest v :
  (exists t, s = String (ascii_of_nat 34) t) -> parse_members fuel (s +:+ rest) [] = v ->
  parse_value (S fuel) ("{" +:+ s +:+ rest) = v.
Proof. intros (t & ->) Hp. exact Hp. Qed.

Lemma join_head p l t c : p = String c t -> exists t', join "," (p :: l) = String c t'.
Proof. intros ->. destruct l; by eexists. Qed.

Lemma reads_back j : reads j.
Proof.
  induction j as [|b|z|s|l IH|m IH] using json_nested; intros fuel rest Hr Hw Hf; destruct (text_fuel _ _ Hf) as [f ->].
  - done.
  - by destruct b.
  - by apply parse_integer.
  - destruct (parse_quoted s rest Hw) as (tail & bs & Hq & Hb & Hp). change (dumps (JString s)) with (quote s).
    rewrite Hq. cbn [parse_value]. rewrite skip_char by done. cbn iota. change (code (ascii_of_nat 34)) with 34. cbn iota. rewrite <- Hq, Hp by (rewrite append_length; lia).
    cbn [option_map fst snd]. by rewrite Hb.
  - destruct l as [|v l]; [done|]. change (dumps (JArray (v :: l))) with ("[" +:+ join "," (map dumps (v :: l)) +:+ "]") in Hf |- *.
    rewrite !append_length in Hf. cbn [String.length] in Hf. rewrite !append_assoc. apply parse_array.
    + destruct (dumps_head v) as (c & t & Hv & Hc & Hs). destruct (join_head _ (map dumps l) _ _ Hv) as [t' Ht]. by exists c, t'.
    + by rewrite parse_items_ok by (done || lia).
  - rewrite dumps_members in Hf |- *. destruct (sorted_members_ok _ Hw) as [Hd Hok]. rewrite normal_members.
    assert (Forall (fun kv => reads kv.2) (merge_sort key_le m)) as Hm by (by rewrite merge_sort_Permutation).
    destruct (merge_sort key_le m) as [|kv l]; [done|]. rewrite !append_length in Hf. cbn [String.length] in Hf.
    rewrite !append_assoc. apply parse_object.
    + unfold rendered. cbn [map]. apply (join_head _ _ (join "" (escape <$> code_points (utf8 kv.1)) +:+ quote_char +:+ ":" +:+ dumps kv.2)).
      unfold render_member, quote. cbn [fst snd]. by rewrite !append_assoc.
    + by rewrite parse_members_ok by (done || lia).
Qed.

Lemma loads_dumps_normal j : well_formed j = true -> loads (dumps j) = Some (normal j).
Proof.
  intros Hw. unfold loads. rewrite <- (append_nil_r (dumps j)) at 2.
  rewrite reads_back by (done || lia). done.
Qed.

(** ** The order of members *)

Lemma string_le_cons a s b t :
  string_le (String a s) (String b t) <-> (N_of_ascii a < N_of_ascii b)%N \/ a = b /\ string_le s t.
Proof.
  unfold string_le, String.leb. cbn [String.compare]. unfold Ascii.compare.
  destruct (N.compare_spec (N_of_ascii a) (N_of_ascii b)) as [E|E|E].
  - apply (f_equal ascii_of_N) in E as E'. rewrite !ascii_N_embedding in E'. subst b. split; [by right|].
    intros [H|[_ H]]; [lia|done].
  - split; [by left|done].
  - split; [done|]. intros [H|[-> _]]; lia.
Qed.

#[export] Instance string_le_trans : Transitive string_le.
Proof.
  intros s t. revert s. induction t as [|b t IH]; intros [|a s] [|c u] H1 H2; try done.
  rewrite string_le_cons in H1, H2 |- *. destruct H1 as [H1|[-> H1]], H2 as [H2|[-> H2]]; [left; lia|by left|by left|].
  right. split; [done|]. by apply IH.
Qed.
#[export] Instance key_le_trans : Transitive key_le.
Proof. intros a b c. unfold key_le. apply string_le_trans. Qed.
#[export] Instance key_le_total : Total key_le.
Proof. intros a b. apply String.leb_total. Qed.

Lemma key_le_keys m x y : NoDup m.*1 -> x ∈ m -> y ∈ m -> key_le x y -> key_le y x -> x = y.
Proof.
  intros Hd Hx Hy H1 H2. pose proof (String.leb_antisym _ _ H1 H2) as Hk. destruct x as [k v], y as [k' v']. cbn in Hk. subst k'.
  apply list_elem_of_lookup in Hx as [i Hi], Hy as [j Hj].
  assert (m.*1 !! i = Some k /\ m.*1 !! j = Some k) as [Hi' Hj'] by (split; rewrite list_lookup_fmap; [by rewrite Hi|by rewrite Hj]).
  pose proof (NoDup_lookup _ _ _ _ Hd Hi' Hj'). congruence.
Qed.

Lemma sort_sorted m : NoDup m.*1 -> merge_sort key_le (merge_sort key_le m) = merge_sort key_le m.
Proof.
  intros Hd. apply (Sorted_unique_strong key_le); [|apply (Sorted_merge_sort _)|apply (Sorted_merge_sort _)|apply merge_sort_Permutation].
  intros x y Hx Hy. rewrite !merge_sort_Permutation in Hx. rewrite merge_sort_Permutation in Hy. by apply key_le_keys with m.
Qed.

Lemma rendered_ext (g : json -> json) m :
  Forall (fun kv => dumps (g kv.2) = dumps kv.2) m -> rendered (map (fun kv => (fst kv, g (snd kv))) m) = rendered m.
Proof.
  intros H. unfold rendered. do 2 f_equal. rewrite map_map. apply map_ext_Forall. eapply Forall_impl; [exact H|]. intros kv Hv. cbn. by rewrite Hv.
Qed.

Lemma dumps_normal j : well_formed j = true -> dumps (normal j) = dumps j.
Proof.
  induction j as [|b|z|s|l IH|m IH] using json_nested; intros Hw; try done.
  - cbn [well_formed] in Hw. cbn [normal dumps]. do 2 f_equal. f_equal. rewrite map_map.
    induction IH as [|v l Hv IH IHl]; [done|]. cbn [forallb] in Hw. apply andb_true_iff in Hw as [Hwv Hw]. cbn [map].
    by rewrite Hv, IHl.
  - rewrite normal_members, !dumps_members. destruct (sorted_members_ok m Hw) as [_ Hok].
    cbn [well_formed] in Hw. apply andb_true_iff in Hw as [Hd _]. apply bool_decide_eq_true in Hd.
    rewrite (merge_sort_map key_le key_le (fun kv : string * json => (fst kv, normal (snd kv)))) by done.
    rewrite sort_sorted by done. rewrite rendered_ext; [done|].
    apply Forall_forall. intros kv Hkv. rewrite Forall_forall in IH. apply IH; [by rewrite merge_sort_Permutation in Hkv|].
    apply list_elem_of_In in Hkv. pose proof (proj1 (forallb_forall _ _) Hok _ Hkv) as H. by apply andb_true_iff in H as [_ H].
Qed.

(** ** The text is ASCII *)

Definition seven_bits (c : ascii) : bool := code c <? 128.

Lemma all_join p sep l : all_of p sep = true -> Forall (fun t => all_of p t = true) l -> all_of p (join sep l) = true.
Proof.
  intros Hs H. induction H as [|t l Ht H IH]; [done|]. destruct l as [|u l]; [done|].
  change (join sep (t :: u :: l)) with (t +:+ sep +:+ join sep (u :: l)). by rewrite !all_of_app, Ht, Hs, IH.
Qed.

Lemma hex_seven bs : all_of seven_bits (hex bs) = true.
Proof.
  eapply all_of_impl; [|apply all_hex]. intros c. unfold is_lower_hex, is_digit, seven_bits. intros H.
  apply orb_true_iff in H as [H|H]; apply andb_true_iff in H as [_ H]; lia.
Qed.

Lemma escape_seven z : all_of seven_bits (escape z) = true.
Proof.
  unfold escape, unicode_escape, hex4. repeat case_match; rewrite ?all_of_app, ?hex_seven; try done.
  match goal with A : _ && _ = true |- _ => apply andb_true_iff in A as [? ?] end. cbn [all_of]. unfold seven_bits.
  rewrite code_ascii by lia. rewrite (proj2 (Z.ltb_lt z 128)) by lia. done.
Qed.

Lemma quote_seven s : all_of seven_bits (quote s) = true.
Proof.
  unfold quote. rewrite !all_of_app. rewrite all_join; [done|done|]. apply Forall_fmap, Forall_true. intros z. apply escape_seven.
Qed.

Lemma pretty_seven (z : Z) : all_of seven_bits (pretty z) = true.
Proof.
  assert (forall x s, all_of seven_bits s = true -> all_of seven_bits (pretty_N_go x s) = true) as H.
  { apply (pretty_go_ind (fun x s => all_of seven_bits s = true -> all_of seven_bits (pretty_N_go x s) = true)); [done|].
    intros x s Hx IH Hs. rewrite (pretty_N_go_step x) by done. apply IH. cbn [all_of]. rewrite Hs.
    unfold seven_bits. rewrite digit_char by apply mod_ten. pose proof (mod_ten x). rewrite (proj2 (Z.ltb_lt _ _)) by lia. done. }
  destruct z as [|p|p]; [done|by apply (H (N.pos p) "")|].
  change (pretty (Z.neg p)) with ("-" +:+ pretty_N_go (N.pos p) ""). rewrite all_of_app. by rewrite H.
Qed.

Lemma dumps_seven j : all_of seven_bits (dumps j) = true.
Proof.
  induction j as [|b|z|s|l IH|m IH] using json_nested; [done|by destruct b|apply pretty_seven|apply quote_seven| |].
  - cbn [dumps]. rewrite !all_of_app. rewrite all_join; [done|done|]. by apply (Forall_fmap dumps).
  - rewrite dumps_members, !all_of_app. unfold rendered. rewrite all_join; [done|done|].
    assert (Forall (fun kv : string * json => all_of seven_bits (dumps kv.2) = true) (merge_sort key_le m)) as H by (by rewrite merge_sort_Permutation).
    induction H as [|kv l Hv H IHl]; [constructor|]. cbn [map]. constructor; [|done].
    unfold render_member. cbn [fst snd]. rewrite !all_of_app, quote_seven, Hv. done.
Qed.

Lemma seven_valid s : all_of seven_bits s = true -> utf8_valid (utf8 s) = true.
Proof.
  induction s as [|c s IH]; [done|]. cbn [all_of]. intros H. apply andb_true_iff in H as [Hc Hs]. rewrite utf8_cons.
  rewrite utf8_valid_ascii; [by apply IH|]. revert Hc. destruct c as [[] [] [] [] [] [] [] []]; vm_compute; congruence.
Qed.
