(* ===== verification/RichCorpus.v ===== *)
(** * The rich corpus ([scripts/v51/performance_model.py])

    The documents of the frozen corpus, the byte codecs of commands and application images, the
    application state they act on, and the program of calls with its expected rows.  A document is the
    tuple of the script; a dictionary of documents is an association list in insertion order.

    One spelling is outside the model, refused by it and by the script with a [ValueError] of another
    message: an integer field with non-ASCII digits or white space (the script compares the document with
    its canonical text).  An index descriptor that repeats a key of its object is refused by both as well:
    the comparison with the canonical text rejects it. *)

From Stdlib Require Import Ascii.
From stdpp Require Import base gmap sets strings list sorting pretty.
From S2P Require Import Prelude Bytes Sha256 Wire Files Json TextCodes.
Import StateNotations ResultNotations.
Local Open Scope py_scope.
Local Open Scope Z_scope.

Definition need (b : bool) (msg : string) : result unit := guard b (ValueError msg).

Definition OPERATIONS : list string :=
  ["ADD"; "UPDATE"; "REMOVE"; "ADD_ALL"; "UPDATE_ALL"; "REMOVE_ALL"; "INDEX_DROP"; "INDEX_CREATE"; "GET"; "QUERY"].
Definition OP_IDS : list (string * Z) :=
  [("ADD", 1); ("UPDATE", 2); ("REMOVE", 3); ("ADD_ALL", 4); ("UPDATE_ALL", 5); ("REMOVE_ALL", 6);
   ("INDEX_CREATE", 7); ("INDEX_DROP", 8); ("NO_OP", 9)]%string.

Record index := Index { i_analyzer : string; i_field : string; i_kind : string }.
#[export] Instance index_eq_dec : EqDecision index.
Proof. solve_decision. Defined.
Definition INDEXES : list index :=
  [Index "gse-simple-v1" "body" "text"; Index "" "category" "equality"; Index "" "price" "range"; Index "" "title" "prefix"].
Definition index_json (v : index) : json :=
  JObject [("analyzer", JString (i_analyzer v)); ("field", JString (i_field v)); ("kind", JString (i_kind v))]%string.

Definition canonical (j : json) : bytes := utf8 (dumps j).
Definition sha (raw : bytes) : string := hex (sha256 raw).
Definition strict_json (raw : bytes) : result json :=
  let! text := decode_utf8 UnicodeError raw in
  of_option (loads text) (ValueError "JSON").

(** ** Documents *)

Record doc := Doc { d_key : Z; d_title : string; d_category : string; d_price : Z; d_body : string }.
#[export] Instance doc_eq_dec : EqDecision doc.
Proof. solve_decision. Defined.

Definition document (key revision seed : Z) : doc :=
  Doc key ("Java " +:+ pretty key) (if (key + revision + seed) mod 3 =? 0 then "news" else "guide")
    ((key * 17 + revision + seed) mod 1000) ("java search memory revision " +:+ pretty revision).

Definition newline : ascii := ascii_of_nat 10.
Definition doc_fields (d : doc) : list string := [pretty (d_key d); d_title d; d_category d; pretty (d_price d); d_body d].
Definition encode_document (d : doc) : bytes := utf8 (join (String newline EmptyString) (doc_fields d)).

(** [int(text)]: white space around, a sign, digits with single underscores between them *)
Definition str_space (c : ascii) : bool := ascii_space c || ((28 <=? code c) && (code c <=? 31)).
Fixpoint int_digits (acc : Z) (underscore : bool) (s : string) : option Z :=
  match s with
  | EmptyString => if underscore then None else Some acc
  | String c s' =>
      if code c =? 95 then (if underscore then None else int_digits acc true s')
      else if is_digit c then int_digits (acc * 10 + (code c - 48)) false s' else None
  end.
Definition int_of (s : string) : option Z :=
  let digits s := int_digits 0 true s in
  match strip str_space s with
  | String c s' => if code c =? 45 then option_map Z.opp (digits s') else if code c =? 43 then digits s' else digits (String c s')
  | EmptyString => None
  end.
Definition int (s : string) : result Z := of_option (int_of s) (ValueError "invalid literal for int() with base 10").

(** [re.fullmatch(r'java search memory revision ([0-9])', body)] *)
Definition revision_of (body : string) : option Z :=
  match strip_prefix "java search memory revision " body with
  | Some (String c EmptyString) => if is_digit c then Some (code c - 48) else None
  | _ => None
  end.
Definition in_int (z : Z) : bool := (- 2 ^ 31 <=? z) && (z <? 2 ^ 31).

Definition decode_document (raw : bytes) : result doc :=
  do! need ((0 <? Z.of_nat (length raw)) && (Z.of_nat (length raw) <=? 256)) "rich document byte bound" in
  let! text := decode_utf8 UnicodeError raw in
  match split_char newline text with
  | [key; title; category; price; body] =>
      let! key := int key in
      let! price := int price in
      let d := Doc key title category price body in
      do! need (in_int (d_key d) && in_int (d_price d)) "rich integer range" in
      do! need (bool_decide (encode_document d = raw)) "noncanonical rich document" in
      do! need (match revision_of (d_body d) with Some r => bool_decide (d = document (d_key d) r 17) | None => false end)
        "document outside frozen rich corpus/program" in
      Ok d
  | _ => Err (ValueError "rich document fields")
  end.

Definition display (d : doc) : string :=
  "Doc[id=" +:+ pretty (d_key d) +:+ ", title=" +:+ d_title d +:+ ", category=" +:+ d_category d +:+ ", price="
  +:+ pretty (d_price d) +:+ ", body=" +:+ d_body d +:+ "]".

(** ** [Reader] *)

Definition blob (raw : bytes) : bytes := be_split 4 (Z.of_nat (length raw)) ++ raw.
Definition check (b : bool) (msg : string) : reader unit := ensure b (ValueError msg).
Definition Reader_take (size : Z) : reader bytes := take_bytes (ValueError "truncated rich field") size.
Definition Reader_integer : reader Z := read_int (ValueError "truncated rich field") 4.
Definition Reader_count (maximum : Z) : reader Z :=
  let* size := Reader_integer in do* check ((0 <=? size) && (size <=? maximum)) "rich count bound" in ret size.
Definition Reader_blob (maximum : Z) : reader bytes := let* size := Reader_count maximum in Reader_take size.
Definition Reader_key : reader Z :=
  let* raw := Reader_blob 4 in
  do* check (Z.of_nat (length raw) =? 4) "rich key length" in
  ret (to_signed 4 (be_join raw)).
Definition Reader_end : reader unit := expect_end (ValueError "trailing rich bytes").
Definition Reader_version (msg : string) : reader unit :=
  let* v := Reader_take 2 in check (bool_decide (v = be_split 2 1)) msg.

(** The members of an index are strings, so a value is equal to one when it has its canonical text. *)
Definition descriptor (raw : bytes) : result index :=
  let! value := strict_json raw in
  match List.find (fun v => bool_decide (dumps value = dumps (index_json v))) INDEXES with
  | Some v => do! need (bool_decide (canonical value = raw)) "unsupported/noncanonical rich index" in Ok v
  | None => Err (ValueError "unsupported/noncanonical rich index")
  end.

(** ** [decode_command] *)

Inductive command :=
  | NoOp
  | CreateIndex (v : index)
  | DropIndex (field : string)
  | Mutate (changes : list (Z * option doc)).

Definition read_document : reader doc := let* raw := Reader_blob 256 in liftr (decode_document raw).
Definition read_index : reader index := let* raw := Reader_blob 1024 in liftr (descriptor raw).

(** One turn of the loop over a mutation's keys; [value] holds the turns before. *)
Definition read_change (removal : bool) (value : list (Z * option doc)) : reader (Z * option doc) :=
  let* key := Reader_key in
  let* d := (if removal then ret None else let* d := read_document in ret (Some d)) in
  do* check (match d with Some d => d_key d =? key | None => true end) "rich document/key mismatch" in
  do* check (negb (bool_decide (key ∈ value.*1))) "duplicate rich mutation key" in
  ret (key, d).
Fixpoint read_changes (n : nat) (removal : bool) (value : list (Z * option doc)) : reader (list (Z * option doc)) :=
  match n with
  | O => ret value
  | S n' => let* x := read_change removal value in read_changes n' removal (value ++ [x])
  end.

Definition one_of (operation : Z) (l : list Z) : bool := bool_decide (operation ∈ l).

Definition command_body (operation : Z) : reader command :=
  do* Reader_version "rich command version" in
  let* value := (if operation =? 7 then let* v := read_index in ret (CreateIndex v)
    else if operation =? 8 then
      let* raw := Reader_blob 1024 in
      let* field := liftr (decode_utf8 UnicodeError raw) in
      do* check (bool_decide (field ∈ i_field <$> INDEXES)) "unknown index field" in
      ret (DropIndex field)
    else
      let* count := Reader_count 16 in
      do* check ((0 <? count) && ((4 <=? operation) || (count =? 1))) "rich mutation count" in
      let* changes := read_changes (Z.to_nat count) (one_of operation [3; 6]) [] in
      ret (Mutate changes)) in
  do* Reader_end in
  ret value.

Definition decode_command (operation : Z) (payload : bytes) : result command :=
  do! need (one_of operation OP_IDS.*2) "unsupported rich operation" in
  do! need (Z.of_nat (length payload) <=? 2048) "rich payload bound" in
  if operation =? 9 then do! need (bool_decide (payload = [])) "NO_OP payload" in Ok NoOp
  else run_reader (command_body operation) payload.

(** ** [State] *)

Record state := State { documents : list (Z * doc); indexes : list index; sequence : Z }.
#[export] Instance state_eq_dec : EqDecision state.
Proof. solve_decision. Defined.

Definition assoc_del {V} (k : Z) (d : list (Z * V)) : list (Z * V) := List.filter (fun x : Z * V => negb (x.1 =? k)) d.
Definition set_documents (f : list (Z * doc) -> list (Z * doc)) (s : state) : state := State (f (documents s)) (indexes s) (sequence s).
Definition set_indexes (f : list index -> list index) (s : state) : state := State (documents s) (f (indexes s)) (sequence s).
Definition bump (s : state) : state := State (documents s) (indexes s) (sequence s + 1).
Definition field_le (a b : index) : Prop := string_le (i_field a) (i_field b).
#[export] Instance field_le_dec : RelDecision field_le.
Proof. intros a b. unfold field_le. apply _. Defined.

Definition needs (b : bool) (msg : string) : ST state unit := liftr (need b msg).
Definition has_key (k : Z) (d : list (Z * doc)) : bool := bool_decide (k ∈ d.*1).

(** The decoder leaves the document out exactly when the operation removes it. *)
Definition write (x : Z * option doc) (d : list (Z * doc)) : list (Z * doc) :=
  match x.2 with Some v => assoc_set x.1 v d | None => assoc_del x.1 d end.

Definition apply (operation : Z) (payload : bytes) : ST state unit :=
  let* value := liftr (decode_command operation payload) in
  do* match value with
      | Mutate changes =>
          do* for_each changes (fun x =>
            let* s := get in
            needs (Bool.eqb (has_key x.1 (documents s)) (one_of operation [2; 3; 5; 6])) "rich mutation precondition") in
          let* s := get in
          do* needs (Z.of_nat (length (documents s)) + (if one_of operation [1; 4] then Z.of_nat (length changes) else 0) <=? 1024)
            "rich document capacity" in
          for_each changes (fun x => modify (set_documents (write x)))
      | CreateIndex v =>
          let* s := get in
          do* needs (negb (bool_decide (i_field v ∈ i_field <$> indexes s))) "index already exists" in
          modify (set_indexes (fun l => merge_sort field_le (l ++ [v])))
      | DropIndex field => modify (set_indexes (List.filter (fun v => negb (bool_decide (i_field v = field)))))
      | NoOp => ret tt
      end in
  if operation =? 9 then ret tt else modify bump.

(** ** Reading the state *)

Definition lower_char (c : ascii) : ascii := if (65 <=? code c) && (code c <=? 90) then ascii_of_N (Z.to_N (code c + 32)) else c.
Fixpoint lower (s : string) : string := match s with String c s' => String (lower_char c) (lower s') | EmptyString => EmptyString end.
(** [text.lower().split()] of ASCII text, as the bodies of the corpus are *)
Definition words (s : string) : list string :=
  List.filter (fun w => negb (bool_decide (w = ""%string))) (split_where str_space (lower s)).

Inductive answer := NoAnswer | Display (text : string) | Keys (keys : list Z).

Definition answer_of (operation : string) (cycle : Z) (s : state) : result answer :=
  if bool_decide (operation = "GET"%string) then
    let! d := of_option (assoc_get (1 + cycle mod 64) (documents s)) KeyError in Ok (Display (display d))
  else
    do! need (bool_decide (operation = "QUERY"%string)) "not a rich read" in
    Ok (Keys (List.filter (fun x : Z * doc => bool_decide (d_category x.2 = "guide"%string) && bool_decide ("java"%string ∈ words (d_body x.2)))
      (documents s)).*1).

(** ** Application images *)

Definition put_document (x : Z * doc) : bytes := blob (be_split 4 x.1) ++ blob (encode_document x.2).
Definition application_bytes (s : state) : bytes :=
  be_split 2 1 ++ be_split 4 (Z.of_nat (length (indexes s))) ++ concat ((fun v => blob (canonical (index_json v))) <$> indexes s)
  ++ be_split 4 (Z.of_nat (length (documents s))) ++ concat (put_document <$> documents s).

Definition sorted_distinct (l : list string) : bool := bool_decide (l = merge_sort string_le (remove_dups l)).

Fixpoint read_documents (n : nat) (docs : list (Z * doc)) : reader (list (Z * doc)) :=
  match n with
  | O => ret docs
  | S n' =>
      let* key := Reader_key in
      let* d := read_document in
      do* check ((key =? d_key d) && negb (has_key key docs)) "rich application key/duplicate" in
      read_documents n' (docs ++ [(key, d)])
  end.

Definition image : reader (list (Z * doc) * list index) :=
  do* Reader_version "rich application version" in
  let* count := Reader_count 4 in
  let* idx := repeat_reader (Z.to_nat count) read_index in
  do* check (sorted_distinct (i_field <$> idx)) "rich index order/duplicate" in
  let* count := Reader_count 1024 in
  let* docs := read_documents (Z.to_nat count) [] in
  do* Reader_end in
  ret (docs, idx).

Definition application (raw : bytes) (sequence : Z) : result state :=
  do! need ((0 <=? sequence) && (sequence <? 2 ^ 63)) "rich application sequence" in
  do! need (Z.of_nat (length raw) <=? Z.shiftl 128 20) "rich application byte bound" in
  let! p := run_reader image raw in
  Ok (State p.1 p.2 sequence).

(** ** The program of calls *)

(** The members of [plan['localSmoke']] *)
Record smoke := Smoke {
  seed : Z; corpus_documents : Z; load_bulk_elements : Z; first_cycle : Z; warmup_cycles : Z; cycles_per_window : Z;
  mutation_bulk_elements : Z; windows : list string
}.

Definition corpus (p : smoke) : list (Z * doc) := (fun i => (i, document i 0 (seed p))) <$> seqZ 1 (corpus_documents p).
(** [a // b] *)
Definition floor_div (a b : Z) : result Z := do! guard (negb (b =? 0)) ZeroDivisionError in Ok (a / b).
Definition initial (p : smoke) : result state :=
  let! sequence := floor_div (corpus_documents p) (load_bulk_elements p) in
  Ok (State (corpus p) INDEXES sequence).

Record call := Call { c_window : string; c_cycle : Z; c_operation : string; c_keys : list Z; c_documents : list doc; c_payload : bytes }.

Definition op_id (operation : string) : option Z := assoc_get operation OP_IDS.
Definition op_size (p : smoke) (operation : string) : Z := if ends_with "_ALL" operation then mutation_bulk_elements p else 1.
Definition op_keys (p : smoke) (cycle : Z) (operation : string) : list Z :=
  if bool_decide (operation = "GET"%string) then [1 + cycle mod corpus_documents p]
  else if starts_with "INDEX" operation || bool_decide (operation = "QUERY"%string) then []
  else (fun i => if starts_with "UPDATE" operation then 1 + (cycle + i) mod corpus_documents p else 100000 + cycle * 100 + i)
         <$> seqZ 0 (op_size p operation).
Definition op_documents (p : smoke) (cycle : Z) (operation : string) : list doc :=
  if starts_with "ADD" operation || starts_with "UPDATE" operation
  then (fun k => document k (cycle + 1) (seed p)) <$> op_keys p cycle operation else [].

(** [payload += blob(key)], and the document of the same position when there are documents *)
Fixpoint put_changes (keys : list Z) (docs : list doc) : bytes :=
  match keys with
  | [] => []
  | k :: keys' => blob (be_split 4 k) ++ (match docs with d :: docs' => blob (encode_document d) ++ put_changes keys' docs' | [] => put_changes keys' [] end)
  end.
Definition op_payload (p : smoke) (cycle : Z) (operation : string) : bytes :=
  match op_id operation with
  | None => []
  | Some _ => be_split 2 1 ++
      (if starts_with "INDEX" operation then
         blob (if bool_decide (operation = "INDEX_CREATE"%string) then canonical (index_json (nth 1 INDEXES (Index "" "" ""))) else utf8 "category")
       else be_split 4 (op_size p operation) ++ put_changes (op_keys p cycle operation) (op_documents p cycle operation))
  end.

(** The keys of the operation take a remainder by the number of documents. *)
Definition divides (p : smoke) (operation : string) : bool :=
  bool_decide (operation = "GET"%string) || (starts_with "UPDATE" operation && (1 <=? op_size p operation)).
(** [struct.pack('>i', n)] of the count and the keys of the payload *)
Definition packs (p : smoke) (cycle : Z) (operation : string) : bool :=
  match op_id operation with
  | Some _ => starts_with "INDEX" operation || forallb in_int (op_size p operation :: op_keys p cycle operation)
  | None => true
  end.
(** What the generator does when asked for its next call *)
Definition generated (p : smoke) (window : string) (cycle : Z) (operation : string) : result call :=
  do! guard (negb (divides p operation && (corpus_documents p =? 0))) ZeroDivisionError in
  do! guard (packs p cycle operation) StructError in
  Ok (Call window cycle operation (op_keys p cycle operation) (op_documents p cycle operation) (op_payload p cycle operation)).

Definition cycle_calls (p : smoke) (window : string) (cycle : Z) : list (result call) := generated p window cycle <$> OPERATIONS.
Fixpoint window_calls (p : smoke) (cycle : Z) (ws : list (string * Z)) : list (result call) :=
  match ws with
  | [] => []
  | (window, n) :: ws' => mbind (cycle_calls p window) (seqZ cycle n) ++ window_calls p (cycle + Z.max 0 n) ws'
  end.
(** The generator's calls: an error ends it, and the loop that asks for them. *)
Definition program (p : smoke) : list (result call) :=
  window_calls p (first_cycle p) (("warmup"%string, warmup_cycles p) :: ((fun w => (w, if bool_decide (w = "warmup"%string) then warmup_cycles p else cycles_per_window p)) <$> windows p)).

(** ** [expected] *)

Record row := Row {
  r_call : call; r_payload_sha : string; r_answer : answer; r_answer_sha : string; r_before : Z; r_after : Z;
  r_application_sha : string; r_index_count : nat; r_document_count : nat
}.
Definition answer_json (a : answer) : json :=
  match a with NoAnswer => JNull | Display text => JString text | Keys l => JArray (JInt <$> l) end.

Definition play_call (c : call) : ST state row :=
  let* before := get in
  let* a := (match op_id (c_operation c) with
             | Some n => do* apply n (c_payload c) in ret NoAnswer
             | None => let* s := get in liftr (answer_of (c_operation c) (c_cycle c) s)
             end) in
  let* s := get in
  ret (Row c (sha (c_payload c)) a (sha (canonical (answer_json a))) (sequence before) (sequence s) (sha (application_bytes s))
    (length (indexes s)) (length (documents s))).

Fixpoint play (calls : list (result call)) (peak : nat) : ST state (list row * nat) :=
  match calls with
  | [] => ret ([], peak)
  | c :: calls' =>
      let* c := liftr c in
      let* r := play_call c in
      let* rest := play calls' (Nat.max peak (r_document_count r)) in
      ret (r :: rest.1, rest.2)
  end.

(** The rows, in order (their ordinals count from 1), the final state and the largest number of documents *)
Definition expected (p : smoke) : result (list row * state * nat) :=
  let! s := initial p in
  match play (program p) (length (documents s)) s with
  | (Ok (rows, peak), s) => Ok (rows, s, peak)
  | (Err e, _) => Err e
  end.

(** [phase6-plan.json] *)
Definition local_smoke : smoke := Smoke 17 64 16 0 1 2 4 ["baseline-a"; "instrumented-a"; "instrumented-b"; "baseline-b"]%string.
Example local_corpus : sha (concat ((fun x => blob (encode_document x.2)) <$> corpus local_smoke))
  = "1c0ce897a4074c9d8429067ba6a5d6e2d050027502c95fc17add23438a998cb8"%string.
Proof. vm_compute. reflexivity. Qed.
(** Plans that divide by zero: at once, and when the first call over the corpus is asked for *)
Example no_bulk_raises : expected (Smoke 17 64 0 0 1 2 4 []) = Err ZeroDivisionError.
Proof. vm_compute. reflexivity. Qed.
Example no_corpus_raises : expected (Smoke 17 0 16 0 1 2 4 []) = Err ZeroDivisionError.
Proof. vm_compute. reflexivity. Qed.
