(* ===== verification/RichProperties.v ===== *)
(** * Properties of the rich corpus

    Application images are an exact codec of the valid states, commands act on those as updates of a
    finite map, and the program of calls runs to its end. *)

From Stdlib Require Import Ascii.
From stdpp Require Import base gmap sets strings list sorting pretty.
From S2P Require Import Prelude Bytes Sha256 Wire Files ReplicaFrames Json TextCodes JsonProofs RichCorpus.
Import StateNotations ResultNotations.
Local Open Scope py_scope.
Local Open Scope Z_scope.
#[local] Opaque be_split sha256.
#[local] Notation reads := Bytes.reads.

(** ** Printed integers *)

Definition digit_or_sign (c : ascii) : bool := is_digit c || (code c =? 45).

Lemma pretty_go_all (p : ascii -> bool) x s :
  (forall c, is_digit c = true -> p c = true) -> all_of p s = true -> all_of p (pretty_N_go x s) = true.
Proof.
  intros Hp. revert x s. apply (pretty_go_ind (fun x s => all_of p s = true -> all_of p (pretty_N_go x s) = true)); [done|].
  intros x s Hx IH Hs. rewrite (pretty_N_go_step x) by done. apply IH. cbn [all_of]. by rewrite Hp, Hs by (apply digit_char_ok, mod_ten).
Qed.

Lemma pretty_chars (z : Z) : all_of digit_or_sign (pretty z) = true.
Proof.
  assert (forall c, is_digit c = true -> digit_or_sign c = true) as Hd by (intros c Hc; unfold digit_or_sign; by rewrite Hc).
  destruct z as [|p|p]; [done|by apply (pretty_go_all _ (N.pos p) "")|].
  change (pretty (Z.neg p)) with ("-" +:+ pretty_N_go (N.pos p) ""). rewrite all_of_app. by rewrite (pretty_go_all _ (N.pos p) "").
Qed.

Lemma int_digits_decimal s acc u : s <> ""%string -> all_of is_digit s = true -> int_digits acc u s = Some (decimal acc s).
Proof.
  revert acc u. induction s as [|c s IH]; [done|]. intros acc u _ H. cbn [all_of] in H. apply andb_true_iff in H as [Hc Hs].
  assert (48 <= code c <= 57) as Hr by (unfold is_digit in Hc; lia). cbn [int_digits decimal]. rewrite (proj2 (Z.eqb_neq (code c) 95)), Hc by lia.
  destruct s as [|c' s']; [done|]. by apply IH.
Qed.

Lemma int_pretty (z : Z) : int_of (pretty z) = Some z.
Proof.
  unfold int_of. rewrite strip_none.
  2:{ eapply all_of_impl; [|apply pretty_chars]. intros c. unfold digit_or_sign, is_digit, str_space, ascii_space. intros H.
      apply negb_true_iff, not_true_iff_false. intros Hs. lia. }
  assert (forall p, int_digits 0 true (pretty (Z.pos p)) = Some (Z.pos p)) as Hp.
  { intros p. change (pretty (Z.pos p)) with (pretty_N_go (N.pos p) "").
    rewrite int_digits_decimal; [by rewrite pretty_go_decimal| |by apply (pretty_go_all is_digit)].
    destruct (pretty_go_head (N.pos p) "" ltac:(lia)) as (d & t & _ & ->). done. }
  destruct z as [|p|p]; [done| |].
  - specialize (Hp p). destruct (pretty_go_head (N.pos p) "" ltac:(lia)) as (d & t & Hd & Ht).
    change (pretty (Z.pos p)) with (pretty_N_go (N.pos p) "") in Hp |- *. rewrite Ht in Hp |- *.
    rewrite digit_char, !(proj2 (Z.eqb_neq _ _)) by lia. done.
  - change (pretty (Z.neg p)) with (String "-" (pretty (Z.pos p))). change (code "-" =? 45) with true. cbn iota. by rewrite Hp.
Qed.

(** [n] digits print a number below [10 ^ n]. *)
Lemma pretty_go_length x s : forall n, (Z.of_N x < 10 ^ Z.of_nat n) -> (String.length (pretty_N_go x s) <= n + String.length s)%nat.
Proof.
  revert x s. apply (pretty_go_ind (fun x s => forall n, (Z.of_N x < 10 ^ Z.of_nat n) -> (String.length (pretty_N_go x s) <= n + String.length s)%nat)).
  - intros s n _. rewrite pretty_N_go_0. lia.
  - intros x s Hx IH n Hn. rewrite (pretty_N_go_step x) by done. destruct n as [|n]; [simpl in Hn; lia|].
    rewrite Nat2Z.inj_succ, Z.pow_succ_r in Hn by lia. etrans; [apply (IH n)|cbn [String.length]; lia].
    rewrite N2Z.inj_div. apply Z.div_lt_upper_bound; lia.
Qed.

Lemma pretty_length (z : Z) n : (1 <= n)%nat -> - 10 ^ Z.of_nat n < z < 10 ^ Z.of_nat n -> (String.length (pretty z) <= S n)%nat.
Proof.
  intros Hn Hz. destruct z as [|p|p]; [cbn; lia| |].
  - change (pretty (Z.pos p)) with (pretty_N_go (N.pos p) ""). pose proof (pretty_go_length (N.pos p) "" n ltac:(lia)) as H. cbn [String.length] in H. lia.
  - change (pretty (Z.neg p)) with (String "-" (pretty_N_go (N.pos p) "")). pose proof (pretty_go_length (N.pos p) "" n ltac:(lia)) as H. cbn [String.length] in H |- *. lia.
Qed.

(** ** Documents *)

(** A document of the frozen program: one of ten revisions of its key *)
Definition valid_doc (d : doc) : Prop := (exists r, 0 <= r <= 9 /\ d = document (d_key d) r 17) /\ in_int (d_key d) = true.

Definition plain (c : ascii) : bool := seven_bits c && negb (bool_decide (c = newline)).

Lemma plain_number (z : Z) : all_of plain (pretty z) = true.
Proof.
  eapply all_of_impl; [|apply pretty_chars]. intros c. unfold digit_or_sign, is_digit, plain, seven_bits. intros H.
  apply andb_true_iff. split; [lia|]. apply negb_true_iff, bool_decide_eq_false. intros ->. vm_compute in H. done.
Qed.

Lemma split_join l : l <> [] -> Forall (fun s => all_of plain s = true) l -> split_char newline (join (String newline "") l) = l.
Proof.
  intros Hl H. unfold split_char.
  assert (forall s t, all_of plain s = true -> split_where (fun c => bool_decide (c = newline)) (s +:+ t) =
            match split_where (fun c => bool_decide (c = newline)) t with p :: ps => (s +:+ p) :: ps | [] => [] end) as Hs.
  { intros s t. induction s as [|c s IH]; intros Ha.
    - change ("" +:+ t) with t. destruct (split_where _ t) as [|p ps] eqn:E; [|done].
      destruct t as [|a t]; [done|]. cbn in E. destruct (bool_decide _); [done|]. by destruct (split_where _ t).
    - cbn [all_of] in Ha. unfold plain in Ha. bool_tac. change (String c s +:+ t) with (String c (s +:+ t)). cbn [split_where].
      rewrite bool_decide_false by done. rewrite IH by done. destruct (split_where _ t) eqn:E; [|done].
      destruct t as [|a t]; [done|]. cbn in E. destruct (bool_decide _); [done|]. by destruct (split_where _ t). }
  induction H as [|s l Ha H IH]; [done|]. destruct l as [|s' l].
  - cbn [join]. rewrite <- (append_nil_r s), Hs by done. cbn. by rewrite append_nil_r.
  - change (join (String newline "") (s :: s' :: l)) with (s +:+ String newline (join (String newline "") (s' :: l))).
    rewrite Hs by done. cbn [split_where]. rewrite bool_decide_true by done. rewrite append_nil_r. by rewrite IH.
Qed.

Lemma document_plain k r sd : Forall (fun s => all_of plain s = true) (doc_fields (document k r sd)).
Proof.
  unfold doc_fields, document. cbn [d_key d_title d_category d_price d_body].
  repeat constructor; rewrite ?all_of_app, ?plain_number; try done. by destruct (_ =? 0).
Qed.

Lemma encode_text k r sd : all_of seven_bits (join (String newline "") (doc_fields (document k r sd))) = true.
Proof.
  apply all_join; [done|]. eapply Forall_impl; [apply document_plain|]. intros s. apply all_of_impl. intros c Hc. unfold plain in Hc. by bool_tac.
Qed.

Lemma length_utf8 s : length (utf8 s) = String.length s.
Proof. induction s as [|c s IH]; [done|]. rewrite utf8_cons. cbn. by rewrite IH. Qed.

(** A document's size, from the digits of its key and of its revision *)
Lemma encode_length k r sd n m : (1 <= n)%nat -> (1 <= m)%nat ->
  - 10 ^ Z.of_nat n < k < 10 ^ Z.of_nat n -> - 10 ^ Z.of_nat m < r < 10 ^ Z.of_nat m ->
  (0 < length (encode_document (document k r sd)) <= 49 + 2 * n + m)%nat.
Proof.
  intros Hn Hm Hk Hr. unfold encode_document, doc_fields, document. cbn [d_key d_title d_category d_price d_body].
  pose proof (pretty_length k n Hn Hk). pose proof (pretty_length r m Hm Hr).
  pose proof (pretty_length ((k * 17 + r + sd) mod 1000) 3 ltac:(lia) ltac:(change (10 ^ Z.of_nat 3) with 1000; Z.to_euclidean_division_equations; lia)).
  rewrite length_utf8. cbn [join]. rewrite !append_length.
  change (String.length (String newline "")) with 1%nat. change (String.length "Java ") with 5%nat.
  change (String.length "java search memory revision ") with 28%nat.
  assert (String.length (if ((k + r + sd) mod 3 =? 0)%Z then "news" else "guide") <= 5)%nat by (destruct (_ =? 0); cbn; lia). lia.
Qed.

Lemma valid_doc_length d : valid_doc d -> (0 < length (encode_document d) <= 72)%nat.
Proof.
  intros [(r & Hr & ->) Hi]. cbn [d_key document] in Hi. unfold in_int in Hi.
  pose proof (encode_length (d_key d) r 17 10 1 ltac:(lia) ltac:(lia)) as H.
  change (10 ^ Z.of_nat 10) with 10000000000 in H. change (10 ^ Z.of_nat 1) with 10 in H. lia.
Qed.

Lemma revision_digit r : 0 <= r <= 9 -> revision_of ("java search memory revision " +:+ pretty r) = Some r.
Proof.
  intros Hr. unfold revision_of. rewrite strip_prefix_app.
  assert (r = 0 \/ r = 1 \/ r = 2 \/ r = 3 \/ r = 4 \/ r = 5 \/ r = 6 \/ r = 7 \/ r = 8 \/ r = 9) as Hc by lia.
  destruct_or! Hc; subst; reflexivity.
Qed.

Lemma decode_document_ok raw d : decode_document raw = Ok d <-> valid_doc d /\ raw = encode_document d.
Proof.
  split.
  - unfold decode_document, need, int. intros H. ok_inv H.
    destruct (split_char newline x0) as [|key [|title [|category [|price [|body [|]]]]]]; try done.
    ok_inv H. injection H as <-. bool_tac. split; [|done]. cbn [d_key d_body] in *.
    match goal with A : match revision_of _ with _ => _ end = true |- _ => rename A into Hrev end.
    destruct (revision_of body) as [r|] eqn:Hr; [|done]. apply bool_decide_eq_true in Hrev. split; [|done].
    exists r. split; [|done]. unfold revision_of in Hr.
    destruct (strip_prefix _ body) as [[|c [|]]|]; try done. destruct (is_digit c) eqn:Hd; [|done]. injection Hr as <-.
    unfold is_digit in Hd. lia.
  - intros [Hv ->]. pose proof (valid_doc_length d Hv) as Hl. destruct Hv as [(r & Hr & Hd) Hi]. unfold decode_document.
    rewrite (proj2 (Z.ltb_lt 0 (Z.of_nat _))), (proj2 (Z.leb_le (Z.of_nat _) 256)) by lia. cbn [need guard andb rbind].
    unfold encode_document at 1. unfold decode_utf8. rewrite seven_valid by (rewrite Hd; apply encode_text). cbn [rbind].
    rewrite str_utf8, split_join by (done || (rewrite Hd; apply document_plain)). unfold doc_fields, int. cbn [of_option].
    rewrite !int_pretty. cbn [of_option rbind]. replace (Doc (d_key d) (d_title d) (d_category d) (d_price d) (d_body d)) with d by (by destruct d).
    rewrite Hi. assert (in_int (d_price d) = true) as ->.
    { rewrite Hd. cbn [d_price document]. unfold in_int. Z.to_euclidean_division_equations; lia. }
    cbn [need guard andb rbind]. rewrite bool_decide_true by done. cbn [need guard rbind].
    assert (revision_of (d_body d) = Some r) as -> by (rewrite Hd; by apply revision_digit). by rewrite bool_decide_true.
Qed.

(** ** The readers *)

Lemma blob_ok m s raw s2 : Reader_blob m s = (Ok raw, s2) -> s = blob raw ++ s2 /\ Z.of_nat (length raw) <= m.
Proof.
  unfold Reader_blob, Reader_count, Reader_integer, Reader_take, check. intros H. ok_inv H. subst. fields_inv. bool_tac.
  unfold blob. rewrite <- app_assoc. match goal with A : Z.of_nat (length raw) = _ |- _ => rewrite A end. done.
Qed.

Lemma corpus_reads_blob m raw : Z.of_nat (length raw) <= m -> m < 2 ^ 31 -> reads (Reader_blob m) (blob raw) raw.
Proof.
  intros Hl Hm. unfold Reader_blob, blob. eapply reads_bind; [|by apply reads_take].
  unfold Reader_count. rewrite <- (app_nil_r (be_split _ _)). eapply reads_bind.
  { apply reads_int; [lia|]. split; change (8 * Z.of_nat 4 - 1) with 31; lia. }
  unfold check. eapply reads_check; [|apply reads_ret]. apply andb_true_iff. split; apply Z.leb_le; lia.
Qed.

Lemma in_int_range z : in_int z = true <-> signed_range 4 z.
Proof. unfold in_int, signed_range. change (8 * Z.of_nat 4 - 1) with 31. rewrite andb_true_iff, Z.leb_le, Z.ltb_lt. done. Qed.

Lemma key_ok s k s2 : Reader_key s = (Ok k, s2) -> s = blob (be_split 4 k) ++ s2 /\ in_int k = true.
Proof.
  unfold Reader_key. intros H. apply bind_ok in H as (raw & s1 & Hb & H). apply blob_ok in Hb as [-> _].
  apply bind_ok in H as (u & s3 & Hc & H). apply ensure_ok in Hc as [Hc <-]. apply ret_ok in H as [<- <-]. bool_tac.
  assert (length raw = 4%nat) as Hl by lia. split.
  - pose proof (be_split_signed raw) as He. rewrite Hl in He. by rewrite He.
  - apply in_int_range, to_signed_range; lia.
Qed.

Lemma reads_key k : in_int k = true -> reads Reader_key (blob (be_split 4 k)) k.
Proof.
  intros Hk. unfold Reader_key. rewrite <- (app_nil_r (blob _)). eapply reads_bind; [apply corpus_reads_blob; rewrite ?length_be_split; done|].
  unfold check. eapply reads_check; [by rewrite length_be_split|]. apply in_int_range in Hk. rewrite to_signed_split by (done || lia). apply reads_ret.
Qed.

Lemma read_document_ok s d s2 : read_document s = (Ok d, s2) -> s = blob (encode_document d) ++ s2 /\ valid_doc d.
Proof.
  unfold read_document. intros H. apply bind_ok in H as (raw & s1 & Hb & H). apply blob_ok in Hb as [-> _].
  apply liftr_ok in H as [H <-]. by apply decode_document_ok in H as [Hv ->].
Qed.

Lemma reads_document d : valid_doc d -> reads read_document (blob (encode_document d)) d.
Proof.
  intros Hd. pose proof (valid_doc_length d Hd) as Hl. unfold read_document. rewrite <- (app_nil_r (blob _)).
  eapply reads_bind; [apply corpus_reads_blob; lia|]. apply reads_liftr, decode_document_ok. done.
Qed.

Lemma descriptor_ok raw v : descriptor raw = Ok v <-> v ∈ INDEXES /\ raw = canonical (index_json v).
Proof.
  split.
  - unfold descriptor, need. intros H. apply rbind_ok in H as (value & Hv & H).
    destruct (List.find _ INDEXES) as [v'|] eqn:Hf; [|done]. ok_inv H. injection H as ->. bool_tac.
    apply find_some in Hf as [Hin He]. bool_tac. split; [by apply list_elem_of_In|]. subst raw. unfold canonical. by rewrite He.
  - intros [Hv ->]. repeat (apply elem_of_cons in Hv as [->|Hv]); [vm_compute; reflexivity..|]. by apply not_elem_of_nil in Hv.
Qed.

Definition put_index (v : index) : bytes := blob (canonical (index_json v)).

Lemma read_index_ok s v s2 : read_index s = (Ok v, s2) -> s = put_index v ++ s2 /\ v ∈ INDEXES.
Proof.
  unfold read_index. intros H. apply bind_ok in H as (raw & s1 & Hb & H). apply blob_ok in Hb as [-> _].
  apply liftr_ok in H as [H <-]. by apply descriptor_ok in H as [Hv ->].
Qed.

Lemma index_length v : v ∈ INDEXES -> (length (canonical (index_json v)) <= 100)%nat.
Proof.
  intros Hv. repeat (apply elem_of_cons in Hv as [->|Hv]); [apply Nat.leb_le; vm_compute; reflexivity..|]. by apply not_elem_of_nil in Hv.
Qed.

Lemma reads_index v : v ∈ INDEXES -> reads read_index (put_index v) v.
Proof.
  intros Hv. pose proof (index_length v Hv). unfold read_index, put_index. rewrite <- (app_nil_r (blob _)).
  eapply reads_bind; [apply corpus_reads_blob; lia|]. apply reads_liftr, descriptor_ok. done.
Qed.

(** ** Application images *)

Definition entry_ok (x : Z * doc) : Prop := x.1 = d_key x.2 /\ valid_doc x.2.

Lemma has_key_false k d : has_key k d = false <-> k ∉ d.*1.
Proof. unfold has_key. apply bool_decide_eq_false. Qed.

Lemma read_documents_ok n docs s l s2 : read_documents n docs s = (Ok l, s2) -> NoDup docs.*1 ->
  exists new, l = docs ++ new /\ s = concat (put_document <$> new) ++ s2 /\ length new = n /\ Forall entry_ok new /\ NoDup l.*1.
Proof.
  revert docs s. induction n as [|n IH]; intros docs s H Hd; cbn [read_documents] in H.
  - apply ret_ok in H as [<- <-]. exists []. rewrite app_nil_r. done.
  - apply bind_ok in H as (k & s1 & Hk & H). apply key_ok in Hk as [-> Hk]. apply bind_ok in H as (d & s3 & Hx & H).
    apply read_document_ok in Hx as [-> Hv]. apply bind_ok in H as (u & s4 & Hc & H). apply ensure_ok in Hc as [Hc <-]. bool_tac. subst k.
    match goal with A : has_key _ _ = false |- _ => apply has_key_false in A; rename A into Hf end.
    apply IH in H as (new & -> & -> & Hl & Hall & Hnd).
    + exists ((d_key d, d) :: new). rewrite <- app_assoc. cbn [fmap list_fmap concat]. unfold put_document at 1. cbn [fst snd].
      rewrite <- !app_assoc. split_and!; [done|done|cbn; lia|by constructor|]. by rewrite <- app_assoc in Hnd.
    + rewrite fmap_app. apply NoDup_app. split_and!; [done| |apply NoDup_singleton]. intros k Hk' Hin. apply list_elem_of_singleton in Hin. by subst k.
Qed.

Lemma reads_documents new docs n : Forall entry_ok new -> NoDup (docs ++ new).*1 -> length new = n ->
  reads (read_documents n docs) (concat (put_document <$> new)) (docs ++ new).
Proof.
  intros H. revert docs n. induction H as [|[k d] new Hx H IH]; intros docs n Hd <-; cbn [length read_documents fmap list_fmap concat].
  - rewrite app_nil_r. apply reads_ret.
  - destruct Hx as [Hk Hv]. cbn [fst snd] in Hk, Hv. unfold put_document at 1. cbn [fst snd]. rewrite <- app_assoc.
    eapply reads_bind; [apply reads_key; subst k; apply Hv|]. eapply reads_bind; [by apply reads_document|].
    unfold check. eapply reads_check.
    + rewrite (proj2 (Z.eqb_eq k (d_key d))) by done. cbn [andb]. apply negb_true_iff, has_key_false. intros Hin.
      rewrite fmap_app in Hd. apply NoDup_app in Hd as (_ & Hd & _). apply (Hd k Hin). by left.
    + rewrite (assoc app docs [(k, d)] new : docs ++ (k, d) :: new = (docs ++ [(k, d)]) ++ new) in Hd |- *. by apply IH.
Qed.

(** ** Sorted field names *)

#[local] Instance string_le_total : Total string_le.
Proof. intros a b. unfold string_le. destruct (String.leb_total a b) as [->| ->]; auto. Qed.
#[local] Instance string_le_antisymm : AntiSymm (=) string_le.
Proof. intros a b. apply String.leb_antisym. Qed.

Lemma merge_sort_id l : StronglySorted string_le l -> merge_sort string_le l = l.
Proof.
  intros H. apply (StronglySorted_unique string_le); [apply (StronglySorted_merge_sort string_le)|done|apply merge_sort_Permutation].
Qed.

Lemma sorted_distinct_spec l : sorted_distinct l = true <-> NoDup l /\ StronglySorted string_le l.
Proof.
  unfold sorted_distinct. rewrite bool_decide_eq_true. split.
  - intros H. split; [rewrite H, merge_sort_Permutation; apply NoDup_remove_dups|]. rewrite H. apply (StronglySorted_merge_sort string_le).
  - intros [Hd Hs]. assert (remove_dups l = l) as ->; [|by rewrite merge_sort_id]. clear Hs.
    induction Hd as [|x l Hx Hd IH]; [done|]. cbn. case_decide; [done|]. by rewrite IH.
Qed.

(** What every state read from an image satisfies, and every command keeps *)
Record valid (s : state) : Prop := {
  v_keys : NoDup (documents s).*1;
  v_count : (length (documents s) <= 1024)%nat;
  v_docs : Forall entry_ok (documents s);
  v_indexes : Forall (fun v => v ∈ INDEXES) (indexes s);
  v_distinct : NoDup (i_field <$> indexes s);
  v_sorted : StronglySorted string_le (i_field <$> indexes s)
}.

Lemma index_count s : valid s -> (length (indexes s) <= 4)%nat.
Proof.
  intros Hv. rewrite <- (length_fmap i_field). change 4%nat with (length (i_field <$> INDEXES)).
  apply submseteq_length, NoDup_submseteq; [apply Hv|]. intros f Hf. apply list_elem_of_fmap in Hf as (v & -> & Hv').
  apply list_elem_of_fmap_2. by apply (proj1 (Forall_forall _ _) (v_indexes _ Hv)).
Qed.

Lemma concat_length {A} (f : A -> bytes) n l : (forall x, x ∈ l -> (length (f x) <= n)%nat) -> (length (concat (f <$> l)) <= n * length l)%nat.
Proof.
  intros H. induction l as [|x l IH]; [cbn; lia|]. cbn [fmap list_fmap concat length]. rewrite length_app.
  pose proof (H x ltac:(by left)). pose proof (IH ltac:(intros y Hy; apply H; by right)). lia.
Qed.

Lemma length_blob raw : length (blob raw) = (4 + length raw)%nat.
Proof. unfold blob. by rewrite length_app, length_be_split. Qed.

Lemma application_length s : valid s -> (length (application_bytes s) <= 1000 + 100 * 1024)%nat.
Proof.
  intros Hv. unfold application_bytes. rewrite !length_app, !length_be_split.
  pose proof (concat_length (fun v => blob (canonical (index_json v))) 104 (indexes s)) as Hi.
  pose proof (concat_length put_document 84 (documents s)) as Hd. pose proof (index_count s Hv). pose proof (v_count _ Hv).
  specialize (Hi ltac:(intros v Hin; cbv beta; rewrite length_blob; pose proof (index_length v (proj1 (Forall_forall _ _) (v_indexes _ Hv) v Hin)); lia)).
  specialize (Hd ltac:(intros x Hin; unfold put_document; rewrite length_app, !length_blob, length_be_split;
    pose proof (valid_doc_length x.2 (proj2 (proj1 (Forall_forall _ _) (v_docs _ Hv) x Hin))); lia)). nia.
Qed.

Lemma count_ok m s n s2 : Reader_count m s = (Ok n, s2) -> s = be_split 4 n ++ s2 /\ 0 <= n <= m.
Proof.
  unfold Reader_count, Reader_integer, check. intros H. ok_inv H. subst. fields_inv. bool_tac. done.
Qed.
Lemma reads_count m n : 0 <= n <= m -> m < 2 ^ 31 -> reads (Reader_count m) (be_split 4 n) n.
Proof.
  intros Hn Hm. unfold Reader_count. rewrite <- (app_nil_r (be_split _ _)). eapply reads_bind.
  { apply reads_int; [lia|]. split; change (8 * Z.of_nat 4 - 1) with 31; lia. }
  unfold check. eapply reads_check; [|apply reads_ret]. apply andb_true_iff. split; apply Z.leb_le; lia.
Qed.
Lemma version_ok msg s u s2 : Reader_version msg s = (Ok u, s2) -> s = be_split 2 1 ++ s2.
Proof. unfold Reader_version, Reader_take, check. intros H. ok_inv H. subst. fields_inv. bool_tac. by subst. Qed.
Lemma reads_version msg : reads (Reader_version msg) (be_split 2 1) tt.
Proof.
  unfold Reader_version. rewrite <- (app_nil_r (be_split _ _)). eapply reads_bind; [by apply reads_take|].
  apply reads_ensure. by apply bool_decide_eq_true.
Qed.
(** C34: the image codec is exact.  A byte string is read as a state exactly when the state is valid (at most 1024
    documents of the frozen program under their own keys, indexes of the catalog in field order), its sequence is the
    given one within 63 bits, and the bytes are those the state writes; every valid state is read back so. *)
Theorem rich_application_exact raw n s :
  application raw n = Ok s <-> valid s /\ sequence s = n /\ 0 <= n < 2 ^ 63 /\ raw = application_bytes s.
Proof.
  unfold application, need. split.
  - intros H. apply rbind_ok in H as (u & Hn & H). apply guard_ok in Hn. apply rbind_ok in H as (u' & Hl & H). clear Hl.
    apply rbind_ok in H as ([docs idx] & Hp & H). injection H as <-. bool_tac. cbn [fst snd].
    apply run_reader_ok in Hp as [s2 Hp]. unfold image in Hp.
    apply bind_ok in Hp as (w & s3 & Hv & Hp). apply version_ok in Hv as ->.
    apply bind_ok in Hp as (ci & s4 & Hc & Hp). apply count_ok in Hc as [-> Hci].
    apply bind_ok in Hp as (iv & s5 & Hi & Hp). apply (repeat_reader_ok _ put_index (fun v => v ∈ INDEXES)) in Hi as (-> & Hin & Hil); [|apply read_index_ok].
    apply bind_ok in Hp as (w' & s6 & Hs & Hp). apply ensure_ok in Hs as [Hs <-]. apply sorted_distinct_spec in Hs as [Hd Hs].
    apply bind_ok in Hp as (cd & s7 & Hc & Hp). apply count_ok in Hc as [-> Hcd].
    apply bind_ok in Hp as (ds & s8 & Hx & Hp). apply read_documents_ok in Hx as (new & -> & -> & Hdl & Hall & Hnd); [|constructor].
    apply bind_ok in Hp as (w'' & s9 & He & Hp). apply expect_end_ok in He as [-> ->]. apply ret_ok in Hp as [[= <- <-] _].
    cbn [app] in *. rewrite app_nil_r. split_and!; [|done..|].
    + split; cbn [documents indexes]; (done || lia).
    + unfold application_bytes. cbn [documents indexes]. rewrite Hil, Hdl, !Z2Nat.id by lia. done.
  - intros (Hv & <- & Hn & ->). pose proof (application_length s Hv). pose proof (index_count s Hv). pose proof (v_count s Hv).
    rewrite (proj2 (Z.leb_le 0 (sequence s))), (proj2 (Z.ltb_lt (sequence s) (2 ^ 63))), (proj2 (Z.leb_le (Z.of_nat _) (Z.shiftl 128 20)))
      by (change (Z.shiftl 128 20) with 134217728; lia). cbn [guard rbind andb].
    assert (run_reader image (application_bytes s) = Ok (documents s, indexes s)) as ->; [|by destruct s].
    unfold image, application_bytes. apply (run_exact _ _ _ []). eapply feed; [apply reads_version|].
    eapply feed; [apply reads_count; lia|]. rewrite Nat2Z.id. eapply feed.
    { apply (reads_repeat _ put_index); [done|]. eapply Forall_impl; [apply Hv|]. apply reads_index. }
    apply feed_check; [apply sorted_distinct_spec; split; apply Hv|]. eapply feed; [apply reads_count; lia|]. rewrite Nat2Z.id.
    rewrite <- (app_nil_r (concat (put_document <$> _))). eapply feed; [apply (reads_documents _ []); [apply Hv|apply Hv|done]|]. by apply feed_end.
Qed.

(** ** Commands *)

(** A decoded change: its key is an [int], a removal carries no document, and a document is a valid one of its key. *)
Definition change_ok (removal : bool) (x : Z * option doc) : Prop :=
  in_int x.1 = true /\ match x.2 with Some d => removal = false /\ d_key d = x.1 /\ valid_doc d | None => removal = true end.

Lemma read_change_ok removal value s x s2 : read_change removal value s = (Ok x, s2) -> change_ok removal x /\ x.1 ∉ value.*1.
Proof.
  unfold read_change, check. intros H. apply bind_ok in H as (k & s1 & Hk & H). apply key_ok in Hk as [_ Hk].
  apply bind_ok in H as (o & s3 & Ho & H). apply bind_ok in H as (w & s4 & Hc & H). apply ensure_ok in Hc as [Hc <-].
  apply bind_ok in H as (w' & s5 & Hn & H). apply ensure_ok in Hn as [Hn <-]. apply ret_ok in H as [<- _]. bool_tac.
  split; [|done]. split; [done|]. cbn [fst snd]. destruct removal; [by apply ret_ok in Ho as [<- _]|].
  apply bind_ok in Ho as (d & s6 & Hd & Ho). apply read_document_ok in Hd as [_ Hd]. apply ret_ok in Ho as [<- _]. bool_tac. done.
Qed.

Lemma read_changes_ok n removal value s l s2 : read_changes n removal value s = (Ok l, s2) ->
  NoDup value.*1 -> Forall (change_ok removal) value ->
  NoDup l.*1 /\ Forall (change_ok removal) l /\ length l = (length value + n)%nat.
Proof.
  revert value s. induction n as [|n IH]; intros value s H Hd Hf; cbn [read_changes] in H.
  - apply ret_ok in H as [<- _]. split_and!; [done..|lia].
  - apply bind_ok in H as (x & s1 & Hx & H). apply read_change_ok in Hx as [Hx Hn]. apply IH in H as (H1 & H2 & H3).
    + split_and!; [done..|]. rewrite length_app in H3. cbn [length] in H3. lia.
    + rewrite fmap_app. apply NoDup_app. split_and!; [done| |apply NoDup_singleton]. intros k Hk Hin. apply list_elem_of_singleton in Hin. by subst k.
    + by apply Forall_app; split; [|constructor].
Qed.

Definition removes (operation : Z) : bool := one_of operation [3; 6].
Definition present (operation : Z) : bool := one_of operation [2; 3; 5; 6].
Definition adds (operation : Z) : bool := one_of operation [1; 4].

Lemma decode_command_ok operation payload c : decode_command operation payload = Ok c ->
  match c with
  | NoOp => operation = 9
  | CreateIndex v => operation = 7 /\ v ∈ INDEXES
  | DropIndex _ => operation = 8
  | Mutate changes => 1 <= operation <= 6 /\ NoDup changes.*1 /\ Forall (change_ok (removes operation)) changes
  end.
Proof.
  unfold decode_command, need, one_of. intros H. apply rbind_ok in H as (u & Ho & H). apply guard_ok, bool_decide_eq_true in Ho.
  apply rbind_ok in H as (u' & _ & H). destruct (Z.eqb_spec operation 9) as [->|Hn].
  { apply rbind_ok in H as (w & _ & H). by injection H as <-. }
  apply run_reader_ok in H as [s2 H]. unfold command_body in H. apply bind_ok in H as (w & s3 & _ & H).
  apply bind_ok in H as (value & s4 & Hv & H). apply bind_ok in H as (w' & s5 & _ & H). apply ret_ok in H as [-> _].
  destruct (Z.eqb_spec operation 7) as [->|H7].
  { apply bind_ok in Hv as (v & s6 & Hi & Hv). apply read_index_ok in Hi as [_ Hi]. apply ret_ok in Hv as [<- _]. done. }
  destruct (Z.eqb_spec operation 8) as [->|H8].
  { ok_inv Hv. by subst c. }
  apply bind_ok in Hv as (n & s6 & _ & Hv). apply bind_ok in Hv as (w2 & s7 & _ & Hv). apply bind_ok in Hv as (l & s8 & Hl & Hv).
  apply ret_ok in Hv as [<- _]. apply read_changes_ok in Hl as (Hd & Hf & _); [|constructor..]. split_and!; [| |done..].
  all: cbn in Ho; set_unfold in Ho; lia.
Qed.

Lemma for_each_needs {A} (l : list A) (b : A -> state -> bool) msg s :
  for_each l (fun x => let* s := get in needs (b x s) msg) s = if forallb (fun x => b x s) l then (Ok tt, s) else (Err (ValueError msg), s).
Proof.
  induction l as [|x l IH]; [done|]. cbn [for_each forallb]. unfold bind at 1 2, get, needs, need, liftr. destruct (b x s); [exact IH|done].
Qed.
Lemma for_each_modify {A} (l : list A) (f : A -> state -> state) s :
  for_each l (fun x => modify (f x)) s = (Ok tt, fold_left (fun s x => f x s) l s).
Proof. revert s. induction l as [|x l IH]; intros s; [done|]. cbn [for_each fold_left]. unfold bind, modify at 1. apply IH. Qed.
Lemma fold_set_documents l s :
  fold_left (fun s x => set_documents (write x) s) l s = State (fold_left (fun d x => write x d) l (documents s)) (indexes s) (sequence s).
Proof. revert s. induction l as [|x l IH]; intros s; [by destruct s|]. cbn [fold_left]. by rewrite IH. Qed.

Lemma assoc_get_del {V} k j (d : list (Z * V)) : assoc_get j (assoc_del k d) = if j =? k then None else assoc_get j d.
Proof.
  induction d as [|[i v] d IH]; [by destruct (_ =? _)|]. unfold assoc_del. cbn [List.filter fst].
  destruct (Z.eqb_spec i k) as [->|Hi]; cbn [negb assoc_get]; fold (assoc_del k d); rewrite IH.
  - destruct (Z.eqb_spec j k) as [->|Hj]; [done|]. by rewrite decide_False.
  - destruct (Z.eqb_spec j k) as [->|Hj]; [|done]. by rewrite decide_False.
Qed.

Notation written := (fold_left (fun d x => write x d)).

(** What the changes leave under a key *)
Lemma written_get l d k : NoDup l.*1 -> assoc_get k (written l d) = match assoc_get k l with Some o => o | None => assoc_get k d end.
Proof.
  revert d. induction l as [|[j o] l IH]; intros d Hd; [done|]. cbn [fmap list_fmap fst] in Hd. apply NoDup_cons in Hd as [Hj Hd].
  cbn [fold_left assoc_get]. rewrite IH by done. case_decide as Hk.
  - subst j. rewrite assoc_get_None by done. unfold write. cbn [fst snd]. destruct o as [v|]; [apply assoc_get_set_eq|].
    by rewrite assoc_get_del, Z.eqb_refl.
  - destruct (assoc_get k l); [done|]. unfold write. cbn [fst snd]. destruct o as [v|]; [by apply assoc_get_set_ne|].
    rewrite assoc_get_del, (proj2 (Z.eqb_neq k j)) by done. done.
Qed.

Lemma assoc_set_keys (k : Z) (v : doc) d : k ∈ d.*1 -> (assoc_set k v d).*1 = d.*1.
Proof.
  induction d as [|[j w] d IH]; [by intros ?%not_elem_of_nil|]. cbn [fmap list_fmap fst assoc_set]. intros H. case_decide as Hk; [by subst|].
  apply elem_of_cons in H as [->|H]; [done|]. cbn [fmap list_fmap fst]. by rewrite IH.
Qed.

(** The keys, in order: removed keys go, updated keys stay where they are, and added keys follow. *)
Definition keys_after (operation : Z) (l : list (Z * option doc)) (keys : list Z) : list Z :=
  if removes operation then List.filter (fun k => negb (bool_decide (k ∈ l.*1))) keys else if adds operation then keys ++ l.*1 else keys.

Lemma removed_keys l d : Forall (change_ok true) l -> (written l d).*1 = List.filter (fun k => negb (bool_decide (k ∈ l.*1))) d.*1.
Proof.
  intros H. revert d. induction H as [|[j o] l [_ Hx] H IH]; intros d.
  - cbn [fold_left fmap list_fmap]. induction (d.*1) as [|k ks IHk]; [done|]. cbn. by rewrite <- IHk.
  - cbn [fold_left]. rewrite IH. cbn [snd] in Hx. destruct o as [v|]; [by destruct Hx|]. unfold write, assoc_del. cbn [fst snd].
    induction d as [|[i v] d IHd]; [done|]. cbn [List.filter fst fmap list_fmap].
    destruct (Z.eqb_spec i j) as [->|Hi]; cbn [negb fmap list_fmap fst List.filter].
    + rewrite (bool_decide_true (j ∈ j :: _)) by by left. exact IHd.
    + rewrite (bool_decide_ext (i ∈ j :: l.*1) (i ∈ l.*1)) by (rewrite elem_of_cons; naive_solver).
      destruct (negb _); [f_equal|]; exact IHd.
Qed.

Lemma added_keys l d : Forall (change_ok false) l -> NoDup l.*1 -> (forall k, k ∈ l.*1 -> k ∉ d.*1) -> (written l d).*1 = d.*1 ++ l.*1.
Proof.
  intros H. revert d. induction H as [|[j o] l [_ Hx] H IH]; intros d Hd Hn; [cbn; by rewrite app_nil_r|].
  cbn [fmap list_fmap fst] in Hd, Hn |- *. apply NoDup_cons in Hd as [Hj Hd]. cbn [snd] in Hx. destruct o as [v|]; [|done].
  cbn [fold_left]. unfold write at 2. cbn [fst snd]. rewrite assoc_set_fresh by (apply Hn; by left). rewrite IH; [|done|].
  - rewrite fmap_app, <- app_assoc. done.
  - intros k Hk. rewrite fmap_app. intros [Hin|Hin]%elem_of_app; [by apply (Hn k); [right|]|]. apply list_elem_of_singleton in Hin. cbn in Hin. by subst.
Qed.

Lemma updated_keys l d : Forall (change_ok false) l -> (forall k, k ∈ l.*1 -> k ∈ d.*1) -> (written l d).*1 = d.*1.
Proof.
  intros H. revert d. induction H as [|[j o] l [_ Hx] H IH]; intros d Hn; [done|]. cbn [snd] in Hx. destruct o as [v|]; [|done].
  cbn [fold_left]. unfold write at 2. cbn [fst snd]. assert ((assoc_set j v d).*1 = d.*1) as He by (apply assoc_set_keys, Hn; by left).
  rewrite IH; [done|]. intros k Hk. rewrite He. apply Hn. by right.
Qed.

Lemma written_docs l d : Forall (fun x => match x.2 with Some v => x.1 = d_key v /\ valid_doc v | None => True end) l -> Forall entry_ok d ->
  Forall entry_ok (written l d).
Proof.
  intros H. revert d. induction H as [|[j o] l Hx H IH]; intros d Hd; [done|]. cbn [fold_left]. apply IH. unfold write. cbn [fst snd] in Hx |- *.
  destruct o as [v|].
  - apply Forall_forall. intros x Hin. apply assoc_set_elem in Hin as [->|Hin]; [done|]. by apply (proj1 (Forall_forall _ _) Hd).
  - apply Forall_forall. intros x Hin. unfold assoc_del in Hin. apply list_elem_of_In, filter_In in Hin as [Hin _].
    apply (proj1 (Forall_forall _ _) Hd). by apply list_elem_of_In.
Qed.

(** ** [apply] *)

(** The preconditions of a decoded command *)
Definition admissible (operation : Z) (c : command) (s : state) : Prop :=
  match c with
  | NoOp | DropIndex _ => True
  | CreateIndex v => i_field v ∉ i_field <$> indexes s
  | Mutate l => (forall k, k ∈ l.*1 -> (k ∈ (documents s).*1 <-> present operation = true))
      /\ Z.of_nat (length (documents s)) + (if adds operation then Z.of_nat (length l) else 0) <= 1024
  end.

(** What it makes of the documents, as a map and in their order, and of the indexes *)
Definition effect (operation : Z) (c : command) (s s' : state) : Prop :=
  match c with
  | NoOp => documents s' = documents s /\ indexes s' = indexes s
  | CreateIndex v => documents s' = documents s /\ indexes s' = merge_sort field_le (indexes s ++ [v])
  | DropIndex field => documents s' = documents s /\ indexes s' = List.filter (fun v => negb (bool_decide (i_field v = field))) (indexes s)
  | Mutate l => indexes s' = indexes s /\ (documents s').*1 = keys_after operation l (documents s).*1
      /\ forall k, assoc_get k (documents s') = match assoc_get k l with Some o => o | None => assoc_get k (documents s) end
  end.

Definition steps (operation : Z) (s : state) : Z := sequence s + (if operation =? 9 then 0 else 1).

Lemma written_keys operation l d : 1 <= operation <= 6 -> NoDup l.*1 -> Forall (change_ok (removes operation)) l ->
  (forall k, k ∈ l.*1 -> (k ∈ d.*1 <-> present operation = true)) -> (written l d).*1 = keys_after operation l d.*1.
Proof.
  intros Ho Hd Hf Hp. unfold keys_after.
  assert (operation = 1 \/ operation = 2 \/ operation = 3 \/ operation = 4 \/ operation = 5 \/ operation = 6) as Hc by lia.
  destruct_or! Hc; subst operation; cbn in Hf, Hp |- *.
  1,4: apply added_keys; [done..|]; intros k Hk Hin; by apply (Hp k Hk) in Hin.
  1,3: apply updated_keys; [done|]; intros k Hk; by apply (Hp k Hk).
  all: by apply removed_keys.
Qed.

Lemma filter_sorted (p : index -> bool) l : NoDup (i_field <$> l) -> StronglySorted string_le (i_field <$> l) ->
  NoDup (i_field <$> List.filter p l) /\ StronglySorted string_le (i_field <$> List.filter p l).
Proof.
  intros Hd Hs. induction l as [|v l IH]; [done|]. cbn [fmap list_fmap] in Hd, Hs. apply NoDup_cons in Hd as [Hn Hd].
  apply StronglySorted_inv in Hs as [Hs Hf]. destruct (IH Hd Hs) as [Hd' Hs']. cbn [List.filter]. destruct (p v); [|done].
  assert (forall f, f ∈ i_field <$> List.filter p l -> f ∈ i_field <$> l) as Hsub.
  { intros f Hin. apply list_elem_of_fmap in Hin as (w & -> & Hw). apply list_elem_of_fmap_2. apply list_elem_of_In, filter_In in Hw as [Hw _]. by apply list_elem_of_In. }
  cbn [fmap list_fmap]. split; constructor; [intros Hin; by apply Hn, Hsub|done|done|].
  apply Forall_forall. intros f Hf'. by apply (proj1 (Forall_forall _ _) Hf), Hsub.
Qed.

#[local] Instance field_le_trans : Transitive field_le.
Proof. intros a b c. unfold field_le. apply string_le_trans. Qed.
#[local] Instance field_le_total : Total field_le.
Proof. intros a b. apply string_le_total. Qed.

Lemma sorted_insert v l : StronglySorted string_le (i_field <$> merge_sort field_le (l ++ [v])).
Proof.
  assert (StronglySorted field_le (merge_sort field_le (l ++ [v]))) as H.
  { apply (StronglySorted_merge_sort field_le). }
  induction H as [|w k H IH Hf]; [constructor|]. cbn [fmap list_fmap]. constructor; [done|]. by apply Forall_fmap.
Qed.

Lemma length_keys {A B} (l : list (A * B)) : length l.*1 = length l.
Proof. apply length_fmap. Qed.

Lemma written_valid operation l s : valid s -> 1 <= operation <= 6 -> NoDup l.*1 -> Forall (change_ok (removes operation)) l ->
  admissible operation (Mutate l) s -> valid (State (written l (documents s)) (indexes s) (steps operation s)).
Proof.
  intros Hv Ho Hd Hf [Hp Hc]. pose proof (written_keys _ _ _ Ho Hd Hf Hp) as Hk. split; cbn [documents indexes]; try apply Hv.
  - rewrite Hk. unfold keys_after. destruct (removes operation); [apply NoDup_ListNoDup, List.NoDup_filter, NoDup_ListNoDup, Hv|].
    destruct (adds operation) eqn:Ha; [|apply Hv]. apply NoDup_app. split_and!; [apply Hv| |done]. intros k Hin Hin'.
    apply (Hp k Hin') in Hin. unfold adds, present, one_of in Ha, Hin. bool_tac. set_unfold in Ha. set_unfold in Hin. lia.
  - rewrite <- length_keys, Hk. pose proof (v_count _ Hv). rewrite <- length_keys in Hc. rewrite <- length_keys in H. unfold keys_after.
    destruct (removes operation); [etrans; [apply filter_length_le|done]|]. destruct (adds operation); [|done].
    rewrite length_app, (length_keys l). lia.
  - apply written_docs; [|apply Hv]. eapply Forall_impl; [exact Hf|]. intros [k o] [_ Hx]. cbn [snd fst] in Hx |- *. destruct o; naive_solver.
Qed.

Lemma apply_mutate operation payload l s : decode_command operation payload = Ok (Mutate l) ->
  apply operation payload s =
    if forallb (fun x => Bool.eqb (has_key x.1 (documents s)) (present operation)) l then
      if Z.of_nat (length (documents s)) + (if adds operation then Z.of_nat (length l) else 0) <=? 1024 then
        (if operation =? 9 then ret tt else modify bump) (State (written l (documents s)) (indexes s) (sequence s))
      else (Err (ValueError "rich document capacity"), s)
    else (Err (ValueError "rich mutation precondition"), s).
Proof.
  intros Hc. pose proof (for_each_needs l (fun x s => Bool.eqb (has_key x.1 (documents s)) (present operation)) "rich mutation precondition" s) as E.
  unfold apply, adds. fold (present operation). unfold bind, liftr, get, needs, need in E |- *. rewrite Hc, E. clear E.
  destruct (forallb _ l); [|done]. unfold guard, liftr. destruct (_ <=? 1024); [|done]. by rewrite for_each_modify, fold_set_documents.
Qed.

Lemma apply_command operation payload c s : decode_command operation payload = Ok c -> valid s ->
  (admissible operation c s /\ exists s', apply operation payload s = (Ok tt, s') /\ valid s' /\ sequence s' = steps operation s /\ effect operation c s s')
  \/ (~ admissible operation c s /\ exists msg, apply operation payload s = (Err (ValueError msg), s)).
Proof.
  intros Hc Hv. pose proof (decode_command_ok _ _ _ Hc) as Hk. destruct c as [|v|f|l].
  1,2,3: unfold apply, liftr; rewrite Hc; unfold bind at 1.
  - subst operation. left. split; [done|]. exists s. unfold bind, ret, steps. cbn. split_and!; [done|done|lia|done|done].
  - destruct Hk as [-> Hin]. cbn [Z.eqb admissible]. unfold needs, need, bind, get, liftr, guard. case_bool_decide as Hf; cbn [negb].
    + right. split; [naive_solver|]. by eexists.
    + left. split; [done|]. eexists. split; [reflexivity|]. unfold steps, bump, set_indexes. cbn [documents indexes sequence effect].
      assert (merge_sort field_le (indexes s ++ [v]) ≡ₚ v :: indexes s) as Hp by (rewrite merge_sort_Permutation; by rewrite Permutation_app_comm).
      split_and!; try done. split; cbn [documents indexes]; try apply Hv; [|rewrite Hp; constructor; [done|apply Hv]|apply sorted_insert].
      rewrite Hp. constructor; [done|apply Hv].
  - subst operation. left. split; [done|]. eexists. split; [reflexivity|]. unfold steps, bump, set_indexes. cbn [documents indexes sequence effect].
    split_and!; try done. destruct (filter_sorted (fun v => negb (bool_decide (i_field v = f))) _ (v_distinct _ Hv) (v_sorted _ Hv)) as [Hd Hs].
    split; cbn [documents indexes]; try apply Hv; [|done..]. apply Forall_forall. intros v Hin. apply list_elem_of_In, filter_In in Hin as [Hin _].
    apply (proj1 (Forall_forall _ _) (v_indexes _ Hv)). by apply list_elem_of_In.
  - destruct Hk as (Ho & Hd & Hf). rewrite (apply_mutate _ _ _ _ Hc).
    destruct (forallb _ l) eqn:Hpre; [rewrite forallb_forall in Hpre|].
    + assert (forall k, k ∈ l.*1 -> (k ∈ (documents s).*1 <-> present operation = true)) as Hp.
      { intros k Hin. apply list_elem_of_fmap in Hin as (x & -> & Hx). apply list_elem_of_In in Hx. specialize (Hpre x Hx).
        apply Bool.eqb_prop in Hpre. rewrite <- Hpre. unfold has_key. by rewrite bool_decide_eq_true. }
      destruct (Z.leb_spec (Z.of_nat (length (documents s)) + (if adds operation then Z.of_nat (length l) else 0)) 1024) as [Hle|Hgt].
      * left. assert (admissible operation (Mutate l) s) as Ha by done. split; [done|].
        assert (sequence s + 1 = steps operation s) as Hs by (unfold steps; by rewrite (proj2 (Z.eqb_neq operation 9)) by lia).
        rewrite (proj2 (Z.eqb_neq operation 9)) by lia. eexists. split; [reflexivity|]. unfold bump. cbn [documents indexes sequence]. rewrite Hs.
        split_and!; [by apply written_valid|done|]. split; [done|]. split; [by apply written_keys|]. intros k. by apply written_get.
      * right. split; [intros [_ H]; lia|]. by eexists.
    + right. split; [|by eexists]. intros [Hp _]. apply not_true_iff_false in Hpre. apply Hpre, forallb_forall. intros x Hx.
      apply list_elem_of_In in Hx. specialize (Hp x.1 ltac:(by apply list_elem_of_fmap_2)). unfold has_key. destruct (present operation).
      * rewrite bool_decide_true; [done|]. by apply Hp.
      * rewrite bool_decide_false; [done|]. intros Hin. by apply Hp in Hin.
Qed.

(** C35: applying a command either changes nothing and raises, or performs the whole command.  A payload that does not
    decode, or whose preconditions fail (added keys new, changed keys there, at most 1024 documents, a new index field),
    raises and leaves the state; any other gives a valid state with the next sequence (the same for NO_OP) whose
    documents are the old map with the changes written over it and whose keys keep their order. *)
Theorem rich_apply_exact operation payload s : valid s ->
  match decode_command operation payload with
  | Err e => apply operation payload s = (Err e, s)
  | Ok c =>
      (admissible operation c s /\ exists s', apply operation payload s = (Ok tt, s') /\ valid s' /\ sequence s' = steps operation s /\ effect operation c s s')
      \/ (~ admissible operation c s /\ exists msg, apply operation payload s = (Err (ValueError msg), s))
  end.
Proof.
  intros Hv. destruct (decode_command operation payload) as [c|e] eqn:Hc; [by apply apply_command|].
  unfold apply, bind at 1, liftr. by rewrite Hc.
Qed.

(** ** The program *)

Definition put_change (x : Z * option doc) : bytes :=
  blob (be_split 4 x.1) ++ match x.2 with Some d => blob (encode_document d) | None => [] end.

Lemma reads_changes removal new value : Forall (change_ok removal) new -> NoDup (value ++ new).*1 ->
  reads (read_changes (length new) removal value) (concat (put_change <$> new)) (value ++ new).
Proof.
  intros H. revert value. induction H as [|[k o] new [Hk Hx] H IH]; intros value Hd; cbn [length read_changes fmap list_fmap concat].
  - rewrite app_nil_r. apply reads_ret.
  - assert ((k, o).1 ∉ value.*1) as Hn.
    { rewrite fmap_app in Hd. apply NoDup_app in Hd as (_ & Hd & _). intros Hin. apply (Hd k Hin). by left. }
    eapply reads_bind with (x := (k, o)).
    + unfold read_change, put_change. cbn [fst snd] in Hk, Hx, Hn |- *. eapply reads_bind; [by apply reads_key|].
      intros r. unfold bind at 1. assert ((if removal then ret None else let* d := read_document in ret (Some d) : reader (option doc))
        (match o with Some d => blob (encode_document d) | None => [] end ++ r) = (Ok o, r)) as ->.
      { destruct removal, o as [d|]; [by destruct Hx|done| |done]. unfold bind. by rewrite (reads_document d) by apply Hx. }
      unfold check. apply feed_check; [destruct o; [|done]; apply Z.eqb_eq, Hx|].
      apply feed_check; [by apply negb_true_iff, bool_decide_eq_false|done].
    + rewrite (assoc app value [(k, o)] new : value ++ (k, o) :: new = (value ++ [(k, o)]) ++ new) in Hd |- *. by apply IH.
Qed.

Lemma put_change_length removal x : change_ok removal x -> (length (put_change x) <= 84)%nat.
Proof.
  intros [_ Hx]. unfold put_change. rewrite length_app, length_blob, length_be_split. destruct x.2 as [d|]; [|cbn; lia].
  rewrite length_blob. pose proof (valid_doc_length d ltac:(apply Hx)). lia.
Qed.

Lemma decode_mutation operation l : 1 <= operation <= 6 -> Forall (change_ok (removes operation)) l -> NoDup l.*1 ->
  (1 <= length l <= 16)%nat -> (operation < 4 -> length l = 1%nat) ->
  decode_command operation (be_split 2 1 ++ be_split 4 (Z.of_nat (length l)) ++ concat (put_change <$> l)) = Ok (Mutate l).
Proof.
  intros Ho Hf Hd Hl H1. unfold decode_command, need.
  assert (one_of operation OP_IDS.*2 = true) as ->.
  { unfold one_of. apply bool_decide_eq_true. cbn. set_unfold. lia. }
  pose proof (concat_length put_change 84 l) as Hc.
  specialize (Hc ltac:(intros x Hx; eapply put_change_length; by apply (proj1 (Forall_forall _ _) Hf))).
  rewrite (proj2 (Z.leb_le (Z.of_nat _) 2048)) by (rewrite !length_app, !length_be_split; lia). cbn [guard rbind].
  rewrite !(proj2 (Z.eqb_neq operation 9)) by lia. apply (run_exact _ _ _ []). unfold command_body.
  rewrite (proj2 (Z.eqb_neq operation 7)), (proj2 (Z.eqb_neq operation 8)) by lia.
  eapply feed; [apply reads_version|]. rewrite <- (app_nil_r (_ ++ concat _)). eapply feed; [|by apply feed_end].
  eapply reads_bind; [apply reads_count; lia|]. unfold check. eapply reads_check.
  { apply andb_true_iff. split; [apply Z.ltb_lt; lia|]. apply orb_true_iff. destruct (Z.leb_spec 4 operation) as [|Hlt]; [by left|right].
    rewrite H1 by lia. done. }
  rewrite Nat2Z.id. rewrite <- (app_nil_r (concat _)). eapply reads_bind; [by apply (reads_changes _ l [])|apply reads_ret].
Qed.

Lemma put_changes_all (f : Z -> doc) ks : put_changes ks (f <$> ks) = concat (put_change <$> ((fun k => (k, Some (f k))) <$> ks)).
Proof. induction ks as [|k ks IH]; [done|]. cbn [fmap list_fmap put_changes concat]. rewrite IH. unfold put_change. cbn [fst snd]. by rewrite <- app_assoc. Qed.
Lemma put_changes_none ks : put_changes ks [] = concat (put_change <$> ((fun k => (k, None)) <$> ks)).
Proof. induction ks as [|k ks IH]; [done|]. cbn [fmap list_fmap put_changes concat]. rewrite IH. unfold put_change. cbn [fst snd]. by rewrite app_nil_r. Qed.

(** A frozen plan: the seed and revisions the codec knows, and bulks and keys within its bounds *)
Definition cycles (p : smoke) : Z :=
  warmup_cycles p + fold_right Z.add 0 ((fun w => if bool_decide (w = "warmup"%string) then warmup_cycles p else cycles_per_window p) <$> windows p).
Record runnable (p : smoke) : Prop := {
  rn_seed : seed p = 17;
  rn_corpus : 64 <= corpus_documents p;
  rn_load : load_bulk_elements p <> 0;
  rn_bulk : 1 <= mutation_bulk_elements p <= 16;
  rn_capacity : corpus_documents p + mutation_bulk_elements p <= 1024;
  rn_counts : 0 <= first_cycle p /\ 0 <= warmup_cycles p /\ 0 <= cycles_per_window p;
  rn_revisions : first_cycle p + cycles p <= 9
}.

(** The state a plan starts from, when it can divide *)
Definition first_state (p : smoke) : state := State (corpus p) INDEXES (corpus_documents p / load_bulk_elements p).

Section Program.
Context (p : smoke) (Hp : runnable p).
Notation N := (corpus_documents p).
Notation base := (seqZ 1 N).

(** Between two cycles: the corpus keys in order, all indexes *)
Record ready (s : state) : Prop := { rd_valid : valid s; rd_keys : (documents s).*1 = base; rd_indexes : indexes s = INDEXES }.

Definition keys_of (c : Z) (operation : string) : list Z := op_keys p c operation.
Definition change_of (c : Z) (removal : bool) (k : Z) : Z * option doc := (k, if removal then None else Some (document k (c + 1) 17)).

Definition MUTATIONS : list (string * Z) := [("ADD", 1); ("UPDATE", 2); ("REMOVE", 3); ("ADD_ALL", 4); ("UPDATE_ALL", 5); ("REMOVE_ALL", 6)]%string.

Lemma op_payload_changes c operation n : (operation, n) ∈ MUTATIONS ->
  op_payload p c operation = be_split 2 1 ++ be_split 4 (op_size p operation) ++ concat (put_change <$> (change_of c (removes n) <$> op_keys p c operation)).
Proof using Hp.
  intros Hin. unfold op_payload, change_of. pose proof (rn_seed _ Hp) as Hs.
  repeat (apply elem_of_cons in Hin as [[= -> ->]|Hin]); [..|by apply not_elem_of_nil in Hin].
  1,2,4,5: match goal with |- context [op_keys p ?d ?o] =>
      transitivity (be_split 2 1 ++ be_split 4 (op_size p o) ++ put_changes (op_keys p d o) ((fun k => document k (d + 1) 17) <$> op_keys p d o)) end;
    [unfold op_documents; rewrite Hs; reflexivity|by rewrite put_changes_all].
  all: match goal with |- context [op_keys p ?d ?o] =>
      transitivity (be_split 2 1 ++ be_split 4 (op_size p o) ++ put_changes (op_keys p d o) []) end; [reflexivity|by rewrite put_changes_none].
Qed.

Definition fresh (c size : Z) : list Z := (fun i => 100000 + c * 100 + i) <$> seqZ 0 size.
Definition turning (c size : Z) : list Z := (fun i => 1 + (c + i) mod N) <$> seqZ 0 size.

Lemma elem_fresh c size k : k ∈ fresh c size <-> 100000 + c * 100 <= k < 100000 + c * 100 + size.
Proof using Type.
  unfold fresh. rewrite list_elem_of_fmap. split.
  - intros (i & -> & Hi). apply elem_of_seqZ in Hi. lia.
  - intros Hk. exists (k - 100000 - c * 100). split; [lia|]. apply elem_of_seqZ. lia.
Qed.
Lemma fresh_nodup c size : NoDup (fresh c size).
Proof using Type. apply NoDup_fmap_2; [intros i j; lia|apply NoDup_seqZ]. Qed.
Lemma elem_turning c size k : k ∈ turning c size -> k ∈ base.
Proof using Hp.
  pose proof (rn_corpus _ Hp). unfold turning. intros (i & -> & Hi)%list_elem_of_fmap. apply elem_of_seqZ.
  pose proof (Z.mod_pos_bound (c + i) N ltac:(lia)). lia.
Qed.
Lemma turning_nodup c size : size <= 16 -> NoDup (turning c size).
Proof using Hp.
  pose proof (rn_corpus _ Hp). intros Hs. unfold turning. apply NoDup_fmap_2_strong; [|apply NoDup_seqZ].
  intros i j Hi Hj Heq. apply elem_of_seqZ in Hi, Hj. assert ((c + i) mod N = (c + j) mod N) as He by lia.
  pose proof (Z.div_mod (c + i) N ltac:(lia)). pose proof (Z.div_mod (c + j) N ltac:(lia)). rewrite He in *.
  assert ((c + i) / N = (c + j) / N) by nia. nia.
Qed.

Lemma sizes operation : 1 <= op_size p operation <= 16.
Proof using Hp. pose proof (rn_bulk _ Hp). unfold op_size. destruct (ends_with _ _); lia. Qed.

Lemma mutation_keys c operation n : (operation, n) ∈ MUTATIONS ->
  op_keys p c operation = (if present n && negb (removes n) then turning c (op_size p operation) else fresh c (op_size p operation)).
Proof using Type.
  intros Hin. repeat (apply elem_of_cons in Hin as [[= -> ->]|Hin]); [reflexivity..|]. by apply not_elem_of_nil in Hin.
Qed.

Lemma mutation_keys_ok c operation n : (operation, n) ∈ MUTATIONS -> 0 <= c <= 8 ->
  NoDup (op_keys p c operation) /\ length (op_keys p c operation) = Z.to_nat (op_size p operation)
  /\ forall k, k ∈ op_keys p c operation -> in_int k = true.
Proof using Hp.
  intros Hin Hc. rewrite (mutation_keys _ _ _ Hin). pose proof (sizes operation) as Hs. pose proof (rn_capacity _ Hp). pose proof (rn_bulk _ Hp).
  destruct (_ && _).
  - split_and!; [apply turning_nodup; lia|unfold turning; by rewrite length_fmap, length_seqZ|]. intros k Hk.
    apply elem_turning, elem_of_seqZ in Hk. unfold in_int. lia.
  - split_and!; [apply fresh_nodup|unfold fresh; by rewrite length_fmap, length_seqZ|]. intros k Hk. apply elem_fresh in Hk. unfold in_int. lia.
Qed.

Lemma mutation_ids operation n : (operation, n) ∈ MUTATIONS -> 1 <= n <= 6 /\ (n < 4 -> op_size p operation = 1).
Proof using Type.
  intros Hin. repeat (apply elem_of_cons in Hin as [[= -> ->]|Hin]); [split; [lia|intros; (reflexivity || lia)]..|]. by apply not_elem_of_nil in Hin.
Qed.

Lemma mutation_decodes c operation n : (operation, n) ∈ MUTATIONS -> 0 <= c <= 8 ->
  decode_command n (op_payload p c operation) = Ok (Mutate (change_of c (removes n) <$> op_keys p c operation)).
Proof using Hp.
  intros Hin Hc. rewrite (op_payload_changes _ _ _ Hin). pose proof (sizes operation) as Hs.
  destruct (mutation_keys_ok c operation n Hin Hc) as (Hd & Hl & Hi).
  destruct (mutation_ids _ _ Hin) as [Hn H1].
  rewrite <- (decode_mutation n) by
    (done || (rewrite length_fmap, Hl; lia) || (rewrite <- list_fmap_compose; by rewrite list_fmap_id) ||
     (apply Forall_fmap, Forall_forall; intros k Hk; split; [by apply Hi|]; cbn; destruct (removes n); [done|]; split_and!; try done;
      split; [exists (c + 1); split; [lia|done]|by apply Hi])).
  rewrite length_fmap, Hl, Z2Nat.id by lia. done.
Qed.

(** One mutation of the program in a state that meets its preconditions *)
Lemma mutation_step s c operation n : (operation, n) ∈ MUTATIONS -> 0 <= c <= 8 -> valid s ->
  (forall k, k ∈ op_keys p c operation -> (k ∈ (documents s).*1 <-> present n = true)) ->
  Z.of_nat (length (documents s)) + (if adds n then op_size p operation else 0) <= 1024 ->
  exists s', apply n (op_payload p c operation) s = (Ok tt, s') /\ valid s' /\ sequence s' = sequence s + 1 /\ indexes s' = indexes s
    /\ (documents s').*1 = (if removes n then List.filter (fun k => negb (bool_decide (k ∈ op_keys p c operation))) (documents s).*1
                            else if adds n then (documents s).*1 ++ op_keys p c operation else (documents s).*1).
Proof using Hp.
  intros Hin Hc Hv Hpre Hcap. pose proof (sizes operation) as Hs. destruct (mutation_keys_ok c operation n Hin Hc) as (_ & Hl & _).
  assert ((change_of c (removes n) <$> op_keys p c operation).*1 = op_keys p c operation) as Hk by (rewrite <- list_fmap_compose; by rewrite list_fmap_id).
  destruct (apply_command n _ _ s (mutation_decodes c operation n Hin Hc) Hv) as [(_ & s' & Ha & Hv' & Hs' & Hi & Hkeys & _)|[Hno _]].
  - exists s'. split_and!; [done..| |done|].
    + rewrite Hs'. unfold steps. destruct (mutation_ids _ _ Hin) as [Hn _]. by rewrite (proj2 (Z.eqb_neq n 9)) by lia.
    + rewrite Hkeys. unfold keys_after. by rewrite Hk.
  - exfalso. apply Hno. split; [by rewrite Hk|]. rewrite length_fmap, Hl, Z2Nat.id by lia. done.
Qed.

(** ** Runs *)

(** The calls lead from [s] to [s'] with at most [m] documents in between. *)
Definition runs (calls : list (result call)) (s s' : state) (m : nat) : Prop := forall peak, exists rows peak',
  play calls peak s = (Ok (rows, peak'), s') /\ length rows = length calls /\ (peak' <= Nat.max peak m)%nat.

Lemma play_app l1 l2 peak s rows q s1 rows2 q2 s2 :
  play l1 peak s = (Ok (rows, q), s1) -> play l2 q s1 = (Ok (rows2, q2), s2) -> play (l1 ++ l2) peak s = (Ok (rows ++ rows2, q2), s2).
Proof using Type.
  revert peak s rows. induction l1 as [|c l1 IH]; intros peak s rows H1 H2; cbn [app play] in H1 |- *.
  - by apply ret_ok in H1 as [[= <- ->] ->].
  - apply bind_ok in H1 as (c' & s0 & Hc & H1). rewrite (bind_eq _ _ _ _ _ Hc).
    apply bind_ok in H1 as (x & s' & Hx & H1). rewrite (bind_eq _ _ _ _ _ Hx). apply bind_ok in H1 as ([rs q'] & s3 & Hr & H1).
    apply ret_ok in H1 as [[= <- <-] <-]. by rewrite (bind_eq _ _ _ _ _ (IH _ _ _ Hr H2)).
Qed.

Lemma runs_nil s m : runs [] s s m.
Proof using Type. intros peak. exists [], peak. split_and!; [done|done|lia]. Qed.

Lemma runs_app l1 l2 s1 s2 s3 m : runs l1 s1 s2 m -> runs l2 s2 s3 m -> runs (l1 ++ l2) s1 s3 m.
Proof using Type.
  intros H1 H2 peak. destruct (H1 peak) as (r1 & q1 & P1 & L1 & Q1). destruct (H2 q1) as (r2 & q2 & P2 & L2 & Q2).
  exists (r1 ++ r2), q2. split_and!; [by eapply play_app|rewrite !length_app; lia|lia].
Qed.

Lemma runs_one c s s' m x : play_call c s = (Ok x, s') -> (r_document_count x <= m)%nat -> runs [Ok c] s s' m.
Proof using Type.
  intros H Hm peak. exists [x], (Nat.max peak (r_document_count x)). split_and!; [|done|lia].
  cbn [play]. rewrite (bind_eq _ _ s c s) by done. by rewrite (bind_eq _ _ _ _ _ H).
Qed.

Lemma runs_write c s s' m n : op_id (c_operation c) = Some n -> apply n (c_payload c) s = (Ok tt, s') ->
  (length (documents s') <= m)%nat -> runs [Ok c] s s' m.
Proof using Type.
  intros Hn Ha Hm. eapply runs_one.
  - unfold play_call. rewrite Hn. unfold bind, get. rewrite Ha. reflexivity.
  - exact Hm.
Qed.

Lemma runs_read c s m a : op_id (c_operation c) = None -> answer_of (c_operation c) (c_cycle c) s = Ok a ->
  (length (documents s) <= m)%nat -> runs [Ok c] s s m.
Proof using Type.
  intros Hn Ha Hm. eapply runs_one.
  - unfold play_call. rewrite Hn. unfold bind, get, liftr. rewrite Ha. reflexivity.
  - exact Hm.
Qed.

Definition call_of (w : string) (c : Z) (operation : string) : call :=
  Call w c operation (op_keys p c operation) (op_documents p c operation) (op_payload p c operation).
Definition most : nat := Z.to_nat (N + mutation_bulk_elements p).

(** Added keys leave again, and updates in between keep the keys. *)
Lemma filter_fresh c size : 0 <= c -> List.filter (fun k => negb (bool_decide (k ∈ fresh c size))) (base ++ fresh c size) = base.
Proof using Hp.
  intros Hc. pose proof (rn_capacity _ Hp). pose proof (rn_bulk _ Hp). rewrite List.filter_app.
  assert (forall l, (forall k, k ∈ l -> k ∉ fresh c size) -> List.filter (fun k => negb (bool_decide (k ∈ fresh c size))) l = l) as Hkeep.
  { induction l as [|k l IH]; intros Hl; [done|]. cbn [List.filter]. rewrite bool_decide_false by (apply Hl; by left). cbn [negb]. f_equal.
    apply IH. intros j Hj. apply Hl. by right. }
  assert (forall l, (forall k, k ∈ l -> k ∈ fresh c size) -> List.filter (fun k => negb (bool_decide (k ∈ fresh c size))) l = []) as Hdrop.
  { induction l as [|k l IH]; intros Hl; [done|]. cbn [List.filter]. rewrite bool_decide_true by (apply Hl; by left). cbn [negb].
    apply IH. intros j Hj. apply Hl. by right. }
  rewrite Hkeep, Hdrop, app_nil_r; [done|done|]. intros k Hk Hin. apply elem_of_seqZ in Hk. apply elem_fresh in Hin. lia.
Qed.

Lemma three_calls w c add upd rem s : ready s -> 0 <= c <= 8 ->
  (add, upd, rem) = ("ADD", "UPDATE", "REMOVE")%string \/ (add, upd, rem) = ("ADD_ALL", "UPDATE_ALL", "REMOVE_ALL")%string ->
  exists s', runs (Ok <$> [call_of w c add; call_of w c upd; call_of w c rem]) s s' most /\ ready s' /\ sequence s' = sequence s + 3.
Proof using Hp.
  intros [Hv Hk Hi] Hc Hn. pose proof (rn_corpus _ Hp). pose proof (rn_capacity _ Hp). pose proof (rn_bulk _ Hp).
  assert (exists na nu nr, (add, na) ∈ MUTATIONS /\ (upd, nu) ∈ MUTATIONS /\ (rem, nr) ∈ MUTATIONS
    /\ op_id add = Some na /\ op_id upd = Some nu /\ op_id rem = Some nr /\ op_size p add = op_size p rem
    /\ (present na, removes na, adds na) = (false, false, true) /\ (present nu, removes nu, adds nu) = (true, false, false)
    /\ (present nr, removes nr, adds nr) = (true, true, false)) as (na & nu & nr & Ma & Mu & Mr & Ia & Iu & Ir & Hsz & [= Pa Ra Aa] & [= Pu Ru Au] & [= Pr Rr Ar]).
  { destruct Hn as [[= -> -> ->]|[= -> -> ->]]; [exists 1, 2, 3|exists 4, 5, 6]; split_and!; try reflexivity; by apply (bool_decide_unpack _). }
  pose proof (sizes add) as Hsa. assert (op_size p add <= mutation_bulk_elements p) as Hsb by (unfold op_size; destruct (ends_with _ _); lia).
  assert (op_keys p c add = fresh c (op_size p add)) as Ka by (rewrite (mutation_keys _ _ _ Ma), Pa; done).
  assert (op_keys p c upd = turning c (op_size p upd)) as Ku by (rewrite (mutation_keys _ _ _ Mu), Pu, Ru; done).
  assert (op_keys p c rem = fresh c (op_size p add)) as Kr by (rewrite (mutation_keys _ _ _ Mr), Pr, Rr, Hsz; done).
  assert (length base = Z.to_nat N) as Hlb by apply length_seqZ.
  assert (length (fresh c (op_size p add)) = Z.to_nat (op_size p add)) as Hlf by (unfold fresh; by rewrite length_fmap, length_seqZ).
  assert (forall st, length (documents st) = length (documents st).*1) as Hlen by (intros st; by rewrite length_fmap).
  destruct (mutation_step s c add na Ma Hc Hv) as (s1 & A1 & V1 & Q1 & I1 & K1).
  { rewrite Ka, Hk, Pa. intros k Hkf. apply elem_fresh in Hkf. rewrite elem_of_seqZ. split; [lia|done]. }
  { rewrite Hlen, Hk, Aa. lia. }
  rewrite Ra, Aa, Ka, Hk in K1.
  destruct (mutation_step s1 c upd nu Mu Hc V1) as (s2 & A2 & V2 & Q2 & I2 & K2).
  { rewrite Ku, K1, Pu. intros k Hkt. split; [done|intros _]. apply elem_of_app. left. by eapply elem_turning. }
  { rewrite Hlen, K1, Au, length_app. lia. }
  rewrite Ru, Au, K1 in K2.
  destruct (mutation_step s2 c rem nr Mr Hc V2) as (s3 & A3 & V3 & Q3 & I3 & K3).
  { rewrite Kr, K2, Pr. intros k Hkt. split; [done|intros _]. apply elem_of_app. by right. }
  { rewrite Hlen, K2, Ar, length_app. lia. }
  rewrite Rr, Kr, K2, filter_fresh in K3 by lia. exists s3. split; [|split; [split; [done|done|congruence]|lia]].
  apply (runs_app [Ok (call_of w c add)] _ _ s1); [eapply runs_write; [exact Ia|exact A1|rewrite Hlen, K1, length_app; unfold most; lia]|].
  apply (runs_app [Ok (call_of w c upd)] _ _ s2); [eapply runs_write; [exact Iu|exact A2|rewrite Hlen, K2, length_app; unfold most; lia]|].
  eapply runs_write; [exact Ir|exact A3|rewrite Hlen, K3; unfold most; lia].
Qed.

Lemma drop_create w c s : ready s ->
  exists s', runs (Ok <$> [call_of w c "INDEX_DROP"; call_of w c "INDEX_CREATE"]) s s' most /\ ready s' /\ sequence s' = sequence s + 2.
Proof using Hp.
  intros [Hv Hk Hi]. pose proof (rn_capacity _ Hp). pose proof (rn_bulk _ Hp). pose proof (rn_corpus _ Hp).
  assert (decode_command 8 (op_payload p c "INDEX_DROP") = Ok (DropIndex "category")) as D1 by (vm_compute; reflexivity).
  assert (decode_command 7 (op_payload p c "INDEX_CREATE") = Ok (CreateIndex (Index "" "category" "equality"))) as D2 by (vm_compute; reflexivity).
  assert (forall st, length (documents st) = length (documents st).*1) as Hlen by (intros st; by rewrite length_fmap).
  assert (length base = Z.to_nat N) as Hlb by apply length_seqZ.
  destruct (apply_command 8 _ _ s D1 Hv) as [(_ & s1 & A1 & V1 & Q1 & K1 & I1)|[Hno _]]; [|by destruct Hno].
  set (dropped := [Index "gse-simple-v1" "body" "text"; Index "" "price" "range"; Index "" "title" "prefix"]).
  assert (indexes s1 = dropped) as J1 by (rewrite I1, Hi; vm_compute; reflexivity).
  assert (merge_sort field_le (dropped ++ [Index "" "category" "equality"]) = INDEXES) as J2 by (vm_compute; reflexivity).
  destruct (apply_command 7 _ _ s1 D2 V1) as [(_ & s2 & A2 & V2 & Q2 & K2 & I2)|[Hno _]].
  - rewrite J1, J2 in I2. exists s2. split; [|split; [split; [done|congruence|exact I2]|unfold steps in Q1, Q2; cbn in Q1, Q2; lia]].
    apply (runs_app [Ok (call_of w c "INDEX_DROP")] _ _ s1).
    + eapply (runs_write _ _ _ _ 8); [reflexivity|exact A1|rewrite Hlen, K1, Hk; unfold most; lia].
    + eapply (runs_write _ _ _ _ 7); [reflexivity|exact A2|rewrite Hlen, K2, K1, Hk; unfold most; lia].
  - exfalso. apply Hno. unfold admissible. rewrite J1. by apply (bool_decide_unpack _).
Qed.

Lemma read_pair_runs w c s : ready s -> 0 <= c -> runs (Ok <$> [call_of w c "GET"; call_of w c "QUERY"]) s s most.
Proof using Hp.
  intros [Hv Hk Hi] Hc. pose proof (rn_capacity _ Hp). pose proof (rn_bulk _ Hp). pose proof (rn_corpus _ Hp).
  assert (length (documents s) <= most)%nat as Hm.
  { rewrite <- (length_fmap fst), Hk, length_seqZ. unfold most. lia. }
  apply (runs_app [Ok (call_of w c "GET")] _ _ s).
  - assert (1 + c mod 64 ∈ (documents s).*1) as Hin.
    { rewrite Hk. apply elem_of_seqZ. pose proof (Z.mod_pos_bound c 64 ltac:(lia)). lia. }
    apply list_elem_of_fmap in Hin as ([k d] & Hkd & Hin). cbn in Hkd. subst k.
    pose proof (assoc_get_NoDup _ _ _ (v_keys _ Hv) Hin) as Hg.
    eapply runs_read; [reflexivity| |exact Hm]. unfold answer_of, call_of. cbn [c_operation c_cycle]. rewrite bool_decide_true by done.
    rewrite Hg. reflexivity.
  - eapply runs_read; [reflexivity| |exact Hm]. reflexivity.
Qed.

(** The generator raises nothing. *)
Lemma call_generated w c operation : operation ∈ OPERATIONS -> 0 <= c <= 8 -> generated p w c operation = Ok (call_of w c operation).
Proof using Hp.
  intros Hin Hc. pose proof (rn_corpus _ Hp). unfold generated. rewrite (proj2 (Z.eqb_neq (corpus_documents p) 0)), andb_false_r by lia.
  cbn [negb guard rbind]. assert (packs p c operation = true) as ->; [|done]. unfold packs.
  destruct (decide (operation ∈ MUTATIONS.*1)) as [Hm|Hm].
  - apply list_elem_of_fmap in Hm as ([o n] & -> & Hm). cbn [fst]. destruct (mutation_keys_ok c o n Hm Hc) as (_ & _ & Hi). pose proof (sizes o).
    assert (forallb in_int (op_size p o :: op_keys p c o) = true) as ->; [|by destruct (op_id o); rewrite ?orb_true_r].
    apply forallb_forall. intros k [<-|Hk]; [unfold in_int; lia|]. by apply Hi, list_elem_of_In.
  - unfold OPERATIONS in Hin. repeat (apply elem_of_cons in Hin as [->|Hin]; [first [reflexivity|exfalso; apply Hm; by apply (bool_decide_unpack _)]|]).
    by apply not_elem_of_nil in Hin.
Qed.
Lemma cycle_generated w c : 0 <= c <= 8 -> cycle_calls p w c = Ok <$> (call_of w c <$> OPERATIONS).
Proof using Hp.
  intros Hc. unfold cycle_calls. rewrite <- list_fmap_compose. apply list_fmap_ext. intros i o Ho. apply list_elem_of_lookup_2 in Ho.
  by apply call_generated.
Qed.

Lemma one_cycle w c s : ready s -> 0 <= c <= 8 ->
  exists s', runs (cycle_calls p w c) s s' most /\ ready s' /\ sequence s' = sequence s + 8.
Proof using Hp.
  intros Hr Hc. rewrite cycle_generated by done. change (Ok <$> (call_of w c <$> OPERATIONS)) with
    ((Ok <$> [call_of w c "ADD"; call_of w c "UPDATE"; call_of w c "REMOVE"])
     ++ (Ok <$> [call_of w c "ADD_ALL"; call_of w c "UPDATE_ALL"; call_of w c "REMOVE_ALL"])
     ++ (Ok <$> [call_of w c "INDEX_DROP"; call_of w c "INDEX_CREATE"]) ++ (Ok <$> [call_of w c "GET"; call_of w c "QUERY"])).
  destruct (three_calls w c "ADD" "UPDATE" "REMOVE" s Hr Hc) as (s1 & R1 & H1 & Q1); [by left|].
  destruct (three_calls w c "ADD_ALL" "UPDATE_ALL" "REMOVE_ALL" s1 H1 Hc) as (s2 & R2 & H2 & Q2); [by right|].
  destruct (drop_create w c s2 H2) as (s3 & R3 & H3 & Q3). exists s3. split_and!; [|done|lia].
  eapply runs_app; [exact R1|]. eapply runs_app; [exact R2|]. eapply runs_app; [exact R3|]. apply read_pair_runs; [done|lia].
Qed.

Lemma many_cycles w n c s : ready s -> 0 <= c -> c + Z.of_nat n <= 9 ->
  exists s', runs (mbind (cycle_calls p w) (seqZ c (Z.of_nat n))) s s' most /\ ready s' /\ sequence s' = sequence s + 8 * Z.of_nat n.
Proof using Hp.
  revert c s. induction n as [|n IH]; intros c s Hr Hc Hn; [exists s; split_and!; [apply runs_nil|done|lia]|].
  rewrite seqZ_cons by lia. destruct (one_cycle w c s Hr ltac:(lia)) as (s1 & R1 & H1 & Q1).
  destruct (IH (c + 1) s1 H1 ltac:(lia) ltac:(lia)) as (s2 & R2 & H2 & Q2). exists s2. split_and!; [|done|lia].
  replace (Z.pred (Z.of_nat (S n))) with (Z.of_nat n) by lia. replace (Z.succ c) with (c + 1) by lia. cbn [mbind list_bind]. by eapply runs_app.
Qed.

Lemma window_runs ws c s : ready s -> 0 <= c -> Forall (fun w : string * Z => 0 <= w.2) ws -> c + fold_right Z.add 0 ws.*2 <= 9 ->
  exists s', runs (window_calls p c ws) s s' most /\ ready s' /\ sequence s' = sequence s + 8 * fold_right Z.add 0 ws.*2.
Proof using Hp.
  intros Hr Hc Hw. revert c s Hr Hc. induction Hw as [|[w n] ws Hn Hw IH]; intros c s Hr Hc Hsum; [exists s; split_and!; [apply runs_nil|done|cbn; lia]|].
  cbn [fmap list_fmap fold_right snd] in Hsum, Hn |- *.
  assert (0 <= fold_right Z.add 0 ws.*2) as Hpos by (clear -Hw; induction Hw; cbn; lia).
  destruct (many_cycles w (Z.to_nat n) c s Hr Hc ltac:(lia)) as (s1 & R1 & H1 & Q1). rewrite Z2Nat.id in R1, Q1 by lia.
  destruct (IH (c + Z.max 0 n) s1 H1 ltac:(lia) ltac:(lia)) as (s2 & R2 & H2 & Q2). exists s2. split_and!; [|done|lia].
  cbn [window_calls]. by eapply runs_app.
Qed.

Lemma initial_first : initial p = Ok (first_state p).
Proof using Hp. unfold initial, floor_div. by rewrite (proj2 (Z.eqb_neq _ _)) by apply (rn_load _ Hp). Qed.

Lemma initial_ready : ready (first_state p).
Proof using Hp.
  pose proof (rn_capacity _ Hp). pose proof (rn_bulk _ Hp). pose proof (rn_corpus _ Hp).
  assert ((documents (first_state p)).*1 = base) as Hk by (unfold first_state, corpus; cbn [documents]; rewrite <- list_fmap_compose; apply list_fmap_id).
  split; [split|exact Hk|done].
  - rewrite Hk. apply NoDup_seqZ.
  - rewrite <- (length_fmap fst), Hk, length_seqZ. lia.
  - unfold first_state, corpus. cbn [documents]. apply Forall_fmap, Forall_forall. intros k Hin. apply elem_of_seqZ in Hin. split; [done|]. cbn [snd compose].
    split; [|unfold in_int; cbn [d_key document]; lia]. exists 0. rewrite (rn_seed _ Hp). split; [lia|done].
  - by apply Forall_forall.
  - vm_compute. repeat constructor; set_solver.
  - replace (i_field <$> indexes (first_state p)) with (merge_sort string_le (i_field <$> INDEXES)) by (vm_compute; reflexivity).
    apply (StronglySorted_merge_sort string_le).
Qed.
End Program.

(** C36: the program of a frozen plan runs to its end.  Every call succeeds; the last state is valid, with the corpus keys
    in their first order and all the indexes, eight sequence steps per cycle behind the first state's; there is a row per call, and
    never more documents than the corpus and one bulk. *)
Theorem rich_program_runs p : runnable p ->
  exists rows s peak, expected p = Ok (rows, s, peak) /\ length rows = length (program p) /\ valid s
    /\ (documents s).*1 = seqZ 1 (corpus_documents p) /\ indexes s = INDEXES
    /\ sequence s = corpus_documents p / load_bulk_elements p + 8 * cycles p
    /\ Z.of_nat peak <= corpus_documents p + mutation_bulk_elements p.
Proof.
  intros Hp. destruct (rn_counts _ Hp) as (Hf & Hw & Hc). pose proof (rn_revisions _ Hp) as Hr.
  set (ws := ("warmup"%string, warmup_cycles p) :: ((fun w => (w, if bool_decide (w = "warmup"%string) then warmup_cycles p else cycles_per_window p)) <$> windows p)).
  assert (fold_right Z.add 0 ws.*2 = cycles p) as Hsum by (unfold ws, cycles; cbn [fmap list_fmap fold_right snd]; by rewrite <- list_fmap_compose).
  destruct (window_runs p Hp ws (first_cycle p) (first_state p) (initial_ready p Hp) Hf) as (s & Hruns & [Hv Hk Hi] & Hs).
  - constructor; [exact Hw|]. apply Forall_fmap, Forall_true. intros w. cbn. destruct (bool_decide _); lia.
  - rewrite Hsum. lia.
  - destruct (Hruns (length (documents (first_state p)))) as (rows & peak & Hplay & Hl & Hpk). rewrite Hsum in Hs.
    exists rows, s, peak. unfold expected, program. fold ws. rewrite initial_first by done. cbn [rbind]. rewrite Hplay. split_and!; [done..|].
    pose proof (rn_corpus _ Hp). pose proof (rn_bulk _ Hp). unfold most in Hpk.
    assert (length (documents (first_state p)) = Z.to_nat (corpus_documents p)) as Hlen by (unfold first_state, corpus; cbn [documents]; by rewrite length_fmap, length_seqZ).
    lia.
Qed.

(** ** Witnesses: the plan of [phase6-plan.json] *)

Lemma local_runnable : runnable local_smoke.
Proof. split; cbn; try lia. done. Qed.

Lemma rich_program_runs_witness : exists rows s peak, expected local_smoke = Ok (rows, s, peak) /\ length rows = 90%nat /\ sequence s = 76.
Proof.
  destruct (rich_program_runs local_smoke local_runnable) as (rows & s & peak & He & Hl & _ & _ & _ & Hs & _).
  exists rows, s, peak. split_and!; [exact He|rewrite Hl; vm_compute; reflexivity|rewrite Hs; vm_compute; reflexivity].
Defined.

Lemma rich_apply_exact_witness :
  let s := first_state local_smoke in
  (exists s', apply 5 (op_payload local_smoke 0 "UPDATE_ALL") s = (Ok tt, s') /\ valid s' /\ sequence s' = 5)
  /\ apply 1 (op_payload local_smoke 0 "UPDATE") s = (Err (ValueError "rich mutation precondition"), s).
Proof.
  intros s. assert (valid s) as Hv by apply (rd_valid _ _ (initial_ready local_smoke local_runnable)). split.
  - pose proof (rich_apply_exact 5 (op_payload local_smoke 0 "UPDATE_ALL") s Hv) as H.
    assert (is_ok (apply 5 (op_payload local_smoke 0 "UPDATE_ALL") s).1 = true) as Hok by (vm_compute; reflexivity).
    destruct (decode_command 5 (op_payload local_smoke 0 "UPDATE_ALL")) as [c|e]; [|rewrite H in Hok; discriminate Hok].
    destruct H as [(_ & s' & Ha & Hv' & Hs & _)|[_ [msg Ha]]]; [|rewrite Ha in Hok; discriminate Hok].
    exists s'. split_and!; [exact Ha|exact Hv'|exact Hs].
  - pose proof (rich_apply_exact 1 (op_payload local_smoke 0 "UPDATE") s Hv) as H.
    assert ((apply 1 (op_payload local_smoke 0 "UPDATE") s).1 = Err (ValueError "rich mutation precondition")) as Hok by (vm_compute; reflexivity).
    destruct (decode_command 1 (op_payload local_smoke 0 "UPDATE")) as [c|e].
    + destruct H as [(_ & s' & Ha & _)|[_ [msg Ha]]]; rewrite Ha in Hok; [discriminate Hok|]. injection Hok as ->. exact Ha.
    + rewrite H in Hok. injection Hok as ->. exact H.
Defined.

(** The state after a small program, written and read back *)
Example image_read_back :
  let s := first_state (Smoke 17 3 1 0 0 0 1 []) in application (application_bytes s) 3 = Ok s.
Proof. vm_compute. reflexivity. Qed.
