(* ===== verification/ReadToken.v ===== *)
(** * The read tokens of V5.2 ([scripts/v52/token.py])

    A token is 112 bytes: a magic number, the version, group and history identities, the digest of the
    manifest, the index, and the SHA-256 of all that under a domain prefix. *)

From Stdlib Require Import Ascii.
From stdpp Require Import base list strings.
From S2P Require Import Prelude Bytes Sha256 Files Json ReplicaFrames TextCodes.
Import ResultNotations.
Local Open Scope py_scope.
Local Open Scope Z_scope.

#[local] Opaque be_split sha256.

Definition invalid_token : exn := ValueError "INVALID_TOKEN".
Definition unsupported_version : exn := ValueError "UNSUPPORTED_TOKEN_VERSION".

(** [b'gse-replica-read-token/1\0'] *)
Definition DOMAIN : bytes := utf8 "gse-replica-read-token/1" ++ [Byte.x00].
(** [b'GSRT'], and the same with version and padding *)
Definition MAGIC : bytes := utf8 "GSRT".
Definition token_head : bytes := MAGIC ++ [Byte.x01; Byte.x00; Byte.x00; Byte.x00].

(** The dictionary of a token; the code checks the types of [version] and [index] itself. *)
Record token := Token {
  tk_version : json; tk_group : string; tk_history : string; tk_manifest : string; tk_index : json }.

(** [raw[a:b]] *)
Definition slice (a b : nat) (raw : bytes) : bytes := take (b - a) (drop a raw).

Definition decode (raw : bytes) : result token :=
  do! guard ((length raw =? 112)%nat && bool_decide (slice 0 4 raw = MAGIC)) invalid_token in
  do! guard (bool_decide (slice 4 5 raw = [Byte.x01])) unsupported_version in
  do! guard (bool_decide (slice 5 8 raw = replicate 3 Byte.x00)
             && bool_decide (sha256 (DOMAIN ++ take 80 raw) = drop 80 raw)) invalid_token in
  let index := to_signed 8 (be_join (slice 72 80 raw)) in
  do! guard (0 <=? index) invalid_token in
  Ok (Token (JInt 1) (uuid_text (slice 8 24 raw)) (uuid_text (slice 24 40 raw)) (hex (slice 40 72 raw)) (JInt index)).

Section Token.
Context (to_ascii : Z -> ascii).

Definition encode (value : token) : result bytes :=
  do! (match tk_version value with JInt v => guard (v =? 1) unsupported_version | _ => Err unsupported_version end) in
  let! index :=
    (match tk_index value with
     | JInt i => do! guard ((0 <=? i) && (i <=? 2 ^ 63 - 1)) invalid_token in Ok i
     | _ => Err invalid_token
     end) in
  let! digest := of_option (from_hex (tk_manifest value)) (ValueError "non-hexadecimal number found in fromhex() arg") in
  do! guard ((length digest =? 32)%nat && bool_decide (hex digest = tk_manifest value)) invalid_token in
  let! group := uuid_bytes to_ascii (tk_group value) in
  let! history := uuid_bytes to_ascii (tk_history value) in
  let body := token_head ++ group ++ history ++ digest ++ be_split 8 index in
  Ok (body ++ sha256 (DOMAIN ++ body)).

(** ** Lemmas *)

Lemma length_uuid_bytes s b : uuid_bytes to_ascii s = Ok b -> length b = 16%nat.
Proof. unfold uuid_bytes. cbv zeta. intros H. ok_inv H. injection H as <-. apply length_be_split. Qed.

Lemma slice_app_l n (a b : bytes) : length a = n -> slice 0 n (a ++ b) = a.
Proof. intros <-. unfold slice. by rewrite drop_0, Nat.sub_0_r, take_app_length. Qed.

Lemma slice_app_r k i j (a b : bytes) : length a = k -> (k <= i)%nat -> slice i j (a ++ b) = slice (i - k) (j - k) b.
Proof.
  intros <- Hi. unfold slice. rewrite drop_app_ge by done. f_equal. lia.
Qed.

(** The fields of a body of eighty bytes *)
Lemma slices (raw : bytes) :
  (80 <= length raw)%nat ->
  take 80 raw = slice 0 4 raw ++ slice 4 5 raw ++ slice 5 8 raw ++ slice 8 24 raw ++ slice 24 40 raw ++ slice 40 72 raw ++ slice 72 80 raw.
Proof.
  intros Hl. unfold slice. cbn [Nat.sub]. rewrite drop_0.
  assert (forall i n m, take n (drop i raw) ++ take m (drop (i + n) raw) = take (n + m) (drop i raw)) as Hj.
  { intros i n m. rewrite <- drop_drop. apply take_take_drop. }
  rewrite !(Hj 40%nat 32%nat), !(Hj 24%nat 16%nat), !(Hj 8%nat 16%nat), !(Hj 5%nat 3%nat), !(Hj 4%nat 1%nat). cbn [Nat.add].
  by rewrite take_take_drop.
Qed.

Lemma encode_ok value raw :
  encode value = Ok raw ->
  exists index group history digest,
    tk_version value = JInt 1 /\ tk_index value = JInt index /\ 0 <= index < 2 ^ 63 /\
    tk_manifest value = hex digest /\ length digest = 32%nat /\
    uuid_bytes to_ascii (tk_group value) = Ok group /\ uuid_bytes to_ascii (tk_history value) = Ok history /\
    raw = (token_head ++ group ++ history ++ digest ++ be_split 8 index)
          ++ sha256 (DOMAIN ++ token_head ++ group ++ history ++ digest ++ be_split 8 index).
Proof.
  unfold encode. intros H. apply rbind_ok in H as ([] & Hv & H). apply rbind_ok in H as (index & Hi & H).
  apply rbind_ok in H as (digest & Hd & H). apply rbind_ok in H as ([] & Hc%guard_ok & H).
  apply rbind_ok in H as (group & Hg & H). apply rbind_ok in H as (history & Hh & H). injection H as <-.
  destruct (tk_version value) as [| |v| | |]; try done. apply guard_ok in Hv.
  destruct (tk_index value) as [| |i| | |]; try done. apply rbind_ok in Hi as ([] & Hr%guard_ok & Hi). injection Hi as <-.
  bool_tac. subst v. exists i, group, history, digest. split_and!; try done. lia.
Qed.

(** The fields of an accepted token *)
Lemma decode_ok raw t :
  decode raw = Ok t ->
  exists index group history digest,
    0 <= index < 2 ^ 63 /\ length digest = 32%nat /\ length group = 16%nat /\ length history = 16%nat /\
    t = Token (JInt 1) (uuid_text group) (uuid_text history) (hex digest) (JInt index) /\
    raw = (token_head ++ group ++ history ++ digest ++ be_split 8 index)
          ++ sha256 (DOMAIN ++ token_head ++ group ++ history ++ digest ++ be_split 8 index).
Proof.
  unfold decode. intros H. apply rbind_ok in H as ([] & Hl%guard_ok & H). apply rbind_ok in H as ([] & Hv%guard_ok & H).
  apply rbind_ok in H as ([] & Hs%guard_ok & H). apply rbind_ok in H as ([] & Hi%guard_ok & H). injection H as <-. bool_tac.
  assert (length (slice 72 80 raw) = 8%nat) as Hn by (unfold slice; rewrite length_take, length_drop; lia).
  eexists _, _, _, _. split_and!; [|..|reflexivity|].
  - lia.
  - pose proof (to_signed_range 8 (slice 72 80 raw)) as Hr. unfold signed_range in Hr. lia.
  - unfold slice; rewrite length_take, length_drop; lia.
  - unfold slice; rewrite length_take, length_drop; lia.
  - unfold slice; rewrite length_take, length_drop; lia.
  - pose proof (be_split_signed (slice 72 80 raw)) as He. rewrite Hn in He. rewrite He. rewrite <- (take_drop 80 raw) at 1.
    assert (take 80 raw = token_head ++ slice 8 24 raw ++ slice 24 40 raw ++ slice 40 72 raw ++ slice 72 80 raw) as Hb.
    { rewrite slices by lia. repeat match goal with A : slice _ _ raw = _ |- _ => rewrite A; clear A end. reflexivity. }
    match goal with A : sha256 _ = drop 80 raw |- _ => rewrite <- A end. by rewrite Hb.
Qed.

Lemma decode_fields index group history digest :
  0 <= index < 2 ^ 63 -> length digest = 32%nat -> length group = 16%nat -> length history = 16%nat ->
  let body := token_head ++ group ++ history ++ digest ++ be_split 8 index in
  decode (body ++ sha256 (DOMAIN ++ body))
    = Ok (Token (JInt 1) (uuid_text group) (uuid_text history) (hex digest) (JInt index)).
Proof.
  intros Hi Hd Hg Hh body. assert (length body = 80%nat) as Hb.
  { unfold body. rewrite !length_app, Hd, Hg, Hh, length_be_split. reflexivity. }
  assert (forall a b, (b <= 80)%nat -> slice a b (body ++ sha256 (DOMAIN ++ body)) = slice a b body) as Hs.
  { intros a b Hle. unfold slice. destruct (decide (a <= 80)%nat).
    - rewrite drop_app_le by lia. apply take_app_le. rewrite length_drop. lia.
    - replace (b - a)%nat with 0%nat by lia. by rewrite !take_0. }
  assert (length (sha256 (DOMAIN ++ body)) = 32%nat) as Hz by apply length_sha256.
  unfold decode. rewrite !Hs by lia. rewrite length_app, Hb, Hz, take_app_le, drop_app_ge, Hb, drop_0, take_ge by lia.
  assert (slice 0 4 body = MAGIC) as -> by reflexivity. assert (slice 4 5 body = [Byte.x01]) as -> by reflexivity.
  assert (slice 5 8 body = replicate 3 Byte.x00) as -> by reflexivity.
  assert (slice 8 24 body = group) as ->.
  { unfold body. rewrite (slice_app_r 8) by done. by apply slice_app_l. }
  assert (slice 24 40 body = history) as ->.
  { unfold body. rewrite (slice_app_r 8), (slice_app_r 16) by (done || lia). by apply slice_app_l. }
  assert (slice 40 72 body = digest) as ->.
  { unfold body. rewrite (slice_app_r 8), (slice_app_r 16), (slice_app_r 16) by (done || lia). by apply slice_app_l. }
  assert (slice 72 80 body = be_split 8 index) as ->.
  { unfold body. rewrite (slice_app_r 8), (slice_app_r 16), (slice_app_r 16), (slice_app_r 32) by (done || lia).
    unfold slice. cbn [Nat.sub]. rewrite drop_0. apply take_ge. by rewrite length_be_split. }
  rewrite !bool_decide_eq_true_2 by done. cbn [guard rbind andb Nat.add Nat.eqb].
  rewrite to_signed_split by (unfold signed_range; lia). by rewrite (proj2 (Z.leb_le _ _)) by lia.
Qed.
End Token.

(** ** The properties *)

(** A token as the decoder would return it *)
Definition canonical_token to_ascii (t t' : token) : Prop :=
  exists group history, uuid_bytes to_ascii (tk_group t) = Ok group /\ uuid_bytes to_ascii (tk_history t) = Ok history /\
    t' = Token (tk_version t) (uuid_text group) (uuid_text history) (tk_manifest t) (tk_index t).

(** Read tokens round trip, and no byte of one can change.  A token the encoder writes decodes to
    the value it was written from, its identities in canonical spelling; a token the decoder accepts is,
    byte for byte, what the encoder writes for the decoded value; and where a byte of an accepted token is
    replaced by another, the result is refused unless it gives a SHA-256 collision of the two bodies. *)
Theorem read_token_roundtrip to_ascii :
  (forall value raw, encode to_ascii value = Ok raw ->
     length raw = 112%nat /\ exists t, decode raw = Ok t /\ canonical_token to_ascii value t) /\
  (forall raw t, decode raw = Ok t -> encode to_ascii t = Ok raw) /\
  (forall raw t i b t', decode raw = Ok t -> decode (<[i := b]> raw) = Ok t' ->
     <[i := b]> raw = raw \/ collides (DOMAIN ++ take 80 (<[i := b]> raw)) (DOMAIN ++ take 80 raw)).
Proof.
  split_and!.
  - intros value raw (index & group & history & digest & Hv & Hx & Hi & Hm & Hd & Hg & Hh & ->)%encode_ok.
    pose proof (length_uuid_bytes _ _ _ Hg) as Lg. pose proof (length_uuid_bytes _ _ _ Hh) as Lh. split.
    + rewrite !length_app, Lg, Lh, Hd, length_be_split, length_sha256. reflexivity.
    + eexists. split; [by apply decode_fields|]. exists group, history. by rewrite Hv, Hm, Hx.
  - intros raw t (index & group & history & digest & Hi & Hd & Hg & Hh & -> & ->)%decode_ok. unfold encode.
    cbn [tk_version tk_index tk_manifest tk_group tk_history guard Z.eqb Pos.eqb rbind].
    rewrite (proj2 (Z.leb_le 0 _)), (proj2 (Z.leb_le _ (2 ^ 63 - 1))) by lia. cbn [andb guard rbind].
    rewrite from_hex_hex. cbn [of_option rbind]. rewrite Hd, bool_decide_eq_true_2 by done. cbn [Nat.eqb andb guard rbind].
    by rewrite !uuid_bytes_text by done.
  - intros raw t i b t' Ht Ht'. unfold decode in Ht, Ht'. do 2 apply rbind_ok in Ht as ([] & _ & Ht), Ht' as ([] & _ & Ht').
    apply rbind_ok in Ht as ([] & Hs%guard_ok & _), Ht' as ([] & Hs'%guard_ok & _). bool_tac.
    destruct (decide (i < 80)%nat) as [Hlt|Hge].
    + match goal with A : sha256 _ = drop 80 raw, B : sha256 _ = drop 80 (<[i:=b]> raw) |- _ =>
        rewrite drop_insert_lt in B by lia; rewrite <- A in B; apply same_digest in B as [B|B]; [|by right] end.
      left. match goal with B : DOMAIN ++ _ = _ |- _ => apply app_inv_head in B; rename B into Hb end.
      rewrite <- (take_drop 80 (<[i:=b]> raw)), Hb, drop_insert_lt by lia. apply take_drop.
    + left. match goal with A : sha256 _ = drop 80 raw, B : sha256 _ = drop 80 (<[i:=b]> raw) |- _ =>
        rewrite take_insert_ge in B by lia; rewrite A in B; rename B into Hb end.
      rewrite <- (take_drop 80 (<[i:=b]> raw)), <- Hb, take_insert_ge by lia. apply take_drop.
Qed.

(** The second of the published tokens, [docs/v5x/v5.2/fixtures/read-tokens-v1.json] *)
Definition published_token : token :=
  Token (JInt 1) "10213243-5465-7687-98a9-bacbdcedfe0f" "13572468-2468-1357-abcd-0123456789ab"
    "abababababababababababababababababababababababababababababababab" (JInt 17).
Definition published_bytes : string :=
  "4753525401000000102132435465768798a9bacbdcedfe0f1357246824681357abcd0123456789ababababababababababababababababababababababababababababababababab00000000000000116e5067d5cbd521f6d45ea028c35f3886a84c9467d9b2e774cae01cf852f39228".
#[local] Transparent be_split sha256.

Lemma read_token_roundtrip_witness :
  exists raw, encode (fun _ => "0"%char) published_token = Ok raw /\ hex raw = published_bytes /\
    exists t, decode raw = Ok t /\ canonical_token (fun _ => "0"%char) published_token t.
Proof.
  eexists. split; [vm_compute; reflexivity|]. split; [vm_compute; reflexivity|].
  refine (proj2 (proj1 (read_token_roundtrip (fun _ => "0"%char)) published_token _ _)). vm_compute. reflexivity.
Defined.
