(* ===== verification/AdmissionFields.v ===== *)
(** * The 1.1 admission formats: frames, fields and bindings ([scripts/v50/admission_format.py])

    The readers and the small checks every admission record is made of: canonical JSON with its bounds,
    sealed frames, the field reader, inventories and path bindings.  Exceptions are [ValueError] with the
    message of the check, except where Python raises another class. *)

From Stdlib Require Import Ascii.
From stdpp Require Import base gmap sets strings list sorting.
From S2P Require Import Prelude Bytes Sha256 Wire Files Json ReplicaFrames TextCodes Schema.
Import StateNotations ResultNotations.
Local Open Scope py_scope.
Local Open Scope Z_scope.

Definition META : Z := 65536.
Definition IMAGE : Z := 64 * 1024 * 1024.
Definition LIMIT : Z := 2 ^ 40.
(** [ZERO], and [bytes(16)] *)
Definition ZERO32 : bytes := replicate 32 Byte.x00.
Definition ZERO16 : bytes := replicate 16 Byte.x00.

(** [raw[16:48]] of a frame: its digest *)
Definition seal_of (raw : bytes) : bytes := take 32 (drop 16 raw).

(** ** Canonical JSON *)

Definition canonical_json (value : json) : bytes := utf8 (dumps value).

Definition is_alpha (c : ascii) : bool := is_lower c || ((65 <=? code c) && (code c <=? 90)).
Definition word_char (c : ascii) : bool := is_alpha c || is_digit c || (code c =? 95).
(** [re.fullmatch('[A-Za-z][A-Za-z0-9_]*', key)] *)
Definition json_key (key : string) : bool :=
  match key with String c s => is_alpha c && all_of word_char s | EmptyString => false end.

(** [bounded]: depth, width of integers, spelling of keys *)
Fixpoint bounded (depth : Z) (value : json) : result unit :=
  do! need (depth <=? 16) "JSON depth" in
  match value with
  | JNull | JBool _ | JString _ => Ok tt
  | JInt z => need ((- LONG_MAX - 1 <=? z) && (z <=? LONG_MAX)) "JSON integer"
  | JArray l => check_all (bounded (depth + 1)) l
  | JObject m =>
      do! need (forallb (fun kv : string * json => json_key kv.1) m) "JSON keys" in
      check_all (fun kv : string * json => bounded (depth + 1) kv.2) m
  end.

Definition json_value (raw : bytes) : result json :=
  let! text := decode_utf8 UnicodeError raw in
  let! value := of_option (loads text) (ValueError "JSON") in
  do! bounded 0 value in
  do! need (bool_decide (canonical_json value = raw)) "noncanonical JSON" in
  Ok value.

(** ** Writers *)

(** [struct.pack('>i', len(value)) + value] *)
Definition put_blob (value : bytes) : bytes := be_split 4 (Z.of_nat (length value)) ++ value.
Definition frame_head (magic : bytes) (minor kind size : Z) : bytes :=
  magic ++ be_split 2 1 ++ be_split 2 minor ++ be_split 2 kind ++ be_split 2 0 ++ be_split 4 size.
Definition framed_as (magic : bytes) (minor kind : Z) (body : bytes) : bytes :=
  let prefix := frame_head magic minor kind (Z.of_nat (length body)) in
  prefix ++ sha256 (prefix ++ body) ++ body.
Definition GSER : bytes := utf8 "GSER".
Definition GSRP : bytes := utf8 "GSRP".
(** [framed(kind, body)] *)
Definition framed (kind : Z) (body : bytes) : bytes := framed_as GSER 1 kind body.

(** ** [Reader] *)

Definition truncated_field : exn := ValueError "truncated field".
Definition take_n (size : Z) : reader bytes := take_bytes truncated_field size.
Definition number_B : reader Z := read_uint truncated_field 1.
Definition number_H : reader Z := read_uint truncated_field 2.
Definition number_i : reader Z := read_int truncated_field 4.
Definition number_q : reader Z := read_int truncated_field 8.

Definition get_blob (maximum : Z) : reader bytes :=
  let* size := number_i in
  do* needs ((0 <=? size) && (size <=? maximum)) "blob bound" in
  take_n size.

(** [text(maximum)]: never empty where this module reads it *)
Definition get_string (maximum : Z) : reader string :=
  let* raw := get_blob maximum in
  do* needs (negb (bool_decide (raw = []))) "empty text" in
  liftr (decode_utf8 UnicodeError raw).

Definition get_count (maximum minimum : Z) : reader Z :=
  let* count := number_i in
  let* rest := remaining in
  do* needs ((0 <=? count) && (count <=? maximum) && (count <=? rest / minimum)) "count bound" in
  ret count.

Definition end_fields : reader unit := expect_end (ValueError "trailing fields").

(** The whole of [raw] is read. *)
Definition read_all {A} (p : reader A) (raw : bytes) : result A :=
  run_reader (let* x := p in do* end_fields in ret x) raw.

(** [record(raw, kind, maximum, magic)]: the body of a sealed frame *)
Definition record_body (raw : bytes) (kind maximum : Z) (magic : bytes) : result bytes :=
  let size := Z.of_nat (length raw) in
  do! need ((48 <? size) && (size <=? maximum)) "frame size" in
  let! p := run_reader read_prefix (take 16 raw) in
  do! need (bool_decide (px_magic p = magic) && (px_major p =? 1) && (px_minor p =? 1)) "version" in
  do! need ((px_kind p =? kind) && (px_flags p =? 0)) "kind/flags" in
  do! need (px_length p =? size - 48) "frame length" in
  do! need (bool_decide (sha256 (take 16 raw ++ drop 48 raw) = seal_of raw)) "frame digest" in
  Ok (drop 48 raw).
Definition record_of (raw : bytes) (kind : Z) : result bytes := record_body raw kind META GSER.

(** A record of metadata size whose fields [p] reads to the end *)
Definition read_record {A} (kind : Z) (p : reader A) (raw : bytes) : result A :=
  let! body := record_of raw kind in read_all p body.

(** [ident(reader.text(limit), maximum)] *)
Definition get_identity (maximum : Z) : reader string :=
  let* value := get_string maximum in
  do* needs (is_identity maximum value) "identity" in
  ret value.
Definition is_ident (maximum : Z) (value : json) : bool :=
  match value with JString s => is_identity maximum s | _ => false end.

(** [history(group)] *)
Definition history_of (group : bytes) : result bytes :=
  let h := take 16 (sha256 (utf8 "gse-v50-application-history-v1" ++ [Byte.x00] ++ group)) in
  do! need (negb (bool_decide (h = ZERO16))) "zero application history" in
  Ok h.

(** ** Inventories *)

Record member := Member { iv_name : string; iv_kind : Z; iv_size : Z; iv_digest : bytes }.
#[export] Instance member_eq_dec : EqDecision member.
Proof. solve_decision. Defined.

Definition nul : string := String (ascii_of_nat 0) EmptyString.
Definition plain_parts (parts : list string) : bool :=
  forallb (fun part => negb (bool_decide (part ∈ [""; "."; ".."]%string))) parts.
Definition inventory_path (name : string) : bool :=
  negb (starts_with "/" name) && plain_parts (split_char slash name) && negb (contains backslash name) && negb (contains nul name).

Definition get_member : reader member :=
  let* name := get_string 4096 in
  let* kind := number_B in
  let* size := number_q in
  let* digest := take_n 32 in
  do* needs (inventory_path name) "inventory path" in
  do* needs (((kind =? 0) || (kind =? 1)) && (0 <=? size) && (size <=? LIMIT)) "inventory kind/size" in
  do* needs (negb (kind =? 0) || ((size =? 0) && bool_decide (digest = ZERO32))) "directory inventory" in
  ret (Member name kind size digest).

Definition inventory : reader (list member) :=
  let* count := get_count 10000 45 in
  let* entries := times count get_member in
  let names := iv_name <$> entries in
  do* needs (bool_decide (names = sorted_set names)) "inventory order" in
  ret entries.

Definition member_bytes (m : member) : bytes :=
  put_text (iv_name m) ++ be_split 1 (iv_kind m) ++ be_split 8 (iv_size m) ++ iv_digest m.
Definition inventory_bytes (entries : list member) : bytes :=
  be_split 4 (Z.of_nat (length entries)) ++ concat (member_bytes <$> entries).
Definition inventory_digest (entries : list member) : bytes :=
  sha256 (utf8 "gse-v50-payload-inventory-v1" ++ [Byte.x00] ++ inventory_bytes entries).

(** ** Text order of the JVM *)

(** [v.encode('utf-16-be')] *)
Definition utf16_units (z : Z) : bytes :=
  if z <? 65536 then be_split 2 z
  else be_split 2 (55296 + (z - 65536) / 1024) ++ be_split 2 (56320 + (z - 65536) mod 1024).
Definition utf16_be (s : string) : bytes := concat (utf16_units <$> code_points (utf8 s)).
Definition utf16_le (a b : string) : Prop := string_le (str_of_bytes (utf16_be a)) (str_of_bytes (utf16_be b)).
#[export] Instance utf16_le_dec : RelDecision utf16_le.
Proof. intros a b. unfold utf16_le. apply _. Defined.
(** [sorted(set(names), key=lambda v: v.encode('utf-16-be'))] *)
Definition sorted_utf16 (l : list string) : list string := merge_sort utf16_le (remove_dups l).

(** ** Descriptors *)

Definition same_set (a b : list string) : bool := bool_decide ((list_to_set a : gset string) = list_to_set b).
Definition exact (value : json) (keys : list string) : result unit :=
  need (match value with JObject m => same_set m.*1 keys | _ => false end) "descriptor fields".

(** [value == n], where [True == 1] *)
Definition equals_int (value : json) (n : Z) : bool :=
  match value with JInt z => z =? n | JBool b => (if b then 1 else 0) =? n | _ => false end.
Definition equals_text (value : json) (s : string) : bool :=
  match value with JString t => bool_decide (t = s) | _ => false end.
(** [type(value) is int and lo <= value <= hi] *)
Definition int_between (value : json) (lo hi : Z) : bool :=
  match value with JInt z => (lo <=? z) && (z <=? hi) | _ => false end.
Definition is_string (value : json) : bool := match value with JString _ => true | _ => false end.
Definition nonempty_string (value : json) : bool := match value with JString s => negb (is_empty s) | _ => false end.

(** A text of [path_binding] *)
Definition bound_text (value : json) : bool :=
  match value with
  | JString s => negb (is_empty s) && (text_size s <=? 4096) && negb (contains nul s)
  | _ => false
  end.
Definition drop_first (s : string) : string := match s with String _ s' => s' | EmptyString => EmptyString end.
Definition normalized_path (v : string) : bool :=
  starts_with "/" v && (bool_decide (v = "/"%string) || plain_parts (split_char slash (drop_first v))).

Definition path_binding (value : json) : result unit :=
  do! exact value ["path"; "parentRealPath"; "fileStoreName"; "fileStoreType"; "parentFileKey"]%string in
  do! need (match value with JObject m => forallb (fun kv : string * json => bound_text kv.2) m | _ => false end) "path binding" in
  check_all (fun key => let! v := get_text key value in need (normalized_path v) "normalized path") ["path"; "parentRealPath"]%string.

Definition positive_fields (value : json) (maxima : list (string * Z)) : result unit :=
  do! exact value maxima.*1 in
  check_all (fun limit : string * Z =>
    let! v := get limit.1 value in need (int_between v 1 limit.2) ("configuration bound: " +:+ limit.1)) maxima.
