(* ===== verification/Admission.v ===== *)
(** * The 1.1 admission records ([scripts/v50/admission_format.py])

    Genesis, manifest, plan, receipt, snapshot and message of an admitted group; the initial root of each
    voter, the journal of the bootstrap and the administrative records; [validate] puts them together.
    The files of an admission are an association list of paths. *)

From Stdlib Require Import Ascii.
From stdpp Require Import base gmap sets strings list sorting.
From S2P Require Import Prelude Bytes Sha256 Wire Files Json ReplicaFrames TextCodes Schema AdmissionFields.
Import StateNotations ResultNotations.
Local Open Scope py_scope.
Local Open Scope Z_scope.

Definition TYPES : list string :=
  ["HANDSHAKE"; "ACTIVATION_PROMISE"; "APPEND"; "DURABLE_ACK"; "COMMIT_PROOF"; "COMMIT_PROOF_ACK"; "COMMIT_ADVANCE"; "CONFLICT";
   "AUTHORITY_STATUS_PROBE"; "SNAPSHOT_OFFER"; "SNAPSHOT_CHUNK"; "SNAPSHOT_INSTALL"; "ACTIVATE_EPOCH"; "AUTHORITY_STATUS";
   "SNAPSHOT_ABORT"; "REJECT"]%string.
Definition ROOT_FILES : list string :=
  ["entries.gsr"; "genesis.gsr"; "manifest.gsr"; "node.gsr"; "promises.gsr"; "proofs.gsr"; "replica.lock"; "storage-ready.gsr"]%string.

(** ** The source of a group *)

Record source_of := SourceOf { src_kind : Z; src_history : bytes; src_sequence : Z; src_entries : list member }.

Definition SOURCE_MEMBERS : list string := ["gse-backup-checkpoint"; "gse-backup-manifest"; "gse-backup-metadata"]%string.

Definition source : reader source_of :=
  let* kind := number_B in
  let* family := get_string 32 in
  let* major := number_H in
  let* minor := number_H in
  let* profile := get_string 32 in
  let* history := take_n 16 in
  let* sequence := number_q in
  let* entries := inventory in
  do* needs ((kind =? 0) || (kind =? 1)) "source kind" in
  do* (if kind =? 0 then
         needs (bool_decide (family = "none"%string) && (major =? 0) && (minor =? 0) && bool_decide (profile = "none"%string)
                && bool_decide (history = ZERO16) && (sequence =? 0) && bool_decide (entries = [])) "empty source"
       else
         do* needs (bool_decide (family = "gse-backup"%string) && (major =? 1) && ((minor =? 0) || (minor =? 1) || (minor =? 2)))
               "source version" in
         do* needs (bool_decide (profile = (if minor =? 2 then "canonical-only"%string else "full"%string))) "source profile" in
         do* needs (negb (bool_decide (history = ZERO16)) && (0 <=? sequence) && (sequence <? LONG_MAX)) "source history/sequence" in
         needs (bool_decide (iv_name <$> entries = SOURCE_MEMBERS)
                && forallb (fun e => (iv_kind e =? 1) && (0 <? iv_size e)) entries) "source inventory") in
  ret (SourceOf kind history sequence entries).

(** ** The application image *)

(** [set(d)] of a parsed text: its keys, the elements of a list of texts; unequal to any set of keys otherwise *)
Definition element_set (d : json) : result (list string) :=
  match d with
  | JObject m => Ok m.*1
  | JArray l =>
      do! guard (forallb (fun v => match v with JArray _ | JObject _ => false | _ => true end) l) TypeError in
      Ok (if forallb is_string l then omap (fun v => match v with JString s => Some s | _ => None end) l else [])
  | JString _ => Ok []
  | _ => Err TypeError
  end.

(** One index descriptor: its field *)
Definition index_field (descriptor : string) : result string :=
  let! d := json_value (utf8 descriptor) in
  let! keys := element_set d in
  do! need (same_set keys ["analyzer"; "field"; "kind"]%string) "index descriptor" in
  let! f := get "field" d in
  do! need (is_string f) "index descriptor" in
  let! field := as_text f in
  do! need ((0 <? text_size field) && (text_size field <=? 1024)) "index descriptor" in
  let! kind := get "kind" d in
  do! need (existsb (equals_text kind) ["equality"; "range"; "prefix"; "text"]%string) "index kind/analyzer" in
  let! analyzer := get "analyzer" d in
  do! need (equals_text analyzer (if equals_text kind "text" then "gse-simple-v1" else "")) "index kind/analyzer" in
  Ok field.

Definition get_document : reader (bytes * bytes) :=
  let* k := AdmissionFields.get_blob IMAGE in
  let* v := AdmissionFields.get_blob IMAGE in
  ret (k, v).

Definition application_fields : reader (list string * list (bytes * bytes)) :=
  let* version := number_H in
  do* needs (version =? 1) "application version" in
  let* n := get_count 10000 4 in
  let* descriptors := times n (get_string 8192) in
  let* fields := liftr (map_all index_field descriptors) in
  do* needs (bool_decide (fields = sorted_utf16 fields)) "index order" in
  let* d := get_count 100000000 8 in
  let* documents := times d get_document in
  do* needs (bool_decide (NoDup documents.*1)) "duplicate key" in
  ret (descriptors, documents).
Definition application (raw : bytes) : result (list string * list (bytes * bytes)) := read_all application_fields raw.

(** ** Genesis *)

Record genesis_of := GenesisOf {
  gn_raw : bytes; gn_group : bytes; gn_source : bytes; gn_source_kind : Z; gn_history : bytes; gn_base : Z; gn_app : bytes;
  gn_indexes : list string; gn_documents : list (bytes * bytes) }.
Definition gn_digest (g : genesis_of) : bytes := seal_of (gn_raw g).

Definition genesis (raw : bytes) : result genesis_of :=
  let! body := record_body raw 16 IMAGE GSER in
  let! x := read_all (let* version := number_H in
                      do* needs (version =? 1) "genesis projection version" in
                      let* group := take_n 16 in
                      do* needs (negb (bool_decide (group = ZERO16))) "zero group" in
                      let* source_raw := AdmissionFields.get_blob META in
                      let* src := liftr (read_all source source_raw) in
                      let* history := take_n 16 in
                      let* base := number_q in
                      let* app := AdmissionFields.get_blob IMAGE in
                      ret (group, source_raw, src, history, base, app)) body in
  let '(group, source_raw, src, history, base, app) := x in
  let! expected := history_of group in
  do! need (bool_decide (history = expected) && negb (bool_decide (history = src_history src))) "application history" in
  do! need ((0 <=? base) && (base <? LONG_MAX) && (base =? src_sequence src)) "base sequence" in
  let! a := application app in
  do! need (negb (src_kind src =? 0) || bool_decide (a.2 = [])) "empty genesis documents" in
  Ok (GenesisOf raw group source_raw (src_kind src) history base app a.1 a.2).

(** ** Manifest *)

Record manifest_of := ManifestOf {
  mf_raw : bytes; mf_members : list (string * string * Z); mf_group : bytes; mf_configuration : string; mf_leader : string;
  mf_codec : string; mf_codec_version : Z; mf_schema : string; mf_base : Z; mf_history : bytes }.
Definition mf_digest (m : manifest_of) : bytes := seal_of (mf_raw m).
Definition mf_nodes (m : manifest_of) : list string := (fun x : string * string * Z => x.1.1) <$> mf_members m.

(** The white space [str.strip] removes *)
Definition PYTHON_SPACE : list Z :=
  [9; 10; 11; 12; 13; 28; 29; 30; 31; 32; 0x85; 0xA0; 0x1680; 0x2000; 0x2001; 0x2002; 0x2003; 0x2004; 0x2005; 0x2006; 0x2007;
   0x2008; 0x2009; 0x200A; 0x2028; 0x2029; 0x202F; 0x205F; 0x3000].
(** [host.strip() == host] *)
Definition stripped (host : string) : bool :=
  let points := code_points (utf8 host) in
  let edge (o : option Z) := match o with Some z => negb (bool_decide (z ∈ PYTHON_SPACE)) | None => true end in
  edge (head points) && edge (last points).

Definition get_endpoint : reader (string * string * Z) :=
  let* node := get_identity 64 in
  let* host := get_string 1012 in
  let* port := number_i in
  let* voter := number_B in
  do* needs (stripped host && negb (is_empty host) && (Z.of_nat (length (utf16_be host)) <=? 506) && (1 <=? port) && (port <=? 65535)
             && (voter =? 1)) "endpoint/voter" in
  ret (node, host, port).

(** [sha(canonical(sorted(indexes)))] *)
Definition indexes_digest (indexes : list string) : bytes :=
  sha256 (canonical_json (JArray (JString <$> merge_sort string_le indexes))).

(** The fields of a manifest, before they are compared with the genesis *)
Record manifest_row := ManifestRow {
  mr_group : bytes; mr_configuration : string; mr_epoch : Z; mr_leader : string; mr_members : list (string * string * Z);
  mr_codec : string; mr_codec_version : Z; mr_schema : string; mr_schema_version : Z; mr_indexes : bytes; mr_genesis : bytes;
  mr_history : bytes; mr_base : Z }.

Definition manifest_fields : reader manifest_row :=
  let* family := get_string 32 in let* major := number_H in let* minor := number_H in
  let* protocol := get_string 32 in let* pmajor := number_H in let* pminor := number_H in
  do* needs (bool_decide (family = "gse-replicated"%string) && (major =? 1) && (minor =? 1)
             && bool_decide (protocol = "gse-replication"%string) && (pmajor =? 1) && (pminor =? 1)) "manifest version" in
  let* group := take_n 16 in
  let* configuration := get_identity 128 in
  let* epoch := number_q in
  let* leader := get_identity 64 in
  let* count := number_i in
  do* needs (count =? 3) "voter count" in
  let* members := repeat_reader 3 get_endpoint in
  let* codec := get_identity 128 in
  let* codec_version := number_i in
  let* schema := get_identity 128 in
  let* schema_version := number_i in
  let* indexes := take_n 32 in
  let* genesis_digest := take_n 32 in
  let* history := take_n 16 in
  let* base := number_q in
  ret (ManifestRow group configuration epoch leader members codec codec_version schema schema_version indexes genesis_digest history base).

Definition manifest (raw : bytes) (g : genesis_of) : result manifest_of :=
  let! body := record_of raw 1 in
  let! r := read_all manifest_fields body in
  let nodes := (fun x : string * string * Z => x.1.1) <$> mr_members r in
  do! need (bool_decide (NoDup nodes) && bool_decide (NoDup ((fun x : string * string * Z => (x.1.2, x.2)) <$> mr_members r))
            && bool_decide (mr_leader r ∈ nodes)) "members" in
  do! need (bool_decide (mr_group r = gn_group g) && (mr_epoch r =? 1) && (0 <? mr_codec_version r) && (mr_schema_version r =? 1))
        "manifest identity" in
  do! need (bool_decide (mr_indexes r = indexes_digest (gn_indexes g)) && bool_decide (mr_genesis r = gn_digest g)
            && bool_decide (mr_history r = gn_history g) && (mr_base r =? gn_base g)) "manifest genesis binding" in
  Ok (ManifestOf raw (mr_members r) (mr_group r) (mr_configuration r) (mr_leader r) (mr_codec r) (mr_codec_version r) (mr_schema r)
        (mr_base r) (mr_history r)).

(** ** Plan *)

Definition REPLICATION_LIMITS : list (string * Z) :=
  [("maxFrameBytes", IMAGE); ("maxEntriesPerAppend", 10000); ("maxInFlightPerPeer", 4096); ("maxPendingClientOperations", 100000);
   ("maxRetryAttempts", 100); ("requestTimeoutMillis", 300000); ("retryBackoffMillis", 60000); ("snapshotChunkBytes", IMAGE);
   ("maxRetainedLogBytes", LIMIT); ("maxSnapshotStagingBytes", LIMIT)]%string.
Definition MATERIALIZATION_LIMITS : list (string * Z) :=
  [("maxEncodedKeyBytes", IMAGE); ("maxEncodedDocumentBytes", 4 * IMAGE); ("maxBulkElements", 1000000); ("maxDocuments", 100000000);
   ("checkpointWalBytes", LIMIT); ("maxRetainedBytes", 16 * LIMIT); ("maxDerivedStateBytes", 8 * LIMIT)]%string.

(** [value is None] *)
Definition is_null (value : json) : bool := match value with JNull => true | _ => false end.
(** [isinstance(value, list)], of at least [lo] and at most [hi] elements *)
Definition list_between (value : json) (lo hi : Z) : bool :=
  match value with JArray l => (lo <=? Z.of_nat (length l)) && (Z.of_nat (length l) <=? hi) | _ => false end.

Definition check_indexes (app : json) (g : genesis_of) : result unit :=
  let! indexes := get "indexes" app in
  need (match indexes with
        | JArray l => forallb is_string l && (length l =? length (gn_indexes g))%nat
                      && same_set (omap (fun v => match v with JString s => Some s | _ => None end) l) (gn_indexes g)
        | _ => false
        end) "builder index configuration".

Definition check_field (field : json) : result string :=
  do! exact field ["name"; "type"]%string in
  do! need (match field with JObject m => forallb (fun kv : string * json => nonempty_string kv.2) m | _ => false end) "schema field" in
  get_text "name" field.

Definition check_text_field (names : list string) (field : json) : result string :=
  do! exact field ["field"; "analyzer"]%string in
  let! f := get "field" field in
  let! a := get "analyzer" field in
  do! need (existsb (equals_text f) names && equals_text a "gse-simple-v1") "text field" in
  as_text f.

Definition INT_MAX : Z := 2147483647.
Definition check_queue (q : json) : result unit :=
  do! exact q ["queueCapacity"; "maxBatchSize"; "maxBatchWaitSeconds"; "maxBatchWaitNanos"]%string in
  let! capacity := get "queueCapacity" q in
  let! size := get "maxBatchSize" q in
  let! seconds := get "maxBatchWaitSeconds" q in
  let! nanos := get "maxBatchWaitNanos" q in
  need (int_between capacity 1 INT_MAX && int_between size 1 INT_MAX && int_between seconds 0 LONG_MAX && int_between nanos 0 999999999)
    "snapshot config".

Definition check_application (app : json) (g : genesis_of) : result unit :=
  do! exact app ["documentType"; "idField"; "fields"; "textFields"; "indexes"; "snapshot"; "planner"]%string in
  do! check_indexes app g in
  let! document_type := get "documentType" app in
  let! id := get "idField" app in
  do! need (nonempty_string document_type && is_string id) "schema descriptor" in
  let! f := get "fields" app in
  do! need (list_between f 1 10000) "schema fields" in
  let! fields := as_list f in
  let! names := map_all check_field fields in
  let! id_field := as_text id in
  do! need (bool_decide (names = sorted_utf16 names) && bool_decide (id_field ∈ names)) "schema field order" in
  let! t := get "textFields" app in
  do! need (list_between t 0 10000) "text fields" in
  let! text_fields := as_list t in
  let! text_names := map_all (check_text_field names) text_fields in
  do! need (bool_decide (text_names = sorted_utf16 text_names)) "text field order" in
  let! q := get "snapshot" app in
  do! check_queue q in
  let! planner := get "planner" app in
  need (existsb (equals_text planner) ["COST_AWARE"; "FORCE_INDEX"; "FORCE_SCAN"]%string) "planner config".

(** The operation, source and limits of a plan: its first paths *)
Definition check_operation (desc : json) (g : genesis_of) : result (list string) :=
  do! exact desc ["operation"; "source"; "maxSourceBytes"; "maxOperationBytes"; "application"; "replicas"]%string in
  let! operation := get "operation" desc in
  do! path_binding operation in
  let! src := get "source" desc in
  do! (if is_null src then Ok tt else path_binding src) in
  do! need (Bool.eqb (is_null src) (gn_source_kind g =? 0)) "source path kind" in
  let! max_source := get "maxSourceBytes" desc in
  let! max_operation := get "maxOperationBytes" desc in
  do! need (int_between max_source 1 LIMIT && int_between max_operation 1 LIMIT) "operation bound" in
  let! app := get "application" desc in
  do! check_application app g in
  let! path := get_text "path" operation in
  if is_null src then Ok [path] else let! source_path := get_text "path" src in Ok [path; source_path].

Definition check_materialization (mat : json) (m : manifest_of) : result unit :=
  do! exact mat ["directory"; "format"; "storageIdentity"; "schemaIdentity"; "codecId"; "codecVersion"; "bounds"]%string in
  let! directory := get "directory" mat in
  do! path_binding directory in
  let! format := get "format" mat in
  do! exact format ["family"; "major"; "minor"]%string in
  let! family := get "family" format in
  let! major := get "major" format in
  let! minor := get "minor" format in
  do! need (equals_text family "gse-durable" && equals_int major 1 && existsb (equals_int minor) [0; 1; 2]) "materialization format" in
  let! identity := get "storageIdentity" mat in
  do! need (is_ident 128 identity) "identity" in
  let! schema := get "schemaIdentity" mat in
  let! codec := get "codecId" mat in
  let! version := get "codecVersion" mat in
  do! need (equals_text schema (mf_schema m) && equals_text codec (mf_codec m) && equals_int version (mf_codec_version m))
        "local application identity" in
  let! bounds := get "bounds" mat in
  do! positive_fields bounds MATERIALIZATION_LIMITS in
  let! retained := get_int "maxRetainedBytes" bounds in
  let! checkpoint := get_int "checkpointWalBytes" bounds in
  do! need (checkpoint <? retained) "local retained bound" in
  if equals_int minor 2 then
    let! derived := get_int "maxDerivedStateBytes" bounds in need (derived <=? retained) "derived bound"
  else Ok tt.

(** The configuration of one voter: its target and materialization paths *)
Definition check_local (m : manifest_of) (size : Z) (node : string) (local : json) : result (list string) :=
  do! exact local ["node"; "target"; "materialization"; "replicationBounds"]%string in
  let! n := get "node" local in
  do! need (equals_text n node) "local configuration order" in
  let! target := get "target" local in
  do! path_binding target in
  let! mat := get "materialization" local in
  do! check_materialization mat m in
  let! bounds := get "replicationBounds" local in
  do! positive_fields bounds REPLICATION_LIMITS in
  let! staging := get_int "maxSnapshotStagingBytes" bounds in
  do! need (size <=? Z.min IMAGE staging) "genesis capacity" in
  let! target_path := get_text "path" target in
  let! directory := get "directory" mat in
  let! directory_path := get_text "path" directory in
  Ok [target_path; directory_path].

(** The voters in turn: their paths and the inventory of each root, read behind its configuration *)
Fixpoint plan_locals (m : manifest_of) (size : Z) (locals : list (string * json)) : reader (list string * list (list member)) :=
  match locals with
  | [] => ret ([], [])
  | (node, local) :: locals' =>
      let* paths := liftr (check_local m size node local) in
      let* inv := inventory in
      do* needs (bool_decide (iv_name <$> inv = ROOT_FILES) && forallb (fun v => iv_kind v =? 1) inv) "planned root inventory" in
      let* more := plan_locals m size locals' in
      ret (paths ++ more.1, inv :: more.2)
  end.

Definition is_slash (c : ascii) : bool := bool_decide (c = slash).
(** [a.startswith(b.rstrip('/') + '/')] *)
Definition below (a b : string) : bool := starts_with (rstrip is_slash b +:+ "/") a.
Fixpoint disjoint_paths (paths : list string) : bool :=
  match paths with
  | [] => true
  | a :: rest => forallb (fun b => negb (bool_decide (a = b)) && negb (below a b) && negb (below b a)) rest && disjoint_paths rest
  end.

(** [(storageIdentity, format)] of all voters, as of the first *)
Definition check_agreement (replicas : list json) : result unit :=
  let! mats := map_all (get "materialization") replicas in
  let! keys := map_all (fun mat => let! i := get "storageIdentity" mat in let! f := get "format" mat in Ok (i, f)) mats in
  need (match keys with
        | k :: _ => forallb (fun x : json * json => json_eqb x.1 k.1 && json_eqb x.2 k.2) keys
        | [] => true
        end) "materialization agreement".

Definition plan_fields (m : manifest_of) (g : genesis_of) (manifest_raw : bytes) : reader (json * list (list member)) :=
  let* version := number_H in
  do* needs (version =? 1) "plan version" in
  let* text := AdmissionFields.get_blob META in
  let* desc := liftr (json_value text) in
  let* embedded := AdmissionFields.get_blob META in
  let* src := AdmissionFields.get_blob META in
  let* size := number_q in
  do* needs (bool_decide (embedded = manifest_raw) && bool_decide (src = gn_source g) && (size =? Z.of_nat (length (gn_raw g))))
        "plan source/manifest" in
  let* first_paths := liftr (check_operation desc g) in
  let* r := liftr (get "replicas" desc) in
  do* needs (list_between r 3 3) "local configuration count" in
  let* replicas := liftr (as_list r) in
  let* x := plan_locals m size (zip (mf_nodes m) replicas) in
  do* end_fields in
  do* needs (disjoint_paths (first_paths ++ x.1)) "path overlap" in
  do* liftr (check_agreement replicas) in
  ret (desc, x.2).

Definition plan (raw : bytes) (m : manifest_of) (g : genesis_of) (manifest_raw : bytes) : result (json * list (list member)) :=
  let! body := record_of raw 17 in run_reader (plan_fields m g manifest_raw) body.

(** ** Receipt *)

(** One preparation: bound to the plan, the manifest, its node and the inventory planned for it *)
Definition preparation_fields (plan_raw : bytes) (m : manifest_of) (node : string) (inv : list member) : reader unit :=
  let bad := "preparation binding"%string in
  let* p := take_n 32 in do* needs (bool_decide (p = seal_of plan_raw)) bad in
  let* d := take_n 32 in do* needs (bool_decide (d = mf_digest m)) bad in
  let* n := get_string 64 in do* needs (bool_decide (n = node)) bad in
  let* i := take_n 32 in needs (bool_decide (i = inventory_digest inv)) bad.

Fixpoint preparations_fields (plan_raw : bytes) (m : manifest_of) (rows : list (string * list member)) : reader (list bytes) :=
  match rows with
  | [] => ret []
  | (node, inv) :: rows' =>
      let* prepared := AdmissionFields.get_blob META in
      do* liftr (read_record 18 (preparation_fields plan_raw m node inv) prepared) in
      let* more := preparations_fields plan_raw m rows' in
      ret (prepared :: more)
  end.

Definition receipt_fields (plan_raw : bytes) (m : manifest_of) (inventories : list (list member)) : reader (list bytes) :=
  let* p := AdmissionFields.get_blob META in do* needs (bool_decide (p = plan_raw)) "receipt plan/count" in
  let* n := number_i in do* needs (n =? 3) "receipt plan/count" in
  preparations_fields plan_raw m (zip (mf_nodes m) inventories).
Definition receipt (raw plan_raw : bytes) (m : manifest_of) (inventories : list (list member)) : result (list bytes) :=
  read_record 19 (receipt_fields plan_raw m inventories) raw.

(** ** Snapshots *)

Record anchor_of := AnchorOf {
  a_epoch : Z; a_incarnation : bytes; a_operation : Z; a_digest : bytes; a_payload : bytes; a_previous : bytes }.

(** The anchors behind one of epoch [epoch], incarnation [incarnation] and digest [previous] *)
Fixpoint anchors_fields (n : nat) (epoch : Z) (incarnation previous : bytes) : reader (list anchor_of) :=
  match n with
  | O => ret []
  | S n' =>
      let* e := number_q in
      let* i := take_n 16 in
      let* op := number_B in
      let* d := take_n 32 in
      let* payload := take_n 32 in
      do* needs ((Z.max 2 epoch <=? e) && negb (bool_decide (i = ZERO16)) && ((epoch <? e) || bool_decide (i = incarnation))
                 && (1 <=? op) && (op <=? 10)) "snapshot ancestry" in
      let* more := anchors_fields n' e i d in
      ret (AnchorOf e i op d payload previous :: more)
  end.

Definition durable_ack (manifest_digest : bytes) (voter : string) (epoch : Z) (incarnation : bytes) (index : Z) (digest : bytes) : bytes :=
  sha256 (put_text "gse-replication/1.1/DURABLE_ACK" ++ manifest_digest ++ put_text voter ++ be_split 8 epoch ++ incarnation
          ++ be_split 8 index ++ digest).

Definition voter_fields (m : manifest_of) (a : anchor_of) (index : Z) : reader string :=
  let* voter := get_string 64 in
  let* actual := take_n 32 in
  do* needs (bool_decide (voter ∈ mf_nodes m)
             && bool_decide (actual = durable_ack (mf_digest m) voter (a_epoch a) (a_incarnation a) index (a_digest a))) "proof receipt" in
  ret voter.

(** The proof of the last anchor, [a], at index [index] *)
Definition terminal_fields (m : manifest_of) (a : anchor_of) (index : Z) : reader unit :=
  let bad := "snapshot terminal proof"%string in
  let* d := take_n 32 in do* needs (bool_decide (d = mf_digest m)) bad in
  let* epoch := number_q in do* needs (epoch =? a_epoch a) bad in
  let* incarnation := take_n 16 in do* needs (bool_decide (incarnation = a_incarnation a)) bad in
  let* i := number_q in do* needs (i =? index) bad in
  let* entry := take_n 32 in do* needs (bool_decide (entry = a_digest a)) bad in
  let* previous := take_n 32 in do* needs (bool_decide (previous = a_previous a)) bad in
  let* n := number_i in
  do* needs ((n =? 2) || (n =? 3)) "proof quorum" in
  let* voters := times n (voter_fields m a index) in
  needs (bool_decide (voters = sorted_set voters)) "proof voter order".

Definition snapshot_fields (m : manifest_of) (g : genesis_of) : reader (Z * list anchor_of * bytes * bytes) :=
  let* d := take_n 32 in do* needs (bool_decide (d = mf_digest m)) "snapshot base/manifest" in
  let* base := number_q in do* needs (base =? gn_base g) "snapshot base/manifest" in
  let* claimed := number_q in
  let* count := get_count 1000000 89 in
  let* anchors := anchors_fields (Z.to_nat count) 1 ZERO16 (mf_digest m) in
  let* proof := AdmissionFields.get_blob META in
  let* app := AdmissionFields.get_blob IMAGE in
  ret (claimed, anchors, proof, app).

(** The sequence behind the base: operations up to eight are the application's *)
Definition application_count (anchors : list anchor_of) : Z :=
  Z.of_nat (length (filter (fun a => a_operation a <= 8) anchors)).

Definition snapshot (raw : bytes) (m : manifest_of) (g : genesis_of) : result Z :=
  let! body := record_body raw 8 IMAGE GSER in
  let! x := read_all (snapshot_fields m g) body in
  let '(claimed, anchors, proof, app) := x in
  let sequence := gn_base g + application_count anchors in
  do! need ((sequence <=? LONG_MAX) && (claimed =? sequence)) "snapshot sequence" in
  do! need (Bool.eqb (bool_decide (proof = [])) (bool_decide (anchors = []))) "snapshot proof presence" in
  do! (match last anchors with
       | Some a => read_record 6 (terminal_fields m a (Z.of_nat (length anchors))) proof
       | None => Ok tt
       end) in
  let! _ := application app in
  do! need (negb (bool_decide (anchors = [])) || bool_decide (app = gn_app g)) "index-zero genesis state" in
  Ok sequence.

(** ** Messages *)

Definition status : list string :=
  ["promisedEpoch"; "lastLogIndex"; "commitIndex"; "lastDigest"; "commitDigest"; "appliedIndex"; "snapshotIndex"; "recoveryFloor";
   "voter"; "damagedTail"]%string.
(** The field sets a payload of each kind may have *)
Definition alternatives (kind : Z) : list (list string) :=
  match kind with
  | 1 => [[]]
  | 2 => [status]
  | 3 => [["entry"]]
  | 4 => [["index"; "entryDigest"; "receiptDigest"]]
  | 5 => [["proof"]]
  | 6 => [["index"; "proofDigest"]]
  | 7 => [["action"; "index"; "digest"]; ["action"; "index"; "digest"; "voters"]; ["action"; "entries"; "proofs"]; status]
  | 8 => [["reason"]]
  | 9 => [[]; ["action"]; ["action"; "transferId"; "offset"; "length"]]
  | 10 => [["transferId"; "length"; "digest"]; ["transferId"]]
  | 11 => [["transferId"; "offset"; "data"]; ["transferId"; "offset"]]
  | 12 => [["transferId"; "admit"]; ["transferId"; "imageDigest"; "index"; "digest"; "snapshotIndex"]]
  | 13 => [["recovery"]]
  | 14 => [status; ["transferId"; "length"; "digest"]; ["transferId"; "offset"; "data"]]
  | 15 => [[]]
  | 16 => [["reason"]]
  | _ => []
  end%string.

Definition allowed_actions (kind : Z) : list (string * list string) :=
  if kind =? 7 then [("ready", ["action"; "index"; "digest"]); ("floor", ["action"; "index"; "digest"; "voters"]);
                     ("batch", ["action"; "entries"; "proofs"])]%string
  else [("export", ["action"]); ("chunk", ["action"; "transferId"; "offset"; "length"])]%string.

(** [str(uuid.UUID(value)) == value]; other values raise what the constructor raises. *)
Definition wire_uuid (msg : string) (value : json) : result bytes :=
  match value with
  | JString s => match canonical_uuid s with Ok b => Ok b | Err _ => Err (ValueError msg) end
  | JNull => Err TypeError
  | _ => Err AttributeError
  end.

(** [if key in payload: check] for the keys of a list *)
Definition check_present (payload : json) (keys : list string) (ok : json -> bool) (msg : string) : result unit :=
  check_all (fun key =>
    if has_key key payload then let! v := get key payload in need (ok v) msg else Ok tt) keys.

Definition is_hash_text (v : json) : bool := match v with JString s => is_hash s | _ => false end.
Definition is_boolean (v : json) : bool := match v with JBool _ => true | _ => false end.
Definition natural (v : json) : bool := match v with JInt z => 0 <=? z | _ => false end.
Definition key_set (v : json) : list string := match v with JObject m => m.*1 | _ => [] end.

(** An entry, a proof or a chunk in base64; entries and proofs are records of the sender's epoch. *)
Definition check_embedded (m : manifest_of) (value payload : json) (key : string) (kind : Z) : result unit :=
  if negb (has_key key payload) then Ok tt
  else
    let! v := get key payload in
    let! text := as_text v in
    let! decoded := of_option (b64decode text) (ValueError "Invalid base64-encoded string") in
    do! need (bool_decide (b64encode decoded = text)) "canonical base64" in
    if kind =? 0 then Ok tt
    else
      let! body := record_body decoded kind (if kind =? 6 then META else IMAGE) GSER in
      let! epoch := get_int "epoch" value in
      let! i := get "incarnationId" value in
      let! incarnation := wire_uuid "wire UUID" i in
      let bad := "embedded wire identity"%string in
      run_reader (let* d := take_n 32 in do* needs (bool_decide (d = mf_digest m)) bad in
                  let* e := number_q in do* needs (e =? epoch) bad in
                  let* i := take_n 16 in needs (bool_decide (i = incarnation)) bad) body.

Definition check_action (kind : Z) (payload : json) : result unit :=
  if negb (has_key "action" payload) then Ok tt
  else
    let! v := get "action" payload in
    match v with
    | JArray _ | JObject _ => Err TypeError
    | JString a =>
        need (match assoc_get a (allowed_actions kind) with Some keys => same_set (key_set payload) keys | None => false end) "wire action"
    | _ => Err (ValueError "wire action")
    end.

Definition check_payload (m : manifest_of) (kind : Z) (value payload : json) : result unit :=
  do! need (existsb (same_set (key_set payload)) (alternatives kind)) "wire payload fields" in
  do! check_present payload ["index"; "offset"; "length"; "promisedEpoch"; "lastLogIndex"; "commitIndex"; "appliedIndex";
                             "snapshotIndex"; "recoveryFloor"]%string natural "wire payload counter" in
  do! check_present payload ["digest"; "entryDigest"; "receiptDigest"; "proofDigest"; "imageDigest"; "lastDigest"; "commitDigest"]%string
        is_hash_text "wire payload digest" in
  do! check_present payload ["admit"; "voter"; "damagedTail"; "recovery"]%string is_boolean "wire payload boolean" in
  do! (if has_key "transferId" payload then
         let! t := get "transferId" payload in let! _ := wire_uuid "transfer UUID" t in Ok tt
       else Ok tt) in
  do! (if kind =? 13 then
         let! r := get "recovery" payload in
         need (match r with JBool true => true | _ => false end) "activation recovery"
       else Ok tt) in
  do! check_action kind payload in
  check_all (fun x : string * Z => check_embedded m value payload x.1 x.2) [("entry", 5); ("proof", 6); ("data", 0)]%string.

Definition ENVELOPE_FIELDS : list string :=
  ["protocol"; "manifestDigest"; "groupId"; "configurationId"; "sender"; "recipient"; "epoch"; "incarnationId"; "traceId";
   "eventSequence"; "type"; "payload"]%string.

Definition check_envelope (m : manifest_of) (kind : Z) (value : json) : result json :=
  do! exact value ENVELOPE_FIELDS in
  let! protocol := get "protocol" value in
  let! type := get "type" value in
  do! need (equals_text protocol "gse-replication/1.1"
            && match TYPES !! Z.to_nat (kind - 1) with Some t => equals_text type t | None => false end) "wire version/type" in
  let! digest := get "manifestDigest" value in
  let! group := get "groupId" value in
  let! configuration := get "configurationId" value in
  do! need (equals_text digest (hex (mf_digest m)) && equals_text group (uuid_text (mf_group m))
            && equals_text configuration (mf_configuration m)) "wire manifest binding" in
  let! sender := get "sender" value in
  let! recipient := get "recipient" value in
  do! need (existsb (equals_text sender) (mf_nodes m) && existsb (equals_text recipient) (mf_nodes m) && negb (json_eqb sender recipient))
        "wire members" in
  do! check_all (fun name => let! v := get name value in let! _ := wire_uuid "wire UUID" v in Ok tt)
        ["groupId"; "incarnationId"; "traceId"]%string in
  let! epoch := get "epoch" value in
  let! sequence := get "eventSequence" value in
  do! need (natural epoch && natural sequence) "wire counters" in
  do! need (negb (equals_int epoch 0) || (kind =? 1) || (kind =? 16)) "zero wire epoch" in
  let! payload := get "payload" value in
  do! need (match payload with JObject _ => negb (has_key "manifestDigest" payload) | _ => false end) "wire payload identity location" in
  Ok payload.

Definition wire (raw : bytes) (m : manifest_of) : result json :=
  do! need (48 <=? Z.of_nat (length raw)) "wire header" in
  let kind := be_join (take 2 (drop 8 raw)) in
  do! need ((1 <=? kind) && (kind <=? 16)) "wire kind" in
  let! body := record_body raw kind IMAGE GSRP in
  let! value := json_value body in
  let! payload := check_envelope m kind value in
  do! check_payload m kind value payload in
  Ok value.

(** ** The initial root of a voter *)

Definition files_of := list (string * bytes).
(** [files[name]] *)
Definition file_at (files : files_of) (name : string) : result bytes := of_option (assoc_get name files) KeyError.
Definition node_file (node name : string) : string := node +:+ "/" +:+ name.

(** [raw[:size]] *)
Definition python_prefix (size : Z) (raw : bytes) : bytes :=
  take (Z.to_nat (if size <? 0 then Z.of_nat (length raw) + size else size)) raw.
(** [struct.unpack_from('>i', raw, 12)[0]] *)
Definition size_field (raw : bytes) : result Z :=
  do! guard (16 <=? Z.of_nat (length raw)) StructError in Ok (to_signed 4 (be_join (take 4 (drop 12 raw)))).

Definition node_fields (m : manifest_of) (node : string) (flag : Z) (msg : string) : reader unit :=
  let* d := take_n 32 in do* needs (bool_decide (d = mf_digest m)) msg in
  let* n := get_string 64 in do* needs (bool_decide (n = node)) msg in
  let* b := number_B in needs (b =? flag) msg.

Definition header_fields (m : manifest_of) (node : string) (kind : Z) : reader unit :=
  let bad := "journal header identity"%string in
  let* d := take_n 32 in do* needs (bool_decide (d = mf_digest m)) bad in
  let* n := get_string 64 in do* needs (bool_decide (n = node)) bad in
  let* k := number_H in needs (k =? kind) bad.

Definition initial_promise (m : manifest_of) : reader unit :=
  let bad := "initial promise"%string in
  let* d := take_n 32 in do* needs (bool_decide (d = mf_digest m)) bad in
  let* leader := get_string 64 in do* needs (bool_decide (leader = mf_leader m)) bad in
  let* epoch := number_q in do* needs (epoch =? 1) bad in
  let* incarnation := take_n 16 in needs (bool_decide (incarnation = ZERO16)) bad.

(** One journal of the root: its seal *)
Definition initial_journal (m : manifest_of) (node : string) (kind : Z) (raw : bytes) : result bytes :=
  do! need (48 <=? Z.of_nat (length raw)) "root journal header" in
  let! field := size_field raw in
  let size := 48 + field in
  do! read_record 3 (header_fields m node kind) (python_prefix size raw) in
  do! (if kind =? 4 then read_record 4 (initial_promise m) (drop (Z.to_nat size) raw)
       else need (size =? Z.of_nat (length raw)) "initial journal tail") in
  Ok (seal_of raw).

Definition ROOT_JOURNALS : list (string * Z) := [("promises.gsr", 4); ("entries.gsr", 5); ("proofs.gsr", 6)]%string.

Definition initial_root (files : files_of) (node : string) (m : manifest_of) : result unit :=
  let! identity := file_at files (node_file node "node.gsr") in
  do! read_record 2 (node_fields m node 0 "bootstrap node identity") identity in
  let! journals := map_all (fun x : string * Z =>
                     let! raw := file_at files (node_file node x.1) in initial_journal m node x.2 raw) ROOT_JOURNALS in
  let! ready := file_at files (node_file node "storage-ready.gsr") in
  do! read_record 7 (let* h := take_n 160 in
                     needs (bool_decide (h = mf_digest m ++ seal_of identity ++ concat journals)) "storage-ready hashes") ready in
  let! lock := file_at files (node_file node "replica.lock") in
  need (bool_decide (lock = [])) "lock bytes".

(** ** The bootstrap journal *)

Definition journal_fields (plan_digest previous : bytes) (phases : Z) (receipt_digest : bytes) (preparations : list bytes) : reader unit :=
  let* p := take_n 32 in do* needs (bool_decide (p = plan_digest)) "journal chain" in
  let* s := number_q in do* needs (s =? phases + 1) "journal chain" in
  let* d := take_n 32 in do* needs (bool_decide (d = previous)) "journal chain" in
  let* phase := number_B in
  do* needs ((phases <? 4) && (phase =? phases + 1)) "journal phase" in
  do* (fix each (ps : list bytes) : reader unit :=
         match ps with
         | [] => ret tt
         | p :: ps' =>
             let* d := take_n 32 in
             do* needs (bool_decide (d = if phase =? 1 then ZERO32 else seal_of p)) "journal preparations" in
             each ps'
         end) preparations in
  let* decision := take_n 32 in
  needs (bool_decide (decision = if phase =? 4 then receipt_digest else ZERO32)) "journal decision".

(** The rows behind [phases] of them; the number of rows.  Phase [n] is the [n]-th row, four the committed one. *)
Fixpoint journal_rows (fuel : nat) (plan_digest receipt_digest : bytes) (preparations : list bytes) (phases : Z) (previous raw : bytes)
  : result Z :=
  match fuel with
  | O => Err (AssertionError "fuel")
  | S fuel' =>
      match raw with
      | [] => Ok phases
      | _ =>
          do! need (48 <=? Z.of_nat (length raw)) "journal tail" in
          let size := to_signed 4 (be_join (take 4 (drop 12 raw))) + 48 in
          do! need ((48 <? size) && (size <=? META) && (size <=? Z.of_nat (length raw))) "journal record bound" in
          let frame := take (Z.to_nat size) raw in
          do! read_record 21 (journal_fields plan_digest previous phases receipt_digest preparations) frame in
          journal_rows fuel' plan_digest receipt_digest preparations (phases + 1) (seal_of frame) (drop (Z.to_nat size) raw)
      end
  end.

Definition journal (raw plan_raw receipt_raw : bytes) (preparations : list bytes) (seal_nodes : list string) : result unit :=
  let! phases := journal_rows (S (length raw)) (seal_of plan_raw) (seal_of receipt_raw) preparations 0 ZERO32 raw in
  let committed := phases =? 4 in
  need (committed && (bool_decide (seal_nodes = []) || (phases =? 4))) "seal before committed decision".

(** ** Administrative records *)

(** The second row of the bootstrap journal *)
Definition second_row (operation : bytes) : result bytes :=
  let! field := size_field operation in
  let size := 48 + field in
  Ok (take (Z.to_nat size) (drop (Z.to_nat size) operation)).

Definition check_abort (plan_raw previous abort : bytes) : result unit :=
  read_record 21
    (let bad := "cleanup pre-commit transition"%string in
     let* p := take_n 32 in do* needs (bool_decide (p = seal_of plan_raw)) bad in
     let* s := number_q in do* needs (s =? 3) bad in
     let* d := take_n 32 in do* needs (bool_decide (d = seal_of previous)) bad in
     let* phase := number_B in do* needs (phase =? 5) bad in
     let* ps := take_n 96 in do* needs (bool_decide (ps = take 96 (drop 121 previous))) "abort preparation/decision" in
     let* z := take_n 32 in needs (bool_decide (z = ZERO32)) "abort preparation/decision") abort.

(** One row of the cleanup inventory: its path and whether the source owns it *)
Definition check_cleanup_entry (plan_digest : string) (e : json) : result (string * bool) :=
  do! exact e ["path"; "kind"; "size"; "digest"; "owner"]%string in
  let! p := get "path" e in
  do! need (match p with
            | JString name => starts_with "/" name && (text_size name <=? 4096) && plain_parts (split_char slash (drop_first name))
            | _ => false end) "cleanup path" in
  let! name := as_text p in
  let! kind := get "kind" e in
  let! size := get "size" e in
  do! need ((equals_text kind "file" || equals_text kind "directory") && int_between size 0 LIMIT) "cleanup inventory fields" in
  let! d := get "digest" e in
  let! digest := as_text d in
  let! owner := get "owner" e in
  do! need (is_hash digest && (equals_text owner "source" || equals_text owner plan_digest)) "cleanup inventory fields" in
  do! need (negb (equals_text kind "directory") || (equals_int size 0 && bool_decide (digest = hex ZERO32))) "cleanup directory" in
  Ok (name, equals_text owner "source").

(** A name is deleted after everything below it. *)
Fixpoint dependency_order (delete : list string) : bool :=
  match delete with
  | [] => true
  | name :: rest => forallb (fun v => negb (starts_with (name +:+ "/") v)) rest && dependency_order rest
  end.

Definition check_cleanup (plan_raw previous cleanup : bytes) (descriptor : json) : result unit :=
  let! c := read_record 22
      (let* p := take_n 32 in do* needs (bool_decide (p = seal_of plan_raw)) "cleanup observed tail" in
       let* d := take_n 32 in do* needs (bool_decide (d = seal_of previous)) "cleanup observed tail" in
       let* text := AdmissionFields.get_blob META in
       liftr (json_value text)) cleanup in
  do! exact c ["operation"; "inventory"; "deletePaths"]%string in
  let! operation := get "operation" c in
  let! planned := get "operation" descriptor in
  do! need (json_eqb operation planned) "cleanup operation" in
  let! i := get "inventory" c in
  do! need (list_between i 1 10000) "cleanup inventory count" in
  let! rows := as_list i in
  let! entries := map_all (check_cleanup_entry (hex (seal_of plan_raw))) rows in
  do! need (bool_decide (entries.*1 = sorted_set entries.*1)) "cleanup inventory order" in
  let! x := get "deletePaths" c in
  do! need (match x with JArray _ => true | _ => false end) "cleanup delete list" in
  let! l := as_list x in
  do! guard (forallb (fun v => match v with JArray _ | JObject _ => false | _ => true end) l) TypeError in
  do! need (bool_decide (NoDup (dumps ∘ numbers <$> l))) "cleanup delete list" in
  let delete := omap (fun v => match v with JString s => Some s | _ => None end) l in
  do! need (forallb is_string l && same_set delete (filter (fun e : string * bool => e.2 = false) entries).*1) "cleanup protected/incomplete deletion" in
  do! need (dependency_order delete) "cleanup dependency order" in
  let! final := of_option (last delete) IndexError in
  let! path := get_text "path" operation in
  need (bool_decide (final = path)) "cleanup marker last".

(** [dict(mat, directory=mat['directory']['path'])] *)
Definition with_directory_path (mat : json) : result json :=
  let! directory := get "directory" mat in
  let! path := get "path" directory in
  match mat with JObject fields => Ok (JObject (assoc_set "directory"%string path fields)) | _ => Err TypeError end.

Definition file_name (path : string) : string := default "" (last (split_char slash path)).
Definition file_le (a b : string * bytes) : Prop := string_le a.1 b.1.
#[export] Instance file_le_dec : RelDecision file_le.
Proof. intros a b. unfold file_le. apply _. Defined.
Definition sorted_files (files : files_of) : files_of := merge_sort file_le files.

(** The files below a directory of the evidence, as an inventory *)
Definition inventory_below (directory : string) (files : files_of) : list member :=
  omap (fun f : string * bytes =>
    match strip_prefix (directory +:+ "/") f.1 with
    | Some name => Some (Member name 1 (Z.of_nat (length f.2)) (sha256 f.2))
    | None => None
    end) (sorted_files files).

Definition check_same (keys : list string) (a b : json) (msg : string) : result unit :=
  check_all (fun key => let! x := get key a in let! y := get key b in need (json_eqb x y) msg) keys.

(** The configuration of a replacement: that of the original voter, at other paths; its target path *)
Definition check_replacement (m : manifest_of) (descriptor local : json) : result string :=
  do! exact local ["node"; "target"; "materialization"; "replicationBounds"]%string in
  let! n := get "node" local in
  do! need (existsb (equals_text n) (mf_nodes m)) "replacement node" in
  let! node := as_text n in
  let! replicas := get_list "replicas" descriptor in
  let! i := of_option (fst <$> list_find (node =.) (mf_nodes m)) (ValueError "not in list") in
  let! original := of_option (replicas !! i) IndexError in
  do! check_same ["node"; "replicationBounds"]%string local original "replacement configuration" in
  let! mat := get "materialization" local in
  let! old := get "materialization" original in
  let! directory := get "directory" mat in
  do! path_binding directory in
  let! a := with_directory_path mat in
  let! b := with_directory_path old in
  do! need (json_eqb a b) "replacement materialization policy" in
  let! target := get "target" local in
  do! path_binding target in
  get_text "path" target.

Definition replacement_fields (receipt_raw : bytes) : reader (json * list member) :=
  let* version := number_H in do* needs (version =? 1) "replacement original receipt" in
  let* r := AdmissionFields.get_blob META in do* needs (bool_decide (r = receipt_raw)) "replacement original receipt" in
  let* text := AdmissionFields.get_blob META in
  let* d := liftr (json_value text) in
  let* inv := inventory in
  ret (d, inv).

Definition check_replacement_plan (files : files_of) (m : manifest_of) (g : genesis_of) (descriptor : json) (receipt_raw replacement : bytes)
  : result string :=
  let! x := read_record 23 (replacement_fields receipt_raw) replacement in
  let '(d, inv) := x in
  do! exact d ["operation"; "source"; "configuration"; "manifestDigest"; "genesisDigest"; "sourceInventoryDigest"]%string in
  let! operation := get "operation" d in
  do! path_binding operation in
  let! src := get "source" d in
  do! path_binding src in
  let! md := get "manifestDigest" d in
  let! gd := get "genesisDigest" d in
  let! sd := get "sourceInventoryDigest" d in
  do! need (equals_text md (hex (mf_digest m)) && equals_text gd (hex (gn_digest g)) && equals_text sd (hex (inventory_digest inv)))
        "replacement identity/inventory" in
  let! local := get "configuration" d in
  let! target := check_replacement m descriptor local in
  let! operation_path := get_text "path" operation in
  let! source_path := get_text "path" src in
  do! need (bool_decide (NoDup [operation_path; source_path; target])) "replacement paths" in
  do! need (bool_decide (inv = inventory_below (file_name source_path) files)) "replacement source bytes" in
  get_text "node" local.

Definition replacement_row (replacement previous : bytes) (phase : Z) : reader unit :=
  let bad := "replacement preparation only"%string in
  let* p := take_n 32 in do* needs (bool_decide (p = seal_of replacement)) bad in
  let* s := number_q in do* needs (s =? phase) bad in
  let* d := take_n 32 in do* needs (bool_decide (d = previous)) bad in
  let* b := number_B in do* needs (b =? phase) bad in
  let* z := take_n 128 in needs (bool_decide (z = replicate 128 Byte.x00)) bad.

(** The rows of the phases in turn, each chained to the one before *)
Fixpoint replacement_rows (replacement previous : bytes) (phases : list Z) (raw : bytes) : result unit :=
  match phases with
  | [] => need (bool_decide (raw = [])) "replacement journal tail"
  | phase :: phases' =>
      do! need (48 <=? Z.of_nat (length raw)) "replacement journal header" in
      let size := 48 + to_signed 4 (be_join (take 4 (drop 12 raw))) in
      do! need ((48 <? size) && (size <=? META) && (size <=? Z.of_nat (length raw))) "replacement journal bound" in
      let row := take (Z.to_nat size) raw in
      do! read_record 21 (replacement_row replacement previous phase) row in
      replacement_rows replacement (seal_of row) phases' (drop (Z.to_nat size) raw)
  end.

Definition administrative_records (files : files_of) (m : manifest_of) (g : genesis_of) (descriptor : json) : result unit :=
  let! plan_raw := file_at files "plan.gsr" in
  let! receipt_raw := file_at files "receipt.gsr" in
  let! operation := file_at files "operation.gsr" in
  let! previous := second_row operation in
  let! abort := file_at files "admin-aborting.gsr" in
  do! check_abort plan_raw previous abort in
  let! cleanup := file_at files "admin-cleanup.gsr" in
  do! check_cleanup plan_raw previous cleanup descriptor in
  let! replacement := file_at files "admin-replacement-plan.gsr" in
  let! node := check_replacement_plan files m g descriptor receipt_raw replacement in
  let! identity := file_at files "admin-replacement-node.gsr" in
  do! read_record 2 (node_fields m node 1 "replacement nonvoter") identity in
  let! rebuilding := file_at files "admin-rebuilding.gsr" in
  let bad := "replacement rebuilding"%string in
  do! read_record 13 (let* d := take_n 32 in do* needs (bool_decide (d = mf_digest m)) bad in
                      let* n := get_string 64 in needs (bool_decide (n = node)) bad) rebuilding in
  let! rows := file_at files "admin-replacement-journal.gsr" in
  replacement_rows replacement ZERO32 [1; 2] rows.

(** ** [validate] *)

Definition check_member (files : files_of) (directory msg : string) (v : member) : result unit :=
  let! raw := file_at files (node_file directory (iv_name v)) in
  need ((Z.of_nat (length raw) =? iv_size v) && bool_decide (sha256 raw = iv_digest v)) msg.

Definition seal_fields (node : string) (receipt_raw : bytes) : reader unit :=
  let* n := get_string 64 in do* needs (bool_decide (n = node)) "local seal" in
  let* r := AdmissionFields.get_blob META in needs (bool_decide (r = receipt_raw)) "local seal".

(** One voter: its preparation, its payloads, genesis and manifest, its initial root and its seal *)
Definition check_node (files : files_of) (m : manifest_of) (g : genesis_of) (receipt_raw : bytes) (x : string * list member * bytes)
  : result unit :=
  let '(node, inv, prepared) := x in
  let! p := file_at files (node_file node "bootstrap-prepared.gsr") in
  do! need (bool_decide (p = prepared)) "local preparation" in
  do! check_all (check_member files node "payload inventory binding") inv in
  let! local_genesis := file_at files (node_file node "genesis.gsr") in
  do! need (bool_decide (local_genesis = gn_raw g)) "local genesis binding" in
  let! local_manifest := file_at files (node_file node "manifest.gsr") in
  do! need (bool_decide (local_manifest = mf_raw m)) "local genesis binding" in
  do! initial_root files node m in
  let! seal := file_at files (node_file node "bootstrap-seal.gsr") in
  read_record 20 (seal_fields node receipt_raw) seal.

Definition total (l : list Z) : Z := fold_right Z.add 0 l.
Definition inventory_size (inv : list member) : Z := total (iv_size <$> inv).

Definition seal_size (files : files_of) (node : string) : result Z :=
  let! seal := file_at files (node_file node "bootstrap-seal.gsr") in Ok (Z.of_nat (length seal)).

(** The bytes an admission needs: payloads, preparations and seals, one pending seal, the coordinator's files *)
Definition check_capacity (files : files_of) (m : manifest_of) (descriptor : json) (inventories : list (list member)) (preparations : list bytes)
  : result unit :=
  let! seals := map_all (seal_size files) (mf_nodes m) in
  let! plan_raw := file_at files "plan.gsr" in
  let! operation := file_at files "operation.gsr" in
  let! receipt_raw := file_at files "receipt.gsr" in
  let sizes := total (inventory_size <$> inventories) + total ((fun p : bytes => Z.of_nat (length p)) <$> preparations) in
  let projected := sizes + total seals + fold_right Z.max 0 seals + Z.of_nat (length plan_raw) + Z.of_nat (length operation)
                   + 2 * Z.of_nat (length receipt_raw) in
  let! maximum := get_int "maxOperationBytes" descriptor in
  do! need (projected <=? maximum) "operation bytes capacity" in
  let! replicas := get_list "replicas" descriptor in
  check_all (fun x : list member * json * bytes * Z =>
    let '(inv, local, prepared, seal) := x in
    let! bounds := get "replicationBounds" local in
    let! retained := get_int "maxRetainedLogBytes" bounds in
    need (inventory_size inv + Z.of_nat (length prepared) + 2 * seal <=? retained) "local retained capacity")
    (zip (zip (zip inventories replicas) preparations) seals).

Record admission_report := AdmissionReport {
  rp_base : Z; rp_history : string; rp_sequences : list Z; rp_manifest : string; rp_genesis : string }.

Definition validate (files : files_of) : result admission_report :=
  let! genesis_raw := file_at files "genesis.gsr" in
  let! g := genesis genesis_raw in
  let! manifest_raw := file_at files "manifest.gsr" in
  let! m := manifest manifest_raw g in
  let! plan_raw := file_at files "plan.gsr" in
  let! p := plan plan_raw m g manifest_raw in
  let '(descriptor, inventories) := p in
  let! receipt_raw := file_at files "receipt.gsr" in
  let! preparations := receipt receipt_raw plan_raw m inventories in
  do! check_all (check_node files m g receipt_raw) (zip (zip (mf_nodes m) inventories) preparations) in
  let! operation := file_at files "operation.gsr" in
  do! journal operation plan_raw receipt_raw preparations (mf_nodes m) in
  let! src := run_reader source (gn_source g) in
  let! max_source := get_int "maxSourceBytes" descriptor in
  do! need (inventory_size (src_entries src) <=? max_source) "source bytes capacity" in
  do! check_all (check_member files "source" "source bytes binding") (src_entries src) in
  do! check_capacity files m descriptor inventories preparations in
  do! administrative_records files m g descriptor in
  let! sequences := map_all (fun f : string * bytes => snapshot f.2 m g)
                      (filter (fun f : string * bytes => starts_with "snapshot-" f.1 = true) (sorted_files files)) in
  do! check_all (fun f : string * bytes => if starts_with "wire-" f.1 then let! _ := wire f.2 m in Ok tt else Ok tt) files in
  do! need (negb (bool_decide (sequences = []))) "missing snapshot evidence" in
  Ok (AdmissionReport (gn_base g) (uuid_text (gn_history g)) sequences (hex (mf_digest m)) (hex (gn_digest g))).
