(* ===== verification/AdmissionFixture.v ===== *)
(** * The admission fixtures ([scripts/v50/admission_fixtures.py])

    [make] writes the files of a whole admission: genesis and manifest, three voters with their initial
    roots, plan, receipt, journal and seals, snapshots with their proofs, one message of every kind and the
    administrative records of a cleanup and of a replacement. *)

From Stdlib Require Import Ascii.
From stdpp Require Import base gmap sets strings list sorting pretty.
From S2P Require Import Prelude Bytes Sha256 Wire Files Json ReplicaFrames TextCodes Schema AdmissionFields Admission.
Import ResultNotations.
Local Open Scope py_scope.
Local Open Scope Z_scope.

(** ** Helpers *)

Definition obj (m : list (string * json)) : json := JObject m.
Definition str (s : string) : json := JString s.
Definition num (z : Z) : json := JInt z.
Definition size_of (raw : bytes) : Z := Z.of_nat (length raw).
Definition be2 (z : Z) : bytes := be_split 2 z.
Definition be4 (z : Z) : bytes := be_split 4 z.
Definition be8 (z : Z) : bytes := be_split 8 z.
Definition byte1 (z : Z) : bytes := be_split 1 z.

(** [str(Path(value).parent)] of an absolute path *)
Definition parent_path (value : string) : string :=
  match removelast (split_char slash value) with [""%string] | [] => "/" | parts => join "/" parts end.
Definition path_of (value : string) : json :=
  obj [("path", str value); ("parentRealPath", str (parent_path value)); ("fileStoreName", str "/dev/fixture");
       ("fileStoreType", str "ext4"); ("parentFileKey", str "(dev=fixture,ino=100)")]%string.

Definition descriptors : list string :=
  [dumps (obj [("analyzer", str ""); ("field", str "value"); ("kind", str "equality")]%string)].
Definition app_bytes (documents : list (bytes * bytes)) : bytes :=
  be2 1 ++ be4 (Z.of_nat (length descriptors)) ++ concat (put_text <$> descriptors) ++ be4 (Z.of_nat (length documents))
  ++ concat ((fun d : bytes * bytes => put_blob d.1 ++ put_blob d.2) <$> documents).

Definition group : bytes := replicate 16 Byte.x11.
Definition incarnation : bytes := replicate 16 Byte.x22.
Definition nodes : list string := ["node-1"; "node-2"; "node-3"]%string.
Definition fixture_history : bytes := default [] (ok_value (history_of group)).

Definition members_of (files : files_of) : list member :=
  (fun f : string * bytes => Member f.1 1 (size_of f.2) (sha256 f.2)) <$> sorted_files files.

Section Make.
Context (base minor : Z).

Definition from_nothing : bool := base =? 0.
Definition sources : files_of :=
  if base =? 0 then []
  else (fun name => (name, utf8 ("synthetic-v44-" +:+ pretty minor +:+ "-" +:+ name))) <$> SOURCE_MEMBERS.
Definition source_bytes : bytes :=
  (if base =? 0 then byte1 0 ++ put_text "none" ++ be2 0 ++ be2 0 ++ put_text "none" ++ ZERO16 ++ be8 0
   else byte1 1 ++ put_text "gse-backup" ++ be2 1 ++ be2 minor
        ++ put_text (if minor =? 2 then "canonical-only"%string else "full"%string) ++ replicate 16 Byte.x33 ++ be8 base)
  ++ inventory_bytes (members_of sources).
Definition docs : list (bytes * bytes) :=
  if base =? 0 then [] else [(be4 3, utf8 "3:shared"); (be4 1, utf8 "1:shared")].
Definition genesis_bytes : bytes :=
  framed 16 (be2 1 ++ group ++ put_blob source_bytes ++ fixture_history ++ be8 base ++ put_blob (app_bytes docs)).

Section Manifest.
Context (genesis_raw : bytes).

Definition endpoint_bytes (i : Z) (node : string) : bytes := put_text node ++ put_text "127.0.0.1" ++ be4 (19101 + i) ++ byte1 1.
Definition manifest_bytes : bytes :=
  framed 1 (put_text "gse-replicated" ++ be2 1 ++ be2 1 ++ put_text "gse-replication" ++ be2 1 ++ be2 1 ++ group
    ++ put_text "config-v1" ++ be8 1 ++ put_text "node-1" ++ be4 3
    ++ endpoint_bytes 0 "node-1" ++ endpoint_bytes 1 "node-2" ++ endpoint_bytes 2 "node-3"
    ++ put_text "fixture-codec" ++ be4 1 ++ put_text "fixture-schema" ++ be4 1
    ++ indexes_digest descriptors ++ seal_of genesis_raw ++ fixture_history ++ be8 base).
End Manifest.

(** The frames written so far are arguments of what comes next, as they are variables of [make]. *)
Section Voters.
Context (genesis_raw manifest_raw : bytes).
Definition md : bytes := seal_of manifest_raw.

(** *** The root of a voter *)

Definition identity_bytes (node : string) : bytes := framed 2 (md ++ put_text node ++ [Byte.x00]).
Definition header_bytes (node : string) (kind : Z) : bytes := framed 3 (md ++ put_text node ++ be2 kind).
Definition promise_bytes : bytes := framed 4 (md ++ put_text "node-1" ++ be8 1 ++ ZERO16).
Definition ready_bytes (node : string) : bytes :=
  framed 7 (md ++ seal_of (identity_bytes node) ++ concat ((fun k => seal_of (header_bytes node k)) <$> [4; 5; 6])).
Definition promises_bytes (node : string) : bytes := header_bytes node 4 ++ promise_bytes.
Definition payloads (node : string) : files_of :=
  [("promises.gsr", promises_bytes node); ("entries.gsr", header_bytes node 5); ("proofs.gsr", header_bytes node 6);
   ("manifest.gsr", manifest_raw); ("genesis.gsr", genesis_raw); ("node.gsr", identity_bytes node); ("replica.lock", []);
   ("storage-ready.gsr", ready_bytes node)]%string.

(** *** Plan, receipt, journal and seals *)

Definition GIGABYTE : Z := 2 ^ 30.
Definition replication_bounds : json :=
  obj (zip REPLICATION_LIMITS.*1 (num <$> [8 * 2 ^ 20; 1000; 256; 10000; 12; 5000; 250; 4 * 2 ^ 20; 8 * 2 ^ 30; 16 * 2 ^ 30])).
Definition materialization_bounds : json :=
  obj (zip MATERIALIZATION_LIMITS.*1 (num <$> [1024; 65536; 1000; 10000; 1024; 2 ^ 30; 2 ^ 20])).
Definition replica_config (node target : string) : json :=
  obj [("node", str node); ("target", path_of target);
       ("materialization",
        obj [("directory", path_of ("/fixture/materialization-" +:+ node));
             ("format", obj [("family", str "gse-durable"); ("major", num 1); ("minor", num 2)]);
             ("storageIdentity", str "fixture-store"); ("schemaIdentity", str "fixture-schema"); ("codecId", str "fixture-codec");
             ("codecVersion", num 1); ("bounds", materialization_bounds)]);
       ("replicationBounds", replication_bounds)]%string.
Definition named (name type : string) : json := obj [("name", str name); ("type", str type)]%string.
Definition config : json :=
  obj [("operation", path_of "/fixture/operation"); ("source", if from_nothing then JNull else path_of "/fixture/source");
       ("maxSourceBytes", num GIGABYTE); ("maxOperationBytes", num GIGABYTE);
       ("application",
        obj [("documentType", str "example.Document"); ("idField", str "id"); ("indexes", JArray (str <$> descriptors));
             ("fields", JArray [named "id" "java.lang.Integer"; named "value" "java.lang.String"]); ("textFields", JArray []);
             ("snapshot", obj [("queueCapacity", num 31); ("maxBatchSize", num 7); ("maxBatchWaitSeconds", num 0);
                               ("maxBatchWaitNanos", num 1234567)]);
             ("planner", str "FORCE_SCAN")]);
       ("replicas", JArray ((fun node => replica_config node ("/fixture/" +:+ node)) <$> nodes))]%string.
Context (inventories : list (list member)).
Definition plan_bytes : bytes :=
  framed 17 (be2 1 ++ put_blob (canonical_json config) ++ put_blob manifest_raw ++ put_blob source_bytes
             ++ be8 (size_of genesis_raw) ++ concat (inventory_bytes <$> inventories)).

Context (plan_raw : bytes).
Definition preparation_bytes (x : string * list member) : bytes :=
  framed 18 (seal_of plan_raw ++ md ++ put_text x.1 ++ inventory_digest x.2).
Context (preparations : list bytes).
Definition receipt_bytes : bytes := framed 19 (put_blob plan_raw ++ be4 3 ++ concat (put_blob <$> preparations)).
Context (receipt_raw : bytes).
Definition journal_row (phase : Z) (previous : bytes) : bytes :=
  framed 21 (seal_of plan_raw ++ be8 phase ++ previous ++ byte1 phase
             ++ concat ((fun p => if phase =? 1 then ZERO32 else seal_of p) <$> preparations)
             ++ (if phase =? 4 then seal_of receipt_raw else ZERO32)).
(** The rows of the phases from [phase] on *)
Fixpoint journal_from (phase : Z) (previous : bytes) (n : nat) : list bytes :=
  match n with
  | O => []
  | S n' => let row := journal_row phase previous in row :: journal_from (phase + 1) (seal_of row) n'
  end.
Definition seal_frame (node : string) : bytes := framed 20 (put_text node ++ put_blob receipt_raw).
Definition voter_files (x : string * files_of * bytes) : files_of :=
  let '(node, payload, prepared) := x in
  (fun f : string * bytes => (node_file node f.1, f.2)) <$>
  (payload ++ [("bootstrap-prepared.gsr", prepared); ("bootstrap-seal.gsr", seal_frame node)]%string).

(** *** Entries, proofs and snapshots *)

Definition entry_payload (op : Z) : bytes :=
  if op =? 1 then be2 1 ++ be4 1 ++ put_blob (be4 20) ++ put_blob (utf8 "20:shared") else [].
Definition entry_bytes (i op previous_epoch : Z) (previous : bytes) : bytes :=
  framed 5 (md ++ be8 2 ++ incarnation ++ be8 i ++ byte1 op ++ be8 previous_epoch ++ be8 (i - 1) ++ previous
            ++ be4 (size_of (entry_payload op)) ++ sha256 (entry_payload op) ++ entry_payload op).
Definition proof_bytes (i : Z) (digest previous : bytes) : bytes :=
  framed 6 (md ++ be8 2 ++ incarnation ++ be8 i ++ digest ++ previous ++ be4 2
            ++ concat ((fun node => put_text node ++ durable_ack md node 2 incarnation i digest) <$> ["node-1"; "node-2"]%string)).
Definition anchor_bytes (op : Z) (digest : bytes) : bytes := be8 2 ++ incarnation ++ byte1 op ++ digest ++ sha256 (entry_payload op).

(** The loop over the operations: the entries, each with its proof and its anchor *)
Record step := Step { sp_entry : bytes; sp_proof : bytes; sp_anchor : bytes }.
Fixpoint steps (i previous_epoch : Z) (previous : bytes) (ops : list Z) : list step :=
  match ops with
  | [] => []
  | op :: ops' =>
      let e := entry_bytes i op previous_epoch previous in
      let d := seal_of e in
      Step e (proof_bytes i d previous) (anchor_bytes op d) :: steps (i + 1) 2 d ops'
  end.

Definition snapshot_bytes (sequence : Z) (anchors : list bytes) (proof app : bytes) : bytes :=
  framed 8 (md ++ be8 base ++ be8 sequence ++ be4 (Z.of_nat (length anchors)) ++ concat anchors ++ put_blob proof ++ put_blob app).
Definition later_app : bytes := app_bytes (docs ++ [(be4 20, utf8 "20:shared")]).

Context (chain : list step).
(** The entry and the snapshot of the [n]-th operation *)
Definition step_files (n : nat) : files_of :=
  let i := pretty (Z.of_nat n) in
  match chain !! (n - 1)%nat with
  | Some x =>
      [("entry-" +:+ i +:+ ".gsr", sp_entry x);
       ("snapshot-" +:+ i +:+ ".gsr", snapshot_bytes (base + 1) (sp_anchor <$> take n chain) (sp_proof x) later_app)]%string
  | None => []
  end.
Definition snapshots : files_of :=
  ("snapshot-0.gsr"%string, snapshot_bytes base [] [] (app_bytes docs)) :: step_files 1 ++ step_files 2 ++ step_files 3.
Definition recovery_image (snapshot_raw : bytes) : bytes := framed 9 (put_blob snapshot_raw ++ be4 0 ++ be4 0).

(** *** Messages *)

Definition tid : json := str "44444444-4444-4444-4444-444444444444".
Definition b64 (raw : bytes) : json := str (b64encode raw).
Definition hex_of (raw : bytes) : json := str (hex raw).
Context (image : bytes).
Definition first_step : step := nth 0 chain (Step [] [] []).
Definition last_digest : bytes := seal_of (sp_entry (nth 2 chain (Step [] [] []))).
Definition status_payload : json :=
  obj [("promisedEpoch", num 2); ("lastLogIndex", num 3); ("commitIndex", num 3); ("lastDigest", hex_of last_digest);
       ("commitDigest", hex_of last_digest); ("appliedIndex", num 3); ("snapshotIndex", num 3); ("recoveryFloor", num 0);
       ("voter", JBool true); ("damagedTail", JBool false)]%string.
Definition wire_payloads : list json :=
  [obj []; status_payload; obj [("entry", b64 (sp_entry first_step))];
   obj [("index", num 1); ("entryDigest", hex_of (seal_of (sp_entry first_step)));
        ("receiptDigest", hex_of (durable_ack md "node-2" 2 incarnation 1 (seal_of (sp_entry first_step))))];
   obj [("proof", b64 (sp_proof first_step))]; obj [("index", num 1); ("proofDigest", hex_of (seal_of (sp_proof first_step)))];
   obj [("action", str "ready"); ("index", num 3); ("digest", hex_of last_digest)];
   obj [("reason", str "CONFLICTING_HISTORY")]; obj [];
   obj [("transferId", tid); ("length", num (size_of image)); ("digest", hex_of (sha256 image))];
   obj [("transferId", tid); ("offset", num 0); ("data", b64 image)]; obj [("transferId", tid); ("admit", JBool true)];
   obj [("recovery", JBool true)]; status_payload; obj []; obj [("reason", str "PROTOCOL_MISMATCH")]]%string.

Definition is_reply (i : Z) : bool := bool_decide (i ∈ [2; 4; 6; 8; 14; 16]).
Definition wire_envelope (i : Z) (name : string) (payload : json) : json :=
  obj [("protocol", str "gse-replication/1.1"); ("manifestDigest", hex_of md); ("groupId", str (uuid_text group));
       ("configurationId", str "config-v1"); ("sender", str (if is_reply i then "node-2" else "node-1"));
       ("recipient", str (if is_reply i then "node-1" else "node-2")); ("epoch", num 2);
       ("incarnationId", str (uuid_text incarnation)); ("traceId", tid); ("eventSequence", num i); ("type", str name);
       ("payload", payload)]%string.
(** ['wire-%02d.gsrp' % i] *)
Definition wire_name (i : Z) : string := "wire-" +:+ (if i <? 10 then "0" else "") +:+ pretty i +:+ ".gsrp".
Definition wires : files_of :=
  (fun x : Z * (string * json) =>
     (wire_name x.1, framed_as GSRP 1 x.1 (canonical_json (wire_envelope x.1 x.2.1 x.2.2)))) <$>
  zip (Z.of_nat <$> seq 1 16) (zip TYPES wire_payloads).


(** *** Administrative records *)

Definition abort_bytes (tail : bytes) : bytes :=
  framed 21 (seal_of plan_raw ++ be8 3 ++ tail ++ byte1 5 ++ concat (seal_of <$> preparations) ++ ZERO32).

Definition cleanup_row (path kind : string) (size : Z) (digest : bytes) (owner : string) : json :=
  obj [("path", str path); ("kind", str kind); ("size", num size); ("digest", hex_of digest); ("owner", str owner)]%string.
Definition plan_owner : string := hex (seal_of plan_raw).
Definition file_row (directory owner : string) (f : string * bytes) : string * json :=
  let path := node_file directory f.1 in (path, cleanup_row path "file" (size_of f.2) (sha256 f.2) owner).
Definition directory_row (path owner : string) : string * json := (path, cleanup_row path "directory" 0 ZERO32 owner).
Definition member_row (directory owner : string) (v : member) : string * json :=
  let path := node_file directory (iv_name v) in (path, cleanup_row path "file" (iv_size v) (iv_digest v) owner).

(** The rows in the order of their paths *)
Definition row_le (a b : string * json) : Prop := string_le a.1 b.1.
#[local] Instance row_le_dec : RelDecision row_le.
Proof. intros a b. unfold row_le. apply _. Defined.

Definition owned_rows (rows12 : bytes) : list (string * json) :=
  concat ((fun x : string * list member * bytes =>
             let '(node, inv, prepared) := x in
             let directory := "/fixture/" +:+ node in
             directory_row directory plan_owner :: (member_row directory plan_owner <$> inv)
             ++ [file_row directory plan_owner ("bootstrap-prepared.gsr"%string, prepared)]) <$>
          zip (zip nodes inventories) preparations)
  ++ directory_row "/fixture/operation" plan_owner
     :: (file_row "/fixture/operation" plan_owner <$> [("operation.lock", []); ("plan.gsr", plan_raw); ("operation.gsr", rows12)]%string).
Definition source_rows : list (string * json) :=
  match sources with
  | [] => []
  | _ => directory_row "/fixture/source" "source" :: (file_row "/fixture/source" "source" <$> sources)
  end.
Definition cleanup_inventory (rows12 : bytes) : list (string * json) := merge_sort row_le (owned_rows rows12 ++ source_rows).

(** [v.count('/')], and the order of deletion: deeper paths first *)
Definition depth (path : string) : nat := pred (length (split_char slash path)).
Definition delete_le (a b : string) : Prop := (depth b < depth a)%nat \/ (depth a = depth b /\ string_le a b).
#[local] Instance delete_le_dec : RelDecision delete_le.
Proof. intros a b. unfold delete_le. apply _. Defined.
Definition last_paths : list string :=
  ["/fixture/operation/plan.gsr"; "/fixture/operation/operation.gsr"; "/fixture/operation/operation.lock"; "/fixture/operation"]%string.
Definition delete_paths (rows12 : bytes) : list string :=
  filter (fun v => v ∉ last_paths) (merge_sort delete_le (owned_rows rows12).*1) ++ last_paths.
Definition cleanup_bytes (rows12 tail : bytes) : bytes :=
  framed 22 (seal_of plan_raw ++ tail ++ put_blob (canonical_json
    (obj [("operation", path_of "/fixture/operation"); ("inventory", JArray (cleanup_inventory rows12).*2);
          ("deletePaths", JArray (str <$> delete_paths rows12))]%string))).

Definition replacement_bytes (files : files_of) : bytes :=
  let inv := inventory_below "node-2" files in
  framed 23 (be2 1 ++ put_blob receipt_raw ++ put_blob (canonical_json
    (obj [("operation", path_of "/fixture/replacement-operation"); ("source", path_of "/fixture/node-2");
          ("configuration", replica_config "node-1" "/fixture/replacement-node-1"); ("manifestDigest", hex_of md);
          ("genesisDigest", hex_of (seal_of genesis_raw)); ("sourceInventoryDigest", hex_of (inventory_digest inv))]%string))
    ++ inventory_bytes inv).
Definition replacement_frame (replacement previous : bytes) (phase : Z) : bytes :=
  framed 21 (seal_of replacement ++ be8 phase ++ previous ++ byte1 phase ++ replicate 128 Byte.x00).
Definition replacement_journal (replacement : bytes) : bytes :=
  let first := replacement_frame replacement ZERO32 1 in first ++ replacement_frame replacement (seal_of first) 2.
End Voters.

(** ** [make] *)

Definition make : files_of :=
  let g := genesis_bytes in
  let m := manifest_bytes g in
  let roots := payloads g m <$> nodes in
  let inventories := members_of <$> roots in
  let p := plan_bytes g m inventories in
  let prepared := preparation_bytes m p <$> zip nodes inventories in
  let r := receipt_bytes p prepared in
  let rows := journal_from p prepared r 1 ZERO32 4 in
  let row2 := nth 1 rows [] in
  let rows12 := concat (take 2 rows) in
  let voters := concat (voter_files r <$> zip (zip nodes roots) prepared) in
  let chain := steps m 1 1 (md m) [1; 9; 10] in
  let evidence := snapshots m chain in
  let image := recovery_image (default [] (assoc_get "snapshot-3.gsr"%string evidence)) in
  let files := [("genesis.gsr", g); ("manifest.gsr", m)]%string ++ ((fun f : string * bytes => (node_file "source" f.1, f.2)) <$> sources)
               ++ [("plan.gsr", p); ("receipt.gsr", r); ("operation.gsr", concat rows)]%string ++ voters ++ evidence
               ++ [("recovery-image.gsr"%string, image)] ++ wires m chain image in
  let replacement := replacement_bytes g m r files in
  files ++ [("admin-aborting.gsr", abort_bytes p prepared (seal_of row2)); ("admin-cleanup.gsr", cleanup_bytes inventories p prepared rows12 (seal_of row2));
            ("admin-replacement-plan.gsr", replacement); ("admin-replacement-journal.gsr", replacement_journal replacement);
            ("admin-replacement-node.gsr", framed 2 (md m ++ put_text "node-1" ++ [Byte.x01])); ("admin-rebuilding.gsr", framed 13 (md m ++ put_text "node-1"))]%string.
End Make.
