(* ===== verification/AdmissionProofs.v ===== *)
(** * What the admission readers accept

    Frames, texts, blobs and counts are read back exactly from what the writers put; from there each
    record of an admission is the frame its reader expects, and nothing else. *)

From Stdlib Require Import Ascii.
From stdpp Require Import base gmap sets strings list sorting.
From S2P Require Import Prelude Bytes Sha256 Wire Files Json ReplicaFrames TextCodes Schema AdmissionFields Admission AdmissionFixture.
Import StateNotations ResultNotations.
Local Open Scope py_scope.
Local Open Scope Z_scope.

#[local] Opaque be_split sha256.

(** ** Frames *)

(** What the seal of a frame covers *)
Definition unsealed_frame (raw : bytes) : bytes := take 16 raw ++ drop 48 raw.

Lemma length_frame_head magic minor kind size : length magic = 4%nat -> length (frame_head magic minor kind size) = 16%nat.
Proof. intros H. unfold frame_head. by rewrite !length_app, !length_be_split, H. Qed.

Lemma framed_parts magic minor kind body :
  length magic = 4%nat ->
  let raw := framed_as magic minor kind body in
  let head := frame_head magic minor kind (Z.of_nat (length body)) in
  take 16 raw = head /\ seal_of raw = sha256 (head ++ body) /\ drop 48 raw = body /\ unsealed_frame raw = head ++ body /\
  length raw = (48 + length body)%nat.
Proof.
  intros Hm raw head. pose proof (length_frame_head magic minor kind (Z.of_nat (length body)) Hm) as Hh. fold head in Hh.
  assert (raw = head ++ sha256 (head ++ body) ++ body) as Hr by done.
  assert (take 16 raw = head) as Ht by (rewrite Hr, <- Hh; apply take_app_length).
  assert (drop 16 raw = sha256 (head ++ body) ++ body) as Hd by (rewrite Hr, <- Hh; apply drop_app_length).
  assert (seal_of raw = sha256 (head ++ body)) as Hs.
  { unfold seal_of. rewrite Hd. pose proof (length_sha256 (head ++ body)) as Hl. rewrite <- Hl at 1. apply take_app_length. }
  assert (drop 48 raw = body) as Hb.
  { replace 48%nat with (16 + 32)%nat by done. rewrite <- drop_drop, Hd.
    pose proof (length_sha256 (head ++ body)) as Hl. rewrite <- Hl at 1. apply drop_app_length. }
  split_and!; try done; [unfold unsealed_frame; congruence|]. rewrite Hr, !length_app, length_sha256. lia.
Qed.

Lemma prefix_bytes raw p :
  length raw = 16%nat -> run_reader read_prefix raw = Ok p ->
  raw = px_magic p ++ be_split 2 (px_major p) ++ be_split 2 (px_minor p) ++ be_split 2 (px_kind p) ++ be_split 2 (px_flags p)
        ++ be_split 4 (px_length p) /\ length (px_magic p) = 4%nat.
Proof.
  intros Hl H. unfold read_prefix in H. apply run_reader_ok in H as [s2 H]. ok_inv H. fields_inv. subst. cbn.
  rewrite !length_app, !length_be_split in Hl. assert (length x = 4%nat) as Hx by lia.
  assert (s2 = []) as -> by (apply nil_length_inv; lia). by rewrite app_nil_r.
Qed.

Lemma signed_4 z : - 2 ^ 31 <= z < 2 ^ 31 -> signed_range 4 z.
Proof. intros H. exact H. Qed.
Lemma signed_8 z : - 2 ^ 63 <= z < 2 ^ 63 -> signed_range 8 z.
Proof. intros H. exact H. Qed.

(** An accepted record is the frame of its body. *)
Lemma record_body_ok raw kind maximum magic body :
  record_body raw kind maximum magic = Ok body ->
  raw = framed_as magic 1 kind body /\ length magic = 4%nat /\ (0 < length body)%nat /\ Z.of_nat (length raw) <= maximum.
Proof.
  unfold record_body, need. intros H. ok_inv H. injection H as <-. bool_tac.
  match goal with A : run_reader read_prefix _ = Ok _ |- _ => apply prefix_bytes in A as [Ht Hm]; [|rewrite length_take; lia] end.
  assert (framed_as magic 1 kind (drop 48 raw) = take 16 raw ++ seal_of raw ++ drop 48 raw) as Hf.
  { unfold framed_as. assert (frame_head magic 1 kind (Z.of_nat (length (drop 48 raw))) = take 16 raw) as ->; [|by f_equal; f_equal].
    rewrite Ht. unfold frame_head. rewrite length_drop. repeat f_equal; try congruence; lia. }
  split_and!; [|congruence| |done].
  - rewrite Hf. unfold seal_of. rewrite <- (take_drop 16 raw) at 1. f_equal. rewrite <- (take_drop 32 (drop 16 raw)) at 1. by rewrite drop_drop.
  - rewrite length_drop. lia.
Qed.

Lemma record_body_framed magic kind maximum body :
  length magic = 4%nat -> 0 <= kind < 65536 -> (0 < length body)%nat -> 48 + Z.of_nat (length body) <= maximum -> maximum < 2 ^ 31 ->
  record_body (framed_as magic 1 kind body) kind maximum magic = Ok body.
Proof.
  intros Hm Hk Hb Hx Hlt. destruct (framed_parts magic 1 kind body Hm) as (Ht & Hs & Hd & _ & Hl).
  unfold record_body. rewrite Hl, Ht, Hs, Hd. rewrite (proj2 (Z.ltb_lt _ _)), (proj2 (Z.leb_le _ _)) by lia. cbn [andb need guard rbind].
  assert (run_reader read_prefix (frame_head magic 1 kind (Z.of_nat (length body))) = Ok (Prefix magic 1 1 kind 0 (Z.of_nat (length body)))) as ->.
  { unfold frame_head. rewrite <- (app_nil_r (be_split 4 _)). eapply run_exact. unfold read_prefix.
    assert (forall z, 0 <= z < 65536 -> unsigned_range 2 z) as Hu by (intros z Hz; exact Hz).
    assert (signed_range 4 (Z.of_nat (length body))) as Hz by (apply signed_4; lia).
    eapply feed; [by apply reads_take; lia|]. do 4 (eapply feed; [apply reads_uint, Hu; lia|]). eapply feed; [by apply reads_int; [lia|]|].
    reflexivity. }
  cbn [rbind px_magic px_major px_minor px_kind px_flags px_length]. rewrite !bool_decide_eq_true_2, !Z.eqb_refl by done.
  cbn [andb need guard rbind]. rewrite (proj2 (Z.eqb_eq _ _)) by lia. done.
Qed.

Lemma seal_binds magic magic' minor minor' kind kind' body body' :
  length magic = 4%nat -> length magic' = 4%nat ->
  seal_of (framed_as magic minor kind body) = seal_of (framed_as magic' minor' kind' body') ->
  framed_as magic minor kind body = framed_as magic' minor' kind' body' \/
  collides (unsealed_frame (framed_as magic minor kind body)) (unsealed_frame (framed_as magic' minor' kind' body')).
Proof.
  intros Hm Hm' H. destruct (framed_parts magic minor kind body Hm) as (Ht & Hs & Hd & Hu & _).
  destruct (framed_parts magic' minor' kind' body' Hm') as (Ht' & Hs' & Hd' & Hu' & _).
  rewrite Hu, Hu'. rewrite Hs, Hs' in H. destruct (same_digest _ _ H) as [He|Hc]; [left|by right].
  unfold framed_as. rewrite He. apply app_inj_1 in He as [-> ->]; [done|]. by rewrite !length_frame_head.
Qed.

(** ** Fields *)

Lemma get_blob_ok maximum s b s2 :
  AdmissionFields.get_blob maximum s = (Ok b, s2) -> s = put_blob b ++ s2 /\ Z.of_nat (length b) <= maximum.
Proof.
  unfold AdmissionFields.get_blob, needs, number_i, take_n. intros H. ok_inv H. fields_inv. bool_tac. subst. unfold put_blob.
  split; [by rewrite <- app_assoc|lia].
Qed.

Lemma reads_blob maximum b :
  Z.of_nat (length b) <= maximum -> maximum < 2 ^ 31 -> reads (AdmissionFields.get_blob maximum) (put_blob b) b.
Proof.
  intros Hl Hm r. unfold AdmissionFields.get_blob, put_blob, number_i, take_n, needs. rewrite <- app_assoc.
  eapply feed; [apply reads_int; [lia|apply signed_4; lia]|]. cbv beta. apply feed_check; [lia|]. by rewrite (reads_take _ _ b) by done.
Qed.

Lemma get_string_ok maximum s x s2 :
  get_string maximum s = (Ok x, s2) -> s = put_text x ++ s2 /\ x <> EmptyString /\ is_text x = true /\ text_size x <= maximum.
Proof.
  unfold get_string, needs. intros H. apply bind_ok in H as (raw & s1 & Hb & H). apply get_blob_ok in Hb as [-> Hl].
  apply bind_ok in H as ([] & s3 & Hc & H). apply ensure_ok in Hc as [Hn ->]. apply liftr_ok in H as [Hd ->]. bool_tac.
  unfold decode_utf8 in Hd. destruct (utf8_valid raw) eqn:Hv; [|done]. injection Hd as <-.
  unfold put_text, put_blob, text_size, is_text. rewrite utf8_str. split_and!; try done. intros He. apply Hn.
  rewrite <- (utf8_str raw), He. done.
Qed.

Lemma reads_get_string maximum x :
  x <> EmptyString -> is_text x = true -> text_size x <= maximum -> maximum < 2 ^ 31 -> reads (get_string maximum) (put_text x) x.
Proof.
  intros Hx Ht Hl Hm r. unfold get_string. change (put_text x) with (put_blob (utf8 x)).
  eapply feed; [apply reads_blob; done|]. cbv beta. unfold needs. apply feed_check.
  - rewrite bool_decide_eq_false_2; [done|]. intros He. apply Hx. rewrite <- (str_utf8 x), He. done.
  - unfold liftr. by rewrite decode_encode.
Qed.

Lemma read_all_ok {A} (p : reader A) raw x : read_all p raw = Ok x <-> p raw = (Ok x, []).
Proof.
  unfold read_all, end_fields. split.
  - intros H. apply run_reader_ok in H as [s2 H]. ok_inv H. fields_inv. by subst.
  - intros H. unfold run_reader, bind. by rewrite H.
Qed.

Lemma read_record_ok {A} kind (p : reader A) raw x :
  read_record kind p raw = Ok x ->
  exists body, raw = framed kind body /\ p body = (Ok x, []) /\ (0 < length body)%nat /\ Z.of_nat (length raw) <= META.
Proof.
  unfold read_record, record_of. intros H. apply rbind_ok in H as (body & Hb & H). apply read_all_ok in H.
  apply record_body_ok in Hb as (-> & _ & Hl & Hm). by exists body.
Qed.

Lemma read_record_framed {A} kind (p : reader A) body x :
  0 <= kind < 65536 -> (0 < length body)%nat -> 48 + Z.of_nat (length body) <= META -> p body = (Ok x, []) ->
  read_record kind p (framed kind body) = Ok x.
Proof.
  intros Hk Hb Hl Hp. unfold read_record, record_of, framed. rewrite record_body_framed; try done. cbn [rbind]. by apply read_all_ok.
Qed.

(** [field_inv H] reads the accepted fields off a hypothesis about a reader of this module. *)
Ltac field_inv H :=
  unfold needs, take_n, number_B, number_H, number_i, number_q, end_fields in H; ok_inv H;
  repeat match goal with
  | A : AdmissionFields.get_blob _ _ = (Ok _, _) |- _ => apply get_blob_ok in A as [-> ?]
  | A : get_string _ _ = (Ok _, _) |- _ => apply get_string_ok in A as (-> & ? & ? & ?)
  | A : (_, _) = (_, _) |- _ => injection A as ? ?
  | _ => progress fields_inv
  end; bool_tac; subst.

(** ** The receipt *)

Lemma preparation_fields_ok plan_raw m node inv body :
  preparation_fields plan_raw m node inv body = (Ok tt, []) ->
  framed 18 body = preparation_bytes (mf_raw m) plan_raw (node, inv).
Proof.
  unfold preparation_fields. cbv zeta. intros H. field_inv H. unfold preparation_bytes, md. by rewrite app_nil_r.
Qed.

Lemma preparations_ok plan_raw m rows s preps s2 :
  preparations_fields plan_raw m rows s = (Ok preps, s2) ->
  s = concat (put_blob <$> preps) ++ s2 /\ preps = preparation_bytes (mf_raw m) plan_raw <$> rows.
Proof.
  revert s preps. induction rows as [|[node inv] rows IH]; intros s preps H; cbn [preparations_fields] in H.
  - apply ret_ok in H as [<- <-]. done.
  - apply bind_ok in H as (prepared & s1 & Hb & H). apply get_blob_ok in Hb as [-> _].
    apply bind_ok in H as ([] & s3 & Hr & H). apply liftr_ok in Hr as [Hr ->]. apply read_record_ok in Hr as (body & -> & Hp & _ & _).
    apply bind_ok in H as (more & s4 & Hm & H). apply ret_ok in H as [<- <-]. apply IH in Hm as [-> ->].
    rewrite (preparation_fields_ok _ _ _ _ _ Hp), !fmap_cons. cbn [concat]. by rewrite <- app_assoc.
Qed.

Lemma receipt_ok raw plan_raw m inventories preps :
  receipt raw plan_raw m inventories = Ok preps ->
  preps = preparation_bytes (mf_raw m) plan_raw <$> zip (mf_nodes m) inventories /\ raw = receipt_bytes plan_raw preps /\
  Z.of_nat (length raw) <= META.
Proof.
  unfold receipt. intros H. apply read_record_ok in H as (body & -> & H & _ & Hl). unfold receipt_fields in H.
  apply bind_ok in H as (p & s1 & Hp & H). apply get_blob_ok in Hp as [-> _]. apply bind_ok in H as ([] & s2 & Hc & H).
  apply ensure_ok in Hc as [Hc ->]. apply bind_ok in H as (n & s3 & Hn & H). apply int_bytes in Hn as [-> Hn]; [|lia].
  apply bind_ok in H as ([] & s4 & Hc3 & H). apply ensure_ok in Hc3 as [Hc3 ->]. apply preparations_ok in H as [-> ->]. bool_tac. subst.
  split_and!; [done| |done]. unfold receipt_bytes. by rewrite app_nil_r.
Qed.

(** ** The journal *)

Lemma journal_fields_ok plan_raw previous phases receipt_raw preps body :
  journal_fields (seal_of plan_raw) previous phases (seal_of receipt_raw) preps body = (Ok tt, []) ->
  framed 21 body = journal_row plan_raw preps receipt_raw (phases + 1) previous /\ 0 <= phases + 1 /\ phases < 4.
Proof.
  unfold journal_fields. intros H.
  apply bind_ok in H as (p & s1 & Hp & H). apply take_bytes_ok in Hp as [-> _].
  apply bind_ok in H as ([] & ? & Hc & H). apply ensure_ok in Hc as [Hc ->].
  apply bind_ok in H as (sq & s2 & Hx & H). apply int_bytes in Hx as [-> _]; [|lia].
  apply bind_ok in H as ([] & ? & Hc2 & H). apply ensure_ok in Hc2 as [Hc2 ->].
  apply bind_ok in H as (d & s3 & Hd & H). apply take_bytes_ok in Hd as [-> _].
  apply bind_ok in H as ([] & ? & Hc3 & H). apply ensure_ok in Hc3 as [Hc3 ->].
  apply bind_ok in H as (phase & s4 & Hph & H). apply uint_bytes in Hph as [-> Hr].
  apply bind_ok in H as ([] & s4' & Hc4 & H). apply ensure_ok in Hc4 as [Hc4 ->].
  apply bind_ok in H as ([] & s5 & Hps & H). apply bind_ok in H as (z & s6 & Hz & H). apply take_bytes_ok in Hz as [-> _].
  apply ensure_ok in H as [Hc5 ->]. bool_tac. unfold unsigned_range in Hr. subst. split; [|lia].
  assert (s4' = concat ((fun p => if phases + 1 =? 1 then ZERO32 else seal_of p) <$> preps)
                ++ (if phases + 1 =? 4 then seal_of receipt_raw else ZERO32) ++ []) as ->.
  { clear -Hps. revert Hps. generalize ((if phases + 1 =? 4 then seal_of receipt_raw else ZERO32) ++ []). intros z. revert s4'. induction preps as [|p preps IH]; intros s H; [by apply ret_ok in H as [_ <-]|].
    apply bind_ok in H as (d & s1 & Hd & H). apply take_bytes_ok in Hd as [-> _]. apply bind_ok in H as ([] & s2 & Hc & H).
    apply ensure_ok in Hc as [Hc ->]. apply IH in H as ->. bool_tac. subst. cbn. by rewrite <- app_assoc. }
  unfold journal_row, be8, byte1. by rewrite app_nil_r.
Qed.

Lemma journal_rows_ok fuel plan_raw receipt_raw preps phases previous raw n :
  journal_rows fuel (seal_of plan_raw) (seal_of receipt_raw) preps phases previous raw = Ok n ->
  phases <= n /\ raw = concat (journal_from plan_raw preps receipt_raw (phases + 1) previous (Z.to_nat (n - phases))).
Proof.
  revert phases previous raw. induction fuel as [|fuel IH]; intros phases previous raw H; [done|]. cbn [journal_rows] in H.
  destruct raw as [|b raw]; [injection H as <-; by rewrite Z.sub_diag|]. set (r := b :: raw) in *. clearbody r. unfold need in H.
  apply rbind_ok in H as ([] & _ & H). apply rbind_ok in H as ([] & Hc%guard_ok & H). apply rbind_ok in H as ([] & Hr & H).
  bool_tac. apply read_record_ok in Hr as (body & Hf & Hp & _). apply journal_fields_ok in Hp as (Hp & _ & _).
  rewrite Hf, Hp in H. apply IH in H as [Hle Hd]. split; [lia|].
  rewrite <- (take_drop (Z.to_nat (to_signed 4 (be_join (take 4 (drop 12 r))) + 48)) r), Hd, Hf, Hp.
  replace (Z.to_nat (n - phases)) with (S (Z.to_nat (n - (phases + 1)))) by lia. done.
Qed.

Lemma journal_ok raw plan_raw receipt_raw preps nodes :
  journal raw plan_raw receipt_raw preps nodes = Ok tt -> raw = concat (journal_from plan_raw preps receipt_raw 1 ZERO32 4).
Proof.
  unfold journal, need. intros H. apply rbind_ok in H as (n & Hn & H). apply guard_ok in H. bool_tac.
  apply journal_rows_ok in Hn as [_ ->]. match goal with A : n = 4 |- _ => by rewrite A end.
Qed.

(** ** The initial root of a voter *)

Definition promise_of (m : manifest_of) : bytes := framed 4 (mf_digest m ++ put_text (mf_leader m) ++ be8 1 ++ ZERO16).
Definition ready_of (m : manifest_of) (node : string) : bytes :=
  framed 7 (mf_digest m ++ seal_of (identity_bytes (mf_raw m) node)
            ++ concat ((fun x : string * Z => seal_of (header_bytes (mf_raw m) node x.2)) <$> ROOT_JOURNALS)).
(** The files of a root, bytes and all *)
Definition root_files (m : manifest_of) (node : string) : files_of :=
  [("node.gsr", identity_bytes (mf_raw m) node); ("promises.gsr", header_bytes (mf_raw m) node 4 ++ promise_of m)%list;
   ("entries.gsr", header_bytes (mf_raw m) node 5); ("proofs.gsr", header_bytes (mf_raw m) node 6);
   ("storage-ready.gsr", ready_of m node); ("replica.lock", [])]%string.

Lemma node_fields_ok m node msg body :
  node_fields m node 0 msg body = (Ok tt, []) -> framed 2 body = identity_bytes (mf_raw m) node.
Proof. unfold node_fields. intros H. field_inv H. unfold identity_bytes, md. by rewrite app_nil_r. Qed.

Lemma header_fields_ok m node kind body :
  header_fields m node kind body = (Ok tt, []) -> framed 3 body = header_bytes (mf_raw m) node kind.
Proof. unfold header_fields. cbv zeta. intros H. field_inv H. unfold header_bytes, md, be2. by rewrite app_nil_r. Qed.

Lemma promise_fields_ok m body : initial_promise m body = (Ok tt, []) -> framed 4 body = promise_of m.
Proof. unfold initial_promise. cbv zeta. intros H. field_inv H. unfold promise_of, be8. by rewrite app_nil_r. Qed.

Lemma framed_size kind body rest :
  Z.of_nat (length body) < 2 ^ 31 -> to_signed 4 (be_join (take 4 (drop 12 (framed kind body ++ rest)))) = Z.of_nat (length body).
Proof.
  intros Hl. assert (take 4 (drop 12 (framed kind body ++ rest)) = be_split 4 (Z.of_nat (length body))) as ->.
  { unfold framed, framed_as, frame_head. rewrite <- !app_assoc.
    rewrite (app_assoc GSER), (app_assoc (GSER ++ _)), (app_assoc ((GSER ++ _) ++ _)), (app_assoc (((GSER ++ _) ++ _) ++ _)).
    rewrite drop_app_length' by (rewrite !length_app, !length_be_split; done).
    by rewrite take_app_length' by (by rewrite length_be_split). }
  apply to_signed_split; [lia|]. apply signed_4. lia.
Qed.

Lemma seal_app raw rest : (48 <= length raw)%nat -> seal_of (raw ++ rest) = seal_of raw.
Proof. intros Hl. unfold seal_of. rewrite drop_app_le by lia. apply take_app_le. rewrite length_drop. lia. Qed.

Lemma length_framed kind body : length (framed kind body) = (48 + length body)%nat.
Proof. apply framed_parts. done. Qed.

(** The header of a journal, cut off by its own length field *)
Lemma python_prefix_frame raw field kind body :
  size_field raw = Ok field -> python_prefix (48 + field) raw = framed kind body -> Z.of_nat (length (framed kind body)) <= META ->
  raw = framed kind body ++ drop (Z.to_nat (48 + field)) raw /\ 48 + field = Z.of_nat (length (framed kind body)).
Proof.
  unfold size_field, python_prefix, META. intros H Hp Hl. apply rbind_ok in H as ([] & _ & [= <-]). rewrite length_framed in *.
  match type of Hp with take ?n raw = _ => set (k := n) in * end.
  assert (raw = framed kind body ++ drop k raw) as Hr by (rewrite <- Hp; symmetry; apply take_drop).
  rewrite Hr, framed_size in * by lia. rewrite Hr in Hp. clear Hr.
  assert (48 + Z.of_nat (length body) = Z.of_nat (48 + length body)) as Hz by lia. split; [|done].
  f_equal. rewrite Hz, Nat2Z.id. rewrite <- (length_framed kind body), drop_app_length. done.
Qed.

Lemma initial_journal_ok m node kind raw s :
  initial_journal m node kind raw = Ok s ->
  raw = header_bytes (mf_raw m) node kind ++ (if kind =? 4 then promise_of m else []) /\ s = seal_of (header_bytes (mf_raw m) node kind).
Proof.
  unfold initial_journal, need. intros H. apply rbind_ok in H as ([] & _ & H). apply rbind_ok in H as (field & Hf & H).
  apply rbind_ok in H as ([] & Hh & H). apply rbind_ok in H as ([] & Hp & [= <-]).
  apply read_record_ok in Hh as (body & Hraw & Hb & _ & Hl). rewrite Hraw in Hl.
  destruct (python_prefix_frame _ _ _ _ Hf Hraw Hl) as [Hr Hs]. apply header_fields_ok in Hb.
  assert (seal_of raw = seal_of (header_bytes (mf_raw m) node kind)) as Hseal.
  { rewrite Hr, seal_app, Hb; [done|]. rewrite length_framed. lia. }
  split; [|done]. rewrite Hr at 1. rewrite Hb. f_equal. destruct (kind =? 4).
  - apply read_record_ok in Hp as (body' & -> & Hp & _). by apply promise_fields_ok.
  - apply guard_ok in Hp. bool_tac. rewrite drop_ge; [done|]. lia.
Qed.

(** [holds files directory records]: the directory of the evidence has exactly these bytes under these names. *)
Definition holds (files : files_of) (directory : string) (records : files_of) : Prop :=
  Forall (fun f : string * bytes => file_at files (node_file directory f.1) = Ok f.2) records.

Lemma ready_fields_ok h body :
  (let* x := take_n 160 in needs (bool_decide (x = h)) "storage-ready hashes") body = (Ok tt, []) -> framed 7 body = framed 7 h.
Proof. intros H. field_inv H. by rewrite app_nil_r. Qed.

Lemma initial_root_ok files node m : initial_root files node m = Ok tt -> holds files node (root_files m node).
Proof.
  unfold initial_root, ROOT_JOURNALS. cbn [map_all fst snd]. intros H.
  apply rbind_ok in H as (identity & Hi & H). apply rbind_ok in H as ([] & Hn & H).
  apply read_record_ok in Hn as (body & -> & Hn & _). apply node_fields_ok in Hn. rewrite Hn in *.
  apply rbind_ok in H as (journals & Hj & H). apply rbind_ok in H as (ready & Hr & H). apply rbind_ok in H as ([] & Hrr & H).
  apply rbind_ok in H as (lock & Hl & H). apply guard_ok in H. bool_tac. subst lock.
  apply rbind_ok in Hj as (s1 & H1 & Hj). apply rbind_ok in H1 as (r1 & F1 & H1). apply initial_journal_ok in H1 as [-> ->].
  apply rbind_ok in Hj as (js & Hj & [= <-]). apply rbind_ok in Hj as (s2 & H2 & Hj).
  apply rbind_ok in H2 as (r2 & F2 & H2). apply initial_journal_ok in H2 as [-> ->].
  apply rbind_ok in Hj as (js' & Hj & [= <-]). apply rbind_ok in Hj as (s3 & H3 & Hj).
  apply rbind_ok in H3 as (r3 & F3 & H3). apply initial_journal_ok in H3 as [-> ->]. cbn [rbind] in Hj. injection Hj as <-.
  apply read_record_ok in Hrr as (rb & -> & Hrr & _). apply ready_fields_ok in Hrr.
  rewrite Hrr in Hr. cbn [Z.eqb Pos.eqb] in *. rewrite app_nil_r in *.
  unfold holds, root_files. repeat (apply Forall_cons; split; [done|]). by apply Forall_nil.
Qed.

(** ** One voter *)

(** The records of a voter: the root, its genesis and manifest, its preparation and its seal *)
Definition voter_records (m : manifest_of) (g : genesis_of) (receipt_raw : bytes) (node : string) (prepared : bytes) : files_of :=
  root_files m node ++ [("genesis.gsr", gn_raw g); ("manifest.gsr", mf_raw m); ("bootstrap-prepared.gsr", prepared);
                        ("bootstrap-seal.gsr", seal_frame receipt_raw node)]%string.

Lemma seal_fields_ok node receipt_raw raw :
  read_record 20 (seal_fields node receipt_raw) raw = Ok tt -> raw = seal_frame receipt_raw node.
Proof.
  intros (body & -> & H & _)%read_record_ok. unfold seal_fields in H. field_inv H. unfold seal_frame. by rewrite app_nil_r.
Qed.

Lemma check_members_ok files directory msg entries :
  check_all (check_member files directory msg) entries = Ok tt ->
  Forall (fun v => exists raw, file_at files (node_file directory (iv_name v)) = Ok raw /\ sha256 raw = iv_digest v) entries.
Proof.
  induction entries as [|v inv IH]; intros H; [constructor|]. cbn [check_all] in H. apply rbind_ok in H as ([] & Hv & H).
  constructor; [|by apply IH]. unfold check_member, need in Hv. apply rbind_ok in Hv as (raw & Hr & Hv). apply guard_ok in Hv.
  bool_tac. by exists raw.
Qed.

Lemma check_node_ok files m g receipt_raw node inv prepared :
  check_node files m g receipt_raw (node, inv, prepared) = Ok tt ->
  holds files node (voter_records m g receipt_raw node prepared) /\
  Forall (fun v => exists raw, file_at files (node_file node (iv_name v)) = Ok raw /\ sha256 raw = iv_digest v) inv.
Proof.
  unfold check_node, need. intros H. apply rbind_ok in H as (p & Hp & H). apply rbind_ok in H as ([] & Hpp%guard_ok & H).
  apply rbind_ok in H as ([] & Hinv & H). apply rbind_ok in H as (lg & Hg & H). apply rbind_ok in H as ([] & Hgg%guard_ok & H).
  apply rbind_ok in H as (lm & Hm & H). apply rbind_ok in H as ([] & Hmm%guard_ok & H). apply rbind_ok in H as ([] & Hroot & H).
  apply rbind_ok in H as (seal & Hs & H). apply seal_fields_ok in H. bool_tac. subst. split.
  - apply Forall_app. split; [by apply initial_root_ok|]. repeat (apply Forall_cons; split; [done|]). by apply Forall_nil.
  - by eapply check_members_ok.
Qed.

(** ** Manifest and plan *)

Lemma manifest_ok raw g m :
  manifest raw g = Ok m ->
  mf_raw m = raw /\ length (mf_nodes m) = 3%nat /\ NoDup (mf_nodes m) /\
  exists body r, raw = framed 1 body /\ manifest_fields body = (Ok r, []) /\ mr_genesis r = gn_digest g.
Proof.
  unfold manifest, record_of, need. intros H. apply rbind_ok in H as (body & Hb & H). apply record_body_ok in Hb as (Hb & _).
  apply rbind_ok in H as (r & Hr%read_all_ok & H). apply rbind_ok in H as ([] & H1%guard_ok & H).
  apply rbind_ok in H as ([] & H2%guard_ok & H). apply rbind_ok in H as ([] & H3%guard_ok & H). injection H as <-. bool_tac.
  unfold mf_nodes. cbn [mf_raw mf_members]. split_and!; [done| |done|by exists body, r].
  rewrite length_fmap. unfold manifest_fields in Hr. clear -Hr. do 6 (apply bind_ok in Hr as (? & ? & _ & Hr)).
  apply bind_ok in Hr as (? & ? & _ & Hr). do 5 (apply bind_ok in Hr as (? & ? & _ & Hr)).
  apply bind_ok in Hr as (? & ? & _ & Hr). apply bind_ok in Hr as (members & ? & Hm & Hr).
  do 8 (apply bind_ok in Hr as (? & ? & _ & Hr)). apply ret_ok in Hr as [<- _]. cbn [mr_members]. by apply repeat_reader_length in Hm.
Qed.

(** The leading blobs of a plan *)
Lemma plan_ok raw m g manifest_raw x :
  plan raw m g manifest_raw = Ok x ->
  exists text rest, raw = framed 17 (be_split 2 1 ++ put_blob text ++ put_blob manifest_raw ++ put_blob (gn_source g) ++ rest) /\
    Z.of_nat (length text) <= META /\ Z.of_nat (length manifest_raw) <= META /\ Z.of_nat (length (gn_source g)) <= META.
Proof.
  unfold plan, record_of. intros H. apply rbind_ok in H as (body & Hb & H). apply record_body_ok in Hb as (-> & _).
  apply run_reader_ok in H as [s2 H]. unfold plan_fields in H.
  apply bind_ok in H as (v & s3 & Hv & H). apply uint_bytes in Hv as [-> _]. apply bind_ok in H as ([] & ? & Hc & H).
  apply ensure_ok in Hc as [Hc ->]. apply bind_ok in H as (text & ? & Ht & H). apply get_blob_ok in Ht as [-> Hl1].
  apply bind_ok in H as (desc & ? & Hd & H). apply liftr_ok in Hd as [_ ->].
  apply bind_ok in H as (emb & ? & He & H). apply get_blob_ok in He as [-> Hl2].
  apply bind_ok in H as (src & ? & Hs & H). apply get_blob_ok in Hs as [-> Hl3].
  apply bind_ok in H as (size & s5 & Hz & H). apply int_bytes in Hz as [-> _]; [|lia].
  apply bind_ok in H as ([] & ? & Hc2 & H). apply ensure_ok in Hc2 as [Hc2 ->]. bool_tac. subst. eexists text, _. by split_and!.
Qed.

Lemma blob_field (a b x y : bytes) :
  Z.of_nat (length a) <= META -> Z.of_nat (length b) <= META -> put_blob a ++ x = put_blob b ++ y -> a = b /\ x = y.
Proof.
  intros Ha Hb H. unfold put_blob in H. rewrite <- !app_assoc in H. apply int_field in H as [Hl H]; [|lia| |].
  - apply app_field in H; [done|]. lia.
  - apply signed_4. unfold META in *. lia.
  - apply signed_4. unfold META in *. lia.
Qed.

(** ** Reading back *)

Lemma identity_nonempty maximum s : is_identity maximum s = true -> s <> EmptyString.
Proof. by destruct s. Qed.

Lemma length_seal_of raw : (48 <= length raw)%nat -> length (seal_of raw) = 32%nat.
Proof. intros H. unfold seal_of. rewrite length_take, length_drop. lia. Qed.

Lemma reads_checked n (x : bytes) b msg {A} (k : unit -> reader A) r res :
  Z.of_nat (length x) = n -> b x = true -> k tt r = res ->
  bind (take_n n) (fun y => bind (needs (b y) msg) k) (x ++ r) = res.
Proof.
  intros Hl Hb Hk. eapply feed; [by apply reads_take|]. cbv beta. by apply feed_check.
Qed.

(** The preparation of an identity is read back. *)
Lemma preparation_reads plan_raw m node inv :
  is_identity 64 node = true -> (48 <= length plan_raw)%nat -> (48 <= length (mf_raw m))%nat ->
  preparation_fields plan_raw m node inv (seal_of plan_raw ++ md (mf_raw m) ++ put_text node ++ inventory_digest inv) = (Ok tt, []).
Proof.
  intros Hn Hp Hm. pose proof (identity_nonempty _ _ Hn) as He. destruct (identity_text _ _ Hn) as (Ht & _ & Hs). unfold preparation_fields. cbv zeta.
  apply reads_checked; [by rewrite length_seal_of|by apply bool_decide_eq_true_2|].
  apply reads_checked; [unfold md; by rewrite length_seal_of|by apply bool_decide_eq_true_2|].
  eapply feed; [by apply reads_get_string|]. cbv beta. apply feed_check; [by apply bool_decide_eq_true_2|].
  rewrite <- (app_nil_r (inventory_digest inv)) at 1. eapply feed; [apply reads_take; unfold inventory_digest; by rewrite length_sha256|].
  cbv beta. unfold needs, ensure, liftr. by rewrite bool_decide_eq_true_2.
Qed.

Lemma length_put_text s : length (put_text s) = (4 + length (utf8 s))%nat.
Proof. unfold put_text. by rewrite length_app, length_be_split. Qed.

Lemma length_preparation m plan_raw x :
  (48 <= length plan_raw)%nat -> (48 <= length (mf_raw m))%nat ->
  length (preparation_bytes (mf_raw m) plan_raw x) = (148 + length (utf8 x.1))%nat.
Proof.
  intros Hp Hm. unfold preparation_bytes, md. rewrite length_framed, !length_app, !length_seal_of, length_put_text by done.
  unfold inventory_digest. rewrite length_sha256. lia.
Qed.

Lemma preparations_read plan_raw m rows rest :
  Forall (fun x : string * list member => is_identity 64 x.1 = true) rows -> (48 <= length plan_raw)%nat -> (48 <= length (mf_raw m))%nat ->
  let preps := preparation_bytes (mf_raw m) plan_raw <$> rows in
  preparations_fields plan_raw m rows (concat (put_blob <$> preps) ++ rest) = (Ok preps, rest).
Proof.
  intros Hr Hp Hm. induction Hr as [|[node inv] rows Hn Hr IH]; [done|]. cbn zeta in *. rewrite !fmap_cons. cbn [concat preparations_fields].
  cbn [fst] in Hn. destruct (identity_text _ _ Hn) as (_ & _ & Hs).
  pose proof (length_preparation m plan_raw (node, inv) Hp Hm) as Hl. cbn [fst] in Hl.
  rewrite <- app_assoc. eapply feed; [apply reads_blob; unfold META, text_size in *; lia|]. cbv beta.
  unfold bind at 1, liftr at 1. unfold preparation_bytes at 1. cbn [fst snd].
  rewrite (read_record_framed 18 _ _ tt); [|lia| | |by apply preparation_reads].
  - unfold bind. by rewrite IH.
  - unfold preparation_bytes in Hl. rewrite length_framed in Hl. cbn [fst snd] in Hl. lia.
  - unfold preparation_bytes in Hl. rewrite length_framed in Hl. unfold META, text_size in *. cbn [fst snd] in Hl. lia.
Qed.

(** The receipt is read back. *)
Lemma receipt_reads plan_raw m inventories :
  Forall (fun n => is_identity 64 n = true) (mf_nodes m) -> length (mf_nodes m) = 3%nat -> length inventories = 3%nat ->
  (48 <= length plan_raw)%nat -> Z.of_nat (length plan_raw) <= META -> (48 <= length (mf_raw m))%nat ->
  let preps := preparation_bytes (mf_raw m) plan_raw <$> zip (mf_nodes m) inventories in
  Z.of_nat (length (receipt_bytes plan_raw preps)) <= META ->
  receipt (receipt_bytes plan_raw preps) plan_raw m inventories = Ok preps.
Proof.
  intros Hn Hn3 Hi3 Hp Hpm Hm preps Hl. unfold receipt, receipt_bytes in *. rewrite length_framed in Hl.
  apply read_record_framed; [lia| |lia|].
  - unfold put_blob. rewrite !length_app, length_be_split. lia.
  - unfold receipt_fields. eapply feed; [by apply reads_blob|]. cbv beta. apply feed_check; [by apply bool_decide_eq_true_2|].
    eapply feed; [apply reads_int; [lia|apply signed_4; lia]|]. cbv beta. apply feed_check; [done|].
    rewrite <- (app_nil_r (concat _)). apply preparations_read; [|done..].
    apply Forall_forall. intros [n inv] Hin. cbn [fst]. rewrite Forall_forall in Hn. apply Hn. by apply elem_of_zip_l in Hin.
Qed.

(** A row of the journal is read back. *)
Lemma journal_fields_reads plan_raw previous phases receipt_raw preps :
  (48 <= length plan_raw)%nat -> (48 <= length receipt_raw)%nat -> length previous = 32%nat ->
  Forall (fun p : bytes => (48 <= length p)%nat) preps -> 0 <= phases < 4 ->
  let phase := phases + 1 in
  journal_fields (seal_of plan_raw) previous phases (seal_of receipt_raw) preps
    (seal_of plan_raw ++ be8 phase ++ previous ++ byte1 phase ++ concat ((fun p => if phase =? 1 then ZERO32 else seal_of p) <$> preps)
     ++ (if phase =? 4 then seal_of receipt_raw else ZERO32)) = (Ok tt, []).
Proof.
  intros Hp Hr Hv Hps Hph phase. unfold journal_fields.
  apply reads_checked; [by rewrite length_seal_of|by apply bool_decide_eq_true_2|].
  eapply feed; [apply reads_int; [lia|apply signed_8; lia]|]. cbv beta. apply feed_check; [apply Z.eqb_refl|].
  apply reads_checked; [by rewrite Hv|by apply bool_decide_eq_true_2|].
  eapply feed; [apply reads_uint; split; lia|]. cbv beta. apply feed_check; [rewrite (proj2 (Z.ltb_lt _ _)) by lia; apply Z.eqb_refl|].
  set (z := if phase =? 4 then seal_of receipt_raw else ZERO32).
  assert (length z = 32%nat) as Hz by (unfold z; destruct (phase =? 4); [by apply length_seal_of|done]).
  eapply (feed _ _ _ tt).
  - intros rest. induction Hps as [|p ps Hlp Hps IH]; [done|]. rewrite fmap_cons. cbn [concat]. rewrite <- app_assoc.
    apply reads_checked; [|by apply bool_decide_eq_true_2|by apply IH].
    destruct (phase =? 1); [done|by rewrite length_seal_of].
  - cbv beta. rewrite <- (app_nil_r z) at 1. eapply feed; [apply reads_take; by rewrite Hz|]. cbv beta. unfold needs, ensure, liftr.
    by rewrite bool_decide_eq_true_2.
Qed.

Definition row_size (preps : list bytes) : nat := 153 + 32 * length preps.

Lemma length_journal_row plan_raw preps receipt_raw phase previous :
  (48 <= length plan_raw)%nat -> (48 <= length receipt_raw)%nat -> length previous = 32%nat ->
  Forall (fun p : bytes => (48 <= length p)%nat) preps -> length (journal_row plan_raw preps receipt_raw phase previous) = row_size preps.
Proof.
  intros Hp Hr Hv Hps. unfold journal_row, be8, byte1, row_size. rewrite length_framed, !length_app, length_seal_of, Hv, !length_be_split by done.
  assert (length (if phase =? 4 then seal_of receipt_raw else ZERO32) = 32%nat) as -> by (destruct (phase =? 4); [by apply length_seal_of|done]).
  assert (length (concat ((fun p => if phase =? 1 then ZERO32 else seal_of p) <$> preps)) = (32 * length preps)%nat) as ->; [|lia].
  induction Hps as [|p ps Hl Hps IH]; [done|]. rewrite fmap_cons. cbn [concat length]. rewrite length_app, IH.
  assert (length (if phase =? 1 then ZERO32 else seal_of p) = 32%nat) as -> by (destruct (phase =? 1); [done|by apply length_seal_of]). lia.
Qed.

Lemma journal_rows_read fuel plan_raw receipt_raw preps phases previous n :
  (48 <= length plan_raw)%nat -> (48 <= length receipt_raw)%nat -> length previous = 32%nat ->
  Forall (fun p : bytes => (48 <= length p)%nat) preps -> (length preps <= 3)%nat -> 0 <= phases -> phases + Z.of_nat n <= 4 -> (n < fuel)%nat ->
  journal_rows fuel (seal_of plan_raw) (seal_of receipt_raw) preps phases previous
    (concat (journal_from plan_raw preps receipt_raw (phases + 1) previous n)) = Ok (phases + Z.of_nat n).
Proof.
  intros Hp Hr Hv Hps H3. revert phases previous n Hv. induction fuel as [|fuel IH]; intros phases previous n Hv H0 H4 Hf; [lia|].
  destruct n as [|n]; [cbn; f_equal; lia|]. cbn [journal_from concat journal_rows].
  pose proof (length_journal_row plan_raw preps receipt_raw (phases + 1) previous Hp Hr Hv Hps) as Hl.
  set (row := journal_row plan_raw preps receipt_raw (phases + 1) previous) in *.
  set (rest := concat (journal_from plan_raw preps receipt_raw (phases + 1 + 1) (seal_of row) n)).
  destruct (row ++ rest) as [|b r] eqn:E; [apply (f_equal length) in E; rewrite length_app in E; unfold row_size in *; cbn in E; lia|].
  rewrite <- E. clear E b r. unfold row_size in Hl.
  assert (to_signed 4 (be_join (take 4 (drop 12 (row ++ rest)))) + 48 = Z.of_nat (length row)) as Hz.
  { unfold row, journal_row in *. rewrite framed_size; rewrite length_framed in *; lia. }
  rewrite Hz, length_app. unfold need, META. repeat (rewrite (proj2 (Z.leb_le _ _)) by lia). rewrite (proj2 (Z.ltb_lt _ _)) by lia.
  cbn [andb guard rbind]. rewrite Nat2Z.id, take_app_length, drop_app_length.
  unfold row at 1. unfold journal_row. rewrite (read_record_framed 21 _ _ tt); [| lia | | |by apply journal_fields_reads; [..|lia]].
  - cbn [rbind]. unfold rest. rewrite (IH (phases + 1)); [f_equal; lia| |lia..]. rewrite length_seal_of; [done|lia].
  - unfold row, journal_row in Hl. rewrite length_framed in Hl. lia.
  - unfold row, journal_row in Hl. rewrite length_framed in Hl. unfold META. lia.
Qed.

(** ** [validate] *)

Lemma plan_locals_length m size locals s x s2 : plan_locals m size locals s = (Ok x, s2) -> length x.2 = length locals.
Proof.
  revert s x s2. induction locals as [|[node local] locals IH]; intros s x s2 H; cbn [plan_locals] in H.
  - apply ret_ok in H as [<- _]. done.
  - apply bind_ok in H as (? & ? & _ & H). apply bind_ok in H as (? & ? & _ & H). apply bind_ok in H as (? & ? & _ & H).
    apply bind_ok in H as (more & ? & Hm & H). apply ret_ok in H as [<- _]. apply IH in Hm. cbn. by rewrite Hm.
Qed.

Lemma plan_inventories raw m g manifest_raw desc inventories :
  length (mf_nodes m) = 3%nat -> plan raw m g manifest_raw = Ok (desc, inventories) -> length inventories = 3%nat.
Proof.
  intros Hn H. unfold plan in H. apply rbind_ok in H as (body & _ & H). apply run_reader_ok in H as [s2 H]. unfold plan_fields in H.
  do 9 (apply bind_ok in H as (? & ? & _ & H)). apply bind_ok in H as (r & ? & _ & H).
  apply bind_ok in H as ([] & ? & Hl & H). apply ensure_ok in Hl as [Hl ->].
  apply bind_ok in H as (replicas & ? & Hr & H). apply liftr_ok in Hr as [Hr ->].
  apply bind_ok in H as (roots & ? & Hx & H). do 3 (apply bind_ok in H as (? & ? & _ & H)). apply ret_ok in H as [[= _ <-] _].
  apply plan_locals_length in Hx. rewrite Hx, length_zip_with. destruct r; try done. injection Hr as <-. unfold list_between in Hl. bool_tac. lia.
Qed.

Lemma repeat_reader_forall {A} (P : A -> Prop) (item : reader A) n s xs s2 :
  (forall s x s2, item s = (Ok x, s2) -> P x) -> repeat_reader n item s = (Ok xs, s2) -> Forall P xs.
Proof.
  intros Hi. revert s xs. induction n as [|n IH]; intros s xs H; cbn [repeat_reader] in H.
  - apply ret_ok in H as [<- _]. constructor.
  - apply bind_ok in H as (x & s1 & Hx & H). apply bind_ok in H as (ys & s3 & Hy & H). apply ret_ok in H as [<- ->].
    constructor; [by eapply Hi|by eapply IH].
Qed.

Lemma get_identity_ok maximum s x s2 : get_identity maximum s = (Ok x, s2) -> is_identity maximum x = true.
Proof.
  unfold get_identity. intros H. apply bind_ok in H as (y & s1 & _ & H). apply bind_ok in H as ([] & s3 & Hc & H).
  apply ensure_ok in Hc as [Hc _]. by apply ret_ok in H as [<- _].
Qed.

Lemma manifest_nodes_identity raw g m : manifest raw g = Ok m -> Forall (fun n => is_identity 64 n = true) (mf_nodes m).
Proof.
  unfold manifest, need. intros H. apply rbind_ok in H as (body & _ & H). apply rbind_ok in H as (r & Hr%read_all_ok & H).
  do 3 apply rbind_ok in H as ([] & _ & H). injection H as <-. unfold mf_nodes. cbn [mf_members]. apply Forall_fmap.
  unfold manifest_fields in Hr. do 13 (apply bind_ok in Hr as (? & ? & _ & Hr)). apply bind_ok in Hr as (members & ? & Hm & Hr).
  do 8 (apply bind_ok in Hr as (? & ? & _ & Hr)). apply ret_ok in Hr as [<- _]. cbn [mr_members].
  eapply repeat_reader_forall; [|exact Hm]. clear. intros s x s2 Hx. unfold get_endpoint in Hx. apply bind_ok in Hx as (node & ? & Hn & Hx).
  do 4 (apply bind_ok in Hx as (? & ? & _ & Hx)). apply ret_ok in Hx as [<- _]. by apply get_identity_ok in Hn.
Qed.

Lemma preps_long m plan_raw inventories :
  (48 <= length plan_raw)%nat -> (48 <= length (mf_raw m))%nat ->
  Forall (fun p : bytes => (48 <= length p)%nat) (preparation_bytes (mf_raw m) plan_raw <$> zip (mf_nodes m) inventories).
Proof. intros Hp Hm. apply Forall_fmap, Forall_forall. intros x _. unfold compose. rewrite length_preparation by done. lia. Qed.

(** Equal manifests name equal genesis digests. *)
Lemma manifest_same_genesis raw g m g' m' : manifest raw g = Ok m -> manifest raw g' = Ok m' -> gn_digest g = gn_digest g'.
Proof.
  intros (_ & _ & _ & body & r & Hb & Hr & <-)%manifest_ok (_ & _ & _ & body' & r' & Hb' & Hr' & <-)%manifest_ok.
  assert (body = body') as <-.
  { destruct (framed_parts GSER 1 1 body) as (_ & _ & <- & _); [done|]. destruct (framed_parts GSER 1 1 body') as (_ & _ & <- & _); [done|].
    unfold framed in *. congruence. }
  congruence.
Qed.

Lemma genesis_frame raw g : genesis raw = Ok g -> exists body, raw = framed 16 body.
Proof. unfold genesis. intros H. apply rbind_ok in H as (body & Hb & _). apply record_body_ok in Hb as (-> & _). by exists body. Qed.

Lemma plan_frame raw m g mr x : plan raw m g mr = Ok x -> exists body, raw = framed 17 body.
Proof. intros (t & rest & -> & _)%plan_ok. by eexists. Qed.

(** What the files of a validated admission are *)
Inductive admitted (files : files_of) (r : admission_report) : Prop :=
  | Admitted_of (g : genesis_of) (m : manifest_of) (plan_raw : bytes) (desc : json) (inventories : list (list member)) (src : source_of) :
      file_at files "genesis.gsr" = Ok (gn_raw g) -> genesis (gn_raw g) = Ok g ->
      file_at files "manifest.gsr" = Ok (mf_raw m) -> manifest (mf_raw m) g = Ok m ->
      file_at files "plan.gsr" = Ok plan_raw -> plan plan_raw m g (mf_raw m) = Ok (desc, inventories) ->
      let preps := preparation_bytes (mf_raw m) plan_raw <$> zip (mf_nodes m) inventories in
      let receipt_raw := receipt_bytes plan_raw preps in
      file_at files "receipt.gsr" = Ok receipt_raw ->
      file_at files "operation.gsr" = Ok (concat (journal_from plan_raw preps receipt_raw 1 ZERO32 4)) ->
      Forall (fun x : string * bytes => holds files x.1 (voter_records m g receipt_raw x.1 x.2)) (zip (mf_nodes m) preps) ->
      run_reader source (gn_source g) = Ok src ->
      Forall (fun v => exists raw, file_at files (node_file "source" (iv_name v)) = Ok raw /\ sha256 raw = iv_digest v) (src_entries src) ->
      rp_base r = gn_base g -> rp_history r = uuid_text (gn_history g) ->
      rp_manifest r = hex (mf_digest m) -> rp_genesis r = hex (gn_digest g) ->
      admitted files r.

Lemma genesis_raw raw g : genesis raw = Ok g -> gn_raw g = raw.
Proof.
  unfold genesis, need. intros H. apply rbind_ok in H as (body & _ & H). apply rbind_ok in H as ([[[[[gr sr] src] h] b] app] & _ & H).
  apply rbind_ok in H as (? & _ & H). do 2 apply rbind_ok in H as ([] & _ & H). apply rbind_ok in H as (? & _ & H).
  apply rbind_ok in H as ([] & _ & H). by injection H as <-.
Qed.

Lemma check_nodes_ok files m g receipt_raw nodes inventories preps :
  check_all (check_node files m g receipt_raw) (zip (zip nodes inventories) preps) = Ok tt -> length nodes = length inventories ->
  Forall (fun x : string * bytes => holds files x.1 (voter_records m g receipt_raw x.1 x.2)) (zip nodes preps).
Proof.
  intros H Hl. revert inventories preps H Hl. induction nodes as [|n nodes IH]; intros [|i inventories] [|p preps] H Hl; try done; try by constructor.
  cbn [zip zip_with check_all] in H. apply rbind_ok in H as ([] & Hn & H). apply check_node_ok in Hn as [Hn _].
  constructor; [done|]. apply (IH inventories); [done|by injection Hl].
Qed.

Lemma validate_ok files r : validate files = Ok r -> admitted files r.
Proof.
  unfold validate. intros H. apply rbind_ok in H as (genesis_raw0 & Hg & H). apply rbind_ok in H as (g & Hgg & H).
  apply rbind_ok in H as (manifest_raw & Hm & H). apply rbind_ok in H as (m & Hmm & H). apply rbind_ok in H as (plan_raw & Hp & H).
  apply rbind_ok in H as ([desc inventories] & Hpp & H). apply rbind_ok in H as (receipt_raw & Hr & H).
  apply rbind_ok in H as (preps & Hrr & H). apply rbind_ok in H as ([] & Hn & H). apply rbind_ok in H as (operation & Ho & H).
  apply rbind_ok in H as ([] & Hj & H). apply rbind_ok in H as (src & Hs & H). apply rbind_ok in H as (max_source & _ & H).
  apply rbind_ok in H as ([] & _ & H). apply rbind_ok in H as ([] & Hsm & H). do 2 apply rbind_ok in H as ([] & _ & H).
  apply rbind_ok in H as (sequences & _ & H). do 2 apply rbind_ok in H as ([] & _ & H). injection H as <-.
  pose proof (genesis_raw _ _ Hgg) as <-. destruct (manifest_ok _ _ _ Hmm) as (<- & Hn3 & _). pose proof (plan_inventories _ _ _ _ _ _ Hn3 Hpp) as Hi3.
  apply receipt_ok in Hrr as (-> & -> & _). apply journal_ok in Hj as ->. apply check_nodes_ok in Hn; [|congruence].
  apply check_members_ok in Hsm. by eapply Admitted_of.
Qed.

(** ** Properties of the 1.1 admission formats

    The records of an admission are determined by its plan, and a plan digest pins every byte of the
    initial authority. *)

#[local] Transparent be_split sha256.

(** ** A sample admission *)

Definition sample_admission : files_of := Eval vm_compute in make 41 2.
Definition sample_file (name : string) : bytes := default [] (assoc_get name sample_admission).
Definition sample_genesis : genesis_of :=
  Eval vm_compute in default (GenesisOf [] [] [] 0 [] 0 [] [] []) (ok_value (genesis (sample_file "genesis.gsr"))).
Definition sample_manifest : manifest_of :=
  Eval vm_compute in
    default (ManifestOf [] [] [] EmptyString EmptyString EmptyString 0 EmptyString 0 [])
      (ok_value (manifest (sample_file "manifest.gsr") sample_genesis)).
Definition sample_plan : bytes := Eval vm_compute in sample_file "plan.gsr".
Definition sample_inventories : list (list member) :=
  Eval vm_compute in members_of <$> (payloads (sample_file "genesis.gsr") (sample_file "manifest.gsr") <$> nodes).
Definition sample_report : result admission_report := Eval vm_compute in validate sample_admission.

#[local] Opaque be_split sha256.

(** ** Nodes *)

(** C24: The bootstrap records of an admission are determined by its plan.  Under an accepted manifest,
    a receipt is accepted for a plan and its three inventories exactly when it is the frame the fixture
    writer makes of them, within the bound of metadata, and the preparations it is read to are the
    writer's; the bootstrap journal is accepted exactly when it is the four rows of the phases
    preparing, prepared, committing and committed, in this order, each chained to the one before, with
    the preparations from the second on and the receipt in the last. *)
Theorem admission_records_exact manifest_raw g m plan_raw inventories :
  manifest manifest_raw g = Ok m -> length inventories = 3%nat -> 48 <= Z.of_nat (length plan_raw) <= META ->
  let preps := preparation_bytes (mf_raw m) plan_raw <$> zip (mf_nodes m) inventories in
  (forall raw ps, receipt raw plan_raw m inventories = Ok ps <->
     raw = receipt_bytes plan_raw preps /\ ps = preps /\ Z.of_nat (length raw) <= META) /\
  (forall raw receipt_raw nodes, 48 <= Z.of_nat (length receipt_raw) ->
     journal raw plan_raw receipt_raw preps nodes = Ok tt <-> raw = concat (journal_from plan_raw preps receipt_raw 1 ZERO32 4)).
Proof.
  intros Hm Hi3 Hp preps. pose proof (manifest_nodes_identity _ _ _ Hm) as Hid. destruct (manifest_ok _ _ _ Hm) as (_ & Hn3 & _ & body & r & Hb & _).
  assert (48 <= length (mf_raw m))%nat as Hmr by (destruct (manifest_ok _ _ _ Hm) as (-> & _); rewrite Hb, length_framed; lia).
  split.
  - intros raw ps. split.
    + intros (-> & -> & Hl)%receipt_ok. by split_and!.
    + intros (-> & -> & Hl). apply receipt_reads; try done; lia.
  - intros raw receipt_raw nodes Hr. split; [by apply journal_ok|]. intros ->. unfold journal.
    assert (length preps = 3%nat) as H3 by (unfold preps; rewrite length_fmap, length_zip_with; lia).
    rewrite (journal_rows_read _ _ _ preps 0 ZERO32 4); [cbn [rbind]; change (0 + Z.of_nat 4 =? 4) with true; by rewrite orb_true_r|lia|lia|done|apply preps_long; lia|lia..| |].
    + cbn. lia.
    + cbn [journal_from concat]. rewrite !length_app, length_journal_row; [unfold row_size; lia|lia|lia|done|apply preps_long; lia].
Qed.

Lemma admission_records_exact_witness :
  receipt (sample_file "receipt.gsr") sample_plan sample_manifest sample_inventories
    = Ok (preparation_bytes (mf_raw sample_manifest) sample_plan <$> zip (mf_nodes sample_manifest) sample_inventories).
Proof.
  refine (proj2 (proj1 (admission_records_exact (sample_file "manifest.gsr") sample_genesis sample_manifest sample_plan sample_inventories
                          _ eq_refl _) _ _) _).
  - vm_compute. reflexivity.
  - split; vm_compute; discriminate.
  - split_and!; [vm_compute; reflexivity|reflexivity|vm_compute; discriminate].
Defined.

(** ** The plan digest *)

Definition COORDINATOR_FILES : list string := ["genesis.gsr"; "manifest.gsr"; "plan.gsr"; "receipt.gsr"; "operation.gsr"]%string.
Definition VOTER_FILES : list string :=
  ["node.gsr"; "promises.gsr"; "entries.gsr"; "proofs.gsr"; "storage-ready.gsr"; "replica.lock"; "genesis.gsr"; "manifest.gsr";
   "bootstrap-prepared.gsr"; "bootstrap-seal.gsr"]%string.

(** Both sets of files have the file, with the same bytes. *)
Definition same_file (files files' : files_of) (name : string) : Prop :=
  exists raw, file_at files name = Ok raw /\ file_at files' name = Ok raw.

(** Two validated admissions agree: the coordinator's files, every file of the three voters, the members of the
    source up to a collision, and what the reports say of the group. *)
Record same_authority (files files' : files_of) (r r' : admission_report) : Prop := {
  sa_coordinator : Forall (same_file files files') COORDINATOR_FILES;
  sa_voters : exists voters, length voters = 3%nat /\ NoDup voters /\
    Forall (fun node => Forall (fun name => same_file files files' (node_file node name)) VOTER_FILES) voters;
  sa_source : exists members, Forall (fun name => exists raw raw',
      file_at files (node_file "source" name) = Ok raw /\ file_at files' (node_file "source" name) = Ok raw' /\
      (raw = raw' \/ collides raw raw')) members /\ (rp_base r <> 0 -> members = SOURCE_MEMBERS);
  sa_report : rp_base r = rp_base r' /\ rp_history r = rp_history r' /\ rp_manifest r = rp_manifest r' /\ rp_genesis r = rp_genesis r'
}.

Lemma source_members raw src : run_reader source raw = Ok src -> src_sequence src <> 0 -> iv_name <$> src_entries src = SOURCE_MEMBERS.
Proof.
  intros H Hs. apply run_reader_ok in H as [s2 H]. unfold source in H. do 8 (apply bind_ok in H as (? & ? & _ & H)).
  apply bind_ok in H as ([] & ? & _ & H). apply bind_ok in H as ([] & ? & Hc & H). apply ret_ok in H as [<- _].
  cbn [src_sequence src_entries] in *. destruct (_ =? 0).
  - apply ensure_ok in Hc as [Hc _]. bool_tac. done.
  - do 3 (apply bind_ok in Hc as ([] & ? & _ & Hc)). apply ensure_ok in Hc as [Hc _]. by bool_tac.
Qed.

Lemma genesis_base raw g src :
  genesis raw = Ok g -> run_reader source (gn_source g) = Ok src -> gn_base g = src_sequence src.
Proof.
  unfold genesis, need. intros H Hs. apply rbind_ok in H as (body & _ & H). apply rbind_ok in H as ([[[[[gr sr] src'] h] b] app] & Hx & H).
  apply rbind_ok in H as (? & _ & H). apply rbind_ok in H as ([] & _ & H). apply rbind_ok in H as ([] & Hb%guard_ok & H).
  apply rbind_ok in H as (? & _ & H). apply rbind_ok in H as ([] & _ & H). injection H as <-. cbn [gn_source gn_base] in *. bool_tac.
  apply read_all_ok in Hx. do 4 (apply bind_ok in Hx as (? & ? & _ & Hx)). apply bind_ok in Hx as (sr' & ? & _ & Hx).
  apply bind_ok in Hx as (src'' & ? & Hsrc & Hx). apply liftr_ok in Hsrc as [Hsrc _].
  do 3 (apply bind_ok in Hx as (? & ? & _ & Hx)). apply ret_ok in Hx as [Hx _]. injection Hx as -> -> -> -> -> ->.
  apply read_all_ok in Hsrc. unfold run_reader in Hs. rewrite Hsrc in Hs. cbn in Hs. congruence.
Qed.

(** *** What equal plans share *)

Lemma plan_same raw m g mr x m' g' mr' x' :
  plan raw m g mr = Ok x -> plan raw m' g' mr' = Ok x' -> mr = mr' /\ gn_source g = gn_source g'.
Proof.
  intros (t & rest & -> & Ht & Hm & Hs)%plan_ok (t' & rest' & H & Ht' & Hm' & Hs')%plan_ok.
  apply (f_equal (drop 48)) in H.
  destruct (framed_parts GSER 1 17 (be_split 2 1 ++ put_blob t ++ put_blob mr ++ put_blob (gn_source g) ++ rest)) as (_ & _ & Hd & _); [done|].
  destruct (framed_parts GSER 1 17 (be_split 2 1 ++ put_blob t' ++ put_blob mr' ++ put_blob (gn_source g') ++ rest')) as (_ & _ & Hd' & _); [done|].
  unfold framed in H. rewrite Hd, Hd' in H. apply app_inv_head in H. apply blob_field in H as [_ H]; [|done..].
  apply blob_field in H as [-> H]; [|done..]. by apply blob_field in H as [-> _].
Qed.

Lemma same_records files files' node records :
  holds files node records -> holds files' node records -> Forall (fun name => same_file files files' (node_file node name)) records.*1.
Proof.
  intros H H'. unfold holds in *. rewrite Forall_forall in H, H'. apply Forall_fmap, Forall_forall. intros [name raw] Hin.
  exists raw. by split; [apply (H _ Hin)|apply (H' _ Hin)].
Qed.

(** Two admissions with the same genesis and plan agree. *)
Lemma same_plan_authority files files' r r' :
  admitted files r -> admitted files' r' -> same_file files files' "plan.gsr" -> same_file files files' "genesis.gsr" ->
  same_authority files files' r r'.
Proof.
  intros [g m p desc invs src H1 H2 H3 H4 H5 H6 preps rc H7 H8 H9 H10 H11 H12 H13 H14 H15]
    [g' m' p' desc' invs' src' H1' H2' H3' H4' H5' H6' preps' rc' H7' H8' H9' H10' H11' H12' H13' H14' H15'] (x & Hx & Hx') (y & Hy & Hy').
  assert (p' = p) as -> by congruence. assert (gn_raw g' = gn_raw g) as Hg by congruence.
  assert (g' = g) as -> by congruence. destruct (plan_same _ _ _ _ _ _ _ _ _ H6 H6') as [Hmr _].
  assert (m' = m) as -> by congruence. assert (invs' = invs) as -> by congruence. assert (src' = src) as -> by congruence.
  destruct (manifest_ok _ _ _ H4) as (_ & Hn3 & Hnd & _). split.
  - unfold COORDINATOR_FILES. repeat (apply Forall_cons; split; [eexists; split; eassumption|]). by apply Forall_nil.
  - exists (mf_nodes m). split_and!; [done..|]. apply Forall_forall. intros node Hin.
    assert (length preps = length (mf_nodes m)) as Hlen.
    { unfold preps. rewrite length_fmap, length_zip_with, (plan_inventories _ _ _ _ _ _ Hn3 H6). lia. }
    apply list_elem_of_lookup in Hin as [i Hi]. destruct (lookup_lt_is_Some_2 preps i) as [prep Hp].
    { rewrite Hlen. by eapply lookup_lt_Some. }
    assert ((node, prep) ∈ zip (mf_nodes m) preps) as Hz by (apply list_elem_of_lookup; exists i; by rewrite lookup_zip_with, Hi; cbn; rewrite Hp).
    rewrite Forall_forall in H9, H9'. pose proof (H9 _ Hz) as Ha. pose proof (H9' _ Hz) as Hb. by apply (same_records _ _ _ _ Ha) in Hb.
  - exists (iv_name <$> src_entries src). split.
    + apply Forall_fmap, Forall_forall. intros v Hv. rewrite Forall_forall in H11, H11'. destruct (H11 _ Hv) as (raw & Hr & Hd).
      destruct (H11' _ Hv) as (raw' & Hr' & Hd'). exists raw, raw'. split_and!; [done..|]. apply same_digest. congruence.
    + intros Hb. eapply source_members; [exact H10|]. erewrite <- genesis_base by done. congruence.
  - split_and!; congruence.
Qed.

(** C25: The plan digest pins the initial authority.  If two sets of files are both validated and their
    plans carry the same digest, then, unless the plans or the genesis frames give a SHA-256 collision,
    the coordinator's files are the same bytes in both, genesis, receipt and journal included; both name
    the same three voters, and every file of each voter's root is the same bytes, seal and preparation
    included; the members of the source are the same up to a collision of their own; and the reports
    agree on base sequence, application history and digests. *)
Theorem plan_binds_admission files files' r r' p p' :
  validate files = Ok r -> validate files' = Ok r' ->
  file_at files "plan.gsr" = Ok p -> file_at files' "plan.gsr" = Ok p' -> seal_of p = seal_of p' ->
  same_authority files files' r r' \/ collides (unsealed_frame p) (unsealed_frame p') \/
  exists g g', file_at files "genesis.gsr" = Ok g /\ file_at files' "genesis.gsr" = Ok g' /\ collides (unsealed_frame g) (unsealed_frame g').
Proof.
  intros Hv%validate_ok Hv'%validate_ok Hp Hp' Hs. pose proof Hv as Hw. pose proof Hv' as Hw'.
  destruct Hw as [g m q desc invs src H1 H2 H3 H4 H5 H6 preps rc _ _ _ _ _ _ _ _ _].
  destruct Hw' as [g' m' q' desc' invs' src' H1' H2' H3' H4' H5' H6' preps' rc' _ _ _ _ _ _ _ _ _].
  assert (q = p) as -> by congruence. assert (q' = p') as -> by congruence.
  destruct (plan_frame _ _ _ _ _ H6) as [b ->], (plan_frame _ _ _ _ _ H6') as [b' ->].
  destruct (seal_binds GSER GSER 1 1 17 17 b b' eq_refl eq_refl Hs) as [He|Hc]; [|by right; left].
  assert (framed 17 b = framed 17 b') as He' by exact He. rewrite <- He' in *.
  destruct (plan_same _ _ _ _ _ _ _ _ _ H6 H6') as [Hmr _]. rewrite <- Hmr in H4'. pose proof (manifest_same_genesis _ _ _ _ _ H4 H4') as Hd.
  destruct (genesis_frame _ _ H2) as [gb Hgb], (genesis_frame _ _ H2') as [gb' Hgb']. unfold gn_digest in Hd. rewrite Hgb, Hgb' in Hd.
  destruct (seal_binds GSER GSER 1 1 16 16 gb gb' eq_refl eq_refl Hd) as [Hg|Hc].
  - left. apply same_plan_authority; [done..|by eexists|]. exists (gn_raw g). split; [done|]. rewrite H1'. f_equal. rewrite Hgb, Hgb'. by symmetry.
  - right. right. exists (gn_raw g), (gn_raw g'). split_and!; [done..|]. by rewrite Hgb, Hgb'.
Qed.

Lemma plan_binds_admission_witness :
  exists r, validate sample_admission = Ok r /\ rp_base r = 41 /\
    (same_authority sample_admission sample_admission r r \/ collides (unsealed_frame sample_plan) (unsealed_frame sample_plan) \/
     exists g g', file_at sample_admission "genesis.gsr" = Ok g /\ file_at sample_admission "genesis.gsr" = Ok g' /\
                  collides (unsealed_frame g) (unsealed_frame g')).
Proof.
  assert (validate sample_admission = sample_report) as Hv by (vm_compute; reflexivity). unfold sample_report in Hv.
  eexists. split; [exact Hv|]. split; [reflexivity|].
  exact (plan_binds_admission _ _ _ _ sample_plan sample_plan Hv Hv eq_refl eq_refl eq_refl).
Defined.
