(* ===== verification/WireFixture.v ===== *)
(** * The wire envelope and its fault traces ([scripts/v50/wire_fixture.py], [scripts/v50/hardening_trace.py])

    An envelope is a JSON object with an exact set of fields; a frame is its canonical text behind a
    header and a SHA-256 seal.  [validate_fixture] takes the parsed document.  A JSON text with an
    unpaired surrogate, which Python can hold in a [str], is outside the model. *)

From Stdlib Require Import Ascii.
From stdpp Require Import base gmap sets strings list sorting.
From S2P Require Import Prelude Bytes Sha256 Wire Files Json ReplicaFrames TextCodes Schema AdmissionFields.
Import StateNotations ResultNotations.
Local Open Scope py_scope.
Local Open Scope Z_scope.

Definition HEADER_BYTES : Z := 16 + 32.
Definition DEFAULT_MAX_FRAME_BYTES : Z := 8 * 1024 * 1024.
Definition HARD_MAX_FRAME_BYTES : Z := 64 * 1024 * 1024.
Definition MESSAGE_TYPES : list string :=
  ["HANDSHAKE"; "ACTIVATION_PROMISE"; "APPEND"; "DURABLE_ACK"; "COMMIT_PROOF";
   "COMMIT_PROOF_ACK"; "COMMIT_ADVANCE"; "CONFLICT"; "AUTHORITY_STATUS_PROBE";
   "SNAPSHOT_OFFER"; "SNAPSHOT_CHUNK"; "SNAPSHOT_INSTALL"; "ACTIVATE_EPOCH";
   "AUTHORITY_STATUS"; "SNAPSHOT_ABORT"; "REJECT"]%string.
Definition FIELDS : list string :=
  ["protocol"; "groupId"; "configurationId"; "sender"; "recipient"; "epoch";
   "incarnationId"; "traceId"; "eventSequence"; "type"; "payload"]%string.

(** ** Envelopes *)

(** [_bounded_json] *)
Fixpoint bounded_json (value : json) (depth : Z) : result unit :=
  do! need (depth <=? 16) "wire nesting exceeds bound" in
  match value with
  | JNull | JBool _ | JString _ => Ok tt
  | JInt z => need ((- 2 ^ 63 <=? z) && (z <? 2 ^ 63)) "unsupported wire JSON type/key/number"
  | JArray l => check_all (fun item => bounded_json item (depth + 1)) l
  | JObject m =>
      do! need (forallb (fun kv : string * json => json_key kv.1) m) "unsupported wire JSON type/key/number" in
      check_all (fun kv : string * json => bounded_json kv.2 (depth + 1)) m
  end.

(** [set(value) == fields] of an object *)
Definition exact_fields (value : json) (fields : list string) : bool :=
  match value with
  | JObject m => bool_decide (list_to_set (C := gset string) m.*1 = list_to_set fields)
  | _ => false
  end.

(** [str(uuid.UUID(text)) == text] of a field *)
Definition uuid_field (name : string) (envelope : json) : result unit :=
  match get name envelope with
  | Ok (JString s) => let! _ := canonical_uuid s in Ok tt
  | Ok _ => Err (ValueError "wire UUID must be canonical")
  | Err e => Err e
  end.

Definition member_char (c : ascii) : bool :=
  is_lower c || is_digit c || bool_decide (c ∈ ["."; "_"; "-"]%char).
(** [re.fullmatch(r"[a-z0-9][a-z0-9._-]{0,127}", text)] *)
Definition member_identity (s : string) : bool :=
  match s with
  | String c s' => (is_lower c || is_digit c) && all_of member_char s' && (String.length s' <=? 127)%nat
  | EmptyString => false
  end.
Definition identity_field (name : string) (envelope : json) : result unit :=
  match get name envelope with
  | Ok (JString s) => need (member_identity s) "invalid wire member/configuration identity"
  | Ok _ => Err (ValueError "invalid wire member/configuration identity")
  | Err e => Err e
  end.
Definition counter_field (name : string) (envelope : json) : result unit :=
  match get name envelope with
  | Ok (JInt z) => need ((0 <=? z) && (z <? 2 ^ 63)) "wire counter outside signed 64-bit range"
  | Ok _ => Err (ValueError "wire counter outside signed 64-bit range")
  | Err e => Err e
  end.

(** [envelope[name] == text] *)
Definition field_is (name text : string) (envelope : json) : bool :=
  match get name envelope with Ok (JString s) => bool_decide (s = text) | _ => false end.

Definition known_type (envelope : json) : bool := existsb (fun t => field_is "type" t envelope) MESSAGE_TYPES.

(** [_validate] *)
Definition validate (envelope : json) : result unit :=
  do! need (exact_fields envelope FIELDS) "wire envelope fields are not exact" in
  do! need (field_is "protocol" "gse-replication/1.0" envelope && known_type envelope) "unknown protocol or message type" in
  do! check_all (fun name => uuid_field name envelope) ["groupId"; "incarnationId"; "traceId"]%string in
  do! check_all (fun name => identity_field name envelope) ["configurationId"; "sender"; "recipient"]%string in
  do! check_all (fun name => counter_field name envelope) ["epoch"; "eventSequence"]%string in
  let! epoch := get_int "epoch" envelope in
  do! need (negb ((epoch =? 0) && negb (field_is "type" "HANDSHAKE" envelope || field_is "type" "REJECT" envelope)))
    "zero epoch is only valid before activation" in
  do! match get "payload" envelope with
      | Ok (JObject _) => Ok tt
      | Ok _ => Err (ValueError "wire payload must be an object")
      | Err e => Err e
      end in
  bounded_json envelope 0.

(** [MESSAGE_TYPES.index(kind)] *)
Fixpoint index_from (i : Z) (kind : string) (types : list string) : result Z :=
  match types with
  | [] => Err (ValueError "tuple.index(x): x not in tuple")
  | t :: types => if bool_decide (t = kind) then Ok i else index_from (i + 1) kind types
  end.

(** [HEADER.pack(b"GSRP", 1, 0, message_type, 0, length)] *)
Definition header (message_type size : Z) : bytes := frame_head GSRP 0 message_type size.

Definition encode (envelope : json) : result bytes :=
  do! validate envelope in
  let body := canonical_json envelope in
  do! need (HEADER_BYTES + Z.of_nat (length body) <=? DEFAULT_MAX_FRAME_BYTES) "frame capacity exceeded" in
  let! kind := get_text "type" envelope in
  let! index := index_from 0 kind MESSAGE_TYPES in
  let prefix := header (index + 1) (Z.of_nat (length body)) in
  Ok (prefix ++ sha256 (prefix ++ body) ++ body).

(** [HEADER.unpack(prefix)]: the length is unsigned *)
Definition read_header : reader prefix :=
  let* magic := take_bytes StructError 4 in
  let* major := read_uint StructError 2 in
  let* minor := read_uint StructError 2 in
  let* kind := read_uint StructError 2 in
  let* flags := read_uint StructError 2 in
  let* length := read_uint StructError 4 in
  ret (Prefix magic major minor kind flags length).

(** [json.loads(body)]; the exceptions that are not of class [ValueError] are turned into one. *)
Definition load_envelope (body : bytes) : result json :=
  let! text := decode_utf8 (ValueError "invalid wire envelope") body in
  of_option (loads text) (ValueError "JSON").
Definition as_value_error {A} (m : result A) : result A :=
  match m with
  | Err (ValueError msg) => Err (ValueError msg)
  | Err _ => Err (ValueError "invalid wire envelope")
  | Ok x => Ok x
  end.

Definition inspect (frame : bytes) (maximum : Z) : result json :=
  do! need ((HEADER_BYTES <=? maximum) && (maximum <=? HARD_MAX_FRAME_BYTES)) "invalid frame limit" in
  do! need (HEADER_BYTES <=? Z.of_nat (length frame)) "incomplete frame header" in
  let prefix := take 16 frame in
  let checksum := seal_of frame in
  let body := drop 48 frame in
  let! p := run_reader read_header prefix in
  do! need (bool_decide (px_magic p = GSRP) && (px_major p =? 1) && (px_minor p =? 0) && (px_flags p =? 0))
    "unsupported frame family/version/flags" in
  do! need ((1 <=? px_kind p) && (px_kind p <=? Z.of_nat (length MESSAGE_TYPES))) "unknown message type" in
  do! need (px_length p + HEADER_BYTES <=? maximum) "frame capacity exceeded" in
  do! need (Z.of_nat (length body) =? px_length p) "incomplete frame or trailing bytes" in
  do! need (bool_decide (sha256 (prefix ++ body) = checksum)) "frame integrity failure" in
  let! envelope := as_value_error (let! e := load_envelope body in do! validate e in Ok e) in
  do! need (field_is "type" (nth (Z.to_nat (px_kind p - 1)) MESSAGE_TYPES EmptyString) envelope) "header/envelope type mismatch" in
  do! need (bool_decide (body = canonical_json envelope)) "noncanonical wire body" in
  Ok envelope.

(** ** [validate_fixture], of the parsed document *)

Definition message_registry : json :=
  JObject (zip MESSAGE_TYPES (JInt <$> (Z.of_nat <$> seq 1 (length MESSAGE_TYPES)))).

Definition fixture_case (case : json) : result unit :=
  let! text := get_text "hex" case in
  let! frame := of_option (from_hex text) (ValueError "non-hexadecimal number found in fromhex() arg") in
  let! expected := get "envelope" case in
  let! encoded := encode expected in
  let! inspected := (if bool_decide (encoded = frame) then inspect frame DEFAULT_MAX_FRAME_BYTES else Ok expected) in
  need (bool_decide (encoded = frame) && json_eqb inspected expected) "wire golden bytes changed".

Definition validate_fixture (document : json) : result unit :=
  let! version := get "schemaVersion" document in
  do! need (json_eqb version (JString "gse-v50-wire-fixtures-v1")) "unsupported wire fixture" in
  let! types := get "messageTypes" document in
  do! need (json_eqb types message_registry) "wire message registry changed" in
  let! cases := get_list "cases" document in
  check_all fixture_case cases.

(** ** Fault traces ([hardening_trace.validate])

    An event of the transcript, its fields of the types the transcript's writer gives them. *)
Record event := Event {
  ev_node : string; ev_pid : Z; ev_sequence : Z; ev_request : json; ev_response : json;
  ev_digest : string; ev_barrier : string; ev_action : string; ev_attempt : Z
}.

Definition owner : Type := string * Z.
(** (node, pid, barrier, traceId) *)
Definition attempt_key : Type := string * Z * string * string.

Record trace_state := TraceState {
  ts_sequences : gmap owner Z; ts_attempts : gmap attempt_key Z; ts_digests : gmap attempt_key string;
  ts_actions : gmap (string * string) Z
}.
Definition trace_start : trace_state := TraceState ∅ ∅ ∅ ∅.

Definition BARRIERS : list string := ["BEFORE_REQUEST_WRITE"; "BEFORE_RESPONSE_WRITE"; "AFTER_RESPONSE_READ"]%string.
Definition CORRELATED : list string :=
  ["protocol"; "groupId"; "configurationId"; "epoch"; "incarnationId"; "traceId"; "eventSequence"]%string.

(** [bool(value)] *)
Definition truthy (value : json) : bool :=
  match value with
  | JNull => false
  | JBool b => b
  | JInt z => negb (z =? 0)
  | JString s => negb (bool_decide (s = EmptyString))
  | JArray l => negb (bool_decide (length l = 0%nat))
  | JObject m => negb (bool_decide (length m = 0%nat))
  end.

(** [a[x] == b[y]] *)
Definition same_field (x y : string) (a b : json) : result bool :=
  let! v := get x a in let! w := get y b in Ok (json_eqb v w).

Fixpoint same_fields (names : list string) (a b : json) : result bool :=
  match names with
  | [] => Ok true
  | name :: names => let! e := same_field name name a b in if e then same_fields names a b else Ok false
  end.

Definition check_response (request response : json) (barrier : string) : result unit :=
  if truthy response then
    do! encode response in
    let! correlated := same_fields CORRELATED response request in
    do! need correlated "uncorrelated response" in
    let! there := same_field "sender" "recipient" response request in
    let! back := (if there then same_field "recipient" "sender" response request else Ok false) in
    need back "wrong response voter"
  else need (bool_decide (barrier = "BEFORE_REQUEST_WRITE"%string)) "missing received/durable response".

Definition trace_step (retry_limit : Z) (s : trace_state) (e : event) : result trace_state :=
  do! need (bool_decide (ev_node e ∈ ["node-1"; "node-2"; "node-3"]%string) && (0 <? ev_pid e)) "invalid process identity" in
  let owner := (ev_node e, ev_pid e) in
  do! need (ev_sequence e =? default 0 (ts_sequences s !! owner) + 1) "network event sequence gap" in
  let! frame := encode (ev_request e) in
  let digest := hex (sha256 frame) in
  do! need (bool_decide (digest = ev_digest e)) "wire request checksum mismatch" in
  do! need (bool_decide (ev_barrier e ∈ BARRIERS)) "unknown network barrier" in
  do! need (bool_decide (ev_action e ∈ ["deliver"; "disconnect"; "hold"]%string)) "unknown fault action" in
  let side := if bool_decide (ev_barrier e = "BEFORE_RESPONSE_WRITE"%string) then "recipient"%string else "sender"%string in
  do! need (field_is side (ev_node e) (ev_request e)) "wire attempt has wrong process owner" in
  let! trace := get_text "traceId" (ev_request e) in
  let key := (ev_node e, ev_pid e, ev_barrier e, trace) in
  do! need (ev_attempt e =? default 0 (ts_attempts s !! key) + 1) "attempt count gap" in
  do! need (bool_decide (default digest (ts_digests s !! key) = digest)) "retry changed request bytes" in
  do! (if bool_decide (ev_barrier e = "BEFORE_REQUEST_WRITE"%string)
       then need (ev_attempt e <=? retry_limit + 1) "request exceeded retry bound" else Ok tt) in
  do! check_response (ev_request e) (ev_response e) (ev_barrier e) in
  let! kind := get_text "type" (ev_request e) in
  Ok (TraceState (<[owner := ev_sequence e]> (ts_sequences s)) (<[key := ev_attempt e]> (ts_attempts s))
        (<[key := digest]> (ts_digests s))
        (if bool_decide (ev_action e = "deliver"%string) then ts_actions s
         else <[(kind, ev_action e) := default 0 (ts_actions s !! (kind, ev_action e)) + 1]> (ts_actions s))).

Fixpoint trace_run (retry_limit : Z) (s : trace_state) (events : list event) : result trace_state :=
  match events with
  | [] => Ok s
  | e :: events => let! s' := trace_step retry_limit s e in trace_run retry_limit s' events
  end.

(** [validate(events, retry_limit, required_actions)]: the numbers of processes and events, and how
    often each fault was injected *)
Definition validate_trace (retry_limit : Z) (required : list (string * string)) (events : list event)
  : result (nat * nat * gmap (string * string) Z) :=
  do! need ((0 <? Z.of_nat (length events)) && (Z.of_nat (length events) <=? 300000)) "missing or oversized network transcript" in
  let! s := trace_run retry_limit trace_start events in
  do! check_all (fun r => need (0 <? default 0 (ts_actions s !! r)) "required fault was never exercised") required in
  Ok (size (ts_sequences s), length events, ts_actions s).
