(* ===== verification/WireProperties.v ===== *)
(** * Properties of the wire envelope

    Frames and envelopes determine each other, and an accepted fault trace numbers its events and
    attempts without gaps and never changes the bytes of a retried request. *)

From Stdlib Require Import Ascii.
From stdpp Require Import base gmap sets strings list sorting.
From S2P Require Import Prelude Bytes Sha256 Wire Files Json JsonProofs ReplicaFrames TextCodes Schema AdmissionFields AdmissionProofs WireFixture.
Import StateNotations ResultNotations.
Local Open Scope py_scope.
Local Open Scope Z_scope.

#[local] Opaque be_split sha256.

(** ** Envelopes and the order of their members *)

Lemma check_all_intro {A} (f : A -> result unit) l : (forall x, x ∈ l -> f x = Ok tt) -> check_all f l = Ok tt.
Proof.
  induction l as [|x l IH]; intros H; [done|]. cbn [check_all]. rewrite H by set_solver. cbn [rbind].
  apply IH. intros y Hy. apply H. set_solver.
Qed.

Lemma need_ok b msg u : need b msg = Ok u <-> b = true.
Proof. apply guard_ok. Qed.

Lemma bounded_normal j d : bounded_json j d = Ok tt -> bounded_json (normal j) d = Ok tt.
Proof.
  revert d. induction j as [|b|z|s|l IH|m IH] using json_nested; intros d H; try exact H.
  - cbn [normal bounded_json] in *. apply rbind_ok in H as ([] & Hd & H). rewrite Hd. cbn [rbind].
    pose proof (check_all_ok _ _ _ H) as Ha. apply check_all_intro. intros x Hx.
    apply list_elem_of_In, in_map_iff in Hx as (y & <- & Hy). apply list_elem_of_In in Hy.
    rewrite Forall_forall in IH. by apply IH, Ha.
  - rewrite normal_members. cbn [bounded_json] in *. apply rbind_ok in H as ([] & Hd & H). rewrite Hd. cbn [rbind].
    apply rbind_ok in H as ([] & Hk & H). apply need_ok in Hk. pose proof (check_all_ok _ _ _ H) as Ha.
    assert (forall kv, kv ∈ map (fun kv : string * json => (kv.1, normal kv.2)) (merge_sort key_le m) ->
              exists v, (kv.1, v) ∈ m /\ kv.2 = normal v) as Hm.
    { intros kv Hx. apply list_elem_of_In, in_map_iff in Hx as ([k v] & <- & Hy). apply list_elem_of_In in Hy.
      rewrite merge_sort_Permutation in Hy. by exists v. }
    rewrite (proj2 (forallb_forall _ _)); cbn [rbind need guard].
    + apply check_all_intro. intros kv Hx. destruct (Hm _ Hx) as (v & Hv & ->). rewrite Forall_forall in IH.
      apply (IH _ Hv). by apply (Ha _ Hv).
    + intros kv Hx. apply list_elem_of_In in Hx. destruct (Hm _ Hx) as (v & Hv & _).
      apply (proj1 (forallb_forall _ _) Hk (kv.1, v)). by apply list_elem_of_In.
Qed.

Definition rmap {A B} (f : A -> B) (m : result A) : result B := let! x := m in Ok (f x).

Lemma keys_map (f : json -> json) m : (map (fun kv : string * json => (kv.1, f kv.2)) m).*1 = m.*1.
Proof. induction m as [|kv m IH]; [done|]. cbn. by f_equal. Qed.

Lemma get_normal m k :
  NoDup m.*1 -> get k (normal (JObject m)) = rmap normal (get k (JObject m)).
Proof.
  intros Hd. rewrite normal_members. unfold get. set (l := merge_sort key_le m).
  assert (l ≡ₚ m) as Hp by apply merge_sort_Permutation.
  destruct (assoc_get k m) as [v|] eqn:E.
  - apply assoc_get_elem in E. rewrite (assoc_get_NoDup _ k (normal v)); [done|by rewrite keys_map, Hp|].
    apply list_elem_of_In, in_map_iff. exists (k, v). split; [done|]. apply list_elem_of_In. by rewrite Hp.
  - rewrite assoc_get_None; [done|]. rewrite keys_map, Hp. intros Hk.
    apply list_elem_of_fmap in Hk as ([k' v] & -> & Hin). by rewrite (assoc_get_NoDup _ _ v) in E.
Qed.

Section normal_fields.
Context (m : list (string * json)) (Hd : NoDup m.*1).
Notation e := (JObject m).

Lemma uuid_normal k : uuid_field k (normal e) = uuid_field k e.
Proof. unfold uuid_field. rewrite get_normal by done. by destruct (get k e) as [[]|]. Qed.
Lemma identity_normal k : identity_field k (normal e) = identity_field k e.
Proof. unfold identity_field. rewrite get_normal by done. by destruct (get k e) as [[]|]. Qed.
Lemma counter_normal k : counter_field k (normal e) = counter_field k e.
Proof. unfold counter_field. rewrite get_normal by done. by destruct (get k e) as [[]|]. Qed.
Lemma field_is_normal k t : field_is k t (normal e) = field_is k t e.
Proof. unfold field_is. rewrite get_normal by done. by destruct (get k e) as [[]|]. Qed.
Lemma get_int_normal k : get_int k (normal e) = get_int k e.
Proof. unfold get_int. rewrite get_normal by done. by destruct (get k e) as [[]|]. Qed.
Lemma get_text_normal k : get_text k (normal e) = get_text k e.
Proof. unfold get_text. rewrite get_normal by done. by destruct (get k e) as [[]|]. Qed.
Lemma exact_normal f : exact_fields (normal e) f = exact_fields e f.
Proof.
  rewrite normal_members. unfold exact_fields. rewrite keys_map. apply bool_decide_ext.
  assert (list_to_set (C := gset string) (merge_sort key_le m).*1 = list_to_set m.*1) as ->; [|done].
  apply set_eq. intros x. rewrite !elem_of_list_to_set. by rewrite merge_sort_Permutation.
Qed.
Lemma known_normal : known_type (normal e) = known_type e.
Proof. unfold known_type. cbn [existsb MESSAGE_TYPES]. by rewrite !field_is_normal. Qed.
Lemma payload_normal :
  match get "payload" (normal e) with Ok (JObject _) => Ok tt | Ok _ => Err (ValueError "wire payload must be an object") | Err x => Err x end
  = match get "payload" e with Ok (JObject _) => Ok tt | Ok _ => Err (ValueError "wire payload must be an object") | Err x => Err x end.
Proof. rewrite get_normal by done. by destruct (get "payload" e) as [[]|]. Qed.
End normal_fields.

Lemma validate_object e u : validate e = Ok u -> exists m, e = JObject m.
Proof. unfold validate. intros H. apply rbind_ok in H as (? & H & _). apply need_ok in H. destruct e; try done. by eexists. Qed.

Lemma validate_normal e : well_formed e = true -> validate e = Ok tt -> validate (normal e) = Ok tt.
Proof.
  intros Hw H. destruct (validate_object _ _ H) as [m ->]. cbn [well_formed] in Hw. apply andb_true_iff in Hw as [Hd _].
  apply bool_decide_eq_true in Hd. revert H. unfold validate. rewrite exact_normal, known_normal, payload_normal by done.
  rewrite !field_is_normal, get_int_normal by done. cbn [check_all]. rewrite !uuid_normal, !identity_normal, !counter_normal by done.
  intros H. repeat (apply rbind_ok in H as (? & Hx & H); rewrite Hx; clear Hx; cbn [rbind]). by apply bounded_normal.
Qed.

Lemma canonical_normal e : well_formed e = true -> canonical_json (normal e) = canonical_json e.
Proof. intros H. unfold canonical_json. by rewrite dumps_normal. Qed.

Lemma encode_normal e frame : well_formed e = true -> encode e = Ok frame -> encode (normal e) = Ok frame.
Proof.
  intros Hw H. unfold encode in *. apply rbind_ok in H as ([] & Hv & H). rewrite (validate_normal _ Hw Hv). cbn [rbind].
  rewrite canonical_normal by done. destruct (validate_object _ _ Hv) as [m ->]. cbn [well_formed] in Hw.
  apply andb_true_iff in Hw as [Hd _]. apply bool_decide_eq_true in Hd. by rewrite get_text_normal.
Qed.

(** ** Frames *)

Lemma header_prefix raw p :
  length raw = 16%nat -> run_reader read_header raw = Ok p ->
  raw = px_magic p ++ be_split 2 (px_major p) ++ be_split 2 (px_minor p) ++ be_split 2 (px_kind p) ++ be_split 2 (px_flags p)
        ++ be_split 4 (px_length p) /\ length (px_magic p) = 4%nat.
Proof.
  intros Hl H. unfold read_header in H. apply run_reader_ok in H as [s2 H]. ok_inv H. fields_inv. subst. cbn.
  rewrite !length_app, !length_be_split in Hl. assert (length x = 4%nat) as Hx by lia.
  assert (s2 = []) as -> by (apply nil_length_inv; lia). by rewrite app_nil_r.
Qed.

Lemma header_read kind size :
  0 <= kind < 65536 -> 0 <= size < 2 ^ 32 -> run_reader read_header (header kind size) = Ok (Prefix GSRP 1 0 kind 0 size).
Proof.
  intros Hk Hz. unfold header, frame_head. rewrite <- (app_nil_r (be_split 4 _)). eapply run_exact. unfold read_header.
  assert (forall z, 0 <= z < 65536 -> unsigned_range 2 z) as Hu by (intros z H; exact H).
  assert (unsigned_range 4 size) as H4 by exact Hz.
  eapply feed; [by apply reads_take|]. do 4 (eapply feed; [apply reads_uint, Hu; lia|]).
  eapply feed; [by apply reads_uint|]. reflexivity.
Qed.

Lemma type_index kind : 1 <= kind <= 16 ->
  index_from 0 (nth (Z.to_nat (kind - 1)) MESSAGE_TYPES EmptyString) MESSAGE_TYPES = Ok (kind - 1).
Proof.
  intros H. assert (In kind (Z.of_nat <$> seq 1 16)) as Hin.
  { apply list_elem_of_In, list_elem_of_fmap. exists (Z.to_nat kind). split; [lia|]. apply elem_of_seq. lia. }
  vm_compute in Hin. repeat destruct Hin as [<- | Hin]; try done.
Qed.

Lemma index_type t i : index_from 0 t MESSAGE_TYPES = Ok i -> 0 <= i < 16 /\ nth (Z.to_nat i) MESSAGE_TYPES EmptyString = t.
Proof.
  unfold MESSAGE_TYPES. cbn [index_from]. repeat (case_bool_decide; [intros [= <-]; by subst|]). done.
Qed.

Lemma field_is_text k t e : field_is k t e = true <-> get_text k e = Ok t.
Proof.
  unfold field_is, get_text. destruct (get k e) as [[]|]; cbn [rbind as_text]; try (split; congruence).
  rewrite bool_decide_eq_true. split; congruence.
Qed.

Lemma as_value_error_ok {A} (m : result A) x : as_value_error m = Ok x -> m = Ok x.
Proof. by destruct m as [|[]]. Qed.

(** What an accepted frame is *)
Lemma inspect_ok frame maximum e :
  inspect frame maximum = Ok e ->
  validate e = Ok tt /\ Z.of_nat (length frame) <= maximum /\ load_envelope (drop 48 frame) = Ok e /\
  exists kind t, get_text "type" e = Ok t /\ index_from 0 t MESSAGE_TYPES = Ok kind /\
                 frame = framed_as GSRP 0 (kind + 1) (canonical_json e).
Proof.
  unfold inspect, need. intros H. ok_inv H. injection H as <-. bool_tac.
  match goal with A : as_value_error _ = Ok _ |- _ => apply as_value_error_ok in A; ok_inv A; simplify_eq end.
  match goal with A : field_is _ _ _ = true |- _ => apply field_is_text in A end.
  match goal with A : run_reader read_header _ = Ok _ |- _ => apply header_prefix in A as [Ht Hm]; [|rewrite length_take; unfold HEADER_BYTES in *; lia] end.
  pose proof (length_drop frame 48) as Hld. unfold HEADER_BYTES in *.
  repeat match goal with u : unit |- _ => destruct u end.
  split; [done|]. split; [lia|]. split; [done|].
  match goal with A : get_text "type" _ = Ok _, p : prefix |- _ => exists (px_kind p - 1); eexists; split; [exact A|]; split; [apply type_index; cbn in *; lia|] end.
  match goal with A : drop 48 _ = canonical_json _ |- _ => rewrite <- A end. unfold framed_as.
  match goal with |- context [frame_head ?a ?b ?c ?d] => assert (frame_head a b c d = take 16 frame) as -> end.
  { rewrite Ht. unfold frame_head. repeat f_equal; try congruence; lia. }
  match goal with A : sha256 _ = seal_of _ |- _ => rewrite A end. unfold seal_of.
  rewrite <- (take_drop 16 frame) at 1. f_equal. rewrite <- (take_drop 32 (drop 16 frame)) at 1. by rewrite drop_drop.
Qed.

Lemma encode_frame e frame :
  encode e = Ok frame <->
  validate e = Ok tt /\ 48 + Z.of_nat (length (canonical_json e)) <= DEFAULT_MAX_FRAME_BYTES /\
  exists kind t, get_text "type" e = Ok t /\ index_from 0 t MESSAGE_TYPES = Ok kind /\ frame = framed_as GSRP 0 (kind + 1) (canonical_json e).
Proof.
  unfold encode, need. split.
  - intros H. ok_inv H. injection H as <-. bool_tac. unfold HEADER_BYTES in *. repeat match goal with u : unit |- _ => destruct u end.
    split; [done|]. split; [lia|]. do 2 eexists. split; [done|]. split; [done|]. done.
  - intros (Hv & Hl & kind & t & Ht & Hi & ->). rewrite Hv. cbn [rbind]. unfold HEADER_BYTES. rewrite (proj2 (Z.leb_le _ _)) by lia.
    cbn [guard rbind]. rewrite Ht. cbn [rbind]. rewrite Hi. done.
Qed.

Lemma load_canonical e : well_formed e = true -> load_envelope (canonical_json e) = Ok (normal e).
Proof.
  intros H. unfold load_envelope, canonical_json, decode_utf8. rewrite seven_valid by apply dumps_seven. cbn [rbind].
  by rewrite str_utf8, loads_dumps_normal.
Qed.

(** C30: an envelope that [encode] accepts is read back by [inspect] under any frame limit its frame fits, the
    same envelope with the members of its objects in the order of their keys, which has the same frame; so
    two envelopes with one frame are equal up to that order. *)
Theorem wire_round_trip e frame maximum :
  well_formed e = true -> encode e = Ok frame -> Z.of_nat (length frame) <= maximum <= HARD_MAX_FRAME_BYTES ->
  inspect frame maximum = Ok (normal e) /\ encode (normal e) = Ok frame /\ Z.of_nat (length frame) <= DEFAULT_MAX_FRAME_BYTES.
Proof.
  intros Hw He Hm. pose proof (encode_normal _ _ Hw He) as Hn. apply encode_frame in He as (Hv & Hl & kind & t & Ht & Hi & ->).
  destruct (framed_parts GSRP 0 (kind + 1) (canonical_json e) eq_refl) as (H1 & H2 & H3 & H4 & H5).
  split; [|split; [exact Hn|lia]]. rewrite H5 in Hm. unfold inspect, HEADER_BYTES. rewrite H1, H2, H3, H5.
  destruct (index_type _ _ Hi) as [Hr Hnth]. unfold need. rewrite (proj2 (Z.leb_le (16 + 32) maximum)) by lia.
  rewrite (proj2 (Z.leb_le maximum _)) by lia. rewrite (proj2 (Z.leb_le (16 + 32) _)) by lia. cbn [andb guard rbind].
  assert (frame_head GSRP 0 (kind + 1) (Z.of_nat (length (canonical_json e))) = header (kind + 1) (Z.of_nat (length (canonical_json e)))) as -> by done.
  rewrite header_read by (unfold DEFAULT_MAX_FRAME_BYTES in *; lia). cbn [rbind px_magic px_major px_minor px_flags px_kind px_length].
  rewrite bool_decide_eq_true_2 by done. cbn [Z.eqb Pos.eqb andb guard rbind].
  rewrite (proj2 (Z.leb_le 1 _)), (proj2 (Z.leb_le (kind + 1) _)) by (cbn; lia). cbn [andb guard rbind].
  rewrite (proj2 (Z.leb_le _ maximum)) by lia. rewrite Z.eqb_refl, bool_decide_eq_true_2 by done. cbn [guard rbind].
  rewrite load_canonical by done. cbn [rbind]. rewrite validate_normal by done. cbn [rbind as_value_error].
  replace (kind + 1 - 1) with kind by lia. rewrite Hnth. rewrite (proj2 (field_is_text _ _ _)).
  - cbn [guard rbind]. by rewrite canonical_normal, bool_decide_eq_true_2.
  - destruct (validate_object _ _ Hv) as [m ->]. cbn [well_formed] in Hw. apply andb_true_iff in Hw as [Hd _].
    apply bool_decide_eq_true in Hd. by rewrite get_text_normal.
Qed.

(** C31: a frame that [inspect] accepts is the only frame of the envelope it returns: [encode] writes it back,
    unless it exceeds the default limit [encode] works under. *)
Theorem wire_frames_canonical frame maximum e :
  inspect frame maximum = Ok e ->
  Z.of_nat (length frame) <= maximum /\
  encode e = (if Z.of_nat (length frame) <=? DEFAULT_MAX_FRAME_BYTES then Ok frame else Err (ValueError "frame capacity exceeded")).
Proof.
  intros H. apply inspect_ok in H as (Hv & Hm & _ & kind & t & Ht & Hi & ->). split; [done|].
  destruct (framed_parts GSRP 0 (kind + 1) (canonical_json e) eq_refl) as (_ & _ & _ & _ & Hl). rewrite Hl.
  destruct (Z.leb_spec (Z.of_nat (48 + length (canonical_json e))) DEFAULT_MAX_FRAME_BYTES) as [Hd|Hd].
  - apply encode_frame. split; [done|]. split; [lia|]. by exists kind, t.
  - unfold encode. rewrite Hv. cbn [rbind]. unfold HEADER_BYTES. by rewrite (proj2 (Z.leb_gt _ _)) by lia.
Qed.

(** ** Fault traces *)

Definition owner_of (e : event) : owner := (ev_node e, ev_pid e).
Definition trace_of (e : event) : string := default EmptyString (ok_value (get_text "traceId" (ev_request e))).
Definition key_of (e : event) : attempt_key := (ev_node e, ev_pid e, ev_barrier e, trace_of e).
(** How many events of a transcript have a given process, or a given process, barrier and trace *)
Definition owned (o : owner) (l : list event) : Z := Z.of_nat (length (filter (fun e => owner_of e = o) l)).
Definition tried (k : attempt_key) (l : list event) : Z := Z.of_nat (length (filter (fun e => key_of e = k) l)).

Record trace_inv (l : list event) (s : trace_state) : Prop := {
  ti_sequences : forall o, default 0 (ts_sequences s !! o) = owned o l;
  ti_attempts : forall k, default 0 (ts_attempts s !! k) = tried k l;
  ti_digests : forall e, e ∈ l -> ts_digests s !! key_of e = Some (ev_digest e) }.

Lemma trace_step_ok limit s e s' :
  trace_step limit s e = Ok s' ->
  ev_sequence e = default 0 (ts_sequences s !! owner_of e) + 1 /\
  ev_attempt e = default 0 (ts_attempts s !! key_of e) + 1 /\
  (ev_barrier e = "BEFORE_REQUEST_WRITE"%string -> ev_attempt e <= limit + 1) /\
  (exists frame, encode (ev_request e) = Ok frame /\ ev_digest e = hex (sha256 frame)) /\
  default (ev_digest e) (ts_digests s !! key_of e) = ev_digest e /\
  ts_sequences s' = <[owner_of e := ev_sequence e]> (ts_sequences s) /\
  ts_attempts s' = <[key_of e := ev_attempt e]> (ts_attempts s) /\
  ts_digests s' = <[key_of e := ev_digest e]> (ts_digests s).
Proof.
  unfold trace_step, need. intros H. ok_inv H. injection H as <-. bool_tac. cbn [ts_sequences ts_attempts ts_digests].
  match goal with A : hex (sha256 _) = _ |- _ => rewrite A in * end.
  match goal with A : get_text "traceId" _ = Ok ?t |- _ => assert (trace_of e = t) as Ht by (unfold trace_of; by rewrite A) end.
  unfold key_of. rewrite Ht. split_and!; try done.
  - intros Hb. match goal with A : (if bool_decide _ then _ else _) = _ |- _ => rewrite bool_decide_eq_true_2 in A by done; apply guard_ok in A end. lia.
  - eexists. split; [eassumption|]. congruence.
Qed.

Lemma trace_inv_step limit l s e s' : trace_inv l s -> trace_step limit s e = Ok s' -> trace_inv (l ++ [e]) s'.
Proof.
  intros [Hs Ha Hd] H. apply trace_step_ok in H as (E1 & E2 & _ & _ & E3 & F1 & F2 & F3).
  constructor.
  - intros o. rewrite F1. unfold owned. rewrite filter_app, length_app. destruct (decide (owner_of e = o)) as [<-|Hn].
    + rewrite lookup_insert_eq, filter_cons_True by done. cbn [default length]. rewrite E1, Hs. unfold owned. cbn. lia.
    + rewrite lookup_insert_ne, filter_cons_False, Hs by done. unfold owned. cbn. lia.
  - intros k. rewrite F2. unfold tried. rewrite filter_app, length_app. destruct (decide (key_of e = k)) as [<-|Hn].
    + rewrite lookup_insert_eq, filter_cons_True by done. cbn [default length]. rewrite E2, Ha. unfold tried. cbn. lia.
    + rewrite lookup_insert_ne, filter_cons_False, Ha by done. unfold tried. cbn. lia.
  - intros e' He'. rewrite F3. apply elem_of_app in He' as [He'|He']; [|apply list_elem_of_singleton in He' as ->; by rewrite lookup_insert_eq].
    destruct (decide (key_of e = key_of e')) as [Hk|Hk]; [|by rewrite lookup_insert_ne, Hd].
    rewrite <- Hk, lookup_insert_eq. f_equal. rewrite Hk, (Hd _ He') in E3. done.
Qed.

Lemma trace_run_inv limit l : forall s0 l0 s, trace_inv l0 s0 -> trace_run limit s0 l = Ok s ->
  trace_inv (l0 ++ l) s /\
  forall i e, l !! i = Some e ->
    ev_sequence e = owned (owner_of e) (l0 ++ take i l) + 1 /\ ev_attempt e = tried (key_of e) (l0 ++ take i l) + 1 /\
    (ev_barrier e = "BEFORE_REQUEST_WRITE"%string -> ev_attempt e <= limit + 1) /\
    exists frame, encode (ev_request e) = Ok frame /\ ev_digest e = hex (sha256 frame).
Proof.
  induction l as [|e l IH]; intros s0 l0 s Hi H; cbn [trace_run] in H.
  - injection H as <-. rewrite app_nil_r. by split.
  - apply rbind_ok in H as (s1 & H1 & H). pose proof (trace_inv_step _ _ _ _ _ Hi H1) as Hi1.
    destruct (IH _ _ _ Hi1 H) as [Hfin Hev]. rewrite <- app_assoc in Hfin. split; [done|].
    intros [|i] e' He'; cbn in He'.
    + injection He' as <-. destruct (trace_step_ok _ _ _ _ H1) as (E1 & E2 & E3 & E4 & _). cbn [take]. rewrite app_nil_r.
      destruct Hi as [Hs Ha _]. rewrite <- Hs, <- Ha. done.
    + specialize (Hev _ _ He'). rewrite <- app_assoc in Hev. exact Hev.
Qed.

(** In an accepted fault trace every request is a valid envelope with the recorded digest; each process
    numbers its events, and the attempts of one request at one barrier, consecutively from 1; a request is
    written at most [retry_limit + 1] times; and all the attempts of one request at one barrier carry the same
    frame, unless two frames have the same SHA-256. *)
Theorem trace_retries limit required events r :
  validate_trace limit required events = Ok r ->
  (forall i e, events !! i = Some e ->
     ev_sequence e = owned (owner_of e) (take i events) + 1 /\ ev_attempt e = tried (key_of e) (take i events) + 1 /\
     (ev_barrier e = "BEFORE_REQUEST_WRITE"%string -> ev_attempt e <= limit + 1)) /\
  (forall e1 e2, e1 ∈ events -> e2 ∈ events -> key_of e1 = key_of e2 ->
     exists f1 f2, encode (ev_request e1) = Ok f1 /\ encode (ev_request e2) = Ok f2 /\ (f1 = f2 \/ collides f1 f2)).
Proof.
  unfold validate_trace. intros H. apply rbind_ok in H as (? & _ & H). apply rbind_ok in H as (s & H & _).
  destruct (trace_run_inv limit events trace_start [] s) as [[_ _ Hd] Hev]; [|done|].
  { constructor; [intros o|intros k|intros e He; by apply not_elem_of_nil in He]; cbn; by rewrite lookup_empty. }
  split.
  - intros i e He. destruct (Hev _ _ He) as (? & ? & ? & _). done.
  - intros e1 e2 H1 H2 Hk. pose proof (Hd _ H1) as D1. pose proof (Hd _ H2) as D2. rewrite Hk in D1.
    apply list_elem_of_lookup in H1 as [i1 H1], H2 as [i2 H2]. destruct (Hev _ _ H1) as (_ & _ & _ & f1 & F1 & G1).
    destruct (Hev _ _ H2) as (_ & _ & _ & f2 & F2 & G2). exists f1, f2. split_and!; try done. apply same_digest.
    apply hex_inj. congruence.
Qed.

(** ** Sample *)

Definition sample_uuid (n : string) : json := JString ("00000000-0000-4000-8000-00000000000" +:+ n).
Definition sample_envelope (kind sender recipient : string) (payload : json) : json :=
  JObject [("type", JString kind); ("protocol", JString "gse-replication/1.0"); ("groupId", sample_uuid "1");
           ("configurationId", JString "three-voters"); ("sender", JString sender); ("recipient", JString recipient);
           ("epoch", JInt 3); ("incarnationId", sample_uuid "2"); ("traceId", sample_uuid "3"); ("eventSequence", JInt 0);
           ("payload", payload)]%string.
Definition sample_append : json :=
  sample_envelope "APPEND" "node-1" "node-2"
    (JObject [("prevIndex", JInt (-1)); ("entries", JArray [JNull; JBool true; JString (str_of_bytes (be_split 2 0xC3A9))])]%string).
Definition sample_ack : json := sample_envelope "DURABLE_ACK" "node-2" "node-1" (JObject []).

Definition sample_event (sequence attempt : Z) (barrier action : string) (response : json) : event :=
  Event "node-1" 100 sequence sample_append response
    (match encode sample_append with Ok f => hex (sha256 f) | Err _ => EmptyString end) barrier action attempt.
Definition sample_trace : list event :=
  [sample_event 1 1 "BEFORE_REQUEST_WRITE" "disconnect" JNull; sample_event 2 2 "BEFORE_REQUEST_WRITE" "deliver" JNull;
   sample_event 3 1 "AFTER_RESPONSE_READ" "deliver" sample_ack].

#[local] Transparent be_split sha256.

Lemma wire_round_trip_witness :
  match encode sample_append with Ok f => inspect f 1000 = Ok (normal sample_append) /\ normal sample_append <> sample_append | Err _ => False end.
Proof.
  assert (match encode sample_append with Ok f => Z.of_nat (length f) <=? 1000 | Err _ => false end = true) as Hs by (vm_compute; reflexivity).
  destruct (encode sample_append) as [f|] eqn:E; [|discriminate Hs]. split; [|vm_compute; discriminate].
  apply (wire_round_trip sample_append f 1000); [vm_compute; reflexivity|exact E|]. apply Z.leb_le in Hs. split; [exact Hs|vm_compute; discriminate].
Defined.

Lemma wire_frames_canonical_witness :
  match encode sample_ack with Ok f => match inspect f 1000 with Ok e => encode e = Ok f | Err _ => False end | Err _ => False end.
Proof.
  assert (match encode sample_ack with Ok f => is_ok (inspect f 1000) && (Z.of_nat (length f) <=? DEFAULT_MAX_FRAME_BYTES) | Err _ => false end = true) as Hs
    by (vm_compute; reflexivity).
  destruct (encode sample_ack) as [f|]; [|discriminate Hs]. apply andb_true_iff in Hs as [H1 H2].
  destruct (inspect f 1000) as [e|] eqn:E; [|discriminate H1]. destruct (wire_frames_canonical f 1000 e E) as [_ He]. rewrite H2 in He. exact He.
Defined.

Lemma trace_retries_witness :
  match validate_trace 1 [("APPEND", "disconnect")]%string sample_trace with
  | Ok r => r.1 = (1%nat, 3%nat) /\ (forall i e, sample_trace !! i = Some e -> ev_sequence e = owned (owner_of e) (take i sample_trace) + 1)
  | Err _ => False
  end.
Proof.
  assert (match validate_trace 1 [("APPEND", "disconnect")]%string sample_trace with Ok r => bool_decide (r.1 = (1%nat, 3%nat)) | Err _ => false end = true) as Hs
    by (vm_compute; reflexivity).
  destruct (validate_trace _ _ _) as [r|] eqn:E; [|discriminate Hs]. split; [by apply bool_decide_eq_true in Hs|].
  intros i e He. by destruct (trace_retries _ _ _ _ E) as [Hev _]; destruct (Hev _ _ He).
Defined.

(** A retry beyond the limit and a changed frame are refused. *)
Example retry_refused : is_ok (validate_trace 0 [] sample_trace) = false.
Proof. vm_compute. reflexivity. Qed.
Example changed_frame_refused :
  match encode sample_ack with Ok f => is_ok (inspect (<[60%nat := Byte.x41]> f) 1000) | Err _ => true end = false.
Proof. vm_compute. reflexivity. Qed.
