(* ===== verification/RuntimeFormat.v ===== *)
(** * The runtime verifier of 1.1 replica directories ([scripts/v50/runtime_format.py])

    A directory is given by its regular files, named by their paths below it.  [inspect] rereads the
    bootstrap records of the voter, its journals of promises, entries and proofs, the snapshot generation
    its selector points at and its recovery floor.  [torn] allows a journal to end in a partial frame. *)

From Stdlib Require Import Ascii.
From stdpp Require Import base gmap sets strings list sorting.
From S2P Require Import Prelude Bytes Sha256 Wire Files Json ReplicaFrames TextCodes Schema AdmissionFields Admission.
Import StateNotations ResultNotations.
Local Open Scope py_scope.
Local Open Scope Z_scope.

(** ** [journal] *)

(** The identity of a journal: the body of its first frame *)
Definition identity_frame (m : manifest_of) (node : string) (kind : Z) : reader unit :=
  let* d := take_n 32 in
  let* n := get_string 64 in
  let* k := number_H in
  needs (bool_decide (d = mf_digest m) && bool_decide (n = node) && (k =? kind)) "journal identity".

(** The frames from [raw] on; [first] at offset zero.  The first frame names the journal. *)
Fixpoint journal_frames (fuel : nat) (kind : Z) (m : manifest_of) (node : string) (torn first : bool) (raw : bytes)
  : result (list bytes) :=
  match fuel with
  | O => Err (AssertionError "fuel")
  | S fuel' =>
      let size := Z.of_nat (length raw) in
      if size =? 0 then Ok []
      else if size <? 48 then do! need (torn && negb first) "incomplete journal header" in Ok []
      else
        let! field := size_field raw in
        let length := 48 + field in
        do! need ((48 <=? length) && (length <=? IMAGE)) "journal frame bound" in
        if size <? length then do! need (torn && negb first) "incomplete journal payload" in Ok []
        else
          let frame := take (Z.to_nat length) raw in
          let rest := drop (Z.to_nat length) raw in
          let! body := record_body frame (if first then 3 else kind) IMAGE GSER in
          if first then
            do! read_all (identity_frame m node kind) body in
            journal_frames fuel' kind m node torn false rest
          else
            let! more := journal_frames fuel' kind m node torn false rest in
            Ok (frame :: more)
  end.

(** Every frame has at least 48 bytes, so the length of the file is fuel enough. *)
Definition journal (raw : bytes) (kind : Z) (m : manifest_of) (node : string) (torn : bool) : result (list bytes) :=
  let! frames := journal_frames (S (length raw)) kind m node torn true raw in
  do! need (negb (bool_decide (raw = []))) "empty journal" in
  Ok frames.

(** ** [proof] *)

Definition proof_voter (m : manifest_of) (epoch : Z) (incarnation : bytes) (index : Z) (digest : bytes) : reader string :=
  let* voter := get_string 64 in
  let* receipt := take_n 32 in
  do* needs (bool_decide (voter ∈ mf_nodes m)
             && bool_decide (receipt = durable_ack (mf_digest m) voter epoch incarnation index digest)) "receipt domain" in
  ret voter.

Definition proof_fields (m : manifest_of) (anchors : list anchor_of) : reader Z :=
  let* identity := take_n 32 in
  let* epoch := number_q in
  let* incarnation := take_n 16 in
  let* index := number_q in
  let* digest := take_n 32 in
  let* previous := take_n 32 in
  do* needs (bool_decide (identity = mf_digest m) && (1 <=? index) && (index <=? Z.of_nat (length anchors))) "proof identity/index" in
  let* a := liftr (of_option (anchors !! Z.to_nat (index - 1)) IndexError) in
  do* needs ((epoch =? a_epoch a) && bool_decide (incarnation = a_incarnation a) && bool_decide (digest = a_digest a)
             && bool_decide (previous = a_previous a)) "proof ancestry" in
  let* count := number_i in
  do* needs ((count =? 2) || (count =? 3)) "proof quorum" in
  let* voters := times count (proof_voter m epoch incarnation index digest) in
  do* needs (bool_decide (voters = sorted_set voters)) "duplicate/unordered voters" in
  ret index.

Definition proof (raw : bytes) (m : manifest_of) (anchors : list anchor_of) : result Z := read_record 6 (proof_fields m anchors) raw.

(** ** [chain] *)

(** The anchors of a snapshot, read again as [chain] reads them *)
Fixpoint snapshot_anchors (n : nat) (previous : bytes) : reader (list anchor_of) :=
  match n with
  | O => ret []
  | S n' =>
      let* e := number_q in
      let* i := take_n 16 in
      let* op := number_B in
      let* d := take_n 32 in
      let* payload := take_n 32 in
      let* more := snapshot_anchors n' d in
      ret (AnchorOf e i op d payload previous :: more)
  end.
Definition snapshot_chain (m : manifest_of) : reader (list anchor_of * bytes) :=
  let* _ := take_n 48 in
  let* count := get_count 1000000 89 in
  let* anchors := snapshot_anchors (Z.to_nat count) (mf_digest m) in
  let* terminal := AdmissionFields.get_blob META in
  let* _ := AdmissionFields.get_blob IMAGE in
  ret (anchors, terminal).

Definition load_snapshot (raw : bytes) (m : manifest_of) (g : genesis_of) : result (list anchor_of) :=
  let! _ := snapshot raw m g in
  let! body := record_body raw 8 IMAGE GSER in
  let! x := read_all (snapshot_chain m) body in
  do! (if bool_decide (x.2 = []) then Ok 0 else proof x.2 m x.1) in
  Ok x.1.

(** Promised epochs and the incarnation of each *)
Definition promises : Type := list (Z * bytes).
Definition top_epoch (epochs : promises) : Z := fold_right Z.max 0 epochs.*1.

(** [epochs.get(epoch) == incarnation or snapshot and epoch not in epochs and epoch < max(epochs)] *)
Definition promised (epochs : promises) (has_snapshot : bool) (epoch : Z) (incarnation : bytes) : bool :=
  bool_decide (assoc_get epoch epochs = Some incarnation)
  || (has_snapshot && bool_decide (epoch ∉ epochs.*1) && (epoch <? top_epoch epochs)).

Record entry_row := EntryRow {
  er_identity : bytes; er_epoch : Z; er_incarnation : bytes; er_index : Z; er_operation : Z; er_previous_epoch : Z;
  er_previous_index : Z; er_previous : bytes; er_digest : bytes; er_payload : bytes }.
Definition read_entry : reader entry_row :=
  let* identity := take_n 32 in
  let* epoch := number_q in
  let* incarnation := take_n 16 in
  let* index := number_q in
  let* op := number_B in
  let* previous_epoch := number_q in
  let* previous_index := number_q in
  let* previous := take_n 32 in
  let* size := number_i in
  let* digest := take_n 32 in
  let* payload := take_n size in
  ret (EntryRow identity epoch incarnation index op previous_epoch previous_index previous digest payload).

(** The checks of an entry behind [anchors]; [seal] is the digest of its frame. *)
Definition check_entry (m : manifest_of) (epochs : promises) (has_snapshot : bool) (anchors : list anchor_of) (seal : bytes)
    (r : entry_row) : result anchor_of :=
  do! need (bool_decide (er_identity r = mf_digest m) && (er_index r =? Z.of_nat (length anchors) + 1)
            && (er_previous_index r =? er_index r - 1) && (1 <=? er_operation r) && (er_operation r <=? 10)) "entry index/identity" in
  do! need (bool_decide (er_previous r = match last anchors with Some a => a_digest a | None => mf_digest m end)
            && (er_previous_epoch r =? match last anchors with Some a => a_epoch a | None => 1 end)) "entry predecessor" in
  do! need ((Z.max 2 (er_previous_epoch r) <=? er_epoch r) && negb (bool_decide (er_incarnation r = ZERO16))
            && ((er_previous_epoch r <? er_epoch r)
                || match last anchors with Some a => bool_decide (er_incarnation r = a_incarnation a) | None => false end))
    "entry incarnation" in
  do! need (promised epochs has_snapshot (er_epoch r) (er_incarnation r)) "entry promise" in
  do! need (bool_decide (sha256 (er_payload r) = er_digest r)
            && ((er_operation r <=? 8) || bool_decide (er_payload r = []))) "entry payload" in
  Ok (AnchorOf (er_epoch r) (er_incarnation r) (er_operation r) seal (er_digest r) (er_previous r)).

Fixpoint entries (m : manifest_of) (epochs : promises) (has_snapshot : bool) (frames : list bytes) (anchors : list anchor_of)
  : result (list anchor_of) :=
  match frames with
  | [] => Ok anchors
  | raw :: frames' =>
      let! body := record_body raw 5 IMAGE GSER in
      let! r := read_all read_entry body in
      let! a := check_entry m epochs has_snapshot anchors (seal_of raw) r in
      entries m epochs has_snapshot frames' (anchors ++ [a])
  end.

Fixpoint proofs (m : manifest_of) (anchors : list anchor_of) (frames : list bytes) (committed : Z) : result Z :=
  match frames with
  | [] => Ok committed
  | raw :: frames' =>
      let! index := proof raw m anchors in
      do! need (committed <? index) "proof ledger regresses" in
      proofs m anchors frames' index
  end.

(** The anchors of a voter and its committed index; [entries_raw] and [proofs_raw] read the two journals *)
Definition chain (m : manifest_of) (g : genesis_of) (node : string) (epochs : promises) (snap : option bytes) (torn : bool)
    (entries_raw proofs_raw : result bytes) : result (list anchor_of * Z) :=
  let! base := (match snap with Some raw => load_snapshot raw m g | None => Ok [] end) in
  let! raw := entries_raw in
  let! frames := journal raw 5 m node torn in
  let! anchors := entries m epochs (bool_decide (is_Some snap)) frames base in
  let! raw := proofs_raw in
  let! frames := journal raw 6 m node false in
  let! committed := proofs m anchors frames (Z.of_nat (length base)) in
  Ok (anchors, committed).

(** ** [inspect] *)

Definition read_file (files : files_of) (name : string) : result bytes := of_option (assoc_get name files) OSError.
Definition has_file (files : files_of) (name : string) : bool := bool_decide (is_Some (assoc_get name files)).

Fixpoint promise_rows (m : manifest_of) (frames : list bytes) (epochs : promises) : result promises :=
  match frames with
  | [] => Ok epochs
  | raw :: frames' =>
      let! x := read_record 4 (let* d := take_n 32 in
                               do* needs (bool_decide (d = mf_digest m)) "promise identity" in
                               let* leader := get_string 64 in
                               do* needs (bool_decide (leader = mf_leader m)) "promise identity" in
                               let* epoch := number_q in
                               let* incarnation := take_n 16 in
                               ret (epoch, incarnation)) raw in
      do! need ((top_epoch epochs <? x.1) && Bool.eqb (bool_decide (x.2 = ZERO16)) (x.1 =? 1)) "promise order" in
      promise_rows m frames' (assoc_set x.1 x.2 epochs)
  end.

(** The selected generation: its directory, the snapshot and the index the snapshot reaches *)
Definition generation (files : files_of) (m : manifest_of) (node : string) : result (string * option bytes * Z) :=
  if has_file files "current.gsr" then
    let! current := read_file files "current.gsr" in
    let! body := record_of current 10 in
    let! x := read_all (let* d := take_n 32 in
                        do* needs (bool_decide (d = mf_digest m)) "selector identity" in
                        let* n := get_string 64 in
                        do* needs (bool_decide (n = node)) "selector identity" in
                        let* slot := get_string 32 in
                        let* gen := take_n 16 in
                        let* seal := take_n 32 in
                        let* admitted := number_B in
                        ret (slot, gen, seal, admitted)) body in
    let '(slot, gen, seal, admitted) := x in
    do! need (bool_decide (slot ∈ ["generation-a"; "generation-b"]%string) && ((admitted =? 0) || (admitted =? 1))) "selector slot" in
    let! seal_raw := read_file files (node_file slot "generation.gsr") in
    do! need (bool_decide (seal_of seal_raw = seal)) "selector seal" in
    let! body := record_of seal_raw 11 in
    let! y := run_reader (let* d := take_n 32 in
                          let* n := get_string 64 in
                          let* g := take_n 16 in
                          do* needs (bool_decide (d = mf_digest m) && bool_decide (n = node) && bool_decide (g = gen)) "generation identity" in
                          let* snap := liftr (read_file files (node_file slot "snapshot.gsr")) in
                          let* s := take_n 32 in
                          do* needs (bool_decide (s = seal_of snap)) "snapshot digest" in
                          let* e := take_n 32 in
                          let* entries_raw := liftr (read_file files (node_file slot "entries.gsr")) in
                          do* needs (bool_decide (e = seal_of entries_raw)) "generation journal" in
                          let* p := take_n 32 in
                          let* proofs_raw := liftr (read_file files (node_file slot "proofs.gsr")) in
                          do* needs (bool_decide (p = seal_of proofs_raw)) "generation journal" in
                          do* end_fields in
                          ret snap) body in
    (* struct.unpack_from('>i', snap, 96) *)
    do! guard (100 <=? Z.of_nat (length y)) StructError in
    Ok (slot +:+ "/", Some y, to_signed 4 (be_join (take 4 (drop 96 y))))
  else Ok (EmptyString, None, 0).

Definition floor_fields (m : manifest_of) (node : string) (anchors : list anchor_of) (committed : Z) : reader Z :=
  let* d := take_n 32 in
  do* needs (bool_decide (d = mf_digest m)) "floor identity" in
  let* n := get_string 64 in
  do* needs (bool_decide (n = node)) "floor identity" in
  let* floor := number_q in
  let* digest := take_n 32 in
  let* count := number_i in
  do* needs ((0 <=? floor) && (floor <=? committed)) "floor proof" in
  let* expected := (if floor =? 0 then ret (mf_digest m)
                    else let* a := liftr (of_option (anchors !! Z.to_nat (floor - 1)) IndexError) in ret (a_digest a)) in
  do* needs (bool_decide (digest = expected) && ((count =? 2) || (count =? 3))) "floor proof" in
  let* voters := times count (get_string 64) in
  do* end_fields in
  do* needs (bool_decide (voters = sorted_set voters) && bool_decide (voters ⊆ mf_nodes m)) "floor voters" in
  ret floor.

Definition floor_of (files : files_of) (m : manifest_of) (node : string) (anchors : list anchor_of) (committed : Z) : result Z :=
  if has_file files "recovery-floor.gsr" then
    let! raw := read_file files "recovery-floor.gsr" in
    let! body := record_of raw 12 in
    run_reader (floor_fields m node anchors committed) body
  else Ok 0.

Record runtime_report := RuntimeReport {
  rr_node : string; rr_base : Z; rr_sequence : Z; rr_last_index : Z; rr_committed : Z; rr_snapshot_index : Z; rr_floor : Z;
  rr_manifest : string; rr_history : string; rr_anchors : list string; rr_origin : Z }.

(** The bootstrap authority of the voter: manifest, genesis, node, origin *)
Definition authority (files : files_of) : result (manifest_of * genesis_of * string * Z) :=
  let! genesis_raw := read_file files "genesis.gsr" in
  let! g := genesis genesis_raw in
  let! manifest_raw := read_file files "manifest.gsr" in
  let! m := manifest manifest_raw g in
  let! node_raw := read_file files "node.gsr" in
  let! x := read_record 2 (let* d := take_n 32 in
                           do* needs (bool_decide (d = mf_digest m)) "node manifest" in
                           let* node := get_string 64 in
                           let* origin := number_B in
                           ret (node, origin)) node_raw in
  let '(node, origin) := x in
  do! need (bool_decide (node ∈ mf_nodes m) && ((origin =? 0) || (origin =? 1))) "node origin" in
  let! seal_raw := read_file files "bootstrap-seal.gsr" in
  let! receipt_raw := read_record 20 (let* n := get_string 64 in
                                      do* needs (bool_decide (n = node)) "seal node" in
                                      AdmissionFields.get_blob META) seal_raw in
  let! receipt_body := record_of receipt_raw 19 in
  let! plan_raw := run_reader (AdmissionFields.get_blob META) receipt_body in
  let! planned := plan plan_raw m g manifest_raw in
  let! preparations := receipt receipt_raw plan_raw m planned.2 in
  let! prepared := read_file files "bootstrap-prepared.gsr" in
  let! i := of_option (fst <$> list_find (node =.) (mf_nodes m)) (ValueError "not in list") in
  let! own := of_option (preparations !! i) IndexError in
  do! need (bool_decide (prepared = own)) "local preparation" in
  Ok (m, g, node, origin).

Definition inspect (files : files_of) (torn : bool) : result runtime_report :=
  let! x := authority files in
  let '(m, g, node, origin) := x in
  let! promises_raw := read_file files "promises.gsr" in
  let! frames := journal promises_raw 4 m node false in
  let! epochs := promise_rows m frames [] in
  do! need (bool_decide (1 ∈ epochs.*1)) "initial promise missing" in
  let! selected := generation files m node in
  let '(directory, snap, snapshot_index) := selected in
  let! c := chain m g node epochs snap torn (read_file files (directory +:+ "entries.gsr")) (read_file files (directory +:+ "proofs.gsr")) in
  let! floor := floor_of files m node c.1 c.2 in
  Ok (RuntimeReport node (gn_base g) (gn_base g + application_count (take (Z.to_nat c.2) c.1)) (Z.of_nat (length c.1)) c.2
        snapshot_index floor (hex (mf_digest m)) (hex (gn_history g)) (hex <$> (a_digest <$> c.1)) origin).
