(* ===== verification/RuntimeProperties.v ===== *)
(** * Properties of the 1.1 runtime verifier

    An accepted replica directory holds a chain of entries, a committed prefix with a quorum certificate
    and a recovery floor below it; equal digests behind the snapshots pin equal chains; a journal cut
    anywhere is read to its whole frames. *)

From Stdlib Require Import Ascii.
From stdpp Require Import base gmap sets strings list sorting.
From S2P Require Import Prelude Bytes Sha256 Wire Files Json ReplicaFrames TextCodes Schema AdmissionFields Admission AdmissionFixture AdmissionProofs RuntimeFormat.
Import StateNotations ResultNotations.
Local Open Scope py_scope.
Local Open Scope Z_scope.

#[local] Opaque be_split sha256.

(** ** Journals *)

(** A sealed frame of a journal *)
Definition journal_frame (kind : Z) (frame : bytes) : Prop :=
  exists body, frame = framed kind body /\ (0 < length body)%nat /\ Z.of_nat (length frame) <= IMAGE.

Lemma journal_frame_length kind frame : journal_frame kind frame -> (49 <= length frame)%nat /\ Z.of_nat (length frame) <= IMAGE.
Proof. intros (body & -> & Hb & Hl). rewrite length_framed in *. lia. Qed.

Lemma frame_record kind frame : 0 <= kind < 65536 -> journal_frame kind frame -> is_ok (record_body frame kind IMAGE GSER) = true.
Proof.
  intros Hk (body & -> & Hb & Hl). rewrite length_framed in Hl. unfold framed. rewrite record_body_framed; [done|done|done|done|lia|done].
Qed.

Lemma record_frame raw kind body : record_body raw kind IMAGE GSER = Ok body -> raw = framed kind body /\ journal_frame kind raw.
Proof. intros (Hr & _ & Hb & Hl)%record_body_ok. split; [done|]. by exists body. Qed.

Lemma journal_frames_ok fuel kind m node torn raw frames :
  journal_frames fuel kind m node torn false raw = Ok frames ->
  exists tail, raw = concat frames ++ tail /\ (torn = false -> tail = []) /\ Forall (journal_frame kind) frames.
Proof.
  revert raw frames. induction fuel as [|fuel IH]; intros raw frames H; [done|]. cbn [journal_frames] in H.
  destruct (Z.eqb_spec (Z.of_nat (length raw)) 0) as [H0|H0].
  { injection H as <-. exists []. destruct raw; [by split_and!|cbn in H0; lia]. }
  assert (forall msg, (do! need (torn && negb false) msg in Ok []) = Ok frames ->
            exists tail, raw = concat frames ++ tail /\ (torn = false -> tail = []) /\ Forall (journal_frame kind) frames) as Htorn.
  { intros msg Ht. apply rbind_ok in Ht as (? & Ht & [= <-]). apply guard_ok in Ht. exists raw. destruct torn; [|done]. by split_and!. }
  destruct (_ <? 48); [by eapply Htorn|]. apply rbind_ok in H as (field & _ & H). apply rbind_ok in H as (? & _ & H).
  destruct (_ <? 48 + field); [by eapply Htorn|]. apply rbind_ok in H as (body & Hb & H). apply record_frame in Hb as [_ Hf].
  apply rbind_ok in H as (more & Hm & [= <-]). apply IH in Hm as (tail & Hd & Ht & Hall). exists tail. cbn [concat].
  split_and!; [|done|by constructor]. rewrite <- app_assoc, <- Hd. by rewrite take_drop.
Qed.

Lemma frame_size kind frame rest :
  journal_frame kind frame -> size_field (frame ++ rest) = Ok (Z.of_nat (length frame) - 48).
Proof.
  intros (body & -> & Hb & Hl). unfold size_field. rewrite length_app, length_framed in *.
  rewrite (proj2 (Z.leb_le _ _)) by lia. cbn [guard rbind]. rewrite framed_size by (unfold IMAGE in *; lia). f_equal. lia.
Qed.

(** The step of [journal_frames] over a whole frame *)
Lemma frames_cons fuel kind m node torn frame rest :
  0 <= kind < 65536 -> journal_frame kind frame ->
  journal_frames (S fuel) kind m node torn false (frame ++ rest)
  = (let! more := journal_frames fuel kind m node torn false rest in Ok (frame :: more)).
Proof.
  intros Hk Hf. destruct (journal_frame_length _ _ Hf) as [Hmin Hmax]. cbn [journal_frames].
  rewrite (frame_size _ _ _ Hf). rewrite length_app. rewrite (proj2 (Z.eqb_neq _ _)), (proj2 (Z.ltb_ge _ 48)) by lia. cbn [rbind].
  replace (48 + (Z.of_nat (length frame) - 48)) with (Z.of_nat (length frame)) by lia.
  rewrite (proj2 (Z.leb_le 48 _)), (proj2 (Z.leb_le _ IMAGE)) by lia. cbn [andb need guard rbind].
  rewrite (proj2 (Z.ltb_ge _ _)) by lia. rewrite Nat2Z.id, take_app_length, drop_app_length.
  pose proof (frame_record _ _ Hk Hf) as Hr. by destruct (record_body frame kind IMAGE GSER).
Qed.

(** A frame cut short is dropped from a torn journal. *)
Lemma frames_torn fuel kind m node frame n :
  journal_frame kind frame -> (n < length frame)%nat -> journal_frames (S fuel) kind m node true false (take n frame) = Ok [].
Proof.
  intros Hf Hn. destruct (journal_frame_length _ _ Hf) as [Hmin Hmax]. cbn [journal_frames]. rewrite length_take, Nat.min_l by lia.
  destruct (Z.eqb_spec (Z.of_nat n) 0) as [H0|H0]; [done|]. destruct (Z.ltb_spec (Z.of_nat n) 48) as [H1|H1]; [done|].
  assert (size_field (take n frame) = size_field (frame ++ [])) as ->.
  { unfold size_field. rewrite app_nil_r, length_take, Nat.min_l by lia. rewrite !(proj2 (Z.leb_le 16 _)) by lia. cbn [guard rbind].
    rewrite skipn_firstn_comm, take_take, Nat.min_l by lia. done. }
  rewrite (frame_size _ _ _ Hf). cbn [rbind]. replace (48 + (Z.of_nat (length frame) - 48)) with (Z.of_nat (length frame)) by lia.
  rewrite (proj2 (Z.leb_le 48 _)), (proj2 (Z.leb_le _ IMAGE)) by lia. cbn [andb need guard rbind].
  rewrite (proj2 (Z.ltb_lt _ _)) by lia. done.
Qed.

(** The frames that fit in the first [n] bytes *)
Fixpoint whole_frames (n : nat) (frames : list bytes) : list bytes :=
  match frames with
  | [] => []
  | f :: frames' => if (length f <=? n)%nat then f :: whole_frames (n - length f) frames' else []
  end.

Lemma frames_cut fuel kind m node frames n :
  0 <= kind < 65536 -> Forall (journal_frame kind) frames -> (n < fuel)%nat ->
  journal_frames fuel kind m node true false (take n (concat frames)) = Ok (whole_frames n frames).
Proof.
  intros Hk Hf. revert fuel n. induction Hf as [|f frames Hf Hall IH]; intros [|fuel] n Hl; try lia.
  - cbn [concat whole_frames]. by rewrite take_nil.
  - pose proof (journal_frame_length _ _ Hf). cbn [concat whole_frames]. destruct (Nat.leb_spec (length f) n) as [Hn|Hn].
    + rewrite take_app_ge by lia. rewrite frames_cons by done. by rewrite IH by lia.
    + rewrite take_app_le by lia. apply frames_torn; [done|lia].
Qed.

(** The first frame *)
Lemma frames_first fuel kind m node torn raw frames :
  journal_frames (S fuel) kind m node torn true raw = Ok frames -> raw <> [] ->
  exists head, raw = head ++ drop (length head) raw /\ journal_frame 3 head /\
    journal_frames fuel kind m node torn false (drop (length head) raw) = Ok frames /\
    forall rest torn' fuel', journal_frames (S fuel') kind m node torn' true (head ++ rest) = journal_frames fuel' kind m node torn' false rest.
Proof.
  intros H Hne. cbn [journal_frames] in H. rewrite andb_false_r in H.
  destruct (Z.eqb_spec (Z.of_nat (length raw)) 0) as [H0|H0]; [destruct raw; [done|cbn in H0; lia]|].
  destruct (_ <? 48) eqn:Es; [done|]. apply rbind_ok in H as (field & Hs & H). apply rbind_ok in H as (u & Hb & H).
  destruct (_ <? 48 + field) eqn:E; [done|]. apply rbind_ok in H as (body & Hrec & H). apply rbind_ok in H as ([] & Hid & H).
  pose proof (record_frame _ _ _ Hrec) as [Hhead Hf]. apply guard_ok in Hb. bool_tac.
  exists (take (Z.to_nat (48 + field)) raw).
  assert (length (take (Z.to_nat (48 + field)) raw) = Z.to_nat (48 + field)) as Hl by (rewrite length_take; lia).
  rewrite Hl. split_and!; [by rewrite take_drop|done|exact H|]. intros rest torn' fuel'. clear H Hhead.
  revert Hrec Hf Hl. generalize (take (Z.to_nat (48 + field)) raw). intros head Hrec Hf Hl. cbn [journal_frames].
  rewrite (frame_size _ _ _ Hf), !length_app, Hl. rewrite (proj2 (Z.eqb_neq _ _)), (proj2 (Z.ltb_ge _ 48)) by lia. cbn [rbind].
  replace (48 + (Z.of_nat (Z.to_nat (48 + field)) - 48)) with (48 + field) by lia.
  rewrite (proj2 (Z.leb_le 48 _)), (proj2 (Z.leb_le _ IMAGE)) by lia. cbn [andb need guard rbind].
  rewrite (proj2 (Z.ltb_ge _ _)) by lia. rewrite <- Hl, take_app_length, drop_app_length, Hrec. cbn [rbind]. by rewrite Hid.
Qed.

Lemma whole_frames_spec n frames :
  exists k, whole_frames n frames = take k frames /\ (length (concat (take k frames)) <= n)%nat /\
            ((k < length frames)%nat -> (n < length (concat (take (S k) frames)))%nat).
Proof.
  revert n. induction frames as [|f frames IH]; intros n; [exists O; cbn; split_and!; [done|lia|lia]|]. cbn [whole_frames].
  destruct (Nat.leb_spec (length f) n) as [Hn|Hn].
  - destruct (IH (n - length f)%nat) as (k & -> & H1 & H2). exists (S k). cbn [take concat length]. rewrite !length_app. cbn [take] in H2.
    split_and!; [done|lia|]. intros Hk. specialize (H2 ltac:(lia)). destruct frames as [|f' frames]; cbn [length] in *; [lia|].
    cbn [concat take] in *. rewrite !length_app in *. lia.
  - exists O. cbn [take concat length]. rewrite take_0, app_nil_r. split_and!; [done|lia|lia].
Qed.

Lemma journal_parts raw kind m node torn frames :
  journal raw kind m node torn = Ok frames ->
  exists head tail, raw = head ++ concat frames ++ tail /\ journal_frame 3 head /\ Forall (journal_frame kind) frames /\
    (torn = false -> tail = []) /\
    forall rest torn' fuel, journal_frames (S fuel) kind m node torn' true (head ++ rest) = journal_frames fuel kind m node torn' false rest.
Proof.
  unfold journal. intros H. apply rbind_ok in H as (fs & H & Hc). apply rbind_ok in Hc as (? & Hc & [= ->]). apply guard_ok in Hc.
  apply negb_true_iff, bool_decide_eq_false in Hc. apply frames_first in H as (head & Hr & Hh & H & Hfirst); [|done].
  apply journal_frames_ok in H as (tail & Hd & Ht & Hall). exists head, tail. rewrite <- Hd. by split_and!.
Qed.

(** A journal that is read whole is the frame of its identity followed by the frames it is read to; cut
    anywhere behind the identity, as a crash in the middle of an append leaves it, and read as torn, it gives
    exactly the frames that lie wholly before the cut. *)
Theorem torn_journal raw kind m node frames :
  journal raw kind m node false = Ok frames -> 0 <= kind < 65536 ->
  exists head, raw = head ++ concat frames /\ journal_frame 3 head /\ Forall (journal_frame kind) frames /\
    forall n, (length head <= n <= length raw)%nat ->
      exists k, journal (take n raw) kind m node true = Ok (take k frames) /\
        (length head + length (concat (take k frames)) <= n)%nat /\
        ((k < length frames)%nat -> (n < length head + length (concat (take (S k) frames)))%nat).
Proof.
  intros H Hk. apply journal_parts in H as (head & tail & Hr & Hh & Hall & Ht & Hfirst). rewrite (Ht eq_refl), app_nil_r in Hr.
  exists head. split_and!; [done..|]. intros n Hn. destruct (whole_frames_spec (n - length head) frames) as (k & Hw & H1 & H2).
  exists k. split_and!; [|lia|intros Hlt; specialize (H2 Hlt); lia].
  pose proof (journal_frame_length _ _ Hh) as [Hmin _].
  unfold journal. rewrite Hr, take_app_ge by lia. rewrite Hfirst.
  rewrite frames_cut by (try done; rewrite Hr, length_app in Hn; rewrite length_app, length_take; lia).
  rewrite Hw. cbn [rbind]. rewrite bool_decide_eq_false_2; [done|]. intros He%app_nil. destruct He as [-> _]. cbn in Hmin. lia.
Qed.

(** ** Chains *)

(** The anchors that may follow one of epoch [epoch], incarnation [incarnation] and digest [previous] *)
Fixpoint ancestry (epoch : Z) (incarnation previous : bytes) (l : list anchor_of) : Prop :=
  match l with
  | [] => True
  | a :: l' =>
      Z.max 2 epoch <= a_epoch a /\ a_incarnation a <> ZERO16 /\ (epoch < a_epoch a \/ a_incarnation a = incarnation) /\
      1 <= a_operation a <= 10 /\ a_previous a = previous /\ ancestry (a_epoch a) (a_incarnation a) (a_digest a) l'
  end.

Lemma ancestry_snoc e i p l a :
  ancestry e i p (l ++ [a]) <->
  ancestry e i p l /\
  ancestry (match last l with Some b => a_epoch b | None => e end) (match last l with Some b => a_incarnation b | None => i end)
    (match last l with Some b => a_digest b | None => p end) [a].
Proof.
  revert e i p. induction l as [|b l IH]; intros e i p; [cbn; tauto|]. cbn [app ancestry]. rewrite IH. destruct l as [|c l]; cbn [last ancestry]; [tauto|].
  destruct (last (c :: l)) eqn:E; [tauto|]. by apply last_None in E.
Qed.

Lemma newer_epoch (e x : Z) (P : Prop) `{!Decision P} : (e <? x) || bool_decide P = true -> e < x \/ P.
Proof. intros H. apply orb_true_iff in H as [H|H]; [left; lia|right; by apply bool_decide_eq_true in H]. Qed.

Lemma snapshot_anchors_ok n e i p s l s2 :
  anchors_fields n e i p s = (Ok l, s2) -> snapshot_anchors n p s = (Ok l, s2) /\ ancestry e i p l /\ length l = n.
Proof.
  revert e i p s l. induction n as [|n IH]; intros e i p s l H; cbn [anchors_fields snapshot_anchors] in *.
  - apply ret_ok in H as [<- <-]. done.
  - do 5 (apply bind_ok in H as (? & ? & Hx & H); rewrite (bind_eq _ _ _ _ _ Hx); clear Hx). apply bind_ok in H as ([] & ? & Hc & H).
    apply ensure_ok in Hc as [Hc ->]. apply bind_ok in H as (more & ? & Hm & H). apply ret_ok in H as [<- <-].
    apply IH in Hm as (Hm & Ha & Hl). rewrite (bind_eq _ _ _ _ _ Hm). bool_tac. cbn [length ancestry a_epoch a_incarnation a_operation a_previous a_digest].
    match goal with A : _ || _ = true |- _ => apply newer_epoch in A end. split_and!; try done; try lia.
Qed.

Lemma anchors_suffix n e i p s l s2 : anchors_fields n e i p s = (Ok l, s2) -> exists pre, s = pre ++ s2.
Proof.
  revert e i p s l. induction n as [|n IH]; intros e i p s l H; cbn [anchors_fields] in H.
  - apply ret_ok in H as [_ <-]. by exists [].
  - do 6 (apply bind_ok in H as (? & ? & ? & H)). apply bind_ok in H as (? & ? & Hm & H). apply ret_ok in H as [_ <-].
    apply IH in Hm as [pre ->]. unfold take_n, number_q, number_B, needs in *. fields_inv. eexists. by rewrite !app_assoc.
Qed.

(** An entry of the journal: the frame it was read from, one of [frames], and its row *)
Definition recorded (m : manifest_of) (frames : list bytes) (index : Z) (previous : bytes) (a : anchor_of) : Prop :=
  exists raw body r, raw ∈ frames /\ record_body raw 5 IMAGE GSER = Ok body /\ read_all read_entry body = Ok r /\
    er_identity r = mf_digest m /\ er_index r = index /\ er_previous r = previous /\
    a = AnchorOf (er_epoch r) (er_incarnation r) (er_operation r) (seal_of raw) (er_digest r) (er_previous r).

(** The entry read from the frame [raw] follows [anchors]: its row names this manifest, the next index, and the
    index, epoch and digest of the entry before it, and carries its payload. *)
Definition entry_after (m : manifest_of) (anchors : list anchor_of) (raw : bytes) (a : anchor_of) : Prop :=
  exists body r, record_body raw 5 IMAGE GSER = Ok body /\ read_all read_entry body = Ok r /\
    er_identity r = mf_digest m /\ er_index r = Z.of_nat (length anchors) + 1 /\ er_previous_index r = Z.of_nat (length anchors) /\
    er_previous_epoch r = match last anchors with Some b => a_epoch b | None => 1 end /\
    er_previous r = match last anchors with Some b => a_digest b | None => mf_digest m end /\
    sha256 (er_payload r) = er_digest r /\ (er_operation r <= 8 \/ er_payload r = []) /\
    a = AnchorOf (er_epoch r) (er_incarnation r) (er_operation r) (seal_of raw) (er_digest r) (er_previous r).

(** The frames of a journal and the entries they are read to, in order, behind [anchors] *)
Fixpoint follow (m : manifest_of) (anchors : list anchor_of) (frames : list bytes) (new : list anchor_of) : Prop :=
  match frames, new with
  | [], [] => True
  | raw :: frames', a :: new' => entry_after m anchors raw a /\ follow m (anchors ++ [a]) frames' new'
  | _, _ => False
  end.

Lemma follow_recorded m anchors frames new i a :
  follow m anchors frames new -> (length anchors <= i)%nat -> (anchors ++ new) !! i = Some a ->
  recorded m frames (Z.of_nat i + 1) (a_previous a) a.
Proof.
  revert anchors new. induction frames as [|raw frames IH]; intros anchors [|b new] H Hi Ha; try done.
  - rewrite app_nil_r in Ha. apply lookup_lt_Some in Ha. lia.
  - destruct H as [(body & r & Hb & Hr & Hid & Hx & _ & _ & _ & _ & _ & ->) H]. destruct (decide (i = length anchors)) as [->|Hne].
    + rewrite lookup_app_r, Nat.sub_diag in Ha by lia. injection Ha as <-. exists raw, body, r. split; [by left|]. by split_and!.
    + rewrite cons_middle, (assoc app) in Ha. apply IH in Ha as (raw' & body' & r' & Hin & Hrest); [|done|rewrite length_app; cbn; lia].
      exists raw', body', r'. split; [by right|done].
Qed.

Lemma check_entry_ok m epochs hs anchors seal r a :
  check_entry m epochs hs anchors seal r = Ok a ->
  a = AnchorOf (er_epoch r) (er_incarnation r) (er_operation r) seal (er_digest r) (er_previous r) /\
  er_identity r = mf_digest m /\ er_index r = Z.of_nat (length anchors) + 1 /\ er_previous_index r = Z.of_nat (length anchors) /\
  er_previous_epoch r = match last anchors with Some b => a_epoch b | None => 1 end /\
  er_previous r = match last anchors with Some b => a_digest b | None => mf_digest m end /\
  sha256 (er_payload r) = er_digest r /\ (er_operation r <= 8 \/ er_payload r = []) /\
  promised epochs hs (a_epoch a) (a_incarnation a) = true /\
  ancestry (match last anchors with Some b => a_epoch b | None => 1 end) (match last anchors with Some b => a_incarnation b | None => ZERO16 end)
    (match last anchors with Some b => a_digest b | None => mf_digest m end) [a].
Proof.
  unfold check_entry. intros H. do 5 (apply rbind_ok in H as (? & ?%guard_ok & H)). injection H as <-. bool_tac.
  cbn [a_epoch a_incarnation ancestry a_operation a_previous]. 
  match goal with A : (_ <=? 8) || _ = true |- _ => rename A into Hpay end.
  match goal with A : (_ <? _) || _ = true |- _ => rename A into Hn end.
  split_and!; try done; try lia.
  { apply orb_true_iff in Hpay as [?|Hp]; [left; lia|right; by apply bool_decide_eq_true in Hp]. }
  destruct (last anchors) as [b|]; [apply newer_epoch in Hn as [?|?]; [left; lia|by right]|]. rewrite orb_false_r in Hn. left. lia.
Qed.

Lemma entries_ok m epochs hs frames anchors out :
  entries m epochs hs frames anchors = Ok out ->
  exists new, out = anchors ++ new /\ follow m anchors frames new /\
    (ancestry 1 ZERO16 (mf_digest m) anchors -> ancestry 1 ZERO16 (mf_digest m) out) /\
    Forall (fun a => promised epochs hs (a_epoch a) (a_incarnation a) = true) new.
Proof.
  revert anchors. induction frames as [|raw frames IH]; intros anchors H; cbn [entries] in H.
  - injection H as <-. exists []. rewrite app_nil_r. by split_and!.
  - apply rbind_ok in H as (body & Hb & H). apply rbind_ok in H as (r & Hr & H). apply rbind_ok in H as (a & Ha & H).
    apply IH in H as (new & -> & Hf & Hanc & Hp). apply check_entry_ok in Ha as (Ea & Hid & Hx & Hpi & Hpe & Hprev & Hsha & Hpay & Hpr & Hstep).
    exists (a :: new). rewrite <- app_assoc in *. cbn [app] in *. split_and!; [done| | |by constructor].
    + split; [|done]. exists body, r. by split_and!.
    + intros Hanc0. apply Hanc. apply ancestry_snoc. by split.
Qed.

(** ** Certificates *)

(** The receipt of a voter in a proof *)
Definition receipt_of (m : manifest_of) (e : Z) (i : bytes) (index : Z) (d : bytes) (v : string) : bytes :=
  put_text v ++ durable_ack (mf_digest m) v e i index d.

(** The proof frame of the entry [a] at [index] *)
Definition certificate (m : manifest_of) (a : anchor_of) (index : Z) (voters : list string) : bytes :=
  framed 6 (mf_digest m ++ be8 (a_epoch a) ++ a_incarnation a ++ be8 index ++ a_digest a ++ a_previous a ++ be4 (Z.of_nat (length voters))
            ++ concat (receipt_of m (a_epoch a) (a_incarnation a) index (a_digest a) <$> voters)).

(** [raw] certifies the entry at [index]: the receipts of two or three different voters of the manifest *)
Definition certified (m : manifest_of) (anchors : list anchor_of) (index : Z) (raw : bytes) : Prop :=
  exists a voters, anchors !! Z.to_nat (index - 1) = Some a /\ 1 <= index /\ NoDup voters /\ (length voters = 2%nat \/ length voters = 3%nat) /\
                   voters ⊆ mf_nodes m /\ raw = certificate m a index voters.

Lemma sorted_set_NoDup (l : list string) : l = sorted_set l -> NoDup l.
Proof. intros ->. unfold sorted_set. rewrite merge_sort_Permutation. apply NoDup_remove_dups. Qed.

Lemma certified_longer m l l' index raw : certified m l index raw -> certified m (l ++ l') index raw.
Proof. intros (a & voters & Ha & H). exists a, voters. split; [by apply lookup_app_l_Some|done]. Qed.

Lemma certified_range m l index raw : certified m l index raw -> 1 <= index <= Z.of_nat (length l).
Proof. intros (a & voters & Ha & H1 & _). apply lookup_lt_Some in Ha. lia. Qed.

Lemma voters_ok (item : reader string) m e i index d n s xs s2 :
  (forall s x s2, item s = (Ok x, s2) -> s = receipt_of m e i index d x ++ s2 /\ x ∈ mf_nodes m) ->
  repeat_reader n item s = (Ok xs, s2) -> s = concat (receipt_of m e i index d <$> xs) ++ s2 /\ xs ⊆ mf_nodes m /\ length xs = n.
Proof.
  intros Hi H. eapply (repeat_reader_ok _ (receipt_of m e i index d) (fun v => v ∈ mf_nodes m)) in H as (-> & Hg & Hl); [|done].
  split_and!; [done| |done]. intros v Hv. rewrite Forall_forall in Hg. by apply Hg.
Qed.

Lemma proof_voter_ok m e i index d s x s2 :
  proof_voter m e i index d s = (Ok x, s2) -> s = receipt_of m e i index d x ++ s2 /\ x ∈ mf_nodes m.
Proof. unfold proof_voter. intros H. field_inv H. split; [unfold receipt_of; by rewrite <- app_assoc|done]. Qed.

Lemma terminal_voter_ok m a index s x s2 :
  voter_fields m a index s = (Ok x, s2) -> s = receipt_of m (a_epoch a) (a_incarnation a) index (a_digest a) x ++ s2 /\ x ∈ mf_nodes m.
Proof. unfold voter_fields. intros H. field_inv H. split; [unfold receipt_of; by rewrite <- app_assoc|done]. Qed.

Lemma proof_ok raw m anchors index : proof raw m anchors = Ok index -> certified m anchors index raw.
Proof.
  unfold proof. intros H. apply read_record_ok in H as (body & -> & H & _). unfold proof_fields in H.
  do 6 (apply bind_ok in H as (? & ? & ? & H)). apply bind_ok in H as ([] & ? & Hc & H). apply ensure_ok in Hc as [Hc ->].
  apply bind_ok in H as (a & ? & Ha & H). apply liftr_ok in Ha as [Ha ->]. apply of_option_ok in Ha.
  apply bind_ok in H as ([] & ? & Hd & H). apply ensure_ok in Hd as [Hd ->]. apply bind_ok in H as (n & ? & Hn & H).
  apply bind_ok in H as ([] & ? & Hq & H). apply ensure_ok in Hq as [Hq ->]. apply bind_ok in H as (voters & ? & Hv & H).
  apply bind_ok in H as ([] & ? & Hs & H). apply ensure_ok in Hs as [Hs ->]. apply ret_ok in H as [-> ->].
  apply (voters_ok _ _ _ _ _ _ _ _ _ _ (proof_voter_ok _ _ _ _ _)) in Hv as (-> & Hv & Hlen). unfold take_n, number_q, number_i in *. fields_inv. bool_tac. subst.
  exists a, voters. split_and!; try done; [by apply sorted_set_NoDup| |].
  - apply orb_true_iff in Hq as [Hq|Hq]; apply Z.eqb_eq in Hq; subst n; [by left|by right].
  - unfold certificate, be8, be4. rewrite app_nil_r. replace (Z.of_nat (length voters)) with n by (apply orb_true_iff in Hq as [Hq|Hq]; lia).
    done.
Qed.

(** ** Snapshots *)

Lemma get_count_ok maximum minimum s n s2 :
  get_count maximum minimum s = (Ok n, s2) -> s = be4 n ++ s2 /\ 0 <= n <= maximum /\ signed_range 4 n.
Proof.
  unfold get_count, number_i. intros H. apply bind_ok in H as (c & s1 & Hc & H). apply bind_ok in H as (r & s3 & Hr & H).
  apply bind_ok in H as ([] & s4 & Hn & H). apply ensure_ok in Hn as [Hn ->]. apply ret_ok in H as [-> ->]. injection Hr as _ <-.
  fields_inv. bool_tac. split_and!; try done; lia.
Qed.

Lemma terminal_ok m a index raw anchors :
  anchors !! Z.to_nat (index - 1) = Some a -> 1 <= index -> read_record 6 (terminal_fields m a index) raw = Ok tt -> certified m anchors index raw.
Proof.
  intros Ha Hi H. apply read_record_ok in H as (body & -> & H & _). unfold terminal_fields in H. cbv zeta in H.
  do 6 (apply bind_ok in H as (? & ? & ? & H); apply bind_ok in H as ([] & ? & Hc & H); apply ensure_ok in Hc as [? ->]).
  apply bind_ok in H as (n & ? & Hn & H). apply bind_ok in H as ([] & ? & Hq & H). apply ensure_ok in Hq as [Hq ->].
  apply bind_ok in H as (voters & ? & Hv & H). apply ensure_ok in H as [Hs ->].
  apply (voters_ok _ _ _ _ _ _ _ _ _ _ (terminal_voter_ok _ _ _)) in Hv as (-> & Hv & Hlen).
  unfold take_n, number_q, number_i in *. fields_inv. bool_tac. subst.
  exists a, voters. split_and!; try done; [by apply sorted_set_NoDup| |].
  - apply orb_true_iff in Hq as [Hq|Hq]; apply Z.eqb_eq in Hq; subst n; [by left|by right].
  - unfold certificate, be8, be4. rewrite app_nil_r. replace (Z.of_nat (length voters)) with n by (apply orb_true_iff in Hq as [Hq|Hq]; lia).
    done.
Qed.

Lemma load_snapshot_ok raw m g base :
  load_snapshot raw m g = Ok base ->
  ancestry 1 ZERO16 (mf_digest m) base /\
  (100 <= Z.of_nat (length raw) -> to_signed 4 (be_join (take 4 (drop 96 raw))) = Z.of_nat (length base)) /\
  (base <> [] -> exists pre t post, raw = pre ++ t ++ post /\ certified m base (Z.of_nat (length base)) t).
Proof.
  unfold load_snapshot. intros H. apply rbind_ok in H as (seq & Hs & H). apply rbind_ok in H as (body & Hb & H).
  apply rbind_ok in H as (x & Hx & H). apply rbind_ok in H as (? & _ & [= <-]). unfold snapshot in Hs. rewrite Hb in Hs. cbn [rbind] in Hs.
  apply rbind_ok in Hs as ([[[claimed anchors] terminal] app] & Hf & Hs). apply rbind_ok in Hs as (? & _ & Hs).
  apply rbind_ok in Hs as (? & Hp & Hs). apply guard_ok in Hp. apply rbind_ok in Hs as ([] & Ht & _).
  apply read_all_ok in Hf, Hx. apply record_body_ok in Hb as (Hraw & _ & _ & _). unfold snapshot_fields in Hf.
  apply bind_ok in Hf as (d & ? & Hd & Hf). apply bind_ok in Hf as ([] & ? & Hc & Hf). apply ensure_ok in Hc as [_ ->].
  apply bind_ok in Hf as (b & ? & Hbase & Hf). apply bind_ok in Hf as ([] & ? & Hc & Hf). apply ensure_ok in Hc as [_ ->].
  apply bind_ok in Hf as (q & s3 & Hq & Hf). apply bind_ok in Hf as (count & s4 & Hcount & Hf).
  apply bind_ok in Hf as (l & s5 & Hl & Hf). apply bind_ok in Hf as (p & s6 & Hpr & Hf). apply bind_ok in Hf as (a & s7 & Ha & Hf).
  apply ret_ok in Hf as [Hf ->]. injection Hf as -> -> -> ->.
  destruct (snapshot_anchors_ok _ _ _ _ _ _ _ Hl) as (Hl2 & Hanc & Hlen). pose proof (get_count_ok _ _ _ _ _ Hcount) as (Hs3 & Hr & Hsr).
  unfold take_n, number_q in *. fields_inv. match goal with A : Z.of_nat (length d) = 32 |- _ => rename A into Hd end.
  unfold snapshot_chain in Hx. rewrite (bind_eq _ _ (d ++ be_split 8 b ++ be_split 8 claimed ++ s3) (d ++ be_split 8 b ++ be_split 8 claimed) s3) in Hx.
  2:{ rewrite (app_assoc (be_split 8 b)), (app_assoc d). apply reads_take. rewrite !length_app, !length_be_split. lia. }
  rewrite (bind_eq _ _ _ _ _ Hcount), (bind_eq _ _ _ _ _ Hl2), (bind_eq _ _ _ _ _ Hpr), (bind_eq _ _ _ _ _ Ha) in Hx. apply ret_ok in Hx as [<- _]. cbn [fst].
  split; [done|]. destruct (framed_parts GSER 1 8 (d ++ be_split 8 b ++ be_split 8 claimed ++ s3) eq_refl) as (_ & _ & Hdrop & _).
  rewrite <- Hraw in Hdrop. split.
  - intros _. replace 96%nat with (48 + 48)%nat by done. rewrite <- drop_drop, Hdrop.
    rewrite (app_assoc (be_split 8 b)), (app_assoc d), drop_app_length' by (rewrite !length_app, !length_be_split; lia).
    rewrite Hs3. unfold be4. rewrite take_app_length' by (by rewrite length_be_split). rewrite to_signed_split by (lia || done). lia.
  - intros Hne. destruct (last anchors) as [a|] eqn:Elast; [|by apply last_None in Elast].
    destruct (anchors_suffix _ _ _ _ _ _ _ Hl) as [pre Hpre]. apply get_blob_ok in Hpr as [Hs5 _].
    exists (take 48 raw ++ d ++ be_split 8 b ++ be_split 8 claimed ++ be4 count ++ pre ++ be_split 4 (Z.of_nat (length terminal))), terminal, s6.
    split.
    + rewrite <- (take_drop 48 raw) at 1. rewrite Hdrop, Hs3, Hpre, Hs5. unfold put_blob. by rewrite <- !app_assoc.
    + rewrite last_lookup in Elast. pose proof (lookup_lt_Some _ _ _ Elast). apply terminal_ok with a; [|lia|done].
      replace (Z.to_nat (Z.of_nat (length anchors) - 1)) with (pred (length anchors)) by lia. done.
Qed.

(** ** The whole directory *)

Lemma proofs_ok m anchors frames c c' :
  proofs m anchors frames c = Ok c' ->
  exists indexes, Forall2 (certified m anchors) indexes frames /\ StronglySorted Z.lt (c :: indexes) /\ c' = List.last indexes c /\ c <= c'.
Proof.
  revert c. induction frames as [|raw frames IH]; intros c H; cbn [proofs] in H.
  - injection H as ->. exists []. split_and!; [done|by repeat constructor|done|lia].
  - apply rbind_ok in H as (index & Hp & H). apply rbind_ok in H as (? & Hc & H). apply guard_ok in Hc.
    apply IH in H as (indexes & Hf & Hs & -> & Hle). apply proof_ok in Hp. exists (index :: indexes).
    split_and!; [by constructor| | |lia].
    + constructor; [done|]. constructor; [lia|]. apply StronglySorted_inv in Hs as [_ Hs]. eapply Forall_impl; [exact Hs|]. cbn. lia.
    + clear. revert index. induction indexes as [|k indexes IH]; intros index; [done|]. cbn [List.last] in IH |- *. by destruct indexes.
Qed.

Lemma last_in {A} (l : list A) x : List.last l x = x \/ List.last l x ∈ l.
Proof.
  revert x. induction l as [|y l IH]; intros x; [by left|right]. destruct l as [|z l]; [by left|].
  change (List.last (y :: z :: l) x) with (List.last (z :: l) x). right. clear. revert x z. induction l as [|w l IH]; intros x z; [left|right]. apply (IH x w).
Qed.

(** [t] is part of [content] *)
Definition part_of (t content : bytes) : Prop := exists pre post, content = pre ++ t ++ post.

Lemma frame_part raw head frames tail content : content = head ++ concat frames ++ tail -> raw ∈ frames -> part_of raw content.
Proof.
  intros -> Hin. apply list_elem_of_split in Hin as (l1 & l2 & ->). rewrite concat_app. cbn [concat].
  exists (head ++ concat l1), (concat l2 ++ tail). by rewrite <- !app_assoc.
Qed.

(** The content of a journal: the frame of its identity, the frames, and, when it may be torn, a rest *)
Definition journal_content (content : bytes) (torn : bool) (frames : list bytes) : Prop :=
  exists head tail, content = head ++ concat frames ++ tail /\ journal_frame 3 head /\ (torn = false -> tail = []).

Lemma journal_content_ok raw kind m node torn frames : journal raw kind m node torn = Ok frames -> journal_content raw torn frames.
Proof. intros (head & tail & Hr & Hh & _ & Ht & _)%journal_parts. by exists head, tail. Qed.

(** The chain of a voter: what is read of the two journals behind the entries of the snapshot *)
Record chained (m : manifest_of) (epochs : promises) (snap : option bytes) (torn : bool) (ec pc : bytes)
    (base new : list anchor_of) (committed : Z) : Prop := {
  ch_entries : exists frames, journal_content ec torn frames /\ follow m base frames new;
  ch_promised : Forall (fun a => promised epochs (bool_decide (is_Some snap)) (a_epoch a) (a_incarnation a) = true) new;
  ch_ancestry : ancestry 1 ZERO16 (mf_digest m) (base ++ new);
  ch_proofs : exists frames indexes, journal_content pc false frames /\ Forall2 (certified m (base ++ new)) indexes frames /\
    StronglySorted Z.lt (Z.of_nat (length base) :: indexes) /\ committed = List.last indexes (Z.of_nat (length base));
  ch_terminal : base <> [] -> exists raw t, snap = Some raw /\ part_of t raw /\ certified m base (Z.of_nat (length base)) t;
  ch_committed : Z.of_nat (length base) <= committed <= Z.of_nat (length (base ++ new))
}.

Lemma chain_ok m g node epochs snap torn er pr anchors committed :
  chain m g node epochs snap torn er pr = Ok (anchors, committed) ->
  exists base new ec pc, (match snap with Some raw => load_snapshot raw m g | None => Ok [] end) = Ok base /\
    er = Ok ec /\ pr = Ok pc /\ anchors = base ++ new /\ chained m epochs snap torn ec pc base new committed.
Proof.
  unfold chain. intros H. apply rbind_ok in H as (base & Hbase & H). apply rbind_ok in H as (ec & Her & H). apply rbind_ok in H as (fe & Hje & H).
  apply rbind_ok in H as (out & Hent & H). apply rbind_ok in H as (pc & Hpr & H). apply rbind_ok in H as (fp & Hjp & H).
  apply rbind_ok in H as (c & Hproofs & [= <- <-]). apply entries_ok in Hent as (new & -> & Hf & Hanc & Hpromised).
  apply journal_content_ok in Hje, Hjp. apply proofs_ok in Hproofs as (indexes & Hcert & Hs & -> & Hle).
  assert (ancestry 1 ZERO16 (mf_digest m) base /\
          (base <> [] -> exists raw t, snap = Some raw /\ part_of t raw /\ certified m base (Z.of_nat (length base)) t)) as [Hab Hterm].
  { destruct snap as [raw|]; [|by injection Hbase as <-]. apply load_snapshot_ok in Hbase as (Ha & _ & Hc). split; [done|]. intros Hne.
    destruct (Hc Hne) as (pre & t & post & -> & Ht). eexists _, t. split; [done|]. split; [by exists pre, post|done]. }
  exists base, new, ec, pc. split_and!; [done..|]. split; [by exists fe|done|by apply Hanc|by exists fp, indexes|done|split; [done|]].
  destruct (last_in indexes (Z.of_nat (length base))) as [->|Hin]; [rewrite length_app; lia|].
  apply list_elem_of_lookup in Hin as [k Hk]. destruct (Forall2_lookup_l _ _ _ _ _ Hcert Hk) as (raw & _ & Hc). by apply certified_range in Hc as [_ ?].
Qed.

(** ** Promises *)

Definition promise_frame (m : manifest_of) (x : Z * bytes) : bytes := framed 4 (mf_digest m ++ put_text (mf_leader m) ++ be8 x.1 ++ x.2).

Lemma top_epoch_ge epochs x : x ∈ epochs -> x.1 <= top_epoch epochs.
Proof.
  unfold top_epoch. induction epochs as [|y epochs IH]; intros Hin; [by apply not_elem_of_nil in Hin|]. cbn [fmap list_fmap fold_right].
  apply elem_of_cons in Hin as [->|Hin]; [lia|]. specialize (IH Hin). lia.
Qed.
Lemma top_epoch_nonneg epochs : 0 <= top_epoch epochs.
Proof. unfold top_epoch. induction epochs as [|y epochs IH]; cbn; lia. Qed.

(** The promises of a journal: growing epochs above zero, and no incarnation for the first epoch only *)
Lemma promise_rows_ok m frames epochs out :
  promise_rows m frames epochs = Ok out -> StronglySorted Z.lt epochs.*1 ->
  exists new, out = epochs ++ new /\ frames = promise_frame m <$> new /\ StronglySorted Z.lt out.*1 /\
    Forall (fun x => 0 < x.1 /\ (x.2 = ZERO16 <-> x.1 = 1)) new.
Proof.
  revert epochs. induction frames as [|raw frames IH]; intros epochs H Hs; cbn [promise_rows] in H.
  - injection H as <-. exists []. rewrite app_nil_r. by split_and!.
  - apply rbind_ok in H as ([e i] & Hx & H). apply rbind_ok in H as ([] & Hc & H). apply guard_ok in Hc. cbn [fst snd] in *.
    apply andb_true_iff in Hc as [Hlt Hz]. apply Bool.eqb_prop in Hz.
    assert (e ∉ epochs.*1) as Hfresh by (intros Hin; apply list_elem_of_fmap in Hin as (y & -> & Hy); pose proof (top_epoch_ge _ _ Hy); lia).
    rewrite assoc_set_fresh in H by done. apply IH in H as (new & -> & -> & Hso & Hnew).
    + exists ((e, i) :: new). rewrite <- app_assoc in *. split_and!; [done| |done|].
      * rewrite fmap_cons. f_equal. apply read_record_ok in Hx as (body & -> & Hx & _). field_inv Hx. unfold promise_frame, be8. by rewrite ?app_nil_r.
      * constructor; [|done]. cbn [fst snd]. pose proof (top_epoch_nonneg epochs). split; [lia|].
        rewrite <- (bool_decide_eq_true (i = ZERO16)), Hz. apply Z.eqb_eq.
    + rewrite fmap_app. apply growing_snoc; [done|]. intros y (z & -> & Hz')%last_Some_elem_of%list_elem_of_fmap. pose proof (top_epoch_ge _ _ Hz'). cbn [fst]. lia.
Qed.

Lemma generation_ok files m node directory snap idx :
  generation files m node = Ok (directory, snap, idx) ->
  snap = None /\ idx = 0 \/
  exists raw, snap = Some raw /\ idx = to_signed 4 (be_join (take 4 (drop 96 raw))) /\ 100 <= Z.of_nat (length raw) /\
              exists name, assoc_get name files = Some raw.
Proof.
  unfold generation. destruct (has_file files "current.gsr"); [|intros [= _ <- <-]; by left]. intros H. right.
  apply rbind_ok in H as (? & _ & H). apply rbind_ok in H as (? & _ & H). apply rbind_ok in H as ([[[slot gen] seal] admitted] & _ & H).
  apply rbind_ok in H as (? & _ & H). apply rbind_ok in H as (? & _ & H). apply rbind_ok in H as (? & _ & H). apply rbind_ok in H as (? & _ & H).
  apply rbind_ok in H as (y & Hy & H). apply rbind_ok in H as (? & Hg & H). apply guard_ok in Hg. injection H as _ <- <-. exists y.
  split; [done|]. split; [done|]. split; [lia|]. exists (node_file slot "snapshot.gsr").
  apply run_reader_ok in Hy as [s2 Hy]. do 4 (apply bind_ok in Hy as (? & ? & ? & Hy)). apply bind_ok in Hy as (snap' & ? & Hs & Hy).
  apply liftr_ok in Hs as [Hs ->]. do 9 (apply bind_ok in Hy as (? & ? & _ & Hy)). apply ret_ok in Hy as [<- _].
  by apply of_option_ok in Hs.
Qed.

Lemma floor_range files m node anchors committed floor :
  0 <= committed -> floor_of files m node anchors committed = Ok floor -> 0 <= floor <= committed.
Proof.
  intros Hc. unfold floor_of. destruct (has_file _ _); [|intros [= <-]; lia]. intros H.
  apply rbind_ok in H as (? & _ & H). apply rbind_ok in H as (? & _ & H). apply run_reader_ok in H as [s2 H]. unfold floor_fields in H.
  do 4 (apply bind_ok in H as (? & ? & _ & H)). apply bind_ok in H as (f & ? & _ & H). do 2 (apply bind_ok in H as (? & ? & _ & H)).
  apply bind_ok in H as (? & ? & Hf & H). apply ensure_ok in Hf as [Hf _]. do 5 (apply bind_ok in H as (? & ? & _ & H)).
  apply ret_ok in H as [<- _]. bool_tac. lia.
Qed.

Definition in_file (files : files_of) (t : bytes) : Prop := exists name content, assoc_get name files = Some content /\ part_of t content.

(** What an accepted directory holds: its files, the chain of entries [base ++ new] they are read to, and the
    report of it *)
Record runtime_contents (files : files_of) (torn : bool) (r : runtime_report) (m : manifest_of) (g : genesis_of) (epochs : promises)
    (directory : string) (snap : option bytes) (base new : list anchor_of) : Prop := {
  rc_authority : authority files = Ok (m, g, rr_node r, rr_origin r);
  rc_promises : exists content, assoc_get "promises.gsr"%string files = Some content /\ journal_content content false (promise_frame m <$> epochs);
  rc_epochs : StronglySorted Z.lt epochs.*1 /\ 1 ∈ epochs.*1 /\ Forall (fun x => 0 < x.1 /\ (x.2 = ZERO16 <-> x.1 = 1)) epochs;
  rc_generation : generation files m (rr_node r) = Ok (directory, snap, rr_snapshot_index r);
  rc_base : (match snap with Some raw => load_snapshot raw m g | None => Ok [] end) = Ok base;
  rc_base_length : rr_snapshot_index r = Z.of_nat (length base);
  rc_chain : exists ec pc, assoc_get (directory +:+ "entries.gsr") files = Some ec /\ assoc_get (directory +:+ "proofs.gsr") files = Some pc /\
    chained m epochs snap torn ec pc base new (rr_committed r);
  rc_floor : floor_of files m (rr_node r) (base ++ new) (rr_committed r) = Ok (rr_floor r) /\ 0 <= rr_floor r <= rr_committed r;
  rc_sequence : rr_base r = gn_base g /\
    rr_sequence r = gn_base g + application_count (take (Z.to_nat (rr_committed r)) (base ++ new));
  rc_report : rr_manifest r = hex (mf_digest m) /\ rr_anchors r = hex <$> (a_digest <$> base ++ new) /\
    rr_last_index r = Z.of_nat (length (base ++ new))
}.

Lemma inspect_contents files torn r :
  inspect files torn = Ok r -> exists m g epochs directory snap base new, runtime_contents files torn r m g epochs directory snap base new.
Proof.
  unfold inspect. intros H. apply rbind_ok in H as ([[[m g] node] origin] & Hauth & H). apply rbind_ok in H as (content & Hp & H).
  apply rbind_ok in H as (frames & Hj & H). apply rbind_ok in H as (epochs & Hrows & H). apply rbind_ok in H as ([] & H1 & H). apply guard_ok in H1.
  apply rbind_ok in H as ([[directory snap] idx] & Hgen & H). apply rbind_ok in H as ([anchors committed] & Hc & H).
  apply rbind_ok in H as (floor & Hf & [= <-]). cbn [fst snd] in *. apply of_option_ok in Hp. apply bool_decide_eq_true in H1.
  apply chain_ok in Hc as (base & new & ec & pc & Hbase & Her & Hpr & -> & Hch). apply of_option_ok in Her, Hpr.
  apply promise_rows_ok in Hrows as (rows & -> & -> & Hs & Hr); [|constructor]. apply journal_content_ok in Hj.
  exists m, g, rows, directory, snap, base, new. pose proof (ch_committed _ _ _ _ _ _ _ _ _ Hch) as Hcom.
  split; cbn [rr_manifest rr_anchors rr_last_index rr_floor rr_committed rr_snapshot_index rr_sequence rr_base rr_node rr_origin]; try done.
  - by exists content.
  - destruct (generation_ok _ _ _ _ _ _ Hgen) as [[-> ->] | (raw & -> & -> & Hl & _)]; [by injection Hbase as <-|].
    destruct (load_snapshot_ok _ _ _ _ Hbase) as (_ & Hi & _). by apply Hi.
  - by exists ec, pc.
  - split; [done|]. eapply floor_range; [|exact Hf]. lia.
Qed.


(** ** Agreement *)

(** Two different frames, one of each directory, with the same seal *)
Definition frame_collision (files files' : files_of) : Prop :=
  exists f f', in_file files f /\ in_file files' f' /\ collides (unsealed_frame f) (unsealed_frame f').

Lemma inspect_recorded files torn r :
  inspect files torn = Ok r ->
  exists m anchors frames, rr_manifest r = hex (mf_digest m) /\ rr_anchors r = hex <$> (a_digest <$> anchors) /\
    ancestry 1 ZERO16 (mf_digest m) anchors /\ Forall (in_file files) frames /\
    forall i a, rr_snapshot_index r <= Z.of_nat i -> anchors !! i = Some a -> recorded m frames (Z.of_nat i + 1) (a_previous a) a.
Proof.
  intros (m & g & epochs & directory & snap & base & new & [_ _ _ _ _ Hl (ec & pc & Hec & _ & Hch) _ _ (Hm & Ha & _)])%inspect_contents.
  destruct (ch_entries _ _ _ _ _ _ _ _ _ Hch) as (frames & (head & tail & Hc & _) & Hf). exists m, (base ++ new), frames.
  split_and!; [done|done|apply Hch| |].
  - apply Forall_forall. intros raw Hin. eexists _, ec. split; [exact Hec|]. by eapply frame_part.
  - intros i a Hi. apply follow_recorded; [done|lia].
Qed.

Lemma ancestry_previous e i p l k a b : ancestry e i p l -> l !! k = Some b -> l !! S k = Some a -> a_previous a = a_digest b.
Proof.
  revert e i p k. induction l as [|c l IH]; intros e i p k H Hb Ha; [done|]. cbn [ancestry] in H. destruct H as (_ & _ & _ & _ & _ & H).
  destruct k as [|k]; cbn in Hb, Ha; [|by eapply IH]. injection Hb as <-. destruct l as [|c' l]; [done|]. injection Ha as <-. by destruct H as (_ & _ & _ & _ & ? & _).
Qed.

Lemma same_recorded files files' m m' frames frames' i p p' a a' :
  Forall (in_file files) frames -> Forall (in_file files') frames' -> recorded m frames i p a -> recorded m' frames' i p' a' ->
  a_digest a = a_digest a' -> frame_collision files files' \/ a = a' /\ mf_digest m = mf_digest m'.
Proof.
  intros Hf Hf' (raw & body & r & Hin & Hb & Hr & Hid & _ & _ & ->) (raw' & body' & r' & Hin' & Hb' & Hr' & Hid' & _ & _ & ->) Hd.
  cbn [a_digest] in Hd. rewrite Forall_forall in Hf, Hf'. pose proof (Hf _ Hin) as Hp. pose proof (Hf' _ Hin') as Hp'.
  pose proof (record_body_ok _ _ _ _ _ Hb) as (Eraw & _). pose proof (record_body_ok _ _ _ _ _ Hb') as (Eraw' & _).
  assert (raw = raw' \/ frame_collision files files') as [He|Hc]; [|right|by left].
  { rewrite Eraw, Eraw' in Hd. destruct (seal_binds GSER GSER 1 1 5 5 body body' eq_refl eq_refl Hd) as [He|Hc]; [left; congruence|].
    right. exists raw, raw'. split_and!; [done..|]. by rewrite Eraw, Eraw'. }
  rewrite <- He, Hb in Hb'. injection Hb' as <-. rewrite Hr in Hr'. injection Hr' as <-. rewrite He. split; [done|congruence].
Qed.

(** C29: the digest of an entry pins the chain before it.  If two accepted directories, of any voters, report
    the same digest at an index behind both their snapshots, they were made under the same manifest and
    report the same digests at every index before it, back to the longer snapshot, or two different frames
    in them have the same SHA-256. *)
Theorem runtime_agreement files files' torn torn' r r' i d :
  inspect files torn = Ok r -> inspect files' torn' = Ok r' ->
  rr_anchors r !! i = Some d -> rr_anchors r' !! i = Some d ->
  rr_snapshot_index r <= Z.of_nat i -> rr_snapshot_index r' <= Z.of_nat i ->
  frame_collision files files' \/
  rr_manifest r = rr_manifest r' /\
  forall j, (j <= i)%nat -> rr_snapshot_index r <= Z.of_nat j + 1 -> rr_snapshot_index r' <= Z.of_nat j + 1 -> rr_anchors r !! j = rr_anchors r' !! j.
Proof.
  intros (m & l & fr & Hm & Ha & Hch & Hfr & Hrec)%inspect_recorded (m' & l' & fr' & Hm' & Ha' & Hch' & Hfr' & Hrec')%inspect_recorded.
  rewrite Ha, Ha', !list_lookup_fmap, Hm, Hm'. clear Ha Ha' Hm Hm'. intros Hi Hi' Hs Hs'.
  destruct (l !! i) as [a|] eqn:Ea; [|done]. destruct (l' !! i) as [a'|] eqn:Ea'; [|done]. cbn in Hi, Hi'.
  assert (a_digest a = a_digest a') as Hd by (apply hex_inj; congruence). clear Hi Hi'.
  revert a a' Ea Ea' Hd Hs Hs'. induction i as [|i IH]; intros a a' Ea Ea' Hd Hs Hs'.
  all: destruct (same_recorded _ _ _ _ _ _ _ _ _ _ _ Hfr Hfr' (Hrec _ _ Hs Ea) (Hrec' _ _ Hs' Ea') Hd) as [Hc|[<- Hman]]; [by left|].
  - right. split; [congruence|]. intros j Hj _ _. assert (j = 0%nat) as -> by lia. rewrite !list_lookup_fmap. by rewrite Ea, Ea'.
  - destruct (l !! i) as [b|] eqn:Eb; [|apply lookup_ge_None in Eb; apply lookup_lt_Some in Ea; lia].
    destruct (l' !! i) as [b'|] eqn:Eb'; [|apply lookup_ge_None in Eb'; apply lookup_lt_Some in Ea'; lia].
    assert (a_digest b = a_digest b') as Hb.
    { rewrite <- (ancestry_previous _ _ _ _ _ _ _ Hch Eb Ea), <- (ancestry_previous _ _ _ _ _ _ _ Hch' Eb' Ea'). done. }
    destruct (decide (rr_snapshot_index r <= Z.of_nat i /\ rr_snapshot_index r' <= Z.of_nat i)) as [[H1 H2]|Hn].
    + destruct (IH b b' eq_refl eq_refl Hb H1 H2) as [Hc|[He Hall]]; [by left|right]. split; [done|]. intros j Hj Hj1 Hj2.
      destruct (decide (j = S i)) as [->|Hne]; [by rewrite !list_lookup_fmap, Ea, Ea'|]. apply Hall; [lia|done|done].
    + right. split; [congruence|]. intros j Hj Hj1 Hj2. rewrite !list_lookup_fmap.
      assert (j = S i \/ j = i) as [->| ->] by lia; [by rewrite Ea, Ea'|]. rewrite Eb, Eb'. cbn. by rewrite Hb.
Qed.

(** ** A sample directory

    The voter node-1 of the sample admission after three entries, all certified, the second promise and a
    recovery floor; with and without a snapshot generation that covers the first two. *)

#[local] Transparent be_split sha256.

Definition drop_prefix (directory : string) (files : files_of) : files_of :=
  omap (fun f : string * bytes => option_map (fun name => (name, f.2)) (strip_prefix (directory +:+ "/") f.1)) files.
Definition put_file (name : string) (content : bytes) (files : files_of) : files_of := assoc_set name content files.

Definition bootstrapped : files_of := Eval vm_compute in drop_prefix "node-1" (make 41 2).
Definition runtime_manifest : bytes := default [] (assoc_get "manifest.gsr"%string bootstrapped).
Definition runtime_steps : list step := steps runtime_manifest 1 1 (md runtime_manifest) [1; 9; 10].
Definition second_promise : bytes := framed 4 (md runtime_manifest ++ put_text "node-1" ++ be8 2 ++ incarnation).
Definition runtime_promises : bytes := promises_bytes runtime_manifest "node-1" ++ second_promise.
Definition journal_with (kind : Z) (frames : list bytes) : bytes := header_bytes runtime_manifest "node-1" kind ++ concat frames.
Definition floor_file (index : Z) (digest : bytes) : bytes :=
  framed 12 (md runtime_manifest ++ put_text "node-1" ++ be8 index ++ digest ++ be4 2 ++ put_text "node-1" ++ put_text "node-2").
Definition step_seal (n : nat) : bytes := seal_of (default [] (sp_entry <$> runtime_steps !! n)).

Definition runtime_files : files_of :=
  Eval vm_compute in
    put_file "recovery-floor.gsr" (floor_file 1 (step_seal 0))
      (put_file "proofs.gsr" (journal_with 6 (sp_proof <$> runtime_steps))
        (put_file "entries.gsr" (journal_with 5 (sp_entry <$> runtime_steps))
          (put_file "promises.gsr" runtime_promises bootstrapped))).

Definition runtime_generation : bytes := replicate 16 Byte.x66.
Definition runtime_snapshot : bytes :=
  snapshot_bytes 41 runtime_manifest 42 (sp_anchor <$> take 2 runtime_steps) (default [] (sp_proof <$> runtime_steps !! 1%nat)) (later_app 41).
Definition generation_seal : bytes :=
  framed 11 (md runtime_manifest ++ put_text "node-1" ++ runtime_generation ++ seal_of runtime_snapshot
             ++ seal_of (journal_with 5 []) ++ seal_of (journal_with 6 [])).
Definition selector : bytes :=
  framed 10 (md runtime_manifest ++ put_text "node-1" ++ put_text "generation-a" ++ runtime_generation ++ seal_of generation_seal ++ byte1 1).

(** The same voter with the first two entries moved into a snapshot; without its floor *)
Definition snapshot_files : files_of :=
  Eval vm_compute in
    put_file "promises.gsr" runtime_promises bootstrapped ++
    [("current.gsr", selector); ("generation-a/generation.gsr", generation_seal); ("generation-a/snapshot.gsr", runtime_snapshot);
     ("generation-a/entries.gsr", journal_with 5 (drop 2 (sp_entry <$> runtime_steps)));
     ("generation-a/proofs.gsr", journal_with 6 (drop 2 (sp_proof <$> runtime_steps)))]%string.

Definition no_report : runtime_report := RuntimeReport EmptyString 0 0 0 0 0 0 EmptyString EmptyString [] 0.
Definition runtime_result : runtime_report := Eval vm_compute in default no_report (ok_value (inspect runtime_files false)).
Definition snapshot_result : runtime_report := Eval vm_compute in default no_report (ok_value (inspect snapshot_files false)).
Lemma runtime_inspected : inspect runtime_files false = Ok runtime_result.
Proof. vm_compute. reflexivity. Qed.
Lemma snapshot_inspected : inspect snapshot_files false = Ok snapshot_result.
Proof. vm_compute. reflexivity. Qed.


(** The second and the third digest of the two directories are the same, or a collision is found. *)
Lemma runtime_agreement_witness :
  frame_collision runtime_files snapshot_files \/
  rr_manifest runtime_result = rr_manifest snapshot_result /\ rr_anchors runtime_result !! 1%nat = rr_anchors snapshot_result !! 1%nat.
Proof.
  destruct (runtime_agreement _ _ _ _ _ _ 2%nat (default EmptyString (rr_anchors runtime_result !! 2%nat)) runtime_inspected snapshot_inspected)
    as [Hc|[Hm Hj]]; [reflexivity|reflexivity|vm_compute; discriminate|vm_compute; discriminate|left; exact Hc|].
  right. split; [exact Hm|]. apply Hj; [lia|vm_compute; discriminate|vm_compute; discriminate].
Defined.

Definition manifest_of_authority (x : result (manifest_of * genesis_of * string * Z)) : manifest_of :=
  match x with Ok y => y.1.1.1 | Err _ => ManifestOf [] [] [] EmptyString EmptyString EmptyString 0 EmptyString 0 [] end.
Definition runtime_authority : manifest_of := manifest_of_authority (authority runtime_files).
Definition runtime_entries : bytes := Eval vm_compute in default [] (assoc_get "entries.gsr"%string runtime_files).
Definition runtime_frames : list bytes := Eval vm_compute in sp_entry <$> runtime_steps.

(** Cut one byte short, the journal has all but its last entry. *)
Lemma torn_journal_witness :
  journal runtime_entries 5 runtime_authority "node-1" false = Ok runtime_frames /\
  exists head k, runtime_entries = head ++ concat runtime_frames /\
    journal (take (length runtime_entries - 1) runtime_entries) 5 runtime_authority "node-1" true = Ok (take k runtime_frames) /\
    (k < length runtime_frames)%nat.
Proof.
  assert (journal runtime_entries 5 runtime_authority "node-1" false = Ok runtime_frames) as Hj by (vm_compute; reflexivity).
  split; [exact Hj|]. destruct (torn_journal _ _ _ _ _ Hj) as (head & Hr & Hh & _ & Hcut); [lia|].
  destruct (Hcut (length runtime_entries - 1)%nat) as (k & Hk & H1 & _).
  { pose proof (f_equal length Hr) as Hl. rewrite length_app in Hl.
    assert (1 <= length (concat runtime_frames))%nat by (vm_compute; lia). lia. }
  exists head, k. split; [exact Hr|]. split; [exact Hk|]. destruct (decide (k < length runtime_frames)%nat) as [Hlt|Hge]; [exact Hlt|exfalso].
  rewrite take_ge in H1 by lia. pose proof (f_equal length Hr) as Hl. rewrite length_app in Hl.
  assert (1 <= length runtime_entries)%nat by (vm_compute; lia). lia.
Defined.

(** A floor above the committed index and a journal cut inside an entry are refused. *)
Example high_floor_refused :
  inspect (put_file "recovery-floor.gsr" (floor_file 4 (step_seal 2)) runtime_files) false = Err (ValueError "floor proof").
Proof. vm_compute. reflexivity. Qed.
Example cut_refused :
  inspect (put_file "entries.gsr" (take (length runtime_entries - 1) runtime_entries) runtime_files) false
  = Err (ValueError "incomplete journal payload").
Proof. vm_compute. reflexivity. Qed.
