(* ===== verification/OfflineFormat.v ===== *)
(** * The offline inspection of a 1.1 admission ([scripts/v50/offline_format.py])

    [bootstrap] inspects the coordinator's directory and the targets it names, at any phase; [cleanup] an
    aborted operation while its paths are being deleted; [replacement] the preparation of a replacement
    voter.  [at_path] gives what is found at an absolute path, links not followed; a directory that cannot
    be found lists nothing.  Members of a directory are in the order of their names. *)

From Stdlib Require Import Ascii.
From stdpp Require Import base gmap sets strings list sorting.
From S2P Require Import Prelude Bytes Sha256 Wire Files Json ReplicaFrames TextCodes Schema AdmissionFields Admission.
Import StateNotations ResultNotations.
Local Open Scope py_scope.
Local Open Scope Z_scope.

(** ** The file system *)

Inductive fs_entry : Type :=
  | RegularFile (content : bytes) (links : Z)
  | Folder (members : list (string * fs_entry))
  | Link (target : option fs_entry)
  | OtherFile.

(** What a path leads to, a final link followed *)
Definition follow (e : option fs_entry) : option fs_entry := match e with Some (Link t) => t | _ => e end.

(** [directory.rglob('*')] with the paths relative to the directory *)
Fixpoint entries_below (prefix : string) (e : fs_entry) : list (string * fs_entry) :=
  match e with
  | Folder members =>
      (fix each (members : list (string * fs_entry)) : list (string * fs_entry) :=
         match members with
         | [] => []
         | (name, x) :: members' => (prefix +:+ name, x) :: entries_below (prefix +:+ name +:+ "/") x ++ each members'
         end) members
  | _ => []
  end.

Fixpoint regular_files (l : list (string * fs_entry)) : result files_of :=
  match l with
  | [] => Ok []
  | (name, e) :: l' =>
      match e with
      | Link _ => Err (ValueError "symlink in offline evidence")
      | RegularFile content links =>
          do! need (links =? 1) "aliased evidence file" in
          let! more := regular_files l' in
          Ok ((name, content) :: more)
      | _ => regular_files l'
      end
  end.

(** ** The rows of an operation journal *)

Record journal_entry := JournalEntry {
  je_plan : bytes; je_sequence : Z; je_previous : bytes; je_phase : Z; je_preparations : list bytes; je_receipt : bytes; je_raw : bytes }.

Definition entry_fields (raw : bytes) : reader journal_entry :=
  let* plan := take_n 32 in
  let* sequence := number_q in
  let* previous := take_n 32 in
  let* phase := number_B in
  let* preparations := repeat_reader 3 (take_n 32) in
  let* receipt := take_n 32 in
  ret (JournalEntry plan sequence previous phase preparations receipt raw).

Fixpoint journal_entries (fuel : nat) (raw : bytes) : result (list journal_entry) :=
  match fuel with
  | O => Err (AssertionError "fuel")
  | S fuel' =>
      match raw with
      | [] => Ok []
      | _ =>
          do! need (48 <=? Z.of_nat (length raw)) "torn operation header" in
          let size := 48 + to_signed 4 (be_join (take 4 (drop 12 raw))) in
          do! need ((48 <? size) && (size <=? META) && (size <=? Z.of_nat (length raw))) "torn operation row" in
          let encoded := take (Z.to_nat size) raw in
          let! row := read_record 21 (entry_fields encoded) encoded in
          let! more := journal_entries fuel' (drop (Z.to_nat size) raw) in
          Ok (row :: more)
      end
  end.

Fixpoint check_chain (index : Z) (previous : bytes) (rows : list journal_entry) : result unit :=
  match rows with
  | [] => Ok tt
  | row :: rows' =>
      do! need ((je_sequence row =? index) && bool_decide (je_previous row = previous)) "operation row chain" in
      check_chain (index + 1) (seal_of (je_raw row)) rows'
  end.

Definition operation_rows (raw : bytes) : result (list journal_entry) :=
  let! result := journal_entries (S (length raw)) raw in
  do! need ((0 <? length result)%nat && (length result <=? 5)%nat) "invalid journal count" in
  do! check_chain 1 ZERO32 result in
  Ok result.

(** ** Reports *)

Inductive offline_report : Type :=
  | Bootstrap (phase : Z) (sealed_nodes : list string) (plan_digest manifest_digest : string) (sequence : option Z)
  | Cleanup (deleted_prefix deletion_count : nat) (plan_digest : string)
  | Replacement (phase : Z) (plan_digest : string).

(** The elements Python iterates over; the elements of a text are texts *)
Definition iterate (v : json) : result (list json) :=
  match v with
  | JArray l => Ok l
  | JObject m => Ok ((fun kv : string * json => JString kv.1) <$> m)
  | JString s => Ok (if is_empty s then [] else [JString s])
  | _ => Err TypeError
  end.
(** [v.encode()] needs a text. *)
Definition encodable (v : json) : result string := match v with JString s => Ok s | _ => Err AttributeError end.
Definition hashable (v : json) : bool := match v with JArray _ | JObject _ => false | _ => true end.

Section World.
Context (at_path : string -> option fs_entry).

Definition path_exists (path : string) : bool := bool_decide (is_Some (follow (at_path path))).
Definition read_file (path : string) : result bytes :=
  match follow (at_path path) with Some (RegularFile content _) => Ok content | _ => Err OSError end.
Definition files (path : string) : result files_of :=
  match follow (at_path path) with Some e => regular_files (entries_below "" e) | None => Ok [] end.
(** [files(target) if target.exists() else {}] *)
Definition observed_at (path : string) : result files_of := if path_exists path then files path else Ok [].
Definition has_file (name : string) (l : files_of) : bool := bool_decide (is_Some (assoc_get name l)).

(** ** [cleanup] *)

(** [str(Path(text))] *)
Definition path_str (text : string) : string :=
  let parts := filter (fun p => p <> EmptyString /\ p <> "."%string) (split_char slash text) in
  let root := if starts_with "//" text && negb (starts_with "///" text) then "//"%string
              else if starts_with "/" text then "/"%string else EmptyString in
  match root +:+ join "/" parts with EmptyString => "."%string | s => s end.
(** [path.is_absolute() and str(path) == os.path.normpath(str(path))]: no parent steps *)
Definition canonical_path (text : string) : bool :=
  starts_with "/" text && negb (bool_decide (".."%string ∈ split_char slash text)).
Definition child_path (directory name : string) : string :=
  if bool_decide (directory = "/"%string) then "/" +:+ name else directory +:+ "/" +:+ name.

(** [Path(text).exists()] *)
Definition exists_there (text : string) : bool := path_exists (path_str text).
Fixpoint missing_prefix (delete : list string) : nat :=
  match delete with
  | [] => 0
  | p :: rest => if exists_there p then 0 else S (missing_prefix rest)
  end.

(** The last two rows of a journal *)
Definition last_two (rows : list journal_entry) : option journal_entry * option journal_entry :=
  match rev rows with
  | a :: b :: _ => (Some b, Some a)
  | [a] => (None, Some a)
  | [] => (None, None)
  end.

(** An aborted operation: its rows end in the abort of a preparation. *)
Definition abort_follows (before : option journal_entry) (row : journal_entry) : bool :=
  match before with
  | Some b => ((je_phase b =? 1) || (je_phase b =? 2)) && bool_decide (je_preparations row = je_preparations b)
              && bool_decide (je_receipt row = ZERO32)
  | None => false
  end.

Definition check_cleanup_journal (operation : string) (plan previous : bytes) (prefix : nat) : result unit :=
  let path := child_path operation "operation.gsr" in
  if negb (path_exists path) then Ok tt
  else
    let! raw := read_file path in
    let! parsed := operation_rows raw in
    match last_two parsed with
    | (before, Some tail) =>
        if je_phase tail =? 5 then
          need (abort_follows before tail && bool_decide (je_plan tail = plan) && bool_decide (je_previous tail = previous))
            "cleanup abort decision"
        else
          need ((prefix =? 0)%nat && ((je_phase tail =? 1) || (je_phase tail =? 2)) && bool_decide (seal_of (je_raw tail) = previous))
            "cleanup before abort"
    | (_, None) => Err IndexError
    end.

(** The bytes of a file as the cleanup recorded them: the journal without its abort *)
Definition recorded_bytes (operation path : string) (data : bytes) : result bytes :=
  if bool_decide (path = child_path operation "operation.gsr") then
    let! parsed := operation_rows data in
    match last parsed with
    | Some tail => Ok (if je_phase tail =? 5 then take (length data - length (je_raw tail)) data else data)
    | None => Err IndexError
    end
  else Ok data.

Definition check_cleanup_path (operation : string) (names missing : list string) (entry : json) : result unit :=
  do! exact entry ["path"; "kind"; "size"; "digest"; "owner"]%string in
  let! p := get "path" entry in
  let! text := encodable p in
  do! need (canonical_path text) "noncanonical cleanup path" in
  let path := path_str text in
  if bool_decide (path ∈ missing) then Ok tt
  else
    let! kind := get "kind" entry in
    let! size := get "size" entry in
    let! digest := get "digest" entry in
    match at_path path with
    | Some (Link _) => Err (ValueError "symlink in cleanup inventory")
    | found =>
        if equals_text kind "directory" then
          match found with
          | Some (Folder members) =>
              do! need (equals_int size 0 && equals_text digest (hex ZERO32)) "cleanup directory changed" in
              need (forallb (fun name => bool_decide (child_path path name ∈ names)
                                         || bool_decide (child_path path name = child_path operation "cleanup.gsr")) members.*1)
                "unknown cleanup member"
          | _ => Err (ValueError "cleanup directory changed")
          end
        else
          match found with
          | Some (RegularFile data links) =>
              do! need (equals_text kind "file" && (links =? 1)) "cleanup file changed" in
              let! recorded := recorded_bytes operation path data in
              need (equals_int size (Z.of_nat (length recorded)) && equals_text digest (hex (sha256 recorded))) "cleanup bytes changed"
          | _ => Err (ValueError "cleanup file changed")
          end
    end.

Definition cleanup_fields : reader (bytes * bytes * json) :=
  let* plan := take_n 32 in
  let* previous := take_n 32 in
  let* text := AdmissionFields.get_blob META in
  let* d := liftr (json_value text) in
  ret (plan, previous, d).

(** A [deletePaths] that is no list raises in Python as well, in one way or another. *)
Definition cleanup (root : string) : result offline_report :=
  let operation := child_path root "operation" in
  let! raw := read_file (child_path operation "cleanup.gsr") in
  let! x := read_record 22 cleanup_fields raw in
  let '(plan, previous, descriptor) := x in
  do! exact descriptor ["operation"; "inventory"; "deletePaths"]%string in
  let! o := get "operation" descriptor in
  do! path_binding o in
  let! planned := get_text "path" o in
  do! need (bool_decide (planned = operation)) "cleanup relocated" in
  let! i := get "inventory" descriptor in
  let! entries := iterate i in
  let! paths := map_all (get "path") entries in
  do! guard (forallb hashable paths) TypeError in
  let! names := map_all encodable paths in
  do! need (bool_decide (names = sorted_set names)) "cleanup inventory order" in
  let! d := get "deletePaths" descriptor in
  let! l := as_list d in
  do! guard (forallb hashable l) TypeError in
  do! need (bool_decide (NoDup (dumps ∘ numbers <$> l))) "cleanup deletion ownership" in
  let! owners := map_all (get "owner") entries in
  let delete := omap (fun v => match v with JString s => Some s | _ => None end) l in
  let owned := (filter (fun x : string * json => equals_text x.2 (hex plan) = true) (zip names owners)).*1 in
  do! need (forallb is_string l && same_set delete owned) "cleanup deletion ownership" in
  do! need (forallb (fun v => equals_text v "source" || equals_text v (hex plan)) owners) "cleanup owner" in
  let prefix := missing_prefix delete in
  do! need (forallb exists_there (drop prefix delete)) "cleanup non-prefix deletion" in
  do! need (dependency_order delete) "cleanup dependency order" in
  let! final := of_option (last delete) IndexError in
  do! need (bool_decide (final = operation)) "cleanup coordinator last" in
  do! check_cleanup_journal operation plan previous prefix in
  do! check_all (check_cleanup_path operation names (take prefix delete)) entries in
  Ok (Cleanup prefix (length delete) (hex (seal_of raw))).

(** ** [bootstrap] *)

Definition ALLOWED : list string :=
  ["operation.lock"; "plan.gsr"; "operation.gsr"; "receipt.pending.gsr"; "receipt.gsr"; "cleanup.gsr"]%string.
Definition BOOTSTRAP_FILES : list string :=
  ["bootstrap-prepared.gsr"; "bootstrap-seal.gsr"; "bootstrap-seal.pending.gsr"]%string.
Definition subset_of (a b : list string) : bool := forallb (fun x => bool_decide (x ∈ b)) a.

(** [Path(value)], as its text *)
Definition path_at (value : json) : result string := let! text := as_text value in Ok (path_str text).
(** [Path(local['target']['path'])] *)
Definition target_path (local : json) : result string :=
  let! target := get "target" local in
  let! t := get "path" target in
  path_at t.
(** [d.get(name) == raw] where [name] need not be there *)
Definition is_file (name : string) (raw : bytes) (l : files_of) : bool := bool_decide (assoc_get name l = Some raw).
(** A file that may be absent: the check holds of it where it is there. *)
Definition when_file (name : string) (l : files_of) (check : bytes -> result unit) : result unit :=
  match assoc_get name l with Some raw => check raw | None => Ok tt end.

Record plan_parts := PlanParts {
  pp_raw : bytes; pp_descriptor : json; pp_manifest : bytes; pp_source : bytes; pp_length : Z; pp_inventories : list (list member) }.
Definition plan_part_fields (raw : bytes) : reader plan_parts :=
  let* version := number_H in
  do* needs (version =? 1) "plan version" in
  let* text := AdmissionFields.get_blob META in
  let* descriptor := liftr (json_value text) in
  let* manifest_raw := AdmissionFields.get_blob META in
  let* source_raw := AdmissionFields.get_blob META in
  let* length := number_q in
  let* inventories := repeat_reader 3 inventory in
  ret (PlanParts raw descriptor manifest_raw source_raw length inventories).
Definition plan_parts_of (raw : bytes) : result plan_parts := read_record 17 (plan_part_fields raw) raw.

Definition preparation_of (p : plan_parts) (x : json * list member) : result bytes :=
  let! node := encodable x.1 in
  Ok (framed 18 (seal_of (pp_raw p) ++ seal_of (pp_manifest p) ++ put_text node ++ inventory_digest x.2)).
Definition receipt_of (p : plan_parts) (preparations : list bytes) : bytes :=
  framed 19 (put_blob (pp_raw p) ++ be_split 4 3 ++ concat (put_blob <$> preparations)).

(** The rows from [index] on; [before] is the row in front of them. *)
Fixpoint check_transitions (plan_digest : bytes) (preparations : list bytes) (receipt_raw : bytes) (index : Z)
  (before : option journal_entry) (rows : list journal_entry) : result unit :=
  match rows with
  | [] => Ok tt
  | row :: rows' =>
      do! need (bool_decide (je_plan row = plan_digest)) "operation plan binding" in
      do! (if je_phase row =? 5 then need (abort_follows before row) "abort transition"
           else need ((je_phase row =? index) && (index <=? 4)
                      && bool_decide (je_preparations row = if index =? 1 then replicate 3 ZERO32 else seal_of <$> preparations)
                      && bool_decide (je_receipt row = if index =? 4 then seal_of receipt_raw else ZERO32)) "publication transition") in
      check_transitions plan_digest preparations receipt_raw (index + 1) (Some row) rows'
  end.

(** A file of a target the inventory names: complete, it has the planned bytes. *)
Definition check_payload_file (inv : list member) (x : string * bytes) : result unit :=
  match find (fun v => bool_decide (iv_name v = x.1)) inv with
  | Some v =>
      let size := Z.of_nat (length x.2) in
      need ((iv_kind v =? 1) && (size <=? iv_size v) && (negb (size =? iv_size v) || bool_decide (sha256 x.2 = iv_digest v)))
        "initial payload binding"
  | None => Ok tt
  end.
(** A planned file is there with its bytes. *)
Definition payload_complete (observed : files_of) (v : member) : bool :=
  match assoc_get (iv_name v) observed with
  | Some raw => (Z.of_nat (length raw) =? iv_size v) && bool_decide (sha256 raw = iv_digest v)
  | None => false
  end.

(** The genesis of a target, once it is complete *)
Definition target_genesis (p : plan_parts) (phase : Z) (node : string) (observed : files_of) : result (option genesis_of) :=
  match assoc_get "genesis.gsr"%string observed with
  | None => Ok None
  | Some raw =>
      if negb (Z.of_nat (length raw) =? pp_length p) then Ok None
      else
        let! g := genesis raw in
        let! m := manifest (pp_manifest p) g in
        let! _ := plan (pp_raw p) m g (pp_manifest p) in
        do! need (bool_decide (gn_source g = pp_source p)) "source provenance binding" in
        do! (if 2 <=? phase then initial_root ((fun x : string * bytes => (node_file node x.1, x.2)) <$> observed) node m else Ok tt) in
        Ok (Some g)
  end.

Definition check_seal_file (phase : Z) (node : string) (receipt_raw raw : bytes) : result unit :=
  need ((phase =? 4) && bool_decide (raw = framed 20 (put_text node ++ put_blob receipt_raw))) "seal precedes committed decision".

(** One target: whether it is sealed, and its genesis *)
Definition check_target (p : plan_parts) (phase : Z) (receipt_raw : bytes) (x : string * json * list member * bytes)
  : result (bool * option genesis_of) :=
  let '(node, local, inv, preparation) := x in
  let! path := target_path local in
  let! observed := observed_at path in
  do! need (subset_of observed.*1 ((iv_name <$> inv) ++ BOOTSTRAP_FILES)) "unknown target member" in
  do! check_all (check_payload_file inv) observed in
  do! (if 2 <=? phase then
         do! need (forallb (payload_complete observed) inv) "prepared payload missing" in
         need (is_file "bootstrap-prepared.gsr" preparation observed) "prepared node receipt missing"
       else Ok tt) in
  do! when_file "bootstrap-prepared.gsr" observed (fun raw => need (bool_decide (raw = preparation)) "local preparation changed") in
  let! g := target_genesis p phase node observed in
  do! when_file "bootstrap-seal.gsr" observed (check_seal_file phase node receipt_raw) in
  do! when_file "bootstrap-seal.pending.gsr" observed (check_seal_file phase node receipt_raw) in
  Ok (has_file "bootstrap-seal.gsr" observed, g).

(** The source of an import: unchanged while it is there, and there until the decision is published *)
Definition check_source (p : plan_parts) (phase : Z) (genesis : option genesis_of) : result unit :=
  match genesis with
  | None => Ok tt
  | Some _ =>
      let! src := get "source" (pp_descriptor p) in
      if is_null src then Ok tt
      else
        let! t := get "path" src in
        let! path := path_at t in
        if path_exists path then
          let! s := run_reader source (pp_source p) in
          let! observed := files path in
          do! need (same_set observed.*1 (iv_name <$> src_entries s)) "source member set" in
          need (forallb (payload_complete observed) (src_entries s)) "source changed"
        else need (3 <=? phase) "uncommitted source lost"
  end.

(** The files of the coordinator agree with the phase of the journal. *)
Definition check_decision (phase : Z) (receipt_raw : bytes) (operation : files_of) : result unit :=
  do! need (negb (has_file "cleanup.gsr" operation) || (phase =? 1) || (phase =? 2)) "cleanup after commit" in
  do! when_file "receipt.gsr" operation (fun raw =>
        need (((phase =? 3) || (phase =? 4)) && bool_decide (raw = receipt_raw)) "decision publication") in
  do! when_file "receipt.pending.gsr" operation (fun raw => need ((phase =? 3) && bool_decide (raw = receipt_raw)) "pending receipt") in
  if phase =? 4 then need (is_file "receipt.gsr" receipt_raw operation) "committed receipt missing" else Ok tt.

Definition journal_of (name : string) (operation : files_of) : result (list journal_entry) :=
  match assoc_get name operation with Some raw => operation_rows raw | None => Ok [] end.
(** [rows[-1]['phase'] if rows else 0] *)
Definition phase_of (rows : list journal_entry) : Z := match last rows with Some row => je_phase row | None => 0 end.

Definition bootstrap (root : string) : result offline_report :=
  let path := child_path root "operation" in
  let! operation := files path in
  do! need (subset_of operation.*1 ALLOWED) "operation inventory" in
  let! lock := file_at operation "operation.lock" in
  do! need (bool_decide (lock = [])) "operation inventory" in
  let! raw := file_at operation "plan.gsr" in
  let! p := plan_parts_of raw in
  let! o := get "operation" (pp_descriptor p) in
  let! planned := get "path" o in
  do! need (equals_text planned path) "operation path" in
  let! rows := journal_of "operation.gsr" operation in
  let phase := phase_of rows in
  let! r := get "replicas" (pp_descriptor p) in
  let! replicas := iterate r in
  let! named := map_all (get "node") replicas in
  let inventories := pp_inventories p in
  let! preparations := map_all (preparation_of p) (zip named inventories) in
  let receipt_raw := receipt_of p preparations in
  do! check_transitions (seal_of raw) preparations receipt_raw 1 None rows in
  if phase =? 5 then cleanup root
  else
    do! check_decision phase receipt_raw operation in
    let! nodes := map_all encodable (take (length preparations) named) in
    let! targets := map_all (check_target p phase receipt_raw) (zip (zip (zip nodes replicas) inventories) preparations) in
    let genesis := last (omap snd targets) in
    do! check_source p phase genesis in
    let sealed := (filter (fun x : string * (bool * option genesis_of) => x.2.1 = true) (zip nodes targets)).*1 in
    Ok (Bootstrap phase sealed (hex (seal_of raw)) (hex (seal_of (pp_manifest p))) (gn_base <$> genesis)).

(** ** [replacement] *)

Definition inventory_of_files (l : files_of) : list member :=
  (fun x : string * bytes => Member x.1 1 (Z.of_nat (length x.2)) (sha256 x.2)) <$> sorted_files l.

Definition replacement_parts : reader (bytes * json * list member) :=
  let* version := number_H in
  do* needs (version =? 1) "replacement version" in
  let* receipt_raw := AdmissionFields.get_blob META in
  let* text := AdmissionFields.get_blob META in
  let* descriptor := liftr (json_value text) in
  let* inv := inventory in
  ret (receipt_raw, descriptor, inv).

Fixpoint check_replacement_rows (plan_digest : bytes) (index : Z) (rows : list journal_entry) : result unit :=
  match rows with
  | [] => Ok tt
  | row :: rows' =>
      do! need (bool_decide (je_plan row = plan_digest) && (je_phase row =? index)
                && bool_decide (je_preparations row = replicate 3 ZERO32) && bool_decide (je_receipt row = ZERO32)) "replacement preparation only" in
      check_replacement_rows plan_digest (index + 1) rows'
  end.

Definition rebuilding_identity (m : manifest_of) (node : json) : reader unit :=
  let* d := take_n 32 in do* needs (bool_decide (d = mf_digest m)) "replacement cannot vote" in
  let* n := get_string 64 in do* needs (equals_text node n) "replacement cannot vote" in
  let* b := number_B in needs (b =? 1) "replacement cannot vote".
Definition rebuilding_marker (m : manifest_of) (node : json) : reader unit :=
  let* d := take_n 32 in do* needs (bool_decide (d = mf_digest m)) "replacement rebuilding marker" in
  let* n := get_string 64 in needs (equals_text node n) "replacement rebuilding marker".
Definition completion_fields (receipt_raw : bytes) (node : json) : reader unit :=
  let* n := get_string 64 in do* needs (equals_text node n) "replacement completion provenance" in
  let* r := AdmissionFields.get_blob META in needs (bool_decide (r = receipt_raw)) "replacement completion provenance".

(** A complete preparation: the genesis and manifest of the source, and the seal of the admission *)
Definition check_completion (source_files observed : files_of) (receipt_raw : bytes) (node : json) : result unit :=
  let bad := "replacement preparation incomplete"%string in
  do! need (has_file "node.gsr" observed) bad in
  let! a := file_at observed "genesis.gsr" in
  let! a' := file_at source_files "genesis.gsr" in
  do! need (bool_decide (a = a')) bad in
  let! b := file_at observed "manifest.gsr" in
  let! b' := file_at source_files "manifest.gsr" in
  do! need (bool_decide (b = b')) bad in
  let! seal := file_at observed "bootstrap-seal.gsr" in
  read_record 20 (completion_fields receipt_raw node) seal.

Definition replacement (root : string) : result offline_report :=
  let! operation := files (child_path root "replacement-operation") in
  let! raw := file_at operation "replacement-plan.gsr" in
  let! x := read_record 23 replacement_parts raw in
  let '(receipt_raw, descriptor, inv) := x in
  do! exact descriptor ["operation"; "source"; "configuration"; "manifestDigest"; "genesisDigest"; "sourceInventoryDigest"]%string in
  let! s := get "source" descriptor in
  let! sp := get "path" s in
  let! source_path := path_at sp in
  let! source_files := files source_path in
  do! need (bool_decide (inv = inventory_of_files source_files)) "replacement source inventory" in
  let! sd := get "sourceInventoryDigest" descriptor in
  do! need (equals_text sd (hex (inventory_digest inv))) "replacement inventory digest" in
  let! genesis_raw := file_at source_files "genesis.gsr" in
  let! g := genesis genesis_raw in
  let! manifest_raw := file_at source_files "manifest.gsr" in
  let! m := manifest manifest_raw g in
  let! body := record_of receipt_raw 19 in
  let! original_plan := run_reader (AdmissionFields.get_blob META) body in
  let! p := plan original_plan m g manifest_raw in
  let! _ := receipt receipt_raw original_plan m p.2 in
  let! parsed := journal_of "replacement.gsr" operation in
  do! need ((length parsed <=? 2)%nat) "replacement cannot commit a new group" in
  do! check_replacement_rows (seal_of raw) 1 parsed in
  let! local := get "configuration" descriptor in
  let! path := target_path local in
  let! observed := observed_at path in
  let! node := get "node" local in
  do! when_file "node.gsr" observed (fun identity =>
        do! read_record 2 (rebuilding_identity m node) identity in
        let! marker := file_at observed "rebuilding.gsr" in
        read_record 13 (rebuilding_marker m node) marker) in
  do! (if (length parsed =? 2)%nat then check_completion source_files observed receipt_raw node else Ok tt) in
  Ok (Replacement (phase_of parsed) (hex (seal_of raw))).
End World.
