(* ===== verification/OfflineProperties.v ===== *)
(** * Properties of the offline inspection

    A committed report refines the admission records, and a cleanup report accounts for every path. *)

From Stdlib Require Import Ascii.
From stdpp Require Import base gmap sets strings list sorting.
From S2P Require Import Prelude Bytes Sha256 Wire Files Json ReplicaFrames TextCodes Schema AdmissionFields Admission AdmissionFixture AdmissionProofs OfflineFormat.
Import StateNotations ResultNotations.
Local Open Scope py_scope.
Local Open Scope Z_scope.

(** ** A sample file system *)

Definition offline_admission : files_of := Eval vm_compute in make 0 2.
Definition offline_file (name : string) : bytes := default [] (assoc_get name offline_admission).
Definition plain (x : string * bytes) : string * fs_entry := (x.1, RegularFile x.2 1).
(** The files below a directory of the evidence *)
Definition below_directory (directory : string) : files_of :=
  omap (fun f : string * bytes => (fun name => (name, f.2)) <$> strip_prefix (directory +:+ "/") f.1) (sorted_files offline_admission).
Definition folder_of (l : files_of) : fs_entry := Folder (plain <$> sorted_files l).
Definition coordinator (journal : bytes) : files_of :=
  [("operation.lock", []); ("plan.gsr", offline_file "plan.gsr"); ("operation.gsr", journal); ("receipt.gsr", offline_file "receipt.gsr")]%string.
Definition world_of (journal : bytes) (path : string) : option fs_entry :=
  assoc_get path ([("/fixture/operation", folder_of (coordinator journal)); ("/fixture/node-1", folder_of (below_directory "node-1"));
                   ("/fixture/node-2", folder_of (below_directory "node-2")); ("/fixture/node-3", folder_of (below_directory "node-3"))]%string).

(** ** The journal of the coordinator *)

(** A row that aborts the operation: the preparations are those of the row before. *)
Definition abort_frame (plan_raw : bytes) (index : Z) (previous : bytes) (preparations : list bytes) : bytes :=
  framed 21 (seal_of plan_raw ++ be8 index ++ previous ++ byte1 5 ++ concat preparations ++ ZERO32).
(** The rows of the given phases, from row [index] on *)
Fixpoint phase_rows (plan_raw receipt_raw : bytes) (preps : list bytes) (index : Z) (previous : bytes) (carried : list bytes) (phases : list Z)
  : list bytes :=
  match phases with
  | [] => []
  | phase :: phases' =>
      let carried' := if phase =? 5 then carried else (fun p => if phase =? 1 then ZERO32 else seal_of p) <$> preps in
      let row := if phase =? 5 then abort_frame plan_raw index previous carried else journal_row plan_raw preps receipt_raw phase previous in
      row :: phase_rows plan_raw receipt_raw preps (index + 1) (seal_of row) carried' phases'
  end.
Definition journal_bytes (plan_raw receipt_raw : bytes) (preps : list bytes) (phases : list Z) : bytes :=
  concat (phase_rows plan_raw receipt_raw preps 1 ZERO32 [] phases).

(** *** An abort in the middle *)

Definition sample_preps : list bytes :=
  Eval vm_compute in (fun node => offline_file (node_file node "bootstrap-prepared.gsr")) <$> ["node-1"; "node-2"; "node-3"]%string.
Definition resumed_journal : bytes :=
  journal_bytes (offline_file "plan.gsr") (offline_file "receipt.gsr") sample_preps [1; 5; 3; 4].

(** A journal that prepares, aborts, and then commits: an aborted operation is resumed. *)
Definition resumed_rows : list journal_entry := default [] (ok_value (operation_rows resumed_journal)).
Example aborted_commit_accepted :
  operation_rows resumed_journal = Ok resumed_rows /\ (je_phase <$> resumed_rows) = [1; 5; 3; 4] /\
  check_transitions (seal_of (offline_file "plan.gsr")) sample_preps (offline_file "receipt.gsr") 1 None resumed_rows = Ok tt.
Proof. vm_compute. by split_and!. Qed.

(** *** Spelling of cleanup paths *)

(** [Path] drops empty and single-dot parts before the spelling is compared. *)
Example spelling_lost :
  canonical_path "/fixture//operation/./plan.gsr" = true /\ path_str "/fixture//operation/./plan.gsr" = "/fixture/operation/plan.gsr"%string.
Proof. by split. Qed.

#[local] Opaque be_split sha256.

(** *** The rows the inspection reads *)

Definition entry_frame (row : journal_entry) : bytes :=
  framed 21 (je_plan row ++ be8 (je_sequence row) ++ je_previous row ++ byte1 (je_phase row) ++ concat (je_preparations row) ++ je_receipt row).
Record whole_entry (row : journal_entry) : Prop := {
  we_raw : je_raw row = entry_frame row;
  we_preparations : length (je_preparations row) = 3%nat;
  we_size : (48 <= length (je_raw row))%nat }.

Lemma takes_ok n size s xs s2 :
  repeat_reader n (take_n size) s = (Ok xs, s2) -> s = concat xs ++ s2 /\ length xs = n.
Proof.
  revert s xs. induction n as [|n IH]; intros s xs H; cbn [repeat_reader] in H.
  - apply ret_ok in H as [<- <-]. done.
  - apply bind_ok in H as (x & s1 & Hx & H). apply take_bytes_ok in Hx as [-> _]. apply bind_ok in H as (ys & s3 & Hy & H).
    apply ret_ok in H as [<- <-]. apply IH in Hy as [-> <-]. cbn [concat]. by rewrite app_assoc.
Qed.

Lemma entry_fields_ok encoded row : read_record 21 (entry_fields encoded) encoded = Ok row -> whole_entry row /\ je_raw row = encoded.
Proof.
  intros (body & Hraw & H & _ & _)%read_record_ok. unfold entry_fields in H.
  apply bind_ok in H as (p & s1 & Hp & H). apply take_bytes_ok in Hp as [-> _].
  apply bind_ok in H as (n & s2 & Hn & H). apply int_bytes in Hn as [-> _]; [|lia].
  apply bind_ok in H as (v & s3 & Hv & H). apply take_bytes_ok in Hv as [-> _].
  apply bind_ok in H as (b & s4 & Hb & H). apply uint_bytes in Hb as [-> _].
  apply bind_ok in H as (ps & s5 & Hps & H). apply takes_ok in Hps as [-> Hps].
  apply bind_ok in H as (r & s6 & Hr & H). apply take_bytes_ok in Hr as [-> _]. apply ret_ok in H as [<- ->].
  split; [|done]. split; cbn; [|done|].
  - rewrite Hraw. unfold entry_frame, be8, byte1. cbn. by rewrite !app_nil_r.
  - rewrite Hraw, length_framed. lia.
Qed.

Lemma journal_entries_ok fuel raw rows :
  journal_entries fuel raw = Ok rows -> raw = concat (je_raw <$> rows) /\ Forall whole_entry rows.
Proof.
  revert raw rows. induction fuel as [|fuel IH]; intros raw rows H; [done|]. cbn [journal_entries] in H.
  destruct raw as [|b raw]; [by injection H as <-|]. set (r := b :: raw) in *. clearbody r. unfold need in H.
  do 2 apply rbind_ok in H as ([] & _ & H). apply rbind_ok in H as (row & Hrow & H). apply entry_fields_ok in Hrow as [Hw Hraw].
  apply rbind_ok in H as (more & Hm & [= <-]). apply IH in Hm as [Hm Hall]. split; [|by constructor].
  rewrite fmap_cons, Hraw. cbn [concat]. rewrite <- Hm. symmetry. apply take_drop.
Qed.

Lemma operation_rows_ok raw rows :
  operation_rows raw = Ok rows ->
  raw = concat (je_raw <$> rows) /\ Forall whole_entry rows /\ (length rows <= 5)%nat /\ check_chain 1 ZERO32 rows = Ok tt.
Proof.
  unfold operation_rows, need. intros H. apply rbind_ok in H as (l & Hl & H). apply rbind_ok in H as ([] & Hc%guard_ok & H).
  apply rbind_ok in H as ([] & Hch & [= <-]). apply journal_entries_ok in Hl as [-> Hw]. bool_tac. split_and!; try done; lia.
Qed.

Lemma phase_preps (preps : list bytes) index :
  length preps = 3%nat ->
  (if index =? 1 then replicate 3 ZERO32 else seal_of <$> preps) = (fun p : bytes => if index =? 1 then ZERO32 else seal_of p) <$> preps.
Proof. intros H. destruct (index =? 1); [|done]. destruct preps as [|? [|? [|? [|]]]]; done. Qed.

(** A row of an accepted transition *)
Lemma transition_row plan_raw receipt_raw preps index previous before row carried :
  length preps = 3%nat -> je_raw row = entry_frame row -> je_sequence row = index -> je_previous row = previous ->
  je_plan row = seal_of plan_raw -> carried = match before with Some b => je_preparations b | None => [] end ->
  (if je_phase row =? 5 then need (abort_follows before row) "abort transition"
   else need ((je_phase row =? index) && (index <=? 4)
              && bool_decide (je_preparations row = if index =? 1 then replicate 3 ZERO32 else seal_of <$> preps)
              && bool_decide (je_receipt row = if index =? 4 then seal_of receipt_raw else ZERO32)) "publication transition") = Ok tt ->
  je_raw row = (if je_phase row =? 5 then abort_frame plan_raw index previous carried else journal_row plan_raw preps receipt_raw (je_phase row) previous)
  /\ je_preparations row = (if je_phase row =? 5 then carried else (fun p => if je_phase row =? 1 then ZERO32 else seal_of p) <$> preps).
Proof.
  intros H3 Hr Hs Hv Hp -> H. rewrite Hr. unfold entry_frame. rewrite Hs, Hv, Hp. destruct (je_phase row =? 5) eqn:E; apply guard_ok in H; bool_tac.
  - unfold abort_follows in H. destruct before as [b|]; [|done]. bool_tac. unfold abort_frame. split; congruence.
  - bool_tac. rewrite phase_preps in * by done. unfold journal_row. match goal with A : je_phase row = index |- _ => rewrite A end.
    split; [congruence|done].
Qed.

(** Chained rows in accepted transitions are the rows of their phases. *)
Lemma transitions_rows plan_raw receipt_raw preps index previous before rows :
  length preps = 3%nat -> Forall whole_entry rows ->
  check_chain index previous rows = Ok tt -> check_transitions (seal_of plan_raw) preps receipt_raw index before rows = Ok tt ->
  je_raw <$> rows
    = phase_rows plan_raw receipt_raw preps index previous (match before with Some b => je_preparations b | None => [] end) (je_phase <$> rows).
Proof.
  intros H3. revert index previous before. induction rows as [|row rows IH]; intros index previous before Hw Hc Ht; [done|].
  apply Forall_cons in Hw as [[Hr _ _] Hw]. cbn [check_chain check_transitions] in Hc, Ht.
  apply rbind_ok in Hc as ([] & Hs%guard_ok & Hc). apply rbind_ok in Ht as ([] & Hpl%guard_ok & Ht).
  apply rbind_ok in Ht as ([] & Hph & Ht). bool_tac. rewrite !fmap_cons. cbn [phase_rows].
  destruct (transition_row _ _ _ _ _ _ _ _ H3 Hr ltac:(eassumption) ltac:(eassumption) Hpl eq_refl Hph) as [Hraw Hpreps].
  rewrite <- Hraw, <- Hpreps. f_equal. by apply (IH (index + 1) (seal_of (je_raw row)) (Some row)).
Qed.

(** The phases of a journal that ends in the commitment *)
Definition STRAIGHT_PHASES : list Z := [1; 2; 3; 4].
(** Those that pass through an abort, which the inspection lets a later row leave again *)
Definition RESUMED_PHASES : list (list Z) := [[1; 5; 3; 4]; [1; 2; 5; 4]].
Definition COMMITTED_PHASES : list (list Z) := STRAIGHT_PHASES :: RESUMED_PHASES.
Lemma transition_phase plan_digest preps receipt_raw index before row rows :
  check_transitions plan_digest preps receipt_raw index before (row :: rows) = Ok tt ->
  (je_phase row = index /\ index <= 4 \/ exists b, before = Some b /\ je_phase row = 5 /\ (je_phase b = 1 \/ je_phase b = 2)) /\
  check_transitions plan_digest preps receipt_raw (index + 1) (Some row) rows = Ok tt.
Proof.
  cbn [check_transitions]. unfold need. intros H. apply rbind_ok in H as ([] & _ & H). apply rbind_ok in H as ([] & Hp & H). split; [|done].
  destruct (je_phase row =? 5) eqn:E; apply guard_ok in Hp; bool_tac.
  - right. unfold abort_follows in Hp. destruct before as [b|]; [|done]. exists b. bool_tac. split_and!; [done..|]. lia.
  - left. bool_tac. lia.
Qed.

Lemma committed_phases plan_digest preps receipt_raw rows :
  check_transitions plan_digest preps receipt_raw 1 None rows = Ok tt -> phase_of rows = 4 -> (je_phase <$> rows) ∈ COMMITTED_PHASES.
Proof.
  assert (forall index before row, (je_phase row = index /\ index <= 4 \/ exists b, before = Some b /\ je_phase row = 5 /\ (je_phase b = 1 \/ je_phase b = 2)) ->
            je_phase row = 4 -> index = 4) as Hend by (intros index before row [[-> _]|(b & _ & -> & _)]; lia).
  unfold phase_of. intros H Hl.
  destruct rows as [|r1 rows]; [done|]. apply transition_phase in H as [P1 H].
  destruct rows as [|r2 rows]; [by apply Hend in P1|]. apply transition_phase in H as [P2 H].
  destruct rows as [|r3 rows]; [by apply Hend in P2|]. apply transition_phase in H as [P3 H].
  destruct rows as [|r4 rows]; [by apply Hend in P3|]. apply transition_phase in H as [P4 H].
  assert (rows = []) as ->.
  { destruct rows as [|r5 rows]; [done|exfalso]. apply transition_phase in H as [[P5|(b & [= <-] & _ & P5)] _]; [lia|].
    destruct P4 as [P4|(b & _ & P4 & _)]; lia. }
  cbn in Hl. unfold COMMITTED_PHASES, STRAIGHT_PHASES, RESUMED_PHASES. cbn [fmap list_fmap]. rewrite Hl.
  destruct P1 as [[P1 _]|(b & [=] & _)]. rewrite P1. destruct P2 as [[P2 _]|(b & [= <-] & P2 & _)]; rewrite P2;
    destruct P3 as [[P3 _]|(b & [= <-] & P3 & P3')]; try rewrite P3; try (exfalso; lia); set_solver.
Qed.

(** *** The plan, as both modules read it *)

Lemma equals_text_ok v s : equals_text v s = true -> v = JString s.
Proof. destruct v; try done. unfold equals_text. intros H. bool_tac. by subst. Qed.

Lemma plan_locals_read m size locals s x s2 :
  plan_locals m size locals s = (Ok x, s2) ->
  repeat_reader (length locals) inventory s = (Ok x.2, s2) /\ Forall (fun nl : string * json => get "node" nl.2 = Ok (JString nl.1)) locals.
Proof.
  revert s x s2. induction locals as [|[node local] locals IH]; intros s x s2 H; cbn [plan_locals] in H.
  - apply ret_ok in H as [<- <-]. by split.
  - apply bind_ok in H as (paths & s1 & Hl & H). apply liftr_ok in Hl as [Hl ->]. apply bind_ok in H as (inv & s3 & Hi & H).
    apply bind_ok in H as ([] & s4 & Hc & H). apply ensure_ok in Hc as [_ ->]. apply bind_ok in H as (more & s5 & Hm & H).
    apply ret_ok in H as [<- <-]. apply IH in Hm as [Hm Hn]. split.
    + cbn [length repeat_reader]. unfold bind. by rewrite Hi, Hm.
    + constructor; [|done]. unfold check_local in Hl. apply rbind_ok in Hl as ([] & _ & Hl). apply rbind_ok in Hl as (n & Hn' & Hl).
      apply rbind_ok in Hl as ([] & Hc%guard_ok & _). cbn. by rewrite Hn', (equals_text_ok _ _ Hc).
Qed.

Lemma plan_parts_agree raw p m g desc invs :
  plan_parts_of raw = Ok p -> plan raw m g (pp_manifest p) = Ok (desc, invs) -> length (mf_nodes m) = 3%nat ->
  pp_raw p = raw /\ pp_descriptor p = desc /\ pp_inventories p = invs /\ pp_source p = gn_source g /\ pp_length p = Z.of_nat (length (gn_raw g)) /\
  exists replicas, get "replicas" desc = Ok (JArray replicas) /\ length replicas = 3%nat /\
    Forall (fun nl : string * json => get "node" nl.2 = Ok (JString nl.1)) (zip (mf_nodes m) replicas).
Proof.
  unfold plan_parts_of, read_record, plan. intros H K Hn3. apply rbind_ok in H as (body & Hb & H). rewrite Hb in K. cbn [rbind] in K.
  apply read_all_ok in H. apply run_reader_ok in K as [s' K]. unfold plan_part_fields in H. unfold plan_fields in K.
  apply bind_ok in H as (v & s1 & Hv & H), K as (v' & s1' & Hv' & K). rewrite Hv in Hv'. injection Hv' as <- <-.
  apply bind_ok in H as ([] & ? & Hc & H), K as ([] & ? & Hc' & K). apply ensure_ok in Hc as [_ ->], Hc' as [_ ->].
  apply bind_ok in H as (t & s3 & Ht & H), K as (t' & s3' & Ht' & K). rewrite Ht in Ht'. injection Ht' as <- <-.
  apply bind_ok in H as (d & ? & Hd & H), K as (d' & ? & Hd' & K). apply liftr_ok in Hd as [Hd ->], Hd' as [Hd' ->].
  rewrite Hd in Hd'. injection Hd' as <-.
  apply bind_ok in H as (mr & s4 & Hm & H), K as (mr' & s4' & Hm' & K). rewrite Hm in Hm'. injection Hm' as <- <-.
  apply bind_ok in H as (src & s5 & Hs & H), K as (src' & s5' & Hs' & K). rewrite Hs in Hs'. injection Hs' as <- <-.
  apply bind_ok in H as (n & s6 & Hn & H), K as (n' & s6' & Hn' & K). rewrite Hn in Hn'. injection Hn' as <- <-.
  apply bind_ok in H as (invl & s7 & Hi & H). apply ret_ok in H as [<- ->]. cbn [pp_raw pp_descriptor pp_manifest pp_source pp_length pp_inventories] in K |- *.
  apply bind_ok in K as ([] & ? & Hc & K). apply ensure_ok in Hc as [Hc ->].
  apply bind_ok in K as (fp & ? & Hf & K). apply liftr_ok in Hf as [_ ->]. apply bind_ok in K as (r & ? & Hr & K). apply liftr_ok in Hr as [Hr ->].
  apply bind_ok in K as ([] & ? & Hl & K). apply ensure_ok in Hl as [Hl ->]. apply bind_ok in K as (replicas & ? & Ha & K).
  apply liftr_ok in Ha as [Ha ->]. apply bind_ok in K as (roots & s8 & Hx & K). do 3 (apply bind_ok in K as (? & ? & _ & K)).
  apply ret_ok in K as [[= <- <-] _]. destruct r as [| | | |l|]; try done. injection Ha as ->. unfold list_between in Hl. bool_tac.
  assert (length replicas = 3%nat) as Hr3 by lia. apply plan_locals_read in Hx as [Hx Hnodes]. rewrite length_zip_with, Hr3, Hn3 in Hx.
  change (3 `min` 3)%nat with 3%nat in Hx. rewrite Hx in Hi. injection Hi as <- _. split_and!; [done..|congruence|lia|]. by exists replicas.
Qed.

Lemma named_nodes (nodes : list string) replicas named :
  length nodes = length replicas -> Forall (fun nl : string * json => get "node" nl.2 = Ok (JString nl.1)) (zip nodes replicas) ->
  map_all (get "node") replicas = Ok named -> named = JString <$> nodes.
Proof.
  revert nodes named. induction replicas as [|r replicas IH]; intros [|n nodes] named Hl Hf H; try done; [by injection H as <-|].
  cbn [zip zip_with map_all] in *. apply Forall_cons in Hf as [Hn Hf]. cbn in Hn. rewrite Hn in H. cbn [rbind] in H.
  apply rbind_ok in H as (ys & Hy & [= <-]). rewrite fmap_cons. f_equal. apply (IH nodes); [by injection Hl|done..].
Qed.

Lemma preparations_of p m (nodes : list string) invs preps :
  mf_raw m = pp_manifest p -> map_all (preparation_of p) (zip (JString <$> nodes) invs) = Ok preps ->
  preps = preparation_bytes (mf_raw m) (pp_raw p) <$> zip nodes invs.
Proof.
  intros Hm. revert invs preps. induction nodes as [|n nodes IH]; intros [|i invs] preps H; try (by injection H as <-).
  rewrite fmap_cons in H. cbn [zip zip_with map_all] in H. apply rbind_ok in H as (y & Hy & H). apply rbind_ok in H as (ys & Hys & [= <-]).
  unfold preparation_of in Hy. cbn in Hy. injection Hy as <-. apply IH in Hys as ->. cbn [zip zip_with]. rewrite fmap_cons.
  f_equal. unfold preparation_bytes, md. by rewrite Hm.
Qed.

Lemma encodable_strings (nodes ns : list string) k : map_all encodable (take k (JString <$> nodes)) = Ok ns -> ns = take k nodes.
Proof.
  revert k ns. induction nodes as [|n nodes IH]; intros [|k] ns H; try (by injection H as <-).
  rewrite fmap_cons in H. cbn [take firstn map_all encodable rbind] in H. apply rbind_ok in H as (ys & Hy & [= <-]). by rewrite (IH _ _ Hy).
Qed.

(** *** The targets *)

Lemma assoc_below node name (l : files_of) :
  assoc_get (node_file node name) ((fun x : string * bytes => (node_file node x.1, x.2)) <$> l) = assoc_get name l.
Proof.
  induction l as [|[n raw] l IH]; [done|]. rewrite fmap_cons. cbn [assoc_get fst snd]. destruct (decide (name = n)) as [->|Hne].
  - by rewrite decide_True.
  - rewrite decide_False; [done|]. unfold node_file. by intros H%(inj (String.append node))%(inj (String.append "/")).
Qed.

Lemma is_file_ok name raw l : is_file name raw l = true -> file_at l name = Ok raw.
Proof. unfold is_file, file_at. intros H. bool_tac. by rewrite H. Qed.

(** What a target of a committed operation holds; [observed] are its files. *)
Record committed_target (g : genesis_of) (m : manifest_of) (receipt_raw : bytes) (node : string) (inv : list member) (prep : bytes)
  (sealed : bool) (observed : files_of) : Prop := {
  ct_payloads : Forall (fun v => exists raw, file_at observed (iv_name v) = Ok raw /\ Z.of_nat (length raw) = iv_size v /\
                                  sha256 raw = iv_digest v) inv;
  ct_prepared : file_at observed "bootstrap-prepared.gsr" = Ok prep;
  ct_sealed : sealed = true -> file_at observed "bootstrap-seal.gsr" = Ok (seal_frame receipt_raw node);
  ct_root : forall raw, file_at observed "genesis.gsr" = Ok raw -> length raw = length (gn_raw g) ->
              (raw = gn_raw g \/ collides (unsealed_frame raw) (unsealed_frame (gn_raw g))) /\
              Forall (fun f : string * bytes => file_at observed f.1 = Ok f.2) (root_files m node) }.

Lemma payload_complete_ok observed v :
  payload_complete observed v = true ->
  exists raw, file_at observed (iv_name v) = Ok raw /\ Z.of_nat (length raw) = iv_size v /\ sha256 raw = iv_digest v.
Proof.
  unfold payload_complete, file_at. destruct (assoc_get _ _) as [raw|]; [|done]. intros H. bool_tac. exists raw. by split_and!.
Qed.

(** Geneses under one manifest *)
Lemma one_genesis raw raw' g g' mr m m' :
  genesis raw = Ok g -> genesis raw' = Ok g' -> manifest mr g = Ok m -> manifest mr g' = Ok m' ->
  m' = m /\ (raw' = raw \/ collides (unsealed_frame raw') (unsealed_frame raw)).
Proof.
  intros Hg Hg' Hm Hm'. pose proof (manifest_same_genesis _ _ _ _ _ Hm Hm') as Hd. split.
  - unfold manifest in Hm, Hm'. apply rbind_ok in Hm as (b & Hbb & Hm). rewrite Hbb in Hm'. cbn [rbind] in Hm'.
    apply rbind_ok in Hm as (q & Hq & Hm). rewrite Hq in Hm'. cbn [rbind] in Hm'.
    do 3 (apply rbind_ok in Hm as ([] & _ & Hm); apply rbind_ok in Hm' as ([] & _ & Hm')). congruence.
  - unfold gn_digest in Hd. rewrite (genesis_raw _ _ Hg), (genesis_raw _ _ Hg') in Hd.
    destruct (genesis_frame _ _ Hg) as [b ->], (genesis_frame _ _ Hg') as [b' ->].
    destruct (seal_binds GSER GSER 1 1 16 16 b' b eq_refl eq_refl (eq_sym Hd)) as [He|Hc]; [by left|by right].
Qed.

(** What one target's inspection found *)
Record inspected_target (p : plan_parts) (receipt_raw : bytes) (node : string) (inv : list member) (prep : bytes)
  (sealed : bool) (og : option genesis_of) (observed : files_of) : Prop := {
  it_payloads : Forall (fun v => exists raw, file_at observed (iv_name v) = Ok raw /\ Z.of_nat (length raw) = iv_size v /\
                                  sha256 raw = iv_digest v) inv;
  it_prepared : file_at observed "bootstrap-prepared.gsr" = Ok prep;
  it_sealed : sealed = true -> file_at observed "bootstrap-seal.gsr" = Ok (seal_frame receipt_raw node);
  it_genesis : match og with
    | None => forall raw, file_at observed "genesis.gsr" = Ok raw -> Z.of_nat (length raw) <> pp_length p
    | Some g => exists m desc invs, file_at observed "genesis.gsr" = Ok (gn_raw g) /\ genesis (gn_raw g) = Ok g /\
                  manifest (pp_manifest p) g = Ok m /\ plan (pp_raw p) m g (pp_manifest p) = Ok (desc, invs) /\
                  Forall (fun f : string * bytes => file_at observed f.1 = Ok f.2) (root_files m node)
    end }.

Lemma target_genesis_ok p phase node observed og :
  2 <= phase -> target_genesis p phase node observed = Ok og ->
  match og with
  | None => forall raw, file_at observed "genesis.gsr" = Ok raw -> Z.of_nat (length raw) <> pp_length p
  | Some g => exists m desc invs, file_at observed "genesis.gsr" = Ok (gn_raw g) /\ genesis (gn_raw g) = Ok g /\
                manifest (pp_manifest p) g = Ok m /\ plan (pp_raw p) m g (pp_manifest p) = Ok (desc, invs) /\
                Forall (fun f : string * bytes => file_at observed f.1 = Ok f.2) (root_files m node)
  end.
Proof.
  intros Hp. unfold target_genesis, file_at. destruct (assoc_get _ observed) as [raw|] eqn:E; [|by intros [= <-]].
  destruct (Z.of_nat (length raw) =? pp_length p) eqn:El; cbn [negb].
  - intros H. apply rbind_ok in H as (g & Hg & H). apply rbind_ok in H as (m & Hm & H). apply rbind_ok in H as ([desc invs] & Hpl & H).
    apply rbind_ok in H as ([] & _ & H). rewrite (proj2 (Z.leb_le _ _) Hp) in H. apply rbind_ok in H as ([] & Hr & [= <-]).
    exists m, desc, invs. rewrite (genesis_raw _ _ Hg). split_and!; [done..|]. apply initial_root_ok in Hr.
    eapply Forall_impl; [exact Hr|]. intros [n b] Hf. unfold file_at in Hf. cbn [fst snd] in *. by rewrite assoc_below in Hf.
  - intros [= <-] raw' [= <-]. by bool_tac.
Qed.

Lemma check_target_ok at_path p receipt_raw node local inv prep sealed og :
  check_target at_path p 4 receipt_raw (node, local, inv, prep) = Ok (sealed, og) ->
  exists path observed, target_path local = Ok path /\ observed_at at_path path = Ok observed /\
    inspected_target p receipt_raw node inv prep sealed og observed.
Proof.
  unfold check_target. intros H. apply rbind_ok in H as (path & Hp & H). apply rbind_ok in H as (observed & Ho & H).
  apply rbind_ok in H as ([] & _ & H). apply rbind_ok in H as ([] & _ & H). apply rbind_ok in H as ([] & Hc & H).
  change (2 <=? 4) with true in Hc. apply rbind_ok in Hc as ([] & Hall%guard_ok & Hprep%guard_ok).
  apply rbind_ok in H as ([] & _ & H). apply rbind_ok in H as (og' & Hg & H). apply rbind_ok in H as ([] & Hs & H).
  apply rbind_ok in H as ([] & _ & [= <- <-]). exists path, observed. split_and!; [done..|]. split.
  - apply forallb_forall in Hall || idtac. rewrite forallb_forall in Hall. apply Forall_forall. intros v Hv.
    apply payload_complete_ok, Hall. by apply list_elem_of_In.
  - by apply is_file_ok.
  - unfold has_file, when_file, file_at in *. intros Hb. bool_tac. destruct (assoc_get _ observed) as [raw|]; [|by destruct Hb].
    unfold check_seal_file in Hs. apply guard_ok in Hs. bool_tac. by subst.
  - by apply (target_genesis_ok p 4).
Qed.

(** The genesis of the report stands for all targets. *)
Lemma committed_of p receipt_raw node inv prep sealed og observed g m :
  inspected_target p receipt_raw node inv prep sealed og observed ->
  genesis (gn_raw g) = Ok g -> manifest (pp_manifest p) g = Ok m -> pp_length p = Z.of_nat (length (gn_raw g)) ->
  committed_target g m receipt_raw node inv prep sealed observed.
Proof.
  intros [H1 H2 H3 H4] Hg Hm Hl. split; [done..|]. intros raw Hr Hlr. destruct og as [g'|].
  - destruct H4 as (m' & desc & invs & Hr' & Hg' & Hm' & _ & Hroot). assert (raw = gn_raw g') as -> by congruence.
    destruct (one_genesis _ _ _ _ _ _ _ Hg Hg' Hm Hm') as [-> Hc]. by split.
  - exfalso. apply (H4 raw Hr). lia.
Qed.

(** ** Committed operations *)

(** What a committed report stands for: accepted plan, genesis and manifest, and targets that hold them.  [preps] and
    the receipt are the records of [Admission], [phases] those of the coordinator's journal. *)
Inductive committed (at_path : string -> option fs_entry) (root : string) (sealed : list string) (plan_digest manifest_digest : string)
  (base : Z) : Prop :=
  | Committed_of (operation : files_of) (p : bytes) (g : genesis_of) (m : manifest_of) (desc : json) (invs : list (list member))
      (replicas : list json) (phases : list Z) :
      files at_path (child_path root "operation") = Ok operation -> file_at operation "plan.gsr" = Ok p ->
      genesis (gn_raw g) = Ok g -> manifest (mf_raw m) g = Ok m -> plan p m g (mf_raw m) = Ok (desc, invs) ->
      let preps := preparation_bytes (mf_raw m) p <$> zip (mf_nodes m) invs in
      let r := receipt_bytes p preps in
      file_at operation "receipt.gsr" = Ok r -> (Z.of_nat (length r) <= META -> receipt r p m invs = Ok preps) ->
      file_at operation "operation.gsr" = Ok (journal_bytes p r preps phases) ->
      (phases = STRAIGHT_PHASES /\ (forall nodes, journal (journal_bytes p r preps phases) p r preps nodes = Ok tt) \/ phases ∈ RESUMED_PHASES) ->
      get "replicas" desc = Ok (JArray replicas) ->
      (forall i node local inv prep, mf_nodes m !! i = Some node -> replicas !! i = Some local -> invs !! i = Some inv -> preps !! i = Some prep ->
         exists path observed, target_path local = Ok path /\ observed_at at_path path = Ok observed /\
           committed_target g m r node inv prep (bool_decide (node ∈ sealed)) observed) ->
      Forall (fun node => node ∈ mf_nodes m) sealed ->
      plan_digest = hex (seal_of p) -> manifest_digest = hex (mf_digest m) -> base = gn_base g ->
      committed at_path root sealed plan_digest manifest_digest base.

(** The targets of a report, each with its flag *)
Lemma sealed_flags {A} (nodes : list string) (flags : list (bool * A)) :
  NoDup nodes -> length nodes = length flags ->
  let sealed := (filter (fun x : string * (bool * A) => x.2.1 = true) (zip nodes flags)).*1 in
  (forall i node x, nodes !! i = Some node -> flags !! i = Some x -> bool_decide (node ∈ sealed) = x.1) /\ Forall (fun node => node ∈ nodes) sealed.
Proof.
  intros Hnd Hl sealed. split.
  - intros i node x Hi Hx. destruct x.1 eqn:E.
    + apply bool_decide_eq_true_2. apply list_elem_of_fmap. exists (node, x). split; [done|]. apply list_elem_of_filter. split; [done|].
      apply list_elem_of_lookup. exists i. by rewrite lookup_zip_with, Hi; cbn; rewrite Hx.
    + apply bool_decide_eq_false_2. intros H. apply list_elem_of_fmap in H as ([n y] & -> & H). apply list_elem_of_filter in H as [Hy H].
      apply list_elem_of_lookup in H as [j Hj]. apply lookup_zip_with_Some in Hj as (n' & y' & [= <- <-] & Hn & Hyj). cbn in *.
      assert (i = j) as <- by (eapply NoDup_lookup; done). congruence.
  - apply Forall_fmap, Forall_forall. intros [n y] H. apply list_elem_of_filter in H as [_ H]. by apply elem_of_zip_l in H.
Qed.

(** The steps of an accepted inspection at phase four *)
Lemma bootstrap_steps at_path root sealed pd md base :
  bootstrap at_path root = Ok (Bootstrap 4 sealed pd md (Some base)) ->
  exists operation raw p journal_raw rows r replicas named preps nodes targets g,
    files at_path (child_path root "operation") = Ok operation /\ file_at operation "plan.gsr" = Ok raw /\ plan_parts_of raw = Ok p /\
    file_at operation "operation.gsr" = Ok journal_raw /\ operation_rows journal_raw = Ok rows /\ phase_of rows = 4 /\
    get "replicas" (pp_descriptor p) = Ok r /\ iterate r = Ok replicas /\ map_all (get "node") replicas = Ok named /\
    map_all (preparation_of p) (zip named (pp_inventories p)) = Ok preps /\
    check_transitions (seal_of raw) preps (receipt_of p preps) 1 None rows = Ok tt /\
    file_at operation "receipt.gsr" = Ok (receipt_of p preps) /\
    map_all encodable (take (length preps) named) = Ok nodes /\
    map_all (check_target at_path p 4 (receipt_of p preps)) (zip (zip (zip nodes replicas) (pp_inventories p)) preps) = Ok targets /\
    last (omap snd targets) = Some g /\ base = gn_base g /\ pd = hex (seal_of raw) /\ md = hex (seal_of (pp_manifest p)) /\
    sealed = (filter (fun x : string * (bool * option genesis_of) => x.2.1 = true) (zip nodes targets)).*1.
Proof.
  unfold bootstrap. intros H. apply rbind_ok in H as (operation & Ho & H). apply rbind_ok in H as ([] & _ & H).
  apply rbind_ok in H as (lock & _ & H). apply rbind_ok in H as ([] & _ & H). apply rbind_ok in H as (raw & Hraw & H).
  apply rbind_ok in H as (p & Hp & H). do 2 apply rbind_ok in H as (? & _ & H). apply rbind_ok in H as ([] & _ & H).
  apply rbind_ok in H as (rows & Hrows & H). apply rbind_ok in H as (r & Hr & H). apply rbind_ok in H as (replicas & Hi & H).
  apply rbind_ok in H as (named & Hn & H). apply rbind_ok in H as (preps & Hps & H). apply rbind_ok in H as ([] & Ht & H).
  destruct (phase_of rows =? 5) eqn:E5.
  { exfalso. unfold cleanup in H. repeat first [apply rbind_ok in H as ([[? ?] ?] & _ & H) | apply rbind_ok in H as (? & _ & H)]. done. }
  apply rbind_ok in H as ([] & Hd & H). apply rbind_ok in H as (nodes & Hns & H). apply rbind_ok in H as (targets & Htg & H).
  apply rbind_ok in H as ([] & _ & H). injection H as Hph <- <- <- Hb.
  destruct (last (omap snd targets)) as [g|] eqn:El; [|done]. injection Hb as Hb. rewrite Hph in *.
  unfold check_decision in Hd. do 3 apply rbind_ok in Hd as ([] & _ & Hd). apply guard_ok, is_file_ok in Hd.
  unfold journal_of in Hrows. destruct (assoc_get _ operation) as [journal_raw|] eqn:Ej; [|injection Hrows as <-; done].
  exists operation, raw, p, journal_raw, rows, r, replicas, named, preps, nodes, targets, g. unfold file_at at 2. rewrite Ej.
  by split_and!.
Qed.

(** Each target, by its place in the plan *)
Lemma target_at at_path p r (nodes : list string) replicas invs preps targets i node local inv prep :
  map_all (check_target at_path p 4 r) (zip (zip (zip nodes replicas) invs) preps) = Ok targets ->
  nodes !! i = Some node -> replicas !! i = Some local -> invs !! i = Some inv -> preps !! i = Some prep ->
  exists x path observed, targets !! i = Some x /\ target_path local = Ok path /\ observed_at at_path path = Ok observed /\
    inspected_target p r node inv prep x.1 x.2 observed.
Proof.
  intros H%map_all_ok Hn Hl Hi Hp.
  assert (zip (zip (zip nodes replicas) invs) preps !! i = Some (node, local, inv, prep)) as Hz.
  { rewrite !lookup_zip_with, Hn; cbn; rewrite Hl; cbn; rewrite Hi; cbn; by rewrite Hp. }
  destruct (Forall2_lookup_l _ _ _ _ _ H Hz) as ([s og] & Hx & Hc). apply check_target_ok in Hc as (path & observed & Ht & Ho & Hin).
  exists (s, og), path, observed. by split_and!.
Qed.

Lemma reported_genesis at_path p r (nodes : list string) replicas invs preps targets g :
  map_all (check_target at_path p 4 r) (zip (zip (zip nodes replicas) invs) preps) = Ok targets -> last (omap snd targets) = Some g ->
  exists m desc invl, genesis (gn_raw g) = Ok g /\ manifest (pp_manifest p) g = Ok m /\ plan (pp_raw p) m g (pp_manifest p) = Ok (desc, invl).
Proof.
  intros H%map_all_ok Hl. apply last_Some_elem_of in Hl. apply list_elem_of_omap in Hl as ([s og] & Hx & Hog). cbn in Hog. subst og.
  apply list_elem_of_lookup in Hx as [i Hx]. destruct (Forall2_lookup_r _ _ _ _ _ H Hx) as ([[[node local] inv] prep] & _ & Hc).
  apply check_target_ok in Hc as (path & observed & _ & _ & [_ _ _ (m & desc & invl & _ & Hg & Hm & Hp & _)]). by exists m, desc, invl.
Qed.

(** The four rows without an abort are the journal of an admission. *)
Lemma straight_journal p r preps nodes :
  (48 <= length p)%nat -> (48 <= length r)%nat -> length preps = 3%nat -> Forall (fun x : bytes => (48 <= length x)%nat) preps ->
  journal (journal_bytes p r preps [1; 2; 3; 4]) p r preps nodes = Ok tt.
Proof.
  intros Hp Hr H3 Hps. change (journal_bytes p r preps [1; 2; 3; 4]) with (concat (journal_from p preps r 1 ZERO32 4)). unfold journal.
  rewrite (journal_rows_read _ _ _ preps 0 ZERO32 4); [cbn [rbind]; change (0 + Z.of_nat 4 =? 4) with true; by rewrite orb_true_r|lia|lia|done|done|lia..| |].
  - cbn. lia.
  - cbn [journal_from concat]. rewrite !length_app, length_journal_row; [unfold row_size; lia|lia|lia|done..].
Qed.

(** C26: what a committed report stands for.  If the inspection of a bootstrap reports phase four and an application
    sequence, then the coordinator's plan is an accepted plan of an accepted genesis and manifest; its receipt is the
    frame of the three preparations that plan determines, and [Admission.receipt] accepts it when it is within the
    bound of metadata; and its journal is either an accepted bootstrap journal, its rows preparing, prepared,
    committing, committed, or the rows of one of the two sequences that pass through an abort before the commitment,
    which the inspection also accepts ([aborted_commit_accepted]) though no bootstrap should write them.  In each
    case every target holds the planned payloads with their digests and its preparation, and, where its genesis has
    the planned length, the reported genesis up to a collision and the initial root; every node reported sealed holds
    the seal of this receipt; and digests and sequence are those of plan, manifest and genesis. *)
Theorem committed_bootstrap_sound at_path root sealed pd md base :
  bootstrap at_path root = Ok (Bootstrap 4 sealed pd md (Some base)) -> committed at_path root sealed pd md base.
Proof.
  intros (operation & raw & p & jr & rows & r & replicas & named & preps & nodes & targets & g & Ho & Hraw & Hp & Hj & Hrows & Hph & Hr & Hi &
          Hnm & Hps & Ht & Hrc & Hns & Htg & Hl & -> & -> & -> & ->)%bootstrap_steps.
  destruct (reported_genesis _ _ _ _ _ _ _ _ _ Htg Hl) as (m & desc & invs & Hg & Hm & Hpl).
  destruct (manifest_ok _ _ _ Hm) as (Hmr & Hn3 & Hnd & _). pose proof Hp as Hp'. apply read_record_ok in Hp' as (body & Hbody & _ & _ & Hmeta).
  assert (pp_raw p = raw) as Hpr.
  { apply read_record_ok in Hp as (b & _ & H & _). unfold plan_part_fields in H. do 8 (apply bind_ok in H as (? & ? & _ & H)). by apply ret_ok in H as [<- _]. }
  rewrite Hpr in Hpl. pose proof (plan_inventories _ _ _ _ _ _ Hn3 Hpl) as Hi3.
  destruct (plan_parts_agree _ _ _ _ _ _ Hp Hpl Hn3) as (_ & Hd & Hv & _ & Hlen & replicas' & Hr' & Hr3 & Hall). rewrite Hd, Hr' in Hr.
  injection Hr as <-. injection Hi as ->. apply (named_nodes (mf_nodes m)) in Hnm as ->; [|congruence|done].
  rewrite Hv in *. apply (preparations_of p m) in Hps; [|done]. rewrite Hpr in Hps.
  assert (length preps = 3%nat) as H3 by (rewrite Hps, length_fmap, length_zip_with; lia).
  apply encodable_strings in Hns. rewrite H3, take_ge in Hns by lia. subst nodes.
  assert (receipt_of p preps = receipt_bytes raw preps) as Hrb by (unfold receipt_of, receipt_bytes, be4; by rewrite Hpr). rewrite Hrb in *.
  assert (48 <= length raw)%nat as Hr48 by (rewrite Hbody, length_framed; lia).
  assert (48 <= length (mf_raw m))%nat as Hm48 by (destruct (manifest_ok _ _ _ Hm) as (-> & _ & _ & ? & ? & -> & _); rewrite length_framed; lia).
  assert (48 <= length (receipt_bytes raw preps))%nat as Hrb48 by (unfold receipt_bytes; rewrite length_framed; lia).
  assert (Forall (fun x : bytes => (48 <= length x)%nat) preps) as Hlong by (rewrite Hps; by apply preps_long).
  destruct (operation_rows_ok _ _ Hrows) as (-> & Hw & _ & Hch).
  rewrite (transitions_rows _ _ _ _ _ _ _ H3 Hw Hch Ht) in Hj. pose proof (committed_phases _ _ _ _ Ht Hph) as Hphases.
  assert (length targets = 3%nat) as Htl.
  { apply map_all_ok, Forall2_length in Htg. rewrite !length_zip_with in Htg. lia. }
  destruct (sealed_flags (mf_nodes m) targets Hnd ltac:(lia)) as [Hflag Hsealed].
  assert (manifest (mf_raw m) g = Ok m) as Hm' by (by rewrite Hmr). rewrite <- Hmr in Hpl.
  eapply Committed_of with (operation := operation) (p := raw) (g := g) (m := m); try done; rewrite <- ?Hps; try done; [| | |by rewrite <- Hmr].
  - intros Hl'. rewrite Hps in Hl' |- *. apply receipt_reads; first [done | by eapply manifest_nodes_identity | lia].
  - unfold COMMITTED_PHASES in Hphases. apply elem_of_cons in Hphases as [Hs|Hs]; [left|by right]. split; [done|].
    intros phs. rewrite Hs. by apply straight_journal.
  - intros i node local inv prep Hin Hil Hii Hip. destruct (target_at _ _ _ _ _ _ _ _ _ _ _ _ _ Htg Hin Hil Hii Hip) as (x & path & observed & Hx & Hpath & Hob & Hins).
    exists path, observed. split_and!; [done..|]. rewrite (Hflag _ _ _ Hin Hx). by eapply committed_of.
Qed.

Lemma committed_bootstrap_sound_witness :
  exists report sealed pd md, bootstrap (world_of (offline_file "operation.gsr")) "/fixture" = Ok report /\
    report = Bootstrap 4 sealed pd md (Some 0) /\ length sealed = 3%nat /\
    committed (world_of (offline_file "operation.gsr")) "/fixture" sealed pd md 0.
Proof.
  eexists _, _, _, _. split; [vm_compute; reflexivity|]. split; [reflexivity|]. split; [reflexivity|].
  apply committed_bootstrap_sound. vm_compute. reflexivity.
Defined.

(** ** Properties of the cleanup inspection

    A cleanup report accounts for every path of the plan: what is deleted, in which order, and what is left. *)

(** ** A sample cleanup: the three roots of an import are gone, its coordinator and its source are there. *)

Definition imported : files_of := Eval vm_compute in make 41 2.
Definition imported_file (name : string) : bytes := default [] (assoc_get name imported).
(** The first two rows of a journal, and the abort *)
Definition aborted_journal : bytes :=
  let journal := imported_file "operation.gsr" in
  let size := (48 + Z.to_nat (to_signed 4 (be_join (take 4 (drop 12 journal)))))%nat in
  take size journal ++ default [] (ok_value (second_row journal)) ++ imported_file "admin-aborting.gsr".
Definition operation_files : files_of :=
  [("cleanup.gsr", imported_file "admin-cleanup.gsr"); ("operation.gsr", aborted_journal); ("operation.lock", []);
   ("plan.gsr", imported_file "plan.gsr")]%string.
Definition source_files : files_of :=
  (fun name => (name, imported_file (node_file "source" name))) <$> SOURCE_MEMBERS.
Definition as_entry (directory : string) (x : string * bytes) : string * fs_entry := (node_file directory x.1, RegularFile x.2 1).
Definition as_folder (l : files_of) : fs_entry := Folder ((fun x : string * bytes => (x.1, RegularFile x.2 1)) <$> l).
Definition remaining_world (path : string) : option fs_entry :=
  assoc_get path ([("/fixture/operation"%string, as_folder operation_files); ("/fixture/source"%string, as_folder source_files)]
                  ++ (as_entry "/fixture/operation" <$> operation_files) ++ (as_entry "/fixture/source" <$> source_files)).

#[local] Opaque be_split sha256.

(** ** What is left of a cleanup *)

(** A surviving path is what the inventory says: a directory with known members only, or a file of one link with
    the recorded bytes. *)
Inductive intact (at_path : string -> option fs_entry) (operation : string) (names : list string) (entry : json) (path : string) : Prop :=
  | IntactDirectory (members : list (string * fs_entry)) :
      at_path path = Some (Folder members) -> get "kind" entry = Ok (JString "directory") ->
      Forall (fun name => child_path path name ∈ names \/ child_path path name = child_path operation "cleanup.gsr") members.*1 ->
      intact at_path operation names entry path
  | IntactFile (data recorded : bytes) :
      at_path path = Some (RegularFile data 1) -> get "kind" entry = Ok (JString "file") ->
      recorded_bytes operation path data = Ok recorded -> get "digest" entry = Ok (JString (hex (sha256 recorded))) ->
      intact at_path operation names entry path.

(** What a cleanup report with [k] of [n] paths deleted says of the file system *)
Inductive cleaned (at_path : string -> option fs_entry) (root : string) (k n : nat) (digest : string) : Prop :=
  | Cleaned_of (raw plan previous : bytes) (descriptor i : json) (entries : list json) (names delete : list string) :
      let operation := child_path root "operation" in
      read_file at_path (child_path operation "cleanup.gsr") = Ok raw -> digest = hex (seal_of raw) ->
      read_record 22 cleanup_fields raw = Ok (plan, previous, descriptor) ->
      get "inventory" descriptor = Ok i -> iterate i = Ok entries ->
      get "deletePaths" descriptor = Ok (JArray (JString <$> delete)) ->
      NoDup delete -> last delete = Some operation -> n = length delete -> (k <= n)%nat ->
      (forall j path, delete !! j = Some path -> exists_there at_path path = bool_decide (k <= j)%nat) ->
      (forall a b directory name, delete !! a = Some (directory +:+ "/" +:+ name) -> delete !! b = Some directory -> (a < b)%nat) ->
      Forall2 (fun entry name => get "path" entry = Ok (JString name) /\
         (exists owner, get "owner" entry = Ok (JString owner) /\ (owner = "source"%string \/ owner = hex plan) /\ (name ∈ delete <-> owner = hex plan)) /\
         (path_str name ∈ take k delete \/ intact at_path operation names entry (path_str name))) entries names ->
      (k <> 0%nat -> forall journal, path_exists at_path (child_path operation "operation.gsr") = true ->
         read_file at_path (child_path operation "operation.gsr") = Ok journal ->
         exists rows row, operation_rows journal = Ok rows /\ last rows = Some row /\ je_phase row = 5 /\ je_plan row = plan /\ je_previous row = previous) ->
      cleaned at_path root k n digest.

Section Lemmas.
Context (at_path : string -> option fs_entry).

Lemma missing_prefix_split delete :
  let k := missing_prefix at_path delete in
  (k <= length delete)%nat /\ forall j path, delete !! j = Some path -> (j < k)%nat -> exists_there at_path path = false.
Proof.
  induction delete as [|p delete [Hl IH]]; [by split|]. cbn [missing_prefix length]. destruct (exists_there at_path p) eqn:E.
  - split; [lia|]. intros. lia.
  - split; [lia|]. intros [|j] path H Hj; [by injection H as <-|]. apply (IH j); [done|lia].
Qed.

Lemma starts_app p s : starts_with p (p +:+ s) = true.
Proof. unfold starts_with. apply bool_decide_eq_true_2. rewrite strip_prefix_app. by eexists. Qed.

Lemma dependency_order_ok delete a b directory name :
  dependency_order delete = true -> delete !! a = Some (directory +:+ "/" +:+ name) -> delete !! b = Some directory -> (a < b)%nat.
Proof.
  revert a b. induction delete as [|p delete IH]; intros a b H Ha Hb; [done|]. cbn [dependency_order] in H. apply andb_true_iff in H as [Hp H].
  destruct a as [|a], b as [|b]; [|lia| |].
  - exfalso. cbn in Ha, Hb. assert (String.length (directory +:+ "/" +:+ name) = String.length directory) as Hc by congruence.
    rewrite !append_length in Hc. cbn in Hc. lia.
  - exfalso. cbn in Ha, Hb. injection Hb as ->. rewrite forallb_forall in Hp. specialize (Hp (directory +:+ "/" +:+ name)).
    rewrite <- append_assoc in Hp, Ha. rewrite starts_app in Hp. by discriminate Hp; apply list_elem_of_In, list_elem_of_lookup; exists a.
  - cbn in Ha, Hb. specialize (IH a b H Ha Hb). lia.
Qed.

Lemma texts_of l : forallb is_string l = true -> l = JString <$> omap (fun v => match v with JString s => Some s | _ => None end) l.
Proof.
  induction l as [|v l IH]; intros H; [done|]. cbn [forallb] in H. apply andb_true_iff in H as [Hv H]. destruct v; try done.
  cbn. f_equal. by apply IH.
Qed.

Lemma encodable_ok v s : encodable v = Ok s -> v = JString s.
Proof. destruct v; try done. by intros [= ->]. Qed.

Lemma sorted_set_nodup l : NoDup (sorted_set l).
Proof. unfold sorted_set. rewrite merge_sort_Permutation. apply NoDup_remove_dups. Qed.

(** The paths a plan owns *)
Lemma owned_names (names : list string) owners (plan : string) i name owner :
  NoDup names -> names !! i = Some name -> owners !! i = Some owner ->
  name ∈ (filter (fun x : string * json => equals_text x.2 plan = true) (zip names owners)).*1 <-> owner = JString plan.
Proof.
  intros Hnd Hn Ho. split.
  - intros H. apply list_elem_of_fmap in H as ([n o] & -> & H). apply list_elem_of_filter in H as [Hp H].
    apply list_elem_of_lookup in H as [j Hj]. apply lookup_zip_with_Some in Hj as (n' & o' & [= <- <-] & Hn' & Ho'). cbn in *.
    assert (i = j) as <- by (eapply NoDup_lookup; done). rewrite Ho in Ho'. injection Ho' as <-.
    unfold equals_text in Hp. destruct owner; try done. bool_tac. by subst.
  - intros ->. apply list_elem_of_fmap. exists (name, JString plan). split; [done|]. apply list_elem_of_filter. split.
    + cbn. by apply bool_decide_eq_true_2.
    + apply list_elem_of_lookup. exists i. by rewrite lookup_zip_with, Hn; cbn; rewrite Ho.
Qed.

Lemma check_cleanup_path_ok operation names missing entry name :
  get "path" entry = Ok (JString name) -> check_cleanup_path at_path operation names missing entry = Ok tt ->
  path_str name ∈ missing \/ intact at_path operation names entry (path_str name).
Proof.
  intros Hn. unfold check_cleanup_path. rewrite Hn. intros H. apply rbind_ok in H as ([] & _ & H). cbn [rbind encodable] in H.
  apply rbind_ok in H as ([] & _ & H). destruct (bool_decide (path_str name ∈ missing)) eqn:E; [bool_tac; by left|right].
  apply rbind_ok in H as (kind & Hk & H). apply rbind_ok in H as (size & _ & H). apply rbind_ok in H as (digest & Hd & H).
  destruct (equals_text kind "directory") eqn:Ek.
  - destruct kind; try done. unfold equals_text in Ek. bool_tac. subst. destruct (at_path (path_str name)) as [[]|] eqn:Ea; try done.
    apply rbind_ok in H as ([] & _ & H%guard_ok). eapply IntactDirectory; [done..|]. rewrite forallb_forall in H. apply Forall_forall.
    intros x Hx. apply list_elem_of_In in Hx. specialize (H _ Hx). apply orb_true_iff in H. bool_tac. destruct H; bool_tac; tauto.
  - destruct (at_path (path_str name)) as [[data links| | |]|] eqn:Ea; try done. apply rbind_ok in H as ([] & Hl%guard_ok & H).
    apply rbind_ok in H as (recorded & Hr & H%guard_ok). bool_tac. destruct kind; try done. destruct digest; try done. unfold equals_text in *.
    bool_tac. subst. by eapply IntactFile.
Qed.
End Lemmas.

(** The journal of a cleanup under way ends in its abort. *)
Lemma cleanup_journal_ok at_path operation plan previous k journal :
  check_cleanup_journal at_path operation plan previous k = Ok tt -> k <> 0%nat ->
  path_exists at_path (child_path operation "operation.gsr") = true -> read_file at_path (child_path operation "operation.gsr") = Ok journal ->
  exists rows row, operation_rows journal = Ok rows /\ last rows = Some row /\ je_phase row = 5 /\ je_plan row = plan /\ je_previous row = previous.
Proof.
  unfold check_cleanup_journal. cbv zeta. intros H Hk He Hr. rewrite He, Hr in H. cbn [negb rbind] in H.
  apply rbind_ok in H as (rows & Hrows & H). destruct (last_two rows) as [before [tail|]] eqn:E; [|done].
  assert (last rows = Some tail) as Hl.
  { unfold last_two in E. rewrite <- (rev_involutive rows). destruct (rev rows) as [|a [|b l]]; [done|..];
      injection E as <- <-; cbn [rev]; apply last_snoc. }
  exists rows, tail. destruct (je_phase tail =? 5) eqn:E5; apply guard_ok in H; bool_tac; [by split_and!|].
  exfalso. by apply Hk.
Qed.

(** C27: A cleanup report accounts for every path.  If the inspection of a cleanup reports [k] of [n]
    deletions, then the retained plan lists [n] different paths, the coordinator's directory last and
    every path before the directory that holds it, and of these exactly the first [k] are missing; every
    inventoried path has one owner, the listed ones being exactly those the plan owns, and, unless its
    path is among the deleted, it is intact: a file with its recorded bytes, or a directory without an
    unknown member; and once a path is deleted, a journal that is still there ends in the abort of this
    operation at the observed row. *)
Theorem cleanup_deletes_prefix at_path root k n digest :
  cleanup at_path root = Ok (Cleanup k n digest) -> cleaned at_path root k n digest.
Proof.
  unfold cleanup. cbv zeta. set (operation := child_path root "operation"). intros H.
  apply rbind_ok in H as (raw & Hraw & H). apply rbind_ok in H as ([[plan previous] descriptor] & Hrec & H).
  apply rbind_ok in H as ([] & _ & H). apply rbind_ok in H as (o & _ & H). apply rbind_ok in H as ([] & _ & H).
  apply rbind_ok in H as (planned & _ & H). apply rbind_ok in H as ([] & _ & H). apply rbind_ok in H as (i & Hi & H).
  apply rbind_ok in H as (entries & Hen & H). apply rbind_ok in H as (paths & Hpaths & H). apply rbind_ok in H as ([] & _ & H).
  apply rbind_ok in H as (names & Hnames & H). apply rbind_ok in H as ([] & Hsorted%guard_ok & H). apply rbind_ok in H as (d & Hd & H).
  apply rbind_ok in H as (l & Hl & H). apply rbind_ok in H as ([] & _ & H). apply rbind_ok in H as ([] & Hnd%guard_ok & H).
  apply rbind_ok in H as (owners & Howners & H). apply rbind_ok in H as ([] & Hset%guard_ok & H). apply rbind_ok in H as ([] & Hown%guard_ok & H).
  apply rbind_ok in H as ([] & Hrest%guard_ok & H). apply rbind_ok in H as ([] & Hdep%guard_ok & H). apply rbind_ok in H as (final & Hfinal & H).
  apply rbind_ok in H as ([] & Hf%guard_ok & H). apply rbind_ok in H as ([] & Hj & H). apply rbind_ok in H as ([] & Hall & [= <- <- <-]).
  apply andb_true_iff in Hset as [Htexts Hset]. pose proof (texts_of l Htexts) as Hl'. set (delete := omap _ l) in *.
  destruct d as [| | | |l0|]; try done. injection Hl as ->. bool_tac. apply map_all_ok in Hpaths, Hnames, Howners.
  assert (NoDup names) as Hnn by (rewrite Hsorted; apply sorted_set_nodup).
  destruct (missing_prefix_split at_path delete) as [Hk Hmissing]. set (k := missing_prefix at_path delete) in *.
  eapply Cleaned_of with (names := names) (delete := delete); try done.
  - by rewrite <- Hl'.
  - apply NoDup_fmap_1 in Hnd. rewrite Hl' in Hnd. by apply NoDup_fmap_1 in Hnd.
  - fold operation. destruct (last delete) as [x|]; [|done]. injection Hfinal as ->. by rewrite Hf.
  - intros j path Hp. destruct (decide (k <= j)%nat) as [Hge|Hlt].
    + rewrite bool_decide_eq_true_2 by done. rewrite forallb_forall in Hrest. apply Hrest, list_elem_of_In, list_elem_of_lookup.
      exists (j - k)%nat. rewrite lookup_drop. by replace (k + (j - k))%nat with j by lia.
    + rewrite bool_decide_eq_false_2 by done. apply (Hmissing j); [done|lia].
  - intros a b directory name Ha Hb. by eapply dependency_order_ok.
  - apply Forall2_same_length_lookup_2.
    { apply Forall2_length in Hpaths, Hnames. congruence. }
    intros j entry name He Hn. destruct (Forall2_lookup_r _ _ _ _ _ Hnames Hn) as (p & Hp & Hpe). apply encodable_ok in Hpe as ->.
    destruct (Forall2_lookup_r _ _ _ _ _ Hpaths Hp) as (entry' & He' & Hpath). assert (entry' = entry) as -> by congruence.
    destruct (Forall2_lookup_l _ _ _ _ _ Howners He) as (owner & Ho & Howner). split_and!; [done| |].
    + rewrite forallb_forall in Hown. specialize (Hown owner). assert (In owner owners) as Hin by (apply list_elem_of_In, list_elem_of_lookup; by exists j).
      apply Hown, orb_true_iff in Hin. destruct owner as [| | |s| |]; try (by destruct Hin). exists s. split; [done|]. split.
      * unfold equals_text in Hin. destruct Hin as [Hin|Hin]; bool_tac; tauto.
      * unfold same_set in Hset. bool_tac. rewrite <- (elem_of_list_to_set (C := gset string)), Hset, elem_of_list_to_set.
        rewrite (owned_names names owners (hex plan) j name (JString s) Hnn Hn Ho). split; [by intros [= ->]|by intros ->].
    + eapply check_cleanup_path_ok; [done|]. eapply check_all_ok; [exact Hall|]. apply list_elem_of_lookup. by exists j.
  - intros Hk0 journal He Hr. by eapply cleanup_journal_ok.
Qed.

#[local] Transparent be_split sha256.
Lemma cleanup_deletes_prefix_witness :
  exists digest, cleanup remaining_world "/fixture" = Ok (Cleanup 30 34 digest) /\ cleaned remaining_world "/fixture" 30 34 digest.
Proof.
  eexists. split; [vm_compute; reflexivity|]. apply cleanup_deletes_prefix. vm_compute. reflexivity.
Defined.
