(* ===== verification/FormatCatalog.v ===== *)
(** * The catalog of the (1,2) storage and wire formats

    [format-catalog.json] with [bootstrap-catalog.json] and the two wire extensions, as the JSON
    parser gives them: record and message names with their identifiers, bounds and schemas, in the
    order of the files. *)

From stdpp Require Import base list strings.
From S2P Require Import Prelude Bytes Files Json Schema.
Local Open Scope Z_scope.
Local Open Scope string_scope.

Inductive encoding : Type :=
  | CanonicalJson
  | Binary (fields : list (string * schema)).

Record spec := Spec { sp_id : Z; sp_maximum : Z; sp_encoding : encoding; sp_schema : schema }.

(** [catalog['records']] *)
Definition RECORDS : list (string * spec) :=
  [("ACCEPT", Spec 24 67108864 (Binary [("manifestDigest", SName "hash"); ("epoch", SName "positive");
    ("proposer", SName "node"); ("incarnation", SName "uuid"); ("entry", SName "frame:ENTRY"); ("entryDigest",
    SName "hash")]) (SObject [("entry", SName "frame:ENTRY"); ("entryDigest", SName "hash"); ("epoch", SName
    "positive"); ("incarnation", SName "uuid"); ("manifestDigest", SName "hash"); ("proposer", SName "node")]));
   ("BASIS", Spec 25 65536 CanonicalJson (SObject [("accepted", SOptional (SName "frame:ACCEPT")); ("ballot",
    SObject [("epoch", SName "positive"); ("incarnation", SName "uuid"); ("proposer", SOptional (SName
    "node"))]); ("basisId", SName "uuid"); ("files", SArray (SObject [("path", SName "relative"); ("sha256",
    SName "hash"); ("size", SInteger 0 1099511627776)]) 1 16); ("imageBytes", SInteger 1 67108864);
    ("imageDigest", SName "hash"); ("manifestDigest", SName "hash"); ("node", SName "node")]));
   ("CLEANUP", Spec 22 65536 CanonicalJson (SObject [("decisionTail", SName "hash"); ("deletePaths", SArray
    (SName "relative") 0 10000); ("files", SArray (SObject [("path", SName "relative"); ("sha256", SName
    "hash"); ("size", SInteger 0 1099511627776)]) 0 10000); ("operationDigest", SName "hash"); ("planDigest",
    SName "hash")]));
   ("DECISION", Spec 21 65536 CanonicalJson (SObject [("planDigest", SName "hash"); ("previousDigest", SName
    "hash"); ("sequence", SName "positive"); ("state", SEnum [JString "PREPARING"; JString "PREPARED"; JString
    "COMMITTING"; JString "COMMITTED"])]));
   ("ENTRY", Spec 5 67108864 (Binary [("manifestDigest", SName "hash"); ("originEpoch", SName "positive");
    ("originIncarnation", SName "uuid"); ("index", SName "positive"); ("operation", SName "u8");
    ("previousEpoch", SName "positive"); ("previousIndex", SName "counter"); ("previousDigest", SName "hash");
    ("payload", SName "blob"); ("payloadDigest", SName "hash")]) (SObject [("index", SName "positive");
    ("manifestDigest", SName "hash"); ("operation", SName "u8"); ("originEpoch", SName "positive");
    ("originIncarnation", SName "uuid"); ("payload", SName "blob"); ("payloadDigest", SName "hash");
    ("previousDigest", SName "hash"); ("previousEpoch", SName "positive"); ("previousIndex", SName "counter")]));
   ("FLOOR", Spec 12 65536 CanonicalJson (SObject [("entryDigest", SName "hash"); ("index", SName "counter");
    ("manifestDigest", SName "hash"); ("node", SName "node"); ("sources", SArray (SObject [("generationDigest",
    SName "hash"); ("node", SName "node"); ("snapshotDigest", SName "hash")]) 2 2)]));
   ("GENERATION", Spec 11 65536 CanonicalJson (SObject [("files", SArray (SObject [("path", SName "relative");
    ("sha256", SName "hash"); ("size", SInteger 0 1099511627776)]) 1 16); ("manifestDigest", SName "hash");
    ("node", SName "node"); ("prefixIndex", SName "counter"); ("selectedDigest", SOptional (SName "hash"));
    ("snapshotDigest", SName "hash")]));
   ("GENESIS", Spec 16 67108864 CanonicalJson (SObject [("application", SName "blob"); ("baseSequence", SName
    "counter"); ("groupId", SName "uuid"); ("historyId", SName "uuid"); ("indexesDigest", SName "hash");
    ("schemaDigest", SName "hash"); ("source", SEnum [JString "EMPTY"; JString "VERIFIED_V44_BACKUP"]);
    ("sourceDigest", SOptional (SName "hash"))]));
   ("IMAGE", Spec 9 67108864 CanonicalJson (SObject [("acceptances", SArray (SName "frame:ACCEPT") 0 1);
    ("manifestDigest", SName "hash"); ("snapshot", SName "frame:SNAPSHOT")]));
   ("JOURNAL", Spec 3 65536 CanonicalJson (SObject [("manifestDigest", SName "hash"); ("node", SName "node");
    ("recordKind", SEnum [JInt 4; JInt 6; JInt 24])]));
   ("MANIFEST", Spec 1 65536 CanonicalJson (SObject [("baseSequence", SName "counter"); ("codecId", SName
    "id"); ("codecVersion", SName "counter"); ("configurationId", SName "id"); ("genesisDigest", SName "hash");
    ("genesisEpoch", SEnum [JInt 1]); ("groupId", SName "uuid"); ("historyId", SName "uuid"); ("indexesDigest",
    SName "hash"); ("members", SArray (SObject [("host", SName "text"); ("node", SName "node"); ("port",
    SInteger 1 65535)]) 3 3); ("mode", SEnum [JString "AUTOMATIC"]); ("protocol", SEnum [JString
    "gse-replication/1.2"]); ("schemaDigest", SName "hash"); ("storageMajor", SEnum [JInt 1]); ("storageMinor",
    SEnum [JInt 2])]));
   ("NODE", Spec 2 65536 CanonicalJson (SObject [("manifestDigest", SName "hash"); ("node", SName "node");
    ("origin", SEnum [JString "BOOTSTRAP"])]));
   ("PLAN", Spec 17 65536 CanonicalJson (SObject [("genesis", SName "frame:GENESIS"); ("manifest", SName
    "frame:MANIFEST"); ("maxOperationBytes", SName "positive"); ("maxSourceBytes", SName "positive");
    ("operationPath", SName "text"); ("sourcePath", SOptional (SName "text")); ("targets", SArray (SObject
    [("authorityPath", SName "text"); ("bounds", SObject [("maxEntriesPerAppend", SName "positive");
    ("maxFrameBytes", SName "positive"); ("maxInFlightPerPeer", SName "positive");
    ("maxPendingClientOperations", SName "positive"); ("maxRetainedLogBytes", SName "positive");
    ("maxRetryAttempts", SName "positive"); ("maxSnapshotStagingBytes", SName "positive");
    ("requestTimeoutMillis", SName "positive"); ("retryBackoffMillis", SName "positive"); ("snapshotChunkBytes",
    SName "positive")]); ("files", SArray (SObject [("path", SName "relative"); ("sha256", SName "hash");
    ("size", SInteger 0 1099511627776)]) 1 16); ("materializationPath", SName "text"); ("node", SName "node");
    ("policy", SObject [("heartbeatIntervalMillis", SName "positive"); ("maxElectionTimeoutMillis", SName
    "positive"); ("minElectionTimeoutMillis", SName "positive"); ("operationTimeoutMillis", SName
    "positive")])]) 3 3)]));
   ("PREPARED", Spec 18 65536 CanonicalJson (SObject [("inventoryDigest", SName "hash"); ("manifestDigest",
    SName "hash"); ("node", SName "node"); ("planDigest", SName "hash")]));
   ("PROMISE", Spec 4 65536 (Binary [("manifestDigest", SName "hash"); ("epoch", SName "positive");
    ("proposer", SOptional (SName "node")); ("incarnation", SName "uuid")]) (SObject [("epoch", SName
    "positive"); ("incarnation", SName "uuid"); ("manifestDigest", SName "hash"); ("proposer", SOptional (SName
    "node"))]));
   ("PROOF", Spec 6 65536 (Binary [("manifestDigest", SName "hash"); ("epoch", SName "positive"); ("proposer",
    SName "node"); ("incarnation", SName "uuid"); ("index", SName "positive"); ("entryDigest", SName "hash");
    ("previousDigest", SName "hash"); ("receipts", SArray (SObject [("digest", SName "hash"); ("voter", SName
    "node")]) 2 3)]) (SObject [("entryDigest", SName "hash"); ("epoch", SName "positive"); ("incarnation", SName
    "uuid"); ("index", SName "positive"); ("manifestDigest", SName "hash"); ("previousDigest", SName "hash");
    ("proposer", SName "node"); ("receipts", SArray (SObject [("digest", SName "hash"); ("voter", SName
    "node")]) 2 3)]));
   ("READY", Spec 7 65536 CanonicalJson (SObject [("genesisDigest", SName "hash"); ("manifestDigest", SName
    "hash"); ("node", SName "node")]));
   ("REBUILDING", Spec 13 65536 CanonicalJson (SObject [("manifestDigest", SName "hash"); ("node", SName
    "node")]));
   ("RECEIPT", Spec 19 65536 CanonicalJson (SObject [("plan", SName "frame:PLAN"); ("preparations", SArray
    (SName "frame:PREPARED") 3 3)]));
   ("SEAL", Spec 20 65536 CanonicalJson (SObject [("node", SName "node"); ("receipt", SName "frame:RECEIPT")]));
   ("SELECTED", Spec 26 65536 CanonicalJson (SObject [("ballot", SObject [("epoch", SName "positive");
    ("incarnation", SName "uuid"); ("proposer", SOptional (SName "node"))]); ("bases", SArray (SObject
    [("basisDigest", SName "hash"); ("basisId", SName "uuid"); ("node", SName "node")]) 2 2); ("manifestDigest",
    SName "hash"); ("nextEntry", SOptional (SName "frame:ENTRY")); ("prefixDigest", SName "hash");
    ("prefixIndex", SName "counter"); ("sourceBallot", SOptional (SObject [("epoch", SName "positive");
    ("incarnation", SName "uuid"); ("proposer", SOptional (SName "node"))]))]));
   ("SELECTOR", Spec 10 65536 CanonicalJson (SObject [("generation", SEnum [JString "generation-a"; JString
    "generation-b"]); ("generationDigest", SName "hash"); ("manifestDigest", SName "hash"); ("node", SName
    "node")]));
   ("SNAPSHOT", Spec 8 67108864 CanonicalJson (SObject [("anchors", SArray (SObject [("entryDigest", SName
    "hash"); ("operation", SInteger 1 10); ("originEpoch", SName "positive"); ("originIncarnation", SName
    "uuid"); ("payloadDigest", SName "hash")]) 0 1000000); ("application", SName "blob");
    ("applicationSequence", SName "counter"); ("baseSequence", SName "counter"); ("manifestDigest", SName
    "hash"); ("terminalProof", SOptional (SName "frame:PROOF"))]));
   ("STARTED", Spec 15 65536 CanonicalJson (SObject [("manifestDigest", SName "hash"); ("node", SName
    "node")]));
   ("TRANSFER", Spec 14 65536 CanonicalJson (SObject [("ballot", SObject [("epoch", SName "positive");
    ("incarnation", SName "uuid"); ("proposer", SOptional (SName "node"))]); ("imageBytes", SInteger 1
    67108864); ("imageDigest", SName "hash"); ("manifestDigest", SName "hash"); ("node", SName "node");
    ("receivedBytes", SName "counter"); ("transferId", SName "uuid")]))].

(** [bootstrap-catalog.json] *)
Definition BOOTSTRAP_RECORDS : list (string * spec) :=
  [("BOOTSTRAP_BINDING", Spec 28 65536 CanonicalJson (SObject [("descriptor", SName "blob")]));
   ("BOOTSTRAP_CLEANUP", Spec 29 65536 CanonicalJson (SObject [("plan", SName "frame:PLAN"); ("binding", SName
    "frame:BOOTSTRAP_BINDING"); ("cleanup", SName "frame:CLEANUP")]))].

(** [catalog['wire']]: name, identifier and payload schema *)
Definition WIRE : list (string * (Z * schema)) :=
  [("ACCEPT", (20, SObject [("acceptance", SName "frame:ACCEPT")]));
   ("ACCEPT_ACK", (21, SObject [("entryDigest", SName "hash"); ("index", SName "positive"); ("receipt", SName
    "hash")]));
   ("AUTHORITY_STATUS", (14, SObject [("applicationSequence", SName "counter"); ("appliedIndex", SName
    "counter"); ("nonce", SName "uuid"); ("promised", SObject [("epoch", SName "positive"); ("incarnation",
    SName "uuid"); ("proposer", SOptional (SName "node"))]); ("provenIndex", SName "counter"); ("ready", SName
    "bool")]));
   ("AUTHORITY_STATUS_PROBE", (9, SObject [("nonce", SName "uuid")]));
   ("BASIS_CHUNK", (19, SObject [("action", SEnum [JString "REQUEST"; JString "DATA"; JString "ACK"]);
    ("basisId", SName "uuid"); ("chunk", SName "blob"); ("chunkBytes", SInteger 0 67108864); ("chunkDigest",
    SName "hash"); ("maxChunkBytes", SInteger 4096 67108864); ("offset", SName "counter")]));
   ("COMMIT_ADVANCE", (7, SObject [("entryDigest", SName "hash"); ("index", SName "counter")]));
   ("COMMIT_PROOF", (5, SObject [("proof", SName "frame:PROOF")]));
   ("COMMIT_PROOF_ACK", (6, SObject [("index", SName "positive"); ("proofDigest", SName "hash"); ("receipt",
    SName "hash")]));
   ("CONFLICT", (8, SObject [("entryDigest", SName "hash"); ("promised", SObject [("epoch", SName "positive");
    ("incarnation", SName "uuid"); ("proposer", SOptional (SName "node"))]); ("provenIndex", SName "counter")]));
   ("HANDSHAKE", (1, SObject [("mode", SEnum [JString "AUTOMATIC"])]));
   ("HEARTBEAT", (22, SObject [("activated", SName "bool"); ("progressBytes", SName "counter"); ("provenIndex",
    SName "counter"); ("sequence", SName "positive"); ("stage", SName "counter")]));
   ("HEARTBEAT_ACK", (23, SObject [("provenIndex", SName "counter"); ("sequence", SName "positive")]));
   ("PREPARE", (17, SObject [("nonce", SName "uuid")]));
   ("PROMISE", (18, SObject [("basis", SName "frame:BASIS"); ("nonce", SName "uuid")]));
   ("REJECT", (16, SObject [("promised", SObject [("epoch", SName "positive"); ("incarnation", SName "uuid");
    ("proposer", SOptional (SName "node"))]); ("reason", SEnum [JString "NOT_READY"; JString "STALE_EPOCH";
    JString "CONFLICTING_HISTORY"; JString "CAPACITY_EXCEEDED"; JString "PROTOCOL_MISMATCH"; JString
    "INTEGRITY_FAILURE"; JString "STORAGE_FAILURE"; JString "CLOSED"])]));
   ("SNAPSHOT_ABORT", (15, SObject [("response", SName "bool"); ("transferId", SName "uuid")]));
   ("SNAPSHOT_CHUNK", (11, SObject [("action", SEnum [JString "REQUEST"; JString "DATA"; JString "ACK"]);
    ("chunk", SName "blob"); ("chunkBytes", SInteger 0 67108864); ("chunkDigest", SName "hash");
    ("maxChunkBytes", SInteger 4096 67108864); ("offset", SName "counter"); ("transferId", SName "uuid")]));
   ("SNAPSHOT_INSTALL", (12, SObject [("imageDigest", SName "hash"); ("response", SName "bool");
    ("selectedDigest", SName "hash"); ("transferId", SName "uuid")]));
   ("SNAPSHOT_OFFER", (10, SObject [("imageBytes", SInteger 1 67108864); ("imageDigest", SName "hash");
    ("response", SName "bool"); ("transferId", SName "uuid")]))].

(** The messages the runtime and rejoin extensions add. *)
Definition WIRE_EXTENSIONS : list (string * (Z * schema)) :=
  [("SELECTED_OFFER", (24, SObject [("bases", SArray (SName "frame:BASIS") 2 2); ("response", SName "bool");
    ("selected", SName "frame:SELECTED")]));
   ("REJOIN_INSTALL", (25, SObject [("imageDigest", SName "hash"); ("response", SName "bool"); ("transferId",
    SName "uuid")]));
   ("SOURCE_CHUNK", (27, SObject [("action", SEnum [JString "REQUEST"; JString "DATA"; JString "ACK"]);
    ("chunk", SName "blob"); ("chunkBytes", SInteger 0 67108864); ("chunkDigest", SName "hash");
    ("maxChunkBytes", SInteger 4096 67108864); ("offset", SName "counter"); ("transferId", SName "uuid")]));
   ("SOURCE_OFFER", (26, SObject [("index", SName "counter"); ("response", SName "bool"); ("sourceBytes",
    SInteger 0 67108864); ("sourceDigest", SName "hash"); ("transferId", SName "uuid")]))].

Definition MESSAGE_TYPES : list string :=
  ["HANDSHAKE"; "COMMIT_PROOF"; "COMMIT_PROOF_ACK"; "COMMIT_ADVANCE"; "CONFLICT"; "AUTHORITY_STATUS_PROBE";
   "SNAPSHOT_OFFER"; "SNAPSHOT_CHUNK"; "SNAPSHOT_INSTALL"; "AUTHORITY_STATUS"; "SNAPSHOT_ABORT"; "REJECT";
   "PREPARE"; "PROMISE"; "BASIS_CHUNK"; "ACCEPT"; "ACCEPT_ACK"; "HEARTBEAT"; "HEARTBEAT_ACK"].

(** [catalog['envelope']], for the message types of a catalog *)
Definition ENVELOPE (types : list string) : schema :=
  SObject
    [("configurationId", SName "id"); ("epoch", SName "positive"); ("eventSequence", SName "counter");
     ("groupId", SName "uuid"); ("incarnationId", SName "uuid"); ("manifestDigest", SName "hash"); ("proposer",
     SOptional (SName "node")); ("protocol", SEnum [JString "gse-replication/1.2"]); ("recipient", SName
     "node"); ("sender", SName "node"); ("traceId", SName "uuid"); ("type", SEnum (JString <$> types))].
