(* ===== verification/AutoFormat.v ===== *)
(** * The (1,2) frames: encoder and inspector ([scripts/v51/format_encoder.py], [format_inspector.py])

    A frame is a header, the SHA-256 of header and body, and a body, which is binary or canonical
    JSON as the catalog says.  [inspect] decodes one storage record, checks it against its schema,
    frames nested in it included, and against the rules of [semantics]; [contextual_frame] binds it to
    a manifest; [wire] does the same for a message. *)

From stdpp Require Import base gmap sets strings list sorting.
From S2P Require Import Prelude Bytes Sha256 Files Wire Json TextCodes ReplicaFrames Schema FormatCatalog.
Import StateNotations ResultNotations.
Local Open Scope py_scope.
Local Open Scope Z_scope.

Definition ZERO : string := "00000000-0000-0000-0000-000000000000".

(** ** Frames *)

Definition put_header (magic : bytes) (minor kind length : Z) : bytes :=
  magic ++ be_split 2 1 ++ be_split 2 minor ++ be_split 2 kind ++ be_split 2 0 ++ be_split 4 length.

Definition make_frame (magic : bytes) (minor kind : Z) (body : bytes) : bytes :=
  let header := put_header magic minor kind (Z.of_nat (length body)) in
  header ++ sha256 (header ++ body) ++ body.

(** [raw[16:48]] and [raw[48:]] *)
Definition frame_sum (raw : bytes) : bytes := take 32 (drop 16 raw).
Definition frame_hex (raw : bytes) : string := hex (frame_sum raw).
Definition frame_body (raw : bytes) : bytes := drop 48 raw.
Definition digest_hex (raw : bytes) : string := hex (sha256 raw).

Record frame_header := Header { hd_magic : bytes; hd_major : Z; hd_minor : Z; hd_kind : Z; hd_flags : Z; hd_size : Z }.

(** [struct.unpack('>4sHHHHi', raw[:16])] *)
Definition read_header : reader frame_header :=
  let* magic := take_bytes StructError 4 in
  let* major := read_uint StructError 2 in
  let* minor := read_uint StructError 2 in
  let* kind := read_uint StructError 2 in
  let* flags := read_uint StructError 2 in
  let* size := read_int StructError 4 in
  ret (Header magic major minor kind flags size).

(** The digest and the length of a frame *)
Definition frame_sealed (raw : bytes) (h : frame_header) : bool :=
  (hd_size h =? Z.of_nat (length raw) - 48) && bool_decide (sha256 (take 16 raw ++ frame_body raw) = frame_sum raw).

(** [json_body]: the text must be the canonical one of the value; a text with a duplicate key is not. *)
Definition json_body (raw : bytes) : result json :=
  let! text := decode_utf8 UnicodeError raw in
  let! value := of_option (loads text) (ValueError "JSON") in
  do! need (bool_decide (utf8 (dumps value) = raw)) "canonical JSON" in
  Ok value.

(** ** [ballot] and [receipt] *)

Definition ballot (epoch : Z) (proposer : json) (incarnation : string) : result unit :=
  need (((epoch =? 1) && scalar_eqb proposer JNull && bool_decide (incarnation = ZERO))
        || ((1 <? epoch) && negb (scalar_eqb proposer JNull) && negb (bool_decide (incarnation = ZERO)))) "ballot/genesis".

Definition from_hex_text (s : string) : result bytes := of_option (from_hex s) (ValueError "fromhex").

(** [z.to_bytes(8, 'big')] *)
Definition to_bytes8 (z : Z) : result bytes :=
  do! guard ((0 <=? z) && (z <? 2 ^ 64)) (ValueError "int too big to convert") in Ok (be_split 8 z).

Definition receipt_hex (domain manifest voter : string) (epoch : Z) (proposer : json) (incarnation : string) (index : Z)
    (digest : string) : result string :=
  let! m := from_hex_text manifest in
  let! e := to_bytes8 epoch in
  let! p := as_text proposer in
  let! i := canonical_uuid incarnation in
  let! n := to_bytes8 index in
  let! d := from_hex_text digest in
  Ok (digest_hex (put_text ("gse-replication/1.2/" +:+ domain) ++ m ++ put_text voter ++ e ++ put_text p ++ i ++ n ++ d)).

(** ** [semantics]: what the schema cannot say *)

(** [base64.b64decode(v[key])] of a checked value *)
Definition unblob (v : json) : result bytes := let! s := as_text v in of_option (b64decode s) (ValueError "base64").
Definition get_blob (key : string) (v : json) : result bytes := let! x := get key v in unblob x.

Definition distinct {A} `{EqDecision A} (l : list A) : bool := bool_decide (NoDup l).

Definition plan_ceilings : list (string * Z) :=
  [("maxFrameBytes", 67108864); ("maxEntriesPerAppend", 10000); ("maxInFlightPerPeer", 4096);
   ("maxPendingClientOperations", 100000); ("maxRetryAttempts", 100); ("requestTimeoutMillis", 300000);
   ("retryBackoffMillis", 60000); ("snapshotChunkBytes", 67108864); ("maxRetainedLogBytes", 1099511627776);
   ("maxSnapshotStagingBytes", 1099511627776)]%string.

Section Semantics.
(** [inspect(raw, name)] of a nested frame *)
Context (ins : bytes -> string -> result json).

Definition entry_semantics (v : json) : result unit :=
  let! origin := get_int "originEpoch" v in
  let! incarnation := get_text "originIncarnation" v in
  let! operation := get_int "operation" v in
  do! need ((2 <=? origin) && negb (bool_decide (incarnation = ZERO)) && (1 <=? operation) && (operation <=? 10))
    "entry origin/op" in
  let! index := get_int "index" v in
  let! previous_index := get_int "previousIndex" v in
  let! previous_epoch := get_int "previousEpoch" v in
  do! need ((previous_index =? index - 1) && (previous_epoch <=? origin)) "entry predecessor" in
  let! payload := get_blob "payload" v in
  let! digest := get_text "payloadDigest" v in
  do! need (bool_decide (digest_hex payload = digest)) "payload digest" in
  need ((operation <=? 8) || bool_decide (payload = [])) "control payload".

Definition accept_semantics (v : json) : result unit :=
  let! raw := get_blob "entry" v in
  let! e := ins raw "ENTRY" in
  let! m := get_text "manifestDigest" v in
  let! m' := get_text "manifestDigest" e in
  let! d := get_text "entryDigest" v in
  let! epoch := get_int "epoch" v in
  let! origin := get_int "originEpoch" e in
  need (bool_decide (m = m') && bool_decide (d = frame_hex raw) && (origin <=? epoch)) "acceptance identity/origin".

Definition check_receipt (v : json) (r : json) : result unit :=
  let! digest := get_text "digest" r in
  let! m := get_text "manifestDigest" v in
  let! voter := get_text "voter" r in
  let! epoch := get_int "epoch" v in
  let! proposer := get "proposer" v in
  let! incarnation := get_text "incarnation" v in
  let! index := get_int "index" v in
  let! entry_digest := get_text "entryDigest" v in
  let! expected := receipt_hex "ACCEPT_ACK" m voter epoch proposer incarnation index entry_digest in
  need (bool_decide (digest = expected)) "receipt domain".

Definition proof_semantics (v : json) : result unit :=
  let! receipts := get_list "receipts" v in
  let! voters := map_all (get_text "voter") receipts in
  do! need (bool_decide (voters = sorted_set voters)) "distinct ordered receipt quorum" in
  check_all (check_receipt v) receipts.

Definition snapshot_semantics (v : json) : result unit :=
  let! sequence := get_int "applicationSequence" v in
  let! base := get_int "baseSequence" v in
  let! anchors := get_list "anchors" v in
  let! operations := map_all (get_int "operation") anchors in
  do! need (sequence =? base + Z.of_nat (length (filter (fun o => o <= 8) operations))) "application sequence" in
  let! terminal := get "terminalProof" v in
  do! need (Bool.eqb (negb (bool_decide (length anchors = 0%nat))) (negb (scalar_eqb terminal JNull)))
    "terminal proof presence" in
  if scalar_eqb terminal JNull then Ok tt else
  let! raw := unblob terminal in
  let! proof := ins raw "PROOF" in
  let! final := of_option (last anchors) IndexError in
  let! m := get_text "manifestDigest" proof in
  let! m' := get_text "manifestDigest" v in
  let! index := get_int "index" proof in
  let! d := get_text "entryDigest" proof in
  let! d' := get_text "entryDigest" final in
  let! epoch := get_int "epoch" proof in
  let! origin := get_int "originEpoch" final in
  need (bool_decide (m = m') && (index =? Z.of_nat (length anchors)) && bool_decide (d = d') && (origin <=? epoch))
    "snapshot terminal".

Definition selected_semantics (v : json) : result unit :=
  let! bases := get_list "bases" v in
  let! nodes := map_all (get_text "node") bases in
  do! need (bool_decide (length (remove_dups nodes) = 2%nat)) "selected basis quorum" in
  let! next := get "nextEntry" v in
  let! source := get "sourceBallot" v in
  need (Bool.eqb (scalar_eqb next JNull) (scalar_eqb source JNull)) "selected optional pair".

Definition floor_semantics (v : json) : result unit :=
  let! sources := get_list "sources" v in
  let! nodes := map_all (get_text "node") sources in
  need (bool_decide (length (remove_dups nodes) = 2%nat)) "floor requires two recovery sources".

Definition transfer_semantics (v : json) : result unit :=
  let! received := get_int "receivedBytes" v in
  let! image := get_int "imageBytes" v in
  need (received <=? image) "transfer progress".

Definition manifest_semantics (v : json) : result unit :=
  let! members := get_list "members" v in
  let! nodes := map_all (get_text "node") members in
  let! hosts := map_all (get_text "host") members in
  let! ports := map_all (get_int "port") members in
  need (bool_decide (length (remove_dups nodes) = 3%nat) && bool_decide (length (remove_dups (zip hosts ports)) = 3%nat))
    "distinct voters/endpoints".

Definition target_semantics (target : json) : result unit :=
  let! b := get "bounds" target in
  let! p := get "policy" target in
  let! r := get_int "requestTimeoutMillis" b in
  let! values := map_all (fun c : string * Z => let! z := get_int c.1 b in Ok (z <=? c.2)) plan_ceilings in
  do! need (forallb id values) "plan replication bound" in
  let! max_frame := get_int "maxFrameBytes" b in
  let! in_flight := get_int "maxInFlightPerPeer" b in
  let! chunk := get_int "snapshotChunkBytes" b in
  do! need ((131072 <=? max_frame) && (2 <=? in_flight) && (4096 <=? chunk)) "automatic control capacity" in
  let! heartbeat := get_int "heartbeatIntervalMillis" p in
  let! least := get_int "minElectionTimeoutMillis" p in
  let! most := get_int "maxElectionTimeoutMillis" p in
  let! operation := get_int "operationTimeoutMillis" p in
  need ((r <=? heartbeat) && (heartbeat <=? 300000) && (3 * heartbeat <=? least) && (least + heartbeat <=? most)
        && (most <=? 1500000) && (2 * r <=? operation) && (operation <=? 1200000)) "plan leadership policy".

Definition plan_semantics (v : json) : result unit :=
  let! mraw := get_blob "manifest" v in
  let! m := ins mraw "MANIFEST" in
  let! graw := get_blob "genesis" v in
  let! g := ins graw "GENESIS" in
  let! genesis_digest := get_text "genesisDigest" m in
  let! mg := get_text "groupId" m in let! gg := get_text "groupId" g in
  let! mh := get_text "historyId" m in let! gh := get_text "historyId" g in
  let! mb := get_int "baseSequence" m in let! gb := get_int "baseSequence" g in
  do! need (bool_decide (genesis_digest = frame_hex graw) && bool_decide (mg = gg) && bool_decide (mh = gh) && (mb =? gb))
    "plan genesis binding" in
  let! targets := get_list "targets" v in
  let! members := get_list "members" m in
  let! target_nodes := map_all (get_text "node") targets in
  let! member_nodes := map_all (get_text "node") members in
  do! need (bool_decide (target_nodes = member_nodes)) "plan target order" in
  let! authority := map_all (get_text "authorityPath") targets in
  let! materialization := map_all (get_text "materializationPath") targets in
  let! operation := get_text "operationPath" v in
  do! need (distinct (operation :: authority ++ materialization)) "plan path collision" in
  let! source_path := get "sourcePath" v in
  let! source := get_text "source" g in
  do! need (Bool.eqb (scalar_eqb source_path JNull) (bool_decide (source = "EMPTY"%string))) "plan source" in
  let! max_source := get_int "maxSourceBytes" v in
  let! max_operation := get_int "maxOperationBytes" v in
  do! need ((max_source <=? 2 ^ 40) && (max_operation <=? 2 ^ 40)) "plan byte bounds" in
  check_all target_semantics targets.

Definition receipt_semantics (v : json) : result unit :=
  let! raw := get_blob "plan" v in
  let! plan := ins raw "PLAN" in
  let! mraw := get_blob "manifest" plan in
  let! rows := get_list "preparations" v in
  let! preparations := map_all (fun p => let! b := unblob p in ins b "PREPARED") rows in
  let! nodes := map_all (get_text "node") preparations in
  let! targets := get_list "targets" plan in
  let! target_nodes := map_all (get_text "node") targets in
  do! need (bool_decide (nodes = target_nodes)) "receipt voter order" in
  check_all (fun p =>
    let! pd := get_text "planDigest" p in
    let! md := get_text "manifestDigest" p in
    need (bool_decide (pd = frame_hex raw) && bool_decide (md = frame_hex mraw)) "receipt plan binding") preparations.

Definition seal_semantics (v : json) : result unit :=
  let! raw := get_blob "receipt" v in
  let! r := ins raw "RECEIPT" in
  let! rows := get_list "preparations" r in
  let! nodes := map_all (fun p => let! b := unblob p in let! x := ins b "PREPARED" in get_text "node" x) rows in
  let! node := get_text "node" v in
  need (bool_decide (node ∈ nodes)) "seal voter".

Definition cleanup_semantics (v : json) : result unit :=
  let! files := get_list "files" v in
  let! paths := map_all (get_text "path") files in
  let! rows := get_list "deletePaths" v in
  let! deleted := map_all as_text rows in
  need (distinct paths && distinct deleted && bool_decide (deleted ⊆ paths)) "cleanup inventory".

Definition ballot_semantics (v : json) : result unit :=
  let! epoch := get_int "epoch" v in
  let! proposer := get "proposer" v in
  let! incarnation := get_text "incarnation" v in
  ballot epoch proposer incarnation.

Definition semantics (name : string) (v : json) : result unit :=
  do! (if bool_decide (name ∈ ["PROMISE"; "ACCEPT"; "PROOF"]%string) then ballot_semantics v else Ok tt) in
  if bool_decide (name = "MANIFEST"%string) then manifest_semantics v
  else if bool_decide (name = "ENTRY"%string) then entry_semantics v
  else if bool_decide (name = "ACCEPT"%string) then accept_semantics v
  else if bool_decide (name = "PROOF"%string) then proof_semantics v
  else if bool_decide (name = "SNAPSHOT"%string) then snapshot_semantics v
  else if bool_decide (name = "SELECTED"%string) then selected_semantics v
  else if bool_decide (name = "FLOOR"%string) then floor_semantics v
  else if bool_decide (name = "TRANSFER"%string) then transfer_semantics v
  else if bool_decide (name = "PLAN"%string) then plan_semantics v
  else if bool_decide (name = "RECEIPT"%string) then receipt_semantics v
  else if bool_decide (name = "SEAL"%string) then seal_semantics v
  else if bool_decide (name = "CLEANUP"%string) then cleanup_semantics v
  else Ok tt.
End Semantics.

(** ** [inspect] *)

(** The catalog [inspect] looks a name up in *)
Definition record_spec (name : string) : result spec :=
  of_option (assoc_get name (if bool_decide (name ∈ ["BOOTSTRAP_BINDING"; "BOOTSTRAP_CLEANUP"]%string)
                             then BOOTSTRAP_RECORDS else RECORDS)) KeyError.

Definition decode_body (e : encoding) (body : bytes) : result json :=
  match e with
  | CanonicalJson => json_body body
  | Binary fields =>
      let! m := run_reader (let* m := read_fields fields in do* expect_end (ValueError "trailing fields") in ret m) body in
      Ok (JObject m)
  end.

(** Header, length and digest of a storage frame, and its body decoded. *)
Definition open_frame (raw : bytes) (s : spec) : result json :=
  do! need ((48 <? Z.of_nat (length raw)) && (Z.of_nat (length raw) <=? sp_maximum s)) "frame capacity" in
  let! h := run_reader read_header (take 16 raw) in
  do! need (bool_decide (hd_magic h = utf8 "GSER") && (hd_major h =? 1) && (hd_minor h =? 2) && (hd_kind h =? sp_id s)
            && (hd_flags h =? 0)) "storage version/kind/flags" in
  do! need (frame_sealed raw h) "frame length/digest" in
  decode_body (sp_encoding s) (frame_body raw).

(** Frames nest to the depth the record kinds allow; [fuel] bounds that nesting. *)
Fixpoint inspect_nested (fuel : nat) (raw : bytes) (name : string) (depth : Z) : result json :=
  match fuel with
  | O => Err (AssertionError "fuel")
  | S fuel' =>
      do! need (depth <=? 16) "nested frame depth" in
      let! s := record_spec name in
      let! value := open_frame raw s in
      do! check_schema (inspect_nested fuel') (sp_schema s) value depth in
      do! semantics (fun raw name => inspect_nested fuel' raw name 0) name value in
      Ok value
  end.

(** The kinds nest at most five deep: BOOTSTRAP_CLEANUP, PLAN, GENESIS; SEAL, RECEIPT, PLAN, MANIFEST. *)
Definition NESTING : nat := 8.
Definition inspect (raw : bytes) (name : string) : result json := inspect_nested NESTING raw name 0.

(** ** [contextual_frame] *)

(** [dict(MANIFEST value, digest=...)] *)
Definition with_digest (value : json) (digest : string) : json :=
  match value with JObject m => JObject (assoc_set "digest"%string (JString digest) m) | v => v end.

Definition manifest_nodes (manifest : json) : result (list string) :=
  let! members := get_list "members" manifest in map_all (get_text "node") members.

(** A ballot whose proposer is the one its epoch ranks first. *)
Definition bound_ballot (nodes : list string) (epoch : Z) (proposer : json) (incarnation : string) : result unit :=
  do! ballot epoch proposer incarnation in
  if 1 <? epoch then
    let! expected := of_option (nodes !! Z.to_nat ((epoch - 2) mod 3)) IndexError in
    need (scalar_eqb proposer (JString expected)) "storage ranked proposer"
  else Ok tt.

Definition bound_ballot_of (nodes : list string) (v : json) : result unit :=
  let! epoch := get_int "epoch" v in
  let! proposer := get "proposer" v in
  let! incarnation := get_text "incarnation" v in
  bound_ballot nodes epoch proposer incarnation.

Definition selected_context (nodes : list string) (value : json) : result unit :=
  let! bases := get_list "bases" value in
  let! base_nodes := map_all (get_text "node") bases in
  let! b := get "ballot" value in
  let! proposer := get "proposer" b in
  need (forallb (fun n => bool_decide (n ∈ nodes)) base_nodes
        && existsb (fun n => scalar_eqb proposer (JString n)) base_nodes) "selected quorum identity".

(** [if condition: ...] *)
Definition when (condition : bool) (m : result unit) : result unit := if condition then m else Ok tt.

Definition frame_context (raw : bytes) (name : string) (manifest value : json) : result unit :=
  let! nodes := manifest_nodes manifest in
  let! digest := get_text "digest" manifest in
  do! when (has_key "manifestDigest" value)
        (let! m := get_text "manifestDigest" value in need (bool_decide (m = digest)) "nested manifest identity") in
  do! when (bool_decide (name ∈ ["MANIFEST"; "GENESIS"]%string))
        (let! a := get_text "groupId" value in let! b := get_text "groupId" manifest in
         need (bool_decide (a = b)) "group identity") in
  do! when (bool_decide (name = "MANIFEST"%string)) (need (bool_decide (frame_hex raw = digest)) "manifest bytes") in
  do! when (has_key "node" value) (let! n := get_text "node" value in need (bool_decide (n ∈ nodes)) "storage voter") in
  do! when (bool_decide (name ∈ ["PROMISE"; "ACCEPT"; "PROOF"]%string)) (bound_ballot_of nodes value) in
  do! when (has_key "ballot" value) (let! b := get "ballot" value in bound_ballot_of nodes b) in
  do! when (bool_decide (name = "PROOF"%string))
        (let! receipts := get_list "receipts" value in
         let! voters := map_all (get_text "voter") receipts in
         need (forallb (fun n => bool_decide (n ∈ nodes)) voters) "proof voter membership") in
  when (bool_decide (name = "SELECTED"%string)) (selected_context nodes value).

(** [walk_context]: [ctx raw name] binds a nested frame. *)
Fixpoint walk_context (ctx : bytes -> string -> result unit) (t : schema) (value : json) : result unit :=
  match t with
  | SOptional t' => match value with JNull => Ok tt | _ => walk_context ctx t' value end
  | SObject fields =>
      (fix members (fields : list (string * schema)) : result unit :=
         match fields with
         | [] => Ok tt
         | (k, s) :: fields' => let! x := get k value in do! walk_context ctx s x in members fields'
         end) fields
  | SArray t' _ _ => let! l := as_list value in check_all (walk_context ctx t') l
  | SName t' =>
      match frame_name t' with
      | Some name => let! raw := unblob value in ctx raw name
      | None => Ok tt
      end
  | SEnum _ | SInteger _ _ => Ok tt
  end.

Fixpoint contextual_nested (fuel : nat) (manifest : json) (raw : bytes) (name : string) : result json :=
  match fuel with
  | O => Err (AssertionError "fuel")
  | S fuel' =>
      let! value := inspect raw name in
      do! frame_context raw name manifest value in
      let! s := of_option (assoc_get name RECORDS) KeyError in
      do! walk_context (fun raw name => let! _ := contextual_nested fuel' manifest raw name in Ok tt) (sp_schema s) value in
      Ok value
  end.
Definition contextual_frame (raw : bytes) (name : string) (manifest : json) : result json :=
  contextual_nested NESTING manifest raw name.

(** ** [encode] *)

Section Encode.
Context (to_ascii : Z -> Ascii.ascii).

(** [json.dumps(value, ...).encode('ascii')] *)
Definition canonical (value : json) : bytes := utf8 (dumps value).

Definition encode (name : string) (value : json) : result bytes :=
  let! s := of_option (assoc_get name RECORDS) KeyError in
  let! body := (match sp_encoding s with
                | CanonicalJson => Ok (canonical value)
                | Binary fields => scalar_fields to_ascii fields value
                end) in
  do! guard (Z.of_nat (length body) <? 2 ^ 31) StructError in
  Ok (make_frame (utf8 "GSER") 2 (sp_id s) body).
End Encode.

(** [dict(value, key=x, ...)] and [value.update(...)] *)
Definition update (m : list (string * json)) (v : json) : json :=
  match v with JObject d => JObject (fold_left (fun d kv => assoc_set kv.1 kv.2 d) m d) | v => v end.

(** [dict(envelope, type=name, payload=payload)] as a message of the full catalog *)
Definition runtime_wire : list (string * (Z * schema)) := WIRE ++ WIRE_EXTENSIONS.
Definition encode_wire (name : string) (envelope payload : json) : result bytes :=
  let value := update [("type", JString name); ("payload", payload)]%string envelope in
  let! s := of_option (assoc_get name runtime_wire) KeyError in
  let body := canonical value in
  do! guard (Z.of_nat (length body) <? 2 ^ 31) StructError in
  Ok (make_frame (utf8 "GSRP") 2 s.1 body).

(** ** [wire] *)

(** What [wire] reads of a message, its envelope and payload apart. *)
Record message := Message {
  ms_type : string; ms_sender : string; ms_recipient : string; ms_epoch : Z; ms_proposer : json;
  ms_incarnation : string; ms_manifest : string; ms_payload : json }.

Definition read_message (value payload : json) : result message :=
  let! type := get_text "type" value in
  let! sender := get_text "sender" value in
  let! recipient := get_text "recipient" value in
  let! epoch := get_int "epoch" value in
  let! proposer := get "proposer" value in
  let! incarnation := get_text "incarnationId" value in
  let! m := get_text "manifestDigest" value in
  Ok (Message type sender recipient epoch proposer incarnation m payload).

(** [node == value['proposer']] *)
Definition is_proposer (m : message) (node : string) : bool := scalar_eqb (ms_proposer m) (JString node).

(** [(b['epoch'], b['proposer'], b['incarnation']) == (value['epoch'], ...)] *)
Definition same_ballot (b : json) (m : message) : result bool :=
  let! epoch := get_int "epoch" b in
  let! proposer := get "proposer" b in
  let! incarnation := get_text "incarnation" b in
  Ok ((epoch =? ms_epoch m) && scalar_eqb proposer (ms_proposer m) && bool_decide (incarnation = ms_incarnation m)).

Definition requests : list string := ["PREPARE"; "ACCEPT"; "COMMIT_PROOF"; "HEARTBEAT"; "COMMIT_ADVANCE"]%string.
Definition replies : list string := ["PROMISE"; "ACCEPT_ACK"; "COMMIT_PROOF_ACK"; "HEARTBEAT_ACK"]%string.
Definition genesis_messages : list string :=
  ["HANDSHAKE"; "AUTHORITY_STATUS_PROBE"; "AUTHORITY_STATUS"; "REJECT"]%string.

(** Group, peers and ballot *)
Definition wire_identity (value manifest : json) (m : message) : result unit :=
  let! group := get_text "groupId" value in let! group' := get_text "groupId" manifest in
  let! configuration := get_text "configurationId" value in let! configuration' := get_text "configurationId" manifest in
  let! digest := get_text "digest" manifest in
  do! need (bool_decide (group = group') && bool_decide (configuration = configuration')
            && bool_decide (ms_manifest m = digest)) "wire group/manifest" in
  let! nodes := manifest_nodes manifest in
  do! need (bool_decide (ms_sender m ∈ nodes) && bool_decide (ms_recipient m ∈ nodes)
            && negb (bool_decide (ms_sender m = ms_recipient m))) "wire peers" in
  do! ballot (ms_epoch m) (ms_proposer m) (ms_incarnation m) in
  if 1 <? ms_epoch m then
    let! expected := of_option (nodes !! Z.to_nat ((ms_epoch m - 2) mod 3)) IndexError in
    need (is_proposer m expected) "wire ranked proposer"
  else need (bool_decide (ms_type m ∈ genesis_messages)) "genesis authority message".

(** Who may send what to the proposer *)
Definition wire_direction (m : message) : result unit :=
  do! when (bool_decide (ms_type m ∈ requests)) (need (is_proposer m (ms_sender m)) "request proposer") in
  do! when (bool_decide (ms_type m ∈ replies)) (need (is_proposer m (ms_recipient m)) "response proposer") in
  when (has_key "response" (ms_payload m) && negb (bool_decide (ms_type m = "SOURCE_OFFER"%string)))
    (let! response := get_bool "response" (ms_payload m) in
     need (is_proposer m (if response then ms_recipient m else ms_sender m)) "snapshot request/response proposer").

Definition wire_selected (m : message) : result unit :=
  let! raw := get_blob "selected" (ms_payload m) in
  let! selected := inspect raw "SELECTED" in
  let! rows := get_list "bases" (ms_payload m) in
  let! bases := map_all unblob rows in
  let! descriptors := map_all (fun row => inspect row "BASIS") bases in
  let! b := get "ballot" selected in
  let! same := same_ballot b m in
  let! all_same := map_all (fun d => let! b := get "ballot" d in same_ballot b m) descriptors in
  do! need (same && forallb id all_same) "selected offer ballot" in
  let! listed := get_list "bases" selected in
  let! promised := map_all (fun x =>
    let! node := get_text "node" x in let! basis := get_text "basisId" x in let! d := get_text "basisDigest" x in
    Ok (node, basis, d)) listed in
  let! offered := map_all (fun p : bytes * json =>
    let! node := get_text "node" p.2 in let! basis := get_text "basisId" p.2 in
    Ok (node, basis, frame_hex p.1)) (zip bases descriptors) in
  need (bool_decide (promised = offered)) "selected offer exact bases".

(** Frames the payload carries *)
Definition wire_nested (m : message) : result unit :=
  do! when (bool_decide (ms_type m ∈ ["ACCEPT"; "COMMIT_PROOF"]%string))
        (let accept := bool_decide (ms_type m = "ACCEPT"%string) in
         let! raw := get_blob (if accept then "acceptance" else "proof") (ms_payload m) in
         let! record := inspect raw (if accept then "ACCEPT" else "PROOF") in
         let! same := same_ballot record m in
         need same "nested ballot") in
  do! when (bool_decide (ms_type m = "PROMISE"%string))
        (let! raw := get_blob "basis" (ms_payload m) in
         let! basis := inspect raw "BASIS" in
         let! b := get "ballot" basis in
         let! node := get_text "node" basis in
         let! same := same_ballot b m in
         need (bool_decide (node = ms_sender m) && same) "promise basis sender/ballot") in
  when (bool_decide (ms_type m = "SELECTED_OFFER"%string)) (wire_selected m).

Definition wire_receipt (m : message) : result unit :=
  when (bool_decide (ms_type m ∈ ["ACCEPT_ACK"; "COMMIT_PROOF_ACK"]%string))
    (let proof := bool_decide (ms_type m = "COMMIT_PROOF_ACK"%string) in
     let! digest := get_text (if proof then "proofDigest" else "entryDigest") (ms_payload m) in
     let! index := get_int "index" (ms_payload m) in
     let! receipt := get_text "receipt" (ms_payload m) in
     let! expected := receipt_hex (if proof then "PROOF_ACK" else "ACCEPT_ACK") (ms_manifest m) (ms_sender m) (ms_epoch m)
                        (ms_proposer m) (ms_incarnation m) index digest in
     need (bool_decide (receipt = expected)) "wire receipt domain").

Definition wire_chunk (m : message) : result unit :=
  when (has_key "chunk" (ms_payload m))
    (let! chunk := get_blob "chunk" (ms_payload m) in
     let! size := get_int "chunkBytes" (ms_payload m) in
     let! most := get_int "maxChunkBytes" (ms_payload m) in
     do! need (size <=? most) "chunk bound" in
     let! action := get_text "action" (ms_payload m) in
     let! digest := get_text "chunkDigest" (ms_payload m) in
     let empty := bool_decide (chunk = []) in
     if bool_decide (action = "DATA"%string) then
       need ((Z.of_nat (length chunk) =? size) && (0 <? size) && bool_decide (digest_hex chunk = digest)) "chunk data/digest"
     else if bool_decide (action = "REQUEST"%string) then
       need (empty && (size =? 0) && bool_decide (digest = digest_hex [])) "chunk request"
     else need (empty && (0 <? size)) "chunk acknowledgement").

(** Header, length and digest of a message, the schema its kind selects, and its body decoded. *)
Definition open_message (raw : bytes) : result (schema * json) :=
  do! need ((48 <? Z.of_nat (length raw)) && (Z.of_nat (length raw) <=? MAX_IMAGE)) "wire capacity" in
  let! h := run_reader read_header (take 16 raw) in
  let found := List.find (fun row : string * (Z * schema) => row.2.1 =? hd_kind h) runtime_wire in
  do! need (bool_decide (hd_magic h = utf8 "GSRP") && (hd_major h =? 1) && (hd_minor h =? 2) && (hd_flags h =? 0))
    "wire version/kind" in
  let! row := of_option found (ValueError "wire version/kind") in
  do! need (frame_sealed raw h) "wire length/digest" in
  let! value := json_body (frame_body raw) in
  Ok (row.2.2, value).

(** [envelope.pop('payload', None)].  A body that is a list of pairs would make a [dict] too; it is
    refused here, where Python refuses it at [value['type']]. *)
Definition split_payload (value : json) : result (json * json) :=
  match value with
  | JObject m =>
      Ok (JObject (List.filter (fun kv => negb (bool_decide (kv.1 = "payload"%string))) m),
          default JNull (assoc_get "payload"%string m))
  | _ => Err TypeError
  end.

Definition wire (raw : bytes) (manifest : json) : result json :=
  let! opened := open_message raw in
  let! parts := split_payload opened.2 in
  let ins := inspect_nested NESTING in
  do! check_schema ins (ENVELOPE (MESSAGE_TYPES ++ WIRE_EXTENSIONS.*1)) parts.1 0 in
  do! check_schema ins opened.1 parts.2 0 in
  do! walk_context (fun raw name => let! _ := contextual_frame raw name manifest in Ok tt) opened.1 parts.2 in
  let! m := read_message opened.2 parts.2 in
  let! h := run_reader read_header (take 16 raw) in
  let! s := of_option (assoc_get (ms_type m) runtime_wire) KeyError in
  do! need (s.1 =? hd_kind h) "wire type" in
  do! wire_identity opened.2 manifest m in
  do! wire_direction m in
  do! wire_nested m in
  do! wire_receipt m in
  do! wire_chunk m in
  Ok opened.2.
