(* ===== verification/AutoFixture.v ===== *)
(** * The generated (1,2) fixtures ([scripts/v51/fixtures.py])

    [generate] builds one frame of every record kind and one message of every type from the catalog,
    checking each as it goes. *)

From stdpp Require Import base gmap sets strings list sorting.
From stdpp Require Import pretty base list strings.
From S2P Require Import Prelude Bytes Sha256 Files Wire Json TextCodes ReplicaFrames Schema FormatCatalog AutoFormat.
Import StateNotations ResultNotations.
Local Open Scope py_scope.
Local Open Scope Z_scope.

Definition UUID : string := "11111111-1111-1111-1111-111111111111".
Definition HASH : string := hex (repeat (z2b 0xAB) 32).
Definition B64 (raw : bytes) : json := JString (b64encode raw).

Section Fixture.
Context (to_ascii : Z -> Ascii.ascii).

Definition fixture_receipt (domain manifest voter : string) (epoch : Z) (proposer incarnation : string) (index : Z)
    (digest : string) : result string :=
  let! d := pack_length (utf8 ("gse-replication/1.2/" +:+ domain)) in
  let! m := from_hex_text manifest in
  let! v := pack_length (utf8 voter) in
  let! e := pack_int 8 (JInt epoch) in
  let! p := pack_length (utf8 proposer) in
  let! i := uuid_bytes to_ascii incarnation in
  let! n := pack_int 8 (JInt index) in
  let! g := from_hex_text digest in
  Ok (digest_hex (concat [d; m; v; e; p; i; n; g])).

Definition scalars : list (string * json) :=
  [("hash", JString HASH); ("uuid", JString UUID); ("node", JString "node-1"); ("id", JString "fixture-v1");
   ("text", JString "/fixture/path"); ("relative", JString "file.gsr"); ("positive", JInt 2); ("counter", JInt 0);
   ("u8", JInt 9); ("blob", JString ""); ("bool", JBool false)]%string.

Definition frames := list (string * bytes).
Definition frame_of (name : string) (fs : frames) : result bytes := of_option (assoc_get name fs) KeyError.

Fixpoint sample (t : schema) (fs : frames) : result json :=
  match t with
  | SObject fields =>
      let! m := (fix members (fields : list (string * schema)) : result (list (string * json)) :=
                   match fields with
                   | [] => Ok []
                   | (k, s) :: fields' => let! x := sample s fs in let! rest := members fields' in Ok ((k, x) :: rest)
                   end) fields in
      Ok (JObject m)
  | SOptional _ => Ok JNull
  | SArray t' lo _ => let! l := map_all (fun _ => sample t' fs) (seq 0 (Z.to_nat lo)) in Ok (JArray l)
  | SEnum values => of_option (head values) IndexError
  | SInteger lo _ => Ok (JInt lo)
  | SName t' =>
      match frame_name t' with
      | Some name => let! raw := frame_of name fs in Ok (B64 raw)
      | None => of_option (assoc_get t' scalars) KeyError
      end
  end.

Definition order : list string :=
  ["GENESIS"; "MANIFEST"; "NODE"; "JOURNAL"; "PROMISE"; "ENTRY"; "ACCEPT"; "PROOF"; "READY"; "SNAPSHOT"; "IMAGE";
   "SELECTOR"; "GENERATION"; "FLOOR"; "REBUILDING"; "TRANSFER"; "STARTED"; "PLAN"; "PREPARED"; "RECEIPT"; "SEAL";
   "DECISION"; "CLEANUP"; "BASIS"; "SELECTED"]%string.

Definition node_name (i : Z) : string := "node-" +:+ pretty i.

(** [dict(epoch=..., proposer='node-1', incarnation=UUID)] *)
Definition ballot_members (epoch : Z) : list (string * json) :=
  [("epoch", JInt epoch); ("proposer", JString "node-1"); ("incarnation", JString UUID)]%string.

(** [for i, x in enumerate(l, first): x.update(f(i))] *)
Fixpoint update_each (f : Z -> list (string * json)) (first : Z) (l : list json) : list json :=
  match l with
  | [] => []
  | x :: l' => update (f first) x :: update_each f (first + 1) l'
  end.
Definition update_rows (key : string) (f : Z -> list (string * json)) (first : Z) (value : json) : result json :=
  let! rows := get_list key value in Ok (update [(key, JArray (update_each f first rows))] value).

Definition fixture_manifest_member (i : Z) : json :=
  JObject [("node", JString (node_name i)); ("host", JString (node_name i +:+ ".invalid")); ("port", JInt (19000 + i))]%string.

Definition fixture_policy : json :=
  JObject [("heartbeatIntervalMillis", JInt 5000); ("minElectionTimeoutMillis", JInt 15000);
           ("maxElectionTimeoutMillis", JInt 25000); ("operationTimeoutMillis", JInt 20000)]%string.
Definition fixture_bounds : json :=
  JObject [("maxFrameBytes", JInt 8388608); ("maxEntriesPerAppend", JInt 1000); ("maxInFlightPerPeer", JInt 256);
           ("maxPendingClientOperations", JInt 10000); ("maxRetryAttempts", JInt 12); ("requestTimeoutMillis", JInt 5000);
           ("retryBackoffMillis", JInt 250); ("snapshotChunkBytes", JInt 4194304); ("maxRetainedLogBytes", JInt 8589934592);
           ("maxSnapshotStagingBytes", JInt 17179869184)]%string.

Definition fixture_target (i : Z) : list (string * json) :=
  [("node", JString (node_name i)); ("authorityPath", JString ("/fixture/node-" +:+ pretty i));
   ("materializationPath", JString ("/fixture/app-" +:+ pretty i)); ("policy", fixture_policy); ("bounds", fixture_bounds)]%string.

(** [frames[name][16:48].hex()] *)
Definition digest_of (name : string) (fs : frames) : result json :=
  let! raw := frame_of name fs in Ok (JString (frame_hex raw)).
Definition text_of (name : string) (fs : frames) : result json := let! raw := frame_of name fs in Ok (B64 raw).

(** The nested [receipt(node)] of the PROOF fixture *)
Definition ack_receipt (manifest entry_digest node : string) : result string :=
  let! m := from_hex_text manifest in
  let! e := to_bytes8 5 in
  let! i := uuid_bytes to_ascii UUID in
  let! n := to_bytes8 1 in
  let! d := from_hex_text entry_digest in
  Ok (digest_hex (put_text "gse-replication/1.2/ACCEPT_ACK" ++ m ++ put_text node ++ e ++ put_text "node-1" ++ i ++ n ++ d)).

(** What the loop writes over the sample of one record kind. *)
Definition overrides (name : string) (fs : frames) (prepared : json) (manifest : option string) (value : json) : result json :=
  let manifest_digest := match manifest with Some d => JString d | None => JNull end in
  if bool_decide (name = "GENESIS"%string) then Ok (update [("source", JString "EMPTY")]%string value)
  else if bool_decide (name = "MANIFEST"%string) then
    let! g := digest_of "GENESIS" fs in
    Ok (update [("members", JArray (fixture_manifest_member <$> [1; 2; 3])); ("genesisDigest", g)]%string value)
  else if bool_decide (name = "PROMISE"%string) then Ok (update (ballot_members 5) value)
  else if bool_decide (name = "ENTRY"%string) then
    Ok (update [("originEpoch", JInt 2); ("originIncarnation", JString UUID); ("index", JInt 1); ("previousEpoch", JInt 1);
                ("previousIndex", JInt 0); ("previousDigest", manifest_digest); ("payloadDigest", JString (digest_hex []))]%string value)
  else if bool_decide (name = "ACCEPT"%string) then
    let! e := digest_of "ENTRY" fs in
    Ok (update [("entryDigest", e)]%string (update (ballot_members 5) value))
  else if bool_decide (name = "PROOF"%string) then
    let! e := digest_of "ENTRY" fs in
    let! entry_digest := as_text e in
    let! m := as_text manifest_digest in
    let! receipts := map_all (fun n => let! d := ack_receipt m entry_digest n in
                                       Ok (JObject [("voter", JString n); ("digest", JString d)]%string)) ["node-1"; "node-2"]%string in
    Ok (update [("index", JInt 1); ("entryDigest", e); ("previousDigest", manifest_digest); ("receipts", JArray receipts)]%string
         (update (ballot_members 5) value))
  else if bool_decide (name = "SNAPSHOT"%string) then
    let! e := digest_of "ENTRY" fs in
    let! p := text_of "PROOF" fs in
    Ok (update [("anchors", JArray [JObject [("originEpoch", JInt 2); ("originIncarnation", JString UUID); ("operation", JInt 9);
                                            ("entryDigest", e); ("payloadDigest", JString (digest_hex []))]]);
                ("terminalProof", p)]%string value)
  else if bool_decide (name = "TRANSFER"%string) then Ok (update [("ballot", JObject (ballot_members 5))]%string value)
  else if bool_decide (name = "FLOOR"%string) then
    update_rows "sources" (fun i => [("node", JString (node_name (i + 1)))]%string) 0 value
  else if bool_decide (name = "SELECTED"%string) then
    let! named := update_rows "bases" (fun i => [("node", JString (node_name (i + 1)))]%string) 0
                    (update [("ballot", JObject (ballot_members 5))]%string value) in
    let! e := text_of "ENTRY" fs in
    Ok (update [("prefixIndex", JInt 0); ("prefixDigest", manifest_digest); ("nextEntry", e);
                ("sourceBallot", JObject (ballot_members 2))]%string named)
  else if bool_decide (name = "PLAN"%string) then update_rows "targets" fixture_target 1 value
  else if bool_decide (name = "PREPARED"%string) then
    let! d := digest_of "PLAN" fs in Ok (update [("planDigest", d)]%string value)
  else if bool_decide (name = "READY"%string) then
    let! d := digest_of "GENESIS" fs in Ok (update [("genesisDigest", d)]%string value)
  else if bool_decide (name = "RECEIPT"%string) then
    let! preparations := map_all (fun i =>
      let! raw := encode to_ascii "PREPARED" (update [("node", JString (node_name i))]%string prepared) in Ok (B64 raw)) [1; 2; 3] in
    Ok (update [("preparations", JArray preparations)]%string value)
  else if bool_decide (name = "BASIS"%string) then
    let! image := frame_of "IMAGE" fs in
    Ok (update [("ballot", JObject (ballot_members 5)); ("imageDigest", JString (frame_hex image));
                ("imageBytes", JInt (Z.of_nat (length image)))]%string value)
  else Ok value.

(** [value['manifestDigest'] = manifest_digest or HASH] *)
Definition set_manifest (manifest : option string) (value : json) : json :=
  if has_key "manifestDigest" value then update [("manifestDigest", JString (default HASH manifest))]%string value else value.

(** The frames and values so far and the digest of the manifest. *)
Record generated := Generated { ge_frames : frames; ge_values : list (string * json); ge_manifest : option string }.

Definition value_of (name : string) (g : generated) : result json := of_option (assoc_get name (ge_values g)) KeyError.

Definition generate_record (g : generated) (name : string) : result generated :=
  let! s := of_option (assoc_get name RECORDS) KeyError in
  let! sampled := sample (sp_schema s) (ge_frames g) in
  let prepared := default JNull (assoc_get "PREPARED"%string (ge_values g)) in
  let! value := overrides name (ge_frames g) prepared (ge_manifest g) (set_manifest (ge_manifest g) sampled) in
  let! raw := encode to_ascii name value in
  let! _ := inspect raw name in
  Ok (Generated (assoc_set name raw (ge_frames g)) (assoc_set name value (ge_values g))
        (if bool_decide (name = "MANIFEST"%string) then Some (frame_hex raw) else ge_manifest g)).

Fixpoint fold_all {A S} (f : S -> A -> result S) (l : list A) (s : S) : result S :=
  match l with
  | [] => Ok s
  | x :: l' => let! s' := f s x in fold_all f l' s'
  end.

Definition envelope (manifest_digest : string) : json :=
  JObject [("protocol", JString "gse-replication/1.2"); ("groupId", JString UUID); ("configurationId", JString "fixture-v1");
           ("manifestDigest", JString manifest_digest); ("sender", JString "node-1"); ("recipient", JString "node-2");
           ("epoch", JInt 5); ("proposer", JString "node-1"); ("incarnationId", JString UUID); ("traceId", JString UUID);
           ("eventSequence", JInt 1)]%string.

Definition message_payload (g : generated) (manifest_digest name : string) (payload : json) : result json :=
  let payload := if has_key "promised" payload then update [("promised", JObject (ballot_members 5))]%string payload else payload in
  let! payload := (if has_key "chunkDigest" payload then
                     let! chunk := get_blob "chunk" payload in
                     Ok (update [("chunkDigest", JString (digest_hex chunk))]%string payload)
                   else Ok payload) in
  if bool_decide (name = "PROMISE"%string) then
    let! basis := value_of "BASIS" g in
    let! raw := encode to_ascii "BASIS" (update [("node", JString "node-2")]%string basis) in
    Ok (update [("basis", B64 raw)]%string payload)
  else if bool_decide (name = "ACCEPT_ACK"%string) then
    let! e := digest_of "ENTRY" (ge_frames g) in
    let! d := as_text e in
    let! r := fixture_receipt "ACCEPT_ACK" manifest_digest "node-2" 5 "node-1" UUID 1 d in
    Ok (update [("index", JInt 1); ("entryDigest", e); ("receipt", JString r)]%string payload)
  else if bool_decide (name = "COMMIT_PROOF_ACK"%string) then
    let! proof := frame_of "PROOF" (ge_frames g) in
    let! r := fixture_receipt "PROOF_ACK" manifest_digest "node-2" 5 "node-1" UUID 1 (digest_hex proof) in
    Ok (update [("index", JInt 1); ("proofDigest", JString (digest_hex proof)); ("receipt", JString r)]%string payload)
  else Ok payload.

Definition generate_message (g : generated) (manifest_digest : string) (manifest : json) (fs : frames)
    (row : string * (Z * schema)) : result frames :=
  let! sampled := sample row.2.2 (ge_frames g) in
  let reply := bool_decide (row.1 ∈ ["PROMISE"; "ACCEPT_ACK"; "COMMIT_PROOF_ACK"; "HEARTBEAT_ACK"]%string) in
  let message_envelope :=
    if reply then update [("sender", JString "node-2"); ("recipient", JString "node-1")]%string (envelope manifest_digest)
    else envelope manifest_digest in
  let! payload := message_payload g manifest_digest row.1 sampled in
  let! raw := encode_wire row.1 message_envelope payload in
  let! _ := wire raw manifest in
  Ok (assoc_set row.1 raw fs).

(** The frames, the messages and the manifest *)
Definition generate : result (frames * frames * json) :=
  let! g := fold_all generate_record order (Generated [] [] None) in
  let! values := value_of "MANIFEST" g in
  let! manifest_digest := of_option (ge_manifest g) TypeError in
  let manifest := with_digest values manifest_digest in
  do! check_all (fun row : string * bytes => let! _ := contextual_frame row.2 row.1 manifest in Ok tt) (ge_frames g) in
  let! wires := fold_all (generate_message g manifest_digest manifest) WIRE [] in
  Ok (ge_frames g, wires, manifest).

(** [{k: B64(v) for k, v in frames.items()}] *)
Definition texts (fs : frames) : json := JObject ((fun row : string * bytes => (row.1, B64 row.2)) <$> fs).

(** [a == b] of two dictionaries, whatever the order of their members *)
Definition same_json (a b : json) : bool := bool_decide (dumps a = dumps b).

(** [validate] behind the checksums of the tracked files: the counts of its report. *)
Definition validate_fixture (fixture : json) : result (nat * nat) :=
  let! generated := generate in
  let! m := get "manifest" fixture in
  do! need (same_json m generated.2) "manifest fixture" in
  let! storage := get "storage" fixture in
  do! need (same_json storage (texts generated.1.1)) "storage fixture drift" in
  let! w := get "wire" fixture in
  do! need (same_json w (texts generated.1.2)) "wire fixture drift" in
  Ok (length generated.1.1, length generated.1.2).
End Fixture.

(** ** The tracked (1,2) fixtures

    The base64 texts of [format-fixtures.json] for the record kinds up to STARTED, in the order in
    which [generate] builds them.  (The plan, its receipt and the seal are large; they follow the same
    code.) *)

Local Open Scope string_scope.

(** [fixture['storage']] *)
Definition tracked_storage : list (string * string) :=
  [("GENESIS", "R1NFUgABAAIAEAAAAAABUQCoGSswYAZg+TePqKpiFhrJBkXIaNVmcADOK7j57EvreyJhcHBsaWNhdGlvbiI6IiIsImJhc2VTZXF1ZW5jZSI6MCwiZ3JvdXBJZCI6IjExMTExMTExLTExMTEtMTExMS0xMTExLTExMTExMTExMTExMSIsImhpc3RvcnlJZCI6IjExMTExMTExLTExMTEtMTExMS0xMTExLTExMTExMTExMTExMSIsImluZGV4ZXNEaWdlc3QiOiJhYmFiYWJhYmFiYWJhYmFiYWJhYmFiYWJhYmFiYWJhYmFiYWJhYmFiYWJhYmFiYWJhYmFiYWJhYmFiYWJhYmFiIiwic2NoZW1hRGlnZXN0IjoiYWJhYmFiYWJhYmFiYWJhYmFiYWJhYmFiYWJhYmFiYWJhYmFiYWJhYmFiYWJhYmFiYWJhYmFiYWJhYmFiYWJhYiIsInNvdXJjZSI6IkVNUFRZIiwic291cmNlRGlnZXN0IjpudWxsfQ==");
   ("MANIFEST", "R1NFUgABAAIAAQAAAAACzUH+t1c2BiRja428P9O9HV3iBq/V01b7hfakRqcN0Qa7eyJiYXNlU2VxdWVuY2UiOjAsImNvZGVjSWQiOiJmaXh0dXJlLXYxIiwiY29kZWNWZXJzaW9uIjowLCJjb25maWd1cmF0aW9uSWQiOiJmaXh0dXJlLXYxIiwiZ2VuZXNpc0RpZ2VzdCI6IjAwYTgxOTJiMzA2MDA2NjBmOTM3OGZhOGFhNjIxNjFhYzkwNjQ1Yzg2OGQ1NjY3MDAwY2UyYmI4ZjllYzRiZWIiLCJnZW5lc2lzRXBvY2giOjEsImdyb3VwSWQiOiIxMTExMTExMS0xMTExLTExMTEtMTExMS0xMTExMTExMTExMTEiLCJoaXN0b3J5SWQiOiIxMTExMTExMS0xMTExLTExMTEtMTExMS0xMTExMTExMTExMTEiLCJpbmRleGVzRGlnZXN0IjoiYWJhYmFiYWJhYmFiYWJhYmFiYWJhYmFiYWJhYmFiYWJhYmFiYWJhYmFiYWJhYmFiYWJhYmFiYWJhYmFiYWJhYiIsIm1lbWJlcnMiOlt7Imhvc3QiOiJub2RlLTEuaW52YWxpZCIsIm5vZGUiOiJub2RlLTEiLCJwb3J0IjoxOTAwMX0seyJob3N0Ijoibm9kZS0yLmludmFsaWQiLCJub2RlIjoibm9kZS0yIiwicG9ydCI6MTkwMDJ9LHsiaG9zdCI6Im5vZGUtMy5pbnZhbGlkIiwibm9kZSI6Im5vZGUtMyIsInBvcnQiOjE5MDAzfV0sIm1vZGUiOiJBVVRPTUFUSUMiLCJwcm90b2NvbCI6ImdzZS1yZXBsaWNhdGlvbi8xLjIiLCJzY2hlbWFEaWdlc3QiOiJhYmFiYWJhYmFiYWJhYmFiYWJhYmFiYWJhYmFiYWJhYmFiYWJhYmFiYWJhYmFiYWJhYmFiYWJhYmFiYWJhYmFiIiwic3RvcmFnZU1ham9yIjoxLCJzdG9yYWdlTWlub3IiOjJ9");
   ("NODE", "R1NFUgABAAIAAgAAAAAAeu1Syx2ahag6Nt/ls7Fokdrdhcn4hkXro6E0IbCrXDBueyJtYW5pZmVzdERpZ2VzdCI6IjQxZmViNzU3MzYwNjI0NjM2YjhkYmMzZmQzYmQxZDVkZTIwNmFmZDVkMzU2ZmI4NWY2YTQ0NmE3MGRkMTA2YmIiLCJub2RlIjoibm9kZS0xIiwib3JpZ2luIjoiQk9PVFNUUkFQIn0=");
   ("JOURNAL", "R1NFUgABAAIAAwAAAAAAdCp50aDVb4C4ByN0ZljIUvrMo67fELGcJrAJQqf3T8HHeyJtYW5pZmVzdERpZ2VzdCI6IjQxZmViNzU3MzYwNjI0NjM2YjhkYmMzZmQzYmQxZDVkZTIwNmFmZDVkMzU2ZmI4NWY2YTQ0NmE3MGRkMTA2YmIiLCJub2RlIjoibm9kZS0xIiwicmVjb3JkS2luZCI6NH0=");
   ("PROMISE", "R1NFUgABAAIABAAAAAAAQ4JRmH7oKkv9LYZMiRtvnrCG+16XWAZz938hfqSU72lRQf63VzYGJGNrjbw/070dXeIGr9XTVvuF9qRGpw3RBrsAAAAAAAAABQEAAAAGbm9kZS0xEREREREREREREREREREREQ==");
   ("ENTRY", "R1NFUgABAAIABQAAAAAAlTlK12+WqhLiGL06Ou5nw84jhqCkMn1SsXTejYSm2QhHQf63VzYGJGNrjbw/070dXeIGr9XTVvuF9qRGpw3RBrsAAAAAAAAAAhEREREREREREREREREREREAAAAAAAAAAQkAAAAAAAAAAQAAAAAAAAAAQf63VzYGJGNrjbw/070dXeIGr9XTVvuF9qRGpw3RBrsAAAAA47DEQpj8HBSa+/TImW+5JCeuQeRkm5NMpJWZG3hSuFU=");
   ("ACCEPT", "R1NFUgABAAIAGAAAAAABKzptxlJF9X6v/vTBtrCsw6jObKzDrnjrAjNAqbV/QEUTQf63VzYGJGNrjbw/070dXeIGr9XTVvuF9qRGpw3RBrsAAAAAAAAABQAAAAZub2RlLTERERERERERERERERERERERAAAAxUdTRVIAAQACAAUAAAAAAJU5StdvlqoS4hi9OjruZ8POI4agpDJ9UrF03o2EptkIR0H+t1c2BiRja428P9O9HV3iBq/V01b7hfakRqcN0Qa7AAAAAAAAAAIRERERERERERERERERERERAAAAAAAAAAEJAAAAAAAAAAEAAAAAAAAAAEH+t1c2BiRja428P9O9HV3iBq/V01b7hfakRqcN0Qa7AAAAAOOwxEKY/BwUmvv0yJlvuSQnrkHkZJuTTKSVmRt4UrhVOUrXb5aqEuIYvTo67mfDziOGoKQyfVKxdN6NhKbZCEc=");
   ("PROOF", "R1NFUgABAAIABgAAAAAA4kJQA9qsS3f0zJNPl3d/5/TMep9+0aXHqIKeMRDxS46pQf63VzYGJGNrjbw/070dXeIGr9XTVvuF9qRGpw3RBrsAAAAAAAAABQAAAAZub2RlLTERERERERERERERERERERERAAAAAAAAAAE5StdvlqoS4hi9OjruZ8POI4agpDJ9UrF03o2EptkIR0H+t1c2BiRja428P9O9HV3iBq/V01b7hfakRqcN0Qa7AAAAArug3oS77b3lbbRLbi0fZhF525xki2FXSfaRnorKAlACAAAABm5vZGUtMUiCVEphWfjtp1wfWv0iPJXx4KFHLRWzQNiiz6QOXM3vAAAABm5vZGUtMg==");
   ("READY", "R1NFUgABAAIABwAAAAAAuJ1rP/pp3iwFDKT7ic3J7qggG6Wzv36CygFw6oSacbY4eyJnZW5lc2lzRGlnZXN0IjoiMDBhODE5MmIzMDYwMDY2MGY5Mzc4ZmE4YWE2MjE2MWFjOTA2NDVjODY4ZDU2NjcwMDBjZTJiYjhmOWVjNGJlYiIsIm1hbmlmZXN0RGlnZXN0IjoiNDFmZWI3NTczNjA2MjQ2MzZiOGRiYzNmZDNiZDFkNWRlMjA2YWZkNWQzNTZmYjg1ZjZhNDQ2YTcwZGQxMDZiYiIsIm5vZGUiOiJub2RlLTEifQ==");
   ("SNAPSHOT", "R1NFUgABAAIACAAAAAADHa+OOrMaRZlFvQlqKmxKrhWEpMHqqlocD35m5CQqP9oNeyJhbmNob3JzIjpbeyJlbnRyeURpZ2VzdCI6IjM5NGFkNzZmOTZhYTEyZTIxOGJkM2EzYWVlNjdjM2NlMjM4NmEwYTQzMjdkNTJiMTc0ZGU4ZDg0YTZkOTA4NDciLCJvcGVyYXRpb24iOjksIm9yaWdpbkVwb2NoIjoyLCJvcmlnaW5JbmNhcm5hdGlvbiI6IjExMTExMTExLTExMTEtMTExMS0xMTExLTExMTExMTExMTExMSIsInBheWxvYWREaWdlc3QiOiJlM2IwYzQ0Mjk4ZmMxYzE0OWFmYmY0Yzg5OTZmYjkyNDI3YWU0MWU0NjQ5YjkzNGNhNDk1OTkxYjc4NTJiODU1In1dLCJhcHBsaWNhdGlvbiI6IiIsImFwcGxpY2F0aW9uU2VxdWVuY2UiOjAsImJhc2VTZXF1ZW5jZSI6MCwibWFuaWZlc3REaWdlc3QiOiI0MWZlYjc1NzM2MDYyNDYzNmI4ZGJjM2ZkM2JkMWQ1ZGUyMDZhZmQ1ZDM1NmZiODVmNmE0NDZhNzBkZDEwNmJiIiwidGVybWluYWxQcm9vZiI6IlIxTkZVZ0FCQUFJQUJnQUFBQUFBNGtKUUE5cXNTM2YwekpOUGwzZC81L1RNZXA5KzBhWEhxSUtlTVJEeFM0NnBRZjYzVnpZR0pHTnJqYncvMDcwZFhlSUdyOVhUVnZ1RjlxUkdwdzNSQnJzQUFBQUFBQUFBQlFBQUFBWnViMlJsTFRFUkVSRVJFUkVSRVJFUkVSRVJFUkVSQUFBQUFBQUFBQUU1U3Rkdmxxb1M0aGk5T2pydVo4UE9JNGFncERKOVVyRjAzbzJFcHRrSVIwSCt0MWMyQmlSamE0MjhQOU85SFYzaUJxL1YwMWI3aGZha1JxY04wUWE3QUFBQUFydWczb1M3N2IzbGJiUkxiaTBmWmhGNTI1eGtpMkZYU2ZhUm5vcktBbEFDQUFBQUJtNXZaR1V0TVVpQ1ZFcGhXZmp0cDF3Zld2MGlQSlh4NEtGSExSV3pRTmlpejZRT1hNM3ZBQUFBQm01dlpHVXRNZz09In0=");
   ("IMAGE", "R1NFUgABAAIACQAAAAAE3AMzdnpYOCS4llUXHFMg01ZyB/gzYlPDDepAmZ00qSWVeyJhY2NlcHRhbmNlcyI6W10sIm1hbmlmZXN0RGlnZXN0IjoiNDFmZWI3NTczNjA2MjQ2MzZiOGRiYzNmZDNiZDFkNWRlMjA2YWZkNWQzNTZmYjg1ZjZhNDQ2YTcwZGQxMDZiYiIsInNuYXBzaG90IjoiUjFORlVnQUJBQUlBQ0FBQUFBQURIYStPT3JNYVJabEZ2UWxxS214S3JoV0VwTUhxcWxvY0QzNW01Q1FxUDlvTmV5SmhibU5vYjNKeklqcGJleUpsYm5SeWVVUnBaMlZ6ZENJNklqTTVOR0ZrTnpabU9UWmhZVEV5WlRJeE9HSmtNMkV6WVdWbE5qZGpNMk5sTWpNNE5tRXdZVFF6TWpka05USmlNVGMwWkdVNFpEZzBZVFprT1RBNE5EY2lMQ0p2Y0dWeVlYUnBiMjRpT2prc0ltOXlhV2RwYmtWd2IyTm9Jam95TENKdmNtbG5hVzVKYm1OaGNtNWhkR2x2YmlJNklqRXhNVEV4TVRFeExURXhNVEV0TVRFeE1TMHhNVEV4TFRFeE1URXhNVEV4TVRFeE1TSXNJbkJoZVd4dllXUkVhV2RsYzNRaU9pSmxNMkl3WXpRME1qazRabU14WXpFME9XRm1ZbVkwWXpnNU9UWm1Zamt5TkRJM1lXVTBNV1UwTmpRNVlqa3pOR05oTkRrMU9Ua3hZamM0TlRKaU9EVTFJbjFkTENKaGNIQnNhV05oZEdsdmJpSTZJaUlzSW1Gd2NHeHBZMkYwYVc5dVUyVnhkV1Z1WTJVaU9qQXNJbUpoYzJWVFpYRjFaVzVqWlNJNk1Dd2liV0Z1YVdabGMzUkVhV2RsYzNRaU9pSTBNV1psWWpjMU56TTJNRFl5TkRZek5tSTRaR0pqTTJaa00ySmtNV1ExWkdVeU1EWmhabVExWkRNMU5tWmlPRFZtTm1FME5EWmhOekJrWkRFd05tSmlJaXdpZEdWeWJXbHVZV3hRY205dlppSTZJbEl4VGtaVlowRkNRVUZKUVVKblFVRkJRVUZCTkd0S1VVRTVjWE5UTTJZd2VrcE9VR3d6WkM4MUwxUk5aWEE1S3pCaFdFaHhTVXRsVFZKRWVGTTBObkJSWmpZelZucFpSMHBIVG5KcVluY3ZNRGN3WkZobFNVZHlPVmhVVm5aMVJqbHhVa2R3ZHpOU1FuSnpRVUZCUVVGQlFVRkJRbEZCUVVGQlduVmlNbEpzVEZSRlVrVlNSVkpGVWtWU1JWSkZVa1ZTUlZKRlVrVlNRVUZCUVVGQlFVRkJRVVUxVTNSa2RteHhiMU0wYUdrNVQycHlkVm80VUU5Sk5HRm5jRVJLT1ZWeVJqQXpiekpGY0hSclNWSXdTQ3QwTVdNeVFtbFNhbUUwTWpoUU9VODVTRll6YVVKeEwxWXdNV0kzYUdaaGExSnhZMDR3VVdFM1FVRkJRVUZ5ZFdjemIxTTNOMkl6YkdKaVVreGlhVEJtV21oR05USTFlR3RwTWtaWVUyWmhVbTV2Y2t0QmJFRkRRVUZCUVVKdE5YWmFSMVYwVFZWcFExWkZjR2hYWm1wMGNERjNabGQyTUdsUVNsaDRORXRHU0V4U1YzcFJUbWxwZWpaUlQxaE5NM1pCUVVGQlFtMDFkbHBIVlhSTlp6MDlJbjA9In0=");
   ("SELECTOR", "R1NFUgABAAIACgAAAAAA10zTVASuy6p3jOuJq/kHXbE8nDD2EmyJmPmWvP+ojIoHeyJnZW5lcmF0aW9uIjoiZ2VuZXJhdGlvbi1hIiwiZ2VuZXJhdGlvbkRpZ2VzdCI6ImFiYWJhYmFiYWJhYmFiYWJhYmFiYWJhYmFiYWJhYmFiYWJhYmFiYWJhYmFiYWJhYmFiYWJhYmFiYWJhYmFiYWIiLCJtYW5pZmVzdERpZ2VzdCI6IjQxZmViNzU3MzYwNjI0NjM2YjhkYmMzZmQzYmQxZDVkZTIwNmFmZDVkMzU2ZmI4NWY2YTQ0NmE3MGRkMTA2YmIiLCJub2RlIjoibm9kZS0xIn0=");
   ("GENERATION", "R1NFUgABAAIACwAAAAABUjmHOVEH9ZQp4ojaJQpKVzsu6kPr0yRe5B9kREhm2TGFeyJmaWxlcyI6W3sicGF0aCI6ImZpbGUuZ3NyIiwic2hhMjU2IjoiYWJhYmFiYWJhYmFiYWJhYmFiYWJhYmFiYWJhYmFiYWJhYmFiYWJhYmFiYWJhYmFiYWJhYmFiYWJhYmFiYWJhYiIsInNpemUiOjB9XSwibWFuaWZlc3REaWdlc3QiOiI0MWZlYjc1NzM2MDYyNDYzNmI4ZGJjM2ZkM2JkMWQ1ZGUyMDZhZmQ1ZDM1NmZiODVmNmE0NDZhNzBkZDEwNmJiIiwibm9kZSI6Im5vZGUtMSIsInByZWZpeEluZGV4IjowLCJzZWxlY3RlZERpZ2VzdCI6bnVsbCwic25hcHNob3REaWdlc3QiOiJhYmFiYWJhYmFiYWJhYmFiYWJhYmFiYWJhYmFiYWJhYmFiYWJhYmFiYWJhYmFiYWJhYmFiYWJhYmFiYWJhYmFiIn0=");
   ("FLOOR", "R1NFUgABAAIADAAAAAACRJBpOkZkI6hzVaKSaCDftqy9f8uBu8xH8tg7zBG6BytSeyJlbnRyeURpZ2VzdCI6ImFiYWJhYmFiYWJhYmFiYWJhYmFiYWJhYmFiYWJhYmFiYWJhYmFiYWJhYmFiYWJhYmFiYWJhYmFiYWJhYmFiYWIiLCJpbmRleCI6MCwibWFuaWZlc3REaWdlc3QiOiI0MWZlYjc1NzM2MDYyNDYzNmI4ZGJjM2ZkM2JkMWQ1ZGUyMDZhZmQ1ZDM1NmZiODVmNmE0NDZhNzBkZDEwNmJiIiwibm9kZSI6Im5vZGUtMSIsInNvdXJjZXMiOlt7ImdlbmVyYXRpb25EaWdlc3QiOiJhYmFiYWJhYmFiYWJhYmFiYWJhYmFiYWJhYmFiYWJhYmFiYWJhYmFiYWJhYmFiYWJhYmFiYWJhYmFiYWJhYmFiIiwibm9kZSI6Im5vZGUtMSIsInNuYXBzaG90RGlnZXN0IjoiYWJhYmFiYWJhYmFiYWJhYmFiYWJhYmFiYWJhYmFiYWJhYmFiYWJhYmFiYWJhYmFiYWJhYmFiYWJhYmFiYWJhYiJ9LHsiZ2VuZXJhdGlvbkRpZ2VzdCI6ImFiYWJhYmFiYWJhYmFiYWJhYmFiYWJhYmFiYWJhYmFiYWJhYmFiYWJhYmFiYWJhYmFiYWJhYmFiYWJhYmFiYWIiLCJub2RlIjoibm9kZS0yIiwic25hcHNob3REaWdlc3QiOiJhYmFiYWJhYmFiYWJhYmFiYWJhYmFiYWJhYmFiYWJhYmFiYWJhYmFiYWJhYmFiYWJhYmFiYWJhYmFiYWJhYmFiIn1dfQ==");
   ("REBUILDING", "R1NFUgABAAIADQAAAAAAZbvea7nzDIYt391CxDsSP1x3o+kLzlfO7AfV9eMLcDCveyJtYW5pZmVzdERpZ2VzdCI6IjQxZmViNzU3MzYwNjI0NjM2YjhkYmMzZmQzYmQxZDVkZTIwNmFmZDVkMzU2ZmI4NWY2YTQ0NmE3MGRkMTA2YmIiLCJub2RlIjoibm9kZS0xIn0=");
   ("TRANSFER", "R1NFUgABAAIADgAAAAABaQVVg08cZrjkW6rxMu3gYpYgGFE6DdBDvfahxN90Jd31eyJiYWxsb3QiOnsiZXBvY2giOjUsImluY2FybmF0aW9uIjoiMTExMTExMTEtMTExMS0xMTExLTExMTEtMTExMTExMTExMTExIiwicHJvcG9zZXIiOiJub2RlLTEifSwiaW1hZ2VCeXRlcyI6MSwiaW1hZ2VEaWdlc3QiOiJhYmFiYWJhYmFiYWJhYmFiYWJhYmFiYWJhYmFiYWJhYmFiYWJhYmFiYWJhYmFiYWJhYmFiYWJhYmFiYWJhYmFiIiwibWFuaWZlc3REaWdlc3QiOiI0MWZlYjc1NzM2MDYyNDYzNmI4ZGJjM2ZkM2JkMWQ1ZGUyMDZhZmQ1ZDM1NmZiODVmNmE0NDZhNzBkZDEwNmJiIiwibm9kZSI6Im5vZGUtMSIsInJlY2VpdmVkQnl0ZXMiOjAsInRyYW5zZmVySWQiOiIxMTExMTExMS0xMTExLTExMTEtMTExMS0xMTExMTExMTExMTEifQ==");
   ("STARTED", "R1NFUgABAAIADwAAAAAAZT6w+Lt/Sdh/PqeMUKXroO/mQBiocYBNTxeF2ZlB5rbVeyJtYW5pZmVzdERpZ2VzdCI6IjQxZmViNzU3MzYwNjI0NjM2YjhkYmMzZmQzYmQxZDVkZTIwNmFmZDVkMzU2ZmI4NWY2YTQ0NmE3MGRkMTA2YmIiLCJub2RlIjoibm9kZS0xIn0=")].
