(* ===== verification/AutoProofs.v ===== *)
(** * The reader and the writer of a schema are inverse *)

From Stdlib Require Import Ascii.
From stdpp Require Import base sets list strings gmap.
From S2P Require Import Prelude Bytes Sha256 Files Wire Json TextCodes ReplicaFrames Schema FormatCatalog AutoFormat.
Import StateNotations ResultNotations.
Local Open Scope py_scope.
Local Open Scope Z_scope.

#[local] Opaque be_split sha256.

(** ** Induction on schemas, through the fields of objects *)

Section SchemaInd.
Context (P : schema -> Prop).
Context (HName : forall t, P (SName t)) (HOptional : forall t, P t -> P (SOptional t)).
Context (HObject : forall fields, Forall (fun f : string * schema => P f.2) fields -> P (SObject fields)).
Context (HArray : forall t lo hi, P t -> P (SArray t lo hi)) (HEnum : forall values, P (SEnum values)).
Context (HInteger : forall lo hi, P (SInteger lo hi)).

Fixpoint schema_induction (t : schema) : P t :=
  match t with
  | SName t => HName t
  | SOptional t => HOptional t (schema_induction t)
  | SObject fields =>
      HObject fields
        ((fix members (fields : list (string * schema)) : Forall (fun f : string * schema => P f.2) fields :=
            match fields with
            | [] => Forall_nil_2 _
            | (k, s) :: fields' => Forall_cons_2 _ (k, s) fields' (schema_induction s) (members fields')
            end) fields)
  | SArray t lo hi => HArray t lo hi (schema_induction t)
  | SEnum values => HEnum values
  | SInteger lo hi => HInteger lo hi
  end.
End SchemaInd.

(** A schema a value can be read back from: field names do not repeat, an optional part is not
    itself optional, and no count is negative. *)
Definition is_optional (t : schema) : bool := match t with SOptional _ => true | _ => false end.

Fixpoint readable (t : schema) : bool :=
  match t with
  | SOptional t' => negb (is_optional t') && readable t'
  | SObject fields =>
      distinct fields.*1 &&
      (fix members (fields : list (string * schema)) : bool :=
         match fields with
         | [] => true
         | (_, s) :: fields' => readable s && members fields'
         end) fields
  | SArray t' lo _ => (0 <=? lo) && readable t'
  | _ => true
  end.
Definition readable_fields (fields : list (string * schema)) : bool := forallb (fun f : string * schema => readable f.2) fields.

Lemma readable_object fields : readable (SObject fields) = distinct fields.*1 && readable_fields fields.
Proof.
  cbn [readable]. f_equal. unfold readable_fields. induction fields as [|[k s] fields IH]; [done|].
  cbn [forallb snd]. by rewrite IH.
Qed.

(** ** Scalars *)

Lemma decode_utf8_ok e raw s : decode_utf8 e raw = Ok s -> utf8 s = raw.
Proof. unfold decode_utf8. destruct (utf8_valid raw); intros [= <-]. apply utf8_str. Qed.

Section Inverse.
Context (to_ascii : Z -> ascii).

Lemma pack_length_ok raw :
  signed_range 4 (Z.of_nat (length raw)) -> pack_length raw = Ok (be_split 4 (Z.of_nat (length raw)) ++ raw).
Proof.
  intros Hn. unfold signed_range in Hn. change (8 * Z.of_nat 4 - 1) with 31 in Hn. unfold pack_length.
  destruct (Z.ltb_spec (Z.of_nat (length raw)) (2 ^ 31)); [done|lia].
Qed.

Lemma read_name_scalar t s v s2 :
  read_name t s = (Ok v, s2) -> exists bs, scalar_name to_ascii t v = Ok bs /\ s = bs ++ s2 /\ v <> JNull.
Proof.
  unfold read_name, scalar_name, take_raw. intros H. repeat case_bool_decide.
  - ok_inv H. fields_inv. subst. cbn [as_text rbind]. rewrite from_hex_hex. by eexists.
  - ok_inv H. fields_inv. subst. cbn [as_text rbind]. rewrite uuid_bytes_text by lia. by eexists.
  - ok_inv H. fields_inv. subst. unfold pack_int. rewrite bool_decide_eq_true_2 by done. by eexists.
  - ok_inv H. fields_inv. subst. unfold pack_byte, unsigned_range in *. change (2 ^ (8 * Z.of_nat 1)) with 256 in *.
    replace ((0 <=? x) && (x <? 256)) with true by lia. by eexists.
  - unfold needs in H. ok_inv H. fields_inv. subst. destruct (is_blob t); ok_inv H; subst; cbn [as_text rbind of_option].
    + rewrite b64decode_encode. cbn [of_option rbind]. rewrite pack_length_ok by done. eexists. by rewrite <- app_assoc.
    + match goal with A : decode_utf8 _ _ = _ |- _ => apply decode_utf8_ok in A as <- end.
      rewrite pack_length_ok by done. eexists. by rewrite <- app_assoc.
Qed.

(** ** Composite schemas *)

Lemma read_object fields s : read_schema (SObject fields) s = bind (read_fields fields) (fun m => ret (JObject m)) s.
Proof. reflexivity. Qed.

Lemma scalar_object fields v : scalar to_ascii (SObject fields) v = scalar_fields to_ascii fields v.
Proof.
  cbn [scalar]. induction fields as [|[k t] fields IH]; [done|]. cbn [scalar_fields].
  destruct (Schema.get k v) as [x|]; [|done]. cbn [rbind]. destruct (scalar to_ascii t x); [|done]. cbn [rbind].
  by rewrite IH.
Qed.

(** What reading a schema promises: the writer gives the consumed bytes back. *)
Definition inverse (t : schema) : Prop :=
  readable t = true -> forall s v s2, read_schema t s = (Ok v, s2) ->
  exists bs, scalar to_ascii t v = Ok bs /\ s = bs ++ s2 /\ (is_optional t = false -> v <> JNull).

Lemma read_fields_inverse fields :
  Forall (fun f : string * schema => inverse f.2) fields -> readable_fields fields = true ->
  forall s m s2, read_fields fields s = (Ok m, s2) ->
  m.*1 = fields.*1 /\
  forall M, (forall k x, (k, x) ∈ m -> assoc_get k M = Some x) ->
  exists bs, scalar_fields to_ascii fields (JObject M) = Ok bs /\ s = bs ++ s2.
Proof.
  induction 1 as [|[k t] fields Ht Hf IH]; intros Hr s m s2 H.
  - apply ret_ok in H as [<- <-]. split; [done|]. intros M _. by exists [].
  - cbn [read_fields] in H. ok_inv H. subst. unfold readable_fields in Hr. cbn [forallb snd] in Hr. bool_tac.
    destruct (Ht ltac:(assumption) _ _ _ Hx) as (bs & Hb & -> & _). destruct (IH ltac:(assumption) _ _ _ Hx0) as [Hk Hm].
    split; [by cbn; rewrite Hk|]. intros M HM. destruct (Hm M) as (bs' & Hb' & ->).
    { intros k' x' Hin. apply HM. by right. }
    exists (bs ++ bs'). cbn [scalar_fields]. unfold Schema.get. rewrite (HM k x) by left. cbn [of_option rbind].
    cbn [snd] in Hb. rewrite Hb. cbn [rbind]. rewrite Hb'. by rewrite <- app_assoc.
Qed.

Lemma read_items_inverse t n s l s2 :
  inverse t -> readable t = true -> repeat_reader n (read_schema t) s = (Ok l, s2) ->
  length l = n /\ exists items, map_all (scalar to_ascii t) l = Ok items /\ s = concat items ++ s2.
Proof.
  intros Ht Hr. revert s l. induction n as [|n IH]; intros s l H; cbn [repeat_reader] in H.
  - apply ret_ok in H as [<- <-]. split; [done|]. by exists [].
  - ok_inv H. subst. destruct (Ht Hr _ _ _ Hx) as (bs & Hb & -> & _). apply IH in Hx0 as [Hl (items & Hi & ->)].
    split; [by cbn; rewrite Hl|]. exists (bs :: items). cbn [map_all]. rewrite Hb, Hi. split; [done|]. cbn. by rewrite <- app_assoc.
Qed.

Lemma schema_inverse t : inverse t.
Proof.
  induction t as [t|t IH|fields IH|t lo hi IH|values|lo hi] using schema_induction; intros Hr s v s2 H.
  - apply read_name_scalar in H as (bs & ? & ? & ?). by exists bs.
  - cbn [readable] in Hr. bool_tac. cbn [read_schema] in H. unfold take_raw, needs in H. ok_inv H. fields_inv. subst.
    rewrite orb_true_iff, !bool_decide_eq_true in *. case_bool_decide.
    + ok_inv H. subst. by eexists.
    + destruct (IH ltac:(assumption) _ _ _ H) as (bs & Hb & -> & Hv). specialize (Hv ltac:(assumption)).
      match goal with A : _ \/ _ |- _ => destruct A as [? | ->]; [done|] end.
      exists (Byte.x01 :: bs). cbn [scalar]. rewrite Hb. split_and!; [by destruct v|done|done].
  - rewrite readable_object in Hr. bool_tac. rewrite read_object in H. ok_inv H. subst.
    destruct (read_fields_inverse _ IH ltac:(assumption) _ _ _ Hx) as [Hk Hm].
    destruct (Hm x) as (bs & Hb & ->).
    { intros k y. apply assoc_get_NoDup. rewrite Hk. unfold distinct in *. by bool_tac. }
    exists bs. by rewrite scalar_object.
  - cbn [readable] in Hr. bool_tac. cbn [read_schema] in H. unfold needs, times in H. ok_inv H. fields_inv. bool_tac. subst.
    destruct (read_items_inverse t _ _ _ _ IH ltac:(assumption) ltac:(eassumption)) as [Hl (items & Hi & ->)].
    eexists. cbn [scalar as_list rbind]. rewrite Hl, Z2Nat.id by lia.
    match goal with A : signed_range 4 _ |- _ => unfold signed_range in A; change (8 * Z.of_nat 4 - 1) with 31 in A end.
    rewrite (proj2 (Z.ltb_lt _ _)) by lia. cbn [guard rbind]. rewrite Hi. cbn [rbind]. rewrite <- app_assoc. done.
  - cbn [read_schema] in H. ok_inv H. done.
  - cbn [read_schema] in H. ok_inv H. done.
Qed.
End Inverse.

(** ** Frames *)

(** The sixteen bytes of a header, from its fields *)
Lemma header_bytes raw h :
  length raw = 16%nat -> run_reader read_header raw = Ok h ->
  raw = hd_magic h ++ be_split 2 (hd_major h) ++ be_split 2 (hd_minor h) ++ be_split 2 (hd_kind h) ++ be_split 2 (hd_flags h)
        ++ be_split 4 (hd_size h) /\ signed_range 4 (hd_size h).
Proof.
  intros Hl H. unfold run_reader, read_header in H. apply run_reader_ok in H as [s2 H]. ok_inv H. fields_inv. subst. cbn.
  rewrite !length_app, !length_be_split in Hl.
  assert (length x = 4%nat) as Hx by lia. assert (s2 = []) as -> by (apply nil_length_inv; lia).
  by rewrite app_nil_r.
Qed.

Lemma put_frame_parts raw : (48 < length raw)%nat -> raw = take 16 raw ++ frame_sum raw ++ frame_body raw.
Proof.
  intros Hl. unfold frame_sum, frame_body. rewrite <- (take_drop 16 raw) at 1. f_equal.
  rewrite <- (take_drop 32 (drop 16 raw)) at 1. by rewrite drop_drop.
Qed.

(** A frame whose header, length and digest were accepted is the frame of its body. *)
Lemma sealed_frame raw h magic kind :
  48 < Z.of_nat (length raw) -> run_reader read_header (take 16 raw) = Ok h ->
  hd_magic h = magic -> hd_major h = 1 -> hd_minor h = 2 -> hd_kind h = kind -> hd_flags h = 0 ->
  frame_sealed raw h = true ->
  make_frame magic 2 kind (frame_body raw) = raw /\ Z.of_nat (length (frame_body raw)) < 2 ^ 31.
Proof.
  intros Hl Hh <- Hmaj Hmin <- Hf Hs. unfold frame_sealed in Hs. bool_tac.
  apply header_bytes in Hh as [Hb Hr]; [|rewrite length_take; lia].
  assert (hd_size h = Z.of_nat (length (frame_body raw))) as Hz.
  { unfold frame_body. rewrite length_drop. lia. }
  unfold signed_range in Hr. change (8 * Z.of_nat 4 - 1) with 31 in Hr. split; [|lia].
  assert (put_header (hd_magic h) 2 (hd_kind h) (Z.of_nat (length (frame_body raw))) = take 16 raw) as Hp.
  { rewrite <- Hz, Hb at 1. unfold put_header. by rewrite Hmaj, Hmin, Hf. }
  unfold make_frame. rewrite Hp. transitivity (take 16 raw ++ frame_sum raw ++ frame_body raw).
  - match goal with A : sha256 _ = _ |- _ => by rewrite A end.
  - symmetry. apply put_frame_parts. lia.
Qed.

(** Every binary record of the catalog can be read back. *)
Lemma records_readable name s fields :
  assoc_get name RECORDS = Some s -> sp_encoding s = Binary fields -> distinct fields.*1 = true /\ readable_fields fields = true.
Proof.
  intros H%assoc_get_elem He.
  assert (Forall (fun row : string * spec =>
            match sp_encoding row.2 with CanonicalJson => true | Binary fields => distinct fields.*1 && readable_fields fields end = true)
          RECORDS) as Ha.
  { apply Forall_forall. intros row Hrow. assert (forallb (fun row : string * spec =>
      match sp_encoding row.2 with CanonicalJson => true | Binary fields => distinct fields.*1 && readable_fields fields end) RECORDS = true) as Hf
      by (vm_compute; reflexivity).
    rewrite forallb_forall in Hf. apply Hf. by apply list_elem_of_In. }
  rewrite Forall_forall in Ha. specialize (Ha _ H). cbn [snd] in Ha. rewrite He in Ha. by bool_tac.
Qed.

(** A decoded body is encoded to the same bytes. *)
Lemma decode_body_canonical to_ascii name s body v :
  assoc_get name RECORDS = Some s -> decode_body (sp_encoding s) body = Ok v ->
  match sp_encoding s with
  | CanonicalJson => Ok (canonical v)
  | Binary fields => scalar_fields to_ascii fields v
  end = Ok body.
Proof.
  intros Hs H. destruct (sp_encoding s) as [|fields] eqn:He.
  - cbn [decode_body] in H. unfold json_body, need in H. ok_inv H. injection H as <-. bool_tac. by f_equal.
  - destruct (records_readable _ _ _ Hs He) as [Hd Hr]. cbn [decode_body] in H. apply rbind_ok in H as (m & Hm & [= <-]).
    apply run_reader_ok in Hm as [s2 Hm]. ok_inv Hm. fields_inv. subst.
    destruct (read_fields_inverse to_ascii fields) with (s := body) (m := m) (s2 := @nil Byte.byte) as [Hk Hall]; [|done..|].
    { apply Forall_forall. intros [k t] _. apply schema_inverse. }
    destruct (Hall m) as (bs & Hb & ->).
    { intros k y. apply assoc_get_NoDup. rewrite Hk. unfold distinct in Hd. by bool_tac. }
    by rewrite app_nil_r.
Qed.

Lemma open_frame_canonical to_ascii name s raw v :
  assoc_get name RECORDS = Some s -> open_frame raw s = Ok v -> encode to_ascii name v = Ok raw.
Proof.
  intros Hs H. unfold open_frame, need in H. ok_inv H. bool_tac. destruct (sealed_frame raw x0 (utf8 "GSER") (sp_id s)) as [Hm Hl]; try done.
  unfold encode. rewrite Hs. cbn [of_option rbind]. rewrite (decode_body_canonical to_ascii name s _ v Hs H). cbn [rbind].
  rewrite (proj2 (Z.ltb_lt _ _)) by done. cbn [guard rbind]. by f_equal.
Qed.

Lemma inspect_opens raw name s v : assoc_get name RECORDS = Some s -> inspect raw name = Ok v -> open_frame raw s = Ok v.
Proof.
  intros Hs H. unfold inspect, NESTING in H. cbn [inspect_nested] in H. unfold need in H. ok_inv H. injection H as <-.
  match goal with A : record_spec name = Ok ?x |- _ => assert (x = s) as -> end; [|done].
  unfold record_spec in *. case_bool_decide as Hn.
  - exfalso. set_unfold in Hn. destruct Hn as [Hn|[Hn|[]]]; subst; vm_compute in Hs; congruence.
  - rewrite Hs in *. cbn in *. congruence.
Qed.

(** ** Messages *)

(** The body of an accepted message, and the row of the catalog its kind selects *)
Lemma open_message_ok raw t v :
  open_message raw = Ok (t, v) ->
  exists name kind, (name, (kind, t)) ∈ runtime_wire /\ raw = make_frame (utf8 "GSRP") 2 kind (canonical v) /\
  exists h, run_reader read_header (take 16 raw) = Ok h /\ hd_kind h = kind.
Proof.
  intros H. unfold open_message, need in H. ok_inv H. injection H as <- <-. bool_tac.
  match goal with A : List.find _ _ = Some ?r |- _ => apply List.find_some in A as [Hin Hk]; destruct r as [name [kind t]] end.
  cbn [fst snd] in *. apply Z.eqb_eq in Hk. exists name, kind. split; [by apply list_elem_of_In|].
  match goal with A : run_reader read_header _ = Ok ?h |- _ =>
    destruct (sealed_frame raw h (utf8 "GSRP") kind) as [Hm _]; try done end.
  split; [|by eexists]. rewrite <- Hm at 1. f_equal.
  match goal with A : json_body _ = Ok _ |- _ => unfold json_body, need in A; ok_inv A; injection A as <- end. by bool_tac.
Qed.

(** ** The types of the (1,2) records

    What a schema promises of a value, stated without the depth counter and the order of the checks:
    scalars by the data they spell, and frames in a value by the value they hold in turn. *)

#[local] Transparent be_split sha256.

Inductive scalar_typed : string -> json -> Prop :=
  | Sc_positive z : 1 <= z <= LONG_MAX -> scalar_typed "positive" (JInt z)
  | Sc_counter z : 0 <= z <= LONG_MAX -> scalar_typed "counter" (JInt z)
  | Sc_u8 z : 0 <= z <= 255 -> scalar_typed "u8" (JInt z)
  | Sc_bool b : scalar_typed "bool" (JBool b)
  | Sc_hash bs : length bs = 32%nat -> scalar_typed "hash" (JString (hex bs))
  | Sc_uuid bs : length bs = 16%nat -> scalar_typed "uuid" (JString (uuid_text bs))
  | Sc_id s : is_identity 128 s = true -> scalar_typed "id" (JString s)
  | Sc_node s : is_identity 64 s = true -> scalar_typed "node" (JString s)
  | Sc_text s : 0 < text_size s <= 4096 -> Byte.x00 ∉ utf8 s -> scalar_typed "text" (JString s)
  | Sc_relative s :
      0 < text_size s <= 4096 -> Byte.x00 ∉ utf8 s -> relative_path s = true -> scalar_typed "relative" (JString s)
  | Sc_blob raw : Z.of_nat (length raw) <= MAX_IMAGE -> scalar_typed "blob" (JString (b64encode raw)).

Inductive typed : schema -> json -> Prop :=
  | T_scalar t v : scalar_typed t v -> typed (SName t) v
  | T_frame t name raw v :
      frame_name t = Some name -> Z.of_nat (length raw) <= MAX_IMAGE -> accepted raw name v ->
      typed (SName t) (JString (b64encode raw))
  | T_absent t : typed (SOptional t) JNull
  | T_present t v : typed t v -> typed (SOptional t) v
  | T_object fields m :
      (forall k, k ∈ m.*1 <-> k ∈ fields.*1) ->
      (forall k t, (k, t) ∈ fields -> exists x, assoc_get k m = Some x /\ typed t x) ->
      typed (SObject fields) (JObject m)
  | T_array t lo hi l :
      lo <= Z.of_nat (length l) <= hi -> (forall x, x ∈ l -> typed t x) -> typed (SArray t lo hi) (JArray l)
  | T_enum values v : v ∈ values -> typed (SEnum values) v
  | T_integer lo hi z : lo <= z <= hi -> typed (SInteger lo hi) (JInt z)
(** A frame of a record kind, sealed, whose body decodes to a typed value *)
with accepted : bytes -> string -> json -> Prop :=
  | Accepted raw name s v :
      record_spec name = Ok s -> open_frame raw s = Ok v -> typed (sp_schema s) v -> accepted raw name v.

(** ** Scalars *)

Lemma hex_of_class bs_len s :
  option_map snd (span_class is_lower_hex (2 * bs_len) s) = Some EmptyString -> exists bs, length bs = bs_len /\ s = hex bs.
Proof.
  revert s. induction bs_len as [|n IH]; intros s H.
  - cbn in H. injection H as ->. by exists [].
  - replace (2 * S n)%nat with (S (S (2 * n))) in H by lia. destruct s as [|a [|b s]]; cbn [span_class] in H; [done|by destruct (is_lower_hex a)|].
    destruct (is_lower_hex a) eqn:Ha; [|done]. destruct (is_lower_hex b) eqn:Hb; [|done].
    destruct (IH s) as (bs & <- & ->).
    { destruct (span_class is_lower_hex (2 * n) s) as [[p q]|]; [|done]. exact H. }
    assert (forall c, is_lower_hex c = true -> exists x, 0 <= x < 16 /\ c = hex_digit x) as Hd.
    { intros c. destruct c as [[] [] [] [] [] [] [] []]; vm_compute; intros [=];
        first [by exists 0|by exists 1|by exists 2|by exists 3|by exists 4|by exists 5|by exists 6|by exists 7|by exists 8
              |by exists 9|by exists 10|by exists 11|by exists 12|by exists 13|by exists 14|by exists 15]. }
    destruct (Hd a Ha) as (x & Hx & ->). destruct (Hd b Hb) as (y & Hy & ->).
    exists (z2b (x * 16 + y) :: bs). split; [done|]. cbn [hex]. rewrite b2z_z2b.
    rewrite (Z.mod_small (x * 16 + y)) by lia. do 3 f_equal; [|f_equal]; Z.to_euclidean_division_equations; lia.
Qed.

Lemma canonical_uuid_ok s bs : canonical_uuid s = Ok bs -> length bs = 16%nat /\ s = uuid_text bs.
Proof. unfold canonical_uuid, need. intros H. ok_inv H. injection H as <-. by bool_tac. Qed.

Lemma canonical_blob_ok s raw : canonical_blob s = Ok raw -> Z.of_nat (length raw) <= MAX_IMAGE /\ s = b64encode raw.
Proof. unfold canonical_blob, need. intros H. ok_inv H. injection H as <-. by bool_tac. Qed.

Lemma is_hash_ok s : is_hash s = true -> exists bs, length bs = 32%nat /\ s = hex bs.
Proof. unfold is_hash. rewrite bool_decide_eq_true. apply (hex_of_class 32). Qed.

Section Sound.
(** The inspection of nested frames *)
Context (ins : bytes -> string -> Z -> result json).
Context (ins_ok : forall raw name depth v, ins raw name depth = Ok v -> accepted raw name v).

Lemma check_scalar_typed t v depth u : check_scalar ins t v depth = Ok u -> typed (SName t) v.
Proof.
  unfold check_scalar, need. intros H.
  destruct (bool_decide_reflect (t ∈ ["positive"; "counter"; "u8"]%string)) as [Hi|_].
  { destruct v; try done. ok_inv H. bool_tac. apply T_scalar. set_unfold in Hi.
    destruct Hi as [-> | [-> | [-> | []]]]; constructor; (split; [assumption|]);
      match goal with A : _ <= (if _ then _ else _) |- _ => exact A end. }
  destruct (bool_decide_reflect (t = "bool"%string)) as [->|_]; [destruct v; try done; apply T_scalar, Sc_bool|].
  destruct v as [| | |s| |]; try done.
  destruct (bool_decide_reflect (t = "hash"%string)) as [->|_].
  { ok_inv H. apply is_hash_ok in H as (bs & Hl & ->). by apply T_scalar, Sc_hash. }
  destruct (bool_decide_reflect (t = "uuid"%string)) as [->|_].
  { ok_inv H. apply canonical_uuid_ok in Hx as [Hl ->]. by apply T_scalar, Sc_uuid. }
  destruct (bool_decide_reflect (t ∈ ["id"; "node"]%string)) as [Hi|_].
  { ok_inv H. set_unfold in Hi. apply T_scalar. destruct Hi as [-> | [-> | []]]; by constructor. }
  destruct (bool_decide_reflect (t ∈ ["text"; "relative"]%string)) as [Hi|_].
  { ok_inv H. bool_tac. set_unfold in Hi. apply T_scalar. destruct Hi as [-> | [-> | []]]; [by constructor|].
    cbn in H. apply guard_ok in H. by constructor. }
  destruct (is_blob t) eqn:Hb; [|done]. apply rbind_ok in H as (raw & (Hl & ->)%canonical_blob_ok & H).
  destruct (frame_name t) as [name|] eqn:Hn.
  - apply rbind_ok in H as (w & Hw & _). by eapply T_frame; [..|by eapply ins_ok].
  - unfold is_blob in Hb. rewrite Hn, orb_false_r in Hb. bool_tac. subst. by apply T_scalar, Sc_blob.
Qed.

Lemma scalar_eqb_eq v x : scalar_eqb v x = true -> v = x.
Proof.
  destruct v, x; cbn [scalar_eqb]; try done; intros H.
  - by apply eqb_prop in H as ->.
  - by apply Z.eqb_eq in H as ->.
  - by bool_tac; subst.
Qed.

Lemma check_schema_typed t v depth u : check_schema ins t v depth = Ok u -> typed t v.
Proof.
  revert v depth u. induction t as [t|t IH|fields IH|t lo hi IH|values|lo hi] using schema_induction; intros v depth u H;
    cbn [check_schema] in H; unfold need in H; apply rbind_ok in H as ([] & _ & H).
  - by eapply check_scalar_typed.
  - destruct v; [apply T_absent|..]; by eapply T_present, IH.
  - destruct v as [| | | | |m]; try done. apply rbind_ok in H as ([] & Hk & H). apply guard_ok in Hk. bool_tac.
    apply T_object; [intros k; rewrite <- (elem_of_list_to_set (C := gset string) k m.*1), Hk; apply elem_of_list_to_set|].
    clear Hk. revert u H. induction IH as [|[k' t'] fields' Ht _ IHf]; intros u H k t Hin; [by apply not_elem_of_nil in Hin|].
    apply rbind_ok in H as (x & Hx & H). apply of_option_ok in Hx. apply rbind_ok in H as ([] & Hc & H).
    apply elem_of_cons in Hin as [[= -> ->]|Hin]; [exists x; split; [done|by eapply Ht]|by eapply IHf].
  - destruct v as [| | | |l|]; try done. apply rbind_ok in H as ([] & Hl & H). apply guard_ok in Hl. bool_tac.
    apply T_array; [lia|]. intros x Hx. eapply IH. exact (check_all_ok _ _ _ H x Hx).
  - apply guard_ok in H. apply existsb_exists in H as (x & Hx & ->%scalar_eqb_eq). apply T_enum. by apply list_elem_of_In.
  - destruct v; try done. apply guard_ok in H. bool_tac. apply T_integer. lia.
Qed.
End Sound.

Lemma inspect_nested_accepted fuel raw name depth v : inspect_nested fuel raw name depth = Ok v -> accepted raw name v.
Proof.
  revert raw name depth v. induction fuel as [|fuel IH]; intros raw name depth v H; [done|]. cbn [inspect_nested] in H.
  unfold need in H. ok_inv H. injection H as <-. econstructor; [done..|]. by eapply check_schema_typed.
Qed.
