(* ===== verification/AutoProperties.v ===== *)
(** * Properties of the (1,2) frames *)

From Stdlib Require Import Ascii.
From stdpp Require Import base list strings sorting.
From S2P Require Import Prelude Bytes Sha256 Files Wire Json TextCodes ReplicaFrames Schema FormatCatalog AutoFormat AutoFixture AutoProofs.
Import StateNotations ResultNotations.
Local Open Scope py_scope.
Local Open Scope Z_scope.

(** ** Sample frames: the fixtures of an entry and of its commit proof *)

Definition no_digits (_ : Z) : ascii := "0"%char.
Definition sample_records : generated :=
  Eval vm_compute in
    default (Generated [] [] None) (ok_value (fold_all (generate_record no_digits) (take 8 order) (Generated [] [] None))).
Definition sample_entry : bytes := Eval vm_compute in default [] (assoc_get "ENTRY"%string (ge_frames sample_records)).
Definition sample_accept : bytes := Eval vm_compute in default [] (assoc_get "ACCEPT"%string (ge_frames sample_records)).
Definition sample_manifest : json :=
  Eval vm_compute in
    with_digest (default JNull (assoc_get "MANIFEST"%string (ge_values sample_records))) (default "" (ge_manifest sample_records)).
(** The ACCEPT message that carries the sample *)
Definition sample_message : bytes :=
  Eval vm_compute in
    default [] (head (snd <$> default []
      (ok_value (generate_message no_digits sample_records (default "" (ge_manifest sample_records)) sample_manifest []
                   ("ACCEPT"%string, default (0, SEnum []) (assoc_get "ACCEPT"%string WIRE)))))).
Definition sample_message_value : json :=
  Eval vm_compute in default JNull (ok_value (wire sample_message sample_manifest)).
Definition sample_entry_value : json :=
  Eval vm_compute in default JNull (ok_value (inspect sample_entry "ENTRY")).
Definition sample_accept_value : json :=
  Eval vm_compute in default JNull (ok_value (inspect sample_accept "ACCEPT")).

(** C20: canonical frames.  A record frame [inspect] accepts is, byte for byte, what the encoder writes
    for the value it was decoded to: header, digest, field order, lengths, optional tags and the JSON
    text leave no choice.  Hence two accepted frames of one kind with one value are the same bytes. *)
Theorem inspect_canonical to_ascii raw name v :
  is_Some (assoc_get name RECORDS) -> inspect raw name = Ok v ->
  encode to_ascii name v = Ok raw /\ (forall raw', inspect raw' name = Ok v -> raw' = raw).
Proof.
  intros [s Hs] H.
  assert (forall r, inspect r name = Ok v -> encode to_ascii name v = Ok r) as He.
  { intros r Hr. by eapply open_frame_canonical, inspect_opens. }
  split; [by apply He|]. intros r Hr. pose proof (He _ H) as H1. pose proof (He _ Hr) as H2. congruence.
Qed.

Lemma inspect_canonical_witness :
  is_Some (assoc_get "ENTRY"%string RECORDS) /\ inspect sample_entry "ENTRY" = Ok sample_entry_value /\
  encode no_digits "ENTRY" sample_entry_value = Ok sample_entry.
Proof.
  assert (is_Some (assoc_get "ENTRY"%string RECORDS)) as Hs by (vm_compute; by eexists).
  assert (inspect sample_entry "ENTRY" = Ok sample_entry_value) as Hi by (vm_compute; reflexivity).
  split; [exact Hs|split; [exact Hi|]]. exact (proj1 (inspect_canonical no_digits _ _ _ Hs Hi)).
Defined.

(** C21: typed records.  The value of an accepted frame has the type its catalog entry declares: exactly
    the declared fields, integers in range, digests and UUIDs of the right size, bounded text and blobs,
    and every nested frame is in turn a sealed frame of its declared kind with a typed value. *)
Theorem inspect_typed raw name v : inspect raw name = Ok v -> accepted raw name v.
Proof. apply inspect_nested_accepted. Qed.

Lemma inspect_typed_witness : inspect sample_accept "ACCEPT" = Ok sample_accept_value /\ accepted sample_accept "ACCEPT" sample_accept_value.
Proof.
  assert (inspect sample_accept "ACCEPT" = Ok sample_accept_value) as Hi by (vm_compute; reflexivity).
  split; [exact Hi|]. exact (inspect_typed _ _ _ Hi).
Defined.

(** ** Messages *)

(** What an accepted message promises its receiver *)
Inductive authentic (raw : bytes) (manifest v : json) : Prop :=
  | Authentic (m : message) (envelope : json) (t : schema) (kind : Z) (nodes : list string) :
      raw = make_frame (utf8 "GSRP") 2 kind (canonical v) -> (ms_type m, (kind, t)) ∈ runtime_wire ->
      split_payload v = Ok (envelope, ms_payload m) -> read_message v (ms_payload m) = Ok m ->
      typed (ENVELOPE (MESSAGE_TYPES ++ WIRE_EXTENSIONS.*1)) envelope -> typed t (ms_payload m) ->
      get_text "digest" manifest = Ok (ms_manifest m) -> manifest_nodes manifest = Ok nodes ->
      ms_sender m ∈ nodes -> ms_recipient m ∈ nodes -> ms_sender m <> ms_recipient m ->
      (1 < ms_epoch m ->
       exists p, nodes !! Z.to_nat ((ms_epoch m - 2) mod 3) = Some p /\ ms_proposer m = JString p) ->
      (ms_epoch m <= 1 -> ms_type m ∈ genesis_messages /\ ms_proposer m = JNull) ->
      (ms_type m ∈ requests -> ms_proposer m = JString (ms_sender m)) ->
      (ms_type m ∈ replies -> ms_proposer m = JString (ms_recipient m)) ->
      authentic raw manifest v.

Lemma read_message_payload value payload m : read_message value payload = Ok m -> ms_payload m = payload.
Proof. unfold read_message. intros H. ok_inv H. by injection H as <-. Qed.

(** Rows of one kind are one row. *)
Lemma runtime_wire_row name name' kind t t' :
  (name, (kind, t)) ∈ runtime_wire -> (name', (kind, t')) ∈ runtime_wire -> name = name' /\ t = t'.
Proof.
  assert (forallb (fun a : string * (Z * schema) =>
            Nat.eqb (length (List.filter (fun b : string * (Z * schema) => b.2.1 =? a.2.1) runtime_wire)) 1) runtime_wire = true) as Hu
    by (vm_compute; reflexivity).
  intros Ha Hb. rewrite forallb_forall in Hu. apply list_elem_of_In in Ha, Hb. specialize (Hu _ Ha). cbn [fst snd] in Hu. bool_tac.
  assert (forall r, In r runtime_wire -> r.2.1 = kind -> In r (List.filter (fun b : string * (Z * schema) => b.2.1 =? kind) runtime_wire)) as Hf.
  { intros r Hr Hk. apply filter_In. split; [done|]. by rewrite Hk, Z.eqb_refl. }
  apply Hf in Ha; [|done]. apply Hf in Hb; [|done]. clear Hf.
  destruct (List.filter _ _) as [|r [|? ?]]; cbn in *; try done.
  destruct Ha as [Ha|[]], Hb as [Hb|[]]. rewrite Ha in Hb. by injection Hb.
Qed.

Lemma scalar_eqb_text v s : scalar_eqb v (JString s) = true -> v = JString s.
Proof. apply scalar_eqb_eq. Qed.

Lemma wire_identity_ok value manifest m u :
  wire_identity value manifest m = Ok u ->
  exists nodes, manifest_nodes manifest = Ok nodes /\ ms_sender m ∈ nodes /\ ms_recipient m ∈ nodes /\
    ms_sender m <> ms_recipient m /\ get_text "digest" manifest = Ok (ms_manifest m) /\
    (1 < ms_epoch m -> exists p, nodes !! Z.to_nat ((ms_epoch m - 2) mod 3) = Some p /\ ms_proposer m = JString p) /\
    (ms_epoch m <= 1 -> ms_type m ∈ genesis_messages /\ ms_proposer m = JNull).
Proof.
  unfold wire_identity, need. intros H. ok_inv H. bool_tac. subst.
  match goal with A : manifest_nodes _ = Ok ?n |- _ => exists n end. split_and!; try done.
  - intros He. rewrite (proj2 (Z.ltb_lt _ _)) in H by done. ok_inv H. eexists. split; [done|]. by apply scalar_eqb_text.
  - intros He. rewrite (proj2 (Z.ltb_ge _ _)) in H by done. ok_inv H. bool_tac. split; [done|].
    match goal with A : ballot _ _ _ = Ok _ |- _ => unfold ballot, need in A; apply guard_ok in A; apply orb_true_iff in A as [A|A] end;
      bool_tac; [by apply scalar_eqb_eq|lia].
Qed.

Lemma wire_direction_ok m u :
  wire_direction m = Ok u ->
  (ms_type m ∈ requests -> ms_proposer m = JString (ms_sender m)) /\
  (ms_type m ∈ replies -> ms_proposer m = JString (ms_recipient m)).
Proof.
  unfold wire_direction, need, when. intros H. ok_inv H.
  split; intros Ht; rewrite bool_decide_eq_true_2 in * by done;
    match goal with A : guard (is_proposer _ _) _ = Ok _ |- _ => apply guard_ok in A; by apply scalar_eqb_text end.
Qed.

(** C22: authentic messages.  The bytes of an accepted message are the canonical frame of its value, of
    the kind its type names; envelope and payload have their declared types, frames in the payload
    included; the message is bound to the manifest and passes between two different voters of it;
    above the genesis epoch its proposer is the voter the epoch ranks, requests come from that proposer
    and replies go to it; a genesis message is one of the four that carry no authority. *)
Theorem wire_authentic raw manifest v : wire raw manifest = Ok v -> authentic raw manifest v.
Proof.
  unfold wire, need. intros H. ok_inv H. injection H as <-. destruct x as [t value], x0 as [envelope payload]. cbn [fst snd] in *.
  match goal with A : open_message _ = Ok _ |- _ => apply open_message_ok in A as (name & kind & Hin & Hraw & h & Hh & <-) end.
  match goal with A : read_message _ _ = Ok ?m |- _ => pose proof (read_message_payload _ _ _ A) as Hp; rename m into msg end.
  match goal with A : run_reader read_header _ = Ok ?h' |- _ => assert (h' = h) as -> by congruence end.
  match goal with A : assoc_get (ms_type msg) runtime_wire = Some ?row |- _ =>
    destruct row as [kind t']; apply assoc_get_elem in A as Hin'; cbn [fst] in * end.
  bool_tac. subst kind. destruct (runtime_wire_row _ _ _ _ _ Hin Hin') as [-> ->].
  match goal with A : wire_identity _ _ _ = Ok _ |- _ => apply wire_identity_ok in A as (nodes & Hn & Hs & Hr & Hsr & Hd & Hrank & Hgen) end.
  match goal with A : wire_direction _ = Ok _ |- _ => apply wire_direction_ok in A as [Hreq Hrep] end.
  eapply (Authentic _ _ _ msg envelope t' _ nodes); try done; rewrite ?Hp; try done;
    by eapply check_schema_typed; [intros ? ? ? ? ?; by eapply inspect_nested_accepted|].
Qed.

Lemma wire_authentic_witness :
  wire sample_message sample_manifest = Ok sample_message_value /\ authentic sample_message sample_manifest sample_message_value.
Proof.
  assert (wire sample_message sample_manifest = Ok sample_message_value) as Hw by (vm_compute; reflexivity).
  split; [exact Hw|]. exact (wire_authentic _ _ _ Hw).
Defined.
