(* ===== verification/AutoRecords.v ===== *)
(** * The (1,2) records as the recovery and storage oracles read them

    [contextual_frame] returns a dictionary; the oracles then read its fields.  The dictionaries have
    exactly the fields of their schema, so they are records here, read once; two of them are equal in
    Python when the records are.  Texts of frames stand decoded: base64 text is canonical.
    A directory is a tree of names, none of them twice in one folder. *)

From Stdlib Require Import Ascii.
From stdpp Require Import base gmap sets strings list.
From S2P Require Import Prelude Bytes Sha256 Files Json TextCodes ReplicaFrames Schema FormatCatalog AutoFormat.
Import ResultNotations.
Local Open Scope py_scope.
Local Open Scope Z_scope.

(** ** Directory trees *)

Inductive tree : Type :=
  | File (content : bytes)
  | Dir (members : list (string * tree))
  | Special.

(** [directory / part / ...] *)
Fixpoint resolve (t : tree) (parts : list string) : option tree :=
  match parts with
  | [] => Some t
  | p :: parts' =>
      match t with
      | Dir members => match assoc_get p members with Some t' => resolve t' parts' | None => None end
      | _ => None
      end
  end.

Definition file_content (t : option tree) : option bytes := match t with Some (File c) => Some c | _ => None end.
Definition exists_at (t : tree) (parts : list string) : bool := bool_decide (is_Some (resolve t parts)).
Definition is_file_at (t : tree) (parts : list string) : bool := bool_decide (is_Some (file_content (resolve t parts))).
(** [(directory / part / ...).read_bytes()] *)
Definition read_at (t : tree) (parts : list string) : result bytes := of_option (file_content (resolve t parts)) OSError.

(** ** Ballots *)

Record ballot_of := Ballot { b_epoch : Z; b_proposer : option string; b_incarnation : string }.
#[export] Instance ballot_of_eq_dec : EqDecision ballot_of.
Proof. solve_decision. Defined.

(** [None] or a text, of a checked value *)
Definition opt_text (v : json) : result (option string) :=
  match v with JNull => Ok None | JString s => Ok (Some s) | _ => Err TypeError end.
Definition opt_blob (v : json) : result (option bytes) :=
  match v with JNull => Ok None | _ => let! b := unblob v in Ok (Some b) end.

Definition view_ballot (v : json) : result ballot_of :=
  let! epoch := get_int "epoch" v in
  let! p := get "proposer" v in
  let! proposer := opt_text p in
  let! incarnation := get_text "incarnation" v in
  Ok (Ballot epoch proposer incarnation).

(** ** Records *)

Record anchor := Anchor { an_epoch : Z; an_incarnation : string; an_operation : Z; an_entry : string; an_payload : string }.
#[export] Instance anchor_eq_dec : EqDecision anchor.
Proof. solve_decision. Defined.

Definition view_anchor (v : json) : result anchor :=
  let! epoch := get_int "originEpoch" v in
  let! incarnation := get_text "originIncarnation" v in
  let! operation := get_int "operation" v in
  let! entry := get_text "entryDigest" v in
  let! payload := get_text "payloadDigest" v in
  Ok (Anchor epoch incarnation operation entry payload).

Record snapshot_of := Snapshot {
  sn_manifest : string; sn_base : Z; sn_sequence : Z; sn_anchors : list anchor; sn_application : bytes;
  sn_terminal : option bytes }.

Definition view_snapshot (v : json) : result snapshot_of :=
  let! m := get_text "manifestDigest" v in
  let! base := get_int "baseSequence" v in
  let! sequence := get_int "applicationSequence" v in
  let! rows := get_list "anchors" v in
  let! anchors := map_all view_anchor rows in
  let! application := get_blob "application" v in
  let! t := get "terminalProof" v in
  let! terminal := opt_blob t in
  Ok (Snapshot m base sequence anchors application terminal).

Record entry_of := Entry {
  en_index : Z; en_epoch : Z; en_operation : Z; en_previous_epoch : Z; en_previous : string }.

Definition view_entry (v : json) : result entry_of :=
  let! index := get_int "index" v in
  let! epoch := get_int "originEpoch" v in
  let! operation := get_int "operation" v in
  let! previous_epoch := get_int "previousEpoch" v in
  let! previous := get_text "previousDigest" v in
  Ok (Entry index epoch operation previous_epoch previous).

Record acceptance := Acceptance { ac_ballot : ballot_of; ac_entry : bytes; ac_digest : string }.
#[export] Instance acceptance_eq_dec : EqDecision acceptance.
Proof. solve_decision. Defined.
Definition ac_epoch (a : acceptance) : Z := b_epoch (ac_ballot a).

Definition view_acceptance (v : json) : result acceptance :=
  let! b := view_ballot v in
  let! raw := get_blob "entry" v in
  let! d := get_text "entryDigest" v in
  Ok (Acceptance b raw d).

Record proof_of := ProofOf { pr_ballot : ballot_of; pr_index : Z; pr_digest : string; pr_previous : string }.
Definition pr_epoch (p : proof_of) : Z := b_epoch (pr_ballot p).

Definition view_proof (v : json) : result proof_of :=
  let! b := view_ballot v in
  let! index := get_int "index" v in
  let! d := get_text "entryDigest" v in
  let! previous := get_text "previousDigest" v in
  Ok (ProofOf b index d previous).

(** [dict(path=..., size=..., sha256=...)] *)
Record item := Item { it_path : string; it_size : Z; it_sha : string }.
#[export] Instance item_eq_dec : EqDecision item.
Proof. solve_decision. Defined.

Definition view_item (v : json) : result item :=
  let! path := get_text "path" v in
  let! size := get_int "size" v in
  let! sha := get_text "sha256" v in
  Ok (Item path size sha).
Definition view_items (key : string) (v : json) : result (list item) :=
  let! rows := get_list key v in map_all view_item rows.

Record basis_of := Basis {
  ba_node : string; ba_id : string; ba_ballot : ballot_of; ba_accepted : option bytes; ba_image : string;
  ba_bytes : Z; ba_files : list item }.

Definition view_basis (v : json) : result basis_of :=
  let! node := get_text "node" v in
  let! id := get_text "basisId" v in
  let! b := get "ballot" v in
  let! ballot := view_ballot b in
  let! a := get "accepted" v in
  let! accepted := opt_blob a in
  let! image := get_text "imageDigest" v in
  let! size := get_int "imageBytes" v in
  let! files := view_items "files" v in
  Ok (Basis node id ballot accepted image size files).

Record selected_of := Selected {
  se_ballot : ballot_of; se_bases : list (string * string * string); se_index : Z; se_digest : string;
  se_next : option bytes; se_source : option ballot_of }.

(** node, identity and digest of one basis a selection names *)
Definition view_base (v : json) : result (string * string * string) :=
  let! node := get_text "node" v in
  let! id := get_text "basisId" v in
  let! d := get_text "basisDigest" v in
  Ok (node, id, d).

Definition view_selected (v : json) : result selected_of :=
  let! b := get "ballot" v in
  let! ballot := view_ballot b in
  let! rows := get_list "bases" v in
  let! bases := map_all view_base rows in
  let! index := get_int "prefixIndex" v in
  let! d := get_text "prefixDigest" v in
  let! n := get "nextEntry" v in
  let! next := opt_blob n in
  let! s := get "sourceBallot" v in
  let! source := (match s with JNull => Ok None | _ => let! x := view_ballot s in Ok (Some x) end) in
  Ok (Selected ballot bases index d next source).

Record selector_of := SelectorOf { sl_node : string; sl_generation : string; sl_digest : string }.
Definition view_selector (v : json) : result selector_of :=
  let! node := get_text "node" v in
  let! g := get_text "generation" v in
  let! d := get_text "generationDigest" v in
  Ok (SelectorOf node g d).

Record generation_of := GenerationOf {
  ge_node : string; ge_snapshot : string; ge_index : Z; ge_files : list item; ge_selected : option string }.
Definition view_generation (v : json) : result generation_of :=
  let! node := get_text "node" v in
  let! s := get_text "snapshotDigest" v in
  let! index := get_int "prefixIndex" v in
  let! files := view_items "files" v in
  let! x := get "selectedDigest" v in
  let! selected := opt_text x in
  Ok (GenerationOf node s index files selected).

Record floor_of := FloorOf { fl_node : string; fl_index : Z; fl_digest : string; fl_sources : list (string * string * string) }.
(** node, generation digest and snapshot digest of a floor source *)
Definition view_floor_source (v : json) : result (string * string * string) :=
  let! node := get_text "node" v in
  let! g := get_text "generationDigest" v in
  let! s := get_text "snapshotDigest" v in
  Ok (node, g, s).
Definition view_floor (v : json) : result floor_of :=
  let! node := get_text "node" v in
  let! index := get_int "index" v in
  let! d := get_text "entryDigest" v in
  let! rows := get_list "sources" v in
  let! sources := map_all view_floor_source rows in
  Ok (FloorOf node index d sources).
