(* ===== verification/AutoRecovery.v ===== *)
(** * The recovery oracle of the (1,2) format ([scripts/v51/recovery_inspector.py])

    The files recovery may leave in an authority directory, the snapshot with its ancestry, the basis
    and selection of a prepare quorum, the source of an installed generation with its journals, the
    recovery floor, and [state], which puts them together. *)

From Stdlib Require Import Ascii.
From stdpp Require Import base gmap sets strings list sorting.
From S2P Require Import Prelude Bytes Sha256 Files Json TextCodes ReplicaFrames Schema FormatCatalog AutoFormat AutoRecords.
Import ResultNotations.
Local Open Scope py_scope.
Local Open Scope Z_scope.

(** ** [allowed] *)

Definition GENERATION : list string := ["snapshot.gsr"; "accepted.gsr"; "proofs.gsr"; "generation.gsr"]%string.
Definition AREAS : list string := ["generation-a"; "generation-b"; "basis"; "transfer"]%string.
Definition OPTIONAL : list string :=
  ["current.gsr"; "current.pending.gsr"; "generation-started.gsr"; "selected.gsr"; "recovery-floor.gsr";
   "recovery-floor.pending.gsr"]%string ++ AREAS.
Definition AREAS_OF_TRANSFER : list string :=
  ["selection-a"; "selection-b"; "floor-a"; "floor-b"; "retiring"; "witness"]%string.
Definition TRANSFER_FILES : list string :=
  ["selected.pending.gsr"; "started.pending.gsr"; "transfer.gsr"; "transfer.pending.gsr"; "image.gsr"]%string.

Definition one_of (x : string) (l : list string) : bool := bool_decide (x ∈ l).

(** [{f'{k}-{n}.gsr' for k in ('basis', 'image') for n in voters}] *)
Definition selection_files (voters : list string) : list string :=
  k ← ["basis"; "image"]%string; n ← voters; [k +:+ "-" +:+ n +:+ ".gsr"]%string.

Definition allowed_transfer (area : string) (rest : list string) (directory : bool) (voters : list string) : bool :=
  if one_of area TRANSFER_FILES && negb directory && bool_decide (rest = []) then true
  else if negb directory && bool_decide (rest = []) then false
  else if negb (one_of area AREAS_OF_TRANSFER) then false
  else if directory then
    match rest with
    | [] => true
    | [n] => (starts_with "floor-" area || bool_decide (area = "witness"%string)) && one_of n voters
    | _ => false
    end
  else if starts_with "selection-" area then match rest with [f] => one_of f (selection_files voters) | _ => false end
  else if bool_decide (area = "retiring"%string) then
    match rest with [f] => one_of f (GENERATION ++ ["current.gsr"%string]) | _ => false end
  else match rest with [n; f] => one_of n voters && one_of f (GENERATION ++ ["current.gsr"%string]) | _ => false end.

Definition allowed (parts : list string) (directory : bool) (voters required : list string) : bool :=
  match parts with
  | [] => false
  | [p] =>
      if directory then one_of p AREAS else one_of p required || (one_of p OPTIONAL && negb (one_of p AREAS))
  | p :: q :: rest =>
      if one_of p ["generation-a"; "generation-b"]%string then negb directory && bool_decide (rest = []) && one_of q GENERATION
      else if bool_decide (p = "basis"%string) then
        one_of q voters
        && (if directory then bool_decide (rest = [])
            else match rest with [f] => one_of f ["basis.gsr"; "basis.pending.gsr"; "image.gsr"]%string | _ => false end)
      else if bool_decide (p = "transfer"%string) then allowed_transfer q rest directory voters
      else false
  end.

(** ** Snapshots *)

(** Each anchor is of an epoch from two on, and origins never go back: a later epoch, or the same incarnation. *)
Fixpoint ancestry (epoch : Z) (incarnation : string) (anchors : list anchor) : result unit :=
  match anchors with
  | [] => Ok tt
  | a :: anchors' =>
      do! need ((2 <=? an_epoch a) && negb (bool_decide (an_incarnation a = ZERO)) && (epoch <=? an_epoch a)
                && (negb (an_epoch a =? epoch) || bool_decide (an_incarnation a = incarnation))) "snapshot origin ancestry" in
      ancestry (an_epoch a) (an_incarnation a) anchors'
  end.

(** [anchors[-2]['entryDigest'] if len(anchors) > 1 else manifest['digest']] *)
Definition before_last (anchors : list anchor) (digest : string) : string :=
  match rev anchors with _ :: a :: _ => an_entry a | _ => digest end.

Section Recovery.
Context (manifest : json).

Definition bound {A} (view : json -> result A) (name : string) (raw : bytes) : result A :=
  let! v := contextual_frame raw name manifest in view v.

Definition snapshot (frame : bytes) : result snapshot_of :=
  let! s := bound view_snapshot "SNAPSHOT" frame in
  let! base := get_int "baseSequence" manifest in
  do! need (sn_base s =? base) "snapshot genesis base" in
  do! ancestry 1 ZERO (sn_anchors s) in
  match sn_terminal s with
  | None => Ok s
  | Some t =>
      let! proof := bound view_proof "PROOF" t in
      let! digest := get_text "digest" manifest in
      do! need (bool_decide (pr_previous proof = before_last (sn_anchors s) digest)) "snapshot predecessor" in
      Ok s
  end.

Definition cut (s : snapshot_of) : Z := Z.of_nat (length (sn_anchors s)).

Definition agree (a b : snapshot_of) (through : Z) : result unit :=
  do! need ((through <=? Z.min (cut a) (cut b))
            && bool_decide (take (Z.to_nat through) (sn_anchors a) = take (Z.to_nat through) (sn_anchors b)))
    "conflicting proven ancestry" in
  when (cut a =? cut b) (need (bool_decide (sn_application a = sn_application b)) "same-cut application image").

Definition entry_digest (s : snapshot_of) : string :=
  match last (sn_anchors s) with Some a => an_entry a | None => sn_manifest s end.
Definition last_epoch (s : snapshot_of) : Z := match last (sn_anchors s) with Some a => an_epoch a | None => 1 end.

Definition tail (s : snapshot_of) (e : entry_of) : result unit :=
  need ((en_index e =? cut s + 1) && bool_decide (en_previous e = entry_digest s) && (en_previous_epoch e =? last_epoch s))
    "recovery tail predecessor".

(** ** The bases of a prepare quorum *)

Definition basis (descriptor image : bytes) : result (basis_of * snapshot_of * option acceptance) :=
  let! b := bound view_basis "BASIS" descriptor in
  let! v := contextual_frame image "IMAGE" manifest in
  let! raw := get_blob "snapshot" v in
  let! s := snapshot raw in
  let size := Z.of_nat (length image) in
  do! need (bool_decide (ba_image b = frame_hex image) && (ba_bytes b =? size)) "basis image identity" in
  do! need (bool_decide (ba_files b = [Item "image.gsr" size (digest_hex image)])) "basis image inventory" in
  let! rows := get_list "acceptances" v in
  let! acceptances := map_all unblob rows in
  do! need (bool_decide (acceptances = match ba_accepted b with Some a => [a] | None => [] end)) "basis accepted identity" in
  match ba_accepted b with
  | None => Ok (b, s, None)
  | Some raw =>
      let! a := bound view_acceptance "ACCEPT" raw in
      let! e := bound view_entry "ENTRY" (ac_entry a) in
      do! tail s e in
      do! need (ac_epoch a <=? b_epoch (ba_ballot b)) "basis accepted ballot" in
      Ok (b, s, Some a)
  end.

Definition based := (basis_of * snapshot_of * option acceptance)%type.
Definition bs_node (b : based) : string := ba_node b.1.1.

(** [max((b[1] for b in bases), key=...)]: the first of the longest *)
Definition longest (bases : list based) : option snapshot_of :=
  match bases with
  | [] => None
  | b :: bases' => Some (fold_left (fun s (x : based) => if cut s <? cut x.1.2 then x.1.2 else s) bases' b.1.2)
  end.

(** The loop over the bases: the acceptance of the highest ballot behind the longest prefix *)
Definition choose_basis (prefix : snapshot_of) (chosen : option acceptance) (b : based) : result (option acceptance) :=
  do! agree prefix b.1.2 (cut b.1.2) in
  match b.2 with
  | None => Ok chosen
  | Some a =>
      let! e := bound view_entry "ENTRY" (ac_entry a) in
      if en_index e <=? cut prefix then Ok chosen
      else
        do! tail prefix e in
        match chosen with
        | None => Ok (Some a)
        | Some c =>
            if ac_epoch c <? ac_epoch a then Ok (Some a)
            else
              do! when (ac_epoch a =? ac_epoch c)
                    (need (bool_decide (ac_ballot a = ac_ballot c) && bool_decide (ac_entry a = ac_entry c))
                       "equal-ballot conflicting values") in
              Ok chosen
        end
  end.

Fixpoint choose_bases (prefix : snapshot_of) (chosen : option acceptance) (bases : list based) : result (option acceptance) :=
  match bases with
  | [] => Ok chosen
  | b :: bases' => let! c := choose_basis prefix chosen b in choose_bases prefix c bases'
  end.

Definition select (selected : selected_of) (bases : list based) : result snapshot_of :=
  do! need (bool_decide (length bases = 2%nat) && bool_decide (length (remove_dups (bs_node <$> bases)) = 2%nat)
            && existsb (fun n => bool_decide (b_proposer (se_ballot selected) = Some n)) (bs_node <$> bases)) "prepare quorum" in
  do! need (forallb (fun b : based => bool_decide (ba_ballot b.1.1 = se_ballot selected)) bases) "mixed prepare ballots" in
  let! prefix := of_option (longest bases) (ValueError "max() iterable argument is empty") in
  let! chosen := choose_bases prefix None bases in
  do! need ((se_index selected =? cut prefix) && bool_decide (se_digest selected = entry_digest prefix)) "selected proven prefix" in
  do! need (bool_decide (se_next selected = ac_entry <$> chosen) && bool_decide (se_source selected = ac_ballot <$> chosen))
    "highest accepted selection" in
  Ok prefix.

(** ** [read_selection] *)

Definition selection_slots : list string := ["selection-a"; "selection-b"]%string.
Definition basis_path (slot node : string) : list string := ["transfer"; slot; "basis-" +:+ node +:+ ".gsr"]%string.
Definition image_path (slot node : string) : list string := ["transfer"; slot; "image-" +:+ node +:+ ".gsr"]%string.

(** The bases of one slot; [None] when the loop breaks. *)
Fixpoint slot_bases (directory : tree) (slot : string) (rows : list (string * string * string)) : result (option (list based)) :=
  match rows with
  | [] => Ok (Some [])
  | (node, id, digest) :: rows' =>
      match file_content (resolve directory (basis_path slot node)), file_content (resolve directory (image_path slot node)) with
      | Some descriptor, Some image =>
          if negb (bool_decide (frame_hex descriptor = digest)) then Ok None
          else
            let! x := basis descriptor image in
            do! need (bool_decide (ba_id x.1.1 = id) && bool_decide (bs_node x = node)) "selected basis identity" in
            let! more := slot_bases directory slot rows' in
            Ok (cons x <$> more)
      | _, _ => Ok None
      end
  end.

Fixpoint selected_slot (directory : tree) (selected : selected_of) (slots : list string) : result snapshot_of :=
  match slots with
  | [] => Err (ValueError "selected basis inventory incomplete")
  | slot :: slots' =>
      let! bases := slot_bases directory slot (se_bases selected) in
      match bases with
      | Some bases => if (length bases =? 2)%nat then select selected bases else selected_slot directory selected slots'
      | None => selected_slot directory selected slots'
      end
  end.

Definition base_nodes (s : selected_of) : list string := (fun b : string * string * string => b.1.1) <$> se_bases s.

Definition read_selection (directory : tree) : result (option (selected_of * snapshot_of)) :=
  if negb (exists_at directory ["selected.gsr"%string]) then Ok None
  else
    let! raw := read_at directory ["selected.gsr"%string] in
    let! selected := bound view_selected "SELECTED" raw in
    do! need (bool_decide (base_nodes selected = merge_sort string_le (base_nodes selected))) "ordered selected bases" in
    let! prefix := selected_slot directory selected selection_slots in
    Ok (Some (selected, prefix)).

(** ** [source] *)

(** [int.from_bytes(data[a:a+4], 'big', signed=True) + 48] *)
Definition frame_size (data : bytes) : Z :=
  let field := take 4 (drop 12 data) in
  (if bool_decide (field = []) then 0 else to_signed (length field) (be_join field)) + 48.

(** The rows of a journal behind its header; [fuel] bounds their number. *)
Fixpoint journal_rows {A} (fuel : nat) (view : bytes -> result A) (data : bytes) : result (list A) :=
  match fuel with
  | O => Err (AssertionError "fuel")
  | S fuel' =>
      match data with
      | [] => Ok []
      | _ =>
          do! need (48 <=? Z.of_nat (length data)) "torn source journal" in
          let size := frame_size data in
          do! need ((48 <? size) && (size <=? Z.of_nat (length data))) "source journal row size" in
          let! row := view (take (Z.to_nat size) data) in
          let! rows := journal_rows fuel' view (drop (Z.to_nat size) data) in
          Ok (row :: rows)
      end
  end.

Definition source_journal {A} (view : json -> result A) (name kind_name : string) (kind : Z) (node : string)
    (directory : tree) : result (list A) :=
  let! data := read_at directory [name] in
  let size := frame_size data in
  do! need ((48 <? size) && (size <=? Z.of_nat (length data))) "source journal size" in
  let! journal := contextual_frame (take (Z.to_nat size) data) "JOURNAL" manifest in
  let! owner := get_text "node" journal in
  let! row_kind := get_int "recordKind" journal in
  do! need (bool_decide (owner = node) && (row_kind =? kind)) "source journal identity" in
  journal_rows (S (length data)) (bound view kind_name) (drop (Z.to_nat size) data).

(** What the loop over the acceptances of a source holds: the last index, the digest and epoch a new
    entry must follow, the acceptance of every index, and of every index and epoch. *)
Record accepting := Accepting {
  at_last : Z; at_previous : string; at_epoch : Z; at_accepted : gmap Z acceptance; at_voted : gmap (Z * Z) acceptance }.

Definition source_acceptance (base : Z) (st : accepting) (row : acceptance) : result accepting :=
  let! e := bound view_entry "ENTRY" (ac_entry row) in
  let index := en_index e in
  do! need ((base <? index) && ((index =? at_last st) || (index =? at_last st + 1))) "source acceptance order" in
  let! last := (if index =? at_last st then
                  let! old := of_option (at_accepted st !! index) KeyError in
                  do! need (ac_epoch old <? ac_epoch row) "source acceptance ballot" in
                  Ok (at_last st)
                else
                  do! need (bool_decide (en_previous e = at_previous st) && (en_previous_epoch e =? at_epoch st))
                    "source acceptance predecessor" in
                  Ok (at_last st + 1)) in
  Ok (Accepting last (ac_digest row) (en_epoch e) (<[index := row]> (at_accepted st)) (<[(index, ac_epoch row) := row]> (at_voted st))).

Definition source_proof (st : accepting) (proven : Z) (row : proof_of) : result Z :=
  let index := pr_index row in
  do! need ((index =? proven + 1) && (index <=? at_last st)) "source proof prefix" in
  let! voted := of_option (at_voted st !! (index, pr_epoch row)) (ValueError "source proof acceptance") in
  do! need (bool_decide (ac_ballot voted = pr_ballot row) && bool_decide (ac_digest voted = pr_digest row)) "source proof acceptance" in
  let! latest := of_option (at_accepted st !! index) KeyError in
  do! need (bool_decide (pr_digest row = ac_digest latest)) "source proof acceptance" in
  let! e := inspect (ac_entry voted) "ENTRY" in
  let! previous := get_text "previousDigest" e in
  do! need (bool_decide (previous = pr_previous row)) "source proof predecessor" in
  Ok (proven + 1).

Fixpoint fold_result {A S} (f : S -> A -> result S) (s : S) (l : list A) : result S :=
  match l with
  | [] => Ok s
  | x :: l' => let! s' := f s x in fold_result f s' l'
  end.

Record source_of := SourceOf {
  so_selector : selector_of; so_seal : generation_of; so_snapshot : snapshot_of; so_snapshot_digest : string }.

Definition check_item (directory : tree) (x : item) : result unit :=
  let! data := read_at directory [it_path x] in
  need ((it_size x <=? Z.of_nat (length data)) && (negb (bool_decide (it_path x = "snapshot.gsr"%string)) || (it_size x =? Z.of_nat (length data)))
        && bool_decide (digest_hex (take (Z.to_nat (it_size x)) data) = it_sha x)) "source inventory hash".

(** The journals of a source, replayed over its snapshot *)
Definition source_journals (directory : tree) (node : string) (s : snapshot_of) : result unit :=
  let! acceptances := source_journal view_acceptance "accepted.gsr" "ACCEPT" 24 node directory in
  let! proofs := source_journal view_proof "proofs.gsr" "PROOF" 6 node directory in
  let! st := fold_result (source_acceptance (cut s)) (Accepting (cut s) (entry_digest s) (last_epoch s) ∅ ∅) acceptances in
  let! proven := fold_result (source_proof st) (cut s) proofs in
  need (at_last st <=? proven + 1) "source unresolved slots".

Definition source (directory : tree) (selector_raw : option bytes) : result source_of :=
  let! current := (match selector_raw with Some raw => Ok raw | None => read_at directory ["current.gsr"%string] end) in
  let! selector := bound view_selector "SELECTOR" current in
  let! seal_raw := read_at directory ["generation.gsr"%string] in
  let! seal := bound view_generation "GENERATION" seal_raw in
  let! snapshot_raw := read_at directory ["snapshot.gsr"%string] in
  let! s := snapshot snapshot_raw in
  do! need (bool_decide (sl_node selector = ge_node seal) && bool_decide (sl_digest selector = frame_hex seal_raw)) "source selector" in
  do! need (bool_decide (ge_snapshot seal = frame_hex snapshot_raw) && (ge_index seal =? cut s)) "source snapshot" in
  do! need (bool_decide (merge_sort string_le (it_path <$> ge_files seal) = ["accepted.gsr"; "proofs.gsr"; "snapshot.gsr"]%string))
    "source inventory" in
  do! check_all (check_item directory) (ge_files seal) in
  do! source_journals directory (ge_node seal) s in
  Ok (SourceOf selector seal s (frame_hex snapshot_raw)).

(** ** [state] *)

(** A path that may not exist; nothing can be read under it then. *)
Definition at_path (directory : tree) (parts : list string) : tree := default Special (resolve directory parts).

(** The sources of one floor slot; [None] when the loop breaks. *)
Fixpoint floor_slot (directory : tree) (initial : snapshot_of) (floor : floor_of) (slot : string)
    (rows : list (string * string * string)) : result (option (list source_of)) :=
  match rows with
  | [] => Ok (Some [])
  | (node, generation_digest, snapshot_digest) :: rows' =>
      let place := at_path directory ["transfer"; slot; node]%string in
      match file_content (resolve place ["generation.gsr"%string]) with
      | Some seal =>
          if negb (bool_decide (frame_hex seal = generation_digest)) then Ok None
          else
            let! x := source place None in
            do! need (bool_decide (ge_node (so_seal x) = node) && bool_decide (so_snapshot_digest x = snapshot_digest))
              "floor source identity" in
            do! need ((cut (so_snapshot x) =? fl_index floor) && bool_decide (entry_digest (so_snapshot x) = fl_digest floor))
              "floor source cut" in
            do! agree initial (so_snapshot x) (fl_index floor) in
            let! more := floor_slot directory initial floor slot rows' in
            Ok (cons x <$> more)
      | None => Ok None
      end
  end.

Fixpoint verify_floor (directory : tree) (initial : snapshot_of) (floor : floor_of) (slots : list string) : result unit :=
  match slots with
  | [] => Err (ValueError "floor complete source inventory unavailable")
  | slot :: slots' =>
      let! sources := floor_slot directory initial floor slot (fl_sources floor) in
      match sources with
      | Some [a; b] => agree (so_snapshot a) (so_snapshot b) (fl_index floor)
      | _ => verify_floor directory initial floor slots'
      end
  end.

Definition check_floor (directory : tree) (node : string) (current : option source_of) (initial : snapshot_of) : result unit :=
  if negb (exists_at directory ["recovery-floor.gsr"%string]) then Ok tt
  else
    let! raw := read_at directory ["recovery-floor.gsr"%string] in
    let! floor := bound view_floor "FLOOR" raw in
    do! need (bool_decide (fl_node floor = node) && bool_decide (is_Some current) && (fl_index floor <=? cut initial))
      "floor prefix/voter" in
    verify_floor directory initial floor ["floor-a"; "floor-b"]%string.

(** The genesis cut, before any generation is installed *)
Definition genesis_snapshot (application : bytes) : result snapshot_of :=
  let! digest := get_text "digest" manifest in
  let! base := get_int "baseSequence" manifest in
  Ok (Snapshot digest base base [] application None).

(** The installed generation: where its files are, and its source *)
Definition installed (directory : tree) (node : string) : result (option (tree * source_of)) :=
  if exists_at directory ["current.gsr"%string] then
    let! selector_raw := read_at directory ["current.gsr"%string] in
    let! selector := bound view_selector "SELECTOR" selector_raw in
    do! need (bool_decide (sl_node selector = node)) "selector voter" in
    let active := at_path directory [sl_generation selector] in
    let! current := source active (Some selector_raw) in
    do! when (bool_decide (is_Some (ge_selected (so_seal current))))
          (need (is_file_at directory ["selected.gsr"%string]) "generation lost selection") in
    do! when (exists_at directory ["generation-started.gsr"%string])
          (let! raw := read_at directory ["generation-started.gsr"%string] in
           let! started := bound (get_text "node") "STARTED" raw in
           need (bool_decide (started = node)) "started voter") in
    Ok (Some (active, current))
  else
    do! need (negb (exists_at directory ["generation-started.gsr"%string]) && negb (exists_at directory ["recovery-floor.gsr"%string]))
      "lost generation selector" in
    Ok None.

Record recovered := Recovered { re_active : tree; re_initial : snapshot_of; re_selected : option (selected_of * snapshot_of) }.

Definition state (directory : tree) (node : string) (application : bytes) : result recovered :=
  let! genesis := genesis_snapshot application in
  let! current := installed directory node in
  let active := match current with Some c => c.1 | None => directory end in
  let initial := match current with Some c => so_snapshot c.2 | None => genesis end in
  do! when (bool_decide (sn_anchors initial = []))
        (need (bool_decide (sn_application initial = application)) "genesis application image") in
  let! selected := read_selection directory in
  do! check_floor directory node (snd <$> current) initial in
  Ok (Recovered active initial selected).

(** ** [frozen_acceptances] *)

Definition frozen_acceptances (directory : tree) (selected : option selected_of) : result (list bytes) :=
  match selected with
  | None => Ok []
  | Some selected =>
      let! found := map_all (fun p : (string * string * string) * string =>
        let '((node, _, digest), slot) := p in
        match file_content (resolve directory (basis_path slot node)) with
        | Some raw =>
            if bool_decide (frame_hex raw = digest) then
              let! b := bound view_basis "BASIS" raw in Ok (option_list (ba_accepted b))
            else Ok []
        | None => Ok []
        end) (b ← se_bases selected; slot ← selection_slots; [(b, slot)]) in
      Ok (concat found)
  end.
End Recovery.
