(* ===== verification/AutoStorage.v ===== *)
(** * The root-ledger oracle of the (1,2) format ([scripts/v51/storage_inspector.py])

    [inspect_directory] is the inspection of one authority directory: its inventory, the bootstrap seal
    that binds it to a plan and a path, the recovery state, and the three ledgers replayed over it.
    [after] is the tree as a second inventory finds it at the end of the inspection. *)

From Stdlib Require Import Ascii.
From stdpp Require Import base gmap sets strings list sorting.
From S2P Require Import Prelude Bytes Sha256 Files Json TextCodes ReplicaFrames Schema FormatCatalog AutoFormat AutoRecords AutoRecovery.
Import ResultNotations.
Local Open Scope py_scope.
Local Open Scope Z_scope.

Definition INITIAL : list string :=
  ["replica.lock"; "manifest.gsr"; "genesis.gsr"; "node.gsr"; "promises.gsr"; "accepted.gsr"; "proofs.gsr"; "storage-ready.gsr"]%string.
Definition FILES : list string := INITIAL ++ ["bootstrap-prepared.gsr"; "bootstrap-seal.gsr"]%string.
(** [LEDGERS]: the record kind and number of each file *)
Definition LEDGERS : list (string * (string * Z)) :=
  [("promises.gsr", ("PROMISE", 4)); ("accepted.gsr", ("ACCEPT", 24)); ("proofs.gsr", ("PROOF", 6))]%string.

(** ** [inventory] *)

(** [directory.rglob('*')]: every path below, folders included *)
Fixpoint walk (path : list string) (t : tree) : list (list string * tree) :=
  match t with
  | Dir members =>
      (fix each (members : list (string * tree)) : list (list string * tree) :=
         match members with
         | [] => []
         | (name, t') :: members' => (path ++ [name], t') :: walk (path ++ [name]) t' ++ each members'
         end) members
  | _ => []
  end.

(** The files by path, with size and digest *)
Fixpoint inventory_of (paths : list (list string * tree)) : result (gmap (list string) (Z * string)) :=
  match paths with
  | [] => Ok ∅
  | (path, t) :: paths' =>
      match t with
      | Special => Err (ValueError "authority file type")
      | Dir _ => inventory_of paths'
      | File content =>
          let! m := inventory_of paths' in
          Ok (<[path := (Z.of_nat (length content), digest_hex content)]> m)
      end
  end.
Definition inventory (directory : tree) : result (gmap (list string) (Z * string)) := inventory_of (walk [] directory).

Definition is_dir (t : tree) : bool := match t with Dir _ => true | _ => false end.
Definition retained (m : gmap (list string) (Z * string)) : Z := map_fold (fun _ (v : Z * string) n => v.1 + n) 0 m.

(** [before[name]['size']] *)
Definition size_in (before : gmap (list string) (Z * string)) (name : string) : result Z :=
  let! v := of_option (before !! [name]) KeyError in Ok v.1.

(** ** The seal *)

(** [names in (sorted(INITIAL), sorted(INITIAL | {'bootstrap-binding.gsr'}))] *)
Definition initial_inventory (names : list string) : bool :=
  bool_decide (names = merge_sort string_le INITIAL)
  || bool_decide (names = merge_sort string_le (INITIAL ++ ["bootstrap-binding.gsr"%string])).

(** [voters.index(node)] *)
Definition index_of (x : string) (l : list string) : result nat :=
  of_option (fst <$> list_find (x =.) l) (ValueError "not in list").

Definition check_preparation (p : json * json) : result unit :=
  let! files := get_list "files" p.1 in
  let! digest := get_text "inventoryDigest" p.2 in
  do! need (bool_decide (digest = digest_hex (canonical (JArray files)))) "preparation inventory digest" in
  let! names := map_all (get_text "path") files in
  need (initial_inventory names) "ordered initial inventory".

Definition check_initial (directory : tree) (before : gmap (list string) (Z * string)) (x : item) : result unit :=
  do! need (it_size x <=? MAX_IMAGE) "missing initial authority" in
  let! size := size_in before (it_path x) in
  do! need (if bool_decide (it_path x ∈ LEDGERS.*1) then it_size x <=? size else size =? it_size x) "missing initial authority" in
  let! data := read_at directory [it_path x] in
  need (bool_decide (digest_hex (take (Z.to_nat (it_size x)) data) = it_sha x)) "initial authority bytes".

(** [genesis[k] == manifest[k]] *)
Definition same_text (key : string) (a b : json) : result unit :=
  let! x := get_text key a in let! y := get_text key b in need (bool_decide (x = y)) "genesis identity".
Definition same_int (key : string) (a b : json) : result unit :=
  let! x := get_int key a in let! y := get_int key b in need (x =? y) "genesis identity".

(** The local seal, its receipt and plan; the application image of the genesis. *)
Definition check_seal (directory : tree) (before : gmap (list string) (Z * string)) (manifest : json) (manifest_raw : bytes)
    (voters : list string) (node admitted_path : string) : result bytes :=
  let! seal_raw := read_at directory ["bootstrap-seal.gsr"%string] in
  let! seal := contextual_frame seal_raw "SEAL" manifest in
  let! owner := get_text "node" seal in
  do! need (bool_decide (owner = node)) "local seal" in
  let! receipt_raw := get_blob "receipt" seal in
  let! receipt := inspect receipt_raw "RECEIPT" in
  let! plan_raw := get_blob "plan" receipt in
  let! plan := inspect plan_raw "PLAN" in
  let! m := get_blob "manifest" plan in
  let! g := get_blob "genesis" plan in
  do! need (bool_decide (m = manifest_raw)) "sealed genesis/manifest" in
  let! genesis_raw := read_at directory ["genesis.gsr"%string] in
  do! need (bool_decide (g = genesis_raw)) "sealed genesis/manifest" in
  let! genesis := inspect g "GENESIS" in
  do! same_text "groupId" genesis manifest in
  do! same_text "historyId" genesis manifest in
  do! same_int "baseSequence" genesis manifest in
  do! same_text "schemaDigest" genesis manifest in
  do! same_text "indexesDigest" genesis manifest in
  let! targets := get_list "targets" plan in
  let! i := index_of node voters in
  let! target := of_option (targets !! i) IndexError in
  let! path := get_text "authorityPath" target in
  do! need (bool_decide (path = admitted_path)) "copied/stale seal path" in
  let! rows := get_list "preparations" receipt in
  let! preparation_raws := map_all unblob rows in
  let! preparations := map_all (fun raw => inspect raw "PREPARED") preparation_raws in
  let! prepared := read_at directory ["bootstrap-prepared.gsr"%string] in
  let! local := of_option (preparation_raws !! i) IndexError in
  do! need (bool_decide (prepared = local)) "local preparation" in
  do! check_all check_preparation (zip targets preparations) in
  let! items := view_items "files" target in
  do! check_all (check_initial directory before) items in
  get_blob "application" genesis.

(** ** [rows] *)

Section Rows.
Context {S A : Type} (manifest : json) (node : string) (maximum_frame identifier : Z) (kind : string)
        (view : json -> result A) (step : S -> A * string -> result S).

(** The generator, each row given to the loop body [step] before the next one is read; [first] until the
    journal header has been read. *)
Fixpoint ledger_rows (fuel : nat) (first : bool) (data : bytes) (s : S) : result S :=
  match fuel with
  | O => Err (AssertionError "fuel")
  | Datatypes.S fuel' =>
      match data with
      | [] => do! need (negb first) "absent journal header" in Ok s
      | _ =>
          let header := take 48 data in
          do! need (length header =? 48)%nat "torn ledger header" in
          let size := to_signed 4 (be_join (take 4 (drop 12 header))) in
          do! need ((0 <? size) && (size <=? maximum_frame - 48)) "ledger frame bound" in
          let body := take (Z.to_nat size) (drop 48 data) in
          do! need (Z.of_nat (length body) =? size) "torn ledger body" in
          let frame := header ++ body in
          let! value := contextual_frame frame (if first then "JOURNAL" else kind) manifest in
          let rest := drop (48 + Z.to_nat size) data in
          if first then
            let! k := get_int "recordKind" value in
            let! n := get_text "node" value in
            do! need ((k =? identifier) && bool_decide (n = node)) "journal identity" in
            ledger_rows fuel' false rest s
          else
            let! row := view value in
            let! s' := step s (row, frame_hex frame) in
            ledger_rows fuel' false rest s'
      end
  end.

Definition rows (data : bytes) (s : S) : result S := ledger_rows (Datatypes.S (length data)) true data s.
End Rows.

(** ** The ledgers *)

(** Promises: the ballot granted for each epoch and the highest one *)
Record granting := Granting { gr_ballots : gmap Z ballot_of; gr_highest : Z }.

Definition grant (s : granting) (row : ballot_of * string) : result granting :=
  let epoch := b_epoch row.1 in
  do! need ((Z.of_nat (size (gr_ballots s)) <? 10000)
            && (if bool_decide (gr_ballots s = ∅) then epoch =? 1 else gr_highest s <? epoch)) "promise history" in
  Ok (Granting (<[epoch := row.1]> (gr_ballots s)) epoch).

(** An accepted slot *)
Record slot := Slot {
  st_digest : string; st_epoch : Z; st_operation : Z; st_previous : string; st_acceptance : acceptance;
  st_ballots : gmap Z ballot_of; st_highest : Z }.

Record accepting_rows := AcceptingRows {
  ar_slots : gmap Z slot; ar_count : Z; ar_replacements : list (acceptance * Z) }.

Section Ledgers.
Context (manifest : json) (digest : string) (s0 : snapshot_of) (grants : gmap Z ballot_of).

Definition base : Z := cut s0.

(** What the entry of a new slot must name: its predecessor's digest and origin epoch *)
Definition predecessor (slots : gmap Z slot) (index : Z) : string * Z :=
  match slots !! (index - 1), last (sn_anchors s0) with
  | Some p, _ => (st_digest p, st_epoch p)
  | None, Some a => (an_entry a, an_epoch a)
  | None, None => (digest, 1)
  end.

Definition accept_row (s : accepting_rows) (row : acceptance * string) : result accepting_rows :=
  let a := row.1 in
  let count := ar_count s + 1 in
  do! need (count <=? 1010000) "acceptance row capacity" in
  let! e := bound manifest view_entry "ENTRY" (ac_entry a) in
  let index := en_index e in
  let identity := frame_hex (ac_entry a) in
  do! need (bool_decide (grants !! ac_epoch a = Some (ac_ballot a))) "acceptance promise binding" in
  let accepted := Z.of_nat (size (ar_slots s)) in
  do! need ((index <=? 1000000) && ((index =? base + accepted) || (index =? base + accepted + 1))) "acceptance slot order" in
  let old := ar_slots s !! index in
  let! replacements :=
    (match old with
     | Some o =>
         do! need (st_highest o <? ac_epoch a) "conflicting acceptance ballot" in
         Ok (if bool_decide (identity = st_digest o) then ar_replacements s else ar_replacements s ++ [(a, index)])
     | None =>
         do! need (bool_decide ((en_previous e, en_previous_epoch e) = predecessor (ar_slots s) index)) "accepted prefix" in
         Ok (ar_replacements s)
     end) in
  let ballots := match old with Some o => st_ballots o | None => ∅ end in
  Ok (AcceptingRows
        (<[index := Slot identity (en_epoch e) (en_operation e) (en_previous e) a
                      (<[ac_epoch a := ac_ballot a]> ballots) (ac_epoch a)]> (ar_slots s))
        count replacements).

(** Proofs: the proven index and the application sequence *)
Definition prove_row (slots : gmap Z slot) (s : Z * Z) (row : proof_of * string) : result (Z * Z) :=
  let p := row.1 in
  let index := pr_index p in
  do! need (index =? s.1 + 1) "proof prefix" in
  let! o := of_option (slots !! index) (ValueError "proof prefix") in
  do! need (bool_decide (pr_digest p = st_digest o) && bool_decide (pr_previous p = st_previous o)
            && bool_decide (st_ballots o !! pr_epoch p = Some (pr_ballot p))) "proof acceptance binding" in
  let sequence := if st_operation o <=? 8 then s.2 + 1 else s.2 in
  do! need (sequence <=? LONG_MAX) "application sequence exhaustion" in
  Ok (index, sequence).

(** A replaced value above the proven prefix must carry the authority of a frozen acceptance or of the selection. *)
Definition check_replacement (slots : gmap Z slot) (proven : Z) (frozen : list acceptance) (selected : option selected_of)
    (replaced : acceptance * Z) : result unit :=
  let index := replaced.2 in
  if index <=? proven then Ok tt
  else
    let! o := of_option (slots !! index) KeyError in
    let latest := st_acceptance o in
    need (bool_decide (latest ∈ frozen)
          || match selected with
             | Some x => bool_decide (se_ballot x = ac_ballot latest) && (index =? se_index x + 1)
                         && bool_decide (se_next x = Some (ac_entry latest))
             | None => false
             end) "conflicting acceptance lacks selected authority".

(** The digest the directory has at an index: an anchor of the snapshot or an accepted slot *)
Definition local_digest (slots : gmap Z slot) (i : Z) : result string :=
  if i <=? base then let! a := of_option (sn_anchors s0 !! Z.to_nat (i - 1)) IndexError in Ok (an_entry a)
  else let! o := of_option (slots !! i) KeyError in Ok (st_digest o).

Definition check_selected (slots : gmap Z slot) (proven : Z) (prefix : snapshot_of) : result unit :=
  let through := Z.min proven (cut prefix) in
  do! check_all (fun i =>
    let! d := local_digest slots i in
    let! a := of_option (sn_anchors prefix !! Z.to_nat (i - 1)) IndexError in
    need (bool_decide (d = an_entry a)) "selection conflicts with local prefix") (map Z.of_nat (seq 1 (Z.to_nat through))) in
  when ((through =? base) && (base =? cut prefix)) (agree s0 prefix through).
End Ledgers.

(** ** [_inspect] *)

Record ledger_report := LedgerReport {
  lr_node : string; lr_promised : Z; lr_promises : Z; lr_accepted : Z; lr_proven : Z; lr_sequence : Z;
  lr_retained : Z; lr_manifest : string; lr_digests : list string }.

(** The bound of a metadata file *)
Definition check_metadata (before : gmap (list string) (Z * string)) (name : string) : result unit :=
  let! size := size_in before name in
  need (size <=? (if bool_decide (name = "genesis.gsr"%string) then MAX_IMAGE else 65536)) "metadata byte capacity".

Definition check_inventory (maximum_bytes : Z) (before : gmap (list string) (Z * string)) : result unit :=
  do! need (forallb (fun name => bool_decide (is_Some (before !! [name]))) FILES) "authority inventory" in
  let! lock := size_in before "replica.lock" in
  do! need (lock =? 0) "authority inventory" in
  do! need (retained before <=? maximum_bytes) "retained byte capacity" in
  check_all (check_metadata before) (filter (fun name => name ∉ LEDGERS.*1) FILES).

(** The slots in the order of their indices, which is the order they were first accepted in *)
Definition slot_digests (from : Z) (slots : gmap Z slot) : list string :=
  i ← map Z.of_nat (seq 0 (size slots)); option_list (st_digest <$> slots !! (from + i)).

(** The ledgers over the recovered state: what the report says of them *)
Definition replay (manifest : json) (digest node : string) (maximum_frame : Z) (directory : tree) (re : recovered)
  : result (granting * accepting_rows * (Z * Z)) :=
  let s0 := re_initial re in
  let! promises := read_at directory ["promises.gsr"%string] in
  let! grants := rows manifest node maximum_frame 4 "PROMISE" view_ballot grant promises (Granting ∅ 0) in
  do! need (negb (bool_decide (gr_ballots grants = ∅))) "missing genesis promise" in
  do! (match sn_terminal s0 with
       | Some raw => let! v := inspect raw "PROOF" in let! p := view_proof v in
                     need (pr_epoch p <=? gr_highest grants) "snapshot exceeds root promise"
       | None => Ok tt
       end) in
  do! (match re_selected re with
       | Some x => need (b_epoch (se_ballot x.1) <=? gr_highest grants) "selection exceeds root promise"
       | None => Ok tt
       end) in
  let! accepted := read_at (re_active re) ["accepted.gsr"%string] in
  let! slots := rows manifest node maximum_frame 24 "ACCEPT" view_acceptance
                  (accept_row manifest digest s0 (gr_ballots grants)) accepted (AcceptingRows ∅ 0 []) in
  let! proofs := read_at (re_active re) ["proofs.gsr"%string] in
  let! proven := rows manifest node maximum_frame 6 "PROOF" view_proof (prove_row (ar_slots slots)) proofs (cut s0, sn_sequence s0) in
  do! need (cut s0 + Z.of_nat (size (ar_slots slots)) <=? proven.1 + 1) "multiple unresolved accepted slots" in
  let! raws := frozen_acceptances manifest directory (fst <$> re_selected re) in
  let! frozen := map_all (bound manifest view_acceptance "ACCEPT") raws in
  do! check_all (check_replacement (ar_slots slots) proven.1 frozen (fst <$> re_selected re)) (ar_replacements slots) in
  do! (match re_selected re with
       | Some x => check_selected s0 (ar_slots slots) proven.1 x.2
       | None => Ok tt
       end) in
  Ok (grants, slots, proven).

Definition inspect_directory (directory after : tree) (maximum_bytes maximum_frame : Z) (admitted_path : string) : result ledger_report :=
  let! before := inventory directory in
  do! check_inventory maximum_bytes before in
  let! manifest_raw := read_at directory ["manifest.gsr"%string] in
  let! value := inspect manifest_raw "MANIFEST" in
  let digest := frame_hex manifest_raw in
  let manifest := with_digest value digest in
  let! voters := manifest_nodes manifest in
  do! need (forallb (fun p : list string * tree =>
              allowed p.1 (is_dir p.2) voters (FILES ++ ["bootstrap-binding.gsr"%string])) (walk [] directory)) "unknown authority inventory" in
  let! node_raw := read_at directory ["node.gsr"%string] in
  let! node := bound manifest (get_text "node") "NODE" node_raw in
  let! ready_raw := read_at directory ["storage-ready.gsr"%string] in
  let! ready := contextual_frame ready_raw "READY" manifest in
  let! ready_node := get_text "node" ready in
  let! g := get_text "genesisDigest" ready in
  let! g' := get_text "genesisDigest" manifest in
  do! need (bool_decide (ready_node = node) && bool_decide (g = g')) "ready identity" in
  let! application := check_seal directory before manifest manifest_raw voters node admitted_path in
  let! re := state manifest directory node application in
  let! replayed := replay manifest digest node maximum_frame directory re in
  let '(grants, slots, proven) := replayed in
  let! still := inventory after in
  do! need (bool_decide (before = still)) "inspection changed authority" in
  let s0 := re_initial re in
  Ok (LedgerReport node (gr_highest grants) (Z.of_nat (size (gr_ballots grants))) (cut s0 + Z.of_nat (size (ar_slots slots)))
        proven.1 proven.2 (retained before) digest (map an_entry (sn_anchors s0) ++ slot_digests (cut s0 + 1) (ar_slots slots))).

(** [inspect] and [inspect_archive], with the default bounds of eight gigabytes and eight megabytes.
    [original_exists] says whether the displaced path leads to anything. *)
Definition inspect_authority (directory after : tree) (admitted_path : string) : result ledger_report :=
  inspect_directory directory after (8 * 2 ^ 30) (8 * 2 ^ 20) admitted_path.

Definition inspect_archive (directory after : tree) (original_exists : bool) (original_path : string)
    (expected : gmap (list string) (Z * string)) : result ledger_report :=
  do! need (negb original_exists) "retired authority still present" in
  do! need (negb (bool_decide (expected = ∅))) "retired inventory changed" in
  let! found := inventory directory in
  do! need (bool_decide (found = expected)) "retired inventory changed" in
  inspect_authority directory after original_path.

(** ** [torn_append] *)

(** What a harness saved of one partial write *)
Record torn_witness := TornWitness { tw_kind : string; tw_path : string; tw_before : string; tw_after : string }.

Definition journal_of_kind (kind : string) : option string :=
  assoc_get kind [("ACCEPT", "accepted.gsr"); ("PROOF", "proofs.gsr")]%string.
Definition kind_number (kind : string) : Z := if bool_decide (kind = "ACCEPT"%string) then 24 else 6.

(** [raw(text)] *)
Definition raw_text (s : string) : result bytes := of_option (b64decode s) (ValueError "Invalid base64-encoded string").

(** The whole frames before the torn one *)
Fixpoint whole_frames (fuel : nat) (manifest : json) (node kind : string) (first : bool) (data : bytes) : result unit :=
  match fuel with
  | O => Err (AssertionError "fuel")
  | S fuel' =>
      match data with
      | [] => need (negb first) "missing original journal"
      | _ =>
          do! need (48 <=? Z.of_nat (length data)) "torn pre-failure prefix" in
          let size := frame_size data in
          do! need ((48 <? size) && (size <=? Z.of_nat (length data))) "torn pre-failure frame" in
          let! value := contextual_frame (take (Z.to_nat size) data) (if first then "JOURNAL" else kind) manifest in
          do! when first
                (let! n := get_text "node" value in
                 let! k := get_int "recordKind" value in
                 need (bool_decide (n = node) && (k =? kind_number kind)) "partial journal identity") in
          whole_frames fuel' manifest node kind false (drop (Z.to_nat size) data)
      end
  end.

(** A header of the expected kind announcing more than the sixteen bytes written behind it *)
Definition partial_frame (kind : string) (tail : bytes) : result unit :=
  let! h := run_reader read_header (take 16 tail) in
  let! s := of_option (assoc_get kind RECORDS) KeyError in
  need (bool_decide (hd_magic h = utf8 "GSER") && (hd_major h =? 1) && (hd_minor h =? 2) && (hd_kind h =? kind_number kind)
        && (hd_flags h =? 0) && (64 <? 48 + hd_size h) && (48 + hd_size h <=? sp_maximum s)) "partial frame not incomplete".

(** The [except ValueError] clause: the reasons a torn journal may be refused for *)
Definition quarantine (inspected : result ledger_report) : result string :=
  match inspected with
  | Err (ValueError msg) =>
      do! need (bool_decide (msg ∈ ["torn ledger body"; "source journal row size"]%string)) ("unrelated quarantine cause: " +:+ msg) in
      Ok msg
  | Err UnicodeError => Err (ValueError "unrelated quarantine cause: ")
  | Err e => Err e
  | Ok _ => Err (ValueError "partial write accepted as valid authority")
  end.

(** [name] is [directory.name] and [admitted_path] its resolved path: the bytes of the torn frame and the reason. *)
Definition torn_append (directory after : tree) (name admitted_path : string) (w : torn_witness) : result (Z * string) :=
  let! journal := of_option (journal_of_kind (tw_kind w)) (ValueError "torn journal path/kind") in
  do! need (bool_decide (tw_path w ∈ [journal; "generation-a/" +:+ journal; "generation-b/" +:+ journal]%string)) "torn journal path/kind" in
  let! old := raw_text (tw_before w) in
  let! new := raw_text (tw_after w) in
  do! need (bool_decide (take (length old) new = old) && (Z.of_nat (length new) - Z.of_nat (length old) =? 64))
    "not one exact partial write" in
  let! now := read_at directory (split_char slash (tw_path w)) in
  do! need (bool_decide (now = new)) "partial journal changed after failure" in
  let! manifest_raw := read_at directory ["manifest.gsr"%string] in
  let! value := inspect manifest_raw "MANIFEST" in
  let manifest := with_digest value (frame_hex manifest_raw) in
  let! active := (if exists_at directory ["current.gsr"%string] then
                    let! raw := read_at directory ["current.gsr"%string] in
                    let! selector := bound manifest view_selector "SELECTOR" raw in
                    Ok (sl_generation selector +:+ "/")
                  else Ok EmptyString) in
  do! need (bool_decide (tw_path w = active +:+ journal)) "partial append is not the active journal" in
  do! whole_frames (S (length old)) manifest name (tw_kind w) true old in
  let tail := drop (length old) new in
  do! partial_frame (tw_kind w) tail in
  let! reason := quarantine (inspect_authority directory after admitted_path) in
  Ok (Z.of_nat (length tail), reason).
