(* ===== verification/AutoLedger.v ===== *)
(** * The ledgers of an accepted authority directory

    The rows of a journal as a fold over its frames, and what [grant], [accept_row] and [prove_row] accept,
    stated of the rows themselves: the promises, acceptances and proofs that stand in the files. *)

From Stdlib Require Import Ascii.
From stdpp Require Import base gmap sets strings list sorting pretty.
From S2P Require Import Prelude Bytes Sha256 Files Json TextCodes ReplicaFrames Schema FormatCatalog AutoFormat AutoRecords AutoRecovery AutoStorage AutoProofs AutoFixture AutoProperties.
Import ResultNotations.
Local Open Scope py_scope.
Local Open Scope Z_scope.

#[local] Opaque be_split sha256.

(** ** Journals are their frames *)

(** A frame whose header announces its length *)
Definition sized (f : bytes) : Prop := frame_size f = Z.of_nat (length f) /\ (48 < length f)%nat.

Lemma frame_size_app f rest : (16 <= length f)%nat -> frame_size (f ++ rest) = frame_size f.
Proof.
  intros Hl. unfold frame_size. do 2 f_equal.
  assert (take 4 (drop 12 (f ++ rest)) = take 4 (drop 12 f)) as ->; [|done].
  rewrite drop_app_le by lia. rewrite take_app_le; [done|]. rewrite length_drop. lia.
Qed.

Lemma frame_size_take n data : (16 <= n)%nat -> frame_size (take n data) = frame_size data.
Proof.
  intros Hn. destruct (decide (n <= length data)%nat).
  - rewrite <- (take_drop n data) at 2. rewrite frame_size_app; [done|]. rewrite length_take. lia.
  - by rewrite take_ge by lia.
Qed.

Lemma sized_take data n :
  frame_size data = n -> 48 < n -> n <= Z.of_nat (length data) -> sized (take (Z.to_nat n) data).
Proof.
  intros Hs Hn Hl. unfold sized. rewrite frame_size_take by lia. rewrite length_take. split; lia.
Qed.

Lemma sized_unique frames frames' :
  Forall sized frames -> Forall sized frames' -> concat frames = concat frames' -> frames = frames'.
Proof.
  revert frames'. induction frames as [|f frames IH]; intros [|f' frames'] H H' He.
  - done.
  - apply Forall_cons in H' as [[_ Hl] _]. apply (f_equal length) in He. cbn in He. rewrite length_app in He. lia.
  - apply Forall_cons in H as [[_ Hl] _]. apply (f_equal length) in He. cbn in He. rewrite length_app in He. lia.
  - apply Forall_cons in H as [[Hs Hl] H], H' as [[Hs' Hl'] H']. cbn in He.
    assert (frame_size f = frame_size f') as Hz.
    { rewrite <- (frame_size_app f (concat frames)), He, frame_size_app by lia. done. }
    apply app_inj_1 in He as [-> He]; [|lia]. f_equal. by apply IH.
Qed.

Lemma journal_rows_frames {A} (view : bytes -> result A) fuel data rows :
  journal_rows fuel view data = Ok rows ->
  exists frames, data = concat frames /\ Forall sized frames /\ Forall2 (fun f row => view f = Ok row) frames rows.
Proof.
  revert data rows. induction fuel as [|fuel IH]; intros data rows H; [done|]. cbn [journal_rows] in H.
  destruct data as [|b data]; [injection H as <-; by exists []|]. unfold need in H. ok_inv H. injection H as <-. bool_tac.
  match goal with A : journal_rows _ _ _ = Ok _ |- _ => apply IH in A as (frames & Hc & Hs & Hv) end.
  exists (take (Z.to_nat (frame_size (b :: data))) (b :: data) :: frames). cbn [concat]. rewrite <- Hc, take_drop.
  split_and!; [done| |by constructor]. constructor; [by apply sized_take|done].
Qed.

Lemma ledger_frame_size data :
  (48 <= length data)%nat -> frame_size data = to_signed 4 (be_join (take 4 (drop 12 (take 48 data)))) + 48.
Proof.
  intros Hl. rewrite <- (frame_size_take 48) by lia. unfold frame_size.
  assert (length (take 4 (drop 12 (take 48 data))) = 4%nat) as H4 by (rewrite length_take, length_drop, length_take; lia).
  rewrite bool_decide_eq_false_2 by (intros H0; by rewrite H0 in H4). by rewrite H4.
Qed.

Section Rows.
Context {S A : Type} (manifest : json) (node : string) (maximum_frame identifier : Z) (kind : string)
        (view : json -> result A) (step : S -> A * string -> result S).

Definition row_frames (frames : list bytes) (rows : list A) : Prop :=
  Forall sized frames /\ Forall2 (fun f row => bound manifest view kind f = Ok row) frames rows.

Lemma ledger_rows_frames fuel data s s' :
  ledger_rows manifest node maximum_frame identifier kind view step fuel false data s = Ok s' ->
  exists frames rows, data = concat frames /\ row_frames frames rows /\
    fold_result step s (zip rows (frame_hex <$> frames)) = Ok s'.
Proof.
  revert data s. induction fuel as [|fuel IH]; intros data s H; [done|]. cbn [ledger_rows] in H.
  destruct data as [|b data]; [cbn in H; injection H as <-; by exists [], []|]. set (d := b :: data) in *. clearbody d.
  unfold need in H. ok_inv H. bool_tac.
  assert (48 <= length d)%nat as Hl48 by (match goal with A : length (take 48 d) = _ |- _ => rewrite length_take in A; lia end).
  set (size := to_signed 4 (be_join (take 4 (drop 12 (take 48 d))))) in *.
  match goal with A : ledger_rows _ _ _ _ _ _ _ _ _ _ _ = Ok _ |- _ => apply IH in A as (frames & rows & Hc & [Hs Hv] & Hf) end.
  assert (take 48 d ++ take (Z.to_nat size) (drop 48 d) = take (Z.to_nat (frame_size d)) d) as Ht.
  { rewrite ledger_frame_size by done. fold size. replace (Z.to_nat (size + 48)) with (48 + Z.to_nat size)%nat by lia.
    by rewrite <- take_take_drop. }
  match goal with A : Z.of_nat (length (take (Z.to_nat size) _)) = size |- _ => rewrite length_take, length_drop in A end.
  assert (frame_size d = size + 48) as Hz by (by apply ledger_frame_size).
  match goal with A : view _ = Ok ?row |- _ => exists (take (Z.to_nat (frame_size d)) d :: frames), (row :: rows) end.
  rewrite <- Ht in *. split_and!.
  - cbn [concat]. rewrite <- Hc, Ht, Hz. replace (Z.to_nat (size + 48)) with (48 + Z.to_nat size)%nat by lia. by rewrite take_drop.
  - split; constructor; [rewrite Ht; apply sized_take; lia|done| |done].
    unfold bound. match goal with A : contextual_frame _ _ _ = Ok _ |- _ => by rewrite A end.
  - cbn [fmap list_fmap zip zip_with fold_result]. match goal with A : step _ _ = Ok _ |- _ => by rewrite A end.
Qed.

(** A ledger: one journal header, then the frames of its rows, taken in order *)
Lemma rows_frames data s s' :
  rows manifest node maximum_frame identifier kind view step data s = Ok s' ->
  exists head frames rs, data = head ++ concat frames /\ sized head /\ row_frames frames rs /\
    fold_result step s (zip rs (frame_hex <$> frames)) = Ok s'.
Proof.
  unfold rows. cbn [ledger_rows]. intros H. destruct data as [|b data]; [done|]. set (d := b :: data) in *. clearbody d.
  unfold need in H. ok_inv H. bool_tac.
  assert (48 <= length d)%nat as Hl48 by (match goal with A : length (take 48 d) = _ |- _ => rewrite length_take in A; lia end).
  set (size := to_signed 4 (be_join (take 4 (drop 12 (take 48 d))))) in *.
  match goal with A : ledger_rows _ _ _ _ _ _ _ _ _ _ _ = Ok _ |- _ => apply ledger_rows_frames in A as (frames & rs & Hc & Hr & Hf) end.
  match goal with A : Z.of_nat (length (take (Z.to_nat size) _)) = size |- _ => rewrite length_take, length_drop in A end.
  assert (frame_size d = size + 48) as Hz by (by apply ledger_frame_size).
  exists (take (Z.to_nat (size + 48)) d), frames, rs. split_and!; [|by apply sized_take; lia|done..].
  rewrite <- Hc. replace (Z.to_nat (size + 48)) with (48 + Z.to_nat size)%nat by lia. by rewrite take_drop.
Qed.
End Rows.

Lemma Forall2_det {A B} (f : A -> result B) l rows rows' :
  Forall2 (fun x row => f x = Ok row) l rows -> Forall2 (fun x row => f x = Ok row) l rows' -> rows = rows'.
Proof.
  intros H. revert rows'. induction H as [|x r l rows Hx _ IH]; intros rows' H'; inversion H' as [|? r' ? ? Hx' H'']; subst; [done|].
  f_equal; [congruence|by apply IH].
Qed.

(** A journal of a source and a ledger of the same file have the same rows. *)
Lemma source_rows {A} manifest (view : json -> result A) name kind_name kind node directory data rs head frames rs' :
  read_at directory [name] = Ok data -> source_journal manifest view name kind_name kind node directory = Ok rs ->
  data = head ++ concat frames -> sized head -> row_frames manifest kind_name view frames rs' -> rs = rs'.
Proof.
  intros Hd H -> Hh [Hs Hv]. unfold source_journal, need in H. rewrite Hd in H. cbn [rbind] in H. ok_inv H. bool_tac.
  match goal with A : journal_rows _ _ _ = Ok _ |- _ => apply journal_rows_frames in A as (frames' & Hc & Hs' & Hv') end.
  set (d := head ++ concat frames) in *.
  assert (sized (take (Z.to_nat (frame_size d)) d)) as Hh' by (apply sized_take; [done|lia..]).
  assert (head :: frames = take (Z.to_nat (frame_size d)) d :: frames') as [= _ <-].
  { apply sized_unique; [by constructor..|]. cbn [concat]. rewrite <- Hc. by rewrite take_drop. }
  by eapply Forall2_det.
Qed.

(** The rows of one ledger file, and the frames they are read from *)
Definition ledger_content {A} (manifest : json) (content : bytes) (kind : string) (view : json -> result A)
    (frames : list bytes) (rows : list A) : Prop :=
  exists head, content = head ++ concat frames /\ sized head /\ row_frames manifest kind view frames rows.

(** A fold over the rows, by an invariant of the rows already taken *)
Lemma fold_rows {A S} (I : list A -> S -> Prop) (f : S -> A -> result S) l s s' :
  I [] s -> (forall pre x s s', x ∈ l -> I pre s -> f s x = Ok s' -> I (pre ++ [x]) s') -> fold_result f s l = Ok s' -> I l s'.
Proof.
  intros Hs Hf. assert (forall post pre s, pre ++ post = l -> I pre s -> fold_result f s post = Ok s' -> I l s') as H; [|by apply (H l [] s)].
  clear s Hs. induction post as [|x post IH]; intros pre s Hl Hs H; cbn [fold_result] in H.
  - injection H as <-. by rewrite app_nil_r in Hl; subst.
  - apply rbind_ok in H as (s1 & H1 & H). apply (IH (pre ++ [x]) s1); [by rewrite <- app_assoc| |done]. eapply Hf; [|done..]. subst l.
    apply elem_of_app. right. by left.
Qed.

Lemma fold_zip {A B S} (f : S -> A * B -> result S) (g : S -> A -> result S) (l : list A) (k : list B) s :
  (forall s x, f s x = g s x.1) -> length k = length l -> fold_result f s (zip l k) = fold_result g s l.
Proof.
  intros Hf. revert k s. induction l as [|x l IH]; intros [|y k] s Hl; try done. cbn [zip zip_with fold_result]. rewrite Hf. cbn [fst].
  destruct (g s x); [|done]. cbn [rbind]. apply IH. cbn in Hl. lia.
Qed.

(** ** Promises *)

(** The promises of a ledger grow from the genesis epoch on. *)
Record growing (promised : list ballot_of) : Prop := {
  gw_first : b_epoch <$> head promised = Some 1;
  gw_epochs : StronglySorted Z.lt (b_epoch <$> promised)
}.

Record granted (promised : list ballot_of) (s : granting) : Prop := {
  gt_ballot : forall k b, gr_ballots s !! k = Some b <-> b ∈ promised /\ b_epoch b = k;
  gt_size : size (gr_ballots s) = length promised;
  gt_growing : promised <> [] -> growing promised /\ b_epoch <$> last promised = Some (gr_highest s)
}.

Lemma growing_max promised b h : StronglySorted Z.lt (b_epoch <$> promised) -> b_epoch <$> last promised = Some h -> b ∈ promised -> b_epoch b <= h.
Proof.
  revert b. induction promised as [|p promised IH]; intros b Hs Hl Hb; [by apply not_elem_of_nil in Hb|]. cbn [fmap list_fmap] in Hs.
  apply StronglySorted_inv in Hs as [Hs Hp]. destruct promised as [|q promised].
  - apply list_elem_of_singleton in Hb as ->. cbn in Hl. injection Hl as <-. lia.
  - change (last (p :: q :: promised)) with (last (q :: promised)) in Hl. apply elem_of_cons in Hb as [->|Hb]; [|by apply IH].
    pose proof (IH q Hs Hl (list_elem_of_here _ _)). apply Forall_cons in Hp as [Hp _]. lia.
Qed.

Lemma grant_row promised s b d s' : granted promised s -> grant s (b, d) = Ok s' -> granted (promised ++ [b]) s'.
Proof.
  intros [Hb Hn Hg] H. unfold grant, need in H. cbn [fst] in H. apply rbind_ok in H as ([] & Hc & [= <-]). apply guard_ok in Hc.
  apply andb_true_iff in Hc as [_ Hc].
  assert (bool_decide (gr_ballots s = ∅) = bool_decide (promised = [])) as Hemp.
  { apply bool_decide_ext. rewrite <- map_size_empty_iff, Hn. by destruct promised. }
  rewrite Hemp in Hc. clear Hemp. assert (forall c, c ∈ promised -> b_epoch c < b_epoch b) as Hlt.
  { intros c Hin. case_bool_decide as He; [rewrite He in Hin; by apply not_elem_of_nil in Hin|]. destruct (Hg He) as [[_ Hs] Hl].
    pose proof (growing_max _ _ _ Hs Hl Hin). lia. }
  assert (gr_ballots s !! b_epoch b = None) as Hfresh.
  { destruct (gr_ballots s !! b_epoch b) as [c|] eqn:E; [|done]. apply Hb in E as [Hin He]. specialize (Hlt _ Hin). lia. }
  split; cbn [gr_ballots gr_highest].
  - intros k c. rewrite lookup_insert_Some, Hb, elem_of_app, list_elem_of_singleton. split.
    + intros [[<- <-]|(Hne & Hin & <-)]; [by split; [right|]|by split; [left|]].
    + intros [[Hin| ->] <-]; [right|by left]. split; [|done]. specialize (Hlt _ Hin). lia.
  - rewrite map_size_insert_None by done. rewrite Hn, length_app. cbn. lia.
  - intros _. rewrite last_snoc. split; [|done]. case_bool_decide as He.
    + subst promised. split; [cbn; f_equal; lia|by repeat constructor].
    + destruct (Hg He) as [[Hf Hs] Hl]. split.
      * destruct promised; [done|exact Hf].
      * rewrite fmap_app. apply growing_snoc; [done|]. intros y Hy. rewrite fmap_last, Hl in Hy. injection Hy as <-. lia.
Qed.

Lemma granted_start : granted [] (Granting ∅ 0).
Proof. split; [|done|done]. intros k b. cbn. rewrite lookup_empty. split; [done|]. intros [H _]. by apply not_elem_of_nil in H. Qed.

(** ** Acceptances *)

(** A row of the ledger with the entry it carries *)
Definition accepted_row : Type := acceptance * entry_of.
Definition entry_of_acceptance (manifest : json) (a : acceptance) : result entry_of := bound manifest view_entry "ENTRY" (ac_entry a).

(** The rows of a slot, in order; the last is the one in force. *)
Definition rows_at (i : Z) (rows : list accepted_row) : list accepted_row := List.filter (fun x => en_index x.2 =? i) rows.
Definition in_force (i : Z) (rows : list accepted_row) : option accepted_row := last (rows_at i rows).

(** What the entry of slot [i] must name: digest and epoch of the entry in force before it, of the last one of the
    snapshot, or those of the manifest *)
Definition expected_before (digest : string) (s0 : snapshot_of) (rows : list accepted_row) (i : Z) : string * Z :=
  match in_force (i - 1) rows, last (sn_anchors s0) with
  | Some y, _ => (frame_hex (ac_entry y.1), en_epoch y.2)
  | None, Some a => (an_entry a, an_epoch a)
  | None, None => (digest, 1)
  end.

(** The acceptances of a ledger up to slot [n].  [ok_ballot] says which ballots were promised. *)
Record accepted_rows (digest : string) (s0 : snapshot_of) (ok_ballot : ballot_of -> Prop) (rows : list accepted_row) (n : Z) : Prop := {
  ar_slot : forall i, rows_at i rows <> [] <-> cut s0 < i <= n;
  ar_order : StronglySorted Z.le ((fun x => en_index x.2) <$> rows);
  ar_promised : Forall (fun x => ok_ballot (ac_ballot x.1)) rows;
  ar_ballots : forall i, StronglySorted Z.lt ((fun x => ac_epoch x.1) <$> rows_at i rows);
  ar_first : forall i x, head (rows_at i rows) = Some x -> (en_previous x.2, en_previous_epoch x.2) = expected_before digest s0 rows i
}.

Lemma rows_at_snoc i rows x : rows_at i (rows ++ [x]) = rows_at i rows ++ (if en_index x.2 =? i then [x] else []).
Proof. unfold rows_at. rewrite List.filter_app. cbn [List.filter]. by destruct (_ =? _). Qed.
Lemma rows_at_other i rows x : en_index x.2 <> i -> rows_at i (rows ++ [x]) = rows_at i rows.
Proof. intros H. rewrite rows_at_snoc. rewrite (proj2 (Z.eqb_neq _ _)) by done. apply app_nil_r. Qed.
Lemma rows_at_same rows x : rows_at (en_index x.2) (rows ++ [x]) = rows_at (en_index x.2) rows ++ [x].
Proof. by rewrite rows_at_snoc, Z.eqb_refl. Qed.
Lemma elem_rows_at i rows x : x ∈ rows_at i rows <-> x ∈ rows /\ en_index x.2 = i.
Proof. unfold rows_at. rewrite !list_elem_of_In, filter_In, Z.eqb_eq. done. Qed.
Lemma in_force_snoc i rows x : in_force i (rows ++ [x]) = if en_index x.2 =? i then Some x else in_force i rows.
Proof. unfold in_force. rewrite rows_at_snoc. destruct (_ =? _); [apply last_snoc|by rewrite app_nil_r]. Qed.
Lemma in_force_none i rows : in_force i rows = None <-> rows_at i rows = [].
Proof. apply last_None. Qed.

Section Accepting.
Context (manifest : json) (digest : string) (s0 : snapshot_of) (grants : gmap Z ballot_of).
Definition granted_ballot (b : ballot_of) : Prop := grants !! b_epoch b = Some b.

(** The slot the rows [rows] of one index leave, [x] the last of them *)
Record slot_of (rows : list accepted_row) (x : accepted_row) (o : slot) : Prop := {
  sl_acceptance : st_acceptance o = x.1;
  sl_digest : st_digest o = frame_hex (ac_entry x.1);
  sl_entry : st_epoch o = en_epoch x.2 /\ st_operation o = en_operation x.2 /\ st_previous o = en_previous x.2;
  sl_highest : st_highest o = ac_epoch x.1;
  sl_ballots : forall k b, st_ballots o !! k = Some b -> exists y, y ∈ rows /\ ac_ballot y.1 = b
}.

(** The slots after [rows] *)
Record slots_of (rows : list accepted_row) (s : accepting_rows) : Prop := {
  so_domain : forall i, is_Some (ar_slots s !! i) <-> cut s0 < i <= cut s0 + Z.of_nat (size (ar_slots s));
  so_none : forall i, in_force i rows = None -> ar_slots s !! i = None;
  so_some : forall i x, in_force i rows = Some x -> exists o, ar_slots s !! i = Some o /\ slot_of (rows_at i rows) x o;
  so_rows : accepted_rows digest s0 granted_ballot rows (cut s0 + Z.of_nat (size (ar_slots s)))
}.

Lemma slots_of_start : slots_of [] (AcceptingRows ∅ 0 []).
Proof.
  split; cbn [ar_slots]; try done.
  - intros i. rewrite lookup_empty, map_size_empty. split; [by intros []|lia].
  - split; [|constructor|constructor|intros i; constructor|done]. intros i. rewrite map_size_empty. split; [by intros []|lia].
Qed.

Lemma predecessor_expected rows s i : slots_of rows s -> predecessor digest s0 (ar_slots s) i = expected_before digest s0 rows i.
Proof.
  intros H. unfold predecessor, expected_before. destruct (in_force (i - 1) rows) as [y|] eqn:E.
  - destruct (so_some _ _ H _ _ E) as (o & -> & [_ Hd [He _] _ _]). by rewrite Hd, He.
  - by rewrite (so_none _ _ H _ E).
Qed.

(** The slot a row leaves *)
Lemma slot_of_row rows x (old : option slot) :
  match in_force (en_index x.2) rows with
  | Some y => exists o, old = Some o /\ slot_of (rows_at (en_index x.2) rows) y o
  | None => old = None
  end ->
  slot_of (rows_at (en_index x.2) rows ++ [x]) x
    (Slot (frame_hex (ac_entry x.1)) (en_epoch x.2) (en_operation x.2) (en_previous x.2) x.1
       (<[ac_epoch x.1 := ac_ballot x.1]> match old with Some o => st_ballots o | None => ∅ end) (ac_epoch x.1)).
Proof.
  intros Ho. split; cbn [st_acceptance st_previous st_epoch st_operation st_digest st_highest st_ballots]; [done..|].
  intros k b [[<- <-]|[Hne Hk]]%lookup_insert_Some; [exists x; split; [|done]; apply elem_of_app; right; by left|].
  destruct (in_force _ rows) as [y|]; [destruct Ho as (o & -> & Hs)|by rewrite Ho, lookup_empty in Hk].
  destruct (sl_ballots _ _ _ Hs _ _ Hk) as (z & Hz & Hb). exists z. split; [|done]. apply elem_of_app. by left.
Qed.

(** How a row extends the acceptances: it rewrites the last slot under a higher ballot, or opens the next one *)
Lemma accepted_snoc ok rows n x n' :
  accepted_rows digest s0 ok rows n -> ok (ac_ballot x.1) -> cut s0 < en_index x.2 ->
  match in_force (en_index x.2) rows with
  | Some y => en_index x.2 = n /\ n' = n /\ ac_epoch y.1 < ac_epoch x.1
  | None => en_index x.2 = n + 1 /\ n' = n + 1 /\ (en_previous x.2, en_previous_epoch x.2) = expected_before digest s0 rows (en_index x.2)
  end ->
  accepted_rows digest s0 ok (rows ++ [x]) n'.
Proof.
  intros [Hslot Ho Hp Hb Hf] Hok Hcut Hx. set (i := en_index x.2) in *.
  assert (n <= i) as Hn by (destruct (in_force i rows); lia).
  assert (forall j, rows_at j rows <> [] -> j <= i) as Hle by (intros j Hj; apply Hslot in Hj; lia).
  assert (forall j, (n < j -> rows_at j rows = [])) as Hnone.
  { intros j Hj. destruct (rows_at j rows) eqn:E; [done|]. assert (rows_at j rows <> []) as Hne by (by rewrite E). apply Hslot in Hne. lia. }
  split.
  - intros j. rewrite rows_at_snoc. fold i. destruct (Z.eqb_spec i j) as [<-|Hne].
    + split; [intros _|intros _ H; by apply app_nil in H as [_ ?]]. destruct (in_force i rows); lia.
    + rewrite app_nil_r, Hslot. destruct (in_force i rows); [lia|]. lia.
  - rewrite fmap_app. clear -Ho Hle. assert (forall y, y ∈ rows -> en_index y.2 <= i) as Hall.
    { intros y Hy. apply Hle. intros E. assert (y ∈ rows_at (en_index y.2) rows) as Hin by (by apply elem_rows_at). rewrite E in Hin. by apply not_elem_of_nil in Hin. }
    clear Hle. induction rows as [|y rows IH]; cbn [fmap list_fmap app] in *; [by repeat constructor|].
    apply StronglySorted_inv in Ho as [Ho Hy]. constructor; [apply IH; [done|]; intros z Hz; apply Hall; by right|].
    apply Forall_app. split; [done|]. constructor; [|constructor]. apply Hall. by left.
  - apply Forall_app. split; [done|]. by constructor.
  - intros j. rewrite rows_at_snoc. fold i. destruct (Z.eqb_spec i j) as [<-|Hne]; [|rewrite app_nil_r; apply Hb].
    rewrite fmap_app. apply growing_snoc; [apply Hb|]. intros y Hy. rewrite fmap_last in Hy. change (last (rows_at i rows)) with (in_force i rows) in Hy.
    destruct (in_force i rows) as [z|]; [|done]. injection Hy as <-. cbn. lia.
  - intros j y Hy. assert (expected_before digest s0 (rows ++ [x]) j = expected_before digest s0 rows j \/ n < j - 1 + 1 /\ i = j - 1) as He.
    { unfold expected_before. rewrite in_force_snoc. fold i. destruct (Z.eqb_spec i (j - 1)); [right; lia|by left]. }
    rewrite rows_at_snoc in Hy. fold i in Hy. destruct (rows_at j rows) as [|z l] eqn:Ej.
    + destruct (Z.eqb_spec i j) as [<-|Hne]; [|done]. cbn in Hy. injection Hy as <-.
      destruct He as [->|He]; [|lia]. assert (in_force i rows = None) as Hi by (by apply in_force_none). rewrite Hi in Hx. apply Hx.
    + cbn in Hy. injection Hy as <-. destruct He as [->|He]; [apply Hf; by rewrite Ej|]. exfalso. rewrite (Hnone j) in Ej by lia. done.
Qed.

Lemma accept_row_ok rows s (x : accepted_row) d s' :
  slots_of rows s -> entry_of_acceptance manifest x.1 = Ok x.2 -> cut s0 < en_index x.2 ->
  accept_row manifest digest s0 grants s (x.1, d) = Ok s' -> slots_of (rows ++ [x]) s'.
Proof.
  intros Hs He Hcut H. pose proof Hs as [Hdom Hnone Hsome Hrows]. unfold accept_row, need in H. cbn [fst] in H.
  change (bound manifest view_entry "ENTRY" (ac_entry x.1)) with (entry_of_acceptance manifest x.1) in H. rewrite He in H.
  cbn [rbind] in H. unfold base in H. apply rbind_ok in H as ([] & _ & H). apply rbind_ok in H as ([] & Hg & H).
  apply rbind_ok in H as ([] & Ho & H). apply rbind_ok in H as (replacements & Hr & [= <-]). apply guard_ok in Hg, Ho. bool_tac.
  set (i := en_index x.2) in *.
  assert (match in_force i rows with Some y => exists o, ar_slots s !! i = Some o /\ slot_of (rows_at i rows) y o | None => ar_slots s !! i = None end) as Hold.
  { destruct (in_force i rows) as [y|] eqn:E; [by apply Hsome|by apply Hnone]. }
  pose proof (slot_of_row rows x (ar_slots s !! i) Hold) as Hnew. set (new := Slot _ _ _ _ _ _ _) in *.
  assert (forall n', (match in_force i rows with
      | Some y => i = cut s0 + Z.of_nat (size (ar_slots s)) /\ n' = cut s0 + Z.of_nat (size (ar_slots s)) /\ ac_epoch y.1 < ac_epoch x.1
      | None => i = cut s0 + Z.of_nat (size (ar_slots s)) + 1 /\ n' = cut s0 + Z.of_nat (size (ar_slots s)) + 1 /\
                (en_previous x.2, en_previous_epoch x.2) = expected_before digest s0 rows i end) ->
      n' = cut s0 + Z.of_nat (size (<[i := new]> (ar_slots s))) ->
      slots_of (rows ++ [x]) (AcceptingRows (<[i := new]> (ar_slots s)) (ar_count s + 1) replacements)) as Hgoal.
  { intros n' Hx Hn'. pose proof (accepted_snoc granted_ballot rows _ x n' Hrows Hg Hcut Hx) as Hacc.
    split; cbn [ar_slots]; [| | |by rewrite <- Hn'].
    - intros j. rewrite <- Hn'. rewrite lookup_insert_is_Some', Hdom. destruct (in_force i rows); lia.
    - intros j. rewrite in_force_snoc. fold i. destruct (Z.eqb_spec i j) as [<-|Hne]; [done|]. rewrite lookup_insert_ne by done. apply Hnone.
    - intros j y. rewrite in_force_snoc. fold i. destruct (Z.eqb_spec i j) as [<-|Hne].
      + intros [= <-]. exists new. split; [by rewrite lookup_insert_eq|]. unfold i. by rewrite rows_at_same.
      + rewrite lookup_insert_ne by done. rewrite rows_at_other by done. apply Hsome. }
  destruct (in_force i rows) as [y|] eqn:E.
  - destruct Hold as (o & Hlook & Hso). rewrite Hlook in Hr. apply rbind_ok in Hr as ([] & Hh & _). apply guard_ok in Hh.
    rewrite (sl_highest _ _ _ Hso) in Hh. assert (i <= cut s0 + Z.of_nat (size (ar_slots s))) as Hi by (apply (Hdom i); by eexists).
    apply (Hgoal (cut s0 + Z.of_nat (size (ar_slots s)))); [split_and!; lia|]. by rewrite map_size_insert_Some by (by eexists).
  - rewrite Hold in Hr. apply rbind_ok in Hr as ([] & Hp & _). apply guard_ok in Hp. bool_tac.
    assert (i = cut s0 + Z.of_nat (size (ar_slots s)) + 1) as Hi.
    { assert (~ (cut s0 < i <= cut s0 + Z.of_nat (size (ar_slots s)))) as Hno by (rewrite <- Hdom, Hold; by intros []). lia. }
    apply (Hgoal (cut s0 + Z.of_nat (size (ar_slots s)) + 1)); [|rewrite map_size_insert_None by done; lia].
    split_and!; [done|done|]. rewrite <- (predecessor_expected rows s) by done. done.
Qed.
End Accepting.

(** ** Checked values *)

(** A field of an accepted record has the type of its schema. *)
Lemma accepted_field raw name v fields key t :
  inspect raw name = Ok v -> sp_schema <$> ok_value (record_spec name) = Some (SObject fields) -> (key, t) ∈ fields ->
  exists x, Schema.get key v = Ok x /\ typed t x.
Proof.
  intros H%inspect_nested_accepted Hs Hin. destruct H as [raw name s v Hr _ Ht]. rewrite Hr in Hs. cbn in Hs. injection Hs as Hs.
  rewrite Hs in Ht. inversion Ht as [? ? Hx| | | |? m _ Hf| | |]; subst; [].
  destruct (Hf _ _ Hin) as (x & Hx & Hty). exists x. unfold Schema.get. by rewrite Hx.
Qed.

Lemma contextual_checks raw name manifest v :
  contextual_frame raw name manifest = Ok v -> inspect raw name = Ok v /\ frame_context raw name manifest v = Ok tt.
Proof.
  unfold contextual_frame, NESTING. generalize 7%nat. intros fuel H. cbn [contextual_nested] in H.
  apply rbind_ok in H as (v' & Hv & H). apply rbind_ok in H as ([] & Hc & H). apply rbind_ok in H as (s & _ & H).
  apply rbind_ok in H as (u & _ & H). by injection H as <-.
Qed.

Lemma bound_entry_positive manifest raw e : bound manifest view_entry "ENTRY" raw = Ok e -> 1 <= en_index e.
Proof.
  unfold bound. intros H. apply rbind_ok in H as (v & [Hv _]%contextual_checks & H).
  destruct (accepted_field _ _ _ _ "index" (SName "positive") Hv eq_refl) as (x & Hx & Ht); [by vm_compute; repeat constructor|].
  unfold view_entry, get_int in H. rewrite Hx in H. cbn [rbind] in H.
  inversion Ht as [? ? Hs| | | | | | |]; subst; [|discriminate]. inversion Hs; subst. cbn [as_int rbind] in H.
  ok_inv H. injection H as <-. cbn. lia.
Qed.

(** A proof row: a frame of the manifest with the receipts of at least two different voters *)
Definition quorum_proof (manifest : json) (raw : bytes) (p : proof_of) : Prop :=
  exists v nodes voters, contextual_frame raw "PROOF" manifest = Ok v /\ view_proof v = Ok p /\
    manifest_nodes manifest = Ok nodes /\
    (let! receipts := get_list "receipts" v in map_all (get_text "voter") receipts) = Ok voters /\
    NoDup voters /\ (2 <= length voters)%nat /\ voters ⊆ nodes.

Lemma map_all_length {A B} (f : A -> result B) l r : map_all f l = Ok r -> length r = length l.
Proof.
  revert r. induction l as [|x l IH]; intros r H; cbn [map_all] in H; [by injection H as <-|]. ok_inv H. injection H as <-.
  cbn. f_equal. by apply IH.
Qed.

Lemma proof_context raw manifest v :
  frame_context raw "PROOF" manifest v = Ok tt ->
  exists nodes receipts voters, manifest_nodes manifest = Ok nodes /\ get_list "receipts" v = Ok receipts /\
    map_all (get_text "voter") receipts = Ok voters /\ voters ⊆ nodes.
Proof.
  unfold frame_context. intros H. do 2 apply rbind_ok in H as (? & ? & H). do 6 (apply rbind_ok in H as ([] & ? & H)).
  apply rbind_ok in H as ([] & Hr & _). unfold when, need in Hr. rewrite bool_decide_eq_true_2 in Hr by done. ok_inv Hr.
  eexists _, _, _. split_and!; [done..|]. intros n Hn. rewrite forallb_forall in Hr. apply list_elem_of_In, Hr in Hn. by bool_tac.
Qed.

Lemma inspect_semantics raw name v : inspect raw name = Ok v -> exists ins, semantics ins name v = Ok tt.
Proof.
  unfold inspect, NESTING. generalize 7%nat. intros fuel H. cbn [inspect_nested] in H.
  do 4 apply rbind_ok in H as (? & ? & H). apply rbind_ok in H as ([] & Hs & H). injection H as <-. by eexists.
Qed.

Lemma bound_quorum manifest raw p : bound manifest view_proof "PROOF" raw = Ok p -> quorum_proof manifest raw p.
Proof.
  unfold bound. intros H. apply rbind_ok in H as (v & Hv & Hp). destruct (contextual_checks _ _ _ _ Hv) as [Hi Hc].
  apply proof_context in Hc as (nodes & receipts & voters & Hn & Hr & Hvo & Hsub).
  destruct (accepted_field _ _ _ _ "receipts"
    (SArray (SObject [("digest", SName "hash"); ("voter", SName "node")]%string) 2 3) Hi eq_refl) as (x & Hx & Ht); [by do 7 right; left|].
  apply inspect_semantics in Hi as [ins Hs]. apply rbind_ok in Hs as (? & _ & Hs).
  repeat (rewrite bool_decide_eq_false_2 in Hs by done). rewrite bool_decide_eq_true_2 in Hs by done.
  unfold proof_semantics, need in Hs. rewrite Hr in Hs. cbn [rbind] in Hs. rewrite Hvo in Hs. cbn [rbind] in Hs. ok_inv Hs. bool_tac.
  exists v, nodes, voters. rewrite Hr. split_and!; try done.
  - match goal with A : voters = sorted_set voters |- _ => rewrite A end. unfold sorted_set. rewrite merge_sort_Permutation. apply NoDup_remove_dups.
  - rewrite (map_all_length _ _ _ Hvo). unfold get_list in Hr. rewrite Hx in Hr. cbn [rbind] in Hr.
    inversion Ht; subst. cbn in Hr. injection Hr as ->. lia.
Qed.

(** ** Proofs *)

(** The application operations in force among the slots above [from], up to [to] *)
Definition applies (rows : list accepted_row) (i : Z) : bool := match in_force i rows with Some x => en_operation x.2 <=? 8 | None => false end.
Definition applied (rows : list accepted_row) (from to : Z) : Z :=
  Z.of_nat (length (List.filter (applies rows) (seqZ (from + 1) (to - from)))).

(** A proof of slot [i]: of exactly the value in force, under a ballot that the slot accepted *)
Definition proves (rows : list accepted_row) (i : Z) (p : proof_of) : Prop :=
  pr_index p = i /\
  exists x, in_force i rows = Some x /\ pr_digest p = frame_hex (ac_entry x.1) /\ pr_previous p = en_previous x.2 /\
            exists y, y ∈ rows_at i rows /\ ac_ballot y.1 = pr_ballot p.

Record proven_rows (s0 : snapshot_of) (rows : list accepted_row) (proofs : list proof_of) (s : Z * Z) : Prop := {
  pn_proven : s.1 = cut s0 + Z.of_nat (length proofs);
  pn_proofs : forall k p, proofs !! k = Some p -> proves rows (cut s0 + Z.of_nat k + 1) p;
  pn_sequence : s.2 = sn_sequence s0 + applied rows (cut s0) s.1
}.

Lemma proven_start s0 rows : proven_rows s0 rows [] (cut s0, sn_sequence s0).
Proof. split; cbn [fst snd length]; [lia|done|]. unfold applied. rewrite Z.sub_diag. change (seqZ _ 0) with (@nil Z). cbn. lia. Qed.

Lemma applied_succ rows from to :
  from <= to -> applied rows from (to + 1) = if applies rows (to + 1) then applied rows from to + 1 else applied rows from to.
Proof.
  intros Hl. unfold applied. replace (to + 1 - from) with (to - from + 1) by lia. rewrite seqZ_app by lia.
  rewrite List.filter_app, length_app. replace (from + 1 + (to - from)) with (to + 1) by lia.
  replace (seqZ (to + 1) 1) with [to + 1] by (by rewrite seqZ_cons by lia). cbn [List.filter]. destruct (applies rows (to + 1)); cbn; lia.
Qed.

Lemma prove_row_ok digest s0 grants rows st proofs s p d s' :
  slots_of digest s0 grants rows st -> proven_rows s0 rows proofs s -> prove_row (ar_slots st) s (p, d) = Ok s' ->
  proven_rows s0 rows (proofs ++ [p]) s'.
Proof.
  intros Hst [Hf Hp Hs] H. unfold prove_row, need in H. cbn [fst] in H. apply rbind_ok in H as ([] & Hi & H). apply guard_ok in Hi.
  apply rbind_ok in H as (o & Ho & H). apply of_option_ok in Ho. apply rbind_ok in H as ([] & Hb & H). apply guard_ok in Hb.
  apply rbind_ok in H as ([] & _ & [= <-]). bool_tac. rewrite Hi in *.
  destruct (in_force (s.1 + 1) rows) as [x|] eqn:E; [|by rewrite (so_none _ _ _ _ _ Hst _ E) in Ho].
  destruct (so_some _ _ _ _ _ Hst _ _ E) as (o' & Ho' & Hx). rewrite Ho in Ho'. injection Ho' as <-.
  pose proof Hx as [_ Hd (_ & Hop & Hprev) _ Hbal].
  split; cbn [fst snd].
  - rewrite length_app. cbn. lia.
  - intros k q Hk. apply lookup_app_Some in Hk as [Hk|[Hk Hq]]; [by apply Hp|]. destruct (k - length proofs)%nat eqn:Ek; [|done].
    injection Hq as <-. replace (cut s0 + Z.of_nat k + 1) with (s.1 + 1) by lia. split; [done|]. exists x. split; [done|].
    match goal with A : st_ballots o !! _ = Some _ |- _ => destruct (Hbal _ _ A) as (y & Hy & Hyb) end. split; [congruence|]. split; [congruence|]. by exists y.
  - rewrite applied_succ by lia. unfold applies. rewrite E, <- Hop, Hs. destruct (st_operation o <=? 8); lia.
Qed.

Lemma proven_within digest s0 grants rows st proofs s :
  slots_of digest s0 grants rows st -> proven_rows s0 rows proofs s -> s.1 <= cut s0 + Z.of_nat (size (ar_slots st)).
Proof.
  intros Hst [Hf Hp _]. destruct (last proofs) as [p|] eqn:E; [|apply last_None in E as ->; cbn in Hf; lia].
  rewrite last_lookup in E. apply Hp in E as Hq. destruct Hq as (_ & x & Hx & _). destruct (so_some _ _ _ _ _ Hst _ _ Hx) as (o & Ho & _).
  apply lookup_lt_Some in E. assert (is_Some (ar_slots st !! (cut s0 + Z.of_nat (pred (length proofs)) + 1))) as H by (by eexists).
  apply (so_domain _ _ _ _ _ Hst) in H. lia.
Qed.

(** ** The recovered state and its replay *)

Lemma source_acceptances_above manifest base rs st st' :
  fold_result (source_acceptance manifest base) st rs = Ok st' ->
  forall a e, a ∈ rs -> entry_of_acceptance manifest a = Ok e -> base < en_index e.
Proof.
  revert st. induction rs as [|r rs IH]; intros st H a e Ha He; [by apply not_elem_of_nil in Ha|]. cbn [fold_result] in H.
  apply rbind_ok in H as (st1 & H1 & H). apply elem_of_cons in Ha as [->|Ha]; [|by eapply IH].
  unfold source_acceptance, need in H1. change (bound manifest view_entry "ENTRY" (ac_entry r)) with (entry_of_acceptance manifest r) in H1.
  rewrite He in H1. cbn [rbind] in H1. apply rbind_ok in H1 as ([] & Hg & _). apply guard_ok in Hg. bool_tac. done.
Qed.

Lemma zip_fst_elem {A B} (l : list A) (k : list B) x : x ∈ zip l k -> x.1 ∈ l.
Proof. destruct x as [a b]. intros H. by eapply elem_of_zip_l. Qed.

(** Every acceptance of the active journal is above the installed snapshot. *)
Lemma accepted_above manifest directory node application re data head frames rs a e :
  state manifest directory node application = Ok re -> read_at (re_active re) ["accepted.gsr"%string] = Ok data ->
  data = head ++ concat frames -> sized head -> row_frames manifest "ACCEPT" view_acceptance frames rs ->
  a ∈ rs -> entry_of_acceptance manifest a = Ok e -> cut (re_initial re) < en_index e.
Proof.
  intros Hst Hd Hc Hh Hr Ha He. unfold state in Hst. apply rbind_ok in Hst as (genesis & Hg & Hst).
  apply rbind_ok in Hst as (current & Hcur & Hst). apply rbind_ok in Hst as ([] & _ & Hst).
  apply rbind_ok in Hst as (selected & _ & Hst). apply rbind_ok in Hst as ([] & _ & Hst). injection Hst as <-.
  cbn [re_active re_initial] in *. destruct current as [[active x]|]; cbn [fst snd] in *.
  - unfold installed in Hcur. destruct (exists_at _ _); [|by apply rbind_ok in Hcur as (? & _ & ?)].
    do 3 apply rbind_ok in Hcur as (? & ? & Hcur). apply rbind_ok in Hcur as (y & Hs & Hcur).
    do 2 apply rbind_ok in Hcur as (? & _ & Hcur). injection Hcur as <- <-.
    unfold source in Hs. apply rbind_ok in Hs as (? & _ & Hs). do 4 apply rbind_ok in Hs as (? & _ & Hs).
    apply rbind_ok in Hs as (s & _ & Hs). do 4 apply rbind_ok in Hs as (? & _ & Hs).
    apply rbind_ok in Hs as ([] & Hj & Hs). injection Hs as <-. cbn [so_snapshot]. unfold source_journals in Hj.
    apply rbind_ok in Hj as (rs' & Hrs & Hj). apply rbind_ok in Hj as (proofs & _ & Hj). apply rbind_ok in Hj as (st & Hf & _).
    assert (rs' = rs) as -> by (by eapply source_rows). by eapply source_acceptances_above.
  - unfold genesis_snapshot in Hg. ok_inv Hg. injection Hg as <-. apply bound_entry_positive in He. change (0 < en_index e). lia.
Qed.

(** The promises as the ballots they are *)
Lemma accepted_rows_impl digest s0 (ok ok' : ballot_of -> Prop) rows n :
  (forall b, ok b -> ok' b) -> accepted_rows digest s0 ok rows n -> accepted_rows digest s0 ok' rows n.
Proof. intros Hok [H1 H2 H3 H4 H5]. split; [done|done| |done|done]. eapply Forall_impl; [exact H3|]. intros x. apply Hok. Qed.

Lemma promises_replayed manifest node maximum_frame data g :
  AutoStorage.rows manifest node maximum_frame 4 "PROMISE" view_ballot grant data (Granting ∅ 0) = Ok g ->
  exists frames promised, ledger_content manifest data "PROMISE" view_ballot frames promised /\ granted promised g.
Proof.
  intros (head & frames & promised & Hc & Hh & Hr & Hf)%rows_frames. exists frames, promised. split; [by exists head|].
  rewrite (fold_zip _ (fun s b => grant s (b, EmptyString))) in Hf; [|by intros ? []|rewrite length_fmap; by destruct Hr as [_ ?%Forall2_length]].
  eapply (fold_rows granted); [apply granted_start| |exact Hf]. intros pre b s s' _ Hs H. exact (grant_row _ _ _ EmptyString _ Hs H).
Qed.

Lemma acceptances_replayed manifest digest s0 grants node maximum_frame data s :
  AutoStorage.rows manifest node maximum_frame 24 "ACCEPT" view_acceptance (accept_row manifest digest s0 grants) data (AcceptingRows ∅ 0 []) = Ok s ->
  (forall head frames rs, data = head ++ concat frames -> sized head -> row_frames manifest "ACCEPT" view_acceptance frames rs ->
     forall a e, a ∈ rs -> entry_of_acceptance manifest a = Ok e -> cut s0 < en_index e) ->
  exists frames rows, ledger_content manifest data "ACCEPT" view_acceptance frames rows.*1 /\
    Forall (fun x => entry_of_acceptance manifest x.1 = Ok x.2) rows /\ slots_of digest s0 grants rows s.
Proof.
  intros (head & frames & rs & Hc & Hh & Hr & Hf)%rows_frames Habove. specialize (Habove _ _ _ Hc Hh Hr).
  rewrite (fold_zip _ (fun s a => accept_row manifest digest s0 grants s (a, EmptyString))) in Hf;
    [|by intros ? []|rewrite length_fmap; by destruct Hr as [_ ?%Forall2_length]].
  assert (exists rows, rs = rows.*1 /\ Forall (fun x => entry_of_acceptance manifest x.1 = Ok x.2) rows /\ slots_of digest s0 grants rows s)
    as (rows & -> & He & Hs); [|by exists frames, rows; split; [exists head|]].
  eapply (fold_rows (fun pre s => exists rows, pre = rows.*1 /\ Forall (fun x => entry_of_acceptance manifest x.1 = Ok x.2) rows /\
                                   slots_of digest s0 grants rows s)); [exists []; split_and!; [done|constructor|apply slots_of_start]| |exact Hf].
  intros pre a st st' Hin (rows & -> & He & Hs) Hstep.
  assert (exists e, entry_of_acceptance manifest a = Ok e) as [e Hea].
  { unfold accept_row in Hstep. apply rbind_ok in Hstep as (? & _ & Hstep). apply rbind_ok in Hstep as (e & He' & _). by exists e. }
  exists (rows ++ [(a, e)]). split_and!; [by rewrite fmap_app|apply Forall_app; split; [done|by constructor]|].
  apply (accept_row_ok manifest digest s0 grants rows st (a, e) EmptyString); [done|exact Hea|by eapply Habove|exact Hstep].
Qed.

Lemma proofs_replayed manifest digest s0 grants node maximum_frame data rows st s :
  slots_of digest s0 grants rows st ->
  AutoStorage.rows manifest node maximum_frame 6 "PROOF" view_proof (prove_row (ar_slots st)) data (cut s0, sn_sequence s0) = Ok s ->
  exists frames proofs, ledger_content manifest data "PROOF" view_proof frames proofs /\ Forall2 (quorum_proof manifest) frames proofs /\
    proven_rows s0 rows proofs s.
Proof.
  intros Hst (head & frames & proofs & Hc & Hh & Hr & Hf)%rows_frames. exists frames, proofs. split; [by exists head|]. split.
  - destruct Hr as [_ Hr]. eapply Forall2_impl; [exact Hr|]. intros f p. apply bound_quorum.
  - rewrite (fold_zip _ (fun s p => prove_row (ar_slots st) s (p, EmptyString))) in Hf; [|by intros ? []|rewrite length_fmap; by destruct Hr as [_ ?%Forall2_length]].
    eapply (fold_rows (proven_rows s0 rows)); [apply proven_start| |exact Hf]. intros pre p s1 s2 _ Hs H.
    exact (prove_row_ok _ _ _ _ _ _ _ _ EmptyString _ Hst Hs H).
Qed.

(** The digest in force of a slot *)
Definition digest_at (rows : list accepted_row) (i : Z) : string :=
  match in_force i rows with Some x => frame_hex (ac_entry x.1) | None => EmptyString end.

Lemma slot_digests_rows digest s0 grants rows s :
  slots_of digest s0 grants rows s ->
  slot_digests (cut s0 + 1) (ar_slots s) = digest_at rows <$> seqZ (cut s0 + 1) (Z.of_nat (size (ar_slots s))).
Proof.
  intros Hs. unfold slot_digests, seqZ. rewrite Nat2Z.id. assert (forall k, k ∈ seq 0 (size (ar_slots s)) -> (k < size (ar_slots s))%nat) as Hk.
  { intros k Hin. apply elem_of_seq in Hin. lia. }
  revert Hk. generalize (seq 0 (size (ar_slots s))). induction l as [|k l IH]; intros Hk; [done|]. cbn [map fmap list_fmap mbind list_bind].
  rewrite <- IH by (intros j Hj; apply Hk; by right). specialize (Hk k ltac:(by left)).
  replace (cut s0 + 1 + Z.of_nat k) with (Z.of_nat k + (cut s0 + 1)) by lia.
  assert (is_Some (ar_slots s !! (Z.of_nat k + (cut s0 + 1)))) as [o Ho] by (apply (so_domain _ _ _ _ _ Hs); lia).
  unfold digest_at. destruct (in_force _ rows) as [x|] eqn:E; [|by rewrite (so_none _ _ _ _ _ Hs _ E) in Ho].
  destruct (so_some _ _ _ _ _ Hs _ _ E) as (o' & Ho' & Hx). rewrite Ho'. cbn. by rewrite (sl_digest _ _ _ Hx).
Qed.

(** What an accepted directory holds: the rows of its three ledgers, the promises of the directory and the others of
    the active generation, over the recovered state [re] *)
Record ledger_contents (directory : tree) (path : string) (r : ledger_report) (raw : bytes) (manifest : json) (re : recovered)
    (promised : list ballot_of) (rows : list accepted_row) (proofs : list proof_of) : Prop := {
  lc_manifest : read_at directory ["manifest.gsr"%string] = Ok raw /\ lr_manifest r = frame_hex raw /\
    exists v, inspect raw "MANIFEST" = Ok v /\ manifest = with_digest v (frame_hex raw);
  lc_node : exists b, read_at directory ["node.gsr"%string] = Ok b /\ bound manifest (get_text "node") "NODE" b = Ok (lr_node r);
  lc_state : exists before voters application, inventory directory = Ok before /\ manifest_nodes manifest = Ok voters /\
    check_seal directory before manifest raw voters (lr_node r) path = Ok application /\ state manifest directory (lr_node r) application = Ok re;
  lc_promises : exists content frames, read_at directory ["promises.gsr"%string] = Ok content /\
    ledger_content manifest content "PROMISE" view_ballot frames promised;
  lc_growing : growing promised /\ b_epoch <$> last promised = Some (lr_promised r) /\ lr_promises r = Z.of_nat (length promised);
  lc_accepted : exists content frames, read_at (re_active re) ["accepted.gsr"%string] = Ok content /\
    ledger_content manifest content "ACCEPT" view_acceptance frames rows.*1;
  lc_entries : Forall (fun x => entry_of_acceptance manifest x.1 = Ok x.2) rows;
  lc_rows : accepted_rows (frame_hex raw) (re_initial re) (fun b => b ∈ promised) rows (lr_accepted r);
  lc_proofs : exists content frames, read_at (re_active re) ["proofs.gsr"%string] = Ok content /\
    ledger_content manifest content "PROOF" view_proof frames proofs /\ Forall2 (quorum_proof manifest) frames proofs;
  lc_proven : proven_rows (re_initial re) rows proofs (lr_proven r, lr_sequence r);
  lc_unproven : lr_proven r <= lr_accepted r <= lr_proven r + 1;
  lc_digests : lr_digests r = map an_entry (sn_anchors (re_initial re)) ++
    (digest_at rows <$> seqZ (cut (re_initial re) + 1) (lr_accepted r - cut (re_initial re)))
}.

(** The replay of the ledgers, by the rows of their files *)
Lemma replay_ok manifest digest node maximum_frame directory application re grants slots proven :
  state manifest directory node application = Ok re ->
  replay manifest digest node maximum_frame directory re = Ok (grants, slots, proven) ->
  exists pdata pframes promised adata aframes rows qdata qframes proofs,
    read_at directory ["promises.gsr"%string] = Ok pdata /\ ledger_content manifest pdata "PROMISE" view_ballot pframes promised /\
    granted promised grants /\ promised <> [] /\
    read_at (re_active re) ["accepted.gsr"%string] = Ok adata /\ ledger_content manifest adata "ACCEPT" view_acceptance aframes rows.*1 /\
    Forall (fun x => entry_of_acceptance manifest x.1 = Ok x.2) rows /\ slots_of digest (re_initial re) (gr_ballots grants) rows slots /\
    read_at (re_active re) ["proofs.gsr"%string] = Ok qdata /\ ledger_content manifest qdata "PROOF" view_proof qframes proofs /\
    Forall2 (quorum_proof manifest) qframes proofs /\ proven_rows (re_initial re) rows proofs proven /\
    cut (re_initial re) + Z.of_nat (size (ar_slots slots)) <= proven.1 + 1.
Proof.
  intros Hst H. unfold replay in H. apply rbind_ok in H as (pdata & Hpd & H). apply rbind_ok in H as (g & Hg & H).
  apply rbind_ok in H as ([] & Hne & H). do 2 (apply rbind_ok in H as ([] & _ & H)).
  apply rbind_ok in H as (adata & Had & H). apply rbind_ok in H as (s & Hs & H). apply rbind_ok in H as (qdata & Hqd & H).
  apply rbind_ok in H as (p & Hp & H). apply rbind_ok in H as ([] & Hlast & H). do 2 apply rbind_ok in H as (? & _ & H).
  do 2 (apply rbind_ok in H as ([] & _ & H)). injection H as <- <- <-. unfold need in Hne, Hlast.
  apply guard_ok in Hne, Hlast. bool_tac.
  apply promises_replayed in Hg as (pframes & promised & Hpc & Hgr).
  apply acceptances_replayed in Hs as (aframes & rows & Hac & He & Hso).
  2:{ intros head frames rs Hc Hh Hr a e. by eapply accepted_above. }
  apply (proofs_replayed _ _ _ _ _ _ _ _ _ _ Hso) in Hp as (qframes & proofs & Hqc & Hq & Hpr).
  exists pdata, pframes, promised, adata, aframes, rows, qdata, qframes, proofs. split_and!; try done.
  intros ->. destruct Hgr as [_ Hn _]. by apply map_size_empty_inv in Hn.
Qed.

(** ** A sample authority directory

    The directory of voter [node-1] just after bootstrap, with one accepted and proven entry, built with
    the fixture generator and encoder.  [rows] are the acceptances and [proofs] the commit proofs. *)

#[local] Transparent be_split sha256.

Definition sample_path : string := "/fixture/node-1".
Definition sample_frame (name : string) : bytes := default [] (assoc_get name (ge_frames sample_records)).
Definition sample_digest : string := default "" (ge_manifest sample_records).

(** [encode] of a record that is known to be well-formed *)
Definition encoded (name : string) (fields : list (string * json)) : bytes :=
  default [] (ok_value (encode no_digits name (JObject (("manifestDigest"%string, JString sample_digest) :: fields)))).

Definition journal_header (kind : Z) : bytes := encoded "JOURNAL" [("node", JString "node-1"); ("recordKind", JInt kind)]%string.
Definition promise_frame (epoch : Z) (proposer : json) (incarnation : string) : bytes :=
  encoded "PROMISE" [("epoch", JInt epoch); ("proposer", proposer); ("incarnation", JString incarnation)]%string.
Definition ready_frame : bytes :=
  encoded "READY" [("node", JString "node-1"); ("genesisDigest", JString (frame_hex (sample_frame "GENESIS")))]%string.

(** The promises of the genesis epoch and of epochs two and five, which rank the first voter *)
Definition sample_promises : bytes :=
  journal_header 4 ++ promise_frame 1 JNull ZERO ++ promise_frame 2 (JString "node-1") UUID ++ promise_frame 5 (JString "node-1") UUID.

(** The files of the bootstrap, as the plan lists them: sorted by name *)
Definition initial_files : list (string * bytes) :=
  [("accepted.gsr", journal_header 24); ("genesis.gsr", sample_frame "GENESIS"); ("manifest.gsr", sample_frame "MANIFEST");
   ("node.gsr", sample_frame "NODE"); ("promises.gsr", journal_header 4); ("proofs.gsr", journal_header 6);
   ("replica.lock", []); ("storage-ready.gsr", ready_frame)]%string.

Definition initial_items : json :=
  JArray ((fun f : string * bytes => JObject [("path", JString f.1); ("size", JInt (Z.of_nat (length f.2)));
                                              ("sha256", JString (digest_hex f.2))]%string) <$> initial_files).

Definition sample_target (i : Z) : json := JObject (("files"%string, initial_items) :: fixture_target i).
Definition plan_frame : bytes :=
  default [] (ok_value (encode no_digits "PLAN"
    (JObject [("manifest", B64 (sample_frame "MANIFEST")); ("genesis", B64 (sample_frame "GENESIS")); ("maxOperationBytes", JInt 2);
              ("maxSourceBytes", JInt 2); ("operationPath", JString "/fixture/path"); ("sourcePath", JNull);
              ("targets", JArray (sample_target <$> [1; 2; 3]))]%string))).
Definition prepared_frame (i : Z) : bytes :=
  encoded "PREPARED" [("node", JString (node_name i)); ("planDigest", JString (frame_hex plan_frame));
                      ("inventoryDigest", JString (digest_hex (canonical initial_items)))]%string.
Definition receipt_frame : bytes :=
  default [] (ok_value (encode no_digits "RECEIPT"
    (JObject [("plan", B64 plan_frame); ("preparations", JArray ((fun i => B64 (prepared_frame i)) <$> [1; 2; 3]))]%string))).
Definition seal_frame : bytes :=
  default [] (ok_value (encode no_digits "SEAL" (JObject [("node", JString "node-1"); ("receipt", B64 receipt_frame)]%string))).

Definition authority (rows proofs : list bytes) : tree :=
  Dir [("accepted.gsr", File (journal_header 24 ++ concat rows)); ("bootstrap-prepared.gsr", File (prepared_frame 1));
       ("bootstrap-seal.gsr", File seal_frame); ("genesis.gsr", File (sample_frame "GENESIS"));
       ("manifest.gsr", File (sample_frame "MANIFEST")); ("node.gsr", File (sample_frame "NODE"));
       ("promises.gsr", File sample_promises); ("proofs.gsr", File (journal_header 6 ++ concat proofs));
       ("replica.lock", File []); ("storage-ready.gsr", File ready_frame)]%string.

Definition sample_authority : tree := Eval vm_compute in authority [sample_frame "ACCEPT"] [sample_frame "PROOF"].
Definition sample_report : result ledger_report :=
  Eval vm_compute in inspect_authority sample_authority sample_authority sample_path.

(** ** A replacement that does not follow its predecessor

    The first slot is accepted for epoch two as the sample entry and replaced for epoch five by an entry
    whose predecessor digest is not that of the manifest. *)

Definition stray_entry : bytes :=
  encoded "ENTRY" [("originEpoch", JInt 2); ("originIncarnation", JString UUID); ("index", JInt 1); ("operation", JInt 9);
                   ("previousEpoch", JInt 1); ("previousIndex", JInt 0); ("previousDigest", JString HASH); ("payload", JString "");
                   ("payloadDigest", JString (digest_hex []))]%string.

Definition accept_frame (epoch : Z) (entry : bytes) : bytes :=
  encoded "ACCEPT" (ballot_members epoch ++ [("entry", B64 entry); ("entryDigest", JString (frame_hex entry))]%string)%list.

Definition stray_receipt (voter : string) : json :=
  JObject [("voter", JString voter);
           ("digest", JString (default "" (ok_value (receipt_hex "ACCEPT_ACK" sample_digest voter 5 (JString "node-1") UUID 1
                                                       (frame_hex stray_entry)))))]%string.
Definition stray_proof : bytes :=
  encoded "PROOF" (ballot_members 5 ++
    [("index", JInt 1); ("entryDigest", JString (frame_hex stray_entry));
                                        ("previousDigest", JString HASH);
                                        ("receipts", JArray [stray_receipt "node-1"; stray_receipt "node-2"])]%string)%list.

Definition stray_authority : tree :=
  Eval vm_compute in authority [accept_frame 2 (sample_frame "ENTRY"); accept_frame 5 stray_entry] [stray_proof].

(** The oracle checks the predecessor of an entry only where its slot is new, so it accepts this directory
    and reports the stray entry as proven. *)
Example replaced_predecessor_unchecked :
  option_map (fun r => (lr_proven r, lr_digests r)) (ok_value (inspect_authority stray_authority stray_authority sample_path))
    = Some (1, [frame_hex stray_entry]) /\
  (let! v := inspect stray_entry "ENTRY" in get_text "previousDigest" v) = Ok HASH /\ HASH <> sample_digest.
Proof. split_and!; [vm_compute; reflexivity|vm_compute; reflexivity|vm_compute; discriminate]. Qed.

(** ** Accepted authority directories of the (1,2) format *)

(** C23: accepted authorities.  The report of a directory the root-ledger oracle accepts is determined by the rows of
    its ledgers.  The promises of the directory start at the genesis epoch and grow up to the reported one.  The
    acceptances of the active generation fill the slots from the installed snapshot up to the reported one, slot
    after slot; several rows of one slot are under growing ballots, every one of them promised, and the last is in
    force; the entry that opens a slot names digest and epoch of the entry in force before it, or of the snapshot's
    last, or of the manifest.  (One that rewrites a slot need not: [replaced_predecessor_unchecked].)  The proofs
    are, slot by slot from the snapshot to the reported proven one, of exactly the value in force, with receipts of
    at least two different voters, under a ballot that its slot accepted; at most one slot is unproven.  The reported
    sequence is that of the snapshot plus the proven application operations, and the reported digests are those of
    the snapshot and of the entries in force. *)
Theorem accepted_ledger_sound directory after maximum_bytes maximum_frame path r :
  inspect_directory directory after maximum_bytes maximum_frame path = Ok r ->
  exists raw manifest re promised rows proofs, ledger_contents directory path r raw manifest re promised rows proofs.
Proof.
  unfold inspect_directory. intros H. apply rbind_ok in H as (before & Hb & H). apply rbind_ok in H as (? & _ & H).
  apply rbind_ok in H as (raw & Hraw & H). apply rbind_ok in H as (v & Hv & H). apply rbind_ok in H as (voters & Hvo & H).
  apply rbind_ok in H as (? & _ & H). apply rbind_ok in H as (nraw & Hnr & H). apply rbind_ok in H as (node & Hn & H).
  do 6 apply rbind_ok in H as (? & _ & H). apply rbind_ok in H as (application & Hseal & H). apply rbind_ok in H as (re & Hre & H).
  apply rbind_ok in H as ([[grants slots] proven] & Hp & H). do 2 apply rbind_ok in H as (? & _ & H). injection H as <-.
  destruct (replay_ok _ _ _ _ _ _ _ _ _ _ Hre Hp) as (pdata & pframes & promised & adata & aframes & rows & qdata & qframes & proofs &
    Hpd & Hpc & Hg & Hne & Had & Hac & He & Hso & Hqd & Hqc & Hq & Hpr & Hlast).
  destruct (gt_growing _ _ Hg Hne) as [Hgrow Htop]. exists raw, (with_digest v (frame_hex raw)), re, promised, rows, proofs.
  pose proof (slot_digests_rows _ _ _ _ _ Hso) as Hdig. pose proof (proven_within _ _ _ _ _ _ _ Hso Hpr) as Hle.
  split; cbn [lr_manifest lr_node lr_promised lr_promises lr_accepted lr_proven lr_sequence lr_digests].
  - split_and!; [done|done|by exists v].
  - by exists nraw.
  - by exists before, voters, application.
  - by exists pdata, pframes.
  - split_and!; [done|done|]. by rewrite (gt_size _ _ Hg).
  - by exists adata, aframes.
  - done.
  - eapply accepted_rows_impl; [|apply Hso]. intros b Hb'. by apply (gt_ballot _ _ Hg) in Hb' as [? _].
  - by exists qdata, qframes.
  - by destruct proven.
  - lia.
  - rewrite Hdig. f_equal. f_equal. f_equal. lia.
Qed.

Lemma accepted_ledger_sound_witness :
  exists r, inspect_directory sample_authority sample_authority (8 * 2 ^ 30) (8 * 2 ^ 20) sample_path = Ok r /\
            lr_proven r = 1 /\ exists raw manifest re promised rows proofs, ledger_contents sample_authority sample_path r raw manifest re promised rows proofs.
Proof.
  assert (inspect_directory sample_authority sample_authority (8 * 2 ^ 30) (8 * 2 ^ 20) sample_path = sample_report) as Hi
    by (vm_compute; reflexivity).
  unfold sample_report in Hi. eexists. split; [exact Hi|]. split; [reflexivity|].
  exact (accepted_ledger_sound _ _ _ _ _ _ Hi).
Defined.
