(* ===== verification/AutoBootstrap.v ===== *)
(** * The bootstrap coordinator oracle of the (1,2) format ([scripts/v51/bootstrap_inspector.py])

    [inspect_operation] checks the coordinator's directory of one bootstrap: the plan, the descriptor
    bound to it, the journal of decisions, and what each decision promises of the three targets.
    [at_location] gives the tree an absolute path leads to and [resolved] is [Path.resolve]. *)

From Stdlib Require Import Ascii.
From stdpp Require Import base gmap sets strings list sorting.
From S2P Require Import Prelude Bytes Sha256 Files Json TextCodes ReplicaFrames Schema FormatCatalog AutoFormat AutoRecords AutoRecovery AutoStorage.
Import ResultNotations.
Local Open Scope py_scope.
Local Open Scope Z_scope.

Definition DECISIONS : list string := ["PREPARING"; "PREPARED"; "COMMITTING"; "COMMITTED"]%string.

(** The rows of the decision journal: row [n] has sequence [n], the [n]-th state, the plan and the digest of
    the row before it.  The number of rows. *)
Fixpoint decisions (fuel : nat) (plan_digest previous : string) (n : nat) (journal : bytes) : result nat :=
  match fuel with
  | O => Err (AssertionError "fuel")
  | S fuel' =>
      match journal with
      | [] => Ok n
      | _ =>
          do! need (48 <=? Z.of_nat (length journal)) "ambiguous decision header" in
          let size := to_signed 4 (be_join (take 4 (drop 12 journal))) in
          do! need ((0 <? size) && (size <=? 65536 - 48) && (48 + size <=? Z.of_nat (length journal))) "ambiguous decision body" in
          let frame := take (48 + Z.to_nat size) journal in
          let! row := inspect frame "DECISION" in
          let! expected := of_option (DECISIONS !! n) IndexError in
          let! d := get_text "planDigest" row in
          let! sequence := get_int "sequence" row in
          let! decision := get_text "state" row in
          let! p := get_text "previousDigest" row in
          do! need (bool_decide (d = plan_digest) && (sequence =? Z.of_nat n + 1) && bool_decide (decision = expected)
                    && bool_decide (p = previous)) "decision chain" in
          decisions fuel' plan_digest (frame_hex frame) (S n) (drop (48 + Z.to_nat size) journal)
      end
  end.

(** [['0'*64]] *)
Definition no_digest : string := hex (replicate 32 Byte.x00).

Section World.
Context (at_location : string -> tree) (resolved : string -> string).

(** Files the plan lists for a target, as they are once it is prepared *)
Definition check_prepared_file (directory : tree) (x : item) : result unit :=
  let! data := read_at directory (split_char slash (it_path x)) in
  need ((Z.of_nat (length data) =? it_size x) && bool_decide (digest_hex data = it_sha x)) "prepared inventory".

Definition check_prepared (directory : tree) (node plan_digest manifest_digest : string) (files : list json) : result unit :=
  let! items := map_all view_item files in
  do! check_all (check_prepared_file directory) items in
  let! raw := read_at directory ["bootstrap-prepared.gsr"%string] in
  let! p := inspect raw "PREPARED" in
  let! n := get_text "node" p in
  let! d := get_text "planDigest" p in
  let! m := get_text "manifestDigest" p in
  let! i := get_text "inventoryDigest" p in
  need (bool_decide (n = node) && bool_decide (d = plan_digest) && bool_decide (m = manifest_digest)
        && bool_decide (i = digest_hex (canonical (JArray files)))) "all-three preparation".

(** One target against its part of the descriptor; [rows] is the number of decisions. *)
Definition check_target (plan_digest manifest_digest : string) (binding_raw : bytes) (rows : nat) (committed : bool)
    (local target : json) : result unit :=
  let! lt := get "target" local in
  let! lp := get_text "path" lt in
  let! authority := get_text "authorityPath" target in
  let! lm := get "materialization" local in
  let! ld := get "directory" lm in
  let! lmp := get_text "path" ld in
  let! materialization := get_text "materializationPath" target in
  do! need (bool_decide (lp = authority) && bool_decide (lmp = materialization)) "local path binding" in
  let! lb := get "replicationBounds" local in
  let! bounds := get "bounds" target in
  do! need (json_eqb lb bounds) "bound local limits" in
  let! files := get_list "files" target in
  let! items := map_all view_item files in
  let! b := of_option (List.find (fun x => bool_decide (it_path x = "bootstrap-binding.gsr"%string)) items) (AssertionError "StopIteration") in
  do! need (bool_decide (b = Item "bootstrap-binding.gsr" (Z.of_nat (length binding_raw)) (digest_hex binding_raw))) "bound descriptor bytes" in
  let directory := at_location authority in
  do! when (2 <=? Z.of_nat rows)
        (let! node := get_text "node" target in check_prepared directory node plan_digest manifest_digest files) in
  when committed (let! _ := inspect_authority directory directory (resolved authority) in Ok tt).

Definition check_targets (plan_digest manifest_digest : string) (binding_raw : bytes) (rows : nat) (committed : bool)
    (replicas targets : list json) : result unit :=
  check_all (fun p : nat * json =>
    let! local := of_option (replicas !! p.1) IndexError in
    check_target plan_digest manifest_digest binding_raw rows committed local p.2) (zip (seq 0 (length targets)) targets).

(** What a committed bootstrap leaves: the receipt, and the same receipt in every seal *)
Definition check_committed (operation : tree) (plan_raw : bytes) (rows : nat) (targets : list json) : result unit :=
  do! need (rows =? 4)%nat "missing committed decision" in
  let! receipt_raw := read_at operation ["receipt.gsr"%string] in
  let! receipt := inspect receipt_raw "RECEIPT" in
  let! p := get_blob "plan" receipt in
  do! need (bool_decide (p = plan_raw)) "receipt plan" in
  check_all (fun target =>
    let! path := get_text "authorityPath" target in
    let! seal_raw := read_at (at_location path) ["bootstrap-seal.gsr"%string] in
    let! seal := inspect seal_raw "SEAL" in
    let! r := get_blob "receipt" seal in
    need (bool_decide (r = receipt_raw)) "seal global receipt") targets.

(** The report: the state of the last decision, the base sequence and the plan digest.  [operation_path] is
    the resolved path of the operation directory. *)
Definition inspect_operation (operation : tree) (operation_path : string) (committed : bool) : result (string * Z * string) :=
  let! plan_raw := read_at operation ["plan.gsr"%string] in
  let! plan := inspect plan_raw "PLAN" in
  let plan_digest := frame_hex plan_raw in
  let! binding_raw := read_at operation ["bootstrap-binding.gsr"%string] in
  let! bound_value := inspect binding_raw "BOOTSTRAP_BINDING" in
  let! descriptor := get_blob "descriptor" bound_value in
  let! binding := json_body descriptor in
  let! o := get "operation" binding in
  let! bound_path := get_text "path" o in
  let! planned := get_text "operationPath" plan in
  do! need (bool_decide (bound_path = planned) && bool_decide (planned = operation_path)) "coordinator binding" in
  do! need (match binding with
            | JObject m => bool_decide ((list_to_set m.*1 : gset string) =
                             list_to_set ["operation"; "source"; "application"; "replicas"; "sourceInventory"]%string)
            | _ => false end) "descriptor fields" in
  let! manifest_raw := get_blob "manifest" plan in
  let! manifest := inspect manifest_raw "MANIFEST" in
  let! genesis_raw := get_blob "genesis" plan in
  let! genesis := inspect genesis_raw "GENESIS" in
  let! g := get_text "genesisDigest" manifest in
  do! need (bool_decide (g = frame_hex genesis_raw)) "genesis digest" in
  let! sd := get "sourceDigest" genesis in
  let! source_digest := opt_text sd in
  let! source_path := get "sourcePath" plan in
  let! inventory := get "sourceInventory" binding in
  do! need (bool_decide (source_digest = if scalar_eqb source_path JNull then None else Some (digest_hex (canonical inventory))))
    "source inventory binding" in
  let! journal := read_at operation ["operation.gsr"%string] in
  let! rows := decisions (S (length journal)) plan_digest no_digest 0 journal in
  do! need (0 <? rows)%nat "missing decision" in
  let! targets := get_list "targets" plan in
  let! replicas := get_list "replicas" binding in
  do! check_targets plan_digest (frame_hex manifest_raw) binding_raw rows committed replicas targets in
  do! when committed (check_committed operation plan_raw rows targets) in
  let! phase := of_option (DECISIONS !! (rows - 1)%nat) IndexError in
  let! base := get_int "baseSequence" genesis in
  Ok (phase, base, plan_digest).
End World.
