(* ===== verification/ReplicaRecovery.v ===== *)
(** * Snapshots, generation selectors and recovery floors ([scripts/v50/recovery_format.py])

    The parser of the recovery artifacts of a replica directory: the inventory, the snapshot with its
    ancestry, terminal proof and application state, the selector of the installed generation and the
    recovery floor. *)

From Stdlib Require Import Ascii.
From stdpp Require Import base gmap sets strings list sorting.
From S2P Require Import Prelude Bytes Sha256 Wire Files Json ReplicaFrames.
Import StateNotations ResultNotations.
Local Open Scope py_scope.
Local Open Scope Z_scope.

Definition SLOTS : list string := ["generation-a"; "generation-b"]%string.
Definition SLOT_FILES : list string := ["snapshot.gsr"; "entries.gsr"; "proofs.gsr"; "generation.gsr"]%string.
Definition OPTIONAL : list string :=
  SLOTS ++ ["current.gsr"; "current.pending.gsr"; "recovery-floor.gsr"; "recovery-floor.pending.gsr"; "rebuilding.gsr";
            "generation-started.gsr"; "transfer"]%string.
Definition MAX_IMAGE : Z := 64 * 1024 * 1024.

(** ** [regular] and [inventory] *)

Definition regular (f : option file) : result bytes :=
  of_option (match f with Some f => regular_content f | None => None end) (fault "unsafe recovery member").

Definition size_of (content : bytes) : Z := Z.of_nat (length content).

Definition child_limit (name : string) : Z :=
  if bool_decide (name ∈ ["snapshot.gsr"; "image.bin"]%string) then MAX_IMAGE
  else if bool_decide (name ∈ ["offer.gsr"; "generation.gsr"]%string) then MAX_METADATA
  else 1024 ^ 4.

(** The members of a slot or of the transfer directory, in the order the system lists them. *)
Fixpoint staged_size (allowed : list string) (count : Z) (children : list (string * file)) : result Z :=
  match children with
  | [] => Ok 0
  | (name, child) :: children' =>
      do! check ((count + 1 <=? Z.of_nat (length allowed)) && bool_decide (name ∈ allowed)) "unknown staged member" in
      let! content := regular (Some child) in
      do! check (size_of content <=? child_limit name) "staged member exceeds capacity" in
      let! rest := staged_size allowed (count + 1) children' in
      Ok (size_of content + rest)
  end.

Definition known_members : list string := FILES ++ OPTIONAL.

Definition member_size (name : string) (f : file) : result Z :=
  if bool_decide (name ∈ SLOTS) || bool_decide (name = "transfer"%string) then
    let! children := of_option (folder_members f) (fault "unsafe recovery directory") in
    staged_size (if bool_decide (name ∈ SLOTS) then SLOT_FILES else ["offer.gsr"; "image.bin"]%string) 0
      (map_to_list children)
  else
    let! content := regular (Some f) in Ok (size_of content).

Fixpoint members_size (count : Z) (members : list (string * file)) : result Z :=
  match members with
  | [] => Ok 0
  | (name, f) :: members' =>
      do! check ((count <? Z.of_nat (length known_members)) && bool_decide (name ∈ known_members)) "unknown replica member" in
      let! n := member_size name f in
      let! rest := members_size (count + 1) members' in
      Ok (n + rest)
  end.

(** [directory] is the replica path; [Folder] excludes symbolic links on the way to it. *)
Definition inventory (directory : file) : result (gmap string file) :=
  let! members := of_option (folder_members directory) (fault "unsafe replica path") in
  let! total := members_size 0 (map_to_list members) in
  do! check (forallb (fun name => bool_decide (is_Some (members !! name))) FILES
             && match members !! "replica.lock"%string with Some (Regular []) => true | _ => false end)
    "incomplete replica inventory" in
  do! check (total <=? 2 * 1024 ^ 4) "recovery retention/staging capacity exceeded" in
  Ok members.

(** ** [record], [embedded] and [blob] *)

Definition record (f : option file) (kind maximum : Z) : result (bytes * bytes) :=
  let! content := regular f in
  do! check ((0 <? size_of content) && (size_of content <=? maximum)) "recovery record exceeds bound" in
  only_frame kind maximum "incomplete/trailing recovery record" content.

Definition embedded (value : bytes) (kind maximum : Z) : result (bytes * bytes) :=
  only_frame kind maximum "incomplete/trailing embedded recovery record" value.

Definition blob (maximum : Z) : reader bytes :=
  let* length := number_i in
  do* checked_that ((0 <=? length) && (length <=? maximum)) "recovery blob exceeds bound" in
  take_field length.

(** ** [parse_proof] *)

Definition proof_body (manifest : bytes) (voters : list string) (entries : list entry) : reader (Z * list string) :=
  let* m := take_field 32 in
  do* checked_that (bool_decide (m = manifest)) "snapshot proof manifest mismatch" in
  let* epoch := number_q in
  let* incarnation := take_field 16 in
  let* index := number_q in
  let* entry_digest := take_field 32 in
  let* previous := take_field 32 in
  let* count := number_i in
  do* checked_that ((1 <=? index) && (index <=? Z.of_nat (length entries)) && (2 <=? count) && (count <=? 3))
    "snapshot proof index/quorum mismatch" in
  let* e := liftr (of_option (entries !! Z.to_nat (index - 1)) IndexError) in
  do* checked_that (bool_decide ((epoch, incarnation, entry_digest, previous)
                                 = (e_epoch e, e_incarnation e, e_digest e, e_previous e)))
    "snapshot proof ancestry mismatch" in
  let* nodes := times count (read_receipt voters e "invalid snapshot proof receipt") in
  do* checked_that (bool_decide (nodes = sorted_set nodes)) "duplicate/unsorted snapshot voters" in
  ret (index, nodes).

Definition parse_proof (value manifest : bytes) (voters : list string) (entries : list entry) : result proof :=
  let! f := embedded value 6 MAX_METADATA in
  let! r := read_body (proof_body manifest voters entries) f.1 in
  Ok (Proof r.1 (hex f.2) r.2).

(** ** [application] *)

Record index_descriptor := IndexDescriptor { ix_analyzer : string; ix_field : string; ix_kind : string }.
Record app_state := AppState { app_indexes : list index_descriptor; app_documents : list (string * string) }.

(** UTF-16 code units, whose order is that of the big-endian bytes. *)
Definition utf16 (s : string) : list Z :=
  z ← code_points (utf8 s);
  if z <? 65536 then [z] else [55296 + (z - 65536) / 1024; 56320 + (z - 65536) mod 1024].

Fixpoint units_leb (a b : list Z) : bool :=
  match a, b with
  | [], _ => true
  | _ :: _, [] => false
  | x :: a', y :: b' => (x <? y) || ((x =? y) && units_leb a' b')
  end.
Definition utf16_le (a b : string) : Prop := units_leb (utf16 a) (utf16 b) = true.
#[export] Instance utf16_le_dec : RelDecision utf16_le.
Proof. intros a b. unfold utf16_le. apply _. Defined.

(** [index["kind"]] and the like on a parsed object *)
Definition text_member (key : string) (m : list (string * json)) : result string :=
  match assoc_get key m with
  | Some (JString s) => Ok s
  | _ => Err (fault "invalid snapshot index")
  end.

Definition parse_index (encoded : string) : result index_descriptor :=
  let! j := of_option (loads encoded) (fault "invalid JSON") in
  match j with
  | JObject m =>
      do! check (bool_decide ((list_to_set m.*1 : gset string) = {["analyzer"; "field"; "kind"]}%string))
        "invalid snapshot index" in
      let! kind := text_member "kind" m in
      do! check (bool_decide (kind ∈ ["equality"; "range"; "prefix"; "text"]%string)) "invalid snapshot index" in
      let! analyzer := text_member "analyzer" m in
      let! field := text_member "field" m in
      do! check (bool_decide (analyzer = if bool_decide (kind = "text"%string) then "gse-simple-v1"%string else ""%string)
                 && (0 <? text_size field) && (text_size field <=? 1024))
        "invalid snapshot analyzer/field" in
      do! check (bool_decide (dumps j = encoded)) "noncanonical index descriptor" in
      Ok (IndexDescriptor analyzer field kind)
  | _ => Err (fault "invalid snapshot index")
  end.

Definition read_document : reader (bytes * bytes) :=
  let* key := blob MAX_IMAGE in
  let* document := blob MAX_IMAGE in
  ret (key, document).

(** [for _ in range(count)], rejecting a key as soon as it occurs again. *)
Fixpoint read_documents (count : nat) (keys : list bytes) : reader (list (bytes * bytes)) :=
  match count with
  | O => ret []
  | S count' =>
      let* d := read_document in
      do* checked_that (negb (bool_decide (d.1 ∈ keys))) "duplicate snapshot key" in
      let* ds := read_documents count' (d.1 :: keys) in
      ret (d :: ds)
  end.

Definition application_body : reader app_state :=
  let* version := number_H in
  do* checked_that (version =? 1) "unsupported application snapshot" in
  let* count := number_i in
  let* available := remaining in
  do* checked_that ((0 <=? count) && (count <=? 10000) && (count <=? available / 4)) "snapshot index count exceeds bound" in
  let* indexes := times count (let* encoded := string_field 8192 in liftr (parse_index encoded)) in
  let fields := ix_field <$> indexes in
  do* checked_that (bool_decide (fields = merge_sort utf16_le (remove_dups fields))) "duplicate/unsorted snapshot indexes" in
  let* count := number_i in
  let* available := remaining in
  do* checked_that ((0 <=? count) && (count <=? MAX_ENTRIES) && (count <=? available / 8)) "snapshot document count exceeds bound" in
  let* documents := read_documents (Z.to_nat count) [] in
  ret (AppState indexes (prod_map hex hex <$> documents)).

Definition application (value : bytes) : result app_state := read_body application_body value.

(** ** [snapshot] *)

Record snapshot_image := SnapshotImage {
  sn_digest : string;
  sn_entries : list entry;
  sn_proofs : list proof;
  sn_application : app_state
}.

(** [sequence]: the ancestors that are application mutations. *)
Definition is_mutation (e : entry) : bool :=
  negb (bool_decide (e_operation e ∈ ["NO_OP"; "SNAPSHOT_MARKER"]%string)).
Definition sn_sequence (s : snapshot_image) : Z := Z.of_nat (length (filter (fun e => is_mutation e = true) (sn_entries s))).

(** The ancestors from [index] on; the chain so far ends in [previous], at [previous_epoch] and
    [previous_incarnation]. *)
Fixpoint read_ancestors (count : nat) (manifest : bytes) (index : Z) (previous : bytes) (previous_epoch : Z)
    (previous_incarnation : bytes) : reader (list entry) :=
  match count with
  | O => ret []
  | S count' =>
      let* epoch := number_q in
      let* incarnation := take_field 16 in
      let* operation := number_B in
      let* digest := take_field 32 in
      let* payload := take_field 32 in
      do* checked_that ((Z.max 2 previous_epoch <=? epoch) && negb (bool_decide (incarnation = no_incarnation))
            && ((previous_epoch <? epoch) || bool_decide (incarnation = previous_incarnation))
            && (1 <=? operation) && (operation <=? Z.of_nat (length OPERATIONS)))
        "invalid snapshot ancestor" in
      let* name := liftr (of_option (operation_name operation) IndexError) in
      let* rest := read_ancestors count' manifest (index + 1) digest epoch incarnation in
      ret (Entry manifest index epoch incarnation name digest payload previous None :: rest)
  end.

Definition snapshot_body (manifest : bytes) (voters : list string) : reader (list entry * list proof * app_state) :=
  let* m := take_field 32 in
  do* checked_that (bool_decide (m = manifest)) "snapshot manifest mismatch" in
  let* count := number_i in
  let* available := remaining in
  do* checked_that ((0 <=? count) && (count <=? MAX_ENTRIES) && (count <=? available / 89)) "snapshot ancestor count exceeds bound" in
  let* entries := read_ancestors (Z.to_nat count) manifest 1 manifest 1 no_incarnation in
  let* proof := blob MAX_METADATA in
  do* checked_that (Bool.eqb (bool_decide (entries = [])) (bool_decide (proof = [])))
    "snapshot terminal proof missing/unexpected" in
  let* proofs := (if bool_decide (proof = []) then ret []
                  else let* p := liftr (parse_proof proof manifest voters entries) in ret [p]) in
  do* checked_that (forallb (fun p => p_index p =? Z.of_nat (length entries)) proofs)
    "snapshot terminal proof behind ancestry" in
  let* image := blob MAX_IMAGE in
  let* state := liftr (application image) in
  ret (entries, proofs, state).

Definition snapshot (f : option file) (manifest : bytes) (voters : list string) : result snapshot_image :=
  let! r := record f 8 MAX_IMAGE in
  let! s := read_body (snapshot_body manifest voters) r.1 in
  Ok (SnapshotImage (hex r.2) s.1.1 s.1.2 s.2).

(** ** [select] *)

Record selection := Selection {
  sel_members : gmap string file;
  sel_slot : option string;
  sel_snapshot : option snapshot_image;
  sel_floor : Z;
  sel_voter : bool
}.

(** The manifest digest and the node identity most records start with. *)
Definition read_owner (manifest : bytes) (node : string) (msg : string) : reader unit :=
  let* m := take_field 32 in
  do* checked_that (bool_decide (m = manifest)) msg in
  let* n := identity_field 64 in
  checked_that (bool_decide (n = node)) msg.

(** [if path.exists(): ...] *)
Definition if_present (f : option file) (read : option file -> result unit) : result unit :=
  match f with Some _ => read f | None => Ok tt end.

Definition owner_record (kind : Z) (manifest : bytes) (node msg : string) (f : option file) : result unit :=
  let! r := record f kind MAX_METADATA in
  read_body (read_owner manifest node msg) r.1.

Definition pointer_body (manifest : bytes) (node : string) : reader (string * bytes * bytes * Z) :=
  do* read_owner manifest node "pointer identity mismatch" in
  let* slot := string_field 32 in
  let* generation := take_field 16 in
  let* seal_digest := take_field 32 in
  let* admitted := number_B in
  ret (slot, generation, seal_digest, admitted).

(** The first frame of a journal, an identity record. *)
Definition journal_header (content : bytes) : result (option (bytes * bytes)) :=
  run_reader (read_frame 3 MAX_METADATA) content.

(** The generation seal binds the snapshot and the headers of both journals. *)
Definition seal_body (manifest : bytes) (node : string) (generation : bytes) (selected : gmap string file)
    (voters : list string) : reader snapshot_image :=
  do* read_owner manifest node "generation identity mismatch" in
  let* g := take_field 16 in
  do* checked_that (bool_decide (g = generation)) "generation identity mismatch" in
  let* image := liftr (snapshot (selected !! "snapshot.gsr"%string) manifest voters) in
  let* d := take_field 32 in
  do* checked_that (bool_decide (hex d = sn_digest image)) "snapshot/seal mismatch" in
  do* for_each ["entries.gsr"; "proofs.gsr"]%string (fun name =>
    let* content := liftr (member_bytes selected name) in
    let* header := liftr (journal_header content) in
    match header with
    | Some h =>
        let* d := take_field 32 in
        checked_that (bool_decide (h.2 = d)) "generation journal/header mismatch"
    | None => liftr (Err (fault "generation journal/header mismatch"))
    end) in
  ret image.

Definition floor_body (manifest : bytes) (node : string) (voters : list string) (entries : list entry) : reader Z :=
  do* read_owner manifest node "floor identity mismatch" in
  let* floor := number_q in
  let* d := take_field 32 in
  let* count := number_i in
  do* checked_that ((0 <=? floor) && (floor <=? Z.of_nat (length entries)) && (2 <=? count) && (count <=? 3))
    "floor exceeds installed snapshot" in
  let* expected := (if floor =? 0 then ret manifest
                    else let* e := liftr (of_option (entries !! Z.to_nat (floor - 1)) IndexError) in ret (e_digest e)) in
  do* checked_that (bool_decide (d = expected)) "floor ancestry mismatch" in
  let* receipts := times count (identity_field 64) in
  do* checked_that (bool_decide (receipts = sorted_set receipts)
        && forallb (fun r => bool_decide (r ∈ voters)) receipts) "invalid floor recovery voters" in
  ret floor.

Definition installed_floor (f : option file) (manifest : bytes) (node : string) (voters : list string)
    (entries : list entry) : result Z :=
  match f with
  | Some _ =>
      let! r := record f 12 MAX_METADATA in
      read_body (floor_body manifest node voters entries) r.1
  | None => Ok 0
  end.

Definition select (members : gmap string file) (manifest : bytes) (node : string) (voters : list string)
    : result selection :=
  do! if_present (members !! "rebuilding.gsr"%string) (owner_record 13 manifest node "replacement identity mismatch") in
  do! if_present (members !! "generation-started.gsr"%string)
        (owner_record 15 manifest node "generation-started identity mismatch") in
  match members !! "current.gsr"%string with
  | None =>
      do! check (negb (bool_decide (is_Some (members !! "generation-started.gsr"%string)))
                 && negb (bool_decide (is_Some (members !! "recovery-floor.gsr"%string))))
        "installed generation selector is missing" in
      Ok (Selection members None None 0 (negb (bool_decide (is_Some (members !! "rebuilding.gsr"%string)))))
  | Some pointer =>
      let! r := record (Some pointer) 10 MAX_METADATA in
      let! p := read_body (pointer_body manifest node) r.1 in
      let slot := p.1.1.1 in
      do! check (bool_decide (slot ∈ SLOTS) && ((p.2 =? 0) || (p.2 =? 1))) "invalid generation selector" in
      let! selected := of_option (match members !! slot with Some f => folder_members f | None => None end) OSError in
      do! check (bool_decide (dom selected = list_to_set SLOT_FILES)) "incomplete selected generation" in
      let! seal := record (selected !! "generation.gsr"%string) 11 MAX_METADATA in
      do! check (bool_decide (seal.2 = p.1.2)) "selector/seal mismatch" in
      let! image := read_body (seal_body manifest node p.1.1.2 selected voters) seal.1 in
      let! floor := installed_floor (members !! "recovery-floor.gsr"%string) manifest node voters (sn_entries image) in
      Ok (Selection selected (Some slot) (Some image) floor (p.2 =? 1))
  end.
