(* ===== verification/RecoveryOracle.v ===== *)
(** * The recovery oracle ([scripts/v50/recovery_oracle.py])

    Replays the application entries of a recovered replica report from its snapshot, compares the result with
    the published control and with what the replica showed, and compares the three reports with each other and
    with the reports from before the recovery.  An index descriptor in a payload is any JSON text
    that [loads] reads: of the texts Python reads, not those with fractions, exponents, [NaN], [Infinity] or an
    unpaired surrogate. *)

From stdpp Require Import base gmap sets strings list.
From S2P Require Import Prelude Bytes Sha256 Wire Files Json ReplicatedHistory TextCodes JsonProofs ReplicaFrames ReplicaRecovery.
Import StateNotations ResultNotations.
Local Open Scope py_scope.
Local Open Scope Z_scope.

(** ** The replayed application *)

Notation docs := (list (Z * string)).
(** The dictionaries [documents] and [indexes]; a field is any hashable JSON value. *)
Record app := App { a_documents : docs; a_indexes : list (json * json) }.

Definition document (key encoded : bytes) : result (Z * string) :=
  do! check ((Z.of_nat (length key) =? 4) && (4 <=? Z.of_nat (length encoded))) "invalid fixture document/key" in
  let identity := to_signed 4 (be_join key) in
  do! check (bool_decide (take 4 encoded = key)) "fixture document changed its key" in
  let! value := decode_utf8 UnicodeError (drop 4 encoded) in
  Ok (identity, value).

Definition pop_document (identity : Z) (d : docs) : docs := List.filter (fun x : Z * string => negb (x.1 =? identity)) d.
Definition has_document (identity : Z) (d : docs) : bool := bool_decide (identity ∈ d.*1).

(** Index dictionaries: [1 == True] are one key. *)
Definition has_index (field : json) (d : list (json * json)) : bool := existsb (fun x => json_eqb x.1 field) d.
Definition pop_index (field : json) (d : list (json * json)) : list (json * json) := List.filter (fun x => negb (json_eqb x.1 field)) d.
Definition set_index (field kind : json) (d : list (json * json)) : list (json * json) :=
  if has_index field d then (fun x : json * json => if json_eqb x.1 field then (x.1, kind) else x) <$> d else d ++ [(field, kind)].

(** [report["snapshotApplication"]]: pairs of field and kind, pairs of hexadecimal key and document *)
Record snapshot := Snapshot { sn_indexes : list (string * string); sn_documents : list (string * string) }.

Definition unhexed (s : string) : result bytes := of_option (from_hex s) (ValueError "non-hexadecimal number found in fromhex() arg").

Fixpoint snapshot_documents (items : list (string * string)) (d : docs) : result docs :=
  match items with
  | [] => Ok d
  | (key_hex, document_hex) :: items' =>
      let! key := unhexed key_hex in
      let! encoded := unhexed document_hex in
      let! p := document key encoded in
      do! check (negb (has_document p.1 d)) "duplicate snapshot document" in
      snapshot_documents items' (assoc_set p.1 p.2 d)
  end.

Definition base_app : app := App [] [(JString "value", JString "equality")].
Definition load_snapshot (s : option snapshot) : result app :=
  match s with
  | None => Ok base_app
  | Some s =>
      let! d := snapshot_documents (sn_documents s) [] in
      Ok (App d (fold_left (fun acc x => set_index (JString x.1) (JString x.2) acc) (sn_indexes s) []))
  end.

(** ** One retained entry *)

Record retained := Retained { t_index : Z; t_operation : string; t_payload_hex : string }.

Definition MUTATIONS : list string := ["ADD"; "UPDATE"; "REMOVE"; "ADD_ALL"; "UPDATE_ALL"; "REMOVE_ALL"].

Definition mutate (operation : string) (d : docs) : reader docs :=
  let* key := ReplicaRecovery.blob (1024 * 1024) in
  do* checked_that (Z.of_nat (length key) =? 4) "invalid fixture key" in
  if starts_with "REMOVE" operation then ret (pop_document (to_signed 4 (be_join key)) d)
  else
    let* encoded := ReplicaRecovery.blob (1024 * 1024) in
    let* p := liftr (document key encoded) in
    do* checked_that (if starts_with "ADD" operation then negb (has_document p.1 d) else has_document p.1 d)
      "application history violates key semantics" in
    ret (assoc_set p.1 p.2 d).
Fixpoint mutate_times (n : nat) (operation : string) (d : docs) : reader docs :=
  match n with O => ret d | S n' => let* d := mutate operation d in mutate_times n' operation d end.

(** [index["field"]]; a value that is no dictionary has no such item, and a list or a dictionary is no key. *)
Definition item (name : string) (j : json) : result json :=
  match j with JObject m => of_option (assoc_get name m) KeyError | _ => Err TypeError end.
Definition hashable (j : json) : result unit := match j with JArray _ | JObject _ => Err TypeError | _ => Ok tt end.

Definition create_index (text : string) (d : list (json * json)) : result (list (json * json)) :=
  let! index := of_option (loads text) (ValueError "JSON") in
  let! field := item "field" index in
  do! hashable field in
  do! check (negb (has_index field d)) "duplicate application index" in
  let! kind := item "kind" index in
  Ok (set_index field kind d).

Definition entry_body (operation : string) (a : app) : reader app :=
  let* version := number_H in
  do* checked_that (version =? 1) "unsupported fixture payload" in
  let* a := (if bool_decide (operation ∈ MUTATIONS) then
      let* count := number_i in
      let* rest := get in
      do* checked_that ((0 <=? count) && (count <=? MAX_ENTRIES) && (count <=? Z.of_nat (length rest) / 4)) "invalid application count" in
      do* checked_that (ends_with "_ALL" operation || (count =? 1)) "invalid single operation count" in
      let* d := mutate_times (Z.to_nat count) operation (a_documents a) in
      ret (App d (a_indexes a))
    else if bool_decide (operation = "INDEX_DROP"%string) then
      let* field := string_field 1024 in ret (App (a_documents a) (pop_index (JString field) (a_indexes a)))
    else if bool_decide (operation = "INDEX_CREATE"%string) then
      let* text := string_field 8192 in
      let* d := liftr (create_index text (a_indexes a)) in ret (App (a_documents a) d)
    else raise (ValueError "unsupported application oracle operation")) in
  do* expect_end (fault "trailing storage fields") in
  ret a.

Definition apply_entry (e : retained) (a : app) : result app :=
  let! payload := unhexed (t_payload_hex e) in
  if bool_decide (t_operation e = "NO_OP"%string) then do! check (bool_decide (payload = [])) "nonempty NO_OP" in Ok a
  else run_reader (entry_body (t_operation e) a) payload.

(** [for entry in ...: if entry["index"] > through: break] *)
Fixpoint apply_entries (through : Z) (entries : list retained) (a : app) : result app :=
  match entries with
  | [] => Ok a
  | e :: entries' => if through <? t_index e then Ok a else let! a := apply_entry e a in apply_entries through entries' a
  end.

(** ** [replay] *)

(** The returned dictionary *)
Record control := Control { c_documents : docs; c_query_ids : list Z; c_index_count : nat }.
#[export] Instance control_eq_dec : EqDecision control.
Proof. solve_decision. Defined.
Definition observe (a : app) : control :=
  Control (a_documents a) (List.filter (fun x : Z * string => bool_decide (x.2 = "shared"%string)) (a_documents a)).*1 (length (a_indexes a)).

Section Reports.
(** The members of an entry beyond its operation are only compared. *)
Context {E : Type} `{EqDecision E}.

Record report := Report {
  r_codec : string; r_voter : bool; r_commit_index : Z; r_entries : list (string * E); r_snapshot_index : Z;
  r_recovery_floor : Z; r_snapshot : option snapshot; r_retained : list retained
}.

Definition replay (r : report) (through : Z) : result control :=
  do! check (bool_decide (r_codec r = "leader-fixture"%string)) "application oracle requires its explicit fixture codec" in
  do! check ((r_snapshot_index r <=? through) && (through <=? r_commit_index r)) "application cut lacks committed authority" in
  let! a := load_snapshot (r_snapshot r) in
  let! a := apply_entries through (r_retained r) a in
  Ok (observe a).

(** ** [validate] *)

(** [l[:n]]; a negative [n] counts from the end. *)
Definition upto {A} (n : Z) (l : list A) : list A := take (Z.to_nat (if n <? 0 then Z.of_nat (length l) + n else n)) l.

Record observed := Observed { o_applied_index : Z; o_application_sequence : Z; o_control : control }.
Definition keeps (old r : report) : bool :=
  (r_commit_index old <=? r_commit_index r) && bool_decide (upto (r_commit_index old) (r_entries r) = upto (r_commit_index old) (r_entries old)).
Definition sequence_of (n : Z) (l : list (string * E)) : Z := Z.of_nat (length (List.filter (fun e => is_application e.1) (upto n l))).

Definition check_node (before : list report) (reports : list report) (want : control) (acknowledged : Z) (r : report) (o : observed) : result unit :=
  do! check (r_voter r) "recovered disk is still non-voting" in
  do! check (acknowledged <=? r_commit_index r) "successful response lost during recovery" in
  do! check (o_applied_index o <=? r_commit_index r) "application exceeded committed proof" in
  do! check (sequence_of (o_applied_index o) (r_entries r) =? o_application_sequence o) "recovery application sequence drift" in
  let! replayed := replay r (o_applied_index o) in
  do! check (bool_decide (replayed = want)) "independent replay differs from published V4.4 control" in
  do! check (bool_decide (o_control o = want)) "observed application differs from published V4.4 control" in
  do! check_all (fun old => check (keeps old r) "recovery discarded or changed a valid surviving proof prefix") before in
  if r_recovery_floor r =? 0 then Ok tt
  else
    let sources := List.filter (fun other => (r_recovery_floor r <=? r_commit_index other)
      && bool_decide (upto (r_recovery_floor r) (r_entries other) = upto (r_recovery_floor r) (r_entries r))) reports in
    check ((2 <=? length sources)%nat && (r_recovery_floor r <=? r_snapshot_index r)) "floor lacks two complete recovery representations".

Definition min_commit (reports : list report) : Z :=
  match r_commit_index <$> reports with [] => 0 | x :: l => fold_right Z.min x l end.

(** [reports] in the order of the dictionary; [control] has the three members of a replay. *)
Definition validate (before : list report) (reports : list (string * report)) (states : gmap string observed) (want : control)
    (acknowledged : Z) : result (Z * Z) :=
  do! check (bool_decide ((list_to_set reports.*1 : gset string) = list_to_set VOTERS) && bool_decide (dom states = (list_to_set VOTERS : gset string)))
    "recovery requires three distinct reports" in
  do! check_all (fun x : string * report =>
    let! o := of_option (states !! x.1) KeyError in check_node before reports.*2 want acknowledged x.2 o) reports in
  let committed := min_commit reports.*2 in
  let! leader := of_option (assoc_get "node-1"%string reports) KeyError in
  do! check (forallb (fun r => bool_decide (upto committed (r_entries r) = upto committed (r_entries leader))) reports.*2) "recovered histories conflict" in
  let! o := of_option (states !! "node-1"%string) KeyError in
  Ok (committed, o_application_sequence o).
End Reports.
Arguments report : clear implicits.

(** ** The replayed documents stay encodable *)

Record docs_ok (d : docs) : Prop := {
  dk_keys : NoDup d.*1;
  dk_docs : Forall (fun x : Z * string => signed_range 4 x.1 /\ is_text x.2 = true) d
}.

Lemma document_ok key encoded p : document key encoded = Ok p -> signed_range 4 p.1 /\ is_text p.2 = true.
Proof.
  unfold document, check. intros H. ok_inv H. bool_tac. injection H as <-. cbn [fst snd]. split; [apply to_signed_range; lia|].
  unfold decode_utf8 in *. destruct (utf8_valid _) eqn:Hv; [|done]. match goal with A : Ok _ = Ok _ |- _ => injection A as <- end.
  unfold is_text. by rewrite utf8_str.
Qed.

Lemma docs_ok_set p d : signed_range 4 p.1 -> is_text p.2 = true -> docs_ok d -> docs_ok (assoc_set p.1 p.2 d).
Proof.
  intros Hr Ht [Hk Hd]. split; [by apply assoc_set_NoDup|]. apply Forall_forall. intros x Hx. apply assoc_set_elem in Hx as [->|Hx]; [done|].
  by apply (proj1 (Forall_forall _ _) Hd).
Qed.
Lemma docs_ok_pop k d : docs_ok d -> docs_ok (pop_document k d).
Proof.
  intros [Hk Hd]. assert (forall x, x ∈ pop_document k d -> x ∈ d) as Hs.
  { intros x Hx. apply list_elem_of_In, filter_In in Hx as [Hx _]. by apply list_elem_of_In. }
  split; [|by apply Forall_forall; intros x Hx; apply (proj1 (Forall_forall _ _) Hd), Hs]. clear Hs Hd.
  induction d as [|x d IH]; [constructor|]. cbn [fmap list_fmap] in Hk. apply NoDup_cons in Hk as [Hn Hk]. unfold pop_document. cbn [List.filter].
  destruct (negb _); [|by apply IH]. cbn [fmap list_fmap]. constructor; [|by apply IH]. intros Hin. apply Hn.
  apply list_elem_of_fmap in Hin as (y & Hxy & Hy). rewrite Hxy. apply list_elem_of_fmap_2. apply list_elem_of_In, filter_In in Hy as [Hy _].
  by apply list_elem_of_In.
Qed.

Lemma snapshot_documents_ok items d d' : snapshot_documents items d = Ok d' -> docs_ok d -> docs_ok d'.
Proof.
  revert d. induction items as [|[kh dh] items IH]; intros d H Hd; cbn [snapshot_documents] in H; [by injection H as <-|].
  apply rbind_ok in H as (key & _ & H). apply rbind_ok in H as (enc & _ & H). apply rbind_ok in H as (p & Hp & H).
  apply rbind_ok in H as (u & _ & H). apply document_ok in Hp as [Hr Ht]. eapply IH; [exact H|]. by apply docs_ok_set.
Qed.
Lemma snapshot_loaded s a : load_snapshot s = Ok a -> docs_ok (a_documents a).
Proof.
  destruct s as [s|]; cbn [load_snapshot]; intros H.
  - apply rbind_ok in H as (d & Hd & H). injection H as <-. eapply snapshot_documents_ok; [exact Hd|]. split; constructor.
  - injection H as <-. split; constructor.
Qed.

Lemma mutate_ok operation d s d' s' : mutate operation d s = (Ok d', s') -> docs_ok d -> docs_ok d'.
Proof.
  unfold mutate. intros H Hd. apply bind_ok in H as (key & s1 & _ & H). apply bind_ok in H as (u & s2 & _ & H).
  destruct (starts_with _ _); [apply ret_ok in H as [<- _]; by apply docs_ok_pop|].
  apply bind_ok in H as (enc & s3 & _ & H). apply bind_ok in H as (p & s4 & Hp & H). apply liftr_ok in Hp as [Hp _].
  apply bind_ok in H as (u' & s5 & _ & H). apply ret_ok in H as [<- _]. apply document_ok in Hp as [? ?]. by apply docs_ok_set.
Qed.
Lemma mutate_times_ok n operation d s d' s' : mutate_times n operation d s = (Ok d', s') -> docs_ok d -> docs_ok d'.
Proof.
  revert d s. induction n as [|n IH]; intros d s H Hd; cbn [mutate_times] in H; [by apply ret_ok in H as [<- _]|].
  apply bind_ok in H as (d1 & s1 & Hm & H). eapply IH; [exact H|]. by eapply mutate_ok.
Qed.
Lemma apply_entry_ok e a a' : apply_entry e a = Ok a' -> docs_ok (a_documents a) -> docs_ok (a_documents a').
Proof.
  unfold apply_entry. intros H Hd. apply rbind_ok in H as (payload & _ & H). case_bool_decide.
  { apply rbind_ok in H as (u & _ & H). by injection H as <-. }
  apply run_reader_ok in H as [s2 H]. unfold entry_body in H. apply bind_ok in H as (v & s3 & _ & H). apply bind_ok in H as (u & s4 & _ & H).
  apply bind_ok in H as (b & s5 & Hb & H). apply bind_ok in H as (u' & s6 & _ & H). apply ret_ok in H as [<- _].
  case_bool_decide; [|case_bool_decide; [|case_bool_decide; [|done]]].
  - apply bind_ok in Hb as (n & t1 & _ & Hb). apply bind_ok in Hb as (rest & t2 & _ & Hb). apply bind_ok in Hb as (w & t3 & _ & Hb).
    apply bind_ok in Hb as (w' & t4 & _ & Hb). apply bind_ok in Hb as (d & t5 & Hm & Hb). apply ret_ok in Hb as [<- _]. by eapply mutate_times_ok.
  - apply bind_ok in Hb as (f & t1 & _ & Hb). by apply ret_ok in Hb as [<- _].
  - apply bind_ok in Hb as (f & t1 & _ & Hb). apply bind_ok in Hb as (d & t2 & _ & Hb). by apply ret_ok in Hb as [<- _].
Qed.
Lemma apply_entries_ok k l a a' : apply_entries k l a = Ok a' -> docs_ok (a_documents a) -> docs_ok (a_documents a').
Proof.
  revert a. induction l as [|e l IH]; intros a H Hd; cbn [apply_entries] in H; [by injection H as <-|].
  destruct (k <? t_index e); [by injection H as <-|]. apply rbind_ok in H as (a1 & H1 & H). eapply IH; [exact H|]. by eapply apply_entry_ok.
Qed.

(** ** A snapshot of the replayed application reads back *)

(** The snapshot document pairs of [d], and the snapshots of an application whose index fields are strings *)
Definition written_documents (d : docs) : list (string * string) :=
  (fun x : Z * string => (hex (be_split 4 x.1), hex (be_split 4 x.1 ++ utf8 x.2))) <$> d.
Record captures (s : snapshot) (a : app) : Prop := {
  cp_documents : sn_documents s = written_documents (a_documents a);
  cp_indexes : a_indexes a = (fun x : string * string => (JString x.1, JString x.2)) <$> sn_indexes s;
  cp_fields : NoDup (sn_indexes s).*1;
  cp_text : Forall (fun f => is_text f = true) (sn_indexes s).*1
}.

Lemma json_string_eqb f g : is_text f = true -> is_text g = true -> json_eqb (JString f) (JString g) = bool_decide (f = g).
Proof.
  intros Hf Hg. unfold json_eqb. apply bool_decide_ext. cbn [numbers]. split; [|by intros ->]. intros H. apply (f_equal loads) in H.
  rewrite !loads_dumps_normal in H by done. by injection H.
Qed.

Lemma document_written k v : signed_range 4 k -> is_text v = true -> document (be_split 4 k) (be_split 4 k ++ utf8 v) = Ok (k, v).
Proof.
  intros Hk Hv. unfold document, check. rewrite length_app, length_be_split. rewrite (proj2 (Z.eqb_eq (Z.of_nat 4) 4)) by done.
  rewrite (proj2 (Z.leb_le 4 _)) by lia. cbn [guard andb rbind]. rewrite take_app_length' by (by rewrite length_be_split).
  rewrite bool_decide_true by done. cbn [guard rbind]. rewrite drop_app_length' by (by rewrite length_be_split). rewrite decode_encode by done.
  cbn [rbind]. by rewrite to_signed_split by (done || lia).
Qed.

Lemma written_read d acc : docs_ok (acc ++ d) -> snapshot_documents (written_documents d) acc = Ok (acc ++ d).
Proof.
  revert acc. induction d as [|[k v] d IH]; intros acc [Hk Hd]; cbn [written_documents fmap list_fmap snapshot_documents]; [by rewrite app_nil_r|].
  unfold unhexed. cbn [fst snd]. rewrite !from_hex_hex. cbn [of_option rbind].
  apply Forall_app in Hd as Hd'. destruct Hd' as [_ Hd']. apply Forall_cons in Hd' as [[Hr Ht] _]. cbn [fst snd] in Hr, Ht.
  rewrite document_written by done. cbn [rbind fst snd].
  assert (k ∉ acc.*1) as Hn.
  { rewrite fmap_app in Hk. apply NoDup_app in Hk as (_ & Hk & _). intros Hin. apply (Hk k Hin). by left. }
  unfold has_document, check. rewrite bool_decide_false by done. cbn [negb guard rbind]. rewrite assoc_set_fresh by done.
  fold (written_documents d). rewrite (assoc (++) acc [(k, v)] d : acc ++ (k, v) :: d = (acc ++ [(k, v)]) ++ d) in *. apply IH. by split.
Qed.

Lemma captured_loads s a : captures s a -> docs_ok (a_documents a) -> load_snapshot (Some s) = Ok a.
Proof.
  intros [Hd Hi Hf Ht] Hok. cbn [load_snapshot]. rewrite Hd, (written_read _ []) by done. cbn [rbind Datatypes.app].
  assert (forall l acc, NoDup (acc ++ l).*1 -> Forall (fun f => is_text f = true) (acc ++ l).*1 ->
    fold_left (fun d (x : string * string) => set_index (JString x.1) (JString x.2) d) l ((fun x : string * string => (JString x.1, JString x.2)) <$> acc)
      = (fun x : string * string => (JString x.1, JString x.2)) <$> (acc ++ l)) as Hfold.
  { induction l as [|[f k] l IH]; intros acc Hn Hx; [by rewrite app_nil_r|]. cbn [fold_left fst snd].
    assert (set_index (JString f) (JString k) ((fun x : string * string => (JString x.1, JString x.2)) <$> acc)
      = (fun x : string * string => (JString x.1, JString x.2)) <$> (acc ++ [(f, k)])) as ->.
    { unfold set_index. assert (has_index (JString f) ((fun x : string * string => (JString x.1, JString x.2)) <$> acc) = false) as ->; [|by rewrite fmap_app].
      apply not_true_iff_false. unfold has_index. rewrite existsb_exists. intros (y & Hy & He). apply list_elem_of_In, list_elem_of_fmap in Hy as ([g w] & -> & Hy).
      cbn [fst] in He. rewrite fmap_app in Hn, Hx. apply NoDup_app in Hn as (_ & Hn & _). apply (list_elem_of_fmap_2 fst) in Hy.
      apply Forall_app in Hx as [Hx1 Hx2]. apply Forall_cons in Hx2 as [Hx2 _]. rewrite json_string_eqb in He; [|by apply (proj1 (Forall_forall _ _) Hx1) in Hy|done].
      apply bool_decide_eq_true in He. cbn in Hy. subst g. apply (Hn f Hy). by left. }
    rewrite (assoc (++) acc [(f, k)] l : acc ++ (f, k) :: l = (acc ++ [(f, k)]) ++ l) in *. by apply IH. }
  specialize (Hfold (sn_indexes s) [] Hf Ht). cbn [fmap list_fmap Datatypes.app] in Hfold.
  rewrite Hfold. rewrite <- Hi. by destruct a.
Qed.

(** Entries up to a cut are applied first. *)
Lemma apply_entries_app k through l1 l2 a : Forall (fun e => t_index e <= k) l1 -> k <= through ->
  apply_entries through (l1 ++ l2) a = let! a' := apply_entries k l1 a in apply_entries through l2 a'.
Proof.
  intros Hf Hk. revert a. induction Hf as [|e l1 He Hf IH]; intros a; [done|]. cbn [Datatypes.app apply_entries].
  rewrite !(proj2 (Z.ltb_ge _ _)) by lia. destruct (apply_entry e a) as [a1|x]; cbn [rbind]; [apply IH|done].
Qed.

(** ** What the oracle establishes *)

Section Properties.
Context {E : Type} `{EqDecision E}.
Notation report := (report E).

(** The same report with a snapshot at [k] in place of the entries up to it *)
Definition cut_report (k : Z) (s : snapshot) (rest : list retained) (r : report) : report :=
  Report (r_codec r) (r_voter r) (r_commit_index r) (r_entries r) k (r_recovery_floor r) (Some s) rest.

(** C40: a replay does not depend on where the snapshot is.  If the entries up to [k] replay to an application and a
    snapshot at [k] holds it, then the report that keeps the snapshot and only the later entries replays, through any
    index from [k] on, exactly as the report with all of them does, whatever that gives or raises. *)
Theorem replay_from_snapshot (r : report) k s a0 a l1 l2 through :
  r_retained r = l1 ++ l2 -> Forall (fun e => t_index e <= k) l1 -> r_snapshot_index r <= k ->
  load_snapshot (r_snapshot r) = Ok a0 -> apply_entries k l1 a0 = Ok a -> captures s a -> k <= through ->
  replay (cut_report k s l2 r) through = replay r through.
Proof.
  intros Hr Hl Hi H0 Ha Hs Hk. unfold replay, cut_report. cbn [r_codec r_snapshot_index r_commit_index r_snapshot r_retained].
  rewrite (proj2 (Z.leb_le k through)), (proj2 (Z.leb_le (r_snapshot_index r) through)) by lia. f_equal.
  destruct (check (true && _) _); [|done]. cbn [rbind].
  rewrite (captured_loads s a Hs (apply_entries_ok _ _ _ _ Ha (snapshot_loaded _ _ H0))), H0. cbn [rbind].
  rewrite Hr, (apply_entries_app k through l1 l2 a0 Hl Hk), Ha. done.
Qed.

Lemma min_commit_le reports (r : report) : r ∈ reports -> min_commit reports <= r_commit_index r.
Proof.
  unfold min_commit. intros Hr. apply (list_elem_of_fmap_2 r_commit_index) in Hr. destruct (r_commit_index <$> reports) as [|x l]; [by apply not_elem_of_nil in Hr|].
  induction l as [|y l IH]; cbn [fold_right]; [by apply list_elem_of_singleton in Hr as ->|].
  apply elem_of_cons in Hr as [Hr|Hr]; [specialize (IH ltac:(rewrite Hr; by left)); lia|].
  apply elem_of_cons in Hr as [->|Hr]; [lia|]. specialize (IH ltac:(by right)). lia.
Qed.

(** C39: reports a recovery is accepted with.  All three replicas vote, hold everything acknowledged, and have one
    history up to the smallest commit index; each continues, entry by entry, the committed prefix of every report from
    before the recovery; each shows exactly the control application, which is also the replay of its own log, and has
    applied as many application entries as it says; a recovery floor is held by two reports and by its own snapshot. *)
Theorem recovery_accepted before (reports : list (string * report)) states want acknowledged committed n :
  validate before reports states want acknowledged = Ok (committed, n) ->
  (forall v, v ∈ VOTERS -> v ∈ reports.*1)
  /\ (forall v r, (v, r) ∈ reports -> v ∈ VOTERS /\ r_voter r = true /\ acknowledged <= r_commit_index r /\ committed <= r_commit_index r
       /\ (forall old, old ∈ before -> r_commit_index old <= r_commit_index r /\ upto (r_commit_index old) (r_entries r) = upto (r_commit_index old) (r_entries old))
       /\ (exists o, states !! v = Some o /\ o_control o = want /\ o_applied_index o <= r_commit_index r /\ replay r (o_applied_index o) = Ok want
             /\ sequence_of (o_applied_index o) (r_entries r) = o_application_sequence o)
       /\ (r_recovery_floor r <> 0 -> r_recovery_floor r <= r_snapshot_index r /\
             (2 <= length (List.filter (fun other => (r_recovery_floor r <=? r_commit_index other)%Z
                 && bool_decide (upto (r_recovery_floor r) (r_entries other) = upto (r_recovery_floor r) (r_entries r))) reports.*2))%nat))
  /\ (forall v w r r', (v, r) ∈ reports -> (w, r') ∈ reports -> upto committed (r_entries r) = upto committed (r_entries r')).
Proof.
  unfold validate, check at 1. intros H. apply rbind_ok in H as (u & Hset & H). apply guard_ok in Hset. bool_tac.
  apply rbind_ok in H as (u' & Hall & H). apply rbind_ok in H as (leader & _ & H). apply rbind_ok in H as (u'' & Hagree & H).
  apply rbind_ok in H as (o1 & _ & H). injection H as <- _. unfold check in Hagree. apply guard_ok in Hagree. rewrite forallb_forall in Hagree. split_and!.
  - intros v Hv. apply (elem_of_list_to_set (C := gset string)). match goal with A : list_to_set reports.*1 = _ |- _ => rewrite A end. by apply elem_of_list_to_set.
  - intros v r Hr. assert (v ∈ VOTERS) as Hv.
    { apply (elem_of_list_to_set (C := gset string)). match goal with A : list_to_set reports.*1 = _ |- _ => rewrite <- A end.
      apply elem_of_list_to_set. by apply (list_elem_of_fmap_2 fst) in Hr. }
    pose proof (check_all_ok _ _ _ Hall _ Hr) as Hc. cbn [fst snd] in Hc. apply rbind_ok in Hc as (o & Ho & Hc). apply of_option_ok in Ho.
    unfold check_node, check at 1 2 3 4 5 6 in Hc. do 4 (apply rbind_ok in Hc as (? & ?%guard_ok & Hc)).
    apply rbind_ok in Hc as (rep & Hrep & Hc). do 2 (apply rbind_ok in Hc as (? & ?%guard_ok & Hc)). apply rbind_ok in Hc as (w & Hold & Hc). bool_tac. subst rep.
    split_and!; [done|done|lia|apply min_commit_le; by apply (list_elem_of_fmap_2 snd) in Hr| | |].
    + intros old Hin. pose proof (check_all_ok _ _ _ Hold _ Hin) as Hk. unfold check, keeps in Hk. apply guard_ok in Hk. bool_tac. done.
    + exists o. done.
    + intros Hf. rewrite (proj2 (Z.eqb_neq (r_recovery_floor r) 0) Hf) in Hc. unfold check in Hc. apply guard_ok in Hc. bool_tac. done.
  - assert (forall v r, (v, r) ∈ reports -> upto (min_commit reports.*2) (r_entries r) = upto (min_commit reports.*2) (r_entries leader)) as He.
    { intros v r Hr. apply (list_elem_of_fmap_2 snd) in Hr. apply list_elem_of_In in Hr. specialize (Hagree _ Hr). by apply bool_decide_eq_true in Hagree. }
    intros v w r r' Hr Hr'. rewrite (He _ _ Hr). by rewrite (He _ _ Hr').
Qed.
End Properties.

(** ** The reports of [test_recovery_oracle.py] *)

Definition sample_payload : string :=
  let key := be_split 4 1 in let doc := key ++ utf8 "shared" in
  hex (be_split 2 1 ++ be_split 4 1 ++ be_split 4 (Z.of_nat (length key)) ++ key ++ be_split 4 (Z.of_nat (length doc)) ++ doc).
Definition sample_retained : list retained := [Retained 1 "NO_OP" ""; Retained 2 "ADD" sample_payload].
Definition sample_report : report string := Report "leader-fixture" true 2 [("NO_OP", "first"); ("ADD", "protected")]%string 0 0 None sample_retained.
Definition sample_control : control := Control [(1, "shared"%string)] [1] 1.
Definition sample_reports : list (string * report string) := (fun n => (n, sample_report)) <$> VOTERS.
Definition sample_states : gmap string observed := list_to_map ((fun n => (n, Observed 2 1 sample_control)) <$> VOTERS).
(** The snapshot of the whole history *)
Definition sample_snapshot : snapshot := Snapshot [("value", "equality")]%string (written_documents [(1, "shared"%string)]).

Example sample_accepted : validate sample_reports.*2 sample_reports sample_states sample_control 0 = Ok (2, 1).
Proof. vm_compute. reflexivity. Qed.
Example lost_boundary : validate sample_reports.*2 sample_reports sample_states sample_control 3 = Err (ValueError "successful response lost during recovery").
Proof. vm_compute. reflexivity. Qed.

Lemma recovery_accepted_witness :
  validate sample_reports.*2 sample_reports sample_states sample_control 0 = Ok (2, 1)
  /\ exists o, sample_states !! "node-3"%string = Some o /\ replay sample_report (o_applied_index o) = Ok sample_control.
Proof.
  assert (validate sample_reports.*2 sample_reports sample_states sample_control 0 = Ok (2, 1)) as Hv by (vm_compute; reflexivity).
  split; [exact Hv|]. destruct (recovery_accepted _ _ _ _ _ _ _ Hv) as (_ & Hall & _).
  destruct (Hall "node-3"%string sample_report) as (_ & _ & _ & _ & _ & (o & Ho & _ & _ & Hr & _) & _); [right; right; left|]. by exists o.
Defined.

Lemma replay_from_snapshot_witness :
  replay (cut_report 2 sample_snapshot [] sample_report) 2 = Ok sample_control /\ captures sample_snapshot (App [(1, "shared"%string)] [(JString "value", JString "equality")]).
Proof.
  assert (captures sample_snapshot (App [(1, "shared"%string)] [(JString "value", JString "equality")])) as Hc.
  { split; [reflexivity|reflexivity|apply NoDup_singleton|repeat constructor]. }
  split; [|exact Hc]. rewrite (replay_from_snapshot sample_report 2 sample_snapshot base_app (App [(1, "shared"%string)] [(JString "value", JString "equality")]) sample_retained [] 2); [vm_compute; reflexivity|..].
  - reflexivity.
  - repeat constructor; discriminate.
  - discriminate.
  - reflexivity.
  - vm_compute. reflexivity.
  - exact Hc.
  - discriminate.
Defined.
