(* ===== verification/ReplicaStorage.v ===== *)
(** * gse-replicated (1,0): the replica directory ([scripts/v50/storage_format.py], [recovery_format.py])

    [inspect] reads the manifest, the node identity, the installed generation and the three journals
    (promises, entries, proofs) of a replica directory; [generate] writes the fixture directories. *)

From Stdlib Require Import Ascii.
From stdpp Require Import base gmap sets strings list sorting.
From S2P Require Import Prelude Bytes Sha256 Wire Files Json ReplicaFrames ReplicaRecovery.
Import StateNotations ResultNotations.
Local Open Scope py_scope.
Local Open Scope Z_scope.

(** ** The manifest *)

Record manifest := Manifest {
  mf_group : string;
  mf_configuration : string;
  mf_leader : string;
  mf_voters : list string;
  mf_endpoints : list (string * Z);
  mf_codec : string;
  mf_codec_version : Z;
  mf_schema : string;
  mf_schema_version : Z;
  mf_index_digest : bytes
}.

(** [len(host.encode("utf-16-le")) // 2] *)
Definition utf16_length (s : string) : Z := Z.of_nat (length (utf16 s)).
Definition not_blank (s : string) : bool := existsb (fun c => negb (bool_decide (c ∈ JAVA_WHITESPACE))) (code_points (utf8 s)).

Definition read_voter : reader (string * (string * Z)) :=
  let* voter := identity_field 64 in
  let* host := string_field 1012 in
  let* port := number_i in
  do* checked_that (not_blank host && (utf16_length host <=? 253) && (1 <=? port) && (port <=? 65535)) "invalid endpoint" in
  let* role := number_B in
  do* checked_that (role =? 1) "non-voter in manifest" in
  ret (voter, (host, port)).

Definition manifest_body : reader manifest :=
  let unsupported := "unsupported manifest family/version"%string in
  let* family := string_field 32 in
  do* checked_that (bool_decide (family = "gse-replicated"%string)) unsupported in
  let* major := number_H in
  do* checked_that (major =? 1) unsupported in
  let* minor := number_H in
  do* checked_that (minor =? 0) unsupported in
  let* protocol := string_field 32 in
  do* checked_that (bool_decide (protocol = "gse-replication"%string)) unsupported in
  let* protocol_major := number_H in
  do* checked_that (protocol_major =? 1) unsupported in
  let* protocol_minor := number_H in
  do* checked_that (protocol_minor =? 0) unsupported in
  let* group := take_field 16 in
  let* configuration := identity_field 128 in
  let* genesis := number_q in
  do* checked_that (genesis =? 1) "invalid genesis epoch" in
  let* leader := identity_field 64 in
  let* count := number_i in
  do* checked_that (count =? 3) "invalid voter count" in
  let* rows := times 3 read_voter in
  let voters := rows.*1 in
  let endpoints := rows.*2 in
  do* checked_that (bool_decide (NoDup voters) && bool_decide (NoDup endpoints) && bool_decide (leader ∈ voters))
    "ambiguous manifest membership" in
  let* codec := identity_field 128 in
  let* codec_version := number_i in
  let* schema := identity_field 128 in
  let* schema_version := number_i in
  do* checked_that ((0 <? codec_version) && (0 <? schema_version)) "invalid identity version" in
  let* index_digest := take_field 32 in
  ret (Manifest (uuid_text group) configuration leader voters endpoints codec codec_version schema schema_version
         index_digest).

(** The local identity; a trailing byte marks a replacement that is still rebuilding. *)
Definition node_body (manifest_digest : bytes) (voters : list string) (rebuilding : bool) : reader string :=
  let* m := take_field 32 in
  do* checked_that (bool_decide (m = manifest_digest)) "local manifest mismatch" in
  let* node := identity_field 64 in
  do* checked_that (bool_decide (node ∈ voters)) "unknown local voter" in
  let* more := remaining in
  do* (if 0 <? more then
         let* mark := number_B in
         checked_that ((mark =? 1) && rebuilding) "replacement identity marker is missing or invalid"
       else ret tt) in
  ret node.

(** ** The journals *)

(** What the journal loops carry along. *)
Record journal := Journal {
  j_headers : list bytes;
  j_promises : list (Z * bytes);
  j_entries : list entry;
  j_proofs : list proof;
  j_previous_epoch : Z;
  j_previous_incarnation : bytes;
  j_previous_digest : bytes;
  j_committed : Z
}.

(** [max(promises, default=1)] *)
Definition promised (promises : list (Z * bytes)) : Z :=
  match promises.*1 with
  | [] => 1
  | epoch :: epochs => fold_left Z.max epochs epoch
  end.

Section Records.
Context (manifest_digest : bytes) (leader : string) (voters : list string) (has_snapshot : bool).

Definition promise_record (j : journal) : reader journal :=
  let* l := identity_field 64 in
  do* checked_that (bool_decide (l = leader)) "promise leader mismatch" in
  let* epoch := number_q in
  let* incarnation := take_field 16 in
  do* checked_that ((Z.of_nat (length (j_promises j)) <? MAX_PROMISES) && (promised (j_promises j) <? epoch)
        && negb (bool_decide (incarnation = no_incarnation))) "invalid/nonmonotonic promise" in
  ret (Journal (j_headers j) (assoc_set epoch incarnation (j_promises j)) (j_entries j) (j_proofs j)
         (j_previous_epoch j) (j_previous_incarnation j) (j_previous_digest j) (j_committed j)).

(** The promise an entry was accepted under is in the journal, or the snapshot covers it. *)
Definition promise_ok (j : journal) (epoch : Z) (incarnation : bytes) : bool :=
  bool_decide (assoc_get epoch (j_promises j) = Some incarnation)
  || (has_snapshot && bool_decide (assoc_get epoch (j_promises j) = None) && (epoch <? promised (j_promises j))).

Definition entry_record (j : journal) (record_digest : bytes) : reader journal :=
  let* epoch := number_q in
  let* incarnation := take_field 16 in
  let* index := number_q in
  let* operation := number_B in
  let* prev_epoch := number_q in
  let* prev_index := number_q in
  let* prev_digest := take_field 32 in
  let* length := number_i in
  let* payload_digest := take_field 32 in
  let* payload := take_field length in
  let next := Z.of_nat (List.length (j_entries j)) + 1 in
  do* checked_that ((next <=? MAX_ENTRIES) && (index =? next) && (prev_index =? index - 1)) "noncontiguous entry index" in
  do* checked_that ((1 <=? operation) && (operation <=? Z.of_nat (List.length OPERATIONS))
        && (j_previous_epoch j <=? epoch)
        && ((j_previous_epoch j <? epoch) || bool_decide (incarnation = j_previous_incarnation j))
        && promise_ok j epoch incarnation) "entry type/promise mismatch" in
  do* checked_that ((prev_epoch =? j_previous_epoch j) && bool_decide (prev_digest = j_previous_digest j))
    "entry predecessor mismatch" in
  do* checked_that (bool_decide (digest payload = payload_digest)) "payload checksum mismatch" in
  let* name := liftr (of_option (operation_name operation) IndexError) in
  ret (Journal (j_headers j) (j_promises j)
         (j_entries j ++ [Entry manifest_digest index epoch incarnation name record_digest payload_digest prev_digest
                            (Some payload)])
         (j_proofs j) epoch incarnation record_digest (j_committed j)).

Definition proof_record (j : journal) (record_digest : bytes) : reader journal :=
  let* epoch := number_q in
  let* incarnation := take_field 16 in
  let* index := number_q in
  let* entry_digest := take_field 32 in
  let* prev_digest := take_field 32 in
  let* count := number_i in
  do* checked_that ((j_committed j <? index) && (index <=? Z.of_nat (length (j_entries j))) && (2 <=? count) && (count <=? 3))
    "proof index/quorum mismatch" in
  let* e := liftr (of_option (j_entries j !! Z.to_nat (index - 1)) IndexError) in
  do* checked_that (bool_decide ((epoch, incarnation, entry_digest, prev_digest)
                                 = (e_epoch e, e_incarnation e, e_digest e, e_previous e)))
    "proof entry identity mismatch" in
  let* nodes := times count (read_receipt voters e "invalid proof voter/receipt") in
  do* checked_that (bool_decide (nodes = sorted_set nodes)) "duplicate/unsorted receipt voters" in
  ret (Journal (j_headers j) (j_promises j) (j_entries j)
         (j_proofs j ++ [Proof index (hex record_digest) nodes])
         (j_previous_epoch j) (j_previous_incarnation j) (j_previous_digest j) index).

(** One record of the journal of the given kind, with its digest. *)
Definition journal_record (kind : Z) (j : journal) (r : bytes * bytes) : result journal :=
  read_body (
    let* m := take_field 32 in
    do* checked_that (bool_decide (m = manifest_digest)) "record manifest mismatch" in
    if kind =? 4 then promise_record j else if kind =? 5 then entry_record j r.2 else proof_record j r.2) r.1.

(** [while True: ...]; every turn consumes a frame, so the fuel [length] of the file never runs out
    ([records_fuel]). *)
Fixpoint records (fuel : nat) (kind : Z) (j : journal) : reader journal :=
  let* r := read_frame kind (if kind =? 5 then MAX_FRAME else MAX_METADATA) in
  match r with
  | None => ret j
  | Some r =>
      let* j' := liftr (journal_record kind j r) in
      match fuel with
      | O => liftr (Err (AssertionError "fuel"))
      | S fuel' => records fuel' kind j'
      end
  end.

Definition header_body (node : string) (kind : Z) : reader unit :=
  let* m := take_field 32 in
  do* checked_that (bool_decide (m = manifest_digest)) "journal identity mismatch" in
  let* n := identity_field 64 in
  do* checked_that (bool_decide (n = node)) "journal identity mismatch" in
  let* k := number_H in
  checked_that (k =? kind) "journal identity mismatch".

Definition add_header (h : bytes) (j : journal) : journal :=
  Journal (j_headers j ++ [h]) (j_promises j) (j_entries j) (j_proofs j)
    (j_previous_epoch j) (j_previous_incarnation j) (j_previous_digest j) (j_committed j).

Definition read_journal (node : string) (kind : Z) (j : journal) (content : bytes) : result journal :=
  run_reader (
    let* h := read_frame 3 MAX_METADATA in
    match h with
    | None => liftr (Err (fault "absent journal header"))
    | Some h =>
        do* liftr (read_body (header_body node kind) h.1) in
        records (length content) kind (add_header h.2 j)
    end) content.
End Records.

(** ** [inspect] *)

Record report := Report {
  r_manifest : manifest;
  r_node : string;
  r_manifest_digest : bytes;
  r_journal : journal;
  r_snapshot : option snapshot_image;
  r_floor : Z;
  r_voter : bool;
  r_slot : option string
}.

Definition r_promised_epoch (r : report) : Z := promised (j_promises (r_journal r)).
Definition r_last_log_index (r : report) : Z := Z.of_nat (length (j_entries (r_journal r))).
Definition r_commit_index (r : report) : Z := j_committed (r_journal r).
Definition r_snapshot_index (r : report) : Z :=
  match r_snapshot r with Some s => Z.of_nat (length (sn_entries s)) | None => 0 end.
(** [retainedApplicationEntries]: the entries whose payload is in the journal *)
Definition r_retained (r : report) : list (Z * string * string) :=
  omap (fun e => option_map (fun p => (e_index e, e_operation e, hex p)) (e_payload e)) (j_entries (r_journal r)).

(** The state the journals start from: empty, or what the snapshot covers. *)
Definition initial_journal (manifest_digest : bytes) (s : option snapshot_image) : journal :=
  let entries := match s with Some s => sn_entries s | None => [] end in
  let proofs := match s with Some s => sn_proofs s | None => [] end in
  match last entries with
  | Some e => Journal [] [] entries proofs (e_epoch e) (e_incarnation e) (e_digest e) (Z.of_nat (length entries))
  | None => Journal [] [] entries proofs 1 no_incarnation manifest_digest (Z.of_nat (length entries))
  end.

Definition inspect_locked (directory : file) : result report :=
  let! members := inventory directory in
  let! mf := single members "manifest.gsr" 1 in
  let! m := read_body manifest_body mf.1 in
  let! nd := single members "node.gsr" 2 in
  let! node := read_body (node_body mf.2 (mf_voters m) (bool_decide (is_Some (members !! "rebuilding.gsr"%string)))) nd.1 in
  let! sel := select members mf.2 node (mf_voters m) in
  let has_snapshot := match sel_snapshot sel with Some _ => true | None => false end in
  let read := read_journal mf.2 (mf_leader m) (mf_voters m) has_snapshot node in
  let! promises := member_bytes members "promises.gsr" in
  let! j := read 4 (initial_journal mf.2 (sel_snapshot sel)) promises in
  let! entries := member_bytes (sel_members sel) "entries.gsr" in
  let! j := read 5 j entries in
  let! proofs := member_bytes (sel_members sel) "proofs.gsr" in
  let! j := read 6 j proofs in
  do! check (match sel_snapshot sel with
             | Some s => match last (sn_entries s) with
                         | Some e => e_epoch e <=? promised (j_promises j)
                         | None => true
                         end
             | None => true
             end) "snapshot newer than durable promise" in
  let! ready := single members "storage-ready.gsr" 7 in
  do! check (bool_decide (ready.1 = mf.2 ++ nd.2 ++ concat (j_headers j))) "incomplete initialization marker" in
  Ok (Report m node mf.2 j (sel_snapshot sel) (sel_floor sel) (sel_voter sel) (sel_slot sel)).

(** [owned]: another process holds the lock of the directory. *)
Definition inspect (owned : bool) (directory : file) : result report :=
  let! _ := inventory directory in
  do! check (negb owned) "storage directory has another owner" in
  inspect_locked directory.

(** ** [generate] *)

Definition fixture_group : bytes := replicate 16 (z2b 0x11).
(** [uuid.UUID(INCARNATION).bytes] *)
Definition fixture_incarnation : bytes := replicate 16 (z2b 0x22).

Definition fixture_voter (i : Z) (node : string) : bytes :=
  text node ++ text ("10.0.0." +:+ pretty.pretty i) ++ be_split 4 19501 ++ be_split 1 1.

Definition fixture_manifest : bytes := frame 1 (
  text "gse-replicated" ++ be_split 2 1 ++ be_split 2 0 ++ text "gse-replication" ++ be_split 2 1 ++ be_split 2 0
  ++ fixture_group ++ text "config-v1" ++ be_split 8 1 ++ text "node-1" ++ be_split 4 3
  ++ concat (imap (fun i node => fixture_voter (Z.of_nat i + 1) node) VOTERS)
  ++ text "fixture-codec" ++ be_split 4 1 ++ text "fixture-schema" ++ be_split 4 1 ++ digest []).

(** [encoded[16:48]], the digest of a frame *)
Definition frame_digest (f : bytes) : bytes := take 32 (drop 16 f).

Definition fixture_digest : bytes := frame_digest fixture_manifest.
Definition fixture_local : bytes := frame 2 (fixture_digest ++ text "node-2").
Definition fixture_header (kind : Z) : bytes := frame 3 (fixture_digest ++ text "node-2" ++ be_split 2 kind).
Definition fixture_ready : bytes := frame 7 (
  fixture_digest ++ frame_digest fixture_local
  ++ concat ((fun kind => frame_digest (fixture_header kind)) <$> [4; 5; 6])).

Definition fixture_promise : bytes := frame 4 (fixture_digest ++ text "node-1" ++ be_split 8 2 ++ fixture_incarnation).

Definition fixture_entry (index previous_epoch : Z) (previous_digest : bytes) (operation : string * bytes) : bytes * entry :=
  let payload := operation.2 in
  let encoded := frame 5 (
    fixture_digest ++ be_split 8 2 ++ fixture_incarnation
    ++ be_split 8 index ++ be_split 1 (operation_code operation.1) ++ be_split 8 previous_epoch ++ be_split 8 (index - 1)
    ++ previous_digest ++ be_split 4 (Z.of_nat (length payload)) ++ digest payload ++ payload) in
  (encoded, Entry fixture_digest index 2 fixture_incarnation operation.1 (frame_digest encoded) (digest payload)
              previous_digest (Some payload)).

(** The entries of the populated fixture: each chains to the digest of the one before. *)
Definition chain_entry (log : list (bytes * entry)) (operation : string * bytes) : list (bytes * entry) :=
  match last log with
  | None => [fixture_entry 1 1 fixture_digest operation]
  | Some (_, e) => log ++ [fixture_entry (e_index e + 1) 2 (e_digest e) operation]
  end.

Definition fixture_entries (operations : list (string * bytes)) : list (bytes * entry) := fold_left chain_entry operations [].

Definition fixture_log : list (bytes * entry) :=
  fixture_entries
    [("NO_OP"%string, []); ("ADD_ALL"%string, utf8 "two-documents"); ("UPDATE"%string, utf8 "uncommitted")].

Definition fixture_proof (e : entry) : bytes := frame 6 (
  fixture_digest ++ be_split 8 2 ++ fixture_incarnation ++ be_split 8 2 ++ e_digest e ++ e_previous e ++ be_split 4 2
  ++ concat ((fun node => text node ++ receipt node e) <$> take 2 VOTERS)).

(** The members [generate] writes. *)
Definition fixture_members (populated : bool) : gmap string file :=
  let promises := if populated then fixture_promise else [] in
  let entries := if populated then concat fixture_log.*1 else [] in
  let proofs := if populated then match fixture_log !! 1%nat with Some (_, e) => fixture_proof e | None => [] end else [] in
  list_to_map [("replica.lock", Regular []); ("manifest.gsr", Regular fixture_manifest);
               ("node.gsr", Regular fixture_local);
               ("promises.gsr", Regular (fixture_header 4 ++ promises));
               ("entries.gsr", Regular (fixture_header 5 ++ entries));
               ("proofs.gsr", Regular (fixture_header 6 ++ proofs));
               ("storage-ready.gsr", Regular fixture_ready)]%string.

Definition generate (populated : bool) : result report := inspect false (Folder (fixture_members populated)).

(** ** [recovery_format.generate]: the populated fixture with an installed generation *)

Definition fixture_generation : bytes := replicate 16 (z2b 0x44).

Definition put_ancestor (e : entry) : bytes :=
  be_split 8 (e_epoch e) ++ e_incarnation e ++ be_split 1 (operation_code (e_operation e))
  ++ e_digest e ++ e_payload_digest e.

Definition recovery_ancestors : list entry := take 2 fixture_log.*2.
Definition recovery_proof : bytes := match fixture_log !! 1%nat with Some (_, e) => fixture_proof e | None => [] end.
Definition recovery_application : bytes := be_split 2 1 ++ be_split 4 0 ++ be_split 4 0.

Definition recovery_snapshot : bytes := frame 8 (
  fixture_digest ++ be_split 4 (Z.of_nat (length recovery_ancestors)) ++ concat (put_ancestor <$> recovery_ancestors)
  ++ be_split 4 (Z.of_nat (length recovery_proof)) ++ recovery_proof
  ++ be_split 4 (Z.of_nat (length recovery_application)) ++ recovery_application).

Definition recovery_seal : bytes := frame 11 (
  fixture_digest ++ text "node-2" ++ fixture_generation ++ frame_digest recovery_snapshot
  ++ frame_digest (fixture_header 5) ++ frame_digest (fixture_header 6)).

Definition recovery_members : gmap string file :=
  let slot := list_to_map [("snapshot.gsr", Regular recovery_snapshot);
                           ("entries.gsr", Regular (fixture_header 5 ++ concat (drop 2 fixture_log.*1)));
                           ("proofs.gsr", Regular (fixture_header 6));
                           ("generation.gsr", Regular recovery_seal)]%string in
  let ancestor := match last recovery_ancestors with Some e => e_digest e | None => [] end in
  <["generation-a"%string := Folder slot]>
  (<["current.gsr"%string := Regular (frame 10 (fixture_digest ++ text "node-2" ++ text "generation-a" ++ fixture_generation
                                               ++ frame_digest recovery_seal ++ [Byte.x01]))]>
  (<["generation-started.gsr"%string := Regular (frame 15 (fixture_digest ++ text "node-2"))]>
  (<["recovery-floor.gsr"%string := Regular (frame 12 (fixture_digest ++ text "node-2" ++ be_split 8 2 ++ ancestor
                                               ++ be_split 4 2 ++ text "node-1" ++ text "node-2"))]>
  (fixture_members true)))).

Definition generate_recovery : result report := inspect false (Folder recovery_members).
