(* ===== verification/ReplicaProofs.v ===== *)
(** * The replica directory: frames, fields and the records they frame *)

From Stdlib Require Import Ascii.
From stdpp Require Import base gmap sets strings list sorting.
From S2P Require Import Prelude Bytes Sha256 Wire Files Json ReplicaFrames ReplicaRecovery ReplicaStorage.
Import StateNotations ResultNotations.
Local Open Scope py_scope.
Local Open Scope Z_scope.
#[local] Opaque be_split sha256.

Lemma read_body_ok {A} (p : reader A) body x : read_body p body = Ok x <-> p body = (Ok x, []).
Proof.
  unfold read_body. rewrite run_reader_ok. split.
  - intros [s2 H]. ok_inv H. subst. unfold end_of_fields in Hx0. apply expect_end_ok in Hx0 as [-> ->]. done.
  - intros H. exists []. apply bind_ok. exists x, []. by split.
Qed.

(** ** Frames *)

Definition prefixed (kind : Z) (body : bytes) : bytes := put_prefix kind (Z.of_nat (length body)) ++ body.

Lemma length_put_prefix kind n : length (put_prefix kind n) = 16%nat.
Proof. unfold put_prefix. rewrite !length_app, !length_be_split. done. Qed.

Lemma frame_parts kind body :
  frame kind body = put_prefix kind (Z.of_nat (length body)) ++ digest (prefixed kind body) ++ body.
Proof. reflexivity. Qed.

Lemma read_prefix_ok bs p :
  length bs = 16%nat -> run_reader read_prefix bs = Ok p -> px_magic p = utf8 "GSER" -> px_major p = 1 -> px_minor p = 0 ->
  px_flags p = 0 -> bs = put_prefix (px_kind p) (px_length p).
Proof.
  intros Hl [s2 H]%run_reader_ok. unfold read_prefix in H. ok_inv H. fields_inv. subst.
  cbn [px_magic px_major px_minor px_kind px_flags px_length]. intros -> -> -> ->. unfold put_prefix.
  rewrite !length_app, !length_be_split in Hl. destruct s2 as [|? s2]; [|cbn [length] in Hl; lia].
  by rewrite app_nil_r.
Qed.

Lemma run_read_prefix kind n :
  unsigned_range 2 kind -> signed_range 4 n ->
  run_reader read_prefix (put_prefix kind n) = Ok (Prefix (utf8 "GSER") 1 0 kind 0 n).
Proof.
  intros Hk Hn. eapply run_exact with (s2 := []). unfold put_prefix, read_prefix. rewrite <- (app_nil_r (be_split 4 n)).
  do 6 feed_step. reflexivity.
Qed.

Lemma source_read_app n (a b : bytes) : Z.of_nat (length a) = n -> source_read n (a ++ b) = (Ok a, b).
Proof.
  intros <-. unfold source_read. rewrite Nat2Z.id, take_app_length, drop_app_length. done.
Qed.

Lemma source_read_ok n s a s2 : source_read n s = (Ok a, s2) -> s = a ++ s2.
Proof. unfold source_read. intros [= <- <-]. by rewrite take_drop. Qed.

(** [read_frame] accepts exactly the frames [frame] writes. *)
Lemma read_frame_some kind maximum s body sum s2 :
  read_frame kind maximum s = (Ok (Some (body, sum)), s2) ->
  0 < Z.of_nat (length body) <= maximum - 48 /\ sum = digest (prefixed kind body) /\ s = frame kind body ++ s2.
Proof.
  intros H. unfold read_frame in H. apply bind_ok in H as (prefix & s1 & Hp & H). apply source_read_ok in Hp as ->.
  case_bool_decide as E; [apply ret_ok in H as [? _]; done|]. unfold checked_that in H. ok_inv H. subst.
  repeat match goal with
  | A : source_read _ _ = (Ok _, _) |- _ => apply source_read_ok in A as ->
  | A : ensure _ _ _ = (Ok _, _) |- _ => apply ensure_ok in A as [? ?]
  end.
  subst. bool_tac. destruct x0 as [magic major minor k flags len]. cbn [px_magic px_major px_minor px_kind px_flags px_length] in *.
  simplify_eq. apply read_prefix_ok in Hx1; [|done..]. cbn [px_kind px_length] in Hx1.
  rewrite frame_parts. unfold prefixed. rewrite <- Hx1. split_and!; [lia|lia|done|]. by rewrite <- !app_assoc.
Qed.

Lemma read_frame_none kind maximum s s2 : read_frame kind maximum s = (Ok None, s2) -> s = [] /\ s2 = [].
Proof.
  intros H. unfold read_frame in H. apply bind_ok in H as (prefix & s1 & Hp & H).
  case_bool_decide as E.
  - apply ret_ok in H as [_ <-]. rewrite E in Hp. unfold source_read in Hp.
    destruct s; [injection Hp as <-; done|]. destruct (Z.to_nat 16) eqn:?; done.
  - unfold checked_that in H. ok_inv H. done.
Qed.

Lemma read_frame_frame kind maximum body s2 :
  unsigned_range 2 kind -> maximum <= 2 ^ 31 -> 0 < Z.of_nat (length body) <= maximum - 48 ->
  read_frame kind maximum (frame kind body ++ s2) = (Ok (Some (body, digest (prefixed kind body))), s2).
Proof.
  intros Hk Hm Hl. unfold read_frame. rewrite frame_parts, <- !app_assoc. unfold bind at 1.
  rewrite source_read_app by (rewrite length_put_prefix; done).
  rewrite bool_decide_eq_false_2 by (intros E; apply (f_equal length) in E; by rewrite length_put_prefix in E).
  unfold checked_that. apply feed_check; [by rewrite length_put_prefix|].
  rewrite run_read_prefix by first [exact Hk | unfold signed_range; change (8 * Z.of_nat 4 - 1) with 31; lia].
  unfold bind at 1, liftr.
  cbn [px_magic px_major px_minor px_kind px_flags px_length].
  do 3 (apply feed_check; [rewrite ?Z.eqb_refl; simpl; lia|]).
  unfold bind at 1. rewrite source_read_app by (unfold digest; rewrite length_sha256; done).
  unfold bind at 1. rewrite source_read_app by done.
  apply feed_check; [unfold digest; rewrite length_sha256, Z.eqb_refl; done|].
  apply feed_check; [by apply bool_decide_eq_true|]. done.
Qed.

(** ** Fields *)

Lemma string_field_ok maximum s x s2 :
  string_field maximum s = (Ok x, s2) -> s = text x ++ s2 /\ is_text x = true /\ 0 < text_size x <= maximum.
Proof.
  intros H. unfold string_field, number_i, take_field, checked_that in H. ok_inv H. fields_inv. subst. bool_tac.
  unfold decode_utf8 in Hx2. destruct (utf8_valid x2) eqn:Hv; [|done]. injection Hx2 as <-.
  unfold text, put_text, text_size, is_text. rewrite utf8_str, <- app_assoc. split_and!; [done..|lia|lia].
Qed.

Lemma reads_string_field maximum x :
  is_text x = true -> 0 < text_size x <= maximum -> maximum < 2 ^ 31 -> reads (string_field maximum) (text x) x.
Proof.
  intros Hv Hl Hm. unfold string_field, text, put_text. eapply reads_bind.
  { apply reads_int; [lia|]. unfold signed_range. change (8 * Z.of_nat 4 - 1) with 31. lia. }
  eapply reads_check; [lia|]. rewrite <- (app_nil_r (utf8 x)). eapply reads_bind; [by apply reads_take|].
  apply reads_liftr. by apply decode_encode.
Qed.

Lemma identity_field_ok maximum s x s2 :
  identity_field maximum s = (Ok x, s2) ->
  s = text x ++ s2 /\ is_text x = true /\ 0 < text_size x <= maximum /\ is_identity maximum x = true.
Proof.
  intros H. unfold identity_field in H. apply bind_ok in H as (y & s1 & Hy & H). apply string_field_ok in Hy as (-> & ? & ?).
  unfold checked_that in H. ok_inv H. fields_inv. subst. split_and!; [done..|lia|lia|done].
Qed.

Lemma reads_identity maximum x :
  is_identity maximum x = true -> maximum < 2 ^ 31 -> reads (identity_field maximum) (text x) x.
Proof.
  intros Hi Hm. destruct (identity_text _ _ Hi) as [Ht Hl]. unfold identity_field. rewrite <- (app_nil_r (text x)).
  eapply reads_bind; [by apply reads_string_field|]. eapply reads_check; [done|]. apply reads_ret.
Qed.

(** ** The replica directory: what an accepted journal satisfies

    The entries of a replica form a chain: each names the digest of the one before, and a retained
    entry is the content of its own record.  The invariant below holds when the journals are opened
    and every accepted record preserves it. *)

(** ** The chain *)

(** What the entry at position [i] of the log continues; [d] before the first entry. *)
Definition before {A} (f : entry -> A) (d : A) (log : list entry) (i : nat) : A :=
  match i with
  | O => d
  | S k => match log !! k with Some e => f e | None => d end
  end.

(** The content of the record of a retained entry. *)
Definition record_body (log : list entry) (i : nat) (e : entry) (payload : bytes) : bytes :=
  e_manifest e ++ be_split 8 (e_epoch e) ++ e_incarnation e ++ be_split 8 (e_index e)
  ++ be_split 1 (operation_code (e_operation e)) ++ be_split 8 (before e_epoch 1 log i) ++ be_split 8 (e_index e - 1)
  ++ e_previous e ++ be_split 4 (Z.of_nat (length payload)) ++ e_payload_digest e ++ payload.

(** The bytes a record digest covers. *)
Definition covered (log : list entry) (i : nat) : bytes :=
  match log !! i with
  | Some e => match e_payload e with Some p => prefixed 5 (record_body log i e p) | None => [] end
  | None => []
  end.

(** The fields have the widths of their encodings. *)
Record widths (log : list entry) (i : nat) (e : entry) (payload : bytes) : Prop := {
  w_manifest : length (e_manifest e) = 32%nat;
  w_epoch : signed_range 8 (e_epoch e);
  w_incarnation : length (e_incarnation e) = 16%nat;
  w_index : signed_range 8 (e_index e);
  w_before : signed_range 8 (before e_epoch 1 log i);
  w_previous : length (e_previous e) = 32%nat;
  w_length : signed_range 4 (Z.of_nat (length payload));
  w_digest : length (e_payload_digest e) = 32%nat;
  w_operation : exists c, operation_name c = Some (e_operation e)
}.

Record linked (manifest : bytes) (log : list entry) (i : nat) (e : entry) : Prop := {
  l_manifest : e_manifest e = manifest;
  l_index : e_index e = Z.of_nat i + 1;
  l_epoch : before e_epoch 1 log i <= e_epoch e;
  l_incarnation : before e_epoch 1 log i = e_epoch e -> e_incarnation e = before e_incarnation no_incarnation log i;
  l_previous : e_previous e = before e_digest manifest log i;
  l_record : forall p, e_payload e = Some p ->
    e_payload_digest e = digest p /\ e_digest e = digest (prefixed 5 (record_body log i e p)) /\ widths log i e p
}.

Definition chained (manifest : bytes) (log : list entry) : Prop :=
  forall i e, log !! i = Some e -> linked manifest log i e.

Lemma before_app {A} (f : entry -> A) d log more i :
  (i <= length log)%nat -> before f d (log ++ more) i = before f d log i.
Proof. destruct i as [|k]; [done|]. intros Hk. unfold before. by rewrite lookup_app_l by lia. Qed.

Lemma before_last {A} (f : entry -> A) d log e : before f d (log ++ [e]) (length (log ++ [e])) = f e.
Proof. rewrite length_app, Nat.add_1_r. unfold before. by rewrite list_lookup_middle. Qed.

Lemma record_body_app log more i e p :
  (i <= length log)%nat -> record_body (log ++ more) i e p = record_body log i e p.
Proof. intros Hi. unfold record_body. by rewrite before_app. Qed.

Lemma linked_app manifest log more i e :
  (i <= length log)%nat -> linked manifest (log ++ more) i e <-> linked manifest log i e.
Proof.
  intros Hi. split; intros [H1 H2 H3 H4 H5 H6]; split; intros; try rewrite ?before_app in * by done; auto.
  - destruct (H6 _ H) as (? & ? & []). rewrite record_body_app, before_app in * by done. split_and!; [done..|by split].
  - destruct (H6 _ H) as (? & ? & []). rewrite record_body_app by done. split_and!; [done..|].
    split; rewrite ?before_app by done; done.
Qed.

Lemma chained_nil manifest : chained manifest [].
Proof. done. Qed.

Lemma chained_snoc manifest log e :
  chained manifest log -> linked manifest log (length log) e -> chained manifest (log ++ [e]).
Proof.
  intros Hc He i e' Hi. apply linked_app.
  - apply lookup_lt_Some in Hi. rewrite length_app in Hi. simpl in Hi. lia.
  - apply lookup_app_Some in Hi as [Hi|[Hl Hi]]; [by apply Hc|].
    apply list_lookup_singleton_Some in Hi as [Hz <-]. by replace i with (length log) by lia.
Qed.

(** ** Retained records determine each other *)

Lemma operation_name_code c n : operation_name c = Some n -> operation_code n = c.
Proof.
  unfold operation_name. destruct (_ && _) eqn:E; [|done]. bool_tac. intros Hn.
  change (Z.of_nat (length OPERATIONS)) with 10 in *.
  assert (c = 1 \/ c = 2 \/ c = 3 \/ c = 4 \/ c = 5 \/ c = 6 \/ c = 7 \/ c = 8 \/ c = 9 \/ c = 10) as Hc by lia.
  decompose [or] Hc; subst; injection Hn as <-; reflexivity.
Qed.

Lemma operation_code_inj a b c d :
  operation_name a = Some c -> operation_name b = Some d -> operation_code c = operation_code d -> c = d.
Proof. intros Ha Hb H. rewrite (operation_name_code _ _ Ha), (operation_name_code _ _ Hb) in H. congruence. Qed.

Lemma operation_code_range a c : operation_name a = Some c -> unsigned_range 1 (operation_code c).
Proof.
  intros Ha. rewrite (operation_name_code _ _ Ha). unfold operation_name in Ha. destruct (_ && _) eqn:E; [|done].
  bool_tac. change (Z.of_nat (length OPERATIONS)) with 10 in *. unfold unsigned_range. change (8 * Z.of_nat 1) with 8. lia.
Qed.

Lemma prefixed_inj kind a b : prefixed kind a = prefixed kind b -> a = b.
Proof. unfold prefixed. intros H. apply app_field in H as [_ ?]; [done|]. by rewrite !length_put_prefix. Qed.

(** One digest of two retained records: the same entry, or a collision of what the digests cover. *)
Lemma same_record m1 m2 l1 l2 i j e1 e2 p1 p2 :
  linked m1 l1 i e1 -> linked m2 l2 j e2 -> e_payload e1 = Some p1 -> e_payload e2 = Some p2 ->
  e_digest e1 = e_digest e2 ->
  e1 = e2 \/ collides (prefixed 5 (record_body l1 i e1 p1)) (prefixed 5 (record_body l2 j e2 p2)).
Proof.
  intros H1 H2 P1 P2 He. destruct (l_record _ _ _ _ H1 _ P1) as (D1 & R1 & W1).
  destruct (l_record _ _ _ _ H2 _ P2) as (D2 & R2 & W2). pose proof He as He'. rewrite R1, R2 in He.
  apply same_digest in He as [He|Hc]; [left|by right]. apply prefixed_inj in He. unfold record_body in He.
  destruct W1 as [? ? ? ? ? ? ? ? [c1 O1]], W2 as [? ? ? ? ? ? ? ? [c2 O2]].
  apply app_field in He as [E1 He]; [|congruence].
  apply int_field in He as [E2 He]; [|lia|assumption..].
  apply app_field in He as [E3 He]; [|congruence].
  apply int_field in He as [E4 He]; [|lia|assumption..].
  apply uint_field in He as [E5 He]; [|by eapply operation_code_range..].
  apply int_field in He as [E6 He]; [|lia|assumption..].
  apply app_field in He as [E7 He]; [|by rewrite !length_be_split].
  apply app_field in He as [E8 He]; [|congruence].
  apply int_field in He as [E9 He]; [|lia|assumption..].
  apply app_field in He as [E10 E11]; [|congruence].
  apply (operation_code_inj _ _ _ _ O1 O2) in E5. destruct e1, e2; simpl in *. congruence.
Qed.

(** ** Two chains with a common digest *)

Definition kept (log : list entry) (i : nat) : Prop := exists e p, log !! i = Some e /\ e_payload e = Some p.

Definition record_collision (l1 l2 : list entry) : Prop :=
  exists i j, kept l1 i /\ kept l2 j /\ collides (covered l1 i) (covered l2 j).

Lemma same_digest_entry m1 m2 l1 l2 i j e1 e2 :
  chained m1 l1 -> chained m2 l2 -> l1 !! i = Some e1 -> l2 !! j = Some e2 -> kept l1 i -> kept l2 j ->
  e_digest e1 = e_digest e2 -> e1 = e2 \/ record_collision l1 l2.
Proof.
  intros C1 C2 H1 H2 (e1' & p1 & H1' & P1) (e2' & p2 & H2' & P2) He. simplify_eq.
  destruct (same_record m1 m2 l1 l2 i j e1 e2 p1 p2 (C1 _ _ H1) (C2 _ _ H2) P1 P2 He) as [->|Hc]; [by left|right].
  exists i, j. split_and!; [by exists e1, p1|by exists e2, p2|]. unfold covered. by rewrite H1, P1, H2, P2.
Qed.

Lemma entry_chains_agree m1 m2 l1 l2 i d :
  chained m1 l1 -> chained m2 l2 -> (i < length l1)%nat -> (i < length l2)%nat -> (d <= i)%nat ->
  (forall k, (i - d <= k <= i)%nat -> kept l1 k /\ kept l2 k) ->
  before e_digest m1 l1 (S i) = before e_digest m2 l2 (S i) ->
  record_collision l1 l2 \/
  (l1 !! (i - d)%nat = l2 !! (i - d)%nat /\ before e_digest m1 l1 (i - d) = before e_digest m2 l2 (i - d)).
Proof.
  intros C1 C2 L1 L2. induction d as [|d IH]; intros Hd Hk Hs.
  - rewrite Nat.sub_0_r in *. destruct (Hk i) as [K1 K2]; [lia|].
    destruct (lookup_lt_is_Some_2 _ _ L1) as [e1 E1], (lookup_lt_is_Some_2 _ _ L2) as [e2 E2].
    simpl in Hs. rewrite E1, E2 in Hs.
    destruct (same_digest_entry _ _ _ _ _ _ _ _ C1 C2 E1 E2 K1 K2 Hs) as [->|?]; [right|by left].
    rewrite E1, E2, <- (l_previous _ _ _ _ (C1 _ _ E1)), <- (l_previous _ _ _ _ (C2 _ _ E2)). done.
  - destruct IH as [?|[_ IH]]; [lia|intros k ?; apply Hk; lia|done|by left|].
    replace (i - d)%nat with (S (i - S d)) in IH by lia. destruct (Hk (i - S d)%nat) as [K1 K2]; [lia|].
    destruct (lookup_lt_is_Some_2 l1 (i - S d)) as [e1 E1]; [lia|].
    destruct (lookup_lt_is_Some_2 l2 (i - S d)) as [e2 E2]; [lia|].
    cbn [before] in IH. rewrite E1, E2 in IH.
    destruct (same_digest_entry _ _ _ _ _ _ _ _ C1 C2 E1 E2 K1 K2 IH) as [->|?]; [right|by left].
    rewrite E1, E2, <- (l_previous _ _ _ _ (C1 _ _ E1)), <- (l_previous _ _ _ _ (C2 _ _ E2)). done.
Qed.

(** ** The journal invariant *)

(** A receipt list: two or three voters, each once, in order. *)
Definition quorum (voters nodes : list string) : Prop :=
  nodes = sorted_set nodes /\ (2 <= length nodes <= 3)%nat /\ nodes ⊆ voters.

Record certified (voters : list string) (log : list entry) (proofs : list proof) (committed : Z) : Prop := {
  c_increasing : StronglySorted Z.lt (p_index <$> proofs);
  c_quorums : Forall (fun p => 1 <= p_index p <= committed /\ quorum voters (p_receipt_voters p)) proofs;
  c_last : committed = default 0 (last (p_index <$> proofs));
  c_bound : committed <= Z.of_nat (length log)
}.

Record journal_ok (manifest : bytes) (voters : list string) (base : list entry) (j : journal) : Prop := {
  jo_promises : StronglySorted Z.lt (1 :: (j_promises j).*1);
  jo_incarnations : Forall (fun p => p.2 <> no_incarnation) (j_promises j);
  jo_chain : chained manifest (j_entries j);
  jo_epoch : j_previous_epoch j = before e_epoch 1 (j_entries j) (length (j_entries j));
  jo_incarnation : j_previous_incarnation j = before e_incarnation no_incarnation (j_entries j) (length (j_entries j));
  jo_digest : j_previous_digest j = before e_digest manifest (j_entries j) (length (j_entries j));
  jo_base : exists retained, j_entries j = base ++ retained /\
      Forall (fun e => is_Some (e_payload e) /\ e_epoch e <= promised (j_promises j)) retained;
  jo_proofs : certified voters (j_entries j) (j_proofs j) (j_committed j);
  jo_covered : Z.of_nat (length base) <= j_committed j
}.

Lemma sorted_promised l : StronglySorted Z.lt (1 :: l.*1) -> promised l = default 1 (last (l : list (Z * bytes)).*1).
Proof.
  unfold promised. generalize l.*1. clear l. intros l H. destruct l as [|x l]; [done|].
  apply StronglySorted_inv in H as [H _]. revert x H. induction l as [|y l IH]; intros x H; [done|].
  apply StronglySorted_inv in H as [H Hf]. rewrite Forall_cons in Hf. destruct Hf as [Hxy _].
  simpl. rewrite Z.max_r by lia. rewrite IH by done. done.
Qed.

Lemma promised_bound l e : (l : list (Z * bytes)).*1 <> [] -> e ∈ l.*1 -> e <= promised l.
Proof.
  unfold promised. generalize l.*1. clear l. intros l _ He. destruct l as [|x l]; [by apply elem_of_nil in He|].
  assert (forall m a, a <= fold_left Z.max m a) as Ha.
  { induction m as [|b m IH]; intros a; simpl; [lia|]. etrans; [|apply IH]. lia. }
  revert x He. induction l as [|y l IH]; intros x He; simpl.
  - apply list_elem_of_singleton in He. lia.
  - apply elem_of_cons in He as [->|He]; [etrans; [|apply Ha]; lia|].
    apply elem_of_cons in He as [->|He]; [etrans; [|apply Ha]; lia|]. apply IH. by right.
Qed.
