(* ===== verification/ReplicaInvariant.v ===== *)
(** * The replica directory: every record preserves the journal invariant *)

From stdpp Require Import base gmap sets strings list sorting.
From S2P Require Import Prelude Bytes Sha256 Wire Files Json ReplicaFrames ReplicaRecovery ReplicaStorage ReplicaProofs.
Import StateNotations ResultNotations.
Local Open Scope py_scope.
Local Open Scope Z_scope.
#[local] Opaque be_split sha256.

(** Reading the fields of a record off a hypothesis about its reader. *)
Ltac record_inv H :=
  unfold number_i, number_q, number_H, number_B, take_field, checked_that, end_of_fields in H;
  ok_inv H; fields_inv; subst; bool_tac.

Lemma StronglySorted_snoc (l : list Z) x : StronglySorted Z.lt l -> Forall (fun y => y < x) l -> StronglySorted Z.lt (l ++ [x]).
Proof.
  intros Hs Hf. induction Hs as [|y l Hs IH Hy]; simpl; [by repeat constructor|].
  apply Forall_cons in Hf as [Hyx Hf]. constructor; [by apply IH|]. apply Forall_app. split; [done|by repeat constructor].
Qed.

Lemma key_promised (l : list (Z * bytes)) k : k ∈ l.*1 -> k <= promised l.
Proof. intros Hk. apply promised_bound; [|done]. intros E. rewrite E in Hk. by apply not_elem_of_nil in Hk. Qed.

Lemma promised_after l k v :
  StronglySorted Z.lt (1 :: l.*1) -> promised l < k ->
  assoc_set k v l = l ++ [(k, v)] /\ StronglySorted Z.lt (1 :: (l ++ [(k, v)]).*1) /\ promised (l ++ [(k, v)]) = k.
Proof.
  intros Hs Hk. assert (StronglySorted Z.lt (1 :: (l ++ [(k, v)]).*1)) as Hs'.
  { rewrite fmap_app. apply (StronglySorted_snoc (1 :: l.*1)); [done|]. constructor.
    - rewrite (sorted_promised _ Hs) in Hk. destruct (last l.*1) as [z|] eqn:E; [|exact Hk]. simpl in Hk.
      apply StronglySorted_inv in Hs as [_ Hs]. rewrite Forall_forall in Hs.
      assert (1 < z); [|simpl; lia]. apply Hs. apply last_Some in E as [l' ->]. set_solver.
    - apply Forall_forall. intros z Hz. apply key_promised in Hz. simpl. lia. }
  split_and!; [|done|].
  - apply assoc_set_fresh. intros Hin. apply key_promised in Hin. lia.
  - rewrite sorted_promised by done. rewrite fmap_app. change (fst <$> [(k, v)]) with [k]. by rewrite last_snoc.
Qed.

Lemma assoc_get_key {V} k (v : V) (d : list (Z * V)) : assoc_get k d = Some v -> k ∈ d.*1.
Proof. intros H%assoc_get_elem. apply list_elem_of_fmap. by exists (k, v). Qed.

Section Preservation.
Context (manifest : bytes) (leader : string) (voters : list string) (has_snapshot : bool) (base : list entry).
Local Notation ok := (journal_ok manifest voters base).

Lemma promise_preserved j s j' s2 : promise_record leader j s = (Ok j', s2) -> ok j -> ok j'.
Proof.
  intros H [Js Ji Jc Je Jn Jd [retained [Jb Jr]] Jp Jl]. unfold promise_record in H. record_inv H.
  match goal with A : promised _ < ?k |- context [assoc_set ?k ?v _] =>
    destruct (promised_after _ _ v Js A) as (E & Hs & Hm) end.
  split; simpl; rewrite ?E; try done.
  - apply Forall_app. split; [done|]. by repeat constructor.
  - exists retained. split; [done|]. eapply Forall_impl; [exact Jr|]. intros e [? ?]. split; [done|]. lia.
Qed.

(** What an accepted entry record adds. *)
Definition appended (j : journal) (e : entry) : journal :=
  Journal (j_headers j) (j_promises j) (j_entries j ++ [e]) (j_proofs j) (e_epoch e) (e_incarnation e) (e_digest e)
    (j_committed j).

Lemma entry_record_ok j d s j' s2 :
  entry_record manifest has_snapshot j d s = (Ok j', s2) ->
  exists e p,
    j' = appended j e /\ e_payload e = Some p /\ e_manifest e = manifest /\ e_digest e = d /\
    e_index e = Z.of_nat (length (j_entries j)) + 1 /\ e_payload_digest e = digest p /\
    j_previous_epoch j <= e_epoch e /\
    (j_previous_epoch j = e_epoch e -> e_incarnation e = j_previous_incarnation j) /\
    e_previous e = j_previous_digest j /\ promise_ok has_snapshot j (e_epoch e) (e_incarnation e) = true /\
    s = be_split 8 (e_epoch e) ++ e_incarnation e ++ be_split 8 (e_index e)
        ++ be_split 1 (operation_code (e_operation e)) ++ be_split 8 (j_previous_epoch j) ++ be_split 8 (e_index e - 1)
        ++ e_previous e ++ be_split 4 (Z.of_nat (length p)) ++ e_payload_digest e ++ p ++ s2 /\
    signed_range 8 (e_epoch e) /\ length (e_incarnation e) = 16%nat /\ signed_range 8 (e_index e) /\
    signed_range 8 (j_previous_epoch j) /\ length (e_previous e) = 32%nat /\ signed_range 4 (Z.of_nat (length p)) /\
    length (e_payload_digest e) = 32%nat /\ exists c, operation_name c = Some (e_operation e).
Proof.
  intros H. unfold entry_record in H. record_inv H.
  match goal with A : operation_name _ = Some _ |- _ => pose proof (operation_name_code _ _ A) as Hc end.
  lazymatch goal with |- context [_ ++ [?e]] => exists e end. eexists. split; [reflexivity|].
  cbn [e_payload e_manifest e_digest e_index e_payload_digest e_epoch e_incarnation e_previous e_operation].
  split_and!; first [reflexivity | assumption | lia | congruence | idtac].
  - match goal with A : _ || _ = true |- _ => apply orb_true_iff in A as [A|A] end; bool_tac; [lia|done].
  - by eexists.
Qed.

Lemma certified_app log more proofs committed :
  certified voters log proofs committed -> certified voters (log ++ more) proofs committed.
Proof. intros [H1 H2 H3 H4]. split; [done..|]. rewrite length_app. lia. Qed.

Lemma promise_ok_bound j epoch incarnation :
  promise_ok has_snapshot j epoch incarnation = true -> epoch <= promised (j_promises j).
Proof.
  unfold promise_ok. intros [H|H]%orb_true_iff; bool_tac; [|lia]. by eapply key_promised, assoc_get_key.
Qed.

Lemma entry_preserved j body j' :
  length manifest = 32%nat ->
  journal_record manifest leader voters has_snapshot 5 j (body, digest (prefixed 5 body)) = Ok j' -> ok j -> ok j'.
Proof.
  intros Hm H [Js Ji Jc Je Jn Jd [retained [Jb Jr]] Jp Jl]. unfold journal_record in H. rewrite read_body_ok in H.
  cbn [Z.eqb Pos.eqb fst snd] in H. record_inv H. cbn [fst snd] in *.
  match goal with A : entry_record _ _ _ _ _ = _ |- _ => apply entry_record_ok in A as
    (e & p & -> & Ep & Em & Ed & Ei & Epd & Hge & Hinc & Hpr & Hok & Hs & W1 & W2 & W3 & W4 & W5 & W6 & W7 & W8) end.
  rewrite app_nil_r in Hs.
  assert (linked manifest (j_entries j) (length (j_entries j)) e) as Hl.
  { split; try congruence.
    - rewrite <- Je, <- Jn. exact Hinc.
    - intros p' Hp'. assert (p' = p) as -> by congruence. split; [exact Epd|]. split.
      + rewrite Ed. do 2 f_equal. unfold record_body. rewrite <- Je, Em. congruence.
      + split; rewrite <- ?Je; try assumption; congruence. }
  split; cbn [appended j_headers j_promises j_entries j_proofs j_previous_epoch j_previous_incarnation j_previous_digest
              j_committed]; rewrite ?before_last; try done.
  - by apply chained_snoc.
  - exists (retained ++ [e]). rewrite Jb, app_assoc. split; [done|]. apply Forall_app. split; [done|].
    repeat constructor; [by eexists|]. by eapply promise_ok_bound.
  - by apply certified_app.
Qed.

(** *** Proofs *)

Lemma receipts_ok e msg count s nodes s2 :
  times count (read_receipt voters e msg) s = (Ok nodes, s2) -> nodes ⊆ voters /\ length nodes = Z.to_nat count.
Proof.
  unfold times. revert s nodes. induction (Z.to_nat count) as [|n IH]; intros s nodes H; cbn [repeat_reader] in H.
  - apply ret_ok in H as [<- _]. split; [set_solver|done].
  - apply bind_ok in H as (x & s1 & Hx & H). apply bind_ok in H as (xs & s3 & Hxs & H). apply ret_ok in H as [<- <-].
    apply IH in Hxs as [Hs <-]. unfold read_receipt in Hx. apply bind_ok in Hx as (? & ? & _ & Hx). record_inv Hx.
    split; [set_solver|done].
Qed.

Lemma committed_range log proofs committed :
  certified voters log proofs committed -> 0 <= committed /\ Forall (fun p => p_index p <= committed) proofs.
Proof.
  intros [Hi Hq Hl Hb]. split.
  - subst. destruct (last (p_index <$> proofs)) as [z|] eqn:E; [|done]. simpl.
    apply last_Some in E as [l' E]. assert (z ∈ p_index <$> proofs) as Hz by (rewrite E; set_solver).
    apply list_elem_of_fmap in Hz as (p & -> & Hp). rewrite Forall_forall in Hq. destruct (Hq _ Hp). lia.
  - eapply Forall_impl; [exact Hq|]. intros p [? _]. lia.
Qed.

Lemma certified_snoc log proofs committed p :
  certified voters log proofs committed -> committed < p_index p <= Z.of_nat (length log) ->
  quorum voters (p_receipt_voters p) -> certified voters log (proofs ++ [p]) (p_index p).
Proof.
  intros Hc Hp Hq. destruct (committed_range _ _ _ Hc) as [Hn Hf]. destruct Hc as [Hi Hqs Hl Hb]. split.
  - rewrite fmap_app. apply StronglySorted_snoc; [done|]. apply Forall_fmap. eapply Forall_impl; [exact Hf|].
    intros x Hx. simpl in *. lia.
  - apply Forall_app. split; [|apply Forall_singleton; split; [lia|exact Hq]].
    eapply Forall_impl; [exact Hqs|]. intros x [? ?]. split; [lia|done].
  - rewrite fmap_app. change (p_index <$> [p]) with [p_index p]. by rewrite last_snoc.
  - lia.
Qed.

Lemma quorum_intro e msg count s nodes s2 :
  times count (read_receipt voters e msg) s = (Ok nodes, s2) -> 2 <= count <= 3 -> nodes = sorted_set nodes ->
  quorum voters nodes.
Proof. intros [Hv Hn]%receipts_ok Hc Hs. split_and!; [done|lia|lia|done]. Qed.

Lemma proof_preserved j d s j' s2 : proof_record voters j d s = (Ok j', s2) -> ok j -> ok j'.
Proof.
  intros H [Js Ji Jc Je Jn Jd Jb Jp Jl]. unfold proof_record in H. record_inv H.
  match goal with A : times _ _ _ = _ |- _ => apply quorum_intro in A; [|lia|assumption] end.
  split; cbn [j_headers j_promises j_entries j_proofs j_previous_epoch j_previous_incarnation j_previous_digest
              j_committed]; try done.
  - match goal with |- certified _ _ (_ ++ [?p]) ?i => change i with (p_index p) end.
    eapply certified_snoc; [done|simpl; lia|done].
  - lia.
Qed.

Lemma record_preserved kind j body j' :
  length manifest = 32%nat -> kind = 4 \/ kind = 5 \/ kind = 6 ->
  journal_record manifest leader voters has_snapshot kind j (body, digest (prefixed kind body)) = Ok j' -> ok j -> ok j'.
Proof.
  intros Hm [-> |[-> | ->]] H Hj; [|by eapply entry_preserved|];
  unfold journal_record in H; rewrite read_body_ok in H; cbn [Z.eqb Pos.eqb fst snd] in H; record_inv H.
  - by eapply promise_preserved.
  - by eapply proof_preserved.
Qed.

Lemma header_preserved h j : ok j -> ok (add_header h j).
Proof. intros []. by split. Qed.
End Preservation.

(** ** The replica directory: the journal files as languages *)

Definition journal_limit (kind : Z) : Z := if kind =? 5 then MAX_FRAME else MAX_METADATA.

(** A record body that a frame of the given bound can hold. *)
Definition fits (maximum : Z) (body : bytes) : Prop := 0 < Z.of_nat (length body) <= maximum - 48.

Definition is_journal (kind : Z) : Prop := kind = 4 \/ kind = 5 \/ kind = 6.

Lemma journal_kind kind : is_journal kind -> unsigned_range 2 kind /\ journal_limit kind <= 2 ^ 31.
Proof. intros [-> |[-> | ->]]; (split; [split; vm_compute; congruence|vm_compute; congruence]). Qed.

Lemma length_frame kind body : length (frame kind body) = (48 + length body)%nat.
Proof. rewrite frame_parts, !length_app, length_put_prefix. unfold digest. rewrite length_sha256. lia. Qed.

Section Language.
Context (manifest : bytes) (leader : string) (voters : list string) (has_snapshot : bool).
Local Notation record := (journal_record manifest leader voters has_snapshot).
Local Notation records := (records manifest leader voters has_snapshot).

(** The reference: one record after the other. *)
Fixpoint run_bodies (kind : Z) (j : journal) (bodies : list bytes) : result journal :=
  match bodies with
  | [] => Ok j
  | body :: bodies' => let! j' := record kind j (body, digest (prefixed kind body)) in run_bodies kind j' bodies'
  end.

Lemma records_ok fuel kind j s j' s2 :
  records fuel kind j s = (Ok j', s2) ->
  s2 = [] /\ exists bodies, s = concat (frame kind <$> bodies) /\ Forall (fits (journal_limit kind)) bodies /\
                            run_bodies kind j bodies = Ok j'.
Proof.
  revert j s. induction fuel as [|fuel IH]; intros j s H; cbn [ReplicaStorage.records] in H;
    apply bind_ok in H as ([[body sum]|] & s1 & Hr & H); cycle 1; cycle 2.
  1, 3: apply ret_ok in H as [<- <-]; apply read_frame_none in Hr as [-> ->]; split; [done|]; exists []; split_and!; [done|constructor|done].
  - ok_inv H. done.
  - apply read_frame_some in Hr as (Hl & -> & ->). apply bind_ok in H as (j1 & s3 & Hj & H).
    apply liftr_ok in Hj as [Hj <-]. apply IH in H as (-> & bodies & -> & Hf & Hrun). split; [done|].
    exists (body :: bodies). split_and!; [done|by constructor|]. cbn [run_bodies]. by rewrite Hj.
Qed.

Lemma records_run fuel kind j bodies j' :
  is_journal kind -> Forall (fits (journal_limit kind)) bodies -> run_bodies kind j bodies = Ok j' ->
  (length (concat (frame kind <$> bodies)) <= fuel)%nat ->
  records fuel kind j (concat (frame kind <$> bodies)) = (Ok j', []).
Proof.
  intros Hk Hf. destruct (journal_kind _ Hk) as [Hu Hm]. revert fuel j. induction Hf as [|body bodies Hb Hf IH];
    intros fuel j Hrun Hl; cbn [run_bodies] in Hrun.
  - injection Hrun as ->. by destruct fuel.
  - apply rbind_ok in Hrun as (j1 & Hj & Hrun). rewrite fmap_cons in *. cbn [concat] in *.
    rewrite length_app, length_frame in Hl. destruct fuel as [|fuel]; [lia|]. cbn [ReplicaStorage.records].
    unfold bind at 1. fold (journal_limit kind). rewrite read_frame_frame by done. unfold bind at 1, liftr. rewrite Hj.
    apply IH; [done|lia].
Qed.

(** The fuel [length] of the file is always enough. *)
Lemma records_fuel n m kind j s :
  (length s <= n)%nat -> (length s <= m)%nat -> records n kind j s = records m kind j s.
Proof.
  revert m j s. induction n as [|n IH]; intros m j s Hn Hm.
  - destruct s; [|simpl in Hn; lia]. by destruct m.
  - destruct m as [|m]; [destruct s; [done|simpl in Hm; lia]|]. cbn [ReplicaStorage.records]. unfold bind at 1 3.
    destruct (read_frame _ _ s) as [[[[body sum]|]|e] s1] eqn:E; [|done..].
    apply read_frame_some in E as (Hl & _ & ->). rewrite length_app, length_frame in Hn, Hm.
    unfold bind, liftr. destruct (record kind j (body, sum)) as [j1|e]; [|done]. apply IH; lia.
Qed.

Lemma header_body_ok node kind header :
  length manifest = 32%nat -> is_identity 64 node = true -> unsigned_range 2 kind ->
  read_body (header_body manifest node kind) header = Ok tt <-> header = manifest ++ text node ++ be_split 2 kind.
Proof.
  intros Hm Hn Hk. rewrite read_body_ok. split.
  - intros H. unfold header_body in H. record_inv H. apply identity_field_ok in Hx1 as (-> & _). subst. by rewrite app_nil_r.
  - intros ->. unfold header_body, take_field, number_H, checked_that. rewrite <- (app_nil_r (be_split 2 kind)).
    eapply feed; [apply reads_take; lia|]. apply feed_check; [by apply bool_decide_eq_true|].
    eapply feed; [by apply reads_identity|]. apply feed_check; [by apply bool_decide_eq_true|].
    eapply feed; [by apply reads_uint|]. unfold ensure, liftr. by rewrite Z.eqb_refl.
Qed.

Lemma read_journal_ok node kind j content j' :
  length manifest = 32%nat -> is_identity 64 node = true -> is_journal kind ->
  read_journal manifest leader voters has_snapshot node kind j content = Ok j' <->
  exists bodies,
    let header := manifest ++ text node ++ be_split 2 kind in
    content = frame 3 header ++ concat (frame kind <$> bodies) /\
    Forall (fits (journal_limit kind)) bodies /\
    run_bodies kind (add_header (digest (prefixed 3 header)) j) bodies = Ok j'.
Proof.
  intros Hm Hn Hk. destruct (journal_kind _ Hk) as [Hu Hlim]. pose proof (identity_text _ _ Hn) as [_ Ht].
  unfold read_journal. rewrite run_reader_ok. split.
  - intros [s2 H]. apply bind_ok in H as ([[header sum]|] & s1 & Hr & H); [|by ok_inv H].
    apply read_frame_some in Hr as (_ & -> & ->). apply bind_ok in H as ([] & s3 & Hh & H).
    apply liftr_ok in Hh as [Hh <-]. cbn [fst snd] in *. apply header_body_ok in Hh as ->; [|done..].
    apply records_ok in H as (-> & bodies & -> & Hf & Hrun). by exists bodies.
  - intros (bodies & -> & Hf & Hrun). exists []. unfold bind at 1. rewrite read_frame_frame; [|done..|].
    + unfold bind at 1, liftr. cbn [fst snd]. rewrite (proj2 (header_body_ok _ _ _ Hm Hn Hu) eq_refl).
      apply records_run; [done..|]. rewrite length_app. lia.
    + rewrite !length_app, length_be_split, Hm. unfold text, put_text. rewrite length_app, length_be_split.
      unfold text_size in Ht. unfold MAX_METADATA. lia.
Qed.

Lemma run_bodies_preserved base kind j bodies j' :
  length manifest = 32%nat -> is_journal kind -> run_bodies kind j bodies = Ok j' ->
  journal_ok manifest voters base j -> journal_ok manifest voters base j'.
Proof.
  intros Hm Hk. revert j. induction bodies as [|body bodies IH]; intros j H Hj; cbn [run_bodies] in H.
  - by injection H as <-.
  - apply rbind_ok in H as (j1 & Hr & H). eapply IH; [done|]. by eapply record_preserved.
Qed.

Lemma read_journal_preserved base node kind j content j' :
  length manifest = 32%nat -> is_identity 64 node = true -> is_journal kind ->
  read_journal manifest leader voters has_snapshot node kind j content = Ok j' ->
  journal_ok manifest voters base j -> journal_ok manifest voters base j'.
Proof.
  intros Hm Hn Hk (bodies & _ & _ & H)%read_journal_ok Hj; [|done..].
  eapply run_bodies_preserved; [done..|]. by apply header_preserved.
Qed.
End Language.
