(* ===== verification/ReplicaSound.v ===== *)
(** * The replica directory: what an accepted directory satisfies *)

From stdpp Require Import base gmap sets strings list sorting.
From S2P Require Import Prelude Bytes Sha256 Wire Files Json ReplicaFrames ReplicaRecovery ReplicaStorage ReplicaProofs ReplicaInvariant.
Import StateNotations ResultNotations.
Local Open Scope py_scope.
Local Open Scope Z_scope.
#[local] Opaque be_split sha256.

(** ** Single-frame members *)

Lemma only_frame_ok kind maximum msg content r :
  only_frame kind maximum msg content = Ok r -> r.2 = digest (prefixed kind r.1) /\ content = frame kind r.1.
Proof.
  unfold only_frame. intros [s2 H]%run_reader_ok. apply bind_ok in H as ([[body sum]|] & s1 & Hr & H); [|by ok_inv H].
  apply read_frame_some in Hr as (_ & -> & ->). apply bind_ok in H as (more & s3 & Hm & H).
  unfold checked_that in H. ok_inv H. fields_inv. bool_tac. subst. split; [done|]. unfold source_read in Hm.
  destruct s1; [by rewrite app_nil_r|]. destruct (Z.to_nat 1) eqn:?; done.
Qed.

Lemma single_ok members name kind r :
  single members name kind = Ok r -> r.2 = digest (prefixed kind r.1) /\ length r.2 = 32%nat.
Proof.
  unfold single. intros H. ok_inv H. apply only_frame_ok in H as [-> _]. split; [done|]. apply length_sha256.
Qed.

(** ** Snapshots *)

Lemma read_ancestors_ok n manifest log index previous pe pinc s rest s2 :
  read_ancestors n manifest index previous pe pinc s = (Ok rest, s2) ->
  chained manifest log -> index = Z.of_nat (length log) + 1 -> previous = before e_digest manifest log (length log) ->
  pe = before e_epoch 1 log (length log) -> pinc = before e_incarnation no_incarnation log (length log) ->
  chained manifest (log ++ rest).
Proof.
  revert log index previous pe pinc s rest. induction n as [|n IH]; intros log index previous pe pinc s rest H Hc -> -> -> ->;
    cbn [read_ancestors] in H.
  - apply ret_ok in H as [<- _]. by rewrite app_nil_r.
  - record_inv H. rewrite cons_middle, app_assoc. eapply IH; [eassumption|..]; rewrite ?before_last; try done.
    + apply chained_snoc; [done|]. split; cbn [e_manifest e_index e_epoch e_incarnation e_previous e_payload]; try done.
      * lia.
      * intros Heq. match goal with A : _ || _ = true |- _ => apply orb_true_iff in A as [A|A] end; bool_tac; [lia|done].
    + rewrite length_app. simpl. lia.
Qed.

Lemma parse_proof_ok value manifest voters entries p :
  parse_proof value manifest voters entries = Ok p ->
  1 <= p_index p <= Z.of_nat (length entries) /\ quorum voters (p_receipt_voters p).
Proof.
  intros H. unfold parse_proof in H. ok_inv H. injection H as <-. cbn [p_index p_receipt_voters].
  match goal with A : read_body _ _ = Ok _ |- _ => rewrite read_body_ok in A; unfold proof_body in A; record_inv A end.
  simpl. split; [lia|]. by eapply quorum_intro; [eassumption|lia|].
Qed.

Lemma snapshot_ok f manifest voters s :
  snapshot f manifest voters = Ok s ->
  chained manifest (sn_entries s) /\ certified voters (sn_entries s) (sn_proofs s) (Z.of_nat (length (sn_entries s))).
Proof.
  intros H. unfold snapshot in H. ok_inv H. injection H as <-. cbn [sn_entries sn_proofs].
  match goal with A : read_body _ _ = Ok _ |- _ => rewrite read_body_ok in A; unfold snapshot_body in A; record_inv A end.
  cbn [fst snd]. match goal with
  | A : read_ancestors _ _ _ _ _ _ _ = _, B : (if _ then _ else _) _ = _, C : Bool.eqb _ _ = true, D : forallb _ _ = true |- _ =>
      rename A into Ha, B into Hp, C into He, D into Hl end.
  apply Bool.eqb_prop in He. split; [by apply (read_ancestors_ok _ _ [] _ _ _ _ _ _ _ Ha)|].
  lazymatch type of He with _ = ?b => destruct b eqn:Ep end.
  - apply ret_ok in Hp as [<- _]. bool_tac. subst.
    split; [constructor|constructor|done|done].
  - apply bind_ok in Hp as (p & s5 & Hp & Hr). apply ret_ok in Hr as [<- _]. apply liftr_ok in Hp as [Hp _].
    apply parse_proof_ok in Hp as [Hi Hq]. simpl in Hl. rewrite andb_true_r in Hl. bool_tac.
    split; simpl; [by repeat constructor| |by symmetry|done].
    apply Forall_singleton. split; [lia|done].
Qed.

(** ** The selected generation *)

Definition installed (sel : selection) : list entry :=
  match sel_snapshot sel with Some s => sn_entries s | None => [] end.

Lemma seal_body_ok manifest node generation selected voters s image s2 :
  seal_body manifest node generation selected voters s = (Ok image, s2) ->
  snapshot (selected !! "snapshot.gsr"%string) manifest voters = Ok image.
Proof. intros H. unfold seal_body in H. ok_inv H. by subst. Qed.

Lemma floor_ok f manifest node voters entries n :
  installed_floor f manifest node voters entries = Ok n -> 0 <= n <= Z.of_nat (length entries).
Proof.
  unfold installed_floor. destruct f as [f|]; [|intros [= <-]; lia]. intros H. ok_inv H.
  rewrite read_body_ok in H. unfold floor_body in H. record_inv H. lia.
Qed.

Lemma select_ok members manifest node voters sel :
  select members manifest node voters = Ok sel ->
  0 <= sel_floor sel <= Z.of_nat (length (installed sel)) /\
  (sel_slot sel = None <-> sel_snapshot sel = None) /\
  forall s, sel_snapshot sel = Some s ->
    chained manifest (sn_entries s) /\ certified voters (sn_entries s) (sn_proofs s) (Z.of_nat (length (sn_entries s))).
Proof.
  intros H. unfold select in H. ok_inv H. destruct (members !! "current.gsr"%string) as [pointer|] eqn:E.
  - ok_inv H. injection H as <-. unfold installed. cbn [sel_floor sel_slot sel_snapshot]. split_and!.
    + by eapply floor_ok.
    + by eapply floor_ok.
    + done.
    + intros s [= <-]. match goal with A : read_body (seal_body _ _ _ _ _) _ = Ok _ |- _ => rewrite read_body_ok in A;
        apply seal_body_ok in A; by eapply snapshot_ok end.
  - ok_inv H. injection H as <-. done.
Qed.

(** ** The whole directory *)

Lemma initial_ok manifest voters sel :
  (forall s, sel_snapshot sel = Some s ->
     chained manifest (sn_entries s) /\ certified voters (sn_entries s) (sn_proofs s) (Z.of_nat (length (sn_entries s)))) ->
  journal_ok manifest voters (installed sel) (initial_journal manifest (sel_snapshot sel)).
Proof.
  unfold installed, initial_journal. intros H. destruct (sel_snapshot sel) as [s|].
  - specialize (H s eq_refl). revert H. generalize (sn_entries s). intros l [Hc Hp].
    destruct l as [|e l _] using rev_ind.
    + split; try done; [repeat constructor|by exists []].
    + rewrite last_snoc. split; cbn; rewrite ?before_last; try done; [repeat constructor|].
      exists []. by rewrite app_nil_r.
  - split; try done; [repeat constructor|by exists []|by repeat constructor].
Qed.

Lemma manifest_body_voters body m :
  read_body manifest_body body = Ok m ->
  NoDup (mf_voters m) /\ length (mf_voters m) = 3%nat /\ mf_leader m ∈ mf_voters m.
Proof.
  rewrite read_body_ok. intros H. unfold manifest_body in H. record_inv H. cbn [mf_voters mf_leader].
  match goal with A : times 3 read_voter _ = (Ok ?rows, _) |- _ =>
    apply repeat_reader_length in A end.
  by rewrite length_fmap.
Qed.

Lemma node_body_ok manifest voters rebuilding body node :
  read_body (node_body manifest voters rebuilding) body = Ok node -> node ∈ voters /\ is_identity 64 node = true.
Proof.
  rewrite read_body_ok. intros H. unfold node_body in H. record_inv H.
  match goal with A : identity_field _ _ = _ |- _ => apply identity_field_ok in A as (_ & _ & _ & A) end. done.
Qed.

(** Epochs never decrease along a chain. *)
Lemma chained_epochs manifest log i k e1 e2 :
  chained manifest log -> log !! i = Some e1 -> log !! k = Some e2 -> (i <= k)%nat -> e_epoch e1 <= e_epoch e2.
Proof.
  intros Hc H1. revert e2. induction k as [|k IH]; intros e2 H2 Hk.
  - replace i with O in H1 by lia. simplify_eq. lia.
  - destruct (decide (i = S k)) as [->|Hn]; [simplify_eq; lia|].
    destruct (lookup_lt_is_Some_2 log k) as [e E]; [apply lookup_lt_Some in H2; lia|].
    pose proof (l_epoch _ _ _ _ (Hc _ _ H2)) as He. cbn [before] in He. rewrite E in He.
    specialize (IH _ E). lia.
Qed.

(** What [inspect] promises of a directory it accepts. *)
Record sound (r : report) : Prop := {
  so_voters : NoDup (mf_voters (r_manifest r)) /\ length (mf_voters (r_manifest r)) = 3%nat /\
              mf_leader (r_manifest r) ∈ mf_voters (r_manifest r) /\ r_node r ∈ mf_voters (r_manifest r);
  so_journal : journal_ok (r_manifest_digest r) (mf_voters (r_manifest r))
                 (match r_snapshot r with Some s => sn_entries s | None => [] end) (r_journal r);
  so_floor : 0 <= r_floor r <= r_snapshot_index r;
  so_slot : r_slot r = None <-> r_snapshot r = None;
  so_epochs : Forall (fun e => e_epoch e <= r_promised_epoch r) (j_entries (r_journal r))
}.

Lemma covered_epochs manifest voters snapshot j :
  journal_ok manifest voters (match snapshot with Some s => sn_entries s | None => [] end) j ->
  match snapshot with
  | Some s => match last (sn_entries s) with Some e => e_epoch e <=? promised (j_promises j) | None => true end
  | None => true
  end = true ->
  Forall (fun e => e_epoch e <= promised (j_promises j)) (j_entries j).
Proof.
  intros [_ _ Hc _ _ _ [retained [Hb Hr]] _ _] Hp. rewrite Hb. apply Forall_app. split.
  - destruct snapshot as [s|]; [|constructor]. apply Forall_lookup. intros i e Hi.
    destruct (sn_entries s) as [|l' l _] using rev_ind; [done|]. rewrite last_snoc in Hp. bool_tac.
    etrans; [|exact Hp]. eapply (chained_epochs _ _ i (length l)); [exact Hc| | |].
    + rewrite Hb. by apply lookup_app_l_Some.
    + rewrite Hb. apply lookup_app_l_Some. by rewrite list_lookup_middle.
    + apply lookup_lt_Some in Hi. rewrite length_app in Hi. simpl in Hi. lia.
  - eapply Forall_impl; [exact Hr|]. by intros e [_ ?].
Qed.

Lemma inspect_sound owned directory r : inspect owned directory = Ok r -> sound r.
Proof.
  intros H. unfold inspect in H. ok_inv H. unfold inspect_locked in H. ok_inv H.
  injection H as <-.
  repeat match goal with
  | A : single _ "manifest.gsr" _ = Ok _ |- _ => apply single_ok in A as [_ Hm]
  | A : read_body manifest_body _ = Ok _ |- _ => apply manifest_body_voters in A as (V1 & V2 & V3)
  | A : read_body (node_body _ _ _) _ = Ok _ |- _ => apply node_body_ok in A as [Hn Hi]
  | A : select _ _ _ _ = Ok _ |- _ => apply select_ok in A as (Hf & Hs & Hj%initial_ok)
  | A : check (match sel_snapshot _ with _ => _ end) _ = Ok _ |- _ => apply guard_ok in A; rename A into Hp
  end.
  lazymatch goal with A : read_journal _ _ _ _ _ 4 _ _ = _, B : read_journal _ _ _ _ _ 5 _ _ = _, C : read_journal _ _ _ _ _ 6 _ _ = _ |- _ =>
    pose proof (read_journal_preserved _ _ _ _ _ _ _ _ _ _ Hm Hi (or_introl eq_refl) A Hj) as H4;
    pose proof (read_journal_preserved _ _ _ _ _ _ _ _ _ _ Hm Hi (or_intror (or_introl eq_refl)) B H4) as H5;
    pose proof (read_journal_preserved _ _ _ _ _ _ _ _ _ _ Hm Hi (or_intror (or_intror eq_refl)) C H5) as H6 end.
  split; cbn [r_manifest r_node r_journal r_manifest_digest r_snapshot r_floor r_slot r_promised_epoch]; try done.
  - unfold r_snapshot_index, installed in *. cbn [r_snapshot]. destruct (sel_snapshot _); exact Hf.
  - eapply covered_epochs; [exact H6|exact Hp].
Qed.

(** ** Properties of the replica directory *)

#[local] Opaque sha256.

Definition r_entries (r : report) : list entry := j_entries (r_journal r).
(** Position of the first entry the journal retains. *)
Definition first_retained (r : report) : nat := match r_snapshot r with Some s => length (sn_entries s) | None => 0 end.

Lemma retained_kept r i e :
  sound r -> r_entries r !! i = Some e -> (first_retained r <= i)%nat -> kept (r_entries r) i.
Proof.
  intros [_ [_ _ _ _ _ _ [retained [Hb Hr]] _ _] _ _ _] Hi Hl. unfold r_entries, first_retained in *. rewrite Hb in *.
  assert (e ∈ retained) as He.
  { apply lookup_app_Some in Hi as [Hi|[_ Hi]]; [|by eapply list_elem_of_lookup_2].
    apply lookup_lt_Some in Hi. destruct (r_snapshot r); simpl in *; lia. }
  rewrite Forall_forall in Hr. destruct (Hr _ He) as [[p Hp] _]. by exists e, p.
Qed.

(** C19: the journal reader is its language.  A journal file of kind promises, entries or proofs is
    accepted exactly when it is the frame of the identity header (manifest digest, node, kind) followed
    by frames of the journal's kind, each within the bound of its kind, whose records are accepted one
    after the other from the state the reader starts with; then the reader returns the state after the
    last record.  The fuel of the loop, the length of the file, never runs out. *)
Theorem journal_language manifest leader voters has_snapshot node kind j content j' :
  length manifest = 32%nat -> is_identity 64 node = true -> is_journal kind ->
  read_journal manifest leader voters has_snapshot node kind j content = Ok j' <->
  exists bodies,
    let header := manifest ++ text node ++ be_split 2 kind in
    content = frame 3 header ++ concat (frame kind <$> bodies) /\
    Forall (fits (journal_limit kind)) bodies /\
    run_bodies manifest leader voters has_snapshot kind (add_header (digest (prefixed 3 header)) j) bodies = Ok j'.
Proof. apply read_journal_ok. Qed.

(** C18: what an accepted replica directory satisfies: the manifest has three distinct voters, with the
    leader and this node among them; recovery floor, snapshot, commit and last index are in this order;
    the log is a chain of digests from the manifest digest whose retained entries are the content of
    their records; the commit index is that of the last proof, and every proof has the ordered receipts
    of two or three voters; promises increase, and no entry is newer than the last promise. *)
Theorem accepted_replica_sound owned directory r :
  inspect owned directory = Ok r ->
  let voters := mf_voters (r_manifest r) in
  (NoDup voters /\ length voters = 3%nat /\ mf_leader (r_manifest r) ∈ voters /\ r_node r ∈ voters) /\
  (0 <= r_floor r <= r_snapshot_index r /\ r_snapshot_index r <= r_commit_index r <= r_last_log_index r) /\
  chained (r_manifest_digest r) (r_entries r) /\
  certified voters (r_entries r) (j_proofs (r_journal r)) (r_commit_index r) /\
  StronglySorted Z.lt (1 :: (j_promises (r_journal r)).*1) /\
  Forall (fun e => e_epoch e <= r_promised_epoch r) (r_entries r).
Proof.
  intros [Hv [Js _ Jc _ _ _ _ Jp Jl] Hf _ He]%inspect_sound. split; [exact Hv|].
  split; [split; [exact Hf|split; [|apply Jp]]|].
  - unfold r_snapshot_index, r_commit_index. destruct (r_snapshot r); exact Jl.
  - split; [exact Jc|]. split; [exact Jp|]. split; [exact Js|exact He].
Qed.

(** C17: agreement of two replicas.  When two accepted directories, of any two nodes, hold retained
    entries with one record digest, the entries have one index, the manifests are the same, and the two
    logs are equal from the later of the two snapshots up to that index, in every field and with equal
    payloads, and continue the same history: unless two records are a SHA-256 collision. *)
Theorem replicas_agree o1 o2 d1 d2 r1 r2 i j e1 e2 :
  inspect o1 d1 = Ok r1 -> inspect o2 d2 = Ok r2 ->
  r_entries r1 !! i = Some e1 -> r_entries r2 !! j = Some e2 ->
  (first_retained r1 <= i)%nat -> (first_retained r2 <= j)%nat -> e_digest e1 = e_digest e2 ->
  let s := Nat.max (first_retained r1) (first_retained r2) in
  (i = j /\ r_manifest_digest r1 = r_manifest_digest r2 /\
   before e_digest (r_manifest_digest r1) (r_entries r1) s = before e_digest (r_manifest_digest r2) (r_entries r2) s /\
   forall k, (s <= k <= i)%nat -> r_entries r1 !! k = r_entries r2 !! k)
  \/ record_collision (r_entries r1) (r_entries r2).
Proof.
  intros S1%inspect_sound S2%inspect_sound E1 E2 F1 F2 Hd s.
  pose proof (jo_chain _ _ _ _ (so_journal _ S1)) as C1. pose proof (jo_chain _ _ _ _ (so_journal _ S2)) as C2.
  destruct (same_digest_entry _ _ _ _ _ _ _ _ C1 C2 E1 E2 (retained_kept _ _ _ S1 E1 F1) (retained_kept _ _ _ S2 E2 F2) Hd)
    as [->|?]; [|by right].
  pose proof (l_index _ _ _ _ (C1 _ _ E1)) as I1. pose proof (l_index _ _ _ _ (C2 _ _ E2)) as I2.
  assert (i = j) as <- by lia. pose proof (lookup_lt_Some _ _ _ E1) as L1. pose proof (lookup_lt_Some _ _ _ E2) as L2.
  assert (forall k, (s <= k <= i)%nat -> kept (r_entries r1) k /\ kept (r_entries r2) k) as Hk.
  { intros k Hk. destruct (lookup_lt_is_Some_2 (r_entries r1) k) as [x Hx]; [lia|].
    destruct (lookup_lt_is_Some_2 (r_entries r2) k) as [y Hy]; [lia|].
    split; [eapply (retained_kept r1); [done..|lia]|eapply (retained_kept r2); [done..|lia]]. }
  assert (forall k, (s <= k <= i)%nat -> record_collision (r_entries r1) (r_entries r2) \/
            r_entries r1 !! k = r_entries r2 !! k /\
            before e_digest (r_manifest_digest r1) (r_entries r1) k = before e_digest (r_manifest_digest r2) (r_entries r2) k)
    as Ha.
  { intros k Hki. replace k with (i - (i - k))%nat by lia. eapply entry_chains_agree; [done..|lia|intros ??; apply Hk; lia|].
    cbn [before]. unfold r_entries in *. by rewrite E1, E2. }
  destruct (Ha s) as [?|[_ Hs]]; [lia|by right|].
  destruct (decide (Forall (fun k => r_entries r1 !! k = r_entries r2 !! k) (seq s (S i - s)))) as [Hall|Hex].
  - left. split; [done|]. split; [by rewrite <- (l_manifest _ _ _ _ (C1 _ _ E1)), (l_manifest _ _ _ _ (C2 _ _ E2))|].
    split; [exact Hs|]. intros k Hki. rewrite Forall_forall in Hall. apply Hall, elem_of_seq. lia.
  - right. apply not_Forall_Exists, Exists_exists in Hex as (k & Hin & Hne); [|intros ?; apply _].
    apply elem_of_seq in Hin. destruct (Ha k) as [?|[? _]]; [lia|done|done].
Qed.

(** ** The fixtures *)

Definition fixture_directory : file := Folder (fixture_members true).
Definition recovery_directory : file := Folder recovery_members.
Definition fixture_promises : bytes := fixture_header 4 ++ fixture_promise.

Lemma journal_language_witness :
  exists j', read_journal fixture_digest "node-1" VOTERS false "node-2" 4 (initial_journal fixture_digest None) fixture_promises = Ok j' /\
  exists bodies,
    let header := fixture_digest ++ text "node-2" ++ be_split 2 4 in
    fixture_promises = frame 3 header ++ concat (frame 4 <$> bodies) /\
    Forall (fits (journal_limit 4)) bodies /\
    run_bodies fixture_digest "node-1" VOTERS false 4
      (add_header (digest (prefixed 3 header)) (initial_journal fixture_digest None)) bodies = Ok j'.
Proof.
  assert (exists j', read_journal fixture_digest "node-1" VOTERS false "node-2" 4 (initial_journal fixture_digest None)
                       fixture_promises = Ok j') as [j' Hj] by (eexists; vm_compute; reflexivity).
  exists j'. split; [exact Hj|].
  apply (journal_language fixture_digest "node-1" VOTERS false "node-2" 4 (initial_journal fixture_digest None)
           fixture_promises j'); [vm_compute; reflexivity|vm_compute; reflexivity|left; reflexivity|exact Hj].
Defined.

Lemma accepted_replica_sound_witness :
  exists r, inspect false recovery_directory = Ok r /\
  let voters := mf_voters (r_manifest r) in
  (NoDup voters /\ length voters = 3%nat /\ mf_leader (r_manifest r) ∈ voters /\ r_node r ∈ voters) /\
  (0 <= r_floor r <= r_snapshot_index r /\ r_snapshot_index r <= r_commit_index r <= r_last_log_index r) /\
  chained (r_manifest_digest r) (r_entries r) /\
  certified voters (r_entries r) (j_proofs (r_journal r)) (r_commit_index r) /\
  StronglySorted Z.lt (1 :: (j_promises (r_journal r)).*1) /\
  Forall (fun e => e_epoch e <= r_promised_epoch r) (r_entries r).
Proof.
  assert (exists r, inspect false recovery_directory = Ok r) as [r Hr] by (eexists; vm_compute; reflexivity).
  exists r. split; [exact Hr|]. exact (accepted_replica_sound false recovery_directory r Hr).
Defined.

(** The populated fixture and the one with an installed snapshot hold the same third entry. *)
Definition shared_entry (r1 r2 : report) : bool :=
  match r_entries r1 !! 2%nat, r_entries r2 !! 2%nat with
  | Some e1, Some e2 => bool_decide (e_digest e1 = e_digest e2) && (first_retained r1 <=? 2)%nat && (first_retained r2 <=? 2)%nat
  | _, _ => false
  end.
Definition share (a b : result report) : bool :=
  match a, b with Ok r1, Ok r2 => shared_entry r1 r2 | _, _ => false end.

Lemma fixtures_shared :
  exists r1 r2, inspect false fixture_directory = Ok r1 /\ inspect false recovery_directory = Ok r2 /\ shared_entry r1 r2 = true.
Proof.
  assert (share (inspect false fixture_directory) (inspect false recovery_directory) = true) as H by (vm_compute; reflexivity).
  unfold share in H.
  destruct (inspect false fixture_directory) as [r1|]; [|discriminate H].
  destruct (inspect false recovery_directory) as [r2|]; [|discriminate H]. exists r1, r2. split_and!; [reflexivity..|exact H].
Qed.

Lemma shared_entry_ok r1 r2 :
  shared_entry r1 r2 = true ->
  exists e1 e2, r_entries r1 !! 2%nat = Some e1 /\ r_entries r2 !! 2%nat = Some e2 /\
    e_digest e1 = e_digest e2 /\ (first_retained r1 <= 2)%nat /\ (first_retained r2 <= 2)%nat.
Proof.
  unfold shared_entry. intros H. destruct (r_entries r1 !! 2%nat) as [e1|]; [|discriminate H].
  destruct (r_entries r2 !! 2%nat) as [e2|]; [|discriminate H]. bool_tac. exists e1, e2. split_and!; done.
Qed.

Lemma replicas_agree_witness :
  exists r1 r2, inspect false fixture_directory = Ok r1 /\ inspect false recovery_directory = Ok r2 /\
  let s := Nat.max (first_retained r1) (first_retained r2) in
  ((2 = 2)%nat /\ r_manifest_digest r1 = r_manifest_digest r2 /\
   before e_digest (r_manifest_digest r1) (r_entries r1) s = before e_digest (r_manifest_digest r2) (r_entries r2) s /\
   forall k, (s <= k <= 2)%nat -> r_entries r1 !! k = r_entries r2 !! k)
  \/ record_collision (r_entries r1) (r_entries r2).
Proof.
  destruct fixtures_shared as (r1 & r2 & I1 & I2 & (e1 & e2 & E1 & E2 & Hd & F1 & F2)%shared_entry_ok).
  exists r1, r2. split; [exact I1|]. split; [exact I2|].
  exact (replicas_agree false false fixture_directory recovery_directory r1 r2 2 2 e1 e2 I1 I2 E1 E2 F1 F2 Hd).
Defined.
