(* ===== verification/FixtureProperties.v ===== *)
(** * The published fixtures

    The encoders of the three V4 format scripts give the identities that the repository publishes for
    its compatibility fixtures, and the inspections of the same scripts accept what they write. *)

From stdpp Require Import base gmap sets strings list.
From S2P Require Import Prelude Bytes Sha256 Files HexFixture BackupFormat StorageV11 DerivedV12 Json TextCodes AutoFixture V11Proofs.
Local Open Scope string_scope.

(** The base64 texts of frames are the given ones. *)
Definition same_texts (fs : frames) (texts : list (string * string)) : bool :=
  bool_decide ((fun row : string * bytes => (row.1, b64encode row.2)) <$> fs = texts).

(** The published fixtures.  The V4.1 bundle, the V4.2 store and backup and the V4.3 live store and
    backup the encoders build are accepted and have exactly the profile digests, catalog and content
    identities recorded next to the compatibility fixtures of the repository; and the V4.3 hexadecimal
    directory [write_fixture] leaves is read back by [load_hex_fixture] as the same fixture and passes
    the [inspect] command.  The V5.1 generator gives, with every frame inspected on the way, exactly the
    texts of the tracked fixture file for the seventeen record kinds before PLAN. *)
Theorem published_fixtures :
  option_map BackupFormat.in_content_identity
    (ok_value (BackupFormat.inspect_bundle (fun _ => false) BackupFormat.fixture_bundle))
    = Some "gse-backup-v1-d1a8b2c947d21af5d3cf2d0b50e80006c0369b9f4e5a0f5e5a427c6e57e18514" /\
  is_ok (StorageV11.inspect_store (Folder V11Proofs.fixture_members)) = true /\
  StorageV11.fx_profile_sha256 StorageV11.fixture = "f5013976ba0c49b62a6a38ce8a6af4cf5f8acf53e24dcf9733d22382b1e5f50f" /\
  option_map StorageV11.br_content_identity
    (ok_value (StorageV11.inspect_backup (StorageV11.as_directory (StorageV11.fx_backup StorageV11.fixture))))
    = Some "gse-backup-v2-980f862c5a7eebaa4b5191d183ff066f43254b68f60bee0bda580165988ac8ff" /\
  DerivedV12.fx_profile_sha256 DerivedV12.fixture = "596a1cdd7cf38f97f7bc740ff7a6e340fcca9c86b62ad261886db4c687b4595a" /\
  DerivedV12.fx_catalog_identity DerivedV12.fixture
    = "gse-derived-catalog-v1-5ffe7bbd7255fd5df581bae9c352f4c59c55214b5348bbd13c410063b6b266a6" /\
  DerivedV12.fx_backup_identity DerivedV12.fixture
    = "gse-backup-v3-37ce729783b1bdb6a49203c7543f48d2f3e97f7771f45b5a8eaae54e34779783" /\
  DerivedV12.load_hex_fixture (DerivedV12.write_fixture DerivedV12.fixture) = Ok DerivedV12.fixture /\
  DerivedV12.inspect_root (DerivedV12.write_fixture DerivedV12.fixture) = Ok tt /\
  (forall to_ascii, option_map (fun g => same_texts (ge_frames g) tracked_storage)
     (ok_value (fold_all (generate_record to_ascii) (take 17 order) (Generated [] [] None))) = Some true).
Proof. split_and!; vm_compute; reflexivity. Qed.
